(* ===== verification/_CoqProject ===== *)
-Q . S2P
Prelude.v
Interfaces.v
Pmm.v
Vmm.v
Kmalloc.v
Timer.v
CText.v
Task.v
Arch.v
Keyboard.v
Pci.v
Libc.v
Fat32.v
Ata.v
Fat32Facts.v
Gpt.v
Screen.v
Rtl8169.v
NetStack.v
NetStackFacts.v
Agent.v
Reports.v
Shell.v
System.v
ShellFacts.v
Frame.v
Kernel.v
KernelFacts.v
LwipBase.v
LwipAddr.v
LwipChksum.v
LwipMem.v
LwipMemp.v
LwipTimeouts.v
LwipPbuf.v
LwipPbufData.v
LwipPbufChksum.v
LwipPbufOwn.v
LwipPbufAlloc.v
LwipPbufClient.v
LwipPbufUse.v
LwipPbufFacts.v
LwipEtharp.v
LwipEtharpInv.v
LwipEtharpOps.v
LwipEtharpIn.v
LwipEtharpFacts.v
