(* ===== verification/Prelude.v ===== *)
(** * A verification of the Jarvis OS kernel

    The repository is a 64-bit x86 kernel in C: boot code (src/arch, src/mm,
    src/core/kernel.c), drivers (src/drivers), a FAT32 file system (src/fs), a
    scheduler and a shell (src/core), a language-model client on top of lwIP
    (src/drivers/net/net_stack.c, src/agent) and a small C library (src/libc).
    This library models that code, component by component, as executable
    functions on the state each component keeps, and proves what makes it
    correct.  Paths below are relative to src/ of the repository.

    ** How code becomes definitions

    A C function is a [comp S A]: from the component's state [S] it returns a
    value with the new state, meets undefined behaviour ([Undef]: an access
    out of an array, a copy that does not fit its buffer, a division by zero)
    or runs out of fuel.  Integers are [Z], with the conversions of C written
    out ([u8] to [u64], [i8] to [i64]); arrays are lists, or functions whose
    accesses are checked; memory that the code reads through pointers is a
    function from addresses.  What cannot be read in C here (instructions,
    ports, device registers, the protocols of lwIP) is an argument of the definitions that use
    it.  Printing is an operation of the class [Console]; most components log
    it, and Screen models the console itself.

    A [while] is [loop], whose fuel of 2^64 rounds no terminating loop of the
    code reaches: the theorems on loops prove a measure below it ([wp_loop]),
    and [loop_stuck] shows the loops that spin for ever.  [recursive_rm] of
    the file system has a depth of 128, the line editor's completion and the
    shell inside the client a depth as an argument; [execute_nesting] shows
    that two levels of the latter are all there is.

    ** The files

    - Prelude: integers, [comp], loops, the weakest preconditions [wp] (the
      computation returns) and [wlp], lists, decimal text.  Interfaces: the
      classes [FrameAlloc], [BlockDev] and [Part].  Frame: what a computation
      leaves alone.  CText: texts in [char] arrays.
    - Pmm (mm/pmm.c), Vmm (mm/vmm.c), Kmalloc (mm/kmalloc.c): the frame
      bitmap, the page tables over any [FrameAlloc], the heap over both.
    - Timer (core/timer.c, drivers/net/lwip_sys.c), Task (core/task.c), Arch
      (arch/x86_64/gdt.c, idt.c, acpi.c), Keyboard (drivers/keyboard.c).
    - Pci (drivers/pci.c, ahci.c, net/net.c), Ata (drivers/ata.c), Screen
      (drivers/screen.c), Rtl8169 (drivers/net/rtl8169.c, e1000_mock.c).
    - Libc (libc/string.c, stdlib.c, math.c), on byte-addressed memory.
    - Fat32 and Fat32Facts (fs/fat32.c) over any [BlockDev], of which Ata has
      the ramdisk as an instance; Gpt (fs/gpt.c); Agent (agent/agent.c).
    - NetStack and NetStackFacts (drivers/net/net_stack.c).
    - Reports, Shell and ShellFacts (core/shell.c), on any state in which the
      components they call are [Part]s.
    - System: one record with the state of every component and its [Part]s.
      Kernel (core/kernel.c, arch/x86_64/io.c): the drivers on a machine, the
      shell and the client calling each other, the interrupts, [kmain].
      KernelFacts: theorems about the whole.
    - LwipBase: configuration, alignment and byte order of lwIP, and the
      classes [Pools] and [Heaps]; LwipChksum (net/lwip/src/core/inet_chksum.c),
      LwipMem (mem.c), LwipMemp (memp.c), LwipTimeouts (timeouts.c) on any
      [Pools].
    - LwipPbuf (pbuf.c) on any [Pools] and [Heaps]; LwipPbufData: packets as
      sequences of bytes; LwipPbufOwn, LwipPbufAlloc, LwipPbufClient,
      LwipPbufUse: reference counts and the buffers in use; LwipPbufFacts: the
      theorems.  LwipPbufChksum: the checksums of inet_chksum.c over packets.
    - LwipAddr (ipv4/ip4_addr.c): addresses, netmasks and their texts.
      LwipEtharp (ipv4/etharp.c, netif/ethernet.c), on the packet buffers and
      any driver of the class [Link]; LwipEtharpInv: the table and who holds
      the packets that wait in it; LwipEtharpOps, LwipEtharpIn: each operation
      run from there; LwipEtharpFacts: the theorems.

    Names are those of the source.  A function with a long body is cut into
    definitions for its parts, in the order of the code.

    ** What the theorems show

    - Memory: the allocator finds a free frame exactly when there is one,
      keeps its counter, never hands out a live or protected frame, and the
      boot protects the kernel and the modules; [vmm_map_page] keeps the
      tables a tree and maps exactly the page; the heap refines a list of
      blocks that tile it, with first fit, splitting and coalescing.
    - Scheduling and input: round robin, fairness, the life of a task; the
      key ring is a queue, scancodes become characters; with the shell on the
      other end, keys reach the line once and in order under any interleaving;
      the main loop alternates between the shell and the idle task.
    - Storage: the driver on the ramdisk refines the abstract disk; links of
      the allocation table round-trip, reads deliver slices of a file's
      content, a chain is freed exactly, names survive storing; the . and ..
      entries of a directory cannot be resolved.
    - Console: the ring of lines refines an unbounded terminal, the display
      shows the terminal's lines, numbers print their digits.
    - Network: frames are queued and received in ring order, none lost by the
      driver; a request is well formed and within its buffers, no prompt
      escapes its quotes, and no reply makes the parser overrun or hang.
    - Shell: the grammar of command lines, the line editor, completion; and a
      frame theorem: nothing that is typed touches the descriptor tables, the
      page tables, the heap, the key ring or the task table.
    - lwIP: its heap refines a list of blocks, its pools hand out no element
      twice, the timers fire in order and stay armed, the checksums of packets
      are those of RFC 1071; reference counts of packet buffers are exact under every
      sequence of client operations, allocation is all or nothing, and storing,
      shortening and copying packets act on their bytes, however these are cut
      into buffers.  Address resolution accounts for every packet that waits,
      asks for its address once and delivers it byte for byte when the address
      is learned, answers requests for our address with the exact frame,
      recycles and expires its entries in the order promised; address texts
      are read back.  What needs memory is done exactly when the heap has a
      block for it ([heap_serves], which for mem.c is first fit).

    Where the code does not do what it means to, the theorem states what it
    does: for instance the scheduler runs a dead task when nothing else can
    run, the frame allocator reads one byte past a full bitmap, a MADT record
    of length 0 stops the boot, and [mem_trim] hangs when it cuts the last
    block of the heap.

    ** What is not modelled

    The upper protocols of lwIP (net/lwip: IP, ICMP, TCP, UDP, DHCP, AutoIP)
    are third-party; the calls of the kernel and of [ethernet_input] to them
    are arguments, and the theorems that rely on them name what they assume.
    The counters that lwIP keeps of ARP frames are left out.  The assembly (loader.s, the
    interrupt stubs, vmm_asm.s) and single instructions act on the machine and
    are arguments or addresses.  The floating-point part of math.c is left
    out, and so are cache flushes, fences and delays, which change no state.
    Interrupts do not preempt a function of the model: they are events
    between turns.  The console's own state is not part of [kernel]: the
    kernel logs what it prints, and Screen shows what the console makes of a
    string. *)

From Stdlib Require Import ZArith Lia String Ascii.
From stdpp Require Import base numbers list option functions gmap strings.

#[global] Open Scope Z_scope.

(** ** Machine integers: values are [Z], each C conversion is written out *)

Definition u8 (x : Z) : Z := x `mod` 2 ^ 8.
Definition u16 (x : Z) : Z := x `mod` 2 ^ 16.
Definition u32 (x : Z) : Z := x `mod` 2 ^ 32.
Definition u64 (x : Z) : Z := x `mod` 2 ^ 64.
(** Two's complement reading of the low [w] bits ([char], [int], [long]). *)
Definition signed (w x : Z) : Z := (x + 2 ^ (w - 1)) `mod` 2 ^ w - 2 ^ (w - 1).
Definition i8 (x : Z) : Z := signed 8 x.
Definition i32 (x : Z) : Z := signed 32 x.
Definition i64 (x : Z) : Z := signed 64 x.

(** ** Outcomes of C code: a value, undefined behaviour, or no more fuel *)

Inductive outcome (A : Type) : Type :=
  | Ret (a : A)
  | Undef
  | OutOfFuel.
Arguments Ret {A} a.
Arguments Undef {A}.
Arguments OutOfFuel {A}.

(** A stateful computation over a component's state [S]. *)
Definition comp (S A : Type) : Type := S → outcome (A * S).

#[global] Instance comp_ret {S} : MRet (comp S) := λ A a s, Ret (a, s).
#[global] Instance comp_bind {S} : MBind (comp S) := λ A B f m s,
  match m s with
  | Ret (a, s') => f a s'
  | Undef => Undef
  | OutOfFuel => OutOfFuel
  end.

Definition get {S} : comp S S := λ s, Ret (s, s).
Definition put {S} (s' : S) : comp S unit := λ _, Ret (tt, s').
Definition gets {S A} (f : S → A) : comp S A := λ s, Ret (f s, s).
Definition modify {S} (f : S → S) : comp S unit := λ s, Ret (tt, f s).
Definition undef {S A} : comp S A := λ _, Undef.
Definition out_of_fuel {S A} : comp S A := λ _, OutOfFuel.
(** An access the C standard leaves undefined when the option is [None]. *)
Definition must {S A} (o : option A) : comp S A :=
  match o with Some a => mret a | None => undef end.

(** Run a computation on a part of the state. *)
Definition zoom {S T A} (pr : S → T) (st : T → S → S) (m : comp T A) : comp S A := λ s,
  match m (pr s) with
  | Ret (a, t) => Ret (a, st t s)
  | Undef => Undef
  | OutOfFuel => OutOfFuel
  end.

(** ** Loops *)

(** [for (i = lo; i < lo + n; i++)] with an early exit: the body answers
    [Some r] to leave the loop with [r], [None] to go on. *)
Fixpoint for_nat {S R} (n : nat) (i : Z) (body : Z → comp S (option R)) : comp S (option R) :=
  match n with
  | O => mret None
  | Datatypes.S n' =>
      r ← body i;
      match r with
      | Some x => mret (Some x)
      | None => for_nat n' (i + 1) body
      end
  end.
Definition for_range {S R} (lo hi : Z) (body : Z → comp S (option R)) : comp S (option R) :=
  for_nat (Z.to_nat (hi - lo)) lo body.
Definition for_each {S} (lo hi : Z) (body : Z → comp S unit) : comp S unit :=
  _ ← for_range lo hi (λ i, body i;; mret (None : option unit)); mret tt.

(** [while] loops: the body answers [inl a] to go round again with [a] and
    [inr r] to leave with [r].  Fuel is binary, so that [2 ^ 64] rounds cost
    nothing to write down. *)
Fixpoint itern {S A R} (n : nat) (body : A → comp S (A + R)) (a : A) : comp S (A + R) :=
  match n with
  | O => mret (inl a)
  | Datatypes.S n' =>
      r ← body a;
      match r with
      | inl a' => itern n' body a'
      | inr x => mret (inr x)
      end
  end.
Definition next_round {S A R} (k : A → comp S (A + R)) (r : A + R) : comp S (A + R) :=
  match r with inl a => k a | inr x => mret (inr x) end.
Fixpoint iterp {S A R} (p : positive) (body : A → comp S (A + R)) (a : A) : comp S (A + R) :=
  match p with
  | xH => body a
  | xO q => r ← iterp q body a; next_round (iterp q body) r
  | xI q => r ← body a;
            next_round (λ a1, r1 ← iterp q body a1; next_round (iterp q body) r1) r
  end.
Definition fuel : positive := 18446744073709551616.
Definition loop {S A R} (body : A → comp S (A + R)) (a : A) : comp S R :=
  r ← iterp fuel body a;
  match r with
  | inl _ => out_of_fuel
  | inr x => mret x
  end.

(** ** Bytes, little-endian fields and byte arrays *)

Definition is_byte (b : Z) : Prop := 0 ≤ b < 256.

Fixpoint le_dec (l : list Z) : Z :=
  match l with [] => 0 | b :: t => b + 256 * le_dec t end.
Fixpoint le_enc (n : nat) (v : Z) : list Z :=
  match n with O => [] | Datatypes.S n' => v `mod` 256 :: le_enc n' (v / 256) end.

(** [n] bytes of the buffer [l] from offset [off]; the same bytes replaced. *)
Definition slice (l : list Z) (off : Z) (n : nat) : list Z := take n (drop (Z.to_nat off) l).
Definition splice (l : list Z) (off : Z) (new : list Z) : list Z :=
  take (Z.to_nat off) l ++ new ++ drop (Z.to_nat off + length new) l.
Definition ld8 (l : list Z) (off : Z) : Z := le_dec (slice l off 1).
Definition ld16 (l : list Z) (off : Z) : Z := le_dec (slice l off 2).
Definition ld32 (l : list Z) (off : Z) : Z := le_dec (slice l off 4).
Definition ld64 (l : list Z) (off : Z) : Z := le_dec (slice l off 8).
Definition st8 (l : list Z) (off v : Z) : list Z := splice l off (le_enc 1 v).
Definition st16 (l : list Z) (off v : Z) : list Z := splice l off (le_enc 2 v).
Definition st32 (l : list Z) (off v : Z) : list Z := splice l off (le_enc 4 v).

(** Byte-addressed memory, and little-endian loads from it. *)
Abbreviation memory := (Z → Z).
Definition mem_bytes (m : memory) (a : Z) (n : nat) : list Z :=
  map (λ k, m (a + Z.of_nat k)) (seq 0 n).
Definition mld8 (m : memory) (a : Z) : Z := m a.
Definition mld32 (m : memory) (a : Z) : Z := le_dec (mem_bytes m a 4).
Definition mld64 (m : memory) (a : Z) : Z := le_dec (mem_bytes m a 8).

(** Bytes stored from an address on. *)
Definition mem_store (m : memory) (a : Z) (bs : list Z) : memory := λ x,
  if (a <=? x) && (x <? a + Z.of_nat (length bs)) then nth (Z.to_nat (x - a)) bs 0 else m x.

(** Array element [i] of a list, and the list with it replaced; [None] out of
    range, where C leaves the access undefined. *)
Definition znth {A} (l : list A) (i : Z) : option A :=
  if 0 <=? i then l !! Z.to_nat i else None.
Definition zset {A} (l : list A) (i : Z) (x : A) : option (list A) :=
  if (0 <=? i) && (i <? Z.of_nat (length l)) then Some (<[Z.to_nat i := x]> l) else None.

(** ** The console seen by the other components *)

(** One constructor per printing function of screen.h; [OutStr] prints a
    string literal, [OutBytes] a NUL-free buffer of [char]s; [OutColored]
    prints one and puts the text colour back. *)
Inductive out : Type :=
  | OutChar (c : Z)
  | OutStr (s : string)
  | OutBytes (s : list Z)
  | OutDec (n : Z)
  | OutHex (n : Z)
  | OutColor (attr : Z)
  | OutReset
  | OutColored (s : list Z) (attr : Z).

Class Console (S : Type) := emit : out → S → S.

Definition print_char {S} `{Console S} (c : Z) : comp S unit := modify (emit (OutChar c)).
Definition print_string {S} `{Console S} (s : string) : comp S unit := modify (emit (OutStr s)).
Definition print_bytes {S} `{Console S} (s : list Z) : comp S unit := modify (emit (OutBytes s)).
Definition kprint_dec {S} `{Console S} (n : Z) : comp S unit := modify (emit (OutDec (u32 n))).
Definition kprint_hex {S} `{Console S} (n : Z) : comp S unit := modify (emit (OutHex (u32 n))).
Definition set_text_color {S} `{Console S} (a : Z) : comp S unit := modify (emit (OutColor (u8 a))).
Definition reset_text_color {S} `{Console S} : comp S unit := modify (emit OutReset).
Definition print_color_string {S} `{Console S} (s : list Z) (attr : Z) : comp S unit := modify (emit (OutColored s (u8 attr))).

(** The colours of screen.h. *)
Definition MAKE_COLOR (fg bg : Z) : Z := Z.lor (Z.shiftl bg 4) fg.
Definition COLOR_BLACK : Z := 0x0.
Definition COLOR_CYAN : Z := 0x3.
Definition COLOR_RED : Z := 0x4.
Definition COLOR_LIGHT_GREY : Z := 0x7.
Definition COLOR_LIGHT_BLUE : Z := 0x9.
Definition COLOR_LIGHT_GREEN : Z := 0xA.
Definition COLOR_LIGHT_CYAN : Z := 0xB.
Definition COLOR_LIGHT_RED : Z := 0xC.
Definition COLOR_LIGHT_MAGENTA : Z := 0xD.
Definition COLOR_YELLOW : Z := 0xE.
Definition COLOR_WHITE : Z := 0xF.
(** The text in colour [fg] on black. *)
Definition color {S} `{Console S} (fg : Z) : comp S unit := set_text_color (MAKE_COLOR fg COLOR_BLACK).

(** A newline, for the string literals that end in one. *)
Definition NL : string := String (ascii_of_nat 10) EmptyString.

(** Bytes of a string literal. *)
Fixpoint bytes_of (s : string) : list Z :=
  match s with
  | EmptyString => []
  | String c t => Z.of_nat (nat_of_ascii c) :: bytes_of t
  end.

(** The digits of "0123456789ABCDEF", picked by the low four bits. *)
Definition hex_digits : list Z := bytes_of "0123456789ABCDEF".
Definition hex_digit (v : Z) : Z := nth (Z.to_nat (Z.land v 0xF)) hex_digits 0.

(** A line of text. *)
Definition print_line {S} `{Console S} (s : string) : comp S unit := print_string (s +:+ NL).

(** ** Total-correctness reasoning *)

(** [wp m Q s]: run from [s], [m] returns (no undefined behaviour, no fuel
    shortage) and [Q] holds of its result and final state. *)
Definition wp {S A} (m : comp S A) (Q : A → S → Prop) (s : S) : Prop :=
  match m s with
  | Ret (a, s') => Q a s'
  | Undef => False
  | OutOfFuel => False
  end.

Lemma wp_ret {S A} (a : A) (Q : A → S → Prop) s : Q a s → wp (mret a) Q s.
Proof. done. Qed.

Lemma wp_bind {S A B} (m : comp S A) (f : A → comp S B) Q s :
  wp m (λ a s', wp (f a) Q s') s → wp (m ≫= f) Q s.
Proof. unfold wp, mbind, comp_bind. destruct (m s) as [[a s']| |]; auto. Qed.

Lemma wp_mono {S A} (m : comp S A) (Q Q' : A → S → Prop) s :
  wp m Q s → (∀ a s', Q a s' → Q' a s') → wp m Q' s.
Proof. unfold wp. destruct (m s) as [[a s']| |]; auto. Qed.

Lemma wp_gets {S A} (f : S → A) Q s : Q (f s) s → wp (gets f) Q s.
Proof. done. Qed.
Lemma wp_get {S} (Q : S → S → Prop) s : Q s s → wp get Q s.
Proof. done. Qed.
Lemma wp_put {S} (t : S) (Q : unit → S → Prop) s : Q tt t → wp (put t) Q s.
Proof. done. Qed.
Lemma wp_modify {S} (f : S → S) (Q : unit → S → Prop) s : Q tt (f s) → wp (modify f) Q s.
Proof. done. Qed.
Lemma wp_must {S A} (o : option A) a (Q : A → S → Prop) s :
  o = Some a → Q a s → wp (must o) Q s.
Proof. by intros ->. Qed.
Lemma wp_zoom {S T A} (pr : S → T) st (m : comp T A) (Q : A → S → Prop) s :
  wp m (λ a t, Q a (st t s)) (pr s) → wp (zoom pr st m) Q s.
Proof. unfold wp, zoom. destruct (m (pr s)) as [[a t]| |]; auto. Qed.

Lemma wp_run {S A} (m : comp S A) Q s :
  wp m Q s ↔ ∃ a s', m s = Ret (a, s') ∧ Q a s'.
Proof.
  unfold wp. split.
  - destruct (m s) as [[a s']| |]; [eauto | done | done].
  - intros (a & s' & -> & HQ). done.
Qed.

(** The outcome of a run is at hand while it is reasoned about. *)
Lemma wp_with_run {S A} (m : comp S A) Q s : wp m (λ a t, m s = Ret (a, t) → Q a t) s → wp m Q s.
Proof. rewrite !wp_run. intros (a & t & E & HQ). exists a, t. auto. Qed.

Lemma run_bind {S A B} (m : comp S A) (f : A → comp S B) s a s' :
  m s = Ret (a, s') → (m ≫= f) s = f a s'.
Proof. unfold mbind, comp_bind. by intros ->. Qed.

(** [for] loops: an invariant indexed by the counter. *)
Lemma wp_for_nat {S R} (I : Z → S → Prop) (body : Z → comp S (option R)) Q n :
  ∀ lo s,
  I lo s →
  (∀ i t, lo ≤ i < lo + Z.of_nat n → I i t →
     wp (body i) (λ r t', match r with Some x => Q (Some x) t' | None => I (i + 1) t' end) t) →
  (∀ t, I (lo + Z.of_nat n) t → Q None t) →
  wp (for_nat n lo body) Q s.
Proof.
  induction n as [|n IH]; intros lo s HI Hbody Hend; simpl.
  - apply wp_ret, Hend. by rewrite Z.add_0_r.
  - apply wp_bind. eapply wp_mono; [apply Hbody; [lia | done] |].
    intros [x|] t Ht; [by apply wp_ret |]. apply IH; [done | |].
    + intros i t' Hi. apply Hbody. lia.
    + intros t' Ht'. apply Hend. by replace (lo + Z.of_nat (Datatypes.S n)) with (lo + 1 + Z.of_nat n) by lia.
Qed.

Lemma wp_for_range {S R} (I : Z → S → Prop) (lo hi : Z) (body : Z → comp S (option R)) Q s :
  lo ≤ hi →
  I lo s →
  (∀ i t, lo ≤ i < hi → I i t →
     wp (body i) (λ r t', match r with Some x => Q (Some x) t' | None => I (i + 1) t' end) t) →
  (∀ t, I hi t → Q None t) →
  wp (for_range lo hi body) Q s.
Proof.
  intros Hle HI Hbody Hend. unfold for_range. apply (wp_for_nat I); [done | |].
  - intros i t Hi. apply Hbody. lia.
  - rewrite Z2Nat.id by lia. by replace (lo + (hi - lo)) with hi by lia.
Qed.

Lemma for_range_empty {S R} (lo hi : Z) (body : Z → comp S (option R)) :
  hi ≤ lo → for_range lo hi body = mret None.
Proof. intros H. unfold for_range. by replace (Z.to_nat (hi - lo)) with O by lia. Qed.

Lemma for_range_step {S R} (lo hi : Z) (body : Z → comp S (option R)) :
  lo < hi →
  for_range lo hi body =
  (r ← body lo; match r with Some x => mret (Some x) | None => for_range (lo + 1) hi body end).
Proof.
  intros H. unfold for_range.
  by replace (Z.to_nat (hi - lo)) with (Datatypes.S (Z.to_nat (hi - (lo + 1)))) by lia.
Qed.

(** A loop cut in two. *)
Lemma for_nat_app {S R} n m lo (body : Z → comp S (option R)) s :
  for_nat (n + m) lo body s =
  (r ← for_nat n lo body;
   match r with Some x => mret (Some x) | None => for_nat m (lo + Z.of_nat n) body end) s.
Proof.
  revert lo s. induction n as [|n IH]; intros lo s; simpl.
  - by rewrite Z.add_0_r.
  - unfold mbind, comp_bind. destruct (body lo s) as [[[x|] s']| |]; [done| |done..].
    rewrite IH. unfold mbind, comp_bind.
    destruct (for_nat n (lo + 1) body s') as [[[x|] s'']| |]; [done| |done..].
    f_equal. lia.
Qed.

Lemma for_range_split {S R} lo mid hi (body : Z → comp S (option R)) s :
  lo ≤ mid ≤ hi →
  for_range lo hi body s =
  (r ← for_range lo mid body;
   match r with Some x => mret (Some x) | None => for_range mid hi body end) s.
Proof.
  intros H. unfold for_range.
  replace (Z.to_nat (hi - lo)) with (Z.to_nat (mid - lo) + Z.to_nat (hi - mid))%nat by lia.
  rewrite for_nat_app. unfold mbind, comp_bind.
  destruct (for_nat _ lo body s) as [[[x|] s']| |]; [done| |done..].
  f_equal. lia.
Qed.

Lemma wp_for_each {S} (I : Z → S → Prop) (lo hi : Z) (body : Z → comp S unit) Q s :
  lo ≤ hi →
  I lo s →
  (∀ i t, lo ≤ i < hi → I i t → wp (body i) (λ _ t', I (i + 1) t') t) →
  (∀ t, I hi t → Q tt t) →
  wp (for_each lo hi body) Q s.
Proof.
  intros Hle HI Hbody Hend. apply wp_bind. apply (wp_for_range I); [done.. | |].
  - intros i t Hi Ht. apply wp_bind. eapply wp_mono; [by apply Hbody |].
    intros [] t' Ht'. by apply wp_ret.
  - intros t Ht. by apply wp_ret, Hend.
Qed.

(** Binary fuel is unary fuel. *)
Lemma itern_app {S A R} (body : A → comp S (A + R)) n m a s :
  itern (n + m) body a s = (r ← itern n body a; next_round (itern m body) r) s.
Proof.
  revert a s. induction n as [|n IH]; intros a s; simpl; [done|].
  unfold mbind, comp_bind. destruct (body a s) as [[[a'|x] s']| |]; [apply IH | done..].
Qed.

Lemma iterp_itern {S A R} (body : A → comp S (A + R)) p a s :
  iterp p body a s = itern (Pos.to_nat p) body a s.
Proof.
  revert a s. induction p as [p IH|p IH|]; intros a s.
  - rewrite Pos2Nat.inj_xI. simpl. unfold mbind, comp_bind.
    destruct (body a s) as [[[a'|x] s']| |]; simpl; [|done..].
    rewrite Nat.add_0_r, itern_app. unfold mbind, comp_bind. rewrite IH.
    destruct (itern _ body a' s') as [[[a''|y] s'']| |]; simpl; auto.
  - rewrite Pos2Nat.inj_xO. simpl. rewrite Nat.add_0_r, itern_app.
    unfold mbind, comp_bind. rewrite IH.
    destruct (itern _ body a s) as [[[a''|y] s'']| |]; simpl; auto.
  - simpl. unfold mbind, comp_bind. by destruct (body a s) as [[[a'|x] s']| |].
Qed.

(** A [while] loop returns when a measure below the fuel decreases. *)
Lemma wp_itern {S A R} (I : A → S → Prop) (μ : A → S → Z) (body : A → comp S (A + R)) Q n :
  ∀ a s,
  I a s → μ a s < Z.of_nat n →
  (∀ a t, I a t → 0 ≤ μ a t) →
  (∀ a t, I a t → wp (body a) (λ r t', match r with
      | inl a' => I a' t' ∧ μ a' t' < μ a t
      | inr x => Q x t' end) t) →
  wp (itern n body a) (λ r t, ∃ x, r = inr x ∧ Q x t) s.
Proof.
  induction n as [|n IH]; intros a s HI Hn Hpos Hbody; simpl.
  - specialize (Hpos a s HI). lia.
  - apply wp_bind. eapply wp_mono; [by apply Hbody |]. intros [a'|x] t Ht.
    + destruct Ht as [HI' Hlt]. apply IH; try done. lia.
    + apply wp_ret. eauto.
Qed.

Lemma wp_loop {S A R} (I : A → S → Prop) (μ : A → S → Z) (body : A → comp S (A + R)) Q a s :
  I a s → μ a s < 2 ^ 64 →
  (∀ a t, I a t → 0 ≤ μ a t) →
  (∀ a t, I a t → wp (body a) (λ r t', match r with
      | inl a' => I a' t' ∧ μ a' t' < μ a t
      | inr x => Q x t' end) t) →
  wp (loop body a) Q s.
Proof.
  intros HI Hμ Hpos Hbody. apply wp_bind.
  assert (HW : ∀ n, Z.of_nat n = 2 ^ 64 →
    wp (itern n body a) (λ r t, ∃ x, r = inr x ∧ Q x t) s).
  { intros n Hn. apply (wp_itern I μ); try done. by rewrite Hn. }
  specialize (HW (Pos.to_nat fuel) (positive_nat_Z fuel)).
  revert HW. unfold wp. rewrite iterp_itern.
  destruct (itern _ body a s) as [[r t]| |]; [|done..].
  by intros (x & -> & HQ).
Qed.

(** Unary fuel that suffices gives the result of the loop. *)
Lemma loop_run {S A R} n (body : A → comp S (A + R)) a s x s' :
  Z.of_nat n ≤ 2 ^ 64 →
  itern n body a s = Ret (inr x, s') →
  loop body a s = Ret (x, s').
Proof.
  intros Hn Hrun. unfold loop, mbind, comp_bind. rewrite iterp_itern.
  pose proof (positive_nat_Z fuel) as HF. revert HF. generalize (Pos.to_nat fuel). intros N HF.
  change (Z.pos fuel) with (2 ^ 64) in HF.
  replace N with (n + (N - n))%nat by lia.
  rewrite itern_app. unfold mbind, comp_bind. by rewrite Hrun.
Qed.

(** Unary fuel in the reasoning about a loop. *)
Lemma wp_loop_itern {S A R} n (body : A → comp S (A + R)) a (Q : R → S → Prop) s :
  Z.of_nat n ≤ 2 ^ 64 →
  wp (itern n body a) (λ r t, ∃ x, r = inr x ∧ Q x t) s →
  wp (loop body a) Q s.
Proof.
  intros Hn. rewrite !wp_run. intros (r & t & Hrun & x & -> & HQ). exists x, t. split; [|done].
  by apply (loop_run n).
Qed.

(** A loop that ends in its [n]th round with what [k] does. *)
Lemma loop_finish {S A R} n (body : A → comp S (A + R)) a s (k : comp S R) :
  Z.of_nat n ≤ 2 ^ 64 →
  itern n body a s = (x ← k; mret (inr x)) s →
  loop body a s = k s.
Proof.
  intros Hn Hrun. unfold loop, mbind, comp_bind. rewrite iterp_itern.
  pose proof (positive_nat_Z fuel) as HF. revert HF. generalize (Pos.to_nat fuel). intros N HF.
  change (Z.pos fuel) with (2 ^ 64) in HF.
  replace N with (n + (N - n))%nat by lia.
  rewrite itern_app. unfold mbind, comp_bind in *. rewrite Hrun. by destruct (k s) as [[x s']| |].
Qed.

(** A body that comes back to where it was never leaves the loop. *)
Lemma loop_stuck {S A R} (body : A → comp S (A + R)) a s :
  body a s = Ret (inl a, s) → loop body a s = OutOfFuel.
Proof.
  intros Hb. unfold loop, mbind, comp_bind. rewrite iterp_itern.
  assert (H : ∀ n, itern n body a s = Ret (inl a, s)).
  { induction n as [|n IH]; simpl; [done|]. unfold mbind, comp_bind. by rewrite Hb. }
  by rewrite H.
Qed.

(** ** Partial correctness *)

(** [wlp m Q s]: if [m] returns from [s], [Q] holds of what it returns. *)
Definition wlp {S A} (m : comp S A) (Q : A → S → Prop) (s : S) : Prop :=
  match m s with
  | Ret (a, s') => Q a s'
  | _ => True
  end.

Lemma wlp_ret {S A} (a : A) (Q : A → S → Prop) s : Q a s → wlp (mret a) Q s.
Proof. done. Qed.
Lemma wlp_bind {S A B} (m : comp S A) (f : A → comp S B) Q s :
  wlp m (λ a s', wlp (f a) Q s') s → wlp (m ≫= f) Q s.
Proof. unfold wlp, mbind, comp_bind. destruct (m s) as [[a s']| |]; auto. Qed.
Lemma wlp_mono {S A} (m : comp S A) (Q Q' : A → S → Prop) s :
  wlp m Q s → (∀ a s', Q a s' → Q' a s') → wlp m Q' s.
Proof. unfold wlp. destruct (m s) as [[a s']| |]; auto. Qed.
Lemma wlp_wp {S A} (m : comp S A) Q s : wp m Q s → wlp m Q s.
Proof. unfold wp, wlp. destruct (m s) as [[a s']| |]; done. Qed.
Lemma wlp_undef {S A} (Q : A → S → Prop) s : wlp undef Q s.
Proof. done. Qed.
Lemma wlp_get {S} (Q : S → S → Prop) s : Q s s → wlp get Q s.
Proof. done. Qed.
Lemma wlp_gets {S A} (f : S → A) Q s : Q (f s) s → wlp (gets f) Q s.
Proof. done. Qed.
Lemma wlp_put {S} (t : S) (Q : unit → S → Prop) s : Q tt t → wlp (put t) Q s.
Proof. done. Qed.
Lemma wlp_modify {S} (f : S → S) (Q : unit → S → Prop) s : Q tt (f s) → wlp (modify f) Q s.
Proof. done. Qed.
Lemma wlp_zoom {S T A} (pr : S → T) st (m : comp T A) (Q : A → S → Prop) s :
  wlp m (λ a t, Q a (st t s)) (pr s) → wlp (zoom pr st m) Q s.
Proof. unfold wlp, zoom. destruct (m (pr s)) as [[a t]| |]; auto. Qed.
Lemma wlp_run {S A} (m : comp S A) Q s a s' : wlp m Q s → m s = Ret (a, s') → Q a s'.
Proof. unfold wlp. intros H E. by rewrite E in H. Qed.

Lemma wlp_for_nat {S R} (I : S → Prop) (body : Z → comp S (option R)) n :
  ∀ lo s,
  I s → (∀ i t, lo ≤ i < lo + Z.of_nat n → I t → wlp (body i) (λ _ t', I t') t) →
  wlp (for_nat n lo body) (λ _ t', I t') s.
Proof.
  induction n as [|n IH]; intros lo s HI Hbody; simpl; [by apply wlp_ret|].
  apply wlp_bind. eapply wlp_mono; [apply Hbody; [lia|done]|].
  intros [x|] t Ht; [by apply wlp_ret|]. apply IH; [done|]. intros i t' Hi. apply Hbody. lia.
Qed.

Lemma wlp_for_range {S R} (I : S → Prop) lo hi (body : Z → comp S (option R)) s :
  I s → (∀ i t, lo ≤ i < hi → I t → wlp (body i) (λ _ t', I t') t) →
  wlp (for_range lo hi body) (λ _ t', I t') s.
Proof.
  intros HI Hbody. apply wlp_for_nat; [done|]. intros i t Hi. apply Hbody. lia.
Qed.

Lemma wlp_for_each {S} (I : S → Prop) lo hi (body : Z → comp S unit) s :
  I s → (∀ i t, lo ≤ i < hi → I t → wlp (body i) (λ _ t', I t') t) →
  wlp (for_each lo hi body) (λ _ t', I t') s.
Proof.
  intros HI Hbody. apply wlp_bind. eapply wlp_mono; [apply (wlp_for_range I); [done|]|].
  - intros i t Hi Ht. apply wlp_bind. eapply wlp_mono; [by apply Hbody|].
    intros. by apply wlp_ret.
  - intros. by apply wlp_ret.
Qed.

(** The same with an invariant that follows the counter. *)
Lemma wlp_for_each_idx {S} (I : Z → S → Prop) lo hi (body : Z → comp S unit) Q s :
  I lo s →
  (∀ i t, lo ≤ i < hi → I i t → wlp (body i) (λ _ t', I (i + 1) t') t) →
  (∀ t, I (Z.max lo hi) t → Q tt t) →
  wlp (for_each lo hi body) Q s.
Proof.
  intros HI Hbody Hend. apply wlp_bind. unfold for_range.
  assert (Hn : Z.max lo hi = lo + Z.of_nat (Z.to_nat (hi - lo))) by lia. rewrite Hn in Hend.
  assert (Hb : ∀ i t, lo ≤ i < lo + Z.of_nat (Z.to_nat (hi - lo)) → I i t →
    wlp (body i) (λ _ t', I (i + 1) t') t) by (intros; apply Hbody; [lia|done]).
  clear Hbody Hn. generalize dependent (Z.to_nat (hi - lo)). intros n Hend Hb.
  revert lo s HI Hend Hb.
  induction n as [|n IH]; intros lo s HI Hend Hb; simpl.
  - apply wlp_ret, wlp_ret, Hend. by rewrite Z.add_0_r.
  - apply wlp_bind, wlp_bind. eapply wlp_mono; [apply Hb; [lia|done]|].
    intros [] t Ht. apply wlp_ret. cbn beta iota. apply IH; [done| |].
    + intros t' Ht'. apply Hend.
      by replace (lo + Z.of_nat (Datatypes.S n)) with (lo + 1 + Z.of_nat n) by lia.
    + intros i t' Hi. apply Hb. lia.
Qed.

Lemma wlp_itern {S A R} (I : A → S → Prop) (body : A → comp S (A + R)) (Q : R → S → Prop) n :
  (∀ a t, I a t → wlp (body a) (λ r t', match r with inl a' => I a' t' | inr x => Q x t' end) t) →
  ∀ a s, I a s →
  wlp (itern n body a) (λ r t', match r with inl a' => I a' t' | inr x => Q x t' end) s.
Proof.
  intros Hbody. induction n as [|n IH]; intros a s HI; simpl; [by apply wlp_ret|].
  apply wlp_bind. eapply wlp_mono; [by apply Hbody|].
  intros [a'|x] t Ht; [by apply IH | by apply wlp_ret].
Qed.

Lemma wlp_loop {S A R} (I : A → S → Prop) (body : A → comp S (A + R)) (Q : R → S → Prop) a s :
  I a s →
  (∀ a t, I a t → wlp (body a) (λ r t', match r with inl a' => I a' t' | inr x => Q x t' end) t) →
  wlp (loop body a) Q s.
Proof.
  intros HI Hbody. apply wlp_bind.
  assert (HW := wlp_itern I body Q (Pos.to_nat fuel) Hbody a s HI).
  revert HW. unfold wlp at 1 2. rewrite iterp_itern.
  destruct (itern _ body a s) as [[[a'|x] t]| |]; done.
Qed.

(** ** Computations that keep something *)

(** [m] returns and does not change what [f] reads of the state. *)
Definition keeps {S A T} (f : S → T) (m : comp S A) : Prop := ∀ s, wp m (λ _ s', f s' = f s) s.
Abbreviation returns m := (keeps (λ _, tt) m).

Section keeps.
Context {S T : Type} (f : S → T).

Lemma keeps_ret {A} (a : A) : keeps f (mret a).
Proof. done. Qed.
Lemma keeps_bind {A B} (m : comp S A) (k : A → comp S B) :
  keeps f m → (∀ a, keeps f (k a)) → keeps f (m ≫= k).
Proof.
  intros Hm Hk s. apply wp_bind. eapply wp_mono; [apply Hm|]. intros a s1 E1.
  eapply wp_mono; [apply Hk|]. intros b s2 E2. cbn beta in *. congruence.
Qed.
Lemma keeps_gets {A} (g : S → A) : keeps f (gets g).
Proof. done. Qed.
Lemma keeps_get : keeps f get.
Proof. done. Qed.
Lemma keeps_modify (g : S → S) : (∀ s, f (g s) = f s) → keeps f (modify g).
Proof. intros Hg s. apply wp_modify, Hg. Qed.
Lemma keeps_must {A} (o : option A) : is_Some o → keeps f (must o).
Proof. intros [a ->] s. by apply wp_ret. Qed.
Lemma keeps_if {A} (b : bool) (m m' : comp S A) :
  (b = true → keeps f m) → (b = false → keeps f m') → keeps f (if b then m else m').
Proof. destruct b; auto. Qed.
Lemma keeps_for_range {R} lo hi (body : Z → comp S (option R)) :
  (∀ i, lo ≤ i < hi → keeps f (body i)) → keeps f (for_range lo hi body).
Proof.
  intros Hb s. destruct (decide (lo ≤ hi)) as [Hle|Hgt].
  - apply (wp_for_range (λ _ t, f t = f s)); [done|done| |done].
    intros i t Hi Et. eapply wp_mono; [by apply Hb|]. intros [x|] t' Et'; congruence.
  - rewrite for_range_empty by lia. by apply wp_ret.
Qed.
Lemma keeps_for_each lo hi (body : Z → comp S unit) :
  (∀ i, lo ≤ i < hi → keeps f (body i)) → keeps f (for_each lo hi body).
Proof.
  intros Hb. apply keeps_bind; [apply keeps_for_range|intros; apply keeps_ret].
  intros i Hi. apply keeps_bind; [by apply Hb|intros; apply keeps_ret].
Qed.

Section print.
Context `{Console S} (Hemit : ∀ o s, f (emit o s) = f s).
Lemma keeps_char c : keeps f (print_char c).
Proof. intros s. apply Hemit. Qed.
Lemma keeps_string str : keeps f (print_string str).
Proof. intros s. apply Hemit. Qed.
Lemma keeps_bytes l : keeps f (print_bytes l).
Proof. intros s. apply Hemit. Qed.
Lemma keeps_dec n : keeps f (kprint_dec n).
Proof. intros s. apply Hemit. Qed.
Lemma keeps_hex n : keeps f (kprint_hex n).
Proof. intros s. apply Hemit. Qed.
Lemma keeps_color n : keeps f (set_text_color n).
Proof. intros s. apply Hemit. Qed.
Lemma keeps_reset : keeps f reset_text_color.
Proof. intros s. apply Hemit. Qed.
End print.
End keeps.

Lemma wp_keeps {S A T} (f : S → T) (m : comp S A) (Q : A → S → Prop) s :
  keeps f m → (∀ a s', f s' = f s → Q a s') → wp m Q s.
Proof. intros Hm HQ. eapply wp_mono; [apply Hm|]. intros a s' E. by apply HQ. Qed.

(** [m] returns and preserves the invariant [I]. *)
Definition preserves {S A} (I : S → Prop) (m : comp S A) : Prop := ∀ s, I s → wp m (λ _ s', I s') s.

Section preserves.
Context {S : Type} (I : S → Prop).

Lemma preserves_ret {A} (a : A) : preserves I (mret a).
Proof. intros s Hs. by apply wp_ret. Qed.
Lemma preserves_bind {A B} (m : comp S A) (k : A → comp S B) :
  preserves I m → (∀ a, preserves I (k a)) → preserves I (m ≫= k).
Proof.
  intros Hm Hk s Hs. apply wp_bind. eapply wp_mono; [by apply Hm|]. intros a s1 Hs1. by apply Hk.
Qed.
Lemma preserves_gets {A} (g : S → A) : preserves I (gets g).
Proof. by intros s Hs. Qed.
Lemma preserves_modify (g : S → S) : (∀ s, I s → I (g s)) → preserves I (modify g).
Proof. intros Hg s Hs. apply wp_modify, Hg, Hs. Qed.
Lemma preserves_if {A} (b : bool) (m m' : comp S A) :
  (b = true → preserves I m) → (b = false → preserves I m') → preserves I (if b then m else m').
Proof. destruct b; auto. Qed.
Lemma preserves_run {A} (m : comp S A) (Q : A → S → Prop) s :
  preserves I m → I s → (∀ a s', I s' → Q a s') → wp m Q s.
Proof. intros Hm Hs HQ. eapply wp_mono; [by apply Hm|]. auto. Qed.
End preserves.

(** Take a computation of this kind apart. *)
Ltac keeps_step :=
  match goal with
  | |- keeps _ (mret _) => apply keeps_ret
  | |- keeps _ (_ ≫= _) => apply keeps_bind; [|intros ?]
  | |- keeps _ (gets _) => apply keeps_gets
  | |- keeps _ get => apply keeps_get
  | |- keeps _ (if _ then _ else _) => apply keeps_if; intros ?
  | |- keeps _ (for_each _ _ _) => apply keeps_for_each; intros ? ?
  | |- keeps _ (for_range _ _ _) => apply keeps_for_range; intros ? ?
  | |- keeps _ (print_char _) => apply keeps_char
  | |- keeps _ (print_string _) => apply keeps_string
  | |- keeps _ (print_bytes _) => apply keeps_bytes
  | |- keeps _ (kprint_dec _) => apply keeps_dec
  | |- keeps _ (kprint_hex _) => apply keeps_hex
  | |- keeps _ (set_text_color _) => apply keeps_color
  | |- keeps _ (color _) => apply keeps_color
  | |- keeps _ (print_line _) => apply keeps_string
  | |- keeps _ reset_text_color => apply keeps_reset
  end; cbn beta; try assumption; try done.
Ltac keeps := repeat keeps_step.

(** One step of symbolic execution. *)
Ltac wp_step :=
  match goal with
  | |- wp (mret _) _ _ => apply wp_ret
  | |- wp (_ ≫= _) _ _ => apply wp_bind
  | |- wp (gets _) _ _ => apply wp_gets
  | |- wp get _ _ => apply wp_get
  | |- wp (put _) _ _ => apply wp_put
  | |- wp (modify _) _ _ => apply wp_modify
  | |- wp (zoom _ _ _) _ _ => apply wp_zoom
  end.
Ltac wp_steps := repeat (wp_step; cbn beta).
Ltac wlp_step :=
  match goal with
  | |- wlp (mret _) _ _ => apply wlp_ret
  | |- wlp (_ ≫= _) _ _ => apply wlp_bind
  | |- wlp (gets _) _ _ => apply wlp_gets
  | |- wlp get _ _ => apply wlp_get
  | |- wlp (put _) _ _ => apply wlp_put
  | |- wlp (modify _) _ _ => apply wlp_modify
  | |- wlp (zoom _ _ _) _ _ => apply wlp_zoom
  | |- wlp undef _ _ => apply wlp_undef
  end.
Ltac wlp_steps := repeat (wlp_step; cbn beta).

(** ** Array elements *)

Lemma znth_lt {A} (l : list A) i : 0 ≤ i < Z.of_nat (length l) → is_Some (znth l i).
Proof. intros Hi. unfold znth. destruct (Z.leb_spec 0 i); [|lia]. apply lookup_lt_is_Some_2. lia. Qed.
Lemma znth_nat {A} (l : list A) i : 0 ≤ i → znth l i = l !! Z.to_nat i.
Proof. intros Hi. unfold znth. by destruct (Z.leb_spec 0 i); [|lia]. Qed.
Lemma zset_lt {A} (l : list A) i x : 0 ≤ i < Z.of_nat (length l) → zset l i x = Some (<[Z.to_nat i := x]> l).
Proof. intros Hi. unfold zset. destruct (Z.leb_spec 0 i), (Z.ltb_spec i (Z.of_nat (length l))); try lia. done. Qed.

(** ** Bits *)

Lemma testbit_pow2_shift j k : 0 ≤ j → Z.testbit (Z.shiftl 1 j) k = (k =? j).
Proof.
  intros Hj. rewrite Z.shiftl_1_l, Z.pow2_bits_eqb by done. apply Z.eqb_sym.
Qed.

(** [x & (1 << j)] is nonzero exactly when bit [j] of [x] is set. *)
Lemma land_bit x j : 0 ≤ j → (Z.land x (Z.shiftl 1 j) =? 0) = negb (Z.testbit x j).
Proof.
  intros Hj. destruct (Z.testbit x j) eqn:E; simpl.
  - apply Z.eqb_neq. intros H. apply (f_equal (λ z, Z.testbit z j)) in H.
    rewrite Z.land_spec, testbit_pow2_shift, E, Z.eqb_refl, Z.bits_0 in H by done. done.
  - apply Z.eqb_eq, Z.bits_inj_0. intros k.
    rewrite Z.land_spec, testbit_pow2_shift by done.
    destruct (Z.eqb_spec k j) as [->|]; [by rewrite E | by rewrite andb_false_r].
Qed.

Lemma testbit_mod x n k : 0 ≤ n → Z.testbit (x `mod` 2 ^ n) k = (k <? n) && Z.testbit x k.
Proof.
  intros Hn. destruct (Z.ltb_spec k n); simpl.
  - by apply Z.mod_pow2_bits_low.
  - by apply Z.mod_pow2_bits_high.
Qed.

Lemma bit_set x j k : 0 ≤ j < 8 → 0 ≤ k < 8 →
  Z.testbit (u8 (Z.lor x (Z.shiftl 1 j))) k = (k =? j) || Z.testbit x k.
Proof.
  intros Hj Hk. unfold u8. rewrite testbit_mod, Z.lor_spec, testbit_pow2_shift by lia.
  destruct (Z.ltb_spec k 8); [|lia]. simpl. apply orb_comm.
Qed.

Lemma bit_clear x j k : 0 ≤ j < 8 → 0 ≤ k < 8 →
  Z.testbit (u8 (Z.land x (Z.lnot (Z.shiftl 1 j)))) k = negb (k =? j) && Z.testbit x k.
Proof.
  intros Hj Hk. unfold u8.
  rewrite testbit_mod, Z.land_spec, Z.lnot_spec, testbit_pow2_shift by lia.
  destruct (Z.ltb_spec k 8); [|lia]. simpl. apply andb_comm.
Qed.

Lemma byte_full_bit k : 0 ≤ k < 8 → Z.testbit 255 k = true.
Proof.
  intros Hk. change 255 with (Z.ones 8). apply Z.ones_spec_low. lia.
Qed.

Lemma u8_byte x : is_byte (u8 x).
Proof. unfold is_byte, u8. change 256 with (2 ^ 8). apply Z.mod_pos_bound. lia. Qed.
Lemma u32_range x : 0 ≤ u32 x < 2 ^ 32.
Proof. apply Z.mod_pos_bound. lia. Qed.
Lemma u64_range x : 0 ≤ u64 x < 2 ^ 64.
Proof. apply Z.mod_pos_bound. lia. Qed.
Lemma u32_small x : 0 ≤ x < 2 ^ 32 → u32 x = x.
Proof. intros. by apply Z.mod_small. Qed.
Lemma u64_small x : 0 ≤ x < 2 ^ 64 → u64 x = x.
Proof. intros. by apply Z.mod_small. Qed.

(** ** Counting the indices below a bound that satisfy a test *)

Definition count_upto (f : Z → bool) (n : nat) : Z :=
  Z.of_nat (length (List.filter f (map Z.of_nat (seq 0 n)))).

Lemma count_upto_S f n :
  count_upto f (Datatypes.S n) = count_upto f n + (if f (Z.of_nat n) then 1 else 0).
Proof.
  unfold count_upto. rewrite seq_S, map_app, List.filter_app, length_app. simpl.
  destruct (f (Z.of_nat n)); simpl; lia.
Qed.

Lemma count_upto_ext f g n :
  (∀ i, 0 ≤ i < Z.of_nat n → f i = g i) → count_upto f n = count_upto g n.
Proof.
  induction n as [|n IH]; intros Hfg; [done|].
  rewrite !count_upto_S, Hfg, IH; [done| |lia]. intros. apply Hfg. lia.
Qed.

Lemma count_upto_bound f n : 0 ≤ count_upto f n ≤ Z.of_nat n.
Proof.
  induction n as [|n IH]; [done|]. rewrite count_upto_S. destruct (f _); lia.
Qed.

(** Changing the test at one index changes the count by that index only. *)
Lemma count_upto_update f g n k :
  0 ≤ k < Z.of_nat n →
  (∀ i, 0 ≤ i < Z.of_nat n → i ≠ k → f i = g i) →
  count_upto f n - (if f k then 1 else 0) = count_upto g n - (if g k then 1 else 0).
Proof.
  induction n as [|n IH]; intros Hk Hfg; [lia|].
  rewrite !count_upto_S. destruct (decide (k = Z.of_nat n)) as [->|Hne].
  - rewrite (count_upto_ext f g n); [lia|]. intros i Hi. apply Hfg; lia.
  - rewrite (Hfg (Z.of_nat n)) by lia.
    assert (count_upto f n - (if f k then 1 else 0) = count_upto g n - (if g k then 1 else 0)).
    { apply IH; [lia|]. intros i Hi. apply Hfg. lia. }
    lia.
Qed.

Lemma count_upto_pos f n k : 0 ≤ k < Z.of_nat n → f k = true → 0 < count_upto f n.
Proof.
  induction n as [|n IH]; intros Hk Hf; [lia|]. rewrite count_upto_S.
  pose proof (count_upto_bound f n). destruct (decide (k = Z.of_nat n)) as [->|].
  - rewrite Hf. lia.
  - assert (0 < count_upto f n) by (apply IH; [lia|done]). destruct (f (Z.of_nat n)); lia.
Qed.

(** ** Little-endian fields *)

Lemma length_le_enc n v : length (le_enc n v) = n.
Proof. revert v. induction n; intros; simpl; auto. Qed.

Lemma le_enc_bytes n v : Forall is_byte (le_enc n v).
Proof.
  revert v. induction n; intros v; simpl; constructor; [|done].
  unfold is_byte. apply Z.mod_pos_bound. lia.
Qed.

Lemma le_dec_enc n v : le_dec (le_enc n v) = v `mod` 256 ^ Z.of_nat n.
Proof.
  revert v. induction n as [|n IH]; intros v; simpl le_dec; simpl le_enc.
  - by rewrite Z.mod_1_r.
  - simpl. rewrite IH, Nat2Z.inj_succ, Z.pow_succ_r by lia.
    rewrite Z.rem_mul_r by lia. done.
Qed.

Lemma le_dec_bound l : Forall is_byte l → 0 ≤ le_dec l < 256 ^ Z.of_nat (length l).
Proof.
  induction 1 as [|b l Hb Hl IH]; simpl; [lia|].
  rewrite Nat2Z.inj_succ, Z.pow_succ_r by lia. unfold is_byte in Hb. lia.
Qed.

Lemma le_enc_dec l : Forall is_byte l → le_enc (length l) (le_dec l) = l.
Proof.
  induction 1 as [|b l Hb Hl IH]; simpl; [done|]. unfold is_byte in Hb.
  replace (b + 256 * le_dec l) with (b + le_dec l * 256) by lia.
  rewrite Z.mod_add, Z.mod_small, Z.div_add, Z.div_small, Z.add_0_l by lia.
  by rewrite IH.
Qed.

(** ** Bytes of memory *)

Lemma lookup_mem_bytes m a n i : (i < n)%nat → mem_bytes m a n !! i = Some (m (a + Z.of_nat i)).
Proof.
  intros Hi. unfold mem_bytes. change (map ?f ?l) with (f <$> l). rewrite list_lookup_fmap, lookup_seq_lt by done. done.
Qed.
Lemma length_mem_bytes m a n : length (mem_bytes m a n) = n.
Proof. unfold mem_bytes. by rewrite length_map, length_seq. Qed.

Lemma mem_bytes_S m a n : mem_bytes m a (Datatypes.S n) = m a :: mem_bytes m (a + 1) n.
Proof.
  unfold mem_bytes. cbn [seq map]. rewrite Z.add_0_r. f_equal.
  rewrite <-seq_shift, map_map. apply map_ext. intros k. f_equal. lia.
Qed.
Lemma mem_bytes_app m a n k : mem_bytes m a (n + k) = mem_bytes m a n ++ mem_bytes m (a + Z.of_nat n) k.
Proof.
  revert a. induction n as [|n IH]; intros a.
  - by rewrite Z.add_0_r.
  - change (Datatypes.S n + k)%nat with (Datatypes.S (n + k)). rewrite !mem_bytes_S, IH. simpl. do 3 f_equal. lia.
Qed.
Lemma mem_bytes_ext m m' a n :
  (∀ x, a ≤ x < a + Z.of_nat n → m x = m' x) → mem_bytes m a n = mem_bytes m' a n.
Proof. intros H. unfold mem_bytes. apply map_ext_in. intros k Hk%in_seq. apply H. lia. Qed.
Lemma mem_bytes_bytes m a n : (∀ x, is_byte (m x)) → Forall is_byte (mem_bytes m a n).
Proof. intros H. unfold mem_bytes. apply Forall_map, Forall_true. intros k. apply H. Qed.

Lemma mem_store_in m a bs k : (k < length bs)%nat → mem_store m a bs (a + Z.of_nat k) = nth k bs 0.
Proof.
  intros Hk. unfold mem_store. destruct (Z.leb_spec a (a + Z.of_nat k)), (Z.ltb_spec (a + Z.of_nat k) (a + Z.of_nat (length bs))); try lia.
  cbn [andb]. by replace (Z.to_nat (a + Z.of_nat k - a)) with k by lia.
Qed.
Lemma mem_store_out m a bs x : x < a ∨ a + Z.of_nat (length bs) ≤ x → mem_store m a bs x = m x.
Proof.
  intros Hx. unfold mem_store. destruct (Z.leb_spec a x), (Z.ltb_spec x (a + Z.of_nat (length bs))); try lia; done.
Qed.
Lemma mem_bytes_store m a bs : mem_bytes (mem_store m a bs) a (length bs) = bs.
Proof.
  apply (nth_ext _ _ 0 0); rewrite length_mem_bytes; [done|]. intros k Hk.
  erewrite nth_lookup_Some by (by apply lookup_mem_bytes). by apply mem_store_in.
Qed.
Lemma mem_store_bytes m a bs : (∀ x, is_byte (m x)) → Forall is_byte bs → ∀ x, is_byte (mem_store m a bs x).
Proof.
  intros Hm Hb x. unfold mem_store. destruct ((a <=? x) && _) eqn:E; [|done].
  apply andb_true_iff in E as [E1%Z.leb_le E2%Z.ltb_lt].
  apply (proj1 (Forall_nth _ 0 _) Hb). lia.
Qed.

Lemma le_dec_app l1 l2 : le_dec (l1 ++ l2) = le_dec l1 + 256 ^ Z.of_nat (length l1) * le_dec l2.
Proof.
  induction l1 as [|b l1 IH]; [simpl; lia|]. cbn [app le_dec length]. rewrite IH.
  rewrite Nat2Z.inj_succ, Z.pow_succ_r by lia. lia.
Qed.

(** ** Reading a buffer after a splice *)

Lemma length_splice l off new :
  (Z.to_nat off + length new ≤ length l)%nat → length (splice l off new) = length l.
Proof. intros H. unfold splice. rewrite !length_app, length_take, length_drop. lia. Qed.

Lemma slice_splice_same l off new :
  (Z.to_nat off + length new ≤ length l)%nat →
  slice (splice l off new) off (length new) = new.
Proof.
  intros H. unfold slice, splice.
  rewrite drop_app_ge by (rewrite length_take; lia).
  rewrite length_take. replace (Z.to_nat off - _)%nat with O by lia.
  by rewrite drop_0, take_app_length.
Qed.

Lemma slice_splice_before l off new o n :
  (Z.to_nat o + n ≤ Z.to_nat off)%nat →
  (Z.to_nat off + length new ≤ length l)%nat →
  slice (splice l off new) o n = slice l o n.
Proof.
  intros H Hl. unfold slice, splice.
  rewrite drop_app_le by (rewrite length_take; lia).
  rewrite take_app_le by (rewrite length_drop, length_take; lia).
  rewrite skipn_firstn_comm, take_take. f_equal. lia.
Qed.

Lemma slice_splice_after l off new o n :
  (Z.to_nat off + length new ≤ Z.to_nat o)%nat →
  (Z.to_nat off + length new ≤ length l)%nat →
  slice (splice l off new) o n = slice l o n.
Proof.
  intros H Hl. unfold slice, splice.
  rewrite drop_app_ge by (rewrite length_take; lia).
  rewrite drop_app_ge by (rewrite length_take; lia).
  rewrite drop_drop. do 2 f_equal. rewrite length_take. lia.
Qed.

Lemma length_slice l off n :
  (Z.to_nat off + n ≤ length l)%nat → length (slice l off n) = n.
Proof. intros H. unfold slice. rewrite length_take, length_drop. lia. Qed.

Lemma slice_bytes l off n : Forall is_byte l → Forall is_byte (slice l off n).
Proof. intros H. unfold slice. by apply Forall_take, Forall_drop. Qed.

Lemma splice_bytes l off new :
  Forall is_byte l → Forall is_byte new → Forall is_byte (splice l off new).
Proof.
  intros H Hn. unfold splice. apply Forall_app_2; [by apply Forall_take|].
  apply Forall_app_2; [done | by apply Forall_drop].
Qed.

Lemma ld32_st32_same l off v :
  (Z.to_nat off + 4 ≤ length l)%nat → ld32 (st32 l off v) off = u32 v.
Proof.
  intros H. unfold ld32, st32. rewrite <-(length_le_enc 4 v) at 2.
  rewrite slice_splice_same by (by rewrite length_le_enc). by rewrite le_dec_enc.
Qed.

Lemma ld32_st32_other l off o v :
  (Z.to_nat off + 4 ≤ length l)%nat →
  (Z.to_nat o + 4 ≤ Z.to_nat off ∨ Z.to_nat off + 4 ≤ Z.to_nat o)%nat →
  ld32 (st32 l off v) o = ld32 l o.
Proof.
  intros H [Ho|Ho]; unfold ld32, st32.
  - by rewrite slice_splice_before by (rewrite ?length_le_enc; lia).
  - by rewrite slice_splice_after by (rewrite ?length_le_enc; lia).
Qed.

(** ** Decimal digits *)

Definition is_dec (c : Z) : Prop := 48 ≤ c ≤ 57.
(** The value of a text of digits. *)
Definition dec_value (ds : list Z) : Z := fold_left (λ v c, 10 * v + (c - 48)) ds 0.

Lemma dec_value_cons c ds : dec_value (c :: ds) = (c - 48) * 10 ^ Z.of_nat (length ds) + dec_value ds.
Proof.
  unfold dec_value. cbn [fold_left].
  assert (H : ∀ v, fold_left (λ v c, 10 * v + (c - 48)) ds v = v * 10 ^ Z.of_nat (length ds) + fold_left (λ v c, 10 * v + (c - 48)) ds 0).
  { induction ds as [|d ds IH]; intros v; cbn [fold_left length]; [simpl; lia|].
    rewrite IH, (IH (10 * 0 + (d - 48))). rewrite Nat2Z.inj_succ, Z.pow_succ_r by lia. lia. }
  rewrite H. lia.
Qed.

(** ** Automation *)

Create HintDb csem.
#[export] Hint Resolve u8_byte u32_range u64_range le_enc_bytes slice_bytes splice_bytes : csem.
Create Rewrite HintDb csem_rw.
#[export] Hint Rewrite length_le_enc @length_insert : csem_rw.

(** Turn the boolean tests of the code into propositions. *)
Ltac destr_bool :=
  repeat match goal with
  | H : _ && _ = true |- _ => apply andb_true_iff in H; destruct H
  | H : _ || _ = false |- _ => apply orb_false_iff in H; destruct H
  | H : negb _ = true |- _ => apply negb_true_iff in H
  | H : negb _ = false |- _ => apply negb_false_iff in H
  | H : (_ =? _) = true |- _ => apply Z.eqb_eq in H
  | H : (_ =? _) = false |- _ => apply Z.eqb_neq in H
  | H : (_ <? _) = true |- _ => apply Z.ltb_lt in H
  | H : (_ <? _) = false |- _ => apply Z.ltb_ge in H
  | H : (_ <=? _) = true |- _ => apply Z.leb_le in H
  | H : (_ <=? _) = false |- _ => apply Z.leb_gt in H
  end.

(** [lia] with division and remainder. *)
Ltac dlia := Z.to_euclidean_division_equations; lia.
