(* ===== verification/Interfaces.v ===== *)
(** * Interfaces: what one component promises to another

    The page-table code only relies on [FrameAlloc], the file system only on
    [BlockDev]; Pmm and Ata provide the instances.  [Part] is what a component
    that calls others asks of the whole system's state: that theirs can be
    read and replaced in it. *)

From Stdlib Require Import ZArith Lia.
From stdpp Require Import base numbers list option.
From S2P Require Import Prelude.
Open Scope Z_scope.

(** A source of 4 KiB frames: [frame_alloc] answers the address of a frame
    that was free and no longer is, or 0 when none is free. *)
Class FrameAlloc (F : Type) := {
  frame_alloc : comp F Z;
  frames_ok : F → Prop;
  frame_free : F → Z → Prop;
  frame_addr : ∀ f a, frames_ok f → frame_free f a → a mod 4096 = 0 ∧ 0 < a < 2 ^ 51;
  frame_alloc_ok : ∀ f, frames_ok f →
    wp frame_alloc (λ a f', frames_ok f' ∧
      (a = 0 ∧ f' = f ∧ (∀ b, ¬ frame_free f b) ∨
       frame_free f a ∧ ¬ frame_free f' a ∧
       ∀ b, b ≠ a → frame_free f' b ↔ frame_free f b)) f
}.

(** A disk of 512-byte sectors: reading answers [None] when the driver
    reports an error; a write may be refused the same way. *)
Class BlockDev (D : Type) := {
  bd_read : D → Z → option (list Z);
  bd_write : D → Z → list Z → option D;
  bd_read_sector : ∀ d l b, bd_read d l = Some b → length b = 512%nat ∧ Forall is_byte b;
  bd_write_ok : ∀ d l b b0, bd_read d l = Some b0 → length b = 512%nat → Forall is_byte b →
    is_Some (bd_write d l b);
  bd_read_write : ∀ d l b d', length b = 512%nat → Forall is_byte b →
    bd_write d l b = Some d' → bd_read d' l = Some b;
  bd_read_write_ne : ∀ d l k b d', length b = 512%nat → Forall is_byte b →
    bd_write d l b = Some d' → l ≠ k → bd_read d' k = bd_read d k
}.

(** The state [T] of one component inside the state [K] of the system. *)
Class Part (T K : Type) := {
  part : K → T;
  put_part : T → K → K;
  part_put : ∀ t k, part (put_part t k) = t;
  put_part_same : ∀ k, put_part (part k) k = k;
  put_part_twice : ∀ t t' k, put_part t (put_part t' k) = put_part t k
}.

#[export] Program Instance part_self T : Part T T := {| part := λ k, k; put_part := λ t _, t |}.
Solve Obligations with done.

Section parts.
Context {T K : Type} `{Part T K}.

(** A component's operation, run in the system. *)
Definition in_part {A} (m : comp T A) : comp K A := zoom part put_part m.
(** An operation on a component and the rest of the system, and a call back
    from it into the whole system. *)
Definition as_pair {A} (m : comp (T * K) A) : comp K A := zoom (λ k, (part k, k)) (λ tk _, put_part tk.1 tk.2) m.
Definition as_whole {A} (m : comp K A) : comp (T * K) A := zoom (λ tk, put_part tk.1 tk.2) (λ k _, (part k, k)) m.

Lemma as_pair_whole {A} (m : comp K A) k : as_pair (as_whole m) k = m k.
Proof.
  unfold as_pair, as_whole, zoom. cbn [fst snd]. rewrite put_part_same. destruct (m k) as [[a k']| |]; [|done..].
  cbn [fst snd]. by rewrite put_part_same.
Qed.

Lemma wp_in_part {A} (m : comp T A) (Q : A → K → Prop) k :
  wp m (λ a t, Q a (put_part t k)) (part k) → wp (in_part m) Q k.
Proof. apply wp_zoom. Qed.

Lemma keeps_in_part {A B} (f : T → B) (m : comp T A) : keeps f m → keeps (λ k, f (part k)) (in_part m).
Proof. intros Hm k. apply wp_in_part. eapply wp_mono; [apply Hm|]. intros a t E. by rewrite part_put. Qed.
End parts.
