(* ===== verification/Pmm.v ===== *)
(** * Pmm: the physical memory manager (src/mm/pmm.c, include/pmm.h)

    The bitmap of 4 KiB blocks, its free counter, the next-fit allocator and
    the parsing of the Multiboot information at boot. An access outside
    [pmm_bitmap] is undefined behaviour ([Undef]). *)

From Stdlib Require Import ZArith Lia String.
From stdpp Require Import base numbers list option functions relations gmap sets fin_sets.
From S2P Require Import Prelude Interfaces.
Open Scope Z_scope.

Definition PMM_BLOCK_SIZE : Z := 4096.
Definition PMM_BITMAP_SIZE : Z := 524288.
(** Blocks the bitmap tracks: [PMM_BITMAP_SIZE * 8]. *)
Definition NBLOCKS : Z := PMM_BITMAP_SIZE * 8.

(** The static variables of pmm.c. *)
Record pmm := MkPmm {
  pmm_bitmap : Z → Z;
  total_memory_kb : Z;
  free_blocks : Z;
  last_free_bit : Z;
  initrd_brain_start : Z;
  initrd_brain_end : Z;
  initrd_brain_loaded : Z;
  ramdisk_start : Z;
  ramdisk_size : Z;
  ramdisk_loaded : Z
}.

Definition set_bitmap b (s : pmm) := MkPmm b (total_memory_kb s) (free_blocks s) (last_free_bit s)
  (initrd_brain_start s) (initrd_brain_end s) (initrd_brain_loaded s)
  (ramdisk_start s) (ramdisk_size s) (ramdisk_loaded s).
Definition set_total t (s : pmm) := MkPmm (pmm_bitmap s) t (free_blocks s) (last_free_bit s)
  (initrd_brain_start s) (initrd_brain_end s) (initrd_brain_loaded s)
  (ramdisk_start s) (ramdisk_size s) (ramdisk_loaded s).
Definition set_free f (s : pmm) := MkPmm (pmm_bitmap s) (total_memory_kb s) f (last_free_bit s)
  (initrd_brain_start s) (initrd_brain_end s) (initrd_brain_loaded s)
  (ramdisk_start s) (ramdisk_size s) (ramdisk_loaded s).
Definition set_last l (s : pmm) := MkPmm (pmm_bitmap s) (total_memory_kb s) (free_blocks s) l
  (initrd_brain_start s) (initrd_brain_end s) (initrd_brain_loaded s)
  (ramdisk_start s) (ramdisk_size s) (ramdisk_loaded s).
Definition set_brain st en (s : pmm) := MkPmm (pmm_bitmap s) (total_memory_kb s) (free_blocks s)
  (last_free_bit s) st en 1 (ramdisk_start s) (ramdisk_size s) (ramdisk_loaded s).
Definition set_ramdisk st sz (s : pmm) := MkPmm (pmm_bitmap s) (total_memory_kb s) (free_blocks s)
  (last_free_bit s) (initrd_brain_start s) (initrd_brain_end s) (initrd_brain_loaded s) st sz 1.

(** The state before [pmm_init]: .bss is zero, [last_free_bit] starts at 256. *)
Definition pmm_boot : pmm := MkPmm (λ _, 0) 0 0 256 0 0 0 0 0 0.

(** [pmm_bitmap[i]]: undefined outside the array. *)
Definition bitmap_get (i : Z) : comp pmm Z :=
  s ← get;
  if (0 <=? i) && (i <? PMM_BITMAP_SIZE) then mret (pmm_bitmap s i) else undef.
Definition bitmap_put (i v : Z) : comp pmm unit :=
  s ← get;
  if (0 <=? i) && (i <? PMM_BITMAP_SIZE)
  then put (set_bitmap (<[i := v]> (pmm_bitmap s)) s) else undef.

Definition pmm_set_bit (bit : Z) : comp pmm unit :=
  b ← bitmap_get (bit / 8);
  if Z.land b (Z.shiftl 1 (bit mod 8)) =? 0 then
    bitmap_put (bit / 8) (u8 (Z.lor b (Z.shiftl 1 (bit mod 8))));;
    f ← gets free_blocks;
    if 0 <? f then modify (set_free (u32 (f - 1))) else mret tt
  else mret tt.

Definition pmm_clear_bit (bit : Z) : comp pmm unit :=
  b ← bitmap_get (bit / 8);
  if negb (Z.land b (Z.shiftl 1 (bit mod 8)) =? 0) then
    bitmap_put (bit / 8) (u8 (Z.land b (Z.lnot (Z.shiftl 1 (bit mod 8)))));;
    f ← gets free_blocks;
    modify (set_free (u32 (f + 1)))
  else mret tt.

(** The body shared by the two passes of [pmm_alloc_block]: byte [i] of the
    bitmap, candidates below [bound] refused. *)
Definition alloc_byte (bound i : Z) : comp pmm (option Z) :=
  b ← bitmap_get i;
  if negb (b =? 255) then
    for_range 0 8 (λ j,
      let block := u32 (i * 8 + j) in
      b ← bitmap_get i;
      if (bound <=? block) && (Z.land b (Z.shiftl 1 j) =? 0) then
        pmm_set_bit block;;
        modify (set_last (u32 (block + 1)));;
        mret (Some (block * PMM_BLOCK_SIZE))
      else mret None)
  else mret None.

(** Address of a block, 0 when none is free. *)
Definition pmm_alloc_block : comp pmm Z :=
  last ← gets last_free_bit;
  r ← for_range (last / 8) PMM_BITMAP_SIZE (alloc_byte last);
  match r with
  | Some a => mret a
  | None =>
      r ← for_range (256 / 8) (last / 8 + 1) (alloc_byte 256);
      match r with Some a => mret a | None => mret 0 end
  end.

Definition pmm_free_block (addr : Z) : comp pmm unit :=
  let block := u32 (addr / PMM_BLOCK_SIZE) in
  pmm_clear_bit block;;
  last ← gets last_free_bit;
  if block <? last then modify (set_last block) else mret tt.

Definition pmm_get_total_memory_kb (s : pmm) : Z := total_memory_kb s.
Definition pmm_get_used_blocks (s : pmm) : Z :=
  let total_blocks := total_memory_kb s / 4 in
  if total_blocks <? free_blocks s then 0 else u32 (total_blocks - free_blocks s).
Definition pmm_get_free_blocks (s : pmm) : Z := free_blocks s.

(** ** Boot: [pmm_init] *)

Section init.
(** The boot information is read from physical memory [mem]; [X] is the
    state of the two components pmm.c calls, the screen and ACPI. *)
Context {X : Type}.
Context (screen_init_fb : Z → Z → Z → Z → Z → X → X).
Context (acpi_init : Z → comp X unit).
Context (mem : memory) (kernel_start kernel_end : Z).

Definition in_pmm {A} (m : comp pmm A) : comp (pmm * X) A := zoom fst (λ p s, (p, s.2)) m.
Definition in_rest {A} (m : comp X A) : comp (pmm * X) A := zoom snd (λ x s, (s.1, x)) m.

(** [while (str[len]) len++] with an [int] counter. *)
Definition mb_strlen (str : Z) : comp (pmm * X) Z :=
  loop (λ len,
    if mem (str + len) =? 0 then mret (inr len)
    else if len =? 2147483647 then undef else mret (inl (len + 1))) 0.

(** The search for "disk" in a module's command string. *)
Definition find_disk (str : Z) : comp (pmm * X) bool :=
  len ← mb_strlen str;
  r ← for_range 0 (len - 4 + 1) (λ j,
    mret (if (mem (str + j) =? 100) && (mem (str + j + 1) =? 105)
             && (mem (str + j + 2) =? 115) && (mem (str + j + 3) =? 107)
          then Some tt else None));
  mret (match r with Some _ => true | None => false end).

(** Multiboot 1, one "available RAM" entry. *)
Definition mb1_free_range (addr len : Z) : comp (pmm * X) unit :=
  let end_addr := u64 (addr + len) in
  loop (λ addr,
    if addr <? end_addr then
      let block := u32 (addr / PMM_BLOCK_SIZE) in
      (if block <? PMM_BITMAP_SIZE * 8 then in_pmm (pmm_clear_bit block) else mret tt);;
      mret (inl (u64 (addr + PMM_BLOCK_SIZE)))
    else mret (inr tt)) addr.

Definition mb1_mmap (mmap_addr mmap_length : Z) : comp (pmm * X) unit :=
  let mmap_end := u32 (mmap_addr + mmap_length) in
  loop (λ mmap,
    if mmap <? mmap_end then
      (if mld32 mem (mmap + 20) =? 1
       then mb1_free_range (mld64 mem (mmap + 4)) (mld64 mem (mmap + 12)) else mret tt);;
      mret (inl (u64 (mmap + mld32 mem mmap + 4)))
    else mret (inr tt)) mmap_addr.

Definition mb1_modules (mods_addr mods_count : Z) : comp (pmm * X) unit :=
  for_each 0 mods_count (λ i,
    let m := mods_addr + 16 * i in
    let str := mld32 mem (m + 8) in
    if negb (str =? 0) then
      found ← find_disk str;
      if found : bool then
        in_pmm (modify (set_ramdisk (mld32 mem m) (u32 (mld32 mem (m + 4) - mld32 mem m))))
      else mret tt
    else mret tt).

Definition mb1_init (mbd : Z) : comp (pmm * X) unit :=
  let flags := mld32 mem mbd in
  (if negb (Z.land flags (Z.shiftl 1 6) =? 0)
   then mb1_mmap (mld32 mem (mbd + 48)) (mld32 mem (mbd + 44)) else mret tt);;
  (if negb (Z.land flags (Z.shiftl 1 12) =? 0)
   then in_rest (modify (screen_init_fb (mld64 mem (mbd + 88)) (mld32 mem (mbd + 100))
          (mld32 mem (mbd + 104)) (mld32 mem (mbd + 96)) (mld8 mem (mbd + 108))))
   else mret tt);;
  (if negb (Z.land flags (Z.shiftl 1 3) =? 0)
   then mb1_modules (mld32 mem (mbd + 24)) (mld32 mem (mbd + 20)) else mret tt).

(** Multiboot 2, one "available RAM" entry: [num_blocks] is the length in
    whole blocks, truncated to 32 bits. *)
Definition mb2_free_range (addr len : Z) : comp (pmm * X) unit :=
  let num_blocks := u32 (len / PMM_BLOCK_SIZE) in
  _ ← for_range 0 num_blocks (λ b,
    let block := u32 (u32 (addr / PMM_BLOCK_SIZE) + u32 b) in
    if block <? PMM_BITMAP_SIZE * 8
    then in_pmm (pmm_clear_bit block);; mret None
    else mret (Some tt));
  mret tt.

Definition mb2_mmap (tag : Z) : comp (pmm * X) unit :=
  let entry_size := mld32 mem (tag + 8) in
  if entry_size =? 0 then undef else
  let num_entries := u64 (mld32 mem (tag + 4) - 16) / entry_size in
  for_each 0 (u32 num_entries) (λ i,
    let entry := tag + 16 + entry_size * i in
    if mld32 mem (entry + 16) =? 1
    then mb2_free_range (mld64 mem entry) (mld64 mem (entry + 8)) else mret tt).

Definition mb2_module (tag : Z) : comp (pmm * X) unit :=
  let mod_start := mld32 mem (tag + 8) in
  let mod_end := mld32 mem (tag + 12) in
  found ← find_disk (tag + 16);
  if found : bool then in_pmm (modify (set_ramdisk mod_start (u32 (mod_end - mod_start))))
  else if (mem (tag + 16) =? 97) && (mem (tag + 17) =? 105)
       then in_pmm (modify (set_brain mod_start mod_end))
       else mret tt.

Definition mb2_tag (tag : Z) : comp (pmm * X) unit :=
  let ty := mld32 mem tag in
  if ty =? 6 then mb2_mmap tag
  else if ty =? 8 then
    in_rest (modify (screen_init_fb (mld64 mem (tag + 8)) (mld32 mem (tag + 20))
      (mld32 mem (tag + 24)) (mld32 mem (tag + 16)) (mld8 mem (tag + 28))))
  else if ty =? 3 then mb2_module tag
  else if (ty =? 14) || (ty =? 15) then in_rest (acpi_init (tag + 8))
  else mret tt.

Definition mb2_init (mbd : Z) : comp (pmm * X) unit :=
  let total_size := mld32 mem mbd in
  loop (λ current_offset,
    if current_offset <? total_size then
      let tag := mbd + current_offset in
      if mld32 mem tag =? 0 then mret (inr tt)
      else
        mb2_tag tag;;
        mret (inl (u32 (current_offset + Z.land (u32 (mld32 mem (tag + 4) + 7)) (u32 (Z.lnot 7)))))
    else mret (inr tt)) 8.

(** Mark the blocks [start_block .. end_block] used. *)
Definition protect (start_block end_block : Z) : comp pmm unit :=
  for_each start_block (end_block + 1) pmm_set_bit.

(** Steps 3 to 6 of [pmm_init]. *)
Definition pmm_protect : comp pmm unit :=
  protect (u32 (kernel_start / PMM_BLOCK_SIZE)) (u32 (kernel_end / PMM_BLOCK_SIZE));;
  pmm_set_bit 0;;
  s ← get;
  (if negb (initrd_brain_loaded s =? 0)
   then protect (u32 (initrd_brain_start s / PMM_BLOCK_SIZE))
          (u32 (u64 (initrd_brain_end s + PMM_BLOCK_SIZE - 1) / PMM_BLOCK_SIZE))
   else mret tt);;
  s ← get;
  (if negb (ramdisk_loaded s =? 0)
   then protect (u32 (ramdisk_start s / PMM_BLOCK_SIZE))
          (u32 (u64 (ramdisk_start s + ramdisk_size s + PMM_BLOCK_SIZE - 1) / PMM_BLOCK_SIZE))
   else mret tt).

Definition pmm_init (magic mbd_ptr : Z) : comp (pmm * X) unit :=
  in_pmm (for_each 0 PMM_BITMAP_SIZE (λ i, bitmap_put i 255));;
  in_pmm (modify (set_free 0));;
  (if magic =? 0x2BADB002 then mb1_init mbd_ptr
   else if magic =? 0x36D76289 then mb2_init mbd_ptr
   else mret tt);;
  in_pmm (f ← gets free_blocks; modify (set_total (u32 (f * 4))));;
  in_pmm pmm_protect.
End init.

(** ** The bitmap as a set of blocks *)

Definition used (s : pmm) (b : Z) : bool := Z.testbit (pmm_bitmap s (b / 8)) (b mod 8).

(** [NBLOCKS] as a [nat], opaque so that no tactic ever computes it. *)
Lemma nblocks_sealed : {n : nat | Z.of_nat n = NBLOCKS}.
Proof. exists (Z.to_nat NBLOCKS). apply Z2Nat.id. unfold NBLOCKS, PMM_BITMAP_SIZE. lia. Qed.
Definition nblocks : nat := proj1_sig nblocks_sealed.

(** Number of clear bits of the bitmap. *)
Definition free_count (s : pmm) : Z := count_upto (λ b, negb (used s b)) nblocks.

(** The free counter tells the number of clear bits. *)
Record pmm_inv (s : pmm) : Prop := PmmInv { free_counted : free_blocks s = free_count s }.

(** Everything but the bitmap and the counter. *)
Definition pmm_rest (s : pmm) :=
  (total_memory_kb s, last_free_bit s, initrd_brain_start s, initrd_brain_end s,
   initrd_brain_loaded s, ramdisk_start s, ramdisk_size s, ramdisk_loaded s).

Lemma pmm_rest_eq s s' : pmm_rest s = pmm_rest s' →
  total_memory_kb s = total_memory_kb s' ∧ last_free_bit s = last_free_bit s'.
Proof. unfold pmm_rest. intros H. by injection H. Qed.

Lemma pmm_inv_last l s : pmm_inv s → pmm_inv (set_last l s).
Proof. intros [H]. by constructor. Qed.
Lemma pmm_inv_total t s : pmm_inv s → pmm_inv (set_total t s).
Proof. intros [H]. by constructor. Qed.
#[local] Hint Resolve pmm_inv_last pmm_inv_total : csem.

Lemma nblocks_Z : Z.of_nat nblocks = NBLOCKS.
Proof. exact (proj2_sig nblocks_sealed). Qed.

Lemma free_count_bound s : 0 ≤ free_count s ≤ NBLOCKS.
Proof. unfold free_count. rewrite <-nblocks_Z. apply count_upto_bound. Qed.

Lemma block_index b : 0 ≤ b < NBLOCKS → 0 ≤ b / 8 < PMM_BITMAP_SIZE ∧ 0 ≤ b mod 8 < 8.
Proof. unfold NBLOCKS, PMM_BITMAP_SIZE. intros. dlia. Qed.

Lemma bitmap_get_run i s : 0 ≤ i < PMM_BITMAP_SIZE → bitmap_get i s = Ret (pmm_bitmap s i, s).
Proof.
  intros Hi. unfold bitmap_get, mbind, comp_bind, get.
  by rewrite (proj2 (Z.leb_le 0 i)), (proj2 (Z.ltb_lt i _)) by lia.
Qed.
Lemma bitmap_put_run i v s : 0 ≤ i < PMM_BITMAP_SIZE →
  bitmap_put i v s = Ret (tt, set_bitmap (<[i := v]> (pmm_bitmap s)) s).
Proof.
  intros Hi. unfold bitmap_put, mbind, comp_bind, get.
  by rewrite (proj2 (Z.leb_le 0 i)), (proj2 (Z.ltb_lt i _)) by lia.
Qed.
Lemma bitmap_get_oob i s : PMM_BITMAP_SIZE ≤ i → bitmap_get i s = Undef.
Proof.
  intros Hi. unfold bitmap_get, mbind, comp_bind, get.
  by rewrite (proj2 (Z.ltb_ge i _)), andb_false_r by lia.
Qed.

(** A block's bit after its byte is replaced. *)
Lemma used_insert s b v c :
  0 ≤ b → 0 ≤ c →
  (∀ k, 0 ≤ k < 8 → k ≠ b mod 8 → Z.testbit v k = Z.testbit (pmm_bitmap s (b / 8)) k) →
  used (set_bitmap (<[b / 8 := v]> (pmm_bitmap s)) s) c =
  if c =? b then Z.testbit v (b mod 8) else used s c.
Proof.
  intros Hb Hc Hv. unfold used. simpl.
  destruct (decide (c / 8 = b / 8)) as [E|E].
  - rewrite E, fn_lookup_insert. destruct (Z.eqb_spec c b) as [->|Hne]; [done|].
    apply Hv; dlia.
  - rewrite fn_lookup_insert_ne by congruence.
    destruct (Z.eqb_spec c b) as [->|]; [done|done].
Qed.

(** The counter moves with the bit. *)
Lemma free_count_update s s' b :
  0 ≤ b < NBLOCKS →
  (∀ c, 0 ≤ c < NBLOCKS → c ≠ b → used s' c = used s c) →
  free_count s' = free_count s + (if used s b then 1 else 0) - (if used s' b then 1 else 0).
Proof.
  intros Hb Heq. unfold free_count.
  pose proof (count_upto_update (λ b, negb (used s b)) (λ b, negb (used s' b)) nblocks b) as H.
  cbn beta in H. rewrite nblocks_Z in H.
  specialize (H Hb). assert (Hx := H (λ c Hc Hne, f_equal negb (eq_sym (Heq c Hc Hne)))).
  destruct (used s b), (used s' b); simpl in *; lia.
Qed.

Lemma pmm_set_bit_spec s b :
  pmm_inv s → 0 ≤ b < NBLOCKS →
  wp (pmm_set_bit b) (λ _ s', pmm_inv s' ∧ pmm_rest s' = pmm_rest s ∧
    (∀ c, 0 ≤ c → used s' c = (c =? b) || used s c) ∧
    free_blocks s' = free_blocks s - (if used s b then 0 else 1)) s.
Proof.
  intros Hinv Hb. destruct (block_index b Hb) as [Hi Hj].
  unfold wp, pmm_set_bit. rewrite (run_bind _ _ _ _ _ (bitmap_get_run _ _ Hi)).
  rewrite land_bit by lia. change (Z.testbit _ _) with (used s b).
  destruct (used s b) eqn:Eu; simpl.
  - split; [done|]. split; [done|]. split; [|lia]. intros c Hc. destruct (Z.eqb_spec c b) as [->|]; done.
  - rewrite (run_bind _ _ _ _ _ (bitmap_put_run _ _ _ Hi)). unfold mbind, comp_bind, gets. simpl.
    set (v := u8 _). set (s1 := set_bitmap _ s).
    assert (Hu : ∀ c, 0 ≤ c → used s1 c = (c =? b) || used s c).
    { intros c Hc. unfold s1. rewrite used_insert; [|lia|lia|].
      - destruct (c =? b); [|done]. unfold v. by rewrite bit_set, Z.eqb_refl by lia.
      - intros k Hk Hne. unfold v. rewrite bit_set by lia. by destruct (Z.eqb_spec k (b mod 8)). }
    assert (Hc : free_count s1 = free_count s - 1).
    { pose proof (free_count_update s s1 b Hb) as HF. rewrite Eu, Hu, Z.eqb_refl in HF by lia.
      simpl in HF. rewrite HF; [lia|].
      intros c Hc Hne. rewrite Hu by lia. by destruct (Z.eqb_spec c b). }
    pose proof (free_count_bound s1). pose proof (free_count_bound s) as HB.
    destruct Hinv as [Hinv]. destruct (Z.ltb_spec 0 (free_blocks s)); [|lia].
    assert (u32 (free_blocks s - 1) = free_count s - 1) as ->.
    { rewrite Hinv. apply u32_small. unfold NBLOCKS, PMM_BITMAP_SIZE in HB. lia. }
    split; [constructor; simpl; by rewrite <-Hc|]. split; [done|]. split; [done|]. simpl. lia.
Qed.

Lemma pmm_clear_bit_spec s b :
  pmm_inv s → 0 ≤ b < NBLOCKS →
  wp (pmm_clear_bit b) (λ _ s', pmm_inv s' ∧ pmm_rest s' = pmm_rest s ∧
    (∀ c, 0 ≤ c → used s' c = negb (c =? b) && used s c) ∧
    free_blocks s' = free_blocks s + (if used s b then 1 else 0)) s.
Proof.
  intros Hinv Hb. destruct (block_index b Hb) as [Hi Hj].
  unfold wp, pmm_clear_bit. rewrite (run_bind _ _ _ _ _ (bitmap_get_run _ _ Hi)).
  rewrite land_bit by lia. change (Z.testbit _ _) with (used s b).
  destruct (used s b) eqn:Eu; simpl.
  - rewrite (run_bind _ _ _ _ _ (bitmap_put_run _ _ _ Hi)). unfold mbind, comp_bind, gets. simpl.
    set (v := u8 _). set (s1 := set_bitmap _ s).
    assert (Hu : ∀ c, 0 ≤ c → used s1 c = negb (c =? b) && used s c).
    { intros c Hc. unfold s1. rewrite used_insert; [|lia|lia|].
      - destruct (c =? b); [|done]. unfold v. by rewrite bit_clear, Z.eqb_refl by lia.
      - intros k Hk Hne. unfold v. rewrite bit_clear by lia. by destruct (Z.eqb_spec k (b mod 8)). }
    assert (Hc : free_count s1 = free_count s + 1).
    { pose proof (free_count_update s s1 b Hb) as HF. rewrite Eu, Hu, Z.eqb_refl in HF by lia.
      simpl in HF. rewrite HF; [lia|].
      intros c Hc Hne. rewrite Hu by lia. by destruct (Z.eqb_spec c b). }
    pose proof (free_count_bound s1) as HB1. pose proof (free_count_bound s) as HB.
    destruct Hinv as [Hinv].
    assert (u32 (free_blocks s + 1) = free_count s + 1) as ->.
    { rewrite Hinv. apply u32_small. unfold NBLOCKS, PMM_BITMAP_SIZE in HB1. lia. }
    split; [constructor; simpl; by rewrite <-Hc|]. split; [done|]. split; [done|]. simpl. lia.
  - split; [done|]. split; [done|]. split; [|lia]. intros c Hc. destruct (Z.eqb_spec c b) as [->|]; [|done]. done.
Qed.

(** ** The next-fit allocator *)

(** What handing out block [b] does to the state. *)
Definition took (s : pmm) (b : Z) (s' : pmm) : Prop :=
  pmm_inv s' ∧ (∀ c, 0 ≤ c → used s' c = (c =? b) || used s c) ∧
  free_blocks s' = free_blocks s - 1 ∧ last_free_bit s' = b + 1 ∧
  pmm_rest (set_last 0 s') = pmm_rest (set_last 0 s).

(** [b] is the first free block of [[lo, hi)] that is not below [bound]. *)
Definition first_free (s : pmm) (bound lo hi b : Z) : Prop :=
  lo ≤ b < hi ∧ bound ≤ b ∧ used s b = false ∧ ∀ c, lo ≤ c < b → bound ≤ c → used s c = true.
Definition none_free (s : pmm) (bound lo hi : Z) : Prop :=
  ∀ c, lo ≤ c < hi → bound ≤ c → used s c = true.

Definition pass_post (s : pmm) (bound lo hi : Z) (r : option Z) (s' : pmm) : Prop :=
  match r with
  | Some a => ∃ b, a = b * PMM_BLOCK_SIZE ∧ first_free s bound lo hi b ∧ took s b s'
  | None => s' = s ∧ none_free s bound lo hi
  end.

Lemma used_bit s i j : 0 ≤ i → 0 ≤ j < 8 → used s (i * 8 + j) = Z.testbit (pmm_bitmap s i) j.
Proof.
  intros Hi Hj. unfold used. replace ((i * 8 + j) / 8) with i by dlia.
  by replace ((i * 8 + j) mod 8) with j by dlia.
Qed.

Lemma alloc_byte_spec s bound i :
  pmm_inv s → 0 ≤ i < PMM_BITMAP_SIZE →
  wp (alloc_byte bound i) (pass_post s bound (i * 8) (i * 8 + 8)) s.
Proof.
  intros Hinv Hi. unfold alloc_byte.
  apply wp_bind. unfold wp at 1. rewrite bitmap_get_run by done.
  destruct (Z.eqb_spec (pmm_bitmap s i) 255) as [E|_]; simpl.
  { split; [done|]. intros c Hc _. replace c with (i * 8 + (c - i * 8)) by lia.
    rewrite used_bit, E by lia. apply byte_full_bit. lia. }
  apply (wp_for_range (λ j t, t = s ∧ none_free s bound (i * 8) (i * 8 + j))); [lia | | |].
  - split; [done|]. intros c Hc. lia.
  - intros j t Hj [-> Hnone]. cbn beta zeta.
    assert (Hblk : 0 ≤ i * 8 + j < NBLOCKS) by (unfold NBLOCKS; lia).
    assert (Hsz : NBLOCKS < 2 ^ 32 - 1) by (unfold NBLOCKS, PMM_BITMAP_SIZE; lia).
    rewrite u32_small by lia.
    apply wp_bind. unfold wp at 1. rewrite bitmap_get_run by done.
    rewrite land_bit, <-used_bit by lia.
    destruct ((bound <=? i * 8 + j) && negb (used s (i * 8 + j))) eqn:E; destr_bool.
    + apply wp_bind. eapply wp_mono; [by apply pmm_set_bit_spec|].
      intros [] s1 (Hinv1 & Hrest & Hu & Hf). wp_steps. rewrite u32_small by lia.
      exists (i * 8 + j). split; [done|].
      assert (Hfree : used s (i * 8 + j) = false) by (by destruct (used s (i * 8 + j))).
      split; [split; [lia|]; split; [lia|]; split; [done|]|].
      * intros c Hc Hb. apply Hnone; lia.
      * split; [auto with csem|]. split; [done|]. split; [simpl; rewrite Hf, Hfree; lia|].
        split; [done|]. unfold pmm_rest in Hrest |- *. simpl. congruence.
    + apply wp_ret. split; [done|]. intros c Hc Hb.
      destruct (decide (c = i * 8 + j)) as [->|]; [|apply Hnone; lia].
      destruct (used s (i * 8 + j)); [done|]. rewrite (proj2 (Z.leb_le _ _) Hb) in E. done.
  - intros t [-> Hnone]. done.
Qed.

(** One pass over the bytes [[lo, hi)] of the bitmap. *)
Lemma alloc_pass_spec s bound lo hi :
  pmm_inv s → 0 ≤ lo ≤ hi → hi ≤ PMM_BITMAP_SIZE →
  wp (for_range lo hi (alloc_byte bound)) (pass_post s bound (lo * 8) (hi * 8)) s.
Proof.
  intros Hinv Hlo Hhi.
  apply (wp_for_range (λ i t, t = s ∧ none_free s bound (lo * 8) (i * 8))); [lia | | |].
  - split; [done|]. intros c Hc. lia.
  - intros i t Hi [-> Hnone]. eapply wp_mono; [apply alloc_byte_spec; [done|lia]|].
    intros [a|] s'; simpl.
    + intros (b & -> & (Hb & Hbd & Hfree & Hmin) & Htook). exists b. split; [done|].
      split; [|done]. split; [lia|]. split; [done|]. split; [done|].
      intros c Hc Hcb. destruct (decide (c < i * 8)); [apply Hnone; lia | apply Hmin; lia].
    + intros [-> Hn]. split; [done|]. intros c Hc Hcb.
      destruct (decide (c < i * 8)); [apply Hnone; lia | apply Hn; lia].
  - intros t Ht. done.
Qed.

(** The block the allocator must choose: the first free one from the roving
    mark on, else the first free one from 1 MiB (block 256) on. *)
Definition next_fit (s : pmm) (b : Z) : Prop :=
  first_free s (last_free_bit s) (last_free_bit s) NBLOCKS b ∨
  (none_free s (last_free_bit s) (last_free_bit s) NBLOCKS ∧ first_free s 256 256 NBLOCKS b).

(** The states the allocator is run in: the roving mark is at or above 1 MiB
    and inside the bitmap. *)
Definition mark_ok (s : pmm) : Prop := 256 ≤ last_free_bit s < NBLOCKS.

Lemma alloc_correct s :
  pmm_inv s → mark_ok s →
  wp pmm_alloc_block (λ a s',
    (a = 0 ∧ s' = s ∧ none_free s 256 256 NBLOCKS) ∨
    (∃ b, a = b * PMM_BLOCK_SIZE ∧ next_fit s b ∧ took s b s')) s.
Proof.
  intros Hinv [Hm1 Hm2]. unfold pmm_alloc_block. wp_steps.
  assert (HN : NBLOCKS = PMM_BITMAP_SIZE * 8) by done.
  eapply wp_mono; [apply alloc_pass_spec; [done | dlia | lia]|].
  intros [a|] s1; simpl.
  { intros (b & -> & (Hb & Hbd & Hfree & Hmin) & Htook). right. exists b. split; [done|].
    split; [|done]. left. split; [lia|]. split; [done|]. split; [done|].
    intros c Hc Hcb. apply Hmin; [dlia|done]. }
  intros [-> Hnone].
  assert (Hnone' : none_free s (last_free_bit s) (last_free_bit s) NBLOCKS).
  { intros c Hc Hcb. apply Hnone; [dlia|done]. }
  apply wp_bind. eapply wp_mono; [apply alloc_pass_spec; [done | dlia | dlia]|].
  intros [a|] s1; simpl.
  - intros (b & -> & (Hb & Hbd & Hfree & Hmin) & Htook). right. exists b. split; [done|].
    split; [|done]. right. split; [done|]. split; [dlia|]. split; [done|]. split; [done|].
    intros c Hc Hcb. apply Hmin; [dlia|done].
  - intros [-> Hn]. left. split; [done|]. split; [done|]. intros c Hc Hcb.
    destruct (decide (c < last_free_bit s)); [apply Hn; dlia | apply Hnone'; lia].
Qed.

(** ** Freeing *)

Lemma free_block_spec s b :
  pmm_inv s → 0 ≤ b < NBLOCKS →
  wp (pmm_free_block (b * PMM_BLOCK_SIZE)) (λ _ s', pmm_inv s' ∧
    (∀ c, 0 ≤ c → used s' c = negb (c =? b) && used s c) ∧
    free_blocks s' = free_blocks s + (if used s b then 1 else 0) ∧
    last_free_bit s' = Z.min b (last_free_bit s) ∧
    pmm_rest (set_last 0 s') = pmm_rest (set_last 0 s)) s.
Proof.
  intros Hinv Hb. unfold pmm_free_block.
  assert (Hsz : NBLOCKS < 2 ^ 32) by (unfold NBLOCKS, PMM_BITMAP_SIZE; lia).
  replace (b * PMM_BLOCK_SIZE / PMM_BLOCK_SIZE) with b by (unfold PMM_BLOCK_SIZE; dlia).
  rewrite u32_small by lia. cbn zeta.
  apply wp_bind. eapply wp_mono; [by apply pmm_clear_bit_spec|].
  intros [] s1 (Hinv1 & Hrest & Hu & Hf). apply wp_bind, wp_gets.
  assert (Hr : pmm_rest (set_last 0 s1) = pmm_rest (set_last 0 s)).
  { unfold pmm_rest in *. simpl. congruence. }
  assert (Hl : last_free_bit s1 = last_free_bit s) by (unfold pmm_rest in Hrest; congruence).
  rewrite Hl. destruct (Z.ltb_spec b (last_free_bit s)).
  - apply wp_modify. split; [auto with csem|]. split; [done|]. split; [done|].
    split; [simpl; lia|done].
  - apply wp_ret. split; [done|]. split; [done|]. split; [done|]. split; [lia|done].
Qed.

(** ** Runs of the allocator *)

(** The kernel keeps the last tracked block reserved when the machine has
    less than 16 GiB of RAM: then the roving mark never leaves the bitmap. *)
Definition pmm_ready (s : pmm) : Prop :=
  pmm_inv s ∧ mark_ok s ∧ used s (NBLOCKS - 1) = true.

Lemma took_ready s b s' : pmm_ready s → next_fit s b → took s b s' → pmm_ready s' ∧ 256 ≤ b < NBLOCKS - 1.
Proof.
  intros (Hinv & [Hm1 Hm2] & Htop) Hfit (Hinv' & Hu & _ & Hl & _).
  assert (Hb : 256 ≤ b < NBLOCKS - 1 ∧ used s b = false).
  { destruct Hfit as [(Hb & _ & Hf & _) | (_ & Hb & _ & Hf & _)]; split; try done;
      (destruct (decide (b = NBLOCKS - 1)) as [->|]; [congruence | lia]). }
  split; [|tauto]. split; [done|]. split; [unfold mark_ok; lia|].
  rewrite Hu by lia. by rewrite Htop, orb_true_r.
Qed.

Lemma next_fit_free s b : next_fit s b → used s b = false.
Proof. intros [(_ & _ & H & _) | (_ & _ & _ & H & _)]; done. Qed.

(** Allocations and releases of live blocks; [L] holds the live addresses. *)
Inductive alloc_step : pmm * gset Z → pmm * gset Z → Prop :=
  | step_alloc s L a s' :
      pmm_alloc_block s = Ret (a, s') →
      alloc_step (s, L) (s', if a =? 0 then L else {[a]} ∪ L)
  | step_free s L a s' :
      a ∈ L → pmm_free_block a s = Ret (tt, s') →
      alloc_step (s, L) (s', L ∖ {[a]}).

Definition live_ok (s0 : pmm) (c : pmm * gset Z) : Prop :=
  pmm_ready c.1 ∧
  (∀ a, a ∈ c.2 → ∃ b, a = b * PMM_BLOCK_SIZE ∧ 256 ≤ b < NBLOCKS - 1 ∧ used c.1 b = true) ∧
  free_blocks c.1 + Z.of_nat (size c.2) = free_blocks s0.

Lemma block_addr_inj b c : b * PMM_BLOCK_SIZE = c * PMM_BLOCK_SIZE → b = c.
Proof. unfold PMM_BLOCK_SIZE. lia. Qed.

Lemma live_ok_step s0 c c' : live_ok s0 c → alloc_step c c' → live_ok s0 c'.
Proof.
  intros (Hready & Hlive & Hcons) Hstep. destruct Hstep as [s L a s' Hrun | s L a s' Ha Hrun];
    simpl in *; destruct Hready as (Hinv & Hmark & Htop).
  - pose proof (alloc_correct s Hinv Hmark) as HW. unfold wp in HW. rewrite Hrun in HW.
    destruct HW as [(-> & -> & _) | (b & -> & Hfit & Htook)]; [by split|].
    destruct (took_ready s b s') as [Hr Hb]; [done..|].
    destruct Htook as (_ & Hu & Hf & _ & _).
    assert (Hnew : b * PMM_BLOCK_SIZE ∉ L).
    { intros Hin. destruct (Hlive _ Hin) as (c & Hc & _ & Huc).
      apply block_addr_inj in Hc as <-. rewrite (next_fit_free s b) in Huc; done. }
    destruct (Z.eqb_spec (b * PMM_BLOCK_SIZE) 0) as [E|_]; [unfold PMM_BLOCK_SIZE in E; lia|].
    split; [done|]. split; cbn [fst snd].
    + intros a [->%elem_of_singleton | Hin]%elem_of_union.
      * exists b. split; [done|]. split; [lia|]. simpl. by rewrite Hu, Z.eqb_refl by lia.
      * destruct (Hlive a Hin) as (c & Ha' & Hc & Huc). subst a.
        exists c. split; [done|]. split; [done|].
        simpl. rewrite Hu, Huc by lia. apply orb_true_r.
    + simpl. rewrite size_union, size_singleton by set_solver. lia.
  - destruct (Hlive a Ha) as (b & -> & Hb & Hub).
    pose proof (free_block_spec s b Hinv) as HW. unfold wp in HW. rewrite Hrun in HW.
    destruct HW as (Hinv' & Hu & Hf & Hl & _); [lia|].
    split; [|split]; cbn [fst snd].
    + split; [done|]. unfold mark_ok in Hmark. split; [unfold mark_ok; simpl; lia|]. simpl.
      rewrite Hu, Htop by lia. destruct (Z.eqb_spec (NBLOCKS - 1) b); [lia|done].
    + intros a [Hin Hne%not_elem_of_singleton]%elem_of_difference.
      destruct (Hlive a Hin) as (c & Ha' & Hc & Huc). subst a.
        exists c. split; [done|]. split; [done|].
      simpl. rewrite Hu, Huc by lia. destruct (Z.eqb_spec c b) as [->|]; done.
    + simpl. rewrite size_difference, size_singleton by set_solver.
      assert (size L ≠ 0%nat) by (intros E; apply size_empty_inv in E; set_solver).
      rewrite Hf, Hub. lia.
Qed.

Lemma live_ok_reachable s0 c : pmm_ready s0 → rtc alloc_step (s0, ∅) c → live_ok s0 c.
Proof.
  intros Hr Hsteps. assert (H0 : live_ok s0 (s0, ∅)).
  { split; [done|]. split; [set_solver|]. cbn [fst snd]. rewrite size_empty. lia. }
  revert H0. induction Hsteps as [|x y z Hxy _ IH]; intros H0; [done|].
  apply IH. by eapply live_ok_step.
Qed.

(** The allocator as a source of frames. *)
Definition pmm_frame_free (s : pmm) (a : Z) : Prop :=
  ∃ b, a = b * PMM_BLOCK_SIZE ∧ 256 ≤ b < NBLOCKS - 1 ∧ used s b = false.

#[export] Program Instance pmm_frames : FrameAlloc pmm := {|
  frame_alloc := pmm_alloc_block;
  frames_ok := pmm_ready;
  frame_free := pmm_frame_free
|}.
Next Obligation.
  intros s a _ (b & -> & Hb & _). unfold NBLOCKS, PMM_BITMAP_SIZE, PMM_BLOCK_SIZE in *.
  split; [by rewrite Z.mod_mul | lia].
Qed.
Next Obligation.
  intros s (Hinv & Hmark & Htop). eapply wp_mono; [by apply alloc_correct|].
  intros a s' [(-> & -> & Hn) | (b & -> & Hfit & Htook)].
  { split; [done|]. left. split; [done|]. split; [done|].
    intros b (c & _ & Hc & Huc). rewrite Hn in Huc by lia. done. }
  destruct (took_ready s b s') as [Hr Hb]; [done..|]. split; [done|]. right.
  destruct Htook as (_ & Hu & _). split; [|split].
  - exists b. by rewrite (next_fit_free s b).
  - intros (c & Hc%block_addr_inj & _ & Huc). subst c. rewrite Hu, Z.eqb_refl in Huc by lia. done.
  - intros a Hne. split; intros (c & -> & Hc & Huc); exists c; (split; [done|]); (split; [done|]).
    + rewrite Hu in Huc by lia. by apply orb_false_iff in Huc as [_ ?].
    + rewrite Hu, Huc by lia. destruct (Z.eqb_spec c b) as [->|]; [done|done].
Qed.

(** ** Boot *)

(** Filling the bitmap: everything reserved. *)
Lemma reserve_all_spec (s0 : pmm) :
  last_free_bit s0 = 256 →
  wp (for_each 0 PMM_BITMAP_SIZE (λ i, bitmap_put i 255))
    (λ _ s, pmm_inv (set_free 0 s) ∧ last_free_bit s = 256 ∧
       initrd_brain_loaded s = initrd_brain_loaded s0 ∧ ramdisk_loaded s = ramdisk_loaded s0) s0.
Proof.
  intros Hl.
  apply (wp_for_each (λ i s, (last_free_bit s = 256 ∧ initrd_brain_loaded s = initrd_brain_loaded s0 ∧
    ramdisk_loaded s = ramdisk_loaded s0) ∧ ∀ k, 0 ≤ k < i → pmm_bitmap s k = 255)).
  - unfold PMM_BITMAP_SIZE. lia.
  - split; [done|]. intros k Hk. lia.
  - intros i s Hi [Hs Hall]. unfold wp. rewrite bitmap_put_run by done. split; [done|].
    intros k Hk. simpl. destruct (decide (k = i)) as [->|].
    + by rewrite fn_lookup_insert.
    + rewrite fn_lookup_insert_ne by done. apply Hall. lia.
  - intros s [Hs Hall]. split; [|done].
    constructor. simpl. symmetry. unfold free_count.
    assert (Hz : ∀ n : nat, Z.of_nat n ≤ NBLOCKS →
      count_upto (λ b, negb (used (set_free 0 s) b)) n = 0); [|apply Hz; by rewrite nblocks_Z].
    induction n as [|n IH]; intros Hn; [done|]. rewrite count_upto_S, IH by lia.
    unfold used. simpl. rewrite Hall, byte_full_bit; [done | dlia |].
    pose proof (block_index (Z.of_nat n)) as [? _]; [lia|]. simpl. lia.
Qed.

Section init_facts.
Context {X : Type}.
Context (screen_init_fb : Z → Z → Z → Z → Z → X → X) (acpi_init : Z → comp X unit).
Context (mem : memory) (kernel_start kernel_end : Z).

(** What parsing the boot information preserves. *)
Definition booting (t : pmm * X) : Prop := pmm_inv t.1 ∧ last_free_bit t.1 = 256.

Lemma booting_clear b (t : pmm * X) :
  booting t → wlp (in_pmm (pmm_clear_bit b)) (λ _ t', booting t') t.
Proof.
  intros [Hinv Hl]. apply wlp_zoom. destruct (decide (0 ≤ b < NBLOCKS)) as [Hb|Hb].
  - apply wlp_wp. eapply wp_mono; [by apply pmm_clear_bit_spec|].
    intros [] s' (Hinv' & Hr & _). split; [done|]. unfold pmm_rest in Hr. simpl. congruence.
  - unfold wlp, pmm_clear_bit, mbind, comp_bind, bitmap_get, get.
    assert ((0 <=? b / 8) && (b / 8 <? PMM_BITMAP_SIZE) = false) as ->; [|done].
    apply andb_false_iff. unfold NBLOCKS in Hb.
    destruct (Z.leb_spec 0 b); [right; apply Z.ltb_ge; dlia | left; apply Z.leb_gt; dlia].
Qed.

Lemma booting_modify (f : pmm → pmm) (t : pmm * X) :
  (∀ s, pmm_bitmap (f s) = pmm_bitmap s ∧ free_blocks (f s) = free_blocks s ∧
        last_free_bit (f s) = last_free_bit s) →
  booting t → wlp (in_pmm (modify f)) (λ _ t', booting t') t.
Proof.
  intros Hf [Hinv Hl]. apply wlp_zoom, wlp_modify. destruct (Hf t.1) as (Hb & Hfr & Hla).
  destruct Hinv as [Hinv].
  split; simpl; [|congruence]. constructor. unfold free_count, used in *. by rewrite Hfr, Hb.
Qed.

Lemma booting_rest {A} (m : comp X A) (t : pmm * X) :
  booting t → wlp (in_rest m) (λ _ t', booting t') t.
Proof. intros H. unfold wlp, in_rest, zoom. destruct (m t.2) as [[a x]| |]; done. Qed.

Lemma booting_find_disk str (t : pmm * X) :
  booting t → wlp (find_disk mem str) (λ _ t', booting t') t.
Proof.
  intros H. unfold find_disk. apply wlp_bind.
  assert (Hs : wlp (mb_strlen mem str) (λ _ t', booting t') t).
  { apply (wlp_loop (λ _ t', booting t')); [done|].
    intros len t1 Ht1. destruct (_ =? 0); [|destruct (_ =? _)]; by wlp_steps. }
  eapply wlp_mono; [exact Hs|]. intros len t1 Ht1. apply wlp_bind.
  eapply wlp_mono; [apply (wlp_for_range booting); [done|]; intros; by wlp_steps|].
  intros r t2 Ht2. by wlp_steps.
Qed.

(** The hints that carry [booting] through the parser. *)
Create HintDb boot.
#[local] Hint Resolve booting_clear booting_modify booting_rest booting_find_disk : boot.

Lemma booting_mb1_range addr len (t : pmm * X) :
  booting t → wlp (mb1_free_range addr len) (λ _ t', booting t') t.
Proof.
  intros H. apply (wlp_loop (λ _ t', booting t')); [done|].
  intros a t1 Ht1. destruct (_ <? _); [|by wlp_steps]. apply wlp_bind.
  assert (wlp (if u32 (a / PMM_BLOCK_SIZE) <? PMM_BITMAP_SIZE * 8
               then in_pmm (pmm_clear_bit (u32 (a / PMM_BLOCK_SIZE))) else mret tt)
            (λ _ t', booting t') t1) as Hc.
  { destruct (_ <? _); [auto with boot | by wlp_steps]. }
  eapply wlp_mono; [exact Hc|]. intros. by wlp_steps.
Qed.

Lemma booting_mb2_range addr len (t : pmm * X) :
  booting t → wlp (mb2_free_range addr len) (λ _ t', booting t') t.
Proof.
  intros H. apply wlp_bind. eapply wlp_mono; [apply (wlp_for_range booting); [done|]|].
  - intros i t1 _ Ht1. cbn beta zeta. destruct (_ <? _); [|by wlp_steps].
    apply wlp_bind. eapply wlp_mono; [by apply booting_clear|]. intros. by wlp_steps.
  - intros. by wlp_steps.
Qed.
#[local] Hint Resolve booting_mb1_range booting_mb2_range : boot.

(** A conditional step followed by the rest. *)
Lemma booting_seq {A B} (m : comp (pmm * X) A) (k : A → comp (pmm * X) B) t :
  wlp m (λ _ t', booting t') t → (∀ a t', booting t' → wlp (k a) (λ _ t'', booting t'') t') →
  wlp (m ≫= k) (λ _ t', booting t') t.
Proof. intros Hm Hk. apply wlp_bind. eapply wlp_mono; [exact Hm|]. auto. Qed.

Lemma booting_if {A} (b : bool) (m1 m2 : comp (pmm * X) A) t :
  wlp m1 (λ _ t', booting t') t → wlp m2 (λ _ t', booting t') t →
  wlp (if b then m1 else m2) (λ _ t', booting t') t.
Proof. by destruct b. Qed.

Lemma booting_ret {A} (a : A) (t : pmm * X) : booting t → wlp (mret a) (λ _ t', booting t') t.
Proof. done. Qed.
#[local] Hint Resolve booting_if booting_ret wlp_undef : boot.

Lemma booting_mb1 mbd (t : pmm * X) :
  booting t → wlp (mb1_init screen_init_fb mem mbd) (λ _ t', booting t') t.
Proof.
  intros H. unfold mb1_init. apply booting_seq; [|intros [] t1 Ht1; apply booting_seq].
  - apply booting_if; [|auto with boot]. apply (wlp_loop (λ _ t', booting t')); [done|].
    intros a t1 Ht1. destruct (_ <? _); [|by wlp_steps]. apply wlp_bind.
    eapply wlp_mono; [apply booting_if; auto with boot|]. intros. by wlp_steps.
  - auto with boot.
  - intros [] t2 Ht2. apply booting_if; [|auto with boot].
    apply (wlp_for_each booting); [done|]. intros i t3 _ Ht3. cbn beta zeta.
    apply booting_if; [|auto with boot]. apply booting_seq; [auto with boot|].
    intros b t4 Ht4. apply booting_if; [|auto with boot]. by apply booting_modify.
Qed.

Lemma booting_mb2_mmap tag (t : pmm * X) :
  booting t → wlp (mb2_mmap mem tag) (λ _ t', booting t') t.
Proof.
  intros H. apply booting_if; [by apply wlp_undef|].
  apply (wlp_for_each booting); [done|]. intros i t1 _ Ht1. auto with boot.
Qed.

Lemma booting_mb2_module tag (t : pmm * X) :
  booting t → wlp (mb2_module mem tag) (λ _ t', booting t') t.
Proof.
  intros H. apply booting_seq; [auto with boot|]. intros b t1 Ht1.
  apply booting_if; [by apply booting_modify|].
  apply booting_if; [by apply booting_modify | auto with boot].
Qed.
#[local] Hint Resolve booting_mb2_mmap booting_mb2_module : boot.

Lemma booting_mb2_tag tag (t : pmm * X) :
  booting t → wlp (mb2_tag screen_init_fb acpi_init mem tag) (λ _ t', booting t') t.
Proof. intros H. unfold mb2_tag. cbn zeta. auto 10 with boot. Qed.

Lemma booting_mb2 mbd (t : pmm * X) :
  booting t → wlp (mb2_init screen_init_fb acpi_init mem mbd) (λ _ t', booting t') t.
Proof.
  intros H. apply (wlp_loop (λ _ t', booting t')); [done|]. intros off t1 Ht1.
  destruct (_ <? _); [|by wlp_steps]. cbn zeta. destruct (_ =? 0); [by wlp_steps|].
  apply wlp_bind. eapply wlp_mono; [by apply booting_mb2_tag|]. intros. by wlp_steps.
Qed.

(** Marking a range of blocks used; [s0] is the state boot protection
    started from. *)
Definition protected (s0 s : pmm) : Prop :=
  pmm_inv s ∧ pmm_rest s = pmm_rest s0 ∧ free_blocks s ≤ free_blocks s0 ∧
  ∀ b, 0 ≤ b → used s0 b = true → used s b = true.
Definition range_used (s : pmm) (lo hi : Z) : Prop := ∀ b, lo ≤ b ≤ hi → used s b = true.

Lemma protected_trans s0 s1 s2 : protected s0 s1 → protected s1 s2 → protected s0 s2.
Proof.
  intros (Hi & Hr & Hf & Hm) (Hi' & Hr' & Hf' & Hm'). split; [done|]. split; [congruence|]. split; [lia|auto].
Qed.

Lemma set_bit_protects b s :
  0 ≤ b → pmm_inv s → wlp (pmm_set_bit b) (λ _ s', protected s s' ∧ used s' b = true) s.
Proof.
  intros Hb0 Hinv. destruct (decide (b < NBLOCKS)) as [Hb|Hb].
  - apply wlp_wp. eapply wp_mono; [apply pmm_set_bit_spec; [done|lia]|].
    intros [] s' (Hi & Hr & Hu & Hf). rewrite Hu, Z.eqb_refl by done.
    split; [|done]. split; [done|]. split; [done|]. split; [destruct (used s b); lia|].
    intros c Hc Huc. rewrite Hu, Huc by done. apply orb_true_r.
  - unfold wlp, pmm_set_bit, mbind at 1, comp_bind. rewrite bitmap_get_oob; [done|].
    unfold NBLOCKS in Hb. dlia.
Qed.

Lemma protect_spec lo hi s :
  0 ≤ lo → pmm_inv s →
  wlp (protect lo hi) (λ _ s', protected s s' ∧ range_used s' lo hi) s.
Proof.
  intros Hlo Hinv.
  apply (wlp_for_each_idx (λ i t, protected s t ∧ range_used t lo (i - 1))).
  - split; [done|]. intros b Hb. lia.
  - intros i t Hi [Hp Hu]. eapply wlp_mono; [apply set_bit_protects; [lia|apply Hp]|].
    intros [] t' [Hp' Hui]. split; [by eapply protected_trans|].
    intros b Hb. destruct (decide (b = i)) as [->|]; [done|].
    apply Hp'; [lia|]. apply Hu. lia.
  - intros t [Hp Hu]. split; [done|]. intros b Hb. apply Hu. lia.
Qed.

Lemma range_used_mono s s' lo hi : 0 ≤ lo → protected s s' → range_used s lo hi → range_used s' lo hi.
Proof. intros Hlo (_ & _ & _ & Hm) Hu b Hb. apply Hm; [lia|]. by apply Hu. Qed.

(** What [pmm_init] promises of the final bitmap. *)
Definition boot_protected (s : pmm) : Prop :=
  used s 0 = true ∧
  range_used s (u32 (kernel_start / PMM_BLOCK_SIZE)) (u32 (kernel_end / PMM_BLOCK_SIZE)) ∧
  (initrd_brain_loaded s ≠ 0 →
   range_used s (u32 (initrd_brain_start s / PMM_BLOCK_SIZE))
     (u32 (u64 (initrd_brain_end s + PMM_BLOCK_SIZE - 1) / PMM_BLOCK_SIZE))) ∧
  (ramdisk_loaded s ≠ 0 →
   range_used s (u32 (ramdisk_start s / PMM_BLOCK_SIZE))
     (u32 (u64 (ramdisk_start s + ramdisk_size s + PMM_BLOCK_SIZE - 1) / PMM_BLOCK_SIZE))).

(** Protect a module's blocks when it is loaded. *)
Lemma protect_if_spec loaded lo hi s :
  0 ≤ lo → pmm_inv s →
  wlp (if negb (loaded =? 0) then protect lo hi else mret tt)
    (λ _ s', protected s s' ∧ (loaded ≠ 0 → range_used s' lo hi)) s.
Proof.
  intros Hlo Hinv. destruct (Z.eqb_spec loaded 0) as [->|Hne]; simpl.
  - apply wlp_ret. split; [|done]. split; [done|]. split; [done|]. split; [lia|auto].
  - eapply wlp_mono; [by apply protect_spec|]. intros [] s' [Hp Hu]. done.
Qed.

Lemma pmm_protect_spec s :
  pmm_inv s →
  wlp (pmm_protect kernel_start kernel_end) (λ _ s', protected s s' ∧ boot_protected s') s.
Proof.
  intros Hinv. pose proof (λ x, proj1 (u32_range x)) as Hpos. unfold pmm_protect. apply wlp_bind.
  eapply wlp_mono; [by apply protect_spec|]. intros [] s1 [H1 Hk]. apply wlp_bind.
  eapply wlp_mono; [apply set_bit_protects; [lia|apply H1]|]. intros [] s2 [H2 Hz].
  apply wlp_bind, wlp_get, wlp_bind.
  eapply wlp_mono; [apply protect_if_spec; [auto|apply H2]|]. intros [] s3 [H3 Hb].
  apply wlp_bind, wlp_get.
  eapply wlp_mono; [apply protect_if_spec; [auto|apply H3]|]. intros [] s4 [H4 Hr].
  assert (H24 : protected s2 s4) by (by eapply protected_trans).
  split; [eapply protected_trans; [done|]; by eapply protected_trans|].
  assert (E3 : pmm_rest s3 = pmm_rest s2) by apply H3.
  assert (E4 : pmm_rest s4 = pmm_rest s3) by apply H4.
  split; [apply H24; [lia|done]|]. split; [|split].
  - eapply range_used_mono; [auto|exact H24|]. eapply range_used_mono; [auto|exact H2|done].
  - unfold pmm_rest in E3, E4.
    replace (initrd_brain_loaded s4) with (initrd_brain_loaded s2) by congruence.
    replace (initrd_brain_start s4) with (initrd_brain_start s2) by congruence.
    replace (initrd_brain_end s4) with (initrd_brain_end s2) by congruence.
    intros Hl. eapply range_used_mono; [auto|exact H4|]. by apply Hb.
  - unfold pmm_rest in E4.
    replace (ramdisk_loaded s4) with (ramdisk_loaded s3) by congruence.
    replace (ramdisk_start s4) with (ramdisk_start s3) by congruence.
    by replace (ramdisk_size s4) with (ramdisk_size s3) by congruence.
Qed.

Lemma reserve_all_booting (t : pmm * X) :
  last_free_bit t.1 = 256 →
  wlp (in_pmm (for_each 0 PMM_BITMAP_SIZE (λ i, bitmap_put i 255));; in_pmm (modify (set_free 0)))
    (λ _ t', booting t') t.
Proof.
  intros Hl. apply wlp_bind, wlp_zoom, wlp_wp.
  eapply wp_mono; [by apply reserve_all_spec|]. intros [] s (Hi & Hs & _).
  apply wlp_zoom, wlp_modify. by split.
Qed.

Lemma pmm_init_ok magic mbd (t : pmm * X) :
  last_free_bit t.1 = 256 →
  wlp (pmm_init screen_init_fb acpi_init mem kernel_start kernel_end magic mbd)
    (λ _ t', pmm_inv t'.1 ∧ last_free_bit t'.1 = 256 ∧ boot_protected t'.1 ∧
             free_blocks t'.1 ≤ total_memory_kb t'.1 / 4) t.
Proof.
  intros Hl. unfold pmm_init.
  pose proof (reserve_all_booting t Hl) as Hr. apply wlp_bind.
  revert Hr. unfold wlp at 1 2. unfold mbind at 1, comp_bind.
  destruct (in_pmm _ t) as [[[] t1]| |]; [|done..]. intros Hr.
  apply wlp_bind. apply (wlp_mono _ (λ _ t', booting t')); [exact Hr|].
  intros [] t2 H2. apply wlp_bind. eapply wlp_mono.
  { apply booting_if; [by apply booting_mb1|]. apply booting_if; [by apply booting_mb2|].
    by apply booting_ret. }
  intros [] t3 [Hinv3 Hl3]. apply wlp_bind, wlp_zoom. wlp_steps. apply wlp_zoom.
  set (s4 := set_total _ t3.1).
  assert (Hinv4 : pmm_inv s4) by (by apply pmm_inv_total).
  eapply wlp_mono; [by apply pmm_protect_spec|]. intros [] s5 [(Hi5 & Hr5 & Hf5 & _) Hb].
  simpl. split; [done|]. destruct (pmm_rest_eq _ _ Hr5) as [Et El].
  split; [by rewrite El|].
  split; [done|]. rewrite Et. unfold s4. simpl. pose proof (free_count_bound t3.1) as HB. destruct Hinv3 as [Hinv3].
  unfold NBLOCKS, PMM_BITMAP_SIZE in HB.
  rewrite u32_small by lia. unfold s4 in Hf5. simpl in Hf5. dlia.
Qed.
End init_facts.

(** ** A concrete machine, for the examples *)

(** Every tracked block reserved, the roving mark at [last]. *)
Definition pmm_full (last : Z) : pmm := MkPmm (λ _, 255) 0 0 last 0 0 0 0 0 0.
(** The same after block 300 has been released. *)
Definition pmm_demo : pmm := set_free 1 (set_bitmap (<[37 := 239]> (λ _, 255)) (pmm_full 256)).

Lemma pmm_full_used last b : 0 ≤ b → used (pmm_full last) b = true.
Proof. intros Hb. apply byte_full_bit. dlia. Qed.

Lemma pmm_full_inv last : pmm_inv (pmm_full last).
Proof.
  constructor. unfold free_count. simpl. symmetry.
  assert (H : ∀ n, count_upto (λ b, negb (used (pmm_full last) b)) n = 0); [|apply H].
  induction n as [|n IH]; [done|]. by rewrite count_upto_S, IH, pmm_full_used by lia.
Qed.

Lemma pmm_demo_ready : pmm_ready pmm_demo.
Proof.
  pose proof (free_block_spec (pmm_full 256) 300 (pmm_full_inv 256)) as H.
  destruct H as (Hi & _); [by split|].
  split; [exact Hi|]. split; [by split|]. reflexivity.
Qed.

(** ** The properties of the physical memory manager *)

(** C1. Next-fit allocation.  On a consistent state whose roving mark is in
    range, [pmm_alloc_block] always returns.  It answers 0 exactly when no
    block from 1 MiB on is free, and then changes nothing; otherwise it
    answers the address of the first free block at or after the mark (or,
    failing that, after 1 MiB), marks that block and no other used, takes one
    off the free counter and moves the mark just past it. *)
Theorem alloc_next_fit (s : pmm) :
  pmm_inv s → mark_ok s →
  ∃ a s', pmm_alloc_block s = Ret (a, s') ∧ pmm_inv s' ∧
    (a = 0 ↔ none_free s 256 256 NBLOCKS) ∧ (a = 0 → s' = s) ∧
    (a ≠ 0 → ∃ b, a = b * PMM_BLOCK_SIZE ∧ next_fit s b ∧
       (∀ c, 0 ≤ c → used s' c = (c =? b) || used s c) ∧
       free_blocks s' = free_blocks s - 1 ∧ last_free_bit s' = b + 1).
Proof.
  intros Hinv Hm. destruct (proj1 (wp_run _ _ _) (alloc_correct s Hinv Hm)) as (a & s' & Hrun & Hpost).
  exists a, s'. split; [done|]. destruct Hpost as [(-> & -> & Hn) | (b & -> & Hfit & Htook)].
  - split; [done|]. split; [by split|]. by split.
  - assert (Hb : 256 ≤ b < NBLOCKS).
    { destruct Hm. destruct Hfit as [[Hr _] | [_ [Hr _]]]; lia. }
    assert (Hne : b * PMM_BLOCK_SIZE ≠ 0) by (unfold PMM_BLOCK_SIZE; lia).
    destruct Htook as (Hi & Hu & Hf & Hl & _).
    split; [done|]. split; [|split; [done|intros _; by exists b]].
    split; [done|]. intros Hn. pose proof (next_fit_free s b Hfit) as E.
    rewrite Hn in E by lia. done.
Qed.

Lemma alloc_next_fit_witness :
  ∃ a s', pmm_alloc_block pmm_demo = Ret (a, s') ∧ pmm_inv s' ∧
    (a = 0 ↔ none_free pmm_demo 256 256 NBLOCKS) ∧ (a = 0 → s' = pmm_demo) ∧
    (a ≠ 0 → ∃ b, a = b * PMM_BLOCK_SIZE ∧ next_fit pmm_demo b ∧
       (∀ c, 0 ≤ c → used s' c = (c =? b) || used pmm_demo c) ∧
       free_blocks s' = free_blocks pmm_demo - 1 ∧ last_free_bit s' = b + 1).
Proof. apply (alloc_next_fit pmm_demo); apply pmm_demo_ready. Defined.

(** C2. No block is handed out twice.  After any sequence of allocations and
    releases of live blocks from a ready state, the allocator returns, the
    address it answers is not live, every live block is still marked used,
    and the free counter plus the number of live blocks is what the free
    counter was at the start. *)
Theorem live_blocks_disjoint (s0 s : pmm) (L : gset Z) :
  pmm_ready s0 → rtc alloc_step (s0, ∅) (s, L) →
  (∃ a s', pmm_alloc_block s = Ret (a, s') ∧ a ∉ L) ∧
  (∀ a, a ∈ L → used s (a / PMM_BLOCK_SIZE) = true) ∧
  free_blocks s + Z.of_nat (size L) = free_blocks s0.
Proof.
  intros Hr Hs. destruct (live_ok_reachable _ _ Hr Hs) as ((Hinv & Hm & Htop) & Hlive & Hcons).
  cbn [fst snd] in *.
  assert (Hu : ∀ a, a ∈ L → a ≠ 0 ∧ used s (a / PMM_BLOCK_SIZE) = true).
  { intros a Ha. destruct (Hlive a Ha) as (b & -> & Hb & Hub).
    unfold PMM_BLOCK_SIZE. rewrite Z.div_mul by lia. split; [lia|done]. }
  split; [|split; [by intros; apply Hu|done]].
  destruct (proj1 (wp_run _ _ _) (alloc_correct s Hinv Hm)) as (a & s' & Hrun & Hpost).
  exists a, s'. split; [done|]. intros Ha. destruct (Hu a Ha) as [Hne Hua].
  destruct Hpost as [(-> & _) | (b & -> & Hfit & _)]; [done|].
  unfold PMM_BLOCK_SIZE in Hua. rewrite Z.div_mul, (next_fit_free s b Hfit) in Hua by lia. done.
Qed.

Lemma live_blocks_disjoint_witness :
  (∃ a s', pmm_alloc_block pmm_demo = Ret (a, s') ∧ a ∉ (∅ : gset Z)) ∧
  (∀ a, a ∈ (∅ : gset Z) → used pmm_demo (a / PMM_BLOCK_SIZE) = true) ∧
  free_blocks pmm_demo + Z.of_nat (size (∅ : gset Z)) = free_blocks pmm_demo.
Proof. apply (live_blocks_disjoint pmm_demo pmm_demo ∅); [apply pmm_demo_ready | constructor]. Defined.

(** Releasing what was just allocated restores the allocator: the same
    blocks are used and the free counter is what it was. *)
Theorem alloc_free_roundtrip (s s1 : pmm) (a : Z) :
  pmm_inv s → mark_ok s → pmm_alloc_block s = Ret (a, s1) → a ≠ 0 →
  ∃ s2, pmm_free_block a s1 = Ret (tt, s2) ∧ pmm_inv s2 ∧ free_blocks s2 = free_blocks s ∧
    (∀ c, 0 ≤ c → used s2 c = used s c) ∧ total_memory_kb s2 = total_memory_kb s.
Proof.
  intros Hinv Hm Hrun Hne. pose proof (alloc_correct s Hinv Hm) as HW. unfold wp in HW.
  rewrite Hrun in HW. destruct HW as [(-> & _) | (b & -> & Hfit & Hi & Hu & Hf & Hl & Hr)]; [done|].
  assert (Hb : 256 ≤ b < NBLOCKS).
  { destruct Hm. destruct Hfit as [[Hb _] | [_ [Hb _]]]; lia. }
  destruct (proj1 (wp_run _ _ _) (free_block_spec s1 b Hi ltac:(lia))) as
    ([] & s2 & Hrun2 & Hi2 & Hu2 & Hf2 & _ & Hr2).
  exists s2. split; [done|]. split; [done|].
  split; [rewrite Hf2, Hu, Z.eqb_refl by lia; simpl; lia|]. split.
  - intros c Hc. rewrite Hu2, Hu by done. destruct (Z.eqb_spec c b) as [->|]; simpl; [|done].
    symmetry. by apply next_fit_free.
  - transitivity (total_memory_kb s1); [apply (pmm_rest_eq _ _ Hr2) | apply (pmm_rest_eq _ _ Hr)].
Qed.

Lemma alloc_free_roundtrip_witness :
  ∃ s1 s2, pmm_alloc_block pmm_demo = Ret (300 * 4096, s1) ∧
    pmm_free_block (300 * 4096) s1 = Ret (tt, s2) ∧ pmm_inv s2 ∧
    free_blocks s2 = free_blocks pmm_demo ∧
    (∀ c, 0 ≤ c → used s2 c = used pmm_demo c) ∧ total_memory_kb s2 = total_memory_kb pmm_demo.
Proof.
  eexists. destruct (alloc_free_roundtrip pmm_demo
    (set_last 301 (set_free 0 (set_bitmap (<[37 := 255]> (<[37 := 239]> (λ _, 255))) pmm_demo)))
    (300 * 4096)) as (s2 & H); [apply pmm_demo_ready | apply pmm_demo_ready | vm_compute; reflexivity | done |].
  exists s2. split; [vm_compute; reflexivity|]. exact H.
Defined.

(** Allocating on a 16 GiB machine runs off the bitmap.  When the last
    tracked block was the last one handed out, the mark is [NBLOCKS]; with
    nothing free the second pass then reads [pmm_bitmap[PMM_BITMAP_SIZE]],
    one byte past the array, instead of answering 0. *)
Theorem alloc_overruns_bitmap (s : pmm) :
  pmm_inv s → last_free_bit s = NBLOCKS → none_free s 256 256 NBLOCKS →
  pmm_alloc_block s = Undef.
Proof.
  intros Hinv Hl Hn. unfold pmm_alloc_block, mbind at 1, comp_bind at 1, gets.
  rewrite Hl. assert (E : NBLOCKS / 8 = PMM_BITMAP_SIZE) by reflexivity. rewrite E.
  rewrite (for_range_empty PMM_BITMAP_SIZE) by lia. unfold mbind at 1, comp_bind at 1, mret, comp_ret.
  unfold mbind, comp_bind. rewrite (for_range_split _ PMM_BITMAP_SIZE) by (unfold PMM_BITMAP_SIZE; dlia).
  pose proof (alloc_pass_spec s 256 (256 / 8) PMM_BITMAP_SIZE Hinv) as HW. unfold wp in HW.
  unfold mbind, comp_bind. destruct (for_range (256 / 8) _ _ s) as [[[a|] s1]| |] eqn:Ef;
    try (exfalso; apply HW; unfold PMM_BITMAP_SIZE; dlia).
  - destruct HW as (b & _ & (Hb & Hge & Hf & _) & _); [unfold PMM_BITMAP_SIZE; dlia|lia|].
    rewrite Hn in Hf; [done | unfold NBLOCKS; lia | lia].
  - destruct HW as (-> & _); [unfold PMM_BITMAP_SIZE; dlia|lia|].
    rewrite for_range_step by lia. unfold mbind, comp_bind, alloc_byte at 1.
    unfold mbind, comp_bind. by rewrite bitmap_get_oob by lia.
Qed.

Lemma alloc_overruns_bitmap_witness : pmm_alloc_block (pmm_full NBLOCKS) = Undef.
Proof.
  apply (alloc_overruns_bitmap (pmm_full NBLOCKS)); [apply pmm_full_inv | reflexivity |].
  intros c Hc _. apply pmm_full_used. lia.
Defined.

(** C5. Boot protects memory.  Whatever the Multiboot information, when
    [pmm_init] returns the free counter is the number of clear bits and is
    within the detected total, and block 0, the kernel image, the initrd
    module and the ramdisk (when loaded) are all marked used. *)
Theorem boot_memory_protected {X : Type}
    (screen_init_fb : Z → Z → Z → Z → Z → X → X) (acpi_init : Z → comp X unit)
    (mem : memory) (kernel_start kernel_end magic mbd : Z) (x x' : X) (s : pmm) :
  pmm_init screen_init_fb acpi_init mem kernel_start kernel_end magic mbd (pmm_boot, x) = Ret (tt, (s, x')) →
  pmm_inv s ∧ last_free_bit s = 256 ∧ boot_protected kernel_start kernel_end s ∧
  free_blocks s ≤ total_memory_kb s / 4.
Proof.
  intros Hrun.
  exact (wlp_run _ _ _ _ _ (pmm_init_ok screen_init_fb acpi_init mem kernel_start kernel_end
    magic mbd (pmm_boot, x) eq_refl) Hrun).
Qed.

(** A boot with no Multiboot information: everything stays reserved. *)
Definition no_fb (_ _ _ _ _ : Z) (x : unit) : unit := x.
Definition no_acpi (_ : Z) : comp unit unit := mret tt.

Lemma boot_memory_protected_witness :
  ∃ s, pmm_init no_fb no_acpi (λ _, 0) 1048576 2097152 0 0 (pmm_boot, tt) = Ret (tt, (s, tt)) ∧
    pmm_inv s ∧ last_free_bit s = 256 ∧ boot_protected 1048576 2097152 s ∧
    free_blocks s ≤ total_memory_kb s / 4.
Proof.
  assert (Hrun : wp (pmm_init no_fb no_acpi (λ _, 0) 1048576 2097152 0 0) (λ _ _, True) (pmm_boot, tt)).
  { unfold pmm_init. apply wp_bind, wp_zoom.
    eapply wp_mono; [by apply reserve_all_spec|]. intros [] s1 (Hi & _ & Hb & Hr).
    wp_steps. apply wp_zoom, wp_modify. wp_steps. cbn [Z.eqb]. wp_steps. apply wp_zoom. wp_steps.
    apply wp_zoom. unfold pmm_protect. apply wp_bind.
    eapply (wp_for_each (λ _ t, pmm_inv t ∧ initrd_brain_loaded t = 0 ∧ ramdisk_loaded t = 0)).
    - vm_compute. discriminate.
    - split; [by apply pmm_inv_total | by split].
    - intros i t Hi' (Hti & Htb & Htr).
      change (256 ≤ i < 513) in Hi'.
      assert (0 ≤ i < NBLOCKS) by (unfold NBLOCKS, PMM_BITMAP_SIZE; lia).
      eapply wp_mono; [by apply pmm_set_bit_spec|]. intros [] t' (Hi2 & Hr2 & _).
      unfold pmm_rest in Hr2. split; [done|]. split; congruence.
    - intros t (Hti & Htb & Htr). apply wp_bind.
      eapply wp_mono; [apply pmm_set_bit_spec; [done|unfold NBLOCKS, PMM_BITMAP_SIZE; lia]|].
      intros [] t' (_ & Hr2 & _). unfold pmm_rest in Hr2.
      assert (initrd_brain_loaded t' = 0) as E1 by congruence.
      assert (ramdisk_loaded t' = 0) as E2 by congruence.
      wp_steps. rewrite E1. simpl. wp_steps. by rewrite E2. }
  destruct (proj1 (wp_run _ _ _) Hrun) as ([] & [s []] & E & _).
  exists s. split; [exact E|].
  exact (boot_memory_protected no_fb no_acpi (λ _, 0) 1048576 2097152 0 0 tt tt s E).
Defined.
