(* ===== verification/Vmm.v ===== *)
(** * Vmm: 4-level page tables (src/mm/vmm.c, include/vmm.h)

    Page tables live in physical memory, which the code dereferences through
    the identity mapping: [vm_mem] gives the 64-bit word at each 8-aligned
    address.  Frames for new tables come from any [FrameAlloc]. *)

From Stdlib Require Import ZArith Lia String.
From stdpp Require Import base numbers list option functions strings.
From S2P Require Import Prelude Interfaces Pmm.
Open Scope Z_scope.

Definition VMM_PRESENT : Z := 0x1.
Definition VMM_WRITABLE : Z := 0x2.
Definition VMM_USER : Z := 0x4.

Record vmm (F : Type) := MkVmm {
  vm_mem : Z → Z;          (* page-table words *)
  vm_frames : F;           (* the frame allocator *)
  vm_invlpg : list Z;      (* addresses invalidated, latest first *)
  vm_cr3 : Z
}.
Arguments MkVmm {F}.
Arguments vm_mem {F}.
Arguments vm_frames {F}.
Arguments vm_invlpg {F}.
Arguments vm_cr3 {F}.

Section vmm.
Context {F : Type} `{FrameAlloc F}.
(** Address of [pml4_table], reserved in loader.s. *)
Context (pml4_table : Z).

Definition ldw (a : Z) : comp (vmm F) Z := gets (λ s, vm_mem s a).
Definition stw (a v : Z) : comp (vmm F) unit :=
  modify (λ s, MkVmm (<[a := v]> (vm_mem s)) (vm_frames s) (vm_invlpg s) (vm_cr3 s)).
Definition alloc_frame : comp (vmm F) Z :=
  zoom vm_frames (λ f s, MkVmm (vm_mem s) f (vm_invlpg s) (vm_cr3 s)) frame_alloc.
Definition invlpg (va : Z) : comp (vmm F) unit :=
  modify (λ s, MkVmm (vm_mem s) (vm_frames s) (va :: vm_invlpg s) (vm_cr3 s)).
Definition vmm_load_pml4 (a : Z) : comp (vmm F) unit :=
  modify (λ s, MkVmm (vm_mem s) (vm_frames s) (vm_invlpg s) a).

(** The pointer held by an entry: [entry & ~0xFFFULL]. *)
Definition entry_ptr (e : Z) : Z := Z.land e (u64 (Z.lnot 0xFFF)).
Definition pml4_idx (va : Z) : Z := Z.land (Z.shiftr va 39) 0x1FF.
Definition pdpt_idx (va : Z) : Z := Z.land (Z.shiftr va 30) 0x1FF.
Definition pd_idx (va : Z) : Z := Z.land (Z.shiftr va 21) 0x1FF.
Definition pt_idx (va : Z) : Z := Z.land (Z.shiftr va 12) 0x1FF.

(** Fill the entry at address [ea] with a fresh zeroed table; [false] when
    no frame is left. *)
Definition new_table (ea : Z) : comp (vmm F) bool :=
  new ← alloc_frame;
  if new =? 0 then mret false
  else
    for_each 0 512 (λ i, stw (new + 8 * i) 0);;
    stw ea (Z.lor new (Z.lor VMM_PRESENT VMM_WRITABLE));;
    mret true.

(** The upper two levels: allocate the next table when the entry at [ea] is
    not present, then follow it; [None] is the early [return]. *)
Definition next_table (ea : Z) : comp (vmm F) (option Z) :=
  e ← ldw ea;
  ok ← (if Z.land e VMM_PRESENT =? 0 then new_table ea else mret true);
  if ok : bool then e ← ldw ea; mret (Some (entry_ptr e)) else mret None.

Definition vmm_map_page (virtual_addr physical_addr : Z) : comp (vmm F) unit :=
  r ← next_table (pml4_table + 8 * pml4_idx virtual_addr);
  match r with
  | None => mret tt
  | Some pdpt =>
    r ← next_table (pdpt + 8 * pdpt_idx virtual_addr);
    match r with
    | None => mret tt
    | Some pd =>
      let ea := pd + 8 * pd_idx virtual_addr in
      e ← ldw ea;
      if negb (Z.land e VMM_PRESENT =? 0) && negb (Z.land e 0x80 =? 0) then mret tt
      else
        ok ← (if Z.land e VMM_PRESENT =? 0 then new_table ea else mret true);
        if ok : bool then
          e ← ldw ea;
          stw (entry_ptr e + 8 * pt_idx virtual_addr)
            (Z.lor (entry_ptr physical_addr) (Z.lor VMM_PRESENT VMM_WRITABLE));;
          invlpg virtual_addr
        else mret tt
    end
  end.

(** Map [start .. start + size) to itself, page by page. *)
Definition map_identity (start size : Z) : comp (vmm F) unit :=
  loop (λ offset,
    if offset <? size then
      let addr := u64 (start + offset) in
      vmm_map_page addr addr;;
      mret (inl (u64 (offset + 4096)))
    else mret (inr tt)) 0.

Definition vmm_init (fb_ptr fb_height fb_pitch ramdisk_loaded ramdisk_start ramdisk_size : Z)
    : comp (vmm F) unit :=
  (if negb (fb_ptr =? 0) then
     let fb_size := u64 (fb_height * fb_pitch) in
     map_identity fb_ptr (Z.land (u64 (fb_size + 4095)) (u64 (Z.lnot 4095)))
   else mret tt);;
  (if negb (ramdisk_loaded =? 0) && negb (ramdisk_start =? 0) then
     map_identity ramdisk_start (Z.land (u64 (ramdisk_size + 4095)) (u64 (Z.lnot 4095)))
   else mret tt);;
  map_identity 0 (16 * 1024 * 1024);;
  vmm_load_pml4 pml4_table.
End vmm.

(** The page-fault panic: what is printed before the reboot. *)
Definition page_fault_handler {S} `{Console S} (sys_reboot : comp S unit)
    (error_code faulting_addr : Z) : comp S unit :=
  print_string (NL +:+ NL +:+ NL);;
  print_string ("!!!!!!!!!!!!!!!!!!!!!!!!!!!!!!!!!!!!!!!!!!!!!!!!!" +:+ NL);;
  print_string ("          KERNEL PANIC: PAGE FAULT               " +:+ NL);;
  print_string ("!!!!!!!!!!!!!!!!!!!!!!!!!!!!!!!!!!!!!!!!!!!!!!!!!" +:+ NL +:+ NL);;
  print_string "Faulting Address: ";;
  kprint_hex (Z.shiftr faulting_addr 32);;
  kprint_hex faulting_addr;;
  print_string NL;;
  print_string "Error Code: ";;
  kprint_hex error_code;;
  print_string " (";;
  (if Z.land error_code 0x1 =? 0 then print_string "not-present " else mret tt);;
  (if negb (Z.land error_code 0x2 =? 0) then print_string "read-only " else mret tt);;
  (if negb (Z.land error_code 0x4 =? 0) then print_string "user-mode " else mret tt);;
  (if negb (Z.land error_code 0x8 =? 0) then print_string "reserved " else mret tt);;
  (if negb (Z.land error_code 0x10 =? 0) then print_string "instruction-fetch " else mret tt);;
  print_string (")" +:+ NL +:+ NL);;
  print_string ("The system will automatically reboot in 5 seconds..." +:+ NL);;
  for_each 0 5 (λ k,
    print_string "Rebooting in ";;
    kprint_dec (5 - k);;
    print_string ("... " +:+ NL));;
  print_string ("Rebooting now!" +:+ NL);;
  sys_reboot.

(** ** The address space as the MMU walks it *)

Lemma idx_range va k : 0 ≤ k → 0 ≤ Z.land (Z.shiftr va k) 0x1FF < 512.
Proof.
  intros Hk. change 0x1FF with (Z.ones 9). rewrite Z.land_ones by lia.
  apply Z.mod_pos_bound. lia.
Qed.

Lemma idx_div va k : 0 ≤ k → Z.land (Z.shiftr va k) 0x1FF = (va / 2 ^ k) mod 512.
Proof.
  intros Hk. change 0x1FF with (Z.ones 9). by rewrite Z.land_ones, Z.shiftr_div_pow2 by lia.
Qed.

(** Entry flags: bit 0 present, bit 7 page size (a leaf above the last level). *)
Definition present (e : Z) : bool := Z.testbit e 0.
Definition huge (e : Z) : bool := Z.testbit e 7.

Lemma present_land e : (Z.land e VMM_PRESENT =? 0) = negb (present e).
Proof. change VMM_PRESENT with (Z.shiftl 1 0). by rewrite land_bit. Qed.
Lemma huge_land e : (Z.land e 0x80 =? 0) = negb (huge e).
Proof. change 0x80 with (Z.shiftl 1 7). by rewrite land_bit. Qed.

(** Frame addresses survive the encoding into an entry. *)
Lemma entry_ptr_spec e : 0 ≤ e < 2 ^ 64 → entry_ptr e = e - e mod 4096.
Proof.
  intros He. unfold entry_ptr, u64. change 0xFFF with (Z.ones 12).
  assert (E : Z.land e (Z.lnot (Z.ones 12) mod 2 ^ 64) = Z.ldiff e (Z.ones 12)).
  { apply Z.bits_inj_iff'. intros n Hn. rewrite Z.land_spec, Z.ldiff_spec, testbit_mod, Z.lnot_spec by lia.
    destruct (Z.ltb_spec n 64); simpl; [done|]. rewrite andb_false_r.
    destruct (decide (e = 0)) as [->|]; [by rewrite Z.bits_0|].
    rewrite Z.bits_above_log2; [done|lia|]. apply Z.log2_lt_pow2; [lia|].
    apply Z.lt_le_trans with (2 ^ 64); [lia|]. apply Z.pow_le_mono_r; lia. }
  rewrite E, Z.ldiff_ones_r, Z.shiftr_div_pow2, Z.shiftl_mul_pow2 by lia.
  change (2 ^ 12) with 4096. dlia.
Qed.

Lemma lor_flags a : a mod 4096 = 0 → Z.lor a 3 = a + 3.
Proof.
  intros Ha. rewrite Z.add_nocarry_lxor; [symmetry; apply Z.lxor_lor|]; apply Z.bits_inj_0; intros n;
    rewrite Z.land_spec.
  all: destruct (decide (n < 0)) as [|Hn]; [by rewrite Z.testbit_neg_r by lia|].
  all: destruct (decide (n < 12)) as [Hl|Hl].
  all: try (rewrite <-(Z.mod_pow2_bits_low a 12) by lia; change (2 ^ 12) with 4096;
            by rewrite Ha, Z.bits_0).
  all: rewrite (Z.bits_above_log2 3); [apply andb_false_r | lia | change (Z.log2 3) with 1; lia].
Qed.

Lemma entry_flags a :
  a mod 4096 = 0 → 0 ≤ a < 2 ^ 64 →
  let e := Z.lor a (Z.lor VMM_PRESENT VMM_WRITABLE) in
  entry_ptr e = a ∧ present e = true ∧ huge e = false.
Proof.
  intros Ha Hr. change (Z.lor VMM_PRESENT VMM_WRITABLE) with 3. cbn zeta.
  assert (Hb : ∀ n, 0 ≤ n < 12 → Z.testbit a n = false).
  { intros n Hn. rewrite <-(Z.mod_pow2_bits_low a 12) by lia. change (2 ^ 12) with 4096.
    by rewrite Ha, Z.bits_0. }
  split; [|split; unfold present, huge; rewrite Z.lor_spec, Hb by lia; done].
  rewrite lor_flags, entry_ptr_spec by (done || dlia). dlia.
Qed.

(** Base address of the table reached from the table at [base] by following
    the entries [path]; stops at absent entries and at large pages. *)
Fixpoint reach (m : Z → Z) (base : Z) (path : list Z) : option Z :=
  match path with
  | [] => Some base
  | i :: p =>
      let e := m (base + 8 * i) in
      if present e && negb (huge e) then reach m (entry_ptr e) p else None
  end.

Lemma reach_app m base p q :
  reach m base (p ++ q) =
  match reach m base p with Some b => reach m b q | None => None end.
Proof.
  revert base. induction p as [|i p IH]; intros base; simpl; [done|].
  destruct (present _ && negb _); [apply IH|done].
Qed.

(** Where the MMU sends [va]: through a 4 KiB page, or through a 2 MiB one. *)
Definition translate (m : Z → Z) (pml4 va : Z) : option Z :=
  match reach m pml4 [pml4_idx va; pdpt_idx va; pd_idx va] with
  | Some pt =>
      let e := m (pt + 8 * pt_idx va) in
      if present e then Some (entry_ptr e + va mod 4096) else None
  | None =>
      match reach m pml4 [pml4_idx va; pdpt_idx va] with
      | Some pd =>
          let e := m (pd + 8 * pd_idx va) in
          if present e && huge e
          then Some (Z.shiftl (Z.shiftr (entry_ptr e) 21) 21 + va mod 2 ^ 21) else None
      | None => None
      end
  end.

(** Two memories that agree on the entries along [q] reach the same table. *)
Lemma reach_agree m m' base q :
  (∀ pre i b, (pre ++ [i]) `prefix_of` q → reach m base pre = Some b →
     m' (b + 8 * i) = m (b + 8 * i)) →
  reach m' base q = reach m base q.
Proof.
  induction q as [|i q IH] using rev_ind; intros Hag; [done|].
  assert (IH' : reach m' base q = reach m base q).
  { apply IH. intros pre j b Hpre. apply Hag. by apply prefix_app_r. }
  rewrite !reach_app, IH'. destruct (reach m base q) as [b|] eqn:E; [|done].
  simpl. by rewrite (Hag q i b).
Qed.

Section facts.
Context {F : Type} `{FrameAlloc F}.
Context (pml4 : Z).
Implicit Types (s : vmm F) (p q : list Z).

Definition path_ok p : Prop := (length p ≤ 3)%nat ∧ Forall (λ i, 0 ≤ i < 512) p.
Definition table s p : option Z := reach (vm_mem s) pml4 p.

(** The tables form a tree: no table is reached along two paths, each is a
    frame the allocator does not own, and only page-directory entries are
    large pages. *)
Record vmm_wf s : Prop := VmmWf {
  wf_frames : frames_ok (vm_frames s);
  wf_inj p q a : path_ok p → path_ok q → table s p = Some a → table s q = Some a → p = q;
  wf_addr p a : path_ok p → table s p = Some a →
    a mod 4096 = 0 ∧ 0 < a < 2 ^ 51 ∧ ¬ frame_free (vm_frames s) a;
  wf_upper p a i : path_ok p → (length p ≤ 1)%nat → 0 ≤ i < 512 → table s p = Some a →
    present (vm_mem s (a + 8 * i)) = true → huge (vm_mem s (a + 8 * i)) = false
}.

Lemma path_ok_app p q : path_ok (p ++ q) → path_ok p.
Proof. intros [Hl Hf]. rewrite length_app in Hl. apply Forall_app in Hf as [? _]. split; [lia|done]. Qed.
Lemma path_ok_prefix p q : p `prefix_of` q → path_ok q → path_ok p.
Proof. intros [r ->]. apply path_ok_app. Qed.
Lemma path_ok_snoc p i : path_ok (p ++ [i]) → path_ok p ∧ 0 ≤ i < 512 ∧ (length p ≤ 2)%nat.
Proof.
  intros Hp. split; [by eapply path_ok_app|]. destruct Hp as [Hl Hf].
  rewrite length_app in Hl. simpl in Hl. split; [|lia].
  apply Forall_app in Hf as [_ Hf]. by inversion Hf.
Qed.
Lemma path_ok_add p i : path_ok p → (length p ≤ 2)%nat → 0 ≤ i < 512 → path_ok (p ++ [i]).
Proof. intros [Hl Hf] Hl2 Hi. split; [rewrite length_app; simpl; lia|]. apply Forall_app. auto. Qed.

(** Two entries of page-aligned tables coincide only if tables and indices do. *)
Lemma entry_inj a b i j :
  a mod 4096 = 0 → b mod 4096 = 0 → 0 ≤ i < 512 → 0 ≤ j < 512 →
  a + 8 * i = b + 8 * j → a = b ∧ i = j.
Proof. intros. dlia. Qed.

(** The effect of hanging the fresh frame [a] under entry [i] of the table
    at [base]. *)
Definition grown s (base i a : Z) s' : Prop :=
  (∀ k, 0 ≤ k < 512 → vm_mem s' (a + 8 * k) = 0) ∧
  vm_mem s' (base + 8 * i) = Z.lor a (Z.lor VMM_PRESENT VMM_WRITABLE) ∧
  (∀ x, x ≠ base + 8 * i → (∀ k, 0 ≤ k < 512 → x ≠ a + 8 * k) → vm_mem s' x = vm_mem s x) ∧
  frame_free (vm_frames s) a ∧ frames_ok (vm_frames s') ∧ ¬ frame_free (vm_frames s') a ∧
  (∀ b, frame_free (vm_frames s') b → frame_free (vm_frames s) b) ∧
  vm_invlpg s' = vm_invlpg s.

Section grow.
Context s s' (path : list Z) (base i a : Z).
Context (Hwf : vmm_wf s) (Hpath : path_ok (path ++ [i])).
Context (Hbase : table s path = Some base).
Context (Habsent : present (vm_mem s (base + 8 * i)) = false).
Context (Hgrown : grown s base i a s').

Lemma grow_frame : a mod 4096 = 0 ∧ 0 < a < 2 ^ 51.
Proof using All. destruct Hgrown as (_ & _ & _ & Hf & _). by apply (frame_addr (vm_frames s)); [apply Hwf|]. Qed.

Lemma grow_not_table p b : path_ok p → table s p = Some b → b ≠ a.
Proof using All.
  intros Hp Hb ->. destruct Hgrown as (_ & _ & _ & Hf & _).
  by destruct (wf_addr s Hwf p a Hp Hb) as (_ & _ & []).
Qed.

(** Entries of the old tables, but for the one that was filled. *)
Lemma grow_entry p b j :
  path_ok p → 0 ≤ j < 512 → table s p = Some b → p ++ [j] ≠ path ++ [i] →
  vm_mem s' (b + 8 * j) = vm_mem s (b + 8 * j).
Proof using All.
  intros Hp Hj Hb Hne. destruct (path_ok_snoc _ _ Hpath) as (Hpp & Hi & _).
  destruct (wf_addr s Hwf p b Hp Hb) as (Hal & _).
  destruct (wf_addr s Hwf path base Hpp Hbase) as (Hal' & _).
  destruct grow_frame as [Hala _].
  destruct Hgrown as (_ & _ & Hother & _). apply Hother.
  - intros E. destruct (entry_inj b base j i) as [-> ->]; try done.
    apply Hne. f_equal. by apply (wf_inj s Hwf p path base).
  - intros k Hk E. destruct (entry_inj b a j k) as [-> _]; try done.
    by apply (grow_not_table p a).
Qed.

Lemma grow_reach_other q :
  path_ok q → ¬ (path ++ [i]) `prefix_of` q → table s' q = table s q.
Proof using All.
  intros Hq Hn. apply reach_agree. intros pre j b Hpre Hb.
  destruct (path_ok_snoc pre j) as (Hp & Hj & _); [by eapply path_ok_prefix|].
  apply (grow_entry pre); try done. intros E. apply Hn. by rewrite <-E.
Qed.

Lemma grow_reach_none q : table s ((path ++ [i]) ++ q) = None.
Proof using All.
  unfold table. rewrite <-app_assoc, reach_app. unfold table in Hbase. rewrite Hbase. simpl.
  by rewrite Habsent.
Qed.

Lemma path_not_below : ¬ (path ++ [i]) `prefix_of` path.
Proof using Type. intros Hpre%prefix_length. rewrite length_app in Hpre. simpl in Hpre. lia. Qed.

Lemma grow_reach_base : table s' path = Some base.
Proof using All.
  rewrite grow_reach_other; [done| |apply path_not_below].
  by destruct (path_ok_snoc _ _ Hpath).
Qed.

Lemma grow_reach_new q :
  table s' ((path ++ [i]) ++ q) = reach (vm_mem s') a q.
Proof using All.
  unfold table. rewrite <-app_assoc, reach_app.
  pose proof grow_reach_base as E. unfold table in E. rewrite E. simpl.
  destruct grow_frame as [Hal Hr]. destruct Hgrown as (_ & -> & _).
  destruct (entry_flags a) as (-> & -> & ->); [done|lia|done].
Qed.

Lemma grow_reach_below q j : path_ok ((path ++ [i]) ++ j :: q) → table s' ((path ++ [i]) ++ j :: q) = None.
Proof using All.
  intros Hok. rewrite grow_reach_new. simpl. destruct Hgrown as (Hz & _).
  rewrite Hz; [done|]. destruct Hok as [_ Hok]. apply Forall_app in Hok as [_ Hok]. by inversion Hok.
Qed.

(** The tables after growth are the old ones and the new one. *)
Lemma grow_table q b :
  path_ok q → table s' q = Some b ↔ (q = path ++ [i] ∧ b = a) ∨ table s q = Some b.
Proof using All.
  intros Hq. destruct (decide ((path ++ [i]) `prefix_of` q)) as [[r ->]|Hn].
  - rewrite grow_reach_none. destruct r as [|j r].
    + rewrite grow_reach_new. simpl. rewrite app_nil_r. split.
      * intros [= <-]. by left.
      * by intros [[_ ->]|].
    + rewrite (grow_reach_below r j) by done. split; [done|].
      intros [[E _]|]; [|done]. apply (f_equal length) in E.
      rewrite !length_app in E. simpl in E. lia.
  - rewrite grow_reach_other by done. split; [by right|].
    intros [[-> _]|]; [|done]. by destruct Hn.
Qed.

Lemma grow_new : table s' (path ++ [i]) = Some a.
Proof using All. apply grow_table; [done|]. by left. Qed.

Lemma grow_mono q b : path_ok q → table s q = Some b → table s' q = Some b.
Proof using All. intros Hq Hb. apply grow_table; auto. Qed.

Lemma grow_wf : vmm_wf s'.
Proof using All.
  pose proof Hgrown as (Hz & _ & _ & Hfa & Hok & Hnf & Hmono & _). constructor; [done| | |].
  - intros p q b Hp Hq Hpb Hqb.
    apply grow_table in Hpb as [[-> ->]|Hpb], Hqb as [[-> E]|Hqb]; try done.
    + by destruct (grow_not_table q a).
    + subst b. by destruct (grow_not_table p a).
    + by apply (wf_inj s Hwf p q b).
  - intros p b Hp Hb. apply grow_table in Hb as [[-> ->]|Hb]; [| |done].
    + split; [apply grow_frame|]. split; [apply grow_frame|done].
    + destruct (wf_addr s Hwf p b Hp Hb) as (? & ? & Hnfr). repeat split; try done; try lia. auto.
  - intros p b j Hp Hlen Hj Hb Hpres. apply grow_table in Hb as [[-> ->]|Hb]; [| |done].
    + rewrite Hz in Hpres by done. done.
    + destruct (decide (p ++ [j] = path ++ [i])) as [E|Hne].
      * apply app_inj_tail in E as [-> ->].
        assert (b = base) as -> by (unfold table in *; congruence).
        destruct Hgrown as (_ & -> & _). destruct grow_frame. by apply entry_flags; [|lia].
      * rewrite (grow_entry p) in Hpres |- * by done. by apply (wf_upper s Hwf p b j).
Qed.

Lemma grow_translate va : translate (vm_mem s') pml4 va = translate (vm_mem s) pml4 va.
Proof using All.
  pose proof (idx_range va 39 ltac:(lia)) as H4. pose proof (idx_range va 30 ltac:(lia)) as H3.
  pose proof (idx_range va 21 ltac:(lia)) as H2. pose proof (idx_range va 12 ltac:(lia)) as H1.
  fold (pml4_idx va) in H4. fold (pdpt_idx va) in H3. fold (pd_idx va) in H2. fold (pt_idx va) in H1.
  pose proof Hgrown as (Hz & _).
  assert (P2 : path_ok [pml4_idx va; pdpt_idx va]) by (split; [simpl; lia | auto]).
  assert (P3 : path_ok [pml4_idx va; pdpt_idx va; pd_idx va]) by (split; [simpl; lia | auto]).
  unfold translate. fold (table s' [pml4_idx va; pdpt_idx va; pd_idx va]).
  fold (table s' [pml4_idx va; pdpt_idx va]). fold (table s [pml4_idx va; pdpt_idx va]).
  fold (table s [pml4_idx va; pdpt_idx va; pd_idx va]).
  pose proof (grow_table _ (default 0 (table s' [pml4_idx va; pdpt_idx va; pd_idx va])) P3) as T3.
  pose proof (grow_table _ (default 0 (table s' [pml4_idx va; pdpt_idx va])) P2) as T2.
  destruct (table s' [pml4_idx va; pdpt_idx va; pd_idx va]) as [pt|] eqn:E3; simpl in T3.
  - destruct (proj1 T3 eq_refl) as [[Ep ->]|Eold].
    + (* the last table is the new one: its entries are absent *)
      rewrite Hz by done.
      pose proof (app_inj_tail [pml4_idx va; pdpt_idx va] path (pd_idx va) i Ep) as [E Ei].
      pose proof (grow_reach_none []) as En. rewrite app_nil_r in En. rewrite <-Ep in En.
      rewrite En, E, Hbase, Ei, Habsent. done.
    + rewrite Eold. rewrite (grow_entry _ pt (pt_idx va) P3 H1 Eold); [done|].
      intros E%(f_equal length). destruct Hpath as [Hl _]. rewrite <-E in Hl. simpl in Hl. lia.
  - destruct (table s [pml4_idx va; pdpt_idx va; pd_idx va]) as [pt|] eqn:O3.
    { rewrite (grow_mono _ pt P3 O3) in E3. done. }
    destruct (table s' [pml4_idx va; pdpt_idx va]) as [pd|] eqn:E2; simpl in T2.
    + destruct (proj1 T2 eq_refl) as [[Ep ->]|Eold].
      * rewrite Hz by done. pose proof (grow_reach_none []) as En. rewrite app_nil_r in En.
        by rewrite Ep, En.
      * rewrite Eold. rewrite (grow_entry _ pd (pd_idx va) P2 H2 Eold); [done|].
        intros E. change ([pml4_idx va; pdpt_idx va] ++ [pd_idx va])
          with [pml4_idx va; pdpt_idx va; pd_idx va] in E.
        pose proof grow_new as En. rewrite <-E in En. congruence.
    + destruct (table s [pml4_idx va; pdpt_idx va]) as [pd|] eqn:O2; [|done].
      rewrite (grow_mono _ pd P2 O2) in E2. done.
Qed.
End grow.

(** Nothing that the MMU sees changed: no mapping moved, the tables that
    existed still do. *)
Definition same_space s s' : Prop :=
  vmm_wf s' ∧ (∀ va, translate (vm_mem s') pml4 va = translate (vm_mem s) pml4 va) ∧
  (∀ p b, path_ok p → table s p = Some b → table s' p = Some b) ∧
  (∀ b, frame_free (vm_frames s') b → frame_free (vm_frames s) b) ∧
  vm_invlpg s' = vm_invlpg s.

Lemma same_space_refl s : vmm_wf s → same_space s s.
Proof. intros Hwf. split; [done|]. split; [done|]. split; [auto|]. done. Qed.

Lemma same_space_trans s1 s2 s3 : same_space s1 s2 → same_space s2 s3 → same_space s1 s3.
Proof.
  intros (_ & Ht & Hm & Hf & Hi) (Hw & Ht' & Hm' & Hf' & Hi').
  split; [done|]. split; [|split; [|split; [|congruence]]]; [|auto..].
  intros va. by rewrite Ht', Ht.
Qed.

(** The allocator has nothing left, and will not have later. *)
Definition no_frame s : Prop := ∀ a, ¬ frame_free (vm_frames s) a.

Lemma zero_table_spec a s :
  wp (for_each 0 512 (λ i, stw (a + 8 * i) 0))
    (λ _ s', (∀ k, 0 ≤ k < 512 → vm_mem s' (a + 8 * k) = 0) ∧
             (∀ x, (∀ k, 0 ≤ k < 512 → x ≠ a + 8 * k) → vm_mem s' x = vm_mem s x) ∧
             vm_frames s' = vm_frames s ∧ vm_invlpg s' = vm_invlpg s) s.
Proof.
  apply (wp_for_each (λ i t, (∀ k, 0 ≤ k < i → vm_mem t (a + 8 * k) = 0) ∧
    (∀ x, (∀ k, 0 ≤ k < 512 → x ≠ a + 8 * k) → vm_mem t x = vm_mem s x) ∧
    vm_frames t = vm_frames s ∧ vm_invlpg t = vm_invlpg s)); [lia| | |].
  - split; [intros; lia | done].
  - intros i t Hi (Hz & Ho & Hf & Hv). apply wp_modify. simpl. split; [|split; [|done]].
    + intros k Hk. destruct (decide (k = i)) as [->|]; [by rewrite fn_lookup_insert|].
      rewrite fn_lookup_insert_ne by lia. apply Hz. lia.
    + intros x Hx. rewrite fn_lookup_insert_ne; [by apply Ho|]. intros E. by apply (Hx i).
  - done.
Qed.

Lemma new_table_spec s path base i :
  vmm_wf s → path_ok (path ++ [i]) → table s path = Some base →
  present (vm_mem s (base + 8 * i)) = false →
  wp (new_table (base + 8 * i)) (λ ok s', same_space s s' ∧
    if ok : bool then ∃ a, table s' (path ++ [i]) = Some a ∧ entry_ptr (vm_mem s' (base + 8 * i)) = a
    else no_frame s') s.
Proof.
  intros Hwf Hpath Hbase Habs. unfold new_table. apply wp_bind, wp_zoom.
  destruct (proj1 (wp_run _ _ _) (frame_alloc_ok (vm_frames s) (wf_frames s Hwf)))
    as (a & f' & Ef & Hok & Hres).
  unfold wp at 1. rewrite Ef. destruct Hres as [(-> & -> & Hnone) | (Hfree & Hnfree & Hothers)].
  { simpl. apply wp_ret. destruct s. split; [by apply same_space_refl|done]. }
  destruct (frame_addr _ _ (wf_frames s Hwf) Hfree) as [Hal Hr].
  destruct (Z.eqb_spec a 0) as [->|_]; [lia|].
  apply wp_bind. eapply wp_mono; [apply zero_table_spec|].
  intros [] s1 (Hz & Ho & Hf1 & Hv1). simpl in Ho, Hf1, Hv1.
  apply wp_bind, wp_modify, wp_ret. set (s2 := MkVmm _ _ _ _).
  destruct (path_ok_snoc _ _ Hpath) as (Hpp & Hi & _).
  destruct (wf_addr s Hwf path base Hpp Hbase) as (Halb & _ & Hnf).
  assert (Hg : grown s base i a s2).
  { split; [|split; [|split; [|split; [|split; [|split; [|split]]]]]]; simpl.
    - intros k Hk. rewrite fn_lookup_insert_ne; [by apply Hz|]. intros E.
      destruct (entry_inj base a i k) as [-> _]; try done.
    - by rewrite fn_lookup_insert.
    - intros x Hx Hxa. rewrite fn_lookup_insert_ne by done. by apply Ho.
    - done.
    - by rewrite Hf1.
    - by rewrite Hf1.
    - rewrite Hf1. intros b Hb. apply Hothers; [|done]. by intros ->.
    - done. }
  split; [split; [|split; [|split; [|split]]]|].
  - by eapply grow_wf.
  - by eapply grow_translate.
  - intros p b Hp Hb. by eapply grow_mono.
  - by apply Hg.
  - done.
  - exists a. split; [by eapply grow_new|]. destruct Hg as (_ & -> & _).
    by destruct (entry_flags a) as (-> & _); [|lia|].
Qed.

(** Following an entry, allocating its table when needed. *)
Lemma next_table_spec s path base i :
  vmm_wf s → path_ok (path ++ [i]) → (length path ≤ 1)%nat → table s path = Some base →
  wp (next_table (base + 8 * i)) (λ r s', same_space s s' ∧
    match r with Some a => table s' (path ++ [i]) = Some a | None => no_frame s' end) s.
Proof.
  intros Hwf Hpath Hlen Hbase. unfold next_table. apply wp_bind, wp_gets, wp_bind.
  rewrite present_land. destruct (present (vm_mem s (base + 8 * i))) eqn:Ep; simpl.
  - apply wp_ret, wp_bind, wp_gets, wp_ret. split; [by apply same_space_refl|].
    destruct (path_ok_snoc _ _ Hpath) as (Hpp & Hi & _).
    unfold table in *. rewrite reach_app, Hbase. simpl. rewrite Ep.
    by rewrite (wf_upper s Hwf path base i).
  - eapply wp_mono; [by apply new_table_spec|]. intros [] s' (Hs & Hres).
    + destruct Hres as (a & Ha & Hp). apply wp_bind, wp_gets, wp_ret. rewrite Hp. done.
    + apply wp_ret. done.
Qed.

Definition page_of (va : Z) : Z := (va / 4096) mod 2 ^ 36.

Lemma indices_page va va' :
  pml4_idx va = pml4_idx va' → pdpt_idx va = pdpt_idx va' →
  pd_idx va = pd_idx va' → pt_idx va = pt_idx va' → page_of va = page_of va'.
Proof.
  unfold pml4_idx, pdpt_idx, pd_idx, pt_idx, page_of. rewrite !idx_div by lia.
  change (2 ^ 39) with (4096 * 2 ^ 27). change (2 ^ 30) with (4096 * 2 ^ 18).
  change (2 ^ 21) with (4096 * 2 ^ 9). change (2 ^ 12) with 4096.
  rewrite <-!Z.div_div by lia. generalize (va / 4096), (va' / 4096). intros x y. dlia.
Qed.

Lemma page_indices va va' :
  page_of va = page_of va' →
  pml4_idx va = pml4_idx va' ∧ pdpt_idx va = pdpt_idx va' ∧
  pd_idx va = pd_idx va' ∧ pt_idx va = pt_idx va'.
Proof.
  unfold pml4_idx, pdpt_idx, pd_idx, pt_idx, page_of. rewrite !idx_div by lia.
  change (2 ^ 39) with (4096 * 2 ^ 27). change (2 ^ 30) with (4096 * 2 ^ 18).
  change (2 ^ 21) with (4096 * 2 ^ 9). change (2 ^ 12) with 4096.
  rewrite <-!Z.div_div by lia. generalize (va / 4096), (va' / 4096). intros x y. dlia.
Qed.

Lemma path2_ok va : path_ok [pml4_idx va; pdpt_idx va].
Proof. split; [simpl; lia|]. repeat constructor; apply idx_range; lia. Qed.
Lemma path3_ok va : path_ok [pml4_idx va; pdpt_idx va; pd_idx va].
Proof. split; [simpl; lia|]. repeat constructor; apply idx_range; lia. Qed.

(** Writing a leaf: entry [j] of a last-level table. *)
Section leaf.
Context s (path : list Z) (pt j e : Z).
Context (Hwf : vmm_wf s) (Hpath : path_ok path) (Hlen : length path = 3%nat).
Context (Hpt : table s path = Some pt) (Hj : 0 ≤ j < 512).
Let s' : vmm F :=
  MkVmm (<[pt + 8 * j := e]> (vm_mem s)) (vm_frames s) (vm_invlpg s) (vm_cr3 s).

Lemma leaf_entry p b k :
  path_ok p → 0 ≤ k < 512 → table s p = Some b → p ≠ path ∨ k ≠ j →
  vm_mem s' (b + 8 * k) = vm_mem s (b + 8 * k).
Proof using Hwf Hpath Hpt Hj.
  intros Hp Hk Hb Hne. simpl. apply fn_lookup_insert_ne. intros E.
  destruct (wf_addr s Hwf p b Hp Hb) as (Hal & _).
  destruct (wf_addr s Hwf path pt Hpath Hpt) as (Hal' & _).
  destruct (entry_inj pt b j k) as [-> ->]; try done.
  destruct Hne as [Hne|]; [|done]. apply Hne. by apply (wf_inj s Hwf p path b).
Qed.

Lemma leaf_table q : path_ok q → table s' q = table s q.
Proof using Hwf Hpath Hpt Hj Hlen.
  intros Hq. apply reach_agree. intros pre k b Hpre Hb.
  destruct (path_ok_snoc pre k) as (Hp & Hk & Hl); [by eapply path_ok_prefix|].
  apply (leaf_entry pre); try done. left. intros ->. lia.
Qed.

Lemma leaf_wf : vmm_wf s'.
Proof using Hwf Hpath Hpt Hj Hlen.
  constructor; [apply Hwf| | |].
  - intros p q a Hp Hq. rewrite !leaf_table by done. by apply (wf_inj s Hwf).
  - intros p a Hp. rewrite leaf_table by done. by apply (wf_addr s Hwf).
  - intros p a i Hp Hl Hi. rewrite leaf_table by done. intros Ha.
    rewrite (leaf_entry p) by (done || (left; intros ->; lia)). by apply (wf_upper s Hwf p).
Qed.

Lemma leaf_translate va :
  [pml4_idx va; pdpt_idx va; pd_idx va] ≠ path ∨ pt_idx va ≠ j →
  translate (vm_mem s') pml4 va = translate (vm_mem s) pml4 va.
Proof using Hwf Hpath Hpt Hj Hlen.
  intros Hne. pose proof (path2_ok va) as P2. pose proof (path3_ok va) as P3.
  pose proof (leaf_table _ P2) as E2. pose proof (leaf_table _ P3) as E3.
  unfold table in E2, E3. unfold translate. rewrite E2, E3.
  destruct (reach (vm_mem s) pml4 [pml4_idx va; pdpt_idx va; pd_idx va]) as [t|] eqn:R3.
  - rewrite (leaf_entry [pml4_idx va; pdpt_idx va; pd_idx va] t (pt_idx va)); try done.
    apply idx_range. lia.
  - destruct (reach (vm_mem s) pml4 [pml4_idx va; pdpt_idx va]) as [t|] eqn:R2; [|done].
    rewrite (leaf_entry [pml4_idx va; pdpt_idx va] t (pd_idx va)); try done.
    + apply idx_range. lia.
    + left. intros <-. simpl in Hlen. lia.
Qed.

Lemma leaf_translate_same va :
  [pml4_idx va; pdpt_idx va; pd_idx va] = path → pt_idx va = j → present e = true →
  translate (vm_mem s') pml4 va = Some (entry_ptr e + va mod 4096).
Proof using Hwf Hpath Hpt Hj Hlen.
  intros Ep Ej Hpr. pose proof (leaf_table path Hpath) as E. unfold table in E, Hpt.
  unfold translate. rewrite Ep, E, Hpt, Ej. simpl. by rewrite fn_lookup_insert, Hpr.
Qed.
End leaf.

(** [va] lies in a 2 MiB page, which [vmm_map_page] leaves alone. *)
Definition large_page s va : Prop :=
  ∃ pd, table s [pml4_idx va; pdpt_idx va] = Some pd ∧
    present (vm_mem s (pd + 8 * pd_idx va)) = true ∧ huge (vm_mem s (pd + 8 * pd_idx va)) = true.

(** What a call achieved: the page is mapped and nothing else moved, or
    nothing moved at all, for one of the two reasons the code gives up. *)
Definition mapped s va pa s' : Prop :=
  (∀ va', page_of va' = page_of va →
     translate (vm_mem s') pml4 va' = Some (pa - pa mod 4096 + va' mod 4096)) ∧
  (∀ va', page_of va' ≠ page_of va →
     translate (vm_mem s') pml4 va' = translate (vm_mem s) pml4 va') ∧
  vm_invlpg s' = va :: vm_invlpg s.
Definition unmapped s va s' : Prop :=
  (∀ va', translate (vm_mem s') pml4 va' = translate (vm_mem s) pml4 va') ∧
  vm_invlpg s' = vm_invlpg s ∧ (no_frame s' ∨ large_page s' va).

Lemma same_space_unmapped s va s' :
  same_space s s' → no_frame s' ∨ large_page s' va → vmm_wf s' ∧ unmapped s va s'.
Proof. intros (Hw & Ht & _ & _ & Hi) Hr. done. Qed.

(** The leaf entry for [pa]. *)
Lemma leaf_flags pa :
  0 ≤ pa < 2 ^ 64 →
  let e := Z.lor (entry_ptr pa) (Z.lor VMM_PRESENT VMM_WRITABLE) in
  entry_ptr e = pa - pa mod 4096 ∧ present e = true.
Proof.
  intros Hpa. rewrite (entry_ptr_spec pa) by done. cbn zeta.
  destruct (entry_flags (pa - pa mod 4096)) as (-> & -> & _); [dlia|dlia|done].
Qed.

Lemma finish_mapping s va pa pt :
  vmm_wf s → 0 ≤ pa < 2 ^ 64 → table s [pml4_idx va; pdpt_idx va; pd_idx va] = Some pt →
  wp (stw (pt + 8 * pt_idx va) (Z.lor (entry_ptr pa) (Z.lor VMM_PRESENT VMM_WRITABLE));; invlpg va)
     (λ _ s', vmm_wf s' ∧ mapped s va pa s') s.
Proof.
  intros Hwf Hpa Hpt. apply wp_bind, wp_modify, wp_modify.
  pose proof (path3_ok va) as P3. pose proof (idx_range va 12 ltac:(lia)) as Hj. fold (pt_idx va) in Hj.
  destruct (leaf_flags pa Hpa) as [Ee Epr]. cbn zeta in Ee, Epr. set (e := Z.lor _ _) in *.
  pose proof (leaf_wf s _ pt (pt_idx va) e Hwf P3 eq_refl Hpt Hj) as Hw'.
  split; [by destruct Hw'|]. split; [|split; [|done]].
  - intros va' Hpg. destruct (page_indices _ _ Hpg) as (E4 & E3 & E2 & E1).
    pose proof (leaf_translate_same s _ pt (pt_idx va) e Hwf P3 eq_refl Hpt Hj va') as Ht.
    simpl in *. rewrite Ht by congruence. by rewrite Ee.
  - intros va' Hne.
    pose proof (leaf_translate s _ pt (pt_idx va) e Hwf P3 eq_refl Hpt Hj va') as Ht.
    simpl in *. apply Ht.
    destruct (decide (pt_idx va' = pt_idx va)) as [Ej|]; [|by right]. left.
    intros [= E4 E3 E2]. by apply Hne, indices_page.
Qed.

Lemma same_space_then s s1 va pa s' :
  same_space s s1 → (mapped s1 va pa s' ∨ unmapped s1 va s') → mapped s va pa s' ∨ unmapped s va s'.
Proof.
  intros (_ & Ht & _ & _ & Hi) [(Hm & Ho & Hv) | (Ho & Hv & Hr)].
  - left. split; [done|]. split; [|congruence]. intros va' Hne. by rewrite Ho, Ht.
  - right. split; [|split; [congruence|done]]. intros va'. by rewrite Ho, Ht.
Qed.

(** [mapped] or [unmapped], in a state that is still well formed. *)
Definition map_post s va pa s' : Prop :=
  vmm_wf s' ∧ (∀ b, frame_free (vm_frames s') b → frame_free (vm_frames s) b) ∧
  (mapped s va pa s' ∨ unmapped s va s').

Lemma map_post_after s s1 va pa s' : same_space s s1 → map_post s1 va pa s' → map_post s va pa s'.
Proof.
  intros Hs (Hw & Hf & Hm). split; [done|]. split; [|by eapply same_space_then].
  destruct Hs as (_ & _ & _ & Hf' & _). auto.
Qed.

Lemma map_post_stop s va pa s' :
  same_space s s' → no_frame s' ∨ large_page s' va → map_post s va pa s'.
Proof.
  intros Hs Hr. destruct (same_space_unmapped s va s' Hs Hr). split; [done|].
  split; [apply Hs|by right].
Qed.

Lemma finish_map_post s va pa pt :
  vmm_wf s → 0 ≤ pa < 2 ^ 64 → table s [pml4_idx va; pdpt_idx va; pd_idx va] = Some pt →
  wp (stw (pt + 8 * pt_idx va) (Z.lor (entry_ptr pa) (Z.lor VMM_PRESENT VMM_WRITABLE));; invlpg va)
     (λ _ s', map_post s va pa s') s.
Proof.
  intros Hwf Hpa Hpt. pose proof (finish_mapping s va pa pt Hwf Hpa Hpt) as Hfin.
  unfold wp in *. cbn in *. destruct Hfin as [Hw Hm]. split; [done|]. split; [done|by left].
Qed.

Lemma map_page_ok s va pa :
  vmm_wf s → 0 ≤ pa < 2 ^ 64 → wp (vmm_map_page pml4 va pa) (λ _ s', map_post s va pa s') s.
Proof.
  intros Hwf Hpa. pose proof (path2_ok va) as P2. pose proof (path3_ok va) as P3.
  unfold vmm_map_page. apply wp_bind. eapply wp_mono.
  { apply (next_table_spec s [] pml4); [done| |simpl; lia|done]. by apply (path_ok_app _ [pdpt_idx va]). }
  intros [pdpt|] s1 (S1 & R1); simpl in R1; [|by apply wp_ret, map_post_stop; [|left]].
  apply wp_bind. eapply wp_mono.
  { apply (next_table_spec s1 [pml4_idx va] pdpt); [apply S1|done|simpl; lia|done]. }
  intros [pd|] s2 (S2 & R2); simpl in R2;
    pose proof (same_space_trans _ _ _ S1 S2) as S12; clear S1 S2;
    [|by apply wp_ret, map_post_stop; [|left]].
  apply wp_bind, wp_gets. rewrite present_land, huge_land, !negb_involutive.
  destruct (present (vm_mem s2 (pd + 8 * pd_idx va))) eqn:Ep; simpl.
  - destruct (huge (vm_mem s2 (pd + 8 * pd_idx va))) eqn:Eh.
    + apply wp_ret, map_post_stop; [done|]. right. by exists pd.
    + apply wp_bind, wp_ret, wp_bind, wp_gets. eapply wp_mono.
      { apply finish_map_post; [apply S12|done|]. unfold table in *.
        change [pml4_idx va; pdpt_idx va; pd_idx va] with ([pml4_idx va; pdpt_idx va] ++ [pd_idx va]).
        rewrite reach_app, R2. cbn [reach]. rewrite Ep, Eh. done. }
      intros [] s'. by apply map_post_after.
  - apply wp_bind. eapply wp_mono.
    { apply (new_table_spec s2 [pml4_idx va; pdpt_idx va] pd); [apply S12|done|done|done]. }
    intros [] s3 (S3 & R3); pose proof (same_space_trans _ _ _ S12 S3) as S13; clear S12 S3.
    + destruct R3 as (pt & R3 & E). apply wp_bind, wp_gets. rewrite E. eapply wp_mono.
      { apply finish_map_post; [apply S13|done|exact R3]. }
      intros [] s'. by apply map_post_after.
    + by apply wp_ret, map_post_stop; [|left].
Qed.

(** Taking a frame for other purposes leaves the tables alone. *)
Lemma alloc_frame_wf s :
  vmm_wf s → wp alloc_frame (λ a s', vmm_wf s' ∧ vm_mem s' = vm_mem s ∧ 0 ≤ a < 2 ^ 51) s.
Proof.
  intros Hwf. apply wp_zoom. eapply wp_mono; [apply frame_alloc_ok, Hwf|]. intros a f' (Hok & Hres).
  assert (Hmono : ∀ b, frame_free f' b → frame_free (vm_frames s) b).
  { destruct Hres as [(_ & -> & _)|(Hf & Hnf & Ho)]; [done|]. intros b Hb. apply Ho; [|done]. by intros ->. }
  split; [|split; [done|]].
  - destruct Hwf as [_ Hi Ha Hu]. constructor; [done|done| |done].
    intros p b Hp Hb. destruct (Ha p b Hp Hb) as (? & ? & ?). split_and!; [done|lia|lia|]. simpl. auto.
  - destruct Hres as [(-> & _)|(Hf & _)]; [lia|].
    destruct (frame_addr _ _ (wf_frames _ Hwf) Hf). lia.
Qed.

(** ** Identity ranges *)

Definition mapped_addr s va : Prop := is_Some (translate (vm_mem s) pml4 va).

Lemma large_page_mapped s va : vmm_wf s → large_page s va → mapped_addr s va.
Proof.
  intros Hwf (pd & Hpd & Hp & Hh). unfold mapped_addr, translate. unfold table in Hpd.
  change [pml4_idx va; pdpt_idx va; pd_idx va] with ([pml4_idx va; pdpt_idx va] ++ [pd_idx va]).
  rewrite reach_app, Hpd. cbn [reach]. rewrite Hp, Hh. simpl. eauto.
Qed.

(** The identity mappings added between two states: what else the MMU
    translated is untouched, and [va] in [lo, hi) is mapped unless the
    allocator ran dry. *)
Definition identity_post (lo hi : Z) s s' : Prop :=
  vmm_wf s' ∧ (∀ b, frame_free (vm_frames s') b → frame_free (vm_frames s) b) ∧
  (∀ va, 0 ≤ va < 2 ^ 48 →
     translate (vm_mem s') pml4 va = translate (vm_mem s) pml4 va ∨
     translate (vm_mem s') pml4 va = Some va) ∧
  (∀ va, lo ≤ va < hi → mapped_addr s' va ∨ no_frame s').

Lemma identity_post_refl lo s : vmm_wf s → identity_post lo lo s s.
Proof. intros Hwf. split; [done|]. split; [auto|]. split; [auto|]. intros; lia. Qed.

Lemma no_frame_mono s s' :
  (∀ b, frame_free (vm_frames s') b → frame_free (vm_frames s) b) → no_frame s → no_frame s'.
Proof. intros Hf Hn a Ha. by apply (Hn a), Hf. Qed.

Lemma identity_page s addr s' :
  vmm_wf s → 0 ≤ addr < 2 ^ 48 → addr mod 4096 = 0 → map_post s addr addr s' →
  identity_post addr (addr + 4096) s s'.
Proof.
  intros Hwf Ha Hal (Hw & Hf & Hm). split; [done|]. split; [done|].
  assert (Hp : ∀ va, addr ≤ va < addr + 4096 → page_of va = page_of addr).
  { intros va Hva. unfold page_of. f_equal. dlia. }
  destruct Hm as [(Hm & Ho & _) | (Ho & _ & Hr)].
  - split.
    + intros va Hva. destruct (decide (page_of va = page_of addr)) as [E|E]; [right|left; by apply Ho].
      rewrite Hm by done. f_equal. unfold page_of in E.
      rewrite !Z.mod_small in E by (change (2 ^ 36) with (2 ^ 48 / 4096); dlia). dlia.
    + intros va Hva. left. exists (addr - addr mod 4096 + va mod 4096). apply Hm, Hp, Hva.
  - split; [auto|]. intros va Hva. destruct Hr as [|Hl]; [by right|left].
    destruct (page_indices _ _ (Hp va Hva)) as (E4 & E3 & E2 & _).
    apply large_page_mapped; [done|]. unfold large_page. rewrite E4, E3, E2. exact Hl.
Qed.

Lemma identity_post_trans lo mid hi s1 s2 s3 :
  (∀ va, lo ≤ va < mid → 0 ≤ va < 2 ^ 48) →
  identity_post lo mid s1 s2 → identity_post mid hi s2 s3 → identity_post lo hi s1 s3.
Proof.
  intros Hb (_ & Hf & Ho & Hm) (Hw & Hf' & Ho' & Hm'). split; [done|]. split; [auto|]. split.
  - intros va Hva. destruct (Ho' va Hva) as [->|]; [by apply Ho|by right].
  - intros va Hva. destruct (decide (va < mid)) as [Hlt|]; [|apply Hm'; lia].
    destruct (Hm va) as [Hx|Hn]; [lia| |right; by eapply no_frame_mono].
    left. unfold mapped_addr in *. destruct (Ho' va) as [->| ->]; [apply Hb; lia|done|eauto].
Qed.

Lemma identity_post_shrink lo hi hi' s s' :
  hi' ≤ hi → identity_post lo hi s s' → identity_post lo hi' s s'.
Proof. intros Hh (? & ? & ? & Hm). split; [done|]. split; [done|]. split; [done|]. intros; apply Hm; lia. Qed.

Lemma map_identity_ok s start size :
  vmm_wf s → 0 ≤ start → 0 ≤ size → start mod 4096 = 0 → start + size ≤ 2 ^ 48 - 4096 →
  wp (map_identity pml4 start size) (λ _ s', identity_post start (start + size) s s') s.
Proof.
  intros Hwf Hst Hsz Hal Htop.
  apply (wp_loop (λ offset t, offset mod 4096 = 0 ∧ 0 ≤ offset < size + 4096 ∧
                    identity_post start (start + offset) s t)
           (λ offset _, size + 4096 - offset)).
  - split; [done|]. split; [lia|]. rewrite Z.add_0_r. by apply identity_post_refl.
  - lia.
  - intros offset t (_ & Ho & _). lia.
  - intros offset t (Hmod & Ho & Hpost). destruct (Z.ltb_spec offset size) as [Hlt|Hge].
    + rewrite !u64_small by lia. apply wp_bind. eapply wp_mono; [apply map_page_ok; [apply Hpost|lia]|].
      intros [] t' Ht'. apply wp_ret. split; [split; [|split]|lia].
      * dlia.
      * lia.
      * apply (identity_post_trans start (start + offset) _ s t); [intros; lia|exact Hpost|].
        rewrite Z.add_assoc.
        apply identity_page; [apply Hpost|lia|dlia|done].
    + apply wp_ret. eapply identity_post_shrink; [|exact Hpost]. lia.
Qed.

(** *** Boot *)

Definition page_up (x : Z) : Z := Z.land (u64 (x + 4095)) (u64 (Z.lnot 4095)).

Lemma page_up_bound x : 0 ≤ x < 2 ^ 63 → x ≤ page_up x < x + 4096.
Proof.
  intros Hx. unfold page_up. change (u64 (Z.lnot 4095)) with (u64 (Z.lnot 0xFFF)).
  fold (entry_ptr (u64 (x + 4095))). rewrite u64_small, entry_ptr_spec by lia. dlia.
Qed.

Lemma load_cr3_post lo hi s s1 a :
  identity_post lo hi s s1 →
  identity_post lo hi s (MkVmm (vm_mem s1) (vm_frames s1) (vm_invlpg s1) a).
Proof. intros ([] & ? & ? & ?). split; [by constructor|]. done. Qed.

(** Later identity ranges keep earlier ones. *)
Lemma identity_keep lo hi s1 s2 va :
  identity_post lo hi s1 s2 → 0 ≤ va < 2 ^ 48 →
  mapped_addr s1 va ∨ no_frame s1 → mapped_addr s2 va ∨ no_frame s2.
Proof.
  intros (_ & Hf & Ho & _) Hva [Hm|Hn]; [left|right; by eapply no_frame_mono].
  unfold mapped_addr in *. destruct (Ho va Hva) as [->| ->]; eauto.
Qed.

Lemma identity_fixed lo hi s1 s2 s0 :
  identity_post lo hi s1 s2 →
  (∀ va, 0 ≤ va < 2 ^ 48 → translate (vm_mem s1) pml4 va = translate (vm_mem s0) pml4 va ∨
     translate (vm_mem s1) pml4 va = Some va) →
  ∀ va, 0 ≤ va < 2 ^ 48 → translate (vm_mem s2) pml4 va = translate (vm_mem s0) pml4 va ∨
     translate (vm_mem s2) pml4 va = Some va.
Proof.
  intros (_ & _ & Ho & _) H1 va Hva. destruct (Ho va Hva) as [->|]; [by apply H1|by right].
Qed.

(** A device range of the boot code: mapped when its flag is set. *)
Lemma map_range_ok (b : bool) s start size :
  vmm_wf s → (b = true → 0 ≤ start ∧ 0 ≤ size ∧ start mod 4096 = 0 ∧ start + size < 2 ^ 47) →
  wp (if b then map_identity pml4 start (page_up size) else mret tt)
    (λ _ s', identity_post start (if b then start + size else start) s s') s.
Proof.
  intros Hwf Hb. destruct b; [|apply wp_ret, identity_post_refl; done].
  destruct (Hb eq_refl) as (Hst & Hsz & Hal & Htop).
  pose proof (page_up_bound size ltac:(lia)) as Hup.
  eapply wp_mono; [apply map_identity_ok; [done|lia..]|].
  intros [] s'. apply identity_post_shrink. lia.
Qed.
End facts.

(** ** The properties of the virtual memory manager *)

Section boot_vmm.
Context {F : Type} `{FrameAlloc F} (pml4 : Z).

(** C3. Mapping a page.  On a well-formed page-table tree, [vmm_map_page]
    returns with the tree still well formed and no frame taken that was not
    free, and either [va]'s page translates to [pa]'s and every other page
    translates as before, or no translation changed at all: then either the
    allocator is out of frames or a 2 MiB page covers [va]. *)
Theorem map_page_correct (s : vmm F) (va pa : Z) :
  vmm_wf pml4 s → 0 ≤ pa < 2 ^ 64 →
  ∃ s', vmm_map_page pml4 va pa s = Ret (tt, s') ∧ vmm_wf pml4 s' ∧
    (∀ b, frame_free (vm_frames s') b → frame_free (vm_frames s) b) ∧
    (((∀ va', page_of va' = page_of va →
         translate (vm_mem s') pml4 va' = Some (pa - pa mod 4096 + va' mod 4096)) ∧
      (∀ va', page_of va' ≠ page_of va →
         translate (vm_mem s') pml4 va' = translate (vm_mem s) pml4 va') ∧
      vm_invlpg s' = va :: vm_invlpg s) ∨
     ((∀ va', translate (vm_mem s') pml4 va' = translate (vm_mem s) pml4 va') ∧
      vm_invlpg s' = vm_invlpg s ∧ (no_frame s' ∨ large_page pml4 s' va))).
Proof.
  intros Hwf Hpa.
  destruct (proj1 (wp_run _ _ _) (map_page_ok pml4 s va pa Hwf Hpa)) as ([] & s' & E & Hw & Hf & Hm).
  by exists s'.
Qed.

(** C34. The boot mappings.  From a well-formed tree and page-aligned device
    ranges, [vmm_init] terminates with the tree loaded in CR3; it only ever
    adds identity translations, and the first 16 MiB, the framebuffer and
    the ramdisk are all mapped unless the allocator ran out of frames. *)
Theorem vmm_init_identity (s : vmm F) (fb height pitch loaded rstart rsize : Z) :
  vmm_wf pml4 s →
  0 ≤ fb → fb mod 4096 = 0 → 0 ≤ height * pitch → fb + height * pitch < 2 ^ 47 →
  0 ≤ rstart → rstart mod 4096 = 0 → 0 ≤ rsize → rstart + rsize < 2 ^ 47 →
  ∃ s', vmm_init pml4 fb height pitch loaded rstart rsize s = Ret (tt, s') ∧
    vmm_wf pml4 s' ∧ vm_cr3 s' = pml4 ∧
    (∀ va, 0 ≤ va < 2 ^ 48 →
       translate (vm_mem s') pml4 va = translate (vm_mem s) pml4 va ∨
       translate (vm_mem s') pml4 va = Some va) ∧
    (∀ va, 0 ≤ va < 2 ^ 24 ∨
           fb ≠ 0 ∧ fb ≤ va < fb + height * pitch ∨
           loaded ≠ 0 ∧ rstart ≠ 0 ∧ rstart ≤ va < rstart + rsize →
       is_Some (translate (vm_mem s') pml4 va) ∨ no_frame s').
Proof.
  intros Hwf Hfb Hfbal Hsz Hfbtop Hrs Hrsal Hrsz Hrtop.
  assert (HW : wp (vmm_init pml4 fb height pitch loaded rstart rsize) (λ _ s',
    vmm_wf pml4 s' ∧ vm_cr3 s' = pml4 ∧
    (∀ va, 0 ≤ va < 2 ^ 48 →
       translate (vm_mem s') pml4 va = translate (vm_mem s) pml4 va ∨
       translate (vm_mem s') pml4 va = Some va) ∧
    (∀ va, 0 ≤ va < 2 ^ 24 ∨ fb ≠ 0 ∧ fb ≤ va < fb + height * pitch ∨
           loaded ≠ 0 ∧ rstart ≠ 0 ∧ rstart ≤ va < rstart + rsize →
       mapped_addr pml4 s' va ∨ no_frame s')) s).
  { unfold vmm_init. cbn zeta. rewrite (u64_small (height * pitch)) by lia.
    apply wp_bind. eapply wp_mono; [apply map_range_ok; [done|by intros; repeat split]|].
    intros [] s1 H1. apply wp_bind. eapply wp_mono; [apply map_range_ok; [apply H1|by intros; repeat split]|].
    intros [] s2 H2. apply wp_bind. eapply wp_mono; [apply (map_identity_ok pml4 s2 0 (16 * 1024 * 1024)); [apply H2|done || lia..]|].
    intros [] s3 H3. apply wp_modify. split; [by destruct H3 as ([] & _)|]. split; [done|].
    cbn [vm_mem]. split.
    - eapply identity_fixed, identity_fixed; [exact H3|exact H2|]. apply H1.
    - intros va Hva. change (mapped_addr pml4 s3 va ∨ no_frame s3).
      destruct Hva as [Hva|[(Hne & Hva)|(Hl & Hne & Hva)]].
      + apply H3. lia.
      + eapply identity_keep; [exact H3|lia|]. eapply identity_keep; [exact H2|lia|].
        apply H1. apply Z.eqb_neq in Hne. by rewrite Hne.
      + eapply identity_keep; [exact H3|lia|]. apply H2.
        apply Z.eqb_neq in Hne, Hl. by rewrite Hne, Hl. }
  destruct (proj1 (wp_run _ _ _) HW) as ([] & s' & E & Hp). by exists s'.
Qed.
End boot_vmm.

(** The page tables at the entry of the kernel: an empty PML4 at 4 KiB. *)
Definition vmm_demo : vmm pmm := MkVmm (λ _, 0) pmm_demo [] 0.

Lemma vmm_demo_wf : vmm_wf 0x1000 vmm_demo.
Proof.
  assert (Hroot : ∀ p a, table 0x1000 vmm_demo p = Some a → p = [] ∧ a = 0x1000).
  { intros [|i p] a; unfold table; simpl; [by intros [= <-]|done]. }
  constructor.
  - apply pmm_demo_ready.
  - intros p q a _ _ [-> _]%Hroot [-> _]%Hroot. done.
  - intros p a _ [_ ->]%Hroot. split; [done|]. split; [lia|].
    intros (b & Eb & Hb & _). unfold PMM_BLOCK_SIZE in Eb. lia.
  - intros p a i _ _ _ _. done.
Qed.

Lemma map_page_correct_witness :
  ∃ s', vmm_map_page 0x1000 0x400000 0xFD000123 vmm_demo = Ret (tt, s') ∧ vmm_wf 0x1000 s' ∧
    (∀ b, frame_free (vm_frames s') b → frame_free (vm_frames vmm_demo) b) ∧
    (((∀ va', page_of va' = page_of 0x400000 →
         translate (vm_mem s') 0x1000 va' = Some (0xFD000123 - 0xFD000123 mod 4096 + va' mod 4096)) ∧
      (∀ va', page_of va' ≠ page_of 0x400000 →
         translate (vm_mem s') 0x1000 va' = translate (vm_mem vmm_demo) 0x1000 va') ∧
      vm_invlpg s' = 0x400000 :: vm_invlpg vmm_demo) ∨
     ((∀ va', translate (vm_mem s') 0x1000 va' = translate (vm_mem vmm_demo) 0x1000 va') ∧
      vm_invlpg s' = vm_invlpg vmm_demo ∧ (no_frame s' ∨ large_page 0x1000 s' 0x400000))).
Proof. apply (map_page_correct 0x1000 vmm_demo 0x400000 0xFD000123); [apply vmm_demo_wf | lia]. Defined.

Lemma vmm_init_identity_witness :
  ∃ s', vmm_init 0x1000 0xFD000000 768 4096 1 0x1000000 0x200000 vmm_demo = Ret (tt, s') ∧
    vmm_wf 0x1000 s' ∧ vm_cr3 s' = 0x1000 ∧
    (∀ va, 0 ≤ va < 2 ^ 48 →
       translate (vm_mem s') 0x1000 va = translate (vm_mem vmm_demo) 0x1000 va ∨
       translate (vm_mem s') 0x1000 va = Some va) ∧
    (∀ va, 0 ≤ va < 2 ^ 24 ∨
           0xFD000000 ≠ 0 ∧ 0xFD000000 ≤ va < 0xFD000000 + 768 * 4096 ∨
           1 ≠ 0 ∧ 0x1000000 ≠ 0 ∧ 0x1000000 ≤ va < 0x1000000 + 0x200000 →
       is_Some (translate (vm_mem s') 0x1000 va) ∨ no_frame s').
Proof.
  apply (vmm_init_identity 0x1000 vmm_demo 0xFD000000 768 4096 1 0x1000000 0x200000);
    [apply vmm_demo_wf | lia | reflexivity | lia | lia | lia | reflexivity | lia | lia].
Defined.
