(* ===== verification/Kmalloc.v ===== *)
(** * Kmalloc: the kernel heap (src/mm/kmalloc.c, include/kmalloc.h)

    The heap is a singly linked list of block headers that live in the heap
    itself.  [kh_mem] gives the header fields in memory (the word at [a] is
    [size], at [a + 4] [is_free], at [a + 8] [next]) and the payload cells
    around them; the specification is a list of blocks that tile the heap. *)

From Stdlib Require Import ZArith Lia.
From stdpp Require Import base numbers list option functions.
From S2P Require Import Prelude Interfaces Pmm Vmm.
Open Scope Z_scope.

Definition HEAP_START : Z := 0x200000000.
Definition sizeof_block_header : Z := 16.

Record kheap := MkKheap {
  kh_mem : Z → Z;
  heap_start : Z;
  dynamic_heap_size : Z;
  kh_vm : vmm pmm
}.

Definition hget (a : Z) : comp kheap Z := gets (λ s, kh_mem s a).
Definition hset (a v : Z) : comp kheap unit :=
  modify (λ s, MkKheap (<[a := v]> (kh_mem s)) (heap_start s) (dynamic_heap_size s) (kh_vm s)).
Definition blk_size (b : Z) : comp kheap Z := hget b.
Definition blk_is_free (b : Z) : comp kheap Z := hget (b + 4).
Definition blk_next (b : Z) : comp kheap Z := hget (b + 8).
Definition set_size (b v : Z) : comp kheap unit := hset b (u32 v).
Definition set_is_free (b v : Z) : comp kheap unit := hset (b + 4) v.
Definition set_next (b v : Z) : comp kheap unit := hset (b + 8) v.
Definition set_heap_size (v : Z) : comp kheap unit :=
  modify (λ s, MkKheap (kh_mem s) (heap_start s) v (kh_vm s)).
Definition with_vm {A} (m : comp (vmm pmm) A) : comp kheap A :=
  zoom kh_vm (λ v s, MkKheap (kh_mem s) (heap_start s) (dynamic_heap_size s) v) m.

Definition kmalloc_init (pml4_table : Z) : comp kheap unit :=
  kb ← with_vm (zoom vm_frames (λ f v, MkVmm (vm_mem v) f (vm_invlpg v) (vm_cr3 v))
                  (gets pmm_get_total_memory_kb));
  let total_ram := u64 (kb * 1024) in
  (if HEAP_START + 8 * 1024 * 1024 <? total_ram
   then set_heap_size (total_ram - HEAP_START - 8 * 1024 * 1024)
   else set_heap_size (16 * 1024 * 1024));;
  loop (λ addr,
    size ← gets dynamic_heap_size;
    if addr <? u64 (HEAP_START + size) then
      phys ← with_vm alloc_frame;
      if negb (phys =? 0) then
        with_vm (vmm_map_page pml4_table addr phys);;
        mret (inl (u64 (addr + 4096)))
      else
        set_heap_size (addr - HEAP_START);;
        mret (inr tt)
    else mret (inr tt)) HEAP_START;;
  modify (λ s, MkKheap (kh_mem s) HEAP_START (dynamic_heap_size s) (kh_vm s));;
  size ← gets dynamic_heap_size;
  set_size HEAP_START (size - sizeof_block_header);;
  set_is_free HEAP_START 1;;
  set_next HEAP_START 0.

(** [(size + 3) & ~3], at the width of [size_t]. *)
Definition align4 (size : Z) : Z := Z.land (u64 (size + 3)) (u64 (Z.lnot 3)).

(** A suitable block: split it if there is room for another, and use it. *)
Definition take_block (current csize size : Z) : comp kheap Z :=
  (if u64 (size + sizeof_block_header + 16) <=? csize then
     let new_block := u64 (current + sizeof_block_header + size) in
     set_size new_block (csize - size - sizeof_block_header);;
     set_is_free new_block 1;;
     next ← blk_next current;
     set_next new_block next;;
     set_size current size;;
     set_next current new_block
   else mret tt);;
  set_is_free current 0;;
  mret (u64 (current + sizeof_block_header)).

Definition kmalloc (size : Z) : comp kheap Z :=
  if size =? 0 then mret 0
  else
    let size := align4 size in
    start ← gets heap_start;
    loop (λ current,
      if current =? 0 then mret (inr 0)
      else
        free ← blk_is_free current;
        csize ← blk_size current;
        if negb (free =? 0) && (size <=? csize) then
          ptr ← take_block current csize size;
          mret (inr ptr)
        else
          next ← blk_next current;
          mret (inl next)) start.

(** [current] absorbs its neighbour [next]. *)
Definition absorb (current next : Z) : comp kheap unit :=
  size ← blk_size current;
  nsize ← blk_size next;
  set_size current (size + (sizeof_block_header + nsize));;
  nnext ← blk_next next;
  set_next current nnext.

(** Mark the block free and coalesce it with the next one. *)
Definition release_block (block : Z) : comp kheap unit :=
  set_is_free block 1;;
  next ← blk_next block;
  nfree ← (if negb (next =? 0) then blk_is_free next else mret 0);
  if negb (nfree =? 0) then absorb block next else mret tt.

(** Coalesce with the previous block, found by a walk from the start. *)
Definition coalesce_prev (block : Z) : comp kheap unit :=
  start ← gets heap_start;
  loop (λ current,
    if negb (current =? 0) && negb (current =? block) then
      next ← blk_next current;
      if next =? block then
        free ← blk_is_free current;
        (if negb (free =? 0) then absorb current block else mret tt);;
        mret (inr tt)
      else mret (inl next)
    else mret (inr tt)) start.

Definition kfree (ptr : Z) : comp kheap unit :=
  if ptr =? 0 then mret tt
  else
    let block := u64 (ptr - sizeof_block_header) in
    release_block block;;
    coalesce_prev block.

Record heap_stats_t := MkStats {
  total_size : Z;
  used_size : Z;
  free_size : Z;
  num_blocks : Z;
  num_free_blocks : Z
}.

Definition kmalloc_get_stats : comp kheap heap_stats_t :=
  dyn ← gets dynamic_heap_size;
  start ← gets heap_start;
  loop (λ '(current, st),
    if current =? 0 then mret (inr st)
    else
      free ← blk_is_free current;
      size ← blk_size current;
      next ← blk_next current;
      let st := MkStats (total_size st) (used_size st) (free_size st)
                  (u32 (num_blocks st + 1)) (num_free_blocks st) in
      let st :=
        if negb (free =? 0)
        then MkStats (total_size st) (used_size st) (u32 (free_size st + size))
               (num_blocks st) (u32 (num_free_blocks st + 1))
        else MkStats (total_size st) (u32 (used_size st + size)) (free_size st)
               (num_blocks st) (num_free_blocks st) in
      mret (inl (next, st))) (start, MkStats (u32 dyn) 0 0 0 0).

(** ** The specification: blocks that tile the heap *)

Record blk := Blk { b_addr : Z; b_size : Z; b_free : bool }.

Definition b_ptr (b : blk) : Z := b_addr b + 16.
Definition b_end (b : blk) : Z := b_addr b + 16 + b_size b.

(** The headers of [l] chained in memory from [a], the last one pointing
    at [e]. *)
Fixpoint seg (m : Z → Z) (a : Z) (l : list blk) (e : Z) : Prop :=
  match l with
  | [] => a = e
  | b :: l' =>
      a = b_addr b ∧ m a = b_size b ∧ m (a + 4) = (if b_free b then 1 else 0) ∧
      seg m (m (a + 8)) l' e
  end.

(** [l] covers [a, e) without gaps; payloads are multiples of 4. *)
Fixpoint tiles (a : Z) (l : list blk) (e : Z) : Prop :=
  match l with
  | [] => a = e
  | b :: l' => b_addr b = a ∧ 0 ≤ b_size b ∧ b_size b mod 4 = 0 ∧ tiles (b_end b) l' e
  end.

(** No two neighbours are both free. *)
Definition head_free (l : list blk) : Prop :=
  match l with n :: _ => b_free n = true | [] => False end.
Fixpoint no_adj (l : list blk) : Prop :=
  match l with
  | [] => True
  | b :: l' => ¬ (b_free b = true ∧ head_free l') ∧ no_adj l'
  end.

Record heap_shape (s : kheap) (l : list blk) : Prop := HeapShape {
  hr_start : heap_start s = HEAP_START;
  hr_size : 0 ≤ dynamic_heap_size s ≤ 2 ^ 32;
  hr_seg : seg (kh_mem s) HEAP_START l 0;
  hr_tiles : tiles HEAP_START l (HEAP_START + dynamic_heap_size s)
}.
(** The heap between two calls. *)
Definition heap_rep (s : kheap) (l : list blk) : Prop := heap_shape s l ∧ no_adj l.

(** First fit, and what becomes of the block found. *)
Definition fits (size : Z) (b : blk) : bool := b_free b && (size <=? b_size b).
Definition place (size : Z) (b : blk) : list blk :=
  if size + 32 <=? b_size b
  then [Blk (b_addr b) size false; Blk (b_addr b + 16 + size) (b_size b - size - 16) true]
  else [Blk (b_addr b) (b_size b) false].

Definition merge (b n : blk) : blk := Blk (b_addr b) (b_size b + 16 + b_size n) true.
Definition free_next (b : blk) (post : list blk) : list blk :=
  match post with
  | n :: r => if b_free n then merge b n :: r else Blk (b_addr b) (b_size b) true :: post
  | [] => [Blk (b_addr b) (b_size b) true]
  end.
(** [p] absorbs the freed block [b]. *)
Definition merged (b n : blk) : blk := Blk (b_addr b) (b_size b + 16 + b_size n) (b_free b).
Definition join_prev (pre : list blk) (b : blk) (rest : list blk) : list blk :=
  match rev pre with
  | p :: q => rev q ++ (if b_free p then merged p b :: rest else p :: b :: rest)
  | [] => b :: rest
  end.
Definition free_spec (pre : list blk) (b : blk) (post : list blk) : list blk :=
  match free_next b post with
  | c :: r => join_prev pre c r
  | [] => []
  end.

(** ** Chains and tilings *)

Lemma seg_app m a l1 l2 e : seg m a (l1 ++ l2) e ↔ ∃ x, seg m a l1 x ∧ seg m x l2 e.
Proof.
  revert a. induction l1 as [|b l1 IH]; intros a; simpl.
  - split; [by exists a | by intros (x & -> & ?)].
  - rewrite IH. naive_solver.
Qed.

Lemma tiles_app a l1 l2 e : tiles a (l1 ++ l2) e ↔ ∃ x, tiles a l1 x ∧ tiles x l2 e.
Proof.
  revert a. induction l1 as [|b l1 IH]; intros a; simpl.
  - split; [by exists a | by intros (x & -> & ?)].
  - rewrite IH. naive_solver.
Qed.

Lemma tiles_le a l e : tiles a l e → a + 16 * Z.of_nat (length l) ≤ e.
Proof.
  revert a. induction l as [|b l IH]; intros a; simpl; [lia|].
  intros (<- & Hs & _ & Hl%IH). unfold b_end in Hl. lia.
Qed.

Lemma tiles_head_lt a b l e : tiles a (b :: l) e → b_addr b = a ∧ a + 16 ≤ e.
Proof. intros Ht. pose proof (tiles_le _ _ _ Ht). destruct Ht as (-> & _). simpl in *. split; [done|lia]. Qed.

Lemma tiles_in a l e b : tiles a l e → b ∈ l → a ≤ b_addr b ∧ 0 ≤ b_size b ∧ b_end b ≤ e.
Proof.
  intros Ht (l1 & l2 & ->)%list_elem_of_split. apply tiles_app in Ht as (x & H1 & H2).
  apply tiles_le in H1. destruct H2 as (-> & Hs & _ & H2%tiles_le). lia.
Qed.

(** Only the headers inside the tiled range matter. *)
Lemma seg_frame m m' a a' l e e' :
  seg m a l e → tiles a' l e' → (∀ z, a' ≤ z < e' → m' z = m z) → seg m' a l e.
Proof.
  revert a a'. induction l as [|b l IH]; intros a a'; simpl; [done|].
  intros (-> & Hs & Hf & Hl) (Ha & H0 & _ & Ht) Hm.
  pose proof (tiles_le _ _ _ Ht) as Hle. unfold b_end in *.
  rewrite !Hm by lia. split; [done|]. split; [done|]. split; [done|].
  eapply IH; [done|done|]. intros z Hz. apply Hm. lia.
Qed.

Lemma no_adj_app l1 b l2 : no_adj (l1 ++ b :: l2) ↔ no_adj (l1 ++ [b]) ∧ no_adj (b :: l2).
Proof.
  induction l1 as [|c l1 IH]; [simpl; tauto|].
  change ((c :: l1) ++ b :: l2) with (c :: l1 ++ b :: l2).
  change ((c :: l1) ++ [b]) with (c :: l1 ++ [b]). cbn [no_adj]. rewrite IH.
  destruct l1; cbn [app head_free]; cbn [no_adj]; tauto.
Qed.

Lemma no_adj_snoc l p b : no_adj ((l ++ [p]) ++ [b]) ↔ no_adj (l ++ [p]) ∧ ¬ (b_free p = true ∧ b_free b = true).
Proof.
  rewrite <-app_assoc. change ([p] ++ [b]) with (p :: [b]). rewrite no_adj_app. simpl. tauto.
Qed.

(** A used block never adds a pair. *)
Lemma no_adj_used l1 b l2 : no_adj (l1 ++ [b]) → b_free b = false → no_adj l2 → no_adj (l1 ++ b :: l2).
Proof. intros H1 Hb H2. apply no_adj_app. split; [done|]. simpl. rewrite Hb. naive_solver. Qed.
Lemma no_adj_prefix l1 l2 : no_adj (l1 ++ l2) → no_adj l1.
Proof.
  induction l1 as [|c l1 IH]; [done|]. simpl. intros [Hc Hl]. split; [|by apply IH].
  destruct l1; simpl in *; naive_solver.
Qed.
Lemma no_adj_suffix l1 l2 : no_adj (l1 ++ l2) → no_adj l2.
Proof. induction l1 as [|c l1 IH]; [done|]. simpl. naive_solver. Qed.
Lemma no_adj_replace l b b' : no_adj (l ++ [b]) → b_free b' = false → no_adj (l ++ [b']).
Proof.
  intros H Hb. destruct l as [|p l0 _] using rev_ind; [simpl; naive_solver|].
  apply no_adj_snoc in H. apply no_adj_snoc. rewrite Hb. naive_solver.
Qed.

Lemma align4_spec size : 0 < size ≤ 2 ^ 64 - 4 →
  size ≤ align4 size < size + 4 ∧ align4 size mod 4 = 0 ∧ 0 < align4 size < 2 ^ 64.
Proof.
  intros Hs. unfold align4. rewrite u64_small by lia.
  change (u64 (Z.lnot 3)) with (2 ^ 64 - 4).
  assert (E : Z.land (size + 3) (2 ^ 64 - 4) = (size + 3) - (size + 3) mod 4).
  { change 4 with (2 ^ 2) at 2. replace (2 ^ 64 - 4) with (Z.ldiff (Z.ones 64) (Z.ones 2)) by reflexivity.
    transitivity (Z.ldiff (size + 3) (Z.ones 2)).
    - apply Z.bits_inj_iff'. intros n Hn. rewrite Z.land_spec, !Z.ldiff_spec.
      destruct (Z.ltb_spec n 64).
      + rewrite (Z.ones_spec_low 64) by lia. done.
      + rewrite (Z.ones_spec_high 64) by lia.
        rewrite (Z.bits_above_log2 (size + 3)); [done|lia|]. apply Z.log2_lt_pow2; [lia|].
        apply Z.lt_le_trans with (2 ^ 64); [lia|]. apply Z.pow_le_mono_r; lia.
    - rewrite Z.ldiff_ones_r, Z.shiftr_div_pow2, Z.shiftl_mul_pow2 by lia.
      change (2 ^ 2) with 4. dlia. }
  rewrite E. dlia.
Qed.

Lemma seg_fun m a l e e' : seg m a l e → seg m a l e' → e = e'.
Proof. revert a. induction l as [|b l IH]; intros a; simpl; [congruence|]. intros (_ & _ & _ & H) (_ & _ & _ & H'). eauto. Qed.
Lemma tiles_fun a l e e' : tiles a l e → tiles a l e' → e = e'.
Proof. revert a. induction l as [|b l IH]; intros a; simpl; [congruence|]. intros (_ & _ & _ & H) (_ & _ & _ & H'). eauto. Qed.

(** Symbolic execution through the header accessors. *)
Ltac heap_steps :=
  unfold blk_size, blk_is_free, blk_next, set_size, set_is_free, set_next, hget, hset; wp_steps.

(** Looking at one block of a represented heap. *)
Lemma rep_focus s pre b post :
  heap_shape s (pre ++ b :: post) →
  let m := kh_mem s in let fin := HEAP_START + dynamic_heap_size s in
  seg m HEAP_START pre (b_addr b) ∧ seg m (b_addr b) (b :: post) 0 ∧
  tiles HEAP_START pre (b_addr b) ∧ tiles (b_addr b) (b :: post) fin ∧
  HEAP_START ≤ b_addr b ∧ 0 ≤ b_size b ∧ b_size b mod 4 = 0 ∧ b_end b ≤ fin ∧
  fin ≤ HEAP_START + 2 ^ 32.
Proof.
  intros [_ Hsz Hseg Ht]. cbn zeta.
  apply seg_app in Hseg as (x & Hs1 & Hs2). apply tiles_app in Ht as (y & Ht1 & Ht2).
  pose proof Hs2 as (Ex & _). pose proof Ht2 as (Ey & H0 & H4 & Ht3).
  assert (Ey' : y = b_addr b) by done. clear Ey. rewrite Ex in *. rewrite Ey' in *.
  pose proof (tiles_le _ _ _ Ht1). pose proof (tiles_le _ _ _ Ht3).
  repeat (split; [done || lia|]). lia.
Qed.

(** Replacing a run of blocks by another that covers the same range. *)
Lemma rep_replace s s' pre b old new post y v :
  heap_shape s (pre ++ (b :: old) ++ post) →
  seg (kh_mem s) (b_addr b) (b :: old) y → tiles (b_addr b) (b :: old) v →
  seg (kh_mem s') (b_addr b) new y → tiles (b_addr b) new v →
  (∀ z, ¬ (b_addr b ≤ z < v) → kh_mem s' z = kh_mem s z) →
  heap_start s' = heap_start s → dynamic_heap_size s' = dynamic_heap_size s →
  heap_shape s' (pre ++ new ++ post).
Proof.
  intros Hrep Hso Hto Hsn Htn Hm Hst Hdy.
  pose proof (rep_focus s pre b (old ++ post) Hrep) as (Hs1 & Hs2 & Ht1 & Ht2 & Hlo & _).
  change (b :: old ++ post) with ((b :: old) ++ post) in Hs2, Ht2.
  apply seg_app in Hs2 as (y' & Hso' & Hs3). apply tiles_app in Ht2 as (v' & Hto' & Ht3).
  rewrite <-(seg_fun _ _ _ _ _ Hso Hso') in Hs3. rewrite <-(tiles_fun _ _ _ _ Hto Hto') in Ht3.
  pose proof (tiles_le _ _ _ Ht1). pose proof (tiles_le _ _ _ Hto).
  destruct Hrep as [? ? _ _]. constructor; [congruence|by rewrite Hdy| |].
  - apply seg_app. exists (b_addr b). split.
    + eapply seg_frame; [done|done|]. intros z Hz. apply Hm. lia.
    + apply seg_app. exists y. split; [done|]. eapply seg_frame; [done|done|].
      intros z Hz. apply Hm. lia.
  - rewrite Hdy. apply tiles_app. exists (b_addr b). split; [done|]. apply tiles_app. by exists v.
Qed.

(** ** Allocation refines first fit *)

Definition kmalloc_post (s : kheap) (l : list blk) (size p : Z) (s' : kheap) : Prop :=
  p = 0 ∧ s' = s ∧ Forall (λ b, fits size b = false) l ∨
  ∃ pre b post, l = pre ++ b :: post ∧ Forall (λ c, fits size c = false) pre ∧
    fits size b = true ∧ p = b_ptr b ∧ heap_rep s' (pre ++ place size b ++ post) ∧
    ∀ z, ¬ (b_addr b ≤ z < b_end b) → kh_mem s' z = kh_mem s z.

Lemma place_adj pre b post size :
  b_free b = true → no_adj (pre ++ b :: post) → no_adj (pre ++ place size b ++ post).
Proof.
  intros Hb Hadj. apply no_adj_app in Hadj as [H1 H2]. unfold place.
  destruct (size + 32 <=? b_size b); simpl app.
  - apply no_adj_used; [by eapply no_adj_replace|done|]. simpl in *. naive_solver.
  - apply no_adj_used; [by eapply no_adj_replace|done|]. simpl in *. naive_solver.
Qed.

Lemma take_block_ok s pre b post size :
  heap_rep s (pre ++ b :: post) → b_free b = true → 0 < size ≤ b_size b → size mod 4 = 0 →
  wp (take_block (b_addr b) (b_size b) size)
    (λ p s', p = b_ptr b ∧ heap_rep s' (pre ++ place size b ++ post) ∧
       ∀ z, ¬ (b_addr b ≤ z < b_end b) → kh_mem s' z = kh_mem s z) s.
Proof.
  intros [Hrep Hadj0] Hfree Hsz Hmod.
  pose proof (rep_focus s pre b post Hrep) as (_ & Hs & _ & Ht & Hlo & _ & H4 & Hhi & Hmax).
  destruct Hs as (_ & Esz & Efr & _).
  assert (Hadj : no_adj (pre ++ place size b ++ post)) by by apply place_adj.
  set (a := b_addr b) in *. unfold b_end, HEAP_START in *. fold a in Hhi.
  assert (Hgoal : ∀ s', seg (kh_mem s') a (place size b) (kh_mem s (a + 8)) →
    tiles a (place size b) (a + 16 + b_size b) →
    (∀ z, ¬ (a ≤ z < a + 16 + b_size b) → kh_mem s' z = kh_mem s z) →
    heap_start s' = heap_start s → dynamic_heap_size s' = dynamic_heap_size s →
    heap_rep s' (pre ++ place size b ++ post) ∧
      ∀ z, ¬ (a ≤ z < a + 16 + b_size b) → kh_mem s' z = kh_mem s z).
  { intros s' Hs' Ht' Hm H1 H2. split; [split; [|done]|done].
    apply (rep_replace s s' pre b [] (place size b) post (kh_mem s (a + 8)) (a + 16 + b_size b));
      [done| | |done..]; fold a; simpl; fold a.
    - split_and!; done.
    - split_and!; [done|lia|done|done]. }
  unfold place in *. unfold take_block, sizeof_block_header. apply wp_bind.
  rewrite (u64_small (size + 16 + 16)) by lia.
  replace (size + 16 + 16) with (size + 32) by lia.
  destruct (Z.leb_spec (size + 32) (b_size b)) as [Hbig|Hsmall].
  - rewrite (u64_small (a + 16 + size)) by lia. heap_steps. cbn zeta. heap_steps.
    rewrite (u64_small (a + 16)) by lia. split; [done|]. apply Hgoal; simpl; [| | |done|done].
    + fold a. rewrite !fn_lookup_insert, ?(fn_lookup_insert_ne _ _ _ (u32 _)) by lia.
      repeat first [rewrite fn_lookup_insert | rewrite fn_lookup_insert_ne by lia].
      rewrite !u32_small by lia. repeat (split; [done || lia|]). done.
    + fold a. unfold b_end. simpl. repeat (split; [done || lia || dlia|]). lia.
    + intros z Hz. rewrite !fn_lookup_insert_ne by lia. done.
  - heap_steps. rewrite (u64_small (a + 16)) by lia. split; [done|].
    apply Hgoal; simpl; [| | |done|done].
    + fold a. repeat first [rewrite fn_lookup_insert | rewrite fn_lookup_insert_ne by lia].
      repeat (split; [done|]). done.
    + fold a. unfold b_end. simpl. repeat (split; [done || lia|]). done.
    + intros z Hz. rewrite !fn_lookup_insert_ne by lia. done.
Qed.

(** Where a walk along the list stands. *)
Definition at_block (s : kheap) (l : list blk) (cur : Z) (pre rest : list blk) : Prop :=
  l = pre ++ rest ∧ seg (kh_mem s) cur rest 0.
Definition walk_left (s : kheap) (cur : Z) : Z :=
  if cur =? 0 then 0 else HEAP_START + dynamic_heap_size s - cur + 1.

Lemma at_start s l : heap_shape s l → at_block s l HEAP_START [] l.
Proof. intros Hrep. split; [done|apply Hrep]. Qed.

Lemma at_end s l cur pre : at_block s l cur pre [] → cur = 0.
Proof. by intros [_ H]. Qed.

Lemma at_cur s l cur pre b rest : heap_shape s l → at_block s l cur pre (b :: rest) →
  cur = b_addr b ∧ HEAP_START ≤ cur ∧ cur + 16 ≤ HEAP_START + dynamic_heap_size s ∧
  kh_mem s cur = b_size b ∧ kh_mem s (cur + 4) = (if b_free b then 1 else 0) ∧
  at_block s l (kh_mem s (cur + 8)) (pre ++ [b]) rest ∧
  walk_left s (kh_mem s (cur + 8)) < walk_left s cur.
Proof.
  intros Hrep [El (-> & Esz & Efr & Hrest)]. rewrite El in Hrep.
  pose proof (rep_focus s pre b rest Hrep) as (_ & _ & _ & Ht & Hlo & H0 & _ & Hhi & _).
  unfold b_end in Hhi. split_and!; try done; try lia.
  - split; [by rewrite <-app_assoc|done].
  - unfold walk_left. destruct (Z.eqb_spec (b_addr b) 0) as [E|_]; [unfold HEAP_START in *; lia|].
    destruct (Z.eqb_spec (kh_mem s (b_addr b + 8)) 0) as [_|Hne]; [lia|].
    destruct rest as [|n rest]; [done|]. destruct Hrest as (-> & _).
    destruct Ht as (_ & _ & _ & Ht). apply tiles_head_lt in Ht as [-> ?]. unfold b_end. lia.
Qed.

Lemma walk_left_bound s l : heap_shape s l → walk_left s HEAP_START < 2 ^ 64.
Proof. intros [_ ? _ _]. unfold walk_left, HEAP_START. simpl. lia. Qed.

Lemma walk_left_nonneg s l cur pre rest : heap_shape s l → at_block s l cur pre rest → 0 ≤ walk_left s cur.
Proof.
  intros Hrep Hat. destruct rest as [|b rest].
  - rewrite (at_end _ _ _ _ Hat). done.
  - destruct (at_cur _ _ _ _ _ _ Hrep Hat) as (_ & _ & ? & _). unfold walk_left.
    destruct (cur =? 0); lia.
Qed.

Lemma free_flag (b : bool) : negb ((if b then 1 else 0) =? 0) = b.
Proof. by destruct b. Qed.

Lemma kmalloc_ok s l size :
  heap_rep s l → 0 < size ≤ 2 ^ 64 - 4 →
  wp (kmalloc size) (kmalloc_post s l (align4 size)) s.
Proof.
  intros [Hrep Hadj] Hsz. unfold kmalloc. destruct (Z.eqb_spec size 0) as [|_]; [lia|].
  destruct (align4_spec size Hsz) as (_ & Hmod & Hpos). cbn zeta. set (sz := align4 size) in *.
  heap_steps. rewrite (hr_start s l Hrep).
  apply (wp_loop (λ cur t, t = s ∧ ∃ pre rest, at_block s l cur pre rest ∧
                    Forall (λ c, fits sz c = false) pre) (λ cur _, walk_left s cur)).
  - split; [done|]. exists [], l. split; [by apply at_start|done].
  - by eapply walk_left_bound.
  - intros cur t (-> & pre & rest & Hat & _). by eapply walk_left_nonneg.
  - intros cur t (-> & pre & rest & Hat & Hno). destruct rest as [|b rest].
    { rewrite (at_end _ _ _ _ Hat) in *. simpl. apply wp_ret. left. split_and!; [done..|].
      destruct Hat as [-> _]. by rewrite app_nil_r. }
    destruct (at_cur s l cur pre b rest Hrep Hat) as (Ecur & Hlo & _ & Esz & Efr & Hat' & Hlt).
    destruct (Z.eqb_spec cur 0) as [E|_]; [unfold HEAP_START in Hlo; lia|].
    heap_steps. rewrite Esz, Efr, free_flag. fold (fits sz b). destruct (fits sz b) eqn:Hfit.
    + apply wp_bind. destruct Hat as [El _].
      apply andb_true_iff in Hfit as [Hf Hle]. apply Z.leb_le in Hle.
      rewrite El in Hrep, Hadj. rewrite Ecur. eapply wp_mono; [apply (take_block_ok s pre b rest); [by split|done|lia|done]|].
      intros p s' (-> & Hrep' & Hm). apply wp_ret. right. exists pre, b, rest.
      split_and!; try done. unfold fits. rewrite Hf. by apply Z.leb_le.
    + heap_steps. split; [|done]. split; [done|]. exists (pre ++ [b]), rest. split; [done|].
      apply Forall_app. auto.
Qed.


(** ** Release refines coalescing *)

Lemma absorb_ok s pre b n post :
  heap_shape s (pre ++ b :: n :: post) →
  wp (absorb (b_addr b) (b_addr n))
    (λ _ s', heap_shape s' (pre ++ merged b n :: post) ∧
       ∀ z, ¬ (b_addr b ≤ z < b_addr b + 16) → kh_mem s' z = kh_mem s z) s.
Proof.
  intros Hrep.
  pose proof (rep_focus s pre b (n :: post) Hrep) as (_ & Hs & _ & Ht & Hlo & H0 & H4 & _ & Hmax).
  destruct Hs as (_ & Esz & Efr & En & Esz' & Efr' & Hs).
  pose proof Ht as (_ & _ & _ & Ea & H0' & H4' & Hend%tiles_le).
  unfold b_end, HEAP_START in *. rewrite En in Esz', Efr', Hs.
  unfold absorb, sizeof_block_header. heap_steps.
  rewrite u32_small by (rewrite Esz, Esz'; lia). rewrite Esz, Esz'.
  replace (b_size b + (16 + b_size n)) with (b_size b + 16 + b_size n) by lia.
  split.
  - apply (rep_replace s _ pre b [n] [merged b n] post (kh_mem s (b_addr n + 8)) (b_end n));
      [done| | | | | |done|done].
    + cbn [seg]. rewrite En. split_and!; done.
    + cbn [tiles]. unfold b_end. split_and!; try done; lia.
    + cbn [seg kh_mem merged b_addr b_size b_free].
      repeat first [rewrite fn_lookup_insert | rewrite fn_lookup_insert_ne by lia].
      split_and!; done.
    + cbn [tiles merged b_addr b_size b_free]. unfold b_end. simpl. split_and!; try done; [lia|dlia|lia].
    + intros z Hz. unfold b_end in Hz. cbn [kh_mem]. rewrite !fn_lookup_insert_ne by lia. done.
  - intros z Hz. cbn [kh_mem]. rewrite !fn_lookup_insert_ne by lia. done.
Qed.

Lemma set_free_ok s pre b post :
  heap_shape s (pre ++ b :: post) →
  wp (set_is_free (b_addr b) 1)
    (λ _ s', heap_shape s' (pre ++ Blk (b_addr b) (b_size b) true :: post) ∧
       ∀ z, ¬ (b_addr b ≤ z < b_addr b + 16) → kh_mem s' z = kh_mem s z) s.
Proof.
  intros Hrep. pose proof (rep_focus s pre b post Hrep) as (_ & Hs & _ & Ht & Hlo & H0 & H4 & _).
  destruct Hs as (_ & Esz & Efr & Hs). apply wp_modify. split.
  - apply (rep_replace s _ pre b [] [Blk (b_addr b) (b_size b) true] post (kh_mem s (b_addr b + 8)) (b_end b));
      [done| | | | | |done|done]; simpl; unfold b_end; simpl.
    + done.
    + done.
    + repeat first [rewrite fn_lookup_insert | rewrite fn_lookup_insert_ne by lia]. split_and!; done.
    + done.
    + intros z Hz. apply fn_lookup_insert_ne. lia.
  - intros z Hz. apply fn_lookup_insert_ne. lia.
Qed.

Lemma release_block_ok s pre b post :
  heap_shape s (pre ++ b :: post) →
  wp (release_block (b_addr b))
    (λ _ s', heap_shape s' (pre ++ free_next b post) ∧
       ∀ z, ¬ (b_addr b ≤ z < b_addr b + 16) → kh_mem s' z = kh_mem s z) s.
Proof.
  intros Hrep. unfold release_block. apply wp_bind. eapply wp_mono; [by apply set_free_ok|].
  intros [] s1 (Hrep1 & Hm1).
  pose (c := Blk (b_addr b) (b_size b) true). fold c in Hrep1.
  assert (Ec : b_addr b = b_addr c) by done. rewrite Ec in Hm1 |- *.
  pose proof (rep_focus s1 pre c post Hrep1) as (_ & Hs & _ & _ & Hlo & _ & _ & _ & _).
  destruct Hs as (_ & _ & _ & Hs). heap_steps. destruct post as [|n post].
  - rewrite Hs. simpl. apply wp_ret. done.
  - destruct Hs as (En & _ & Efr & _). rewrite En in *.
    pose proof (rep_focus s1 (pre ++ [c]) n post) as Hn. rewrite <-app_assoc in Hn.
    destruct (Hn Hrep1) as (_ & _ & _ & _ & Hlo' & _).
    destruct (Z.eqb_spec (b_addr n) 0) as [E|_]; [unfold HEAP_START in *; lia|]. simpl.
    heap_steps. rewrite Efr, free_flag. destruct (b_free n) eqn:Ef; [|by apply wp_ret].
    eapply wp_mono; [by apply (absorb_ok s1 pre c n post)|]. intros [] s2 (Hrep2 & Hm2).
    split; [done|]. intros z Hz. rewrite Hm2 by done. by apply Hm1.
Qed.

Lemma join_prev_snoc q p b rest :
  join_prev (q ++ [p]) b rest = q ++ (if b_free p then merged p b :: rest else p :: b :: rest).
Proof. unfold join_prev. rewrite rev_app_distr. simpl. by rewrite rev_involutive. Qed.

(** A block's address is that of no earlier block. *)
Lemma earlier_ne s p1 p p2 b rest :
  heap_shape s (p1 ++ p :: p2 ++ b :: rest) → b_addr p < b_addr b.
Proof.
  intros Hrep. pose proof (rep_focus s p1 p (p2 ++ b :: rest) Hrep) as (_ & _ & _ & Ht & _).
  change (p :: p2 ++ b :: rest) with ((p :: p2) ++ b :: rest) in Ht.
  apply tiles_app in Ht as (x & H1 & (-> & _)). apply tiles_le in H1. simpl in H1. lia.
Qed.

Lemma coalesce_prev_ok s pre b rest :
  heap_shape s (pre ++ b :: rest) →
  wp (coalesce_prev (b_addr b))
    (λ _ s', heap_shape s' (join_prev pre b rest) ∧
       ∀ z, (∀ p, p ∈ pre → b_free p = true → ¬ (b_addr p ≤ z < b_addr p + 16)) →
         kh_mem s' z = kh_mem s z) s.
Proof.
  intros Hrep. unfold coalesce_prev. wp_steps. rewrite (hr_start _ _ Hrep).
  apply (wp_loop (λ cur t, t = s ∧ ∃ p1 p2, pre = p1 ++ p2 ∧ (p2 = [] → pre = []) ∧
             at_block s (pre ++ b :: rest) cur p1 (p2 ++ b :: rest))
           (λ cur _, walk_left s cur)).
  - split; [done|]. exists [], pre. split; [done|]. split; [done|]. by apply at_start.
  - by eapply walk_left_bound.
  - intros cur t (-> & p1 & p2 & _ & _ & Hat). by eapply walk_left_nonneg.
  - intros cur t (-> & p1 & p2 & Epre & Hnil & Hat).
    destruct p2 as [|p p2].
    { destruct (at_cur _ _ _ _ _ _ Hrep Hat) as (-> & _). rewrite Z.eqb_refl, andb_false_r.
      apply wp_ret. rewrite (Hnil eq_refl) in *. done. }
    pose proof Hrep as Hrep'. rewrite Epre, <-app_assoc in Hrep'. simpl in Hrep'.
    pose proof (earlier_ne _ _ _ _ _ _ Hrep') as Hne.
    destruct (at_cur _ _ _ _ _ _ Hrep Hat) as (Ecur & Hlo & _ & _ & Efr & Hat' & Hlt).
    destruct (Z.eqb_spec cur 0) as [E|_]; [unfold HEAP_START in Hlo; lia|].
    destruct (Z.eqb_spec cur (b_addr b)) as [E|_]; [lia|]. simpl. heap_steps.
    destruct p2 as [|p' p2]; simpl in Hat'.
    + destruct (at_cur _ _ _ _ _ _ Hrep Hat') as (En & _). rewrite En, Z.eqb_refl. heap_steps.
      rewrite Efr, free_flag, Epre, join_prev_snoc. destruct (b_free p) eqn:Ef; [|by wp_steps; split].
      rewrite Ecur. eapply wp_mono; [by apply (absorb_ok s p1 p b rest)|].
      intros [] s' (Hrep2 & Hm). apply wp_ret. split; [done|]. intros z Hz. apply Hm, Hz; [|done].
      apply elem_of_app. right. by left.
    + destruct (at_cur _ _ _ _ _ _ Hrep Hat') as (En & _). rewrite En.
      assert (Hrep2 : heap_shape s ((p1 ++ [p]) ++ p' :: p2 ++ b :: rest)) by by rewrite <-app_assoc.
      pose proof (earlier_ne _ _ _ _ _ _ Hrep2). destruct (Z.eqb_spec (b_addr p') (b_addr b)); [lia|].
      apply wp_ret. rewrite <-En. split; [|done]. split; [done|].
      exists (p1 ++ [p]), (p' :: p2). split; [by rewrite <-app_assoc|]. split; [done|]. done.
Qed.

Lemma free_spec_adj pre b post :
  no_adj (pre ++ b :: post) → no_adj (free_spec pre b post).
Proof.
  intros Hadj. apply no_adj_app in Hadj as [Hpre [_ Hpost]]. unfold free_spec.
  assert (Hnext : ∃ c r, free_next b post = c :: r ∧ b_free c = true ∧ no_adj (c :: r)).
  { destruct post as [|n post]; simpl; [exists (Blk (b_addr b) (b_size b) true), []; naive_solver|].
    simpl in Hpost. destruct Hpost as [Hn Hpost]. destruct (b_free n) eqn:Ef.
    - exists (merge b n), post. simpl. naive_solver.
    - exists (Blk (b_addr b) (b_size b) true), (n :: post). simpl. rewrite Ef. naive_solver. }
  destruct Hnext as (c & r & -> & Hc & Hr). destruct pre as [|p q _] using rev_ind; [done|].
  rewrite join_prev_snoc. apply no_adj_snoc in Hpre as [Hq _]. destruct (b_free p) eqn:Ef.
  - apply no_adj_app. split.
    + destruct q as [|o q _] using rev_ind; [simpl; naive_solver|].
      apply no_adj_snoc in Hq. apply no_adj_snoc. simpl. by rewrite Ef in *.
    + simpl. rewrite Ef. simpl in Hr. rewrite Hc in Hr. done.
  - apply no_adj_used; done.
Qed.

Lemma free_next_head b post :
  ∃ c r, free_next b post = c :: r ∧ b_addr c = b_addr b.
Proof. destruct post as [|n post]; simpl; [eauto|]. destruct (b_free n); simpl; eauto. Qed.

(** Two blocks of a tiling are the same or apart. *)
Lemma tiles_apart a l e u v :
  tiles a l e → u ∈ l → v ∈ l → u = v ∨ b_end u ≤ b_addr v ∨ b_end v ≤ b_addr u.
Proof.
  revert a. induction l as [|b l IH]; intros a Ht Hu Hv; [by apply elem_of_nil in Hu|].
  pose proof Ht as (_ & _ & _ & Hl).
  apply elem_of_cons in Hu as [->|Hu], Hv as [->|Hv]; [by left| | |by eapply IH].
  - apply (tiles_in _ _ _ v Hl) in Hv. lia.
  - apply (tiles_in _ _ _ u Hl) in Hu. lia.
Qed.

Lemma tiles_aligned a l e b : tiles a l e → a mod 4 = 0 → b ∈ l → b_addr b mod 4 = 0.
Proof.
  revert a. induction l as [|c l IH]; intros a; [by intros _ _ ?%elem_of_nil|].
  intros (<- & _ & Hm & Ht) Ha [->|Hb]%elem_of_cons; [done|].
  eapply IH; [done| |done]. unfold b_end. dlia.
Qed.

(** The payload of a block in use. *)
Definition payloads_kept (l : list blk) (s s' : kheap) : Prop :=
  ∀ u z, u ∈ l → b_free u = false → b_ptr u ≤ z < b_end u → kh_mem s' z = kh_mem s z.

Lemma kfree_ok s pre b post :
  heap_rep s (pre ++ b :: post) →
  wp (kfree (b_ptr b)) (λ _ s', heap_rep s' (free_spec pre b post) ∧
    payloads_kept (pre ++ post) s s') s.
Proof.
  intros [Hrep Hadj].
  pose proof (rep_focus s pre b post Hrep) as (_ & _ & Htp & Ht & Hlo & Hsz & _ & Hhi & Hmax).
  unfold kfree, b_ptr, sizeof_block_header. unfold HEAP_START, b_end in *.
  destruct (Z.eqb_spec (b_addr b + 16) 0) as [|_]; [lia|]. cbn zeta.
  rewrite u64_small by lia. replace (b_addr b + 16 - 16) with (b_addr b) by lia.
  apply wp_bind. eapply wp_mono; [by apply (release_block_ok s pre b post)|].
  intros [] s1 (Hrep1 & Hm1). destruct (free_next_head b post) as (c & r & En & Ec).
  rewrite En in Hrep1. rewrite <-Ec. eapply wp_mono; [by apply (coalesce_prev_ok s1 pre c r)|].
  intros [] s2 (Hrep2 & Hm2). split; [split|].
  - unfold free_spec. by rewrite En.
  - by apply free_spec_adj.
  - intros u z Hu Hused Hz. unfold b_ptr, b_end in Hz. rewrite Hm2, Hm1; [done| |].
    + apply elem_of_app in Hu as [Hu|Hu].
      * apply (tiles_in _ _ _ u Htp) in Hu. unfold b_end in Hu. lia.
      * destruct Ht as (_ & _ & _ & Ht). apply (tiles_in _ _ _ u Ht) in Hu. unfold b_end in Hu. lia.
    + intros p Hp Hpf Hin. apply elem_of_app in Hu as [Hu|Hu].
      * destruct (tiles_apart _ _ _ u p Htp Hu Hp) as [->|Hap]; [congruence|].
        apply (tiles_in _ _ _ p Htp) in Hp. unfold b_end in *. lia.
      * apply (tiles_in _ _ _ p Htp) in Hp. destruct Ht as (_ & _ & _ & Ht).
        apply (tiles_in _ _ _ u Ht) in Hu. unfold b_end in *. lia.
Qed.

(** Splitting a free block and giving it back is the identity. *)
Lemma free_place pre b post size :
  b_free b = true → no_adj (pre ++ b :: post) →
  ∃ b' post', place size b ++ post = b' :: post' ∧ b_addr b' = b_addr b ∧
    free_spec pre b' post' = pre ++ b :: post.
Proof.
  intros Hb Hadj. apply no_adj_app in Hadj as [Hpre [Hhead _]]. destruct b as [a z f].
  simpl in Hb. subst f. unfold place, free_spec. cbn [b_size b_addr].
  assert (Hjoin : ∀ r, join_prev pre (Blk a z true) r = pre ++ Blk a z true :: r).
  { intros r. destruct pre as [|p q _] using rev_ind; [done|]. rewrite join_prev_snoc.
    apply no_adj_snoc in Hpre as [_ Hp]. destruct (b_free p); [by destruct Hp|]. by rewrite <-app_assoc. }
  destruct (size + 32 <=? z).
  - eexists _, _. split; [done|]. split; [done|]. simpl. unfold merge. simpl.
    replace (size + 16 + (z - size - 16)) with z by lia. apply Hjoin.
  - eexists _, _. split; [done|]. split; [done|]. unfold free_next. cbn [b_size b_addr].
    destruct post as [|n post]; [apply Hjoin|]. destruct (b_free n) eqn:Ef; [|apply Hjoin].
    by destruct Hhead.
Qed.

(** ** Boot *)

(** The heap as [kmalloc_init] leaves it: one free block, its size truncated
    to the header's 32-bit field. *)
Definition fresh_heap (s : kheap) : Prop :=
  heap_start s = HEAP_START ∧ kh_mem s HEAP_START = u32 (dynamic_heap_size s - 16) ∧
  kh_mem s (HEAP_START + 4) = 1 ∧ kh_mem s (HEAP_START + 8) = 0.

Lemma fresh_heap_rep s :
  fresh_heap s → 16 ≤ dynamic_heap_size s ≤ 2 ^ 32 → dynamic_heap_size s mod 4 = 0 →
  heap_rep s [Blk HEAP_START (dynamic_heap_size s - 16) true].
Proof.
  intros (Hst & Hsz & Hf & Hn) Hd Hm. rewrite u32_small in Hsz by lia. split; [|simpl; tauto].
  constructor; [done|lia|simpl; split_and!; done|]. simpl. unfold b_end. simpl.
  split_and!; [done|lia|dlia|lia].
Qed.

Definition heap_size_ok (kb d : Z) : Prop := 0 ≤ d ≤ Z.max (16 * 1024 * 1024) (kb * 1024) ∧ d mod 4 = 0.

Lemma kmalloc_init_ok pml4 s :
  vmm_wf pml4 (kh_vm s) → 0 ≤ total_memory_kb (vm_frames (kh_vm s)) < 2 ^ 32 →
  wp (kmalloc_init pml4) (λ _ s', fresh_heap s' ∧ vmm_wf pml4 (kh_vm s') ∧
    heap_size_ok (total_memory_kb (vm_frames (kh_vm s))) (dynamic_heap_size s')) s.
Proof.
  intros Hwf Hkb. unfold kmalloc_init. apply wp_bind. apply wp_zoom, wp_zoom, wp_gets.
  unfold pmm_get_total_memory_kb. set (kb := total_memory_kb _) in *. cbn zeta.
  rewrite (u64_small (kb * 1024)) by lia.
  set (s0 := MkKheap _ _ _ _).
  assert (H0 : vmm_wf pml4 (kh_vm s0)) by (unfold s0; cbn; by destruct (kh_vm s)).
  clearbody s0. apply wp_bind.
  assert (Hset : wp (if HEAP_START + 8 * 1024 * 1024 <? kb * 1024
      then set_heap_size (kb * 1024 - HEAP_START - 8 * 1024 * 1024)
      else set_heap_size (16 * 1024 * 1024))
    (λ _ t, vmm_wf pml4 (kh_vm t) ∧ heap_size_ok kb (dynamic_heap_size t)) s0).
  { unfold HEAP_START, heap_size_ok. destruct (Z.ltb_spec (0x200000000 + 8 * 1024 * 1024) (kb * 1024));
      apply wp_modify; simpl; (split; [done|]); [split; [lia|dlia]|split; [lia|done]]. }
  eapply wp_mono; [exact Hset|]. clear Hset. intros [] s1 (Hw1 & Hd1). apply wp_bind.
  apply (wp_loop (λ addr t, vmm_wf pml4 (kh_vm t) ∧ heap_size_ok kb (dynamic_heap_size t) ∧
      HEAP_START ≤ addr ≤ HEAP_START + dynamic_heap_size t + 4096 ∧ addr mod 4096 = 0)
    (λ addr t, HEAP_START + dynamic_heap_size t + 4096 - addr)).
  - unfold heap_size_ok, HEAP_START in *. split_and!; [done|lia|lia|lia|lia|lia|done].
  - unfold heap_size_ok, HEAP_START in *. lia.
  - intros addr t (_ & _ & Ha & _). lia.
  - intros addr t (Hw & [Hd Hd4] & Ha & Ham). apply wp_bind, wp_gets.
    unfold HEAP_START in Ha. rewrite u64_small by (unfold HEAP_START; lia).
    destruct (Z.ltb_spec addr (HEAP_START + dynamic_heap_size t)) as [Hlt|_].
    + unfold HEAP_START in Hlt. apply wp_bind, wp_zoom. eapply wp_mono; [by apply (alloc_frame_wf pml4)|].
      intros phys v1 (Hv1 & _ & Hph). destruct (Z.eqb_spec phys 0) as [_|_]; simpl.
      * apply wp_bind, wp_modify, wp_ret. apply wp_bind, wp_modify, wp_bind, wp_gets.
        unfold set_size, set_is_free, set_next, hset. wp_steps.
        unfold fresh_heap, heap_size_ok, HEAP_START; simpl.
        repeat first [rewrite fn_lookup_insert | rewrite fn_lookup_insert_ne by lia].
        split_and!; try done; try lia. dlia.
      * apply wp_bind, wp_zoom. eapply wp_mono; [apply map_page_ok; [exact Hv1|lia]|].
        intros [] v2 (Hv2 & _). apply wp_ret. rewrite u64_small by lia. cbn [dynamic_heap_size kh_vm].
        unfold HEAP_START, heap_size_ok. split_and!; try done; try lia. dlia.
    + apply wp_ret, wp_bind, wp_modify, wp_bind, wp_gets.
      unfold set_size, set_is_free, set_next, hset. wp_steps.
      unfold fresh_heap, heap_size_ok, HEAP_START; simpl.
      repeat first [rewrite fn_lookup_insert | rewrite fn_lookup_insert_ne by lia].
      split_and!; try done; lia.
Qed.

(** ** Statistics *)

Definition sum_sizes (f : bool) (l : list blk) : Z :=
  foldr (λ b acc, (if eqb (b_free b) f then b_size b else 0) + acc) 0 l.
Definition count_free (l : list blk) : Z :=
  foldr (λ b acc, (if b_free b then 1 else 0) + acc) 0 l.

Definition stats_of (d : Z) (l : list blk) : heap_stats_t :=
  MkStats (u32 d) (sum_sizes false l) (sum_sizes true l) (Z.of_nat (length l)) (count_free l).

Lemma tiles_sum a l e : tiles a l e →
  e - a = sum_sizes false l + sum_sizes true l + 16 * Z.of_nat (length l) ∧
  0 ≤ sum_sizes false l ∧ 0 ≤ sum_sizes true l ∧ 0 ≤ count_free l ≤ Z.of_nat (length l).
Proof.
  revert a. induction l as [|b l IH]; intros a; simpl; [lia|].
  intros (<- & H0 & _ & Ht). apply IH in Ht. unfold b_end in Ht. destruct (b_free b); simpl; lia.
Qed.

Lemma stats_snoc pre b :
  sum_sizes false (pre ++ [b]) = sum_sizes false pre + (if b_free b then 0 else b_size b) ∧
  sum_sizes true (pre ++ [b]) = sum_sizes true pre + (if b_free b then b_size b else 0) ∧
  count_free (pre ++ [b]) = count_free pre + (if b_free b then 1 else 0).
Proof.
  induction pre as [|c pre IH]; simpl; [destruct (b_free b); simpl; lia|].
  destruct IH as (-> & -> & ->). lia.
Qed.

Lemma get_stats_ok s l :
  heap_rep s l → wp kmalloc_get_stats (λ st s', s' = s ∧ st = stats_of (dynamic_heap_size s) l) s.
Proof.
  intros [Hrep _]. unfold kmalloc_get_stats. wp_steps. rewrite (hr_start _ _ Hrep).
  apply (wp_loop (λ '(cur, st) t, t = s ∧ ∃ pre rest, at_block s l cur pre rest ∧
            st = stats_of (dynamic_heap_size s) pre)
           (λ '(cur, _) _, walk_left s cur)).
  - split; [done|]. exists [], l. split; [by apply at_start|done].
  - by eapply walk_left_bound.
  - intros [cur st] t (-> & pre & rest & Hat & _). by eapply walk_left_nonneg.
  - intros [cur st] t (-> & pre & rest & Hat & ->). destruct rest as [|b rest].
    { rewrite (at_end _ _ _ _ Hat) in *. apply wp_ret. destruct Hat as [-> _]. by rewrite app_nil_r. }
    destruct (at_cur _ _ _ _ _ _ Hrep Hat) as (_ & Hlo & _ & Esz & Efr & Hat' & Hlt).
    destruct (Z.eqb_spec cur 0) as [E|_]; [unfold HEAP_START in Hlo; lia|].
    heap_steps. rewrite Esz, Efr, free_flag. cbv zeta. cbn [total_size used_size free_size num_blocks num_free_blocks].
    split; [|done]. split; [done|]. exists (pre ++ [b]), rest. split; [done|].
    destruct Hrep as [_ Hd _ Ht]. destruct Hat' as [El _]. rewrite El in Ht.
    apply tiles_app in Ht as (x & Ht & Hrest). apply tiles_le in Hrest.
    pose proof (tiles_sum _ _ _ Ht) as Hsum.
    unfold stats_of. cbn [total_size used_size free_size num_blocks num_free_blocks].
    destruct (stats_snoc pre b) as (E1 & E2 & E3).
    pose proof Ht as Ht'. apply tiles_app in Ht' as (y & Ht' & _). pose proof (tiles_sum _ _ _ Ht') as Hsum'.
    rewrite E1, E2, E3, length_app in *. simpl in *.
    destruct (b_free b); simpl; f_equal; rewrite ?u32_small by lia; lia.
Qed.

(** ** The properties of the heap *)

(** C4. First-fit allocation.  On a represented heap and for a request that
    does not wrap when it is rounded up, [kmalloc] returns either 0, when no
    free block is large enough (and then changes nothing), or the 4-aligned
    payload of the first free block that is; that block is in use afterwards,
    what is left of it is a free block when another header and 16 bytes fit,
    the list still tiles the heap without two free neighbours, and no payload
    in use is written. *)
Theorem kmalloc_first_fit (s : kheap) (l : list blk) (size : Z) :
  heap_rep s l → 0 < size ≤ 2 ^ 64 - 4 →
  ∃ p s', kmalloc size s = Ret (p, s') ∧
    (p = 0 ∧ s' = s ∧ (∀ b, b ∈ l → b_free b = true → b_size b < align4 size) ∨
     ∃ pre b post, l = pre ++ b :: post ∧
       (∀ c, c ∈ pre → b_free c = true → b_size c < align4 size) ∧
       b_free b = true ∧ size ≤ align4 size ≤ b_size b ∧ p = b_ptr b ∧ p mod 4 = 0 ∧
       heap_rep s' (pre ++ place (align4 size) b ++ post) ∧ payloads_kept l s s').
Proof.
  intros Hrep Hsz. destruct (align4_spec size Hsz) as (Hal & _).
  destruct (proj1 (wp_run _ _ _) (kmalloc_ok s l size Hrep Hsz)) as (p & s' & Hrun & Hpost).
  assert (Hnofit : ∀ pre, Forall (λ c, fits (align4 size) c = false) pre →
    ∀ c, c ∈ pre → b_free c = true → b_size c < align4 size).
  { intros pre Hpre c Hc Hf. apply list_elem_of_In in Hc. rewrite Forall_forall in Hpre. specialize (Hpre c Hc).
    unfold fits in Hpre. rewrite Hf in Hpre. simpl in Hpre. by apply Z.leb_gt. }
  exists p, s'. split; [done|]. destruct Hpost as [(-> & -> & Hno)|(pre & b & post & -> & Hno & Hfit & -> & Hrep' & Hm)].
  { left. eauto. }
  right. exists pre, b, post. apply andb_true_iff in Hfit as [Hf Hle%Z.leb_le].
  pose proof Hrep as [[_ _ _ Ht] _].
  assert (Hb : b ∈ pre ++ b :: post) by (apply elem_of_app; right; by left).
  pose proof (tiles_aligned _ _ _ b Ht eq_refl Hb) as Hba.
  split_and!; try done; [by eapply Hnofit|lia|unfold b_ptr; clear - Hba; dlia|].
  intros u z Hu Hused Hz. apply Hm. unfold b_ptr in Hz.
  destruct (tiles_apart _ _ _ u b Ht Hu Hb) as [->|Hap]; [congruence|lia].
Qed.

(** C6. Release with coalescing.  Freeing the payload of a block in use
    returns with a heap that again has no two free neighbours: the block is
    merged with the next one if that is free and into the previous one if
    that is, and no other payload in use is written. *)
Theorem kfree_coalesces (s : kheap) (pre : list blk) (b : blk) (post : list blk) :
  heap_rep s (pre ++ b :: post) →
  ∃ s', kfree (b_ptr b) s = Ret (tt, s') ∧ heap_rep s' (free_spec pre b post) ∧
    payloads_kept (pre ++ post) s s'.
Proof.
  intros Hrep. destruct (proj1 (wp_run _ _ _) (kfree_ok s pre b post Hrep)) as ([] & s' & Hrun & Hp).
  by exists s'.
Qed.

(** Allocation then release is the identity on the block list: whatever
    the request, a block that [kmalloc] returned goes back with [kfree] to
    exactly the list of blocks there was, so no fragmentation is left. *)
Theorem kmalloc_kfree_inverse (s : kheap) (l : list blk) (size p : Z) (s1 : kheap) :
  heap_rep s l → 0 < size ≤ 2 ^ 64 - 4 → kmalloc size s = Ret (p, s1) →
  ∃ s2, kfree p s1 = Ret (tt, s2) ∧ heap_rep s2 l.
Proof.
  intros Hrep Hsz Hrun. pose proof (kmalloc_ok s l size Hrep Hsz) as Hpost.
  unfold wp in Hpost. rewrite Hrun in Hpost.
  destruct Hpost as [(-> & -> & _)|(pre & b & post & -> & _ & Hfit & -> & Hrep' & _)].
  - by exists s.
  - apply andb_true_iff in Hfit as [Hf _].
    destruct (free_place pre b post (align4 size) Hf (proj2 Hrep)) as (b' & post' & El & Ea & Efree).
    rewrite El in Hrep'. pose proof (kfree_ok s1 pre b' post' Hrep') as Hk.
    unfold b_ptr in Hk |- *. rewrite Ea, Efree in Hk.
    destruct (proj1 (wp_run _ _ _) Hk) as ([] & s2 & Hrun2 & Hrep2 & _). by exists s2.
Qed.

(** The statistics add up: on a represented heap below 4 GiB,
    [kmalloc_get_stats] counts every block once, and the payload bytes in use,
    the free ones and 16 bytes per header make up the whole heap. *)
Theorem stats_account (s : kheap) (l : list blk) :
  heap_rep s l → dynamic_heap_size s < 2 ^ 32 →
  ∃ st, kmalloc_get_stats s = Ret (st, s) ∧
    num_blocks st = Z.of_nat (length l) ∧ used_size st = sum_sizes false l ∧
    free_size st = sum_sizes true l ∧
    total_size st = used_size st + free_size st + 16 * num_blocks st ∧
    num_free_blocks st ≤ num_blocks st.
Proof.
  intros Hrep Hd. destruct (proj1 (wp_run _ _ _) (get_stats_ok s l Hrep)) as (st & s' & Hrun & -> & ->).
  eexists. split; [exact Hrun|]. destruct Hrep as [[_ Hd0 _ Ht] _]. pose proof (tiles_sum _ _ _ Ht) as Hs.
  simpl. rewrite u32_small by lia. split_and!; try done; lia.
Qed.

(** Boot.  From well-formed page tables, [kmalloc_init] terminates with
    one free block at 8 GiB whose 32-bit size field is the heap size less a
    header, modulo 2^32; for a heap between 16 bytes and 4 GiB that is a
    represented heap, above 4 GiB the bytes beyond are lost to the truncation. *)
Theorem kmalloc_init_fresh (pml4 : Z) (s : kheap) :
  vmm_wf pml4 (kh_vm s) → 0 ≤ total_memory_kb (vm_frames (kh_vm s)) < 2 ^ 32 →
  ∃ s', kmalloc_init pml4 s = Ret (tt, s') ∧ vmm_wf pml4 (kh_vm s') ∧
    kh_mem s' HEAP_START = (dynamic_heap_size s' - 16) mod 2 ^ 32 ∧
    (16 ≤ dynamic_heap_size s' ≤ 2 ^ 32 →
       heap_rep s' [Blk HEAP_START (dynamic_heap_size s' - 16) true]).
Proof.
  intros Hwf Hkb. destruct (proj1 (wp_run _ _ _) (kmalloc_init_ok pml4 s Hwf Hkb))
    as ([] & s' & Hrun & Hf & Hw & [_ H4]).
  exists s'. split; [done|]. split; [done|]. split; [apply Hf|]. intros Hd. by apply fresh_heap_rep.
Qed.

(** A 1 KiB heap with a block in use between two free ones. *)
Definition heap_demo : kheap :=
  MkKheap (λ a, if a =? HEAP_START then 64 else if a =? HEAP_START + 4 then 1
    else if a =? HEAP_START + 8 then HEAP_START + 80
    else if a =? HEAP_START + 80 then 32 else if a =? HEAP_START + 84 then 0
    else if a =? HEAP_START + 88 then HEAP_START + 128
    else if a =? HEAP_START + 128 then 880 else if a =? HEAP_START + 132 then 1 else 0)
    HEAP_START 1024 vmm_demo.
Definition blks_demo : list blk :=
  [Blk HEAP_START 64 true; Blk (HEAP_START + 80) 32 false; Blk (HEAP_START + 128) 880 true].

Lemma heap_demo_rep : heap_rep heap_demo blks_demo.
Proof.
  split; [constructor|].
  - reflexivity.
  - simpl. lia.
  - cbn. split_and!; reflexivity.
  - cbn. unfold b_end, HEAP_START. cbn. split_and!; reflexivity || lia.
  - cbn. naive_solver.
Qed.

Lemma kmalloc_first_fit_witness :
  ∃ p s', kmalloc 100 heap_demo = Ret (p, s') ∧
    (p = 0 ∧ s' = heap_demo ∧ (∀ b, b ∈ blks_demo → b_free b = true → b_size b < align4 100) ∨
     ∃ pre b post, blks_demo = pre ++ b :: post ∧
       (∀ c, c ∈ pre → b_free c = true → b_size c < align4 100) ∧
       b_free b = true ∧ 100 ≤ align4 100 ≤ b_size b ∧ p = b_ptr b ∧ p mod 4 = 0 ∧
       heap_rep s' (pre ++ place (align4 100) b ++ post) ∧ payloads_kept blks_demo heap_demo s').
Proof. apply (kmalloc_first_fit heap_demo blks_demo 100); [apply heap_demo_rep | lia]. Defined.

Lemma kfree_coalesces_witness :
  ∃ s', kfree (HEAP_START + 96) heap_demo = Ret (tt, s') ∧
    heap_rep s' [Blk HEAP_START 1008 true] ∧
    payloads_kept [Blk HEAP_START 64 true; Blk (HEAP_START + 128) 880 true] heap_demo s'.
Proof.
  apply (kfree_coalesces heap_demo [Blk HEAP_START 64 true] (Blk (HEAP_START + 80) 32 false)
           [Blk (HEAP_START + 128) 880 true]). apply heap_demo_rep.
Defined.

Lemma demo_alloc : ∃ s1, kmalloc 100 heap_demo = Ret (HEAP_START + 144, s1).
Proof. eexists. vm_compute. reflexivity. Qed.

Lemma kmalloc_kfree_inverse_witness :
  ∃ s1 s2, kmalloc 100 heap_demo = Ret (HEAP_START + 144, s1) ∧
    kfree (HEAP_START + 144) s1 = Ret (tt, s2) ∧ heap_rep s2 blks_demo.
Proof.
  destruct demo_alloc as [s1 E]. exists s1.
  destruct (kmalloc_kfree_inverse heap_demo blks_demo 100 (HEAP_START + 144) s1) as (s2 & Hk & Hr);
    [apply heap_demo_rep | lia | exact E |]. exists s2. by split.
Defined.

Lemma stats_account_witness :
  ∃ st, kmalloc_get_stats heap_demo = Ret (st, heap_demo) ∧
    num_blocks st = 3 ∧ used_size st = 32 ∧ free_size st = 944 ∧
    total_size st = used_size st + free_size st + 16 * num_blocks st ∧
    num_free_blocks st ≤ num_blocks st.
Proof. apply (stats_account heap_demo blks_demo); [apply heap_demo_rep | reflexivity]. Defined.

Lemma kmalloc_init_fresh_witness :
  ∃ s', kmalloc_init 0x1000 heap_demo = Ret (tt, s') ∧ vmm_wf 0x1000 (kh_vm s') ∧
    kh_mem s' HEAP_START = (dynamic_heap_size s' - 16) mod 2 ^ 32 ∧
    (16 ≤ dynamic_heap_size s' ≤ 2 ^ 32 →
       heap_rep s' [Blk HEAP_START (dynamic_heap_size s' - 16) true]).
Proof.
  apply (kmalloc_init_fresh 0x1000 heap_demo); [apply vmm_demo_wf | split; [discriminate | reflexivity]].
Defined.
