(* ===== verification/Timer.v ===== *)
(** * Timer: ticks, uptime and the network clock
    (src/core/timer.c, src/drivers/net/lwip_sys.c)

    Port writes are recorded in the state; the interrupt handler's calls into
    the network driver, lwIP and the APIC are arguments. *)

From Stdlib Require Import ZArith Lia.
From stdpp Require Import base numbers list option.
From S2P Require Import Prelude.
Open Scope Z_scope.

Record timer := MkTimer {
  timer_ticks : Z;
  net_ready : Z;
  pit_writes : list (Z * Z)      (* (port, byte), latest first *)
}.

Definition set_ticks (t : Z) (s : timer) : timer := MkTimer t (net_ready s) (pit_writes s).
Definition outb (port v : Z) : comp timer unit :=
  modify (λ s, MkTimer (timer_ticks s) (net_ready s) ((port, u8 v) :: pit_writes s)).

(** [1193182 / frequency] with frequency 0 is undefined. *)
Definition timer_init (frequency : Z) : comp timer unit :=
  if frequency =? 0 then undef
  else
    let divisor := 1193182 / frequency in
    outb 0x43 0x36;;
    outb 0x40 (Z.land divisor 0xFF);;
    outb 0x40 (Z.land (Z.shiftr divisor 8) 0xFF);;
    modify (set_ticks 0).

Definition timer_get_ticks : comp timer Z := gets timer_ticks.

Definition timer_get_uptime : comp timer (Z * Z * Z) :=
  ticks ← gets timer_ticks;
  let total_seconds := ticks / 100 in
  mret (total_seconds / 3600, (total_seconds mod 3600) / 60, total_seconds mod 60).

Definition timer_set_net_ready : comp timer unit :=
  modify (λ s, MkTimer (timer_ticks s) 1 (pit_writes s)).

Definition sys_now : comp timer Z :=
  ticks ← timer_get_ticks;
  mret (u32 (ticks * 10)).

Section irq.
(** The rest of the machine, with the calls of the handler. *)
Context {X : Type} (rtl8169_poll sys_check_timeouts apic_eoi : comp X unit).

Definition in_timer {A} (m : comp timer A) : comp (timer * X) A := zoom fst (λ t s, (t, s.2)) m.
Definition in_machine {A} (m : comp X A) : comp (timer * X) A := zoom snd (λ x s, (s.1, x)) m.

Definition timer_handler : comp (timer * X) unit :=
  in_timer (modify (λ t, set_ticks (u32 (timer_ticks t + 1)) t));;
  ready ← in_timer (gets net_ready);
  (if negb (ready =? 0) then
     in_machine rtl8169_poll;;
     in_machine sys_check_timeouts
   else mret tt);;
  in_machine apic_eoi.

(** [hlt] sleeps until an interrupt has been served. *)
Definition timer_wait (hlt : comp (timer * X) unit) (ticks : Z) : comp (timer * X) unit :=
  now ← in_timer timer_get_ticks;
  let fin := u32 (now + ticks) in
  loop (λ _ : unit,
    now ← in_timer timer_get_ticks;
    if now <? fin then hlt;; mret (inl tt) else mret (inr tt)) tt.
End irq.

(** ** Specifications *)

Section irq_facts.
Context {X : Type} (poll timeouts eoi : comp X unit).
Context (Hpoll : returns poll) (Htimeouts : returns timeouts) (Heoi : returns eoi).

Lemma in_machine_ok (m : comp X unit) (s : timer * X) :
  returns m → wp (in_machine m) (λ _ s', s'.1 = s.1) s.
Proof. intros Hm. apply wp_zoom. eapply wp_mono; [apply Hm|done]. Qed.

Lemma timer_handler_ok (s : timer * X) :
  wp (timer_handler poll timeouts eoi)
    (λ _ s', timer_ticks s'.1 = u32 (timer_ticks s.1 + 1) ∧ net_ready s'.1 = net_ready s.1) s.
Proof using All.
  unfold timer_handler. apply wp_bind, wp_zoom, wp_modify, wp_bind, wp_zoom, wp_gets, wp_bind.
  set (s1 := (_, _)). change (net_ready (s1).1) with (net_ready s.1).
  assert (H : wp (if negb (net_ready s.1 =? 0)
      then in_machine poll;; in_machine timeouts else mret tt) (λ _ s', s'.1 = s1.1) s1).
  { destruct (negb _); [|by apply wp_ret]. apply wp_bind.
    eapply wp_mono; [by apply in_machine_ok|]. intros [] s2 <-. by apply in_machine_ok. }
  eapply wp_mono; [exact H|]. intros [] s2 H2. eapply wp_mono; [by apply in_machine_ok|].
  intros [] s3 ->. by rewrite H2.
Qed.

Lemma timer_wait_ok n (s : timer * X) :
  0 ≤ timer_ticks s.1 < 2 ^ 32 → 0 ≤ n < 2 ^ 32 →
  wp (timer_wait (timer_handler poll timeouts eoi) n)
    (λ _ s', timer_ticks s'.1 = Z.max (timer_ticks s.1) (u32 (timer_ticks s.1 + n))) s.
Proof using All.
  intros Ht Hn. unfold timer_wait. apply wp_bind, wp_zoom, wp_gets. cbn zeta.
  set (t0 := timer_ticks s.1) in *. set (fin := u32 (t0 + n)).
  assert (Hfin : 0 ≤ fin < 2 ^ 32) by apply u32_range.
  apply (wp_loop (λ _ t, t0 ≤ timer_ticks t.1 ≤ Z.max t0 fin) (λ _ t, Z.max t0 fin - timer_ticks t.1)).
  - simpl. change (timer_ticks s.1) with t0. lia.
  - simpl. change (timer_ticks s.1) with t0. lia.
  - intros _ t H. lia.
  - intros _ t H. apply wp_bind, wp_zoom, wp_gets.
    destruct (Z.ltb_spec (timer_ticks t.1) fin).
    + apply wp_bind. eapply wp_mono; [apply timer_handler_ok|]. intros [] t' (E & _). apply wp_ret.
      simpl in E. rewrite u32_small in E by lia. lia.
    + apply wp_ret. simpl. lia.
Qed.
End irq_facts.

(** ** The properties of the timer *)

(** Waiting.  When each halt lasts until the tick interrupt has been
    served, [timer_wait n] terminates after exactly [n] ticks if the deadline
    does not wrap; a deadline that wraps past 2^32 makes it return at once. *)
Theorem timer_wait_exact {X} (poll timeouts eoi : comp X unit) (n : Z) (s : timer * X) :
  returns poll → returns timeouts → returns eoi →
  0 ≤ timer_ticks s.1 < 2 ^ 32 → 0 ≤ n < 2 ^ 32 →
  ∃ s', timer_wait (timer_handler poll timeouts eoi) n s = Ret (tt, s') ∧
    (timer_ticks s.1 + n < 2 ^ 32 → timer_ticks s'.1 = timer_ticks s.1 + n) ∧
    (2 ^ 32 ≤ timer_ticks s.1 + n → timer_ticks s'.1 = timer_ticks s.1).
Proof.
  intros Hp Ht He Hs Hn.
  destruct (proj1 (wp_run _ _ _) (timer_wait_ok poll timeouts eoi Hp Ht He n s Hs Hn))
    as ([] & s' & Hrun & E).
  exists s'. split; [done|]. rewrite E. unfold u32. split; intros H.
  - rewrite Z.mod_small by lia. lia.
  - replace ((timer_ticks s.1 + n) mod 2 ^ 32) with (timer_ticks s.1 + n - 2 ^ 32); [lia|].
    dlia.
Qed.

(** The network clock.  [sys_now] of the tick counter after [d] more
    ticks, less [sys_now] before them, is [10 * d] milliseconds modulo 2^32,
    whatever wraps in between: the subtraction lwIP makes of two time stamps
    is the elapsed time as long as that is below 2^32 ms. *)
Theorem sys_now_elapsed (s s' : timer) (d : Z) :
  0 ≤ d → timer_ticks s' = u32 (timer_ticks s + d) →
  ∃ a b, sys_now s = Ret (a, s) ∧ sys_now s' = Ret (b, s') ∧ u32 (b - a) = u32 (10 * d) ∧
    (10 * d < 2 ^ 32 → u32 (b - a) = 10 * d).
Proof.
  intros Hd Ht. eexists _, _. split; [reflexivity|]. split; [reflexivity|]. cbn [fst snd].
  rewrite Ht. assert (E : u32 (u32 (u32 (timer_ticks s + d) * 10) - u32 (timer_ticks s * 10)) = u32 (10 * d)).
  { unfold u32. rewrite <-Zminus_mod, <-(Zminus_mod_idemp_l (_ * _)), Z.mul_mod_idemp_l by lia.
    rewrite Zminus_mod_idemp_l. f_equal. lia. }
  split; [exact E|]. intros H. rewrite E. apply u32_small. lia.
Qed.

Definition timer_demo : timer * unit := (MkTimer 4294967290 1 [], tt).

Lemma timer_wait_exact_witness :
  ∃ s', timer_wait (timer_handler (mret tt) (mret tt) (mret tt)) 3 timer_demo = Ret (tt, s') ∧
    (timer_ticks timer_demo.1 + 3 < 2 ^ 32 → timer_ticks s'.1 = timer_ticks timer_demo.1 + 3) ∧
    (2 ^ 32 ≤ timer_ticks timer_demo.1 + 3 → timer_ticks s'.1 = timer_ticks timer_demo.1).
Proof.
  apply (timer_wait_exact (mret tt) (mret tt) (mret tt) 3 timer_demo); try (by intros x); simpl; lia.
Defined.

Lemma sys_now_elapsed_witness :
  ∃ a b, sys_now (MkTimer 4294967290 1 []) = Ret (a, MkTimer 4294967290 1 []) ∧
    sys_now (MkTimer 4 1 []) = Ret (b, MkTimer 4 1 []) ∧ u32 (b - a) = u32 (10 * 10) ∧
    (10 * 10 < 2 ^ 32 → u32 (b - a) = 10 * 10).
Proof.
  apply (sys_now_elapsed (MkTimer 4294967290 1 []) (MkTimer 4 1 []) 10); [lia | reflexivity].
Defined.
