(* ===== verification/CText.v ===== *)
(** * CText: C strings as the list of their characters

    What the task list, the shell, the network client and the agent do to
    [char] arrays that hold a NUL-terminated text.  A text is the list of its characters without
    the NUL; copying one into an array is undefined when it does not fit.  The
    functions of string.c themselves are in Libc. *)

From Stdlib Require Import ZArith Lia String.
From stdpp Require Import base numbers list option strings.
From S2P Require Import Prelude.
Open Scope Z_scope.

(** What an array holds as a string: its characters up to the first NUL. *)
Fixpoint c_text (l : list Z) : list Z :=
  match l with [] => [] | c :: t => if c =? 0 then [] else c :: c_text t end.

(** [while ( *p == ' ') p++] *)
Fixpoint skip_spaces (l : list Z) : list Z :=
  match l with [] => [] | c :: t => if c =? 32 then skip_spaces t else c :: t end.

(** Drop the characters [c] at the end. *)
Fixpoint skip_char (c : Z) (l : list Z) : list Z :=
  match l with [] => [] | d :: t => if d =? c then skip_char c t else d :: t end.
Definition trim_end (c : Z) (l : list Z) : list Z := reverse (skip_char c (reverse l)).

Fixpoint strip_prefix (p l : list Z) : option (list Z) :=
  match p, l with
  | [], _ => Some l
  | a :: p', b :: l' => if a =? b then strip_prefix p' l' else None
  | _ :: _, [] => None
  end.

(** [strcmp(a, b) == 0] on texts *)
Definition text_eqb (a b : list Z) : bool := bool_decide (a = b).
Definition is_text (a : list Z) (s : string) : bool := text_eqb a (bytes_of s).

(** [dst] with [src] after it, in an array of [cap] characters. *)
Definition strcat_in {S} (cap : Z) (dst src : list Z) : comp S (list Z) :=
  if Z.of_nat (length dst + length src) <? cap then mret (dst ++ src) else undef.

(** ** Facts *)

Definition nul_free (l : list Z) : Prop := Forall (λ c, c ≠ 0) l.

Lemma c_text_nul_free l : nul_free (c_text l).
Proof.
  induction l as [|c l IH]; simpl; [constructor|]. destruct (Z.eqb_spec c 0); constructor; done.
Qed.
Lemma c_text_id l : nul_free l → c_text l = l.
Proof. induction 1 as [|c l Hc Hl IH]; simpl; [done|]. destruct (Z.eqb_spec c 0); congruence. Qed.
Lemma length_c_text l : (length (c_text l) ≤ length l)%nat.
Proof. induction l as [|c l IH]; simpl; [done|]. destruct (c =? 0); simpl; lia. Qed.

Lemma skip_spaces_char l : skip_spaces l = skip_char 32 l.
Proof. induction l as [|c l IH]; simpl; [done|]. by rewrite IH. Qed.
Lemma length_skip_char c l : (length (skip_char c l) ≤ length l)%nat.
Proof. induction l as [|d l IH]; simpl; [done|]. destruct (d =? c); simpl; lia. Qed.
Lemma length_trim_end c l : (length (trim_end c l) ≤ length l)%nat.
Proof. unfold trim_end. rewrite length_reverse. etrans; [apply length_skip_char|]. by rewrite length_reverse. Qed.

Lemma skip_char_suffix c l : ∃ n, l = replicate n c ++ skip_char c l.
Proof.
  induction l as [|d l [n IH]]; simpl; [by exists O|]. destruct (Z.eqb_spec d c) as [->|].
  - exists (Datatypes.S n). simpl. by rewrite <-IH.
  - by exists O.
Qed.
Lemma trim_end_prefix c l : ∃ n, l = trim_end c l ++ replicate n c.
Proof.
  destruct (skip_char_suffix c (reverse l)) as [n E]. exists n. unfold trim_end.
  rewrite <-(reverse_involutive l) at 1. rewrite E at 1. by rewrite reverse_app, reverse_replicate.
Qed.
Lemma skip_char_head c l : head (skip_char c l) ≠ Some c.
Proof.
  induction l as [|d l IH]; simpl; [done|]. destruct (Z.eqb_spec d c); [done|]. simpl. congruence.
Qed.
Lemma trim_end_last c l : last (trim_end c l) ≠ Some c.
Proof. unfold trim_end. rewrite last_reverse. apply skip_char_head. Qed.
Lemma trim_end_id c l : last l ≠ Some c → trim_end c l = l.
Proof.
  intros Hl. unfold trim_end. rewrite <-(reverse_involutive l) in Hl. rewrite last_reverse in Hl.
  destruct (reverse l) as [|d t] eqn:E.
  - simpl. rewrite <-(reverse_involutive l), E. done.
  - simpl in *. destruct (Z.eqb_spec d c) as [->|]; [done|]. by rewrite <-E, reverse_involutive.
Qed.
Lemma trim_end_forall (P : Z → Prop) c l : Forall P l → Forall P (trim_end c l).
Proof. intros H. destruct (trim_end_prefix c l) as [n E]. rewrite E in H. by apply Forall_app in H as [? _]. Qed.
Lemma skip_char_forall (P : Z → Prop) c l : Forall P l → Forall P (skip_char c l).
Proof. intros H. destruct (skip_char_suffix c l) as [n E]. rewrite E in H. by apply Forall_app in H as [_ ?]. Qed.
Lemma skip_char_app c n l : head l ≠ Some c → skip_char c (replicate n c ++ l) = l.
Proof.
  intros Hl. induction n as [|n IH]; simpl.
  - destruct l as [|d l]; [done|]. simpl in *. destruct (Z.eqb_spec d c); [congruence|done].
  - by rewrite Z.eqb_refl.
Qed.
Lemma trim_end_app c n l : last l ≠ Some c → trim_end c (l ++ replicate n c) = l.
Proof.
  intros Hl. unfold trim_end. rewrite reverse_app, reverse_replicate, skip_char_app, reverse_involutive; [done|].
  by rewrite head_reverse.
Qed.

Lemma strip_prefix_app p l : strip_prefix p (p ++ l) = Some l.
Proof. induction p as [|a p IH]; simpl; [by destruct l|]. by rewrite Z.eqb_refl. Qed.
Lemma strip_prefix_some p l r : strip_prefix p l = Some r → l = p ++ r.
Proof.
  revert l. induction p as [|a p IH]; intros l; simpl; [destruct l; congruence|].
  destruct l as [|b l]; [done|]. destruct (Z.eqb_spec a b) as [->|]; [|done]. intros H. by rewrite (IH l H).
Qed.

Lemma wp_strcat_in {S} cap dst src (Q : list Z → S → Prop) s :
  Z.of_nat (length dst + length src) < cap → Q (dst ++ src) s → wp (strcat_in cap dst src) Q s.
Proof. intros Hl HQ. unfold strcat_in. destruct (Z.ltb_spec (Z.of_nat (length dst + length src)) cap); [done|lia]. Qed.
