(* ===== verification/Task.v ===== *)
(** * Task: the cooperative scheduler (src/core/task.c, include/task.h)

    Task functions run to completion on the whole machine (the task table and
    everything else), so they are an argument [run] that interprets function
    pointers.  The saved registers of [task_t] are never used and left out. *)

From Stdlib Require Import ZArith Lia String.
From stdpp Require Import base numbers list option strings.
From S2P Require Import Prelude CText.
Open Scope Z_scope.

Definition TASK_READY : Z := 0.
Definition TASK_RUNNING : Z := 1.
Definition TASK_WAITING : Z := 2.
Definition TASK_DEAD : Z := 3.
Definition MAX_TASKS : Z := 32.

Record task := MkTask {
  id : Z;
  name : list Z;             (* 32 characters *)
  state : Z;
  priority : Z;
  function : Z;              (* pointer, 0 for none *)
  ticks_used : Z;
  wake_time : Z
}.

Record sched := MkSched {
  tasks : list task;
  next_task_id : Z;
  current_task_id : Z
}.

Definition with_state v t := MkTask (id t) (name t) v (priority t) (function t) (ticks_used t) (wake_time t).
Definition with_wake v t := MkTask (id t) (name t) (state t) (priority t) (function t) (ticks_used t) v.
Definition no_task : task := MkTask 0 (replicate 32 0) 0 0 0 0 0.
(** The zero-initialised globals. *)
Definition sched_boot : sched := MkSched (replicate 32 no_task) 0 0.

Definition get_task (i : Z) : comp sched task := s ← get; must (znth (tasks s) i).
Definition set_task (i : Z) (t : task) : comp sched unit :=
  s ← get; l ← must (zset (tasks s) i t); put (MkSched l (next_task_id s) (current_task_id s)).
Definition fresh_id : comp sched Z :=
  s ← get; put (MkSched (tasks s) (u32 (next_task_id s + 1)) (current_task_id s));; mret (next_task_id s).

(** ["idle"] and 28 NULs. *)
Definition idle_name : list Z := [105; 100; 108; 101] ++ replicate 28 0.

Definition task_init : comp sched unit :=
  for_each 0 MAX_TASKS (λ i,
    t ← get_task i;
    set_task i (MkTask 0 (name t) TASK_DEAD (priority t) (function t) (ticks_used t) (wake_time t)));;
  n ← fresh_id;
  t ← get_task 0;
  set_task 0 (MkTask n idle_name TASK_READY 0 (function t) 0 (wake_time t)).

(** The name copy: at most 31 characters of the string and a NUL; the bytes
    beyond keep what the slot held before. *)
Definition copy_name (old new : list Z) : list Z :=
  splice old 0 (take 31 new ++ [0]).

Definition task_create (nm : list Z) (fn prio : Z) : comp sched Z :=
  r ← for_range 1 MAX_TASKS (λ i,
    t ← get_task i;
    if state t =? TASK_DEAD then
      n ← fresh_id;
      set_task i (MkTask n (copy_name (name t) nm) TASK_READY prio fn 0 0);;
      mret (Some (i32 n))
    else mret None);
  match r with Some n => mret n | None => mret (-1) end.

Definition task_kill (k : Z) : comp sched unit :=
  _ ← for_range 0 MAX_TASKS (λ i,
    t ← get_task i;
    if id t =? k then set_task i (with_state TASK_DEAD t);; mret (Some tt) else mret None);
  mret tt.

(** The slot of the task, [None] for the null pointer. *)
Definition task_get (k : Z) : comp sched (option Z) :=
  for_range 0 MAX_TASKS (λ i,
    t ← get_task i;
    if (id t =? k) && negb (state t =? TASK_DEAD) then mret (Some i) else mret None).

Section machine.
(** The rest of the machine: the clock and the console, and what the task
    functions do. *)
Context {X : Type} `{Console X} (timer_get_ticks : X → Z).
Context (run : Z → comp (sched * X) unit).

Definition in_sched {A} (m : comp sched A) : comp (sched * X) A := zoom fst (λ t s, (t, s.2)) m.
Definition in_rest {A} (m : comp X A) : comp (sched * X) A := zoom snd (λ x s, (s.1, x)) m.

Definition print_state (st : Z) : comp X unit :=
  if st =? TASK_READY then print_string "READY   "
  else if st =? TASK_RUNNING then print_string "RUNNING "
  else if st =? TASK_WAITING then print_string "WAITING "
  else mret tt.

Definition task_list : comp (sched * X) unit :=
  in_rest (print_string ("PID  State    Name" +:+ NL));;
  in_rest (print_string ("---  -------  ----------------" +:+ NL));;
  for_each 0 MAX_TASKS (λ i,
    t ← in_sched (get_task i);
    if negb (state t =? TASK_DEAD) then
      in_rest (kprint_dec (id t));;
      in_rest (print_string "  ");;
      in_rest (print_state (state t));;
      in_rest (print_string " ");;
      in_rest (print_bytes (c_text (name t)));;
      in_rest (print_char 10)
    else mret tt).

(** Advance [current_task_id] to the next task that can run; a task whose
    sleep is over has its [wake_time] cleared. *)
Definition select_task : comp (sched * X) unit :=
  start ← in_sched (gets current_task_id);
  loop (λ _ : unit,
    in_sched (modify (λ s, MkSched (tasks s) (next_task_id s)
                             (u32 (current_task_id s + 1) mod MAX_TASKS)));;
    cur ← in_sched (gets current_task_id);
    t ← in_sched (get_task cur);
    runnable ←
      (if state t =? TASK_READY then
         if 0 <? wake_time t then
           now ← in_rest (gets timer_get_ticks);
           if wake_time t <=? now then in_sched (set_task cur (with_wake 0 t));; mret true
           else mret false
         else mret true
       else mret false);
    if runnable : bool then mret (inr tt)
    else if negb (cur =? start) then mret (inl tt) else mret (inr tt)) tt.

Definition task_yield : comp (sched * X) unit :=
  select_task;;
  cur ← in_sched (gets current_task_id);
  t ← in_sched (get_task cur);
  if negb (function t =? 0) then
    in_sched (set_task cur (with_state TASK_RUNNING t));;
    run (function t);;
    cur ← in_sched (gets current_task_id);
    t ← in_sched (get_task cur);
    in_sched (set_task cur (with_state TASK_READY t))
  else mret tt.

Definition task_sleep (ticks : Z) : comp (sched * X) unit :=
  cur ← in_sched (gets current_task_id);
  t ← in_sched (get_task cur);
  now ← in_rest (gets timer_get_ticks);
  in_sched (set_task cur (MkTask (id t) (name t) TASK_WAITING (priority t) (function t) (ticks_used t)
                            (u32 (now + ticks)))).
End machine.

(** ** The task table *)

Record sched_wf (s : sched) : Prop := SchedWf {
  sw_len : length (tasks s) = 32%nat;
  sw_cur : 0 ≤ current_task_id s < 32
}.

Definition slot (s : sched) (i : Z) : task := nth (Z.to_nat i) (tasks s) no_task.

Lemma get_task_ok s i Q : sched_wf s → 0 ≤ i < 32 → Q (slot s i) s → wp (get_task i) Q s.
Proof.
  intros [Hl _] Hi HQ. unfold get_task. apply wp_bind, wp_get. eapply wp_must; [|exact HQ].
  unfold znth, slot. destruct (Z.leb_spec 0 i); [|lia]. rewrite nth_lookup.
  destruct (lookup_lt_is_Some_2 (tasks s) (Z.to_nat i)) as [t ->]; [lia|done].
Qed.

Definition upd (s : sched) (i : Z) (t : task) : sched :=
  MkSched (<[Z.to_nat i := t]> (tasks s)) (next_task_id s) (current_task_id s).

Lemma set_task_ok s i t Q : sched_wf s → 0 ≤ i < 32 → Q tt (upd s i t) → wp (set_task i t) Q s.
Proof.
  intros [Hl _] Hi HQ. unfold set_task. apply wp_bind, wp_get, wp_bind. eapply wp_must.
  { unfold zset. rewrite Hl. destruct (Z.leb_spec 0 i); [|lia].
    destruct (Z.ltb_spec i (Z.of_nat 32)); [done|lia]. }
  by apply wp_put.
Qed.

Lemma upd_wf s i t : sched_wf s → sched_wf (upd s i t).
Proof. intros [Hl Hc]. constructor; [simpl; by rewrite length_insert|done]. Qed.

Lemma slot_upd s i t j : sched_wf s → 0 ≤ i < 32 → 0 ≤ j →
  slot (upd s i t) j = if j =? i then t else slot s j.
Proof.
  intros [Hl _] Hi Hj. unfold slot. simpl. rewrite !nth_lookup. destruct (Z.eqb_spec j i) as [->|].
  - by rewrite list_lookup_insert_eq by lia.
  - rewrite list_lookup_insert_ne by lia. done.
Qed.

(** ** Selection *)

Definition runnable (now : Z) (t : task) : bool :=
  (state t =? TASK_READY) && ((wake_time t <=? 0) || (wake_time t <=? now)).

(** The slots in the order the scheduler tries them, ending with the current
    one. *)
Definition candidates (cur : Z) : list Z := map (λ k, (cur + Z.of_nat k) mod 32) (seq 1 32).
Definition pick (now : Z) (s : sched) : option Z :=
  List.find (λ i, runnable now (slot s i)) (candidates (current_task_id s)).
Definition cleared (t : task) : task := if 0 <? wake_time t then with_wake 0 t else t.

(** The table after the selection: the current slot has moved to the task
    picked and its sleep is over. *)
Definition picked (s : sched) (r : option Z) : sched :=
  match r with
  | Some i =>
      if 0 <? wake_time (slot s i)
      then MkSched (<[Z.to_nat i := with_wake 0 (slot s i)]> (tasks s)) (next_task_id s) i
      else MkSched (tasks s) (next_task_id s) i
  | None => s
  end.

Lemma candidates_cut cur k : (k < 32)%nat →
  candidates cur = map (λ k, (cur + Z.of_nat k) mod 32) (seq 1 k) ++
    (cur + Z.of_nat (Datatypes.S k)) mod 32 :: map (λ k, (cur + Z.of_nat k) mod 32) (seq (k + 2) (31 - k)).
Proof.
  intros Hk. unfold candidates.
  assert (E : seq 1 32 = seq 1 (k + Datatypes.S (31 - k))) by (f_equal; lia).
  rewrite E, seq_app, map_app. f_equal.
  replace (k + 2)%nat with (Datatypes.S (1 + k)) by lia. done.
Qed.

Lemma find_app_skip {A} (p : A → bool) l1 l2 :
  (∀ x, In x l1 → p x = false) → List.find p (l1 ++ l2) = List.find p l2.
Proof.
  induction l1 as [|a l1 IH]; intros Hl; [done|]. simpl. rewrite Hl by (by left).
  apply IH. intros x Hx. apply Hl. by right.
Qed.

(** No candidate among the first [k] can run. *)
Definition skipped (now : Z) (s : sched) (k : nat) : Prop :=
  ∀ j, (1 ≤ j ≤ k)%nat → runnable now (slot s ((current_task_id s + Z.of_nat j) mod 32)) = false.

Lemma pick_at now s k : (k < 32)%nat → skipped now s k →
  runnable now (slot s ((current_task_id s + Z.of_nat (Datatypes.S k)) mod 32)) = true →
  pick now s = Some ((current_task_id s + Z.of_nat (Datatypes.S k)) mod 32).
Proof.
  intros Hk Hskip Hrun. unfold pick. rewrite (candidates_cut _ k) by done. rewrite find_app_skip.
  - cbn [List.find]. by rewrite Hrun.
  - intros x (j & <- & Hj%in_seq)%in_map_iff. apply Hskip. lia.
Qed.

Lemma pick_none now s : skipped now s 32 → pick now s = None.
Proof.
  intros Hskip. unfold pick, candidates. rewrite <-(app_nil_r (map _ _)). rewrite find_app_skip; [done|].
  intros x (j & <- & Hj%in_seq)%in_map_iff. apply Hskip. lia.
Qed.

Lemma skipped_S now s k :
  skipped now s k → runnable now (slot s ((current_task_id s + Z.of_nat (Datatypes.S k)) mod 32)) = false →
  skipped now s (Datatypes.S k).
Proof. intros Hs Hr j Hj. destruct (decide (j = Datatypes.S k)) as [->|]; [done|]. apply Hs. lia. Qed.

Section select.
Context {X : Type} (timer_get_ticks : X → Z).

(** The test of one candidate. *)
Lemma check_ok cur (st : sched * X) Q :
  sched_wf st.1 → 0 ≤ cur < 32 →
  let t := slot st.1 cur in
  let now := timer_get_ticks st.2 in
  Q (runnable now t)
    (if runnable now t && (0 <? wake_time t) then (upd st.1 cur (with_wake 0 t), st.2) else st) →
  wp (if state t =? TASK_READY then
        if 0 <? wake_time t then
          now ← in_rest (gets timer_get_ticks);
          if wake_time t <=? now then in_sched (set_task cur (with_wake 0 t));; mret true
          else mret false
        else mret true
      else mret false) Q st.
Proof.
  intros Hwf Hc t now. unfold runnable. destruct (state t =? TASK_READY); simpl; [|by apply wp_ret].
  destruct (Z.ltb_spec 0 (wake_time t)) as [Hw|Hw]; simpl.
  - destruct (Z.leb_spec (wake_time t) 0); [lia|]. simpl. intros HQ.
    apply wp_bind, wp_zoom, wp_gets. fold now. destruct st as [s x]. cbn [fst snd] in *.
    destruct (wake_time t <=? now); [|by apply wp_ret].
    apply wp_bind, wp_zoom, set_task_ok; [done|done|]. by apply wp_ret.
  - destruct (Z.leb_spec (wake_time t) 0); [|lia]. simpl. intros HQ. apply wp_ret. done.
Qed.

Lemma select_ok s x :
  sched_wf s →
  wp (select_task timer_get_ticks) (λ _ st, st = (picked s (pick (timer_get_ticks x) s), x)) (s, x).
Proof.
  intros Hwf. pose proof Hwf as [Hl Hc]. unfold select_task. apply wp_bind, wp_zoom, wp_gets.
  cbn [fst snd]. set (c := current_task_id s) in *. set (now := timer_get_ticks x).
  apply (wp_loop (λ _ st, ∃ k, (k < 32)%nat ∧ skipped now s k ∧
      st = (MkSched (tasks s) (next_task_id s) ((c + Z.of_nat k) mod 32), x))
    (λ _ st, 31 - (current_task_id st.1 - c) mod 32)).
  - exists O. split; [lia|]. split; [intros j Hj; lia|]. rewrite Z.add_0_r, Z.mod_small by done.
    unfold c. by destruct s.
  - simpl. dlia.
  - intros _ st _. dlia.
  - intros _ st (k & Hk & Hskip & ->).
    apply wp_bind, wp_zoom, wp_modify. cbn [fst snd tasks next_task_id current_task_id].
    change MAX_TASKS with 32. set (c' := u32 _ mod 32).
    assert (Ec : c' = (c + Z.of_nat (Datatypes.S k)) mod 32).
    { unfold c'. rewrite u32_small by dlia. dlia. }
    set (s1 := MkSched (tasks s) (next_task_id s) c').
    assert (Hwf1 : sched_wf s1) by (constructor; simpl; [done|unfold c'; dlia]).
    apply wp_bind, wp_zoom, wp_gets. cbn [fst snd].
    apply wp_bind, wp_zoom, get_task_ok; [done|apply Hwf1|]. cbn [fst snd].
    apply wp_bind. apply (check_ok c' (s1, x)); [done|apply Hwf1|]. cbn [fst snd]. fold now.
    change (slot s1 c') with (slot s c'). change (current_task_id s1) with c'.
    destruct (runnable now (slot s c')) eqn:Er; cbn [andb].
    + apply wp_ret. rewrite Ec in Er. fold c in Er. rewrite (pick_at now s k) by done. fold c. rewrite <-Ec.
      unfold picked. by destruct (0 <? wake_time (slot s c')).
    + rewrite Ec in Er. pose proof (skipped_S now s k Hskip Er) as Hskip'.
      destruct (Z.eqb_spec c' c) as [E|Hne]; simpl.
      * apply wp_ret. assert (k = 31%nat) as -> by dlia. rewrite pick_none by done.
        unfold s1. rewrite E. unfold c. by destruct s.
      * apply wp_ret. split; [|cbn; dlia]. exists (Datatypes.S k).
        split; [|split; [done|]]; [|by rewrite <-Ec].
        destruct (decide (k = 31%nat)) as [->|]; [|lia]. exfalso. apply Hne. rewrite Ec. dlia.
Qed.
End select.

Lemma picked_wf now s : sched_wf s → sched_wf (picked s (pick now s)).
Proof.
  intros Hwf. unfold pick. destruct (List.find _ _) as [i|] eqn:E; [|done].
  apply find_some in E as [(j & <- & _)%in_map_iff _]. destruct Hwf as [Hl Hc]. unfold picked.
  destruct (0 <? _); constructor; simpl; rewrite ?length_insert; done || dlia.
Qed.

(** What [pick] means: the first candidate after the current slot that can
    run. *)
Definition first_runnable (now : Z) (s : sched) (i : Z) : Prop :=
  ∃ k, (k < 32)%nat ∧ i = (current_task_id s + Z.of_nat (Datatypes.S k)) mod 32 ∧
    runnable now (slot s i) = true ∧ skipped now s k.

Lemma skipped_dec now s k :
  skipped now s k ∨ ∃ j, (j < k)%nat ∧ skipped now s j ∧
    runnable now (slot s ((current_task_id s + Z.of_nat (Datatypes.S j)) mod 32)) = true.
Proof.
  induction k as [|k [IH|(j & Hj & Hs & Hr)]].
  - left. intros j Hj. lia.
  - destruct (runnable now (slot s ((current_task_id s + Z.of_nat (Datatypes.S k)) mod 32))) eqn:E.
    + right. exists k. split; [lia|done].
    + left. by apply skipped_S.
  - right. exists j. split; [lia|done].
Qed.

Lemma pick_spec now s :
  match pick now s with
  | Some i => first_runnable now s i
  | None => skipped now s 32
  end.
Proof.
  destruct (skipped_dec now s 32) as [Hs|(j & Hj & Hs & Hr)].
  - by rewrite pick_none.
  - rewrite (pick_at now s j) by done. exists j. done.
Qed.

Section yield.
Context {X : Type} `{Console X} (timer_get_ticks : X → Z) (run : Z → comp (sched * X) unit).

(** The slot that is current after the selection. *)
Definition chosen (s : sched) (x : X) : sched := picked s (pick (timer_get_ticks x) s).

Definition finish_task : comp (sched * X) unit :=
  cur ← in_sched (gets current_task_id);
  t ← in_sched (get_task cur);
  in_sched (set_task cur (with_state TASK_READY t)).

Lemma yield_eq s x :
  sched_wf s →
  let s1 := chosen s x in let i := current_task_id s1 in let t := slot s1 i in
  task_yield timer_get_ticks run (s, x) =
  if function t =? 0 then Ret (tt, (s1, x))
  else (run (function t);; finish_task) (upd s1 i (with_state TASK_RUNNING t), x).
Proof.
  intros Hwf. cbn zeta.
  destruct (proj1 (wp_run _ _ _) (select_ok timer_get_ticks s x Hwf)) as ([] & st & Hsel & ->).
  pose proof (picked_wf (timer_get_ticks x) s Hwf) as Hwf1. fold (chosen s x) in *.
  unfold task_yield. rewrite (run_bind _ _ _ _ _ Hsel).
  assert (Hg : in_sched (get_task (current_task_id (chosen s x))) (chosen s x, x) =
               Ret (slot (chosen s x) (current_task_id (chosen s x)), (chosen s x, x))).
  { unfold in_sched, zoom. simpl.
    destruct (proj1 (wp_run (get_task _) (λ t s', t = slot (chosen s x) (current_task_id (chosen s x)) ∧ s' = chosen s x) _)
      (get_task_ok _ (current_task_id (chosen s x)) _ Hwf1 (sw_cur _ Hwf1) (conj eq_refl eq_refl)))
      as (t & s' & -> & -> & ->). done. }
  rewrite (run_bind _ _ _ (current_task_id (chosen s x)) (chosen s x, x)) by done.
  rewrite (run_bind _ _ _ _ _ Hg).
  destruct (Z.eqb_spec (function (slot (chosen s x) (current_task_id (chosen s x)))) 0) as [E|E]; simpl; [done|].
  assert (Hs : in_sched (set_task (current_task_id (chosen s x))
      (with_state TASK_RUNNING (slot (chosen s x) (current_task_id (chosen s x))))) (chosen s x, x) =
      Ret (tt, (upd (chosen s x) (current_task_id (chosen s x))
      (with_state TASK_RUNNING (slot (chosen s x) (current_task_id (chosen s x)))), x))).
  { unfold in_sched, zoom. simpl.
    set (t := with_state _ _). set (i := current_task_id _).
    destruct (proj1 (wp_run (set_task i t) (λ _ s', s' = upd (chosen s x) i t) _)
      (set_task_ok _ i t _ Hwf1 (sw_cur _ Hwf1) eq_refl)) as ([] & s' & -> & ->). done. }
  by rewrite (run_bind _ _ _ _ _ Hs).
Qed.

(** *** Fairness *)

(** A task function that returns, leaves the scheduler's position alone and
    does not touch slot [i] unless it is [i]'s own. *)
Definition polite (i : Z) : Prop :=
  ∀ f st, sched_wf st.1 →
    wp (run f) (λ _ st', sched_wf st'.1 ∧ current_task_id st'.1 = current_task_id st.1 ∧
      (current_task_id st.1 ≠ i → slot st'.1 i = slot st.1 i)) st.

Definition ready_now (s : sched) (i : Z) : Prop :=
  state (slot s i) = TASK_READY ∧ wake_time (slot s i) = 0.

Lemma ready_runnable now s i : ready_now s i → runnable now (slot s i) = true.
Proof. intros [Hs Hw]. unfold runnable. by rewrite Hs, Hw. Qed.

Definition distance (s : sched) (i : Z) : Z := (i - current_task_id s - 1) mod 32.

Lemma skipped_not now s k i :
  skipped now s k → ready_now s i → 0 ≤ i < 32 → distance s i < Z.of_nat k → False.
Proof.
  intros Hskip Hr Hi Hd. unfold distance in Hd.
  pose proof (Hskip (Datatypes.S (Z.to_nat ((i - current_task_id s - 1) mod 32)))) as Hs.
  replace ((current_task_id s + Z.of_nat (Datatypes.S (Z.to_nat ((i - current_task_id s - 1) mod 32)))) mod 32)
    with i in Hs by dlia.
  rewrite (ready_runnable now s i Hr) in Hs. discriminate Hs. dlia.
Qed.

(** One yield reaches slot [i] or comes strictly nearer. *)
Lemma chosen_nearer s x i :
  sched_wf s → 0 ≤ i < 32 → ready_now s i →
  current_task_id (chosen s x) = i ∨
  (distance (chosen s x) i < distance s i ∧ current_task_id (chosen s x) ≠ i ∧ ready_now (chosen s x) i).
Proof.
  intros Hwf Hi Hr. pose proof (picked_wf (timer_get_ticks x) s Hwf) as Hwf1. unfold chosen in *.
  pose proof (pick_spec (timer_get_ticks x) s) as Hp. destruct Hwf as [Hl Hc].
  set (now := timer_get_ticks x) in *. destruct (pick now s) as [j|].
  - destruct (decide (j = i)) as [->|Hne]; [left; unfold picked; by destruct (0 <? _)|right].
    destruct Hp as (k & Hk & Ej & _ & Hskip).
    assert (Hcur : current_task_id (picked s (Some j)) = j) by (unfold picked; by destruct (0 <? _)).
    rewrite Hcur. split_and!; [|done|].
    + unfold distance. rewrite Hcur.
      assert (Hd : Z.of_nat k < distance s i).
      { unfold distance. destruct (Z.lt_ge_cases (Z.of_nat k) ((i - current_task_id s - 1) mod 32)) as [|Hge]; [done|].
        exfalso. destruct (decide (Z.of_nat k = (i - current_task_id s - 1) mod 32)) as [E|].
        - apply Hne. rewrite Ej. dlia.
        - apply (skipped_not now s k i); [done|done|done|]. unfold distance. lia. }
      unfold distance in Hd. dlia.
    + assert (Hs : slot (picked s (Some j)) i = slot s i).
      { unfold picked. destruct (0 <? _); [|done]. unfold slot. simpl.
        rewrite !nth_lookup, list_lookup_insert_ne; [done|]. subst j. dlia. }
      unfold ready_now. by rewrite Hs.
  - exfalso. apply (skipped_not now s 32 i); [done|done|done|]. unfold distance. dlia.
Qed.

Fixpoint yields (n : nat) : comp (sched * X) unit :=
  match n with
  | O => mret tt
  | Datatypes.S n' => task_yield timer_get_ticks run;; yields n'
  end.

Lemma finish_ok i s x :
  sched_wf s → 0 ≤ i →
  wp finish_task (λ _ st, sched_wf st.1 ∧ current_task_id st.1 = current_task_id s ∧
    (current_task_id s ≠ i → slot st.1 i = slot s i)) (s, x).
Proof.
  intros Hwf Hi. unfold finish_task. apply wp_bind, wp_zoom, wp_gets. cbn [fst snd].
  apply wp_bind, wp_zoom, get_task_ok; [done|apply Hwf|]. cbn [fst snd].
  apply wp_zoom, set_task_ok; [done|apply Hwf|]. cbn [fst snd].
  split; [by apply upd_wf|]. split; [done|]. intros Hne. rewrite slot_upd by (done || apply Hwf).
  destruct (Z.eqb_spec i (current_task_id s)); [congruence|done].
Qed.

Lemma yield_ok i s x :
  polite i → sched_wf s → 0 ≤ i < 32 → ready_now s i →
  wp (task_yield timer_get_ticks run) (λ _ st, sched_wf st.1 ∧
    (current_task_id st.1 = i ∨ ready_now st.1 i ∧ distance st.1 i < distance s i)) (s, x).
Proof.
  intros Hpol Hwf Hi Hr. unfold wp. rewrite yield_eq by done. cbn zeta.
  pose proof (picked_wf (timer_get_ticks x) s Hwf) as Hwf1. fold (chosen s x) in Hwf1.
  pose proof (chosen_nearer s x i Hwf Hi Hr) as Hnear.
  set (s1 := chosen s x) in *. set (c := current_task_id s1) in *.
  destruct (Z.eqb_spec (function (slot s1 c)) 0) as [_|_].
  - cbn [fst]. split; [done|]. fold c. destruct Hnear as [|(Hd & _ & Hr1)]; [by left|by right].
  - fold (wp (run (function (slot s1 c));; finish_task) (λ _ st, sched_wf st.1 ∧
      (current_task_id st.1 = i ∨ ready_now st.1 i ∧ distance st.1 i < distance s i))
      (upd s1 c (with_state TASK_RUNNING (slot s1 c)), x)).
    apply wp_bind. eapply wp_mono; [apply Hpol; by apply upd_wf|].
    intros [] [s2 x2] (Hwf2 & Hc2 & Hs2). cbn [fst snd] in *.
    eapply wp_mono; [apply (finish_ok i); [done|lia]|]. intros [] [s3 x3] (Hwf3 & Hc3 & Hs3).
    cbn [fst snd] in *. split; [done|]. simpl in Hc2. fold c in Hc2.
    destruct Hnear as [Hci|(Hd & Hne & Hr1)]; [left; congruence|right].
    assert (Es : slot s3 i = slot s1 i).
    { rewrite Hs3, Hs2 by (simpl; fold c; congruence). rewrite slot_upd by (done || lia || apply Hwf1).
      by destruct (Z.eqb_spec i c). }
    unfold ready_now, distance in *. rewrite Es, Hc3, Hc2. done.
Qed.

Lemma yields_ok i n s x :
  polite i → sched_wf s → 0 ≤ i < 32 → ready_now s i → distance s i < Z.of_nat n →
  ∃ k st, (1 ≤ k ≤ n)%nat ∧ yields k (s, x) = Ret (tt, st) ∧ current_task_id st.1 = i.
Proof.
  intros Hpol. revert s x. induction n as [|n IH]; intros s x Hwf Hi Hr Hd; [unfold distance in Hd; dlia|].
  destruct (proj1 (wp_run _ _ _) (yield_ok i s x Hpol Hwf Hi Hr)) as ([] & [s1 x1] & Hrun & Hwf1 & Hres).
  cbn [fst] in *. destruct Hres as [Hc|(Hr1 & Hd1)].
  - exists 1%nat, (s1, x1). split; [lia|]. split; [|done]. simpl. by rewrite (run_bind _ _ _ _ _ Hrun).
  - destruct (IH s1 x1 Hwf1 Hi Hr1 ltac:(lia)) as (k & st & Hk & Hrun' & Hc).
    exists (Datatypes.S k), st. split; [lia|]. split; [|done]. simpl. by rewrite (run_bind _ _ _ _ _ Hrun).
Qed.
End yield.

(** ** The table of identifiers *)

(** Identifiers in use are distinct; 0 marks the idle task and the slots that
    never held a task. *)
Record ids_ok (s : sched) : Prop := IdsOk {
  io_wf : sched_wf s;
  io_range i : 0 ≤ i < 32 → 0 ≤ id (slot s i) < next_task_id s;
  io_idle : id (slot s 0) = 0;
  io_inj i j : 0 ≤ i < 32 → 0 ≤ j < 32 → id (slot s i) = id (slot s j) → i = j ∨ id (slot s i) = 0
}.

Definition dead (s : sched) (i : Z) : Prop := state (slot s i) = TASK_DEAD.

Definition created (nm : list Z) (fn prio n : Z) (old : task) : task :=
  MkTask n (copy_name (name old) nm) TASK_READY prio fn 0 0.
(** The table with the identifier counter advanced. *)
Definition advanced (s : sched) : sched :=
  MkSched (tasks s) (u32 (next_task_id s + 1)) (current_task_id s).
Lemma advanced_wf s : sched_wf s → sched_wf (advanced s).
Proof. intros []. by constructor. Qed.

Lemma upd_slot s i t :
  sched_wf s → 0 ≤ i < 32 → ∀ j, 0 ≤ j < 32 → slot (upd s i t) j = if j =? i then t else slot s j.
Proof. intros. apply slot_upd; [done|done|lia]. Qed.

Lemma create_ok nm fn prio s :
  ids_ok s → next_task_id s < 2 ^ 31 →
  wp (task_create nm fn prio) (λ r s',
    r = -1 ∧ s' = s ∧ (∀ i, 1 ≤ i < 32 → ¬ dead s i) ∨
    r = next_task_id s ∧ ∃ i, 1 ≤ i < 32 ∧ dead s i ∧ (∀ j, 1 ≤ j < i → ¬ dead s j) ∧
      s' = upd (advanced s) i (created nm fn prio (next_task_id s) (slot s i))) s.
Proof.
  intros Hids Hn. pose proof (io_wf s Hids) as Hwf. unfold task_create. apply wp_bind.
  apply (wp_for_range (λ i t, t = s ∧ ∀ j, 1 ≤ j < i → ¬ dead s j)).
  - unfold MAX_TASKS. lia.
  - split; [done|]. intros; lia.
  - intros i t Hi (-> & Hno). unfold MAX_TASKS in Hi.
    apply wp_bind, get_task_ok; [done|lia|]. destruct (Z.eqb_spec (state (slot s i)) TASK_DEAD) as [Hd|Hd].
    + unfold fresh_id. apply wp_bind. wp_steps. apply set_task_ok; [by apply advanced_wf|lia|].
      wp_steps. right. split.
      * unfold i32, signed. pose proof (io_range s Hids 0 ltac:(lia)).
        change (2 ^ (32 - 1)) with (2 ^ 31). rewrite Z.mod_small by lia. lia.
      * exists i. split; [lia|]. split; [done|]. split; [done|]. done.
    + apply wp_ret. split; [done|]. intros j Hj. destruct (decide (j = i)) as [->|]; [done|]. apply Hno. lia.
  - intros t (-> & Hno). apply wp_ret. left. split_and!; [done|done|]. intros i Hi. apply Hno. unfold MAX_TASKS. lia.
Qed.

Lemma create_ids nm fn prio s i :
  ids_ok s → next_task_id s < 2 ^ 31 → 1 ≤ i < 32 →
  ids_ok (upd (advanced s) i (created nm fn prio (next_task_id s) (slot s i))).
Proof.
  intros [Hwf Hr Hz Hinj] Hn Hi. pose proof (advanced_wf s Hwf) as Hwf1.
  assert (Hslot : ∀ j, slot (advanced s) j = slot s j) by done.
  assert (Hpos : 0 ≤ next_task_id s) by (specialize (Hr 0 ltac:(lia)); lia).
  constructor.
  - by apply upd_wf.
  - intros j Hj. rewrite upd_slot by (done || lia). simpl. rewrite u32_small by lia.
    destruct (j =? i); simpl; [lia|]. rewrite Hslot. specialize (Hr j Hj). lia.
  - rewrite upd_slot by (done || lia). destruct (Z.eqb_spec 0 i); [lia|]. done.
  - intros j k Hj Hk. rewrite !upd_slot by (done || lia). rewrite !Hslot.
    pose proof (Hr j Hj). pose proof (Hr k Hk).
    destruct (Z.eqb_spec j i), (Z.eqb_spec k i); simpl; try lia. by apply Hinj.
Qed.

Lemma get_ok k s :
  sched_wf s →
  wp (task_get k) (λ r s', s' = s ∧ match r with
    | Some i => 0 ≤ i < 32 ∧ id (slot s i) = k ∧ ¬ dead s i
    | None => ∀ i, 0 ≤ i < 32 → id (slot s i) = k → dead s i
    end) s.
Proof.
  intros Hwf. apply (wp_for_range (λ i t, t = s ∧ ∀ j, 0 ≤ j < i → id (slot s j) = k → dead s j)).
  - done.
  - split; [done|]. intros; lia.
  - intros i t Hi (-> & Hno). unfold MAX_TASKS in Hi. apply wp_bind, get_task_ok; [done|lia|].
    unfold dead in *. destruct (Z.eqb_spec (id (slot s i)) k) as [E|E]; simpl.
    + destruct (Z.eqb_spec (state (slot s i)) TASK_DEAD) as [Hd|Hd]; apply wp_ret.
      * split; [done|]. intros j Hj. destruct (decide (j = i)) as [->|]; [done|]. apply Hno. lia.
      * split; [done|]. split; [lia|done].
    + apply wp_ret. split; [done|]. intros j Hj. destruct (decide (j = i)) as [->|]; [done|]. apply Hno. lia.
  - done.
Qed.

(** [task_kill] kills the first slot that holds the identifier. *)
Lemma kill_ok k s :
  sched_wf s →
  wp (task_kill k) (λ _ s',
    s' = s ∧ (∀ i, 0 ≤ i < 32 → id (slot s i) ≠ k) ∨
    ∃ i, 0 ≤ i < 32 ∧ id (slot s i) = k ∧ (∀ j, 0 ≤ j < i → id (slot s j) ≠ k) ∧
      s' = upd s i (with_state TASK_DEAD (slot s i))) s.
Proof.
  intros Hwf. apply wp_bind.
  apply (wp_for_range (λ i t, t = s ∧ ∀ j, 0 ≤ j < i → id (slot s j) ≠ k)).
  - done.
  - split; [done|]. intros; lia.
  - intros i t Hi (-> & Hno). unfold MAX_TASKS in Hi. apply wp_bind, get_task_ok; [done|lia|].
    destruct (Z.eqb_spec (id (slot s i)) k) as [E|E].
    + apply wp_bind, set_task_ok; [done|lia|]. apply wp_ret, wp_ret. right. exists i. split_and!; done || lia.
    + apply wp_ret. split; [done|]. intros j Hj. destruct (decide (j = i)) as [->|]; [done|]. apply Hno. lia.
  - intros t (-> & Hno). apply wp_ret. by left.
Qed.

(** ** The properties of the scheduler *)

Section properties.
Context {X : Type} `{Console X} (timer_get_ticks : X → Z) (run : Z → comp (sched * X) unit).

(** Running the current task: nothing for a null function, else RUNNING
    around the call and READY after it. *)
Definition dispatch (s1 : sched) (x : X) : outcome (unit * (sched * X)) :=
  let i := current_task_id s1 in let t := slot s1 i in
  if function t =? 0 then Ret (tt, (s1, x))
  else (run (function t);; finish_task) (upd s1 i (with_state TASK_RUNNING t), x).

(** C7. Round robin.  [task_yield] moves to the first task after the
    current one that is READY and not asleep, clears its finished sleep,
    leaves every other slot alone and runs it; when no task can run it ends up
    where it started and runs the current task again, whatever its state. *)
Theorem yield_round_robin (s : sched) (x : X) :
  sched_wf s →
  (∃ i s1, first_runnable (timer_get_ticks x) s i ∧ current_task_id s1 = i ∧
     slot s1 i = cleared (slot s i) ∧ (∀ j, 0 ≤ j < 32 → j ≠ i → slot s1 j = slot s j) ∧
     task_yield timer_get_ticks run (s, x) = dispatch s1 x) ∨
  (skipped (timer_get_ticks x) s 32 ∧ task_yield timer_get_ticks run (s, x) = dispatch s x).
Proof.
  intros Hwf. pose proof (yield_eq timer_get_ticks run s x Hwf) as Heq. cbn zeta in Heq.
  unfold chosen in Heq. pose proof (pick_spec (timer_get_ticks x) s) as Hp.
  destruct (pick (timer_get_ticks x) s) as [i|]; [left|by right].
  assert (Hi : 0 ≤ i < 32) by (destruct Hp as (k & _ & -> & _); dlia).
  exists i, (picked s (Some i)). split; [done|]. unfold picked in *. unfold cleared.
  destruct (0 <? wake_time (slot s i)) eqn:E.
  - change (MkSched (<[Z.to_nat i := with_wake 0 (slot s i)]> (tasks s)) (next_task_id s) i) with
      (MkSched (tasks (upd s i (with_wake 0 (slot s i)))) (next_task_id s) i) in *.
    assert (Hs : ∀ j, 0 ≤ j < 32 →
      slot (MkSched (tasks (upd s i (with_wake 0 (slot s i)))) (next_task_id s) i) j =
      if j =? i then with_wake 0 (slot s i) else slot s j).
    { intros j Hj. by apply (upd_slot s i (with_wake 0 (slot s i)) Hwf Hi). }
    split_and!; [done|by rewrite Hs, Z.eqb_refl| |done].
    intros j Hj Hne. rewrite Hs by done. by destruct (Z.eqb_spec j i).
  - split_and!; done.
Qed.

(** C8. No starvation.  If task functions return, leave the scheduler's
    position alone and do not touch slot [i] except [i]'s own, then a task
    that is READY and awake is the one selected within 32 yields. *)
Theorem yield_fair (i : Z) (s : sched) (x : X) :
  polite run i → sched_wf s → 0 ≤ i < 32 → ready_now s i →
  ∃ k st, (1 ≤ k ≤ 32)%nat ∧ yields timer_get_ticks run k (s, x) = Ret (tt, st) ∧
    current_task_id st.1 = i.
Proof.
  intros Hpol Hwf Hi Hr. apply yields_ok; [done|done|done|done|]. unfold distance. dlia.
Qed.
End properties.

(** The life of a task.  On a table with distinct identifiers
    [task_create] answers -1 exactly when slots 1 to 31 are all taken, and then
    changes nothing; otherwise it answers a new identifier, under which
    [task_get] finds the task in the first dead slot, READY and named, until
    [task_kill] of that identifier kills it and no other. *)
Theorem task_lifecycle (nm : list Z) (fn prio : Z) (s : sched) :
  ids_ok s → next_task_id s < 2 ^ 31 →
  (task_create nm fn prio s = Ret (-1, s) ∧ (∀ i, 1 ≤ i < 32 → ¬ dead s i)) ∨
  (∃ i s' s'', let n := next_task_id s in
     task_create nm fn prio s = Ret (n, s') ∧ ids_ok s' ∧ 1 ≤ i < 32 ∧ dead s i ∧
     (∀ j, 0 ≤ j < 32 → id (slot s j) ≠ n) ∧
     slot s' i = created nm fn prio n (slot s i) ∧ task_get n s' = Ret (Some i, s') ∧
     task_kill n s' = Ret (tt, s'') ∧ task_get n s'' = Ret (None, s'') ∧
     (∀ j, 0 ≤ j < 32 → j ≠ i → slot s'' j = slot s j)).
Proof.
  intros Hids Hn.
  destruct (proj1 (wp_run _ _ _) (create_ok nm fn prio s Hids Hn)) as (r & s' & Hrun & Hres).
  destruct Hres as [(-> & -> & Hfull)|(-> & i & Hi & Hdead & _ & Es')]; [by left|right].
  pose proof (io_wf s Hids) as Hwf. pose proof (advanced_wf s Hwf) as Hwfa.
  pose proof (create_ids nm fn prio s i Hids Hn Hi) as Hids'. rewrite <-Es' in Hids'.
  assert (Hslot : ∀ j, 0 ≤ j < 32 → slot s' j =
    if j =? i then created nm fn prio (next_task_id s) (slot s i) else slot s j).
  { intros j Hj. rewrite Es', upd_slot by (done || lia). done. }
  assert (Hold : ∀ j, 0 ≤ j < 32 → id (slot s j) ≠ next_task_id s).
  { intros j Hj. pose proof (io_range s Hids j Hj). lia. }
  assert (Huniq : ∀ j, 0 ≤ j < 32 → id (slot s' j) = next_task_id s → j = i).
  { intros j Hj E. rewrite Hslot in E by done. destruct (Z.eqb_spec j i); [done|]. by destruct (Hold j Hj). }
  assert (Hsi : slot s' i = created nm fn prio (next_task_id s) (slot s i))
    by (rewrite Hslot, Z.eqb_refl by lia; done).
  destruct (proj1 (wp_run _ _ _) (get_ok (next_task_id s) s' (io_wf s' Hids'))) as (g & t & Hget & -> & Hg).
  destruct (proj1 (wp_run _ _ _) (kill_ok (next_task_id s) s' (io_wf s' Hids'))) as ([] & s'' & Hkill & Hk).
  assert (Es'' : s'' = upd s' i (with_state TASK_DEAD (slot s' i))).
  { destruct Hk as [(_ & Hno)|(j & Hj & Hjid & _ & ->)].
    - exfalso. apply (Hno i); [lia|]. by rewrite Hsi.
    - by rewrite (Huniq j Hj Hjid). }
  pose proof (upd_wf s' i (with_state TASK_DEAD (slot s' i)) (io_wf s' Hids')) as Hwf''. rewrite <-Es'' in Hwf''.
  assert (Hslot'' : ∀ j, 0 ≤ j < 32 → slot s'' j = if j =? i then with_state TASK_DEAD (slot s' i) else slot s' j).
  { intros j Hj. rewrite Es''. apply upd_slot; [apply Hids'|lia|done]. }
  destruct (proj1 (wp_run _ _ _) (get_ok (next_task_id s) s'' Hwf'')) as (g'' & t & Hget'' & -> & Hg'').
  exists i, s', s''. cbn zeta. split_and!; try done; try lia.
  - destruct g as [j|]; [destruct Hg as (Hj & Hjid & _); by rewrite (Huniq j Hj Hjid) in Hget|].
    exfalso. specialize (Hg i ltac:(lia)). unfold dead in Hg. rewrite Hsi in Hg. by specialize (Hg eq_refl).
  - destruct g'' as [j|]; [|done]. exfalso. destruct Hg'' as (Hj & Hjid & Hlive).
    unfold dead in Hlive. rewrite Hslot'' in Hjid, Hlive by done.
    destruct (Z.eqb_spec j i); [by apply Hlive|]. by apply Huniq in Hjid.
  - intros j Hj Hne. rewrite Hslot'' by done. destruct (Z.eqb_spec j i) as [|Hji]; [done|].
    rewrite Hslot by done. by destruct (Z.eqb_spec j i).
Qed.

(** *** Instances *)

Definition idle_demo : task := MkTask 0 idle_name TASK_READY 0 0 0 0.
Definition dead_demo : task := MkTask 0 (replicate 32 0) TASK_DEAD 0 0 0 0.
Definition busy_demo : task := MkTask 1 (replicate 32 0) TASK_READY 5 0x1000 0 0.
Definition sched_demo : sched := MkSched ([idle_demo; busy_demo] ++ replicate 30 dead_demo) 2 0.
#[export] Instance no_console : Console unit := λ _ x, x.

Lemma sched_demo_wf : sched_wf sched_demo.
Proof. constructor; [done|simpl; lia]. Qed.

(** Booting and creating the first task gives that table. *)
Example boot_demo :
  (task_init;; task_create [] 0x1000 5) sched_boot = Ret (1, sched_demo).
Proof. vm_compute. reflexivity. Qed.

Lemma slot_demo i : 0 ≤ i < 32 → slot sched_demo i = if i =? 0 then idle_demo else if i =? 1 then busy_demo else dead_demo.
Proof.
  intros Hi. destruct (Z.eqb_spec i 0) as [->|]; [done|]. destruct (Z.eqb_spec i 1) as [->|]; [done|].
  unfold slot, sched_demo. cbn [tasks]. rewrite nth_lookup, lookup_app_r by (cbn [length]; lia).
  cbn [length]. rewrite lookup_replicate_2 by lia. done.
Qed.

Lemma ids_demo : ids_ok sched_demo.
Proof.
  constructor; [apply sched_demo_wf| |done|].
  - intros i Hi. rewrite slot_demo by done. destruct (i =? 0), (i =? 1); simpl; lia.
  - intros i j Hi Hj. rewrite !slot_demo by done.
    destruct (Z.eqb_spec i 0), (Z.eqb_spec i 1), (Z.eqb_spec j 0), (Z.eqb_spec j 1); simpl; intros; lia || (by right) || (left; lia).
Qed.

Lemma yield_round_robin_witness :
  (∃ i s1, first_runnable 7 sched_demo i ∧ current_task_id s1 = i ∧
     slot s1 i = cleared (slot sched_demo i) ∧ (∀ j, 0 ≤ j < 32 → j ≠ i → slot s1 j = slot sched_demo j) ∧
     task_yield (λ _, 7) (λ _, mret tt) (sched_demo, tt) = dispatch (λ _, mret tt) s1 tt) ∨
  (skipped 7 sched_demo 32 ∧
     task_yield (λ _, 7) (λ _, mret tt) (sched_demo, tt) = dispatch (λ _, mret tt) sched_demo tt).
Proof. apply (yield_round_robin (λ _ : unit, 7) (λ _, mret tt) sched_demo tt). apply sched_demo_wf. Defined.

Lemma yield_fair_witness :
  ∃ k st, (1 ≤ k ≤ 32)%nat ∧ yields (λ _ : unit, 7) (λ _, mret tt) k (sched_demo, tt) = Ret (tt, st) ∧
    current_task_id st.1 = 1.
Proof.
  apply (yield_fair (λ _ : unit, 7) (λ _, mret tt) 1 sched_demo tt).
  - intros f st Hwf. done.
  - apply sched_demo_wf.
  - lia.
  - done.
Defined.

Lemma task_lifecycle_witness :
  (task_create [104; 105] 0x2000 1 sched_demo = Ret (-1, sched_demo) ∧ (∀ i, 1 ≤ i < 32 → ¬ dead sched_demo i)) ∨
  (∃ i s' s'', let n := next_task_id sched_demo in
     task_create [104; 105] 0x2000 1 sched_demo = Ret (n, s') ∧ ids_ok s' ∧ 1 ≤ i < 32 ∧ dead sched_demo i ∧
     (∀ j, 0 ≤ j < 32 → id (slot sched_demo j) ≠ n) ∧
     slot s' i = created [104; 105] 0x2000 1 n (slot sched_demo i) ∧ task_get n s' = Ret (Some i, s') ∧
     task_kill n s' = Ret (tt, s'') ∧ task_get n s'' = Ret (None, s'') ∧
     (∀ j, 0 ≤ j < 32 → j ≠ i → slot s'' j = slot sched_demo j)).
Proof. apply (task_lifecycle [104; 105] 0x2000 1 sched_demo); [apply ids_demo | simpl; lia]. Defined.
