(* ===== verification/Arch.v ===== *)
(** * Arch: descriptor tables, APIC set-up and ACPI tables
    (src/arch/x86_64/gdt.c, idt.c, acpi.c, include/gdt.h, idt.h, acpi.h)

    The flush, load and MSR instructions, the page mapper and the PIT
    programming belong to other components and are arguments, on the state of
    the whole system; memory that the ACPI parser reads is a byte-addressed
    function. *)

From Stdlib Require Import ZArith Lia String.
From stdpp Require Import base numbers list option strings.
From S2P Require Import Prelude Interfaces.
Open Scope Z_scope.

(** ** Global descriptor table *)

Record gdt_entry := MkGdt {
  limit_low : Z; g_base_low : Z; base_middle : Z; access : Z; granularity : Z; g_base_high : Z
}.
Definition gdt_zero : gdt_entry := MkGdt 0 0 0 0 0 0.

Record gdt_state := MkGdtState { gdt : list gdt_entry; gp_limit : Z; gp_base : Z }.

Definition GDT_ACCESS_PRESENT : Z := 0x80.
Definition GDT_ACCESS_RING0 : Z := 0x00.
Definition GDT_ACCESS_RING3 : Z := 0x60.
Definition GDT_ACCESS_CODE : Z := 0x1A.
Definition GDT_ACCESS_DATA : Z := 0x12.
Definition GDT_FLAG_64BIT : Z := 0x20.

Definition gdt_set_gate (num base limit acc gran : Z) : comp gdt_state unit :=
  s ← get;
  l ← must (zset (gdt s) num
    (MkGdt (Z.land limit 0xFFFF) (Z.land base 0xFFFF) (Z.land (Z.shiftr base 16) 0xFF) acc
       (Z.lor (Z.land (Z.shiftr limit 16) 0x0F) (Z.land gran 0xF0))
       (Z.land (Z.shiftr base 24) 0xFF)));
  put (MkGdtState l (gp_limit s) (gp_base s)).

Definition init_gdt (gdt_addr : Z) (gdt_flush : comp gdt_state unit) : comp gdt_state unit :=
  modify (λ s, MkGdtState (gdt s) (8 * 3 - 1) gdt_addr);;
  gdt_set_gate 0 0 0 0 0;;
  gdt_set_gate 1 0 0 (Z.lor GDT_ACCESS_PRESENT (Z.lor GDT_ACCESS_RING0 GDT_ACCESS_CODE)) GDT_FLAG_64BIT;;
  gdt_set_gate 2 0 0 (Z.lor GDT_ACCESS_PRESENT (Z.lor GDT_ACCESS_RING0 GDT_ACCESS_DATA)) 0;;
  gdt_flush.

(** ** Interrupt descriptor table *)

Record idt_entry := MkIdt {
  base_low : Z; sel : Z; ist : Z; flags : Z; base_mid : Z; base_high : Z; reserved : Z
}.
Definition idt_zero : idt_entry := MkIdt 0 0 0 0 0 0 0.

(** The table, its pointer, and the two memory-mapped register windows:
    address (0 for a null pointer) and the writes made, latest first. *)
Record arch := MkArch {
  idt : list idt_entry;
  idtp_limit : Z;
  idtp_base : Z;
  lapic_ptr : Z;
  ioapic_ptr : Z;
  mmio : list (Z * Z);
  port_writes : list (Z * Z)
}.

Definition set_idt l s := MkArch l (idtp_limit s) (idtp_base s) (lapic_ptr s) (ioapic_ptr s) (mmio s) (port_writes s).
Definition set_lapic p s := MkArch (idt s) (idtp_limit s) (idtp_base s) p (ioapic_ptr s) (mmio s) (port_writes s).
Definition set_ioapic p s := MkArch (idt s) (idtp_limit s) (idtp_base s) (lapic_ptr s) p (mmio s) (port_writes s).
Definition mmio_write (a v : Z) : comp arch unit :=
  modify (λ s, MkArch (idt s) (idtp_limit s) (idtp_base s) (lapic_ptr s) (ioapic_ptr s) ((a, u32 v) :: mmio s) (port_writes s)).
Definition outb (port v : Z) : comp arch unit :=
  modify (λ s, MkArch (idt s) (idtp_limit s) (idtp_base s) (lapic_ptr s) (ioapic_ptr s) (mmio s) ((port, u8 v) :: port_writes s)).

Definition gate (base sl fl : Z) : idt_entry :=
  MkIdt (Z.land base 0xFFFF) sl 0 fl (Z.land (Z.shiftr base 16) 0xFFFF)
    (Z.land (Z.shiftr base 32) 0xFFFFFFFF) 0.
Definition idt_set_gate (num base sl fl : Z) : comp arch unit :=
  s ← get;
  l ← must (zset (idt s) (u8 num) (gate base sl fl));
  put (set_idt l s).

Definition pic_disable : comp arch unit := outb 0x21 0xFF;; outb 0xA1 0xFF.

Definition apic_eoi : comp arch unit :=
  s ← get;
  if negb (lapic_ptr s =? 0) then mmio_write (lapic_ptr s + 0xB0) 0 else mret tt.

(** Two writes: the register select, then the window. *)
Definition ioapic_write (reg val : Z) : comp arch unit :=
  s ← get;
  mmio_write (ioapic_ptr s) (u8 reg);;
  mmio_write (ioapic_ptr s + 16) val.

Section boot.
(** The whole system, in which these functions call other components. *)
Context {K : Type} `{Part arch K}.
Context (rdmsr : Z → comp K Z) (vmm_map_page : Z → Z → comp K unit).
Context (timer_init : Z → comp K unit) (get_timer_gsi : comp K Z).

Definition on_arch {A} (m : comp arch A) : comp K A := in_part m.

Definition init_apic : comp K unit :=
  apic_msr ← rdmsr 0x1B;
  let apic_phys := Z.land apic_msr 0xFFFFF000 in
  vmm_map_page 0x800000000 apic_phys;;
  on_arch (modify (set_lapic 0x800000000));;
  base ← on_arch (gets lapic_ptr);
  on_arch (mmio_write (base + 0xF0) 0x1FF).

Definition init_ioapic : comp K unit :=
  vmm_map_page 0x800001000 0xFEC00000;;
  on_arch (modify (set_ioapic 0x800001000));;
  on_arch (ioapic_write 0x12 33);;
  on_arch (ioapic_write 0x13 0);;
  timer_gsi ← get_timer_gsi;
  let timer_reg_low := u32 (0x10 + timer_gsi * 2) in
  let timer_reg_high := u32 (timer_reg_low + 1) in
  on_arch (ioapic_write timer_reg_low 32);;
  on_arch (ioapic_write timer_reg_high 0);;
  on_arch (ioapic_write 0x15 0).

Definition init_idt (idt_addr dummy page_fault timer_asm keyboard_asm : Z) (idt_load : comp K unit)
    : comp K unit :=
  on_arch (modify (λ s, MkArch (idt s) (16 * 256 - 1) idt_addr (lapic_ptr s) (ioapic_ptr s) (mmio s) (port_writes s)));;
  on_arch (for_each 0 256 (λ i, idt_set_gate i dummy 0x08 0x8E));;
  idt_load;;
  on_arch pic_disable;;
  init_apic;;
  init_ioapic;;
  timer_init 100;;
  on_arch (idt_set_gate 14 page_fault 0x08 0x8E);;
  on_arch (idt_set_gate 32 timer_asm 0x08 0x8E);;
  on_arch (idt_set_gate 33 keyboard_asm 0x08 0x8E).
End boot.

(** ** ACPI: the timer's interrupt source override *)

Section acpi.
Context (mem : memory).

Definition string_cmp (a : Z) (b : list Z) (len : Z) : bool :=
  forallb (λ k, mem (a + Z.of_nat k) =? nth k b 0) (seq 0 (Z.to_nat len)).

Definition is_xsdt (rsdt : Z) : bool := string_cmp rsdt (bytes_of "XSDT") 4.
Definition acpi_length (t : Z) : Z := mld32 mem (t + 4).
Definition sizeof_header : Z := 36.

(** The root table, [None] for the early returns. *)
Definition acpi_root (rsdp : Z) : option Z :=
  if rsdp =? 0 then None
  else if negb (string_cmp rsdp (bytes_of "RSD PTR ") 8) then None
  else
    let rsdt := mld32 mem (rsdp + 16) in
    if (rsdt =? 0) || negb (string_cmp rsdt (bytes_of "RSDT") 4) then
      let xsdt := mld64 mem (rsdp + 24) in
      if (2 <=? mem (rsdp + 15)) && negb (xsdt =? 0) then
        if negb (is_xsdt xsdt) then None else Some xsdt
      else None
    else Some rsdt.

Definition acpi_table (rsdt i : Z) : Z :=
  if is_xsdt rsdt then mld64 mem (rsdt + sizeof_header + u32 (i * 8))
  else mld32 mem (rsdt + sizeof_header + u32 (i * 4)).

(** The first table whose signature is [APIC]. *)
Definition find_madt (rsdt : Z) : comp Z (option Z) :=
  let entries := u32 (u64 (acpi_length rsdt - sizeof_header) / (if is_xsdt rsdt then 8 else 4)) in
  loop (λ i,
    if i <? entries then
      let table := acpi_table rsdt i in
      if negb (table =? 0) && string_cmp table (bytes_of "APIC") 4 then mret (inr (Some table))
      else mret (inl (u32 (i + 1)))
    else mret (inr None)) 0.

(** The records from [ptr] to [fin]; the state is [system_timer_gsi]. *)
Definition madt_records (ptr fin : Z) : comp Z unit :=
  loop (λ ptr,
    if ptr <? fin then
      let type := mem ptr in
      let length := mem (ptr + 1) in
      (if type =? 2 then
         if (mem (ptr + 2) =? 0) && (mem (ptr + 3) =? 0) then put (mld32 mem (ptr + 4)) else mret tt
       else mret tt);;
      mret (inl (u64 (ptr + length)))
    else mret (inr tt)) ptr.

Definition acpi_init (rsdp_addr : Z) : comp Z unit :=
  match acpi_root rsdp_addr with
  | None => mret tt
  | Some rsdt =>
      madt ← find_madt rsdt;
      match madt with
      | None => mret tt
      | Some madt => madt_records (madt + sizeof_header + 8) (madt + acpi_length madt)
      end
  end.
End acpi.

Definition get_timer_gsi : comp Z Z := get.
Definition system_timer_gsi_boot : Z := 2.

(** ** Specifications *)

(** The handler address the processor assembles from a gate. *)
Definition gate_base (e : idt_entry) : Z :=
  base_low e + Z.shiftl (base_mid e) 16 + Z.shiftl (base_high e) 32.

Lemma gate_roundtrip base sl fl : 0 ≤ base < 2 ^ 64 → gate_base (gate base sl fl) = base.
Proof.
  intros Hb. unfold gate_base, gate. cbn [base_low base_mid base_high].
  change 0xFFFF with (Z.ones 16). change 0xFFFFFFFF with (Z.ones 32).
  rewrite !Z.land_ones, !Z.shiftr_div_pow2, !Z.shiftl_mul_pow2 by lia.
  change (2 ^ 16) with 65536. change (2 ^ 32) with 4294967296. dlia.
Qed.

Lemma set_gate_ok num base sl fl (s : arch) Q :
  0 ≤ num < 256 → length (idt s) = 256%nat →
  Q tt (set_idt (<[Z.to_nat num := gate base sl fl]> (idt s)) s) → wp (idt_set_gate num base sl fl) Q s.
Proof.
  intros Hn Hl HQ. unfold idt_set_gate. apply wp_bind, wp_get, wp_bind. eapply wp_must.
  { unfold zset, u8. rewrite Z.mod_small by lia. rewrite Hl.
    destruct (Z.leb_spec 0 num); [|lia]. destruct (Z.ltb_spec num (Z.of_nat 256)); [done|lia]. }
  by apply wp_put.
Qed.

(** *** Interrupt routing *)

(** Where vector [v] goes once the table is loaded. *)
Definition routes (s : arch) (v h : Z) : Prop :=
  ∃ e, idt s !! Z.to_nat v = Some e ∧ gate_base e = h ∧ sel e = 0x08 ∧ flags e = 0x8E ∧ ist e = 0.

(** Callees that leave the table alone. *)
Abbreviation keeps_idt m := (keeps (λ k, idt (part k)) m).

Section boot_facts.
Context {K : Type} `{Part arch K}.
Context (rdmsr : Z → comp K Z) (map_page : Z → Z → comp K unit).
Context (timer_init : Z → comp K unit) (timer_gsi : comp K Z) (idt_load : comp K unit).
Context (Hrd : ∀ r, keeps_idt (rdmsr r)) (Hmap : ∀ a b, keeps_idt (map_page a b)).
Context (Htimer : ∀ f, keeps_idt (timer_init f)) (Hgsi : keeps_idt timer_gsi) (Hload : keeps_idt idt_load).

Lemma keeps_on {A} (m : comp arch A) : keeps idt m → keeps_idt (on_arch m).
Proof. apply keeps_in_part. Qed.
Lemma keeps_ioapic r v : keeps_idt (on_arch (ioapic_write r v)).
Proof. apply keeps_on. by intros s. Qed.

Lemma init_apic_keeps : keeps_idt (init_apic rdmsr map_page).
Proof using Hrd Hmap.
  unfold init_apic. apply keeps_bind; [done|]. intros msr. cbn zeta. apply keeps_bind; [done|]. intros [].
  apply keeps_bind; [apply keeps_on; by intros s|]. intros []. apply keeps_bind; [apply keeps_on; by intros s|].
  intros b. apply keeps_on. by intros s.
Qed.

Lemma init_ioapic_keeps : keeps_idt (init_ioapic map_page timer_gsi).
Proof using Hmap Hgsi.
  unfold init_ioapic. apply keeps_bind; [done|]. intros []. apply keeps_bind; [apply keeps_on; by intros s|]. intros [].
  do 2 (apply keeps_bind; [apply keeps_ioapic|]; intros []). apply keeps_bind; [done|]. intros g. cbn zeta.
  do 2 (apply keeps_bind; [apply keeps_ioapic|]; intros []). apply keeps_ioapic.
Qed.

Lemma fill_ok dummy (s : arch) :
  length (idt s) = 256%nat →
  wp (for_each 0 256 (λ i, idt_set_gate i dummy 0x08 0x8E))
    (λ _ s', idt s' = replicate 256 (gate dummy 0x08 0x8E)) s.
Proof using Type.
  intros Hl.
  apply (wp_for_each (λ i t, length (idt t) = 256%nat ∧
    ∀ k, 0 ≤ k < i → idt t !! Z.to_nat k = Some (gate dummy 0x08 0x8E))).
  - lia.
  - split; [done|]. intros; lia.
  - intros i t Hi (Hlt & Hk). apply set_gate_ok; [lia|done|]. simpl. split; [by rewrite length_insert|].
    intros k Hki. destruct (decide (k = i)) as [->|].
    + by rewrite list_lookup_insert_eq by lia.
    + rewrite list_lookup_insert_ne by lia. apply Hk. lia.
  - intros t (Hlt & Hk). apply list_eq_same_length with 256%nat; [by rewrite length_replicate|done|].
    intros k x y Hlk Hx Hy. rewrite lookup_replicate_2 in Hy by done.
    specialize (Hk (Z.of_nat k) ltac:(lia)). rewrite Nat2Z.id in Hk. congruence.
Qed.

Lemma routes_insert (s : arch) l v n h :
  length l = 256%nat → 0 ≤ n < 256 → 0 ≤ v < 256 → 0 ≤ h < 2 ^ 64 →
  (v ≠ n → routes (set_idt l s) v h) →
  ∀ h', 0 ≤ h' < 2 ^ 64 →
  routes (set_idt (<[Z.to_nat n := gate h' 0x08 0x8E]> l) s) v (if v =? n then h' else h).
Proof using Type.
  intros Hl Hn Hv Hh Hr h' Hh'. unfold routes in *. simpl in *. destruct (Z.eqb_spec v n) as [->|Hne].
  - rewrite list_lookup_insert_eq by lia. exists (gate h' 0x08 0x8E).
    split_and!; try done. by apply gate_roundtrip.
  - destruct (Hr Hne) as (e & He & Hp). rewrite list_lookup_insert_ne by lia. by exists e.
Qed.

(** The handler of each vector. *)
Definition handler_of (dummy page_fault timer_asm keyboard_asm v : Z) : Z :=
  if v =? 33 then keyboard_asm else if v =? 32 then timer_asm else if v =? 14 then page_fault else dummy.

Lemma init_idt_ok addr dummy pf ti kb (k : K) :
  length (idt (part k)) = 256%nat → 0 ≤ dummy < 2 ^ 64 → 0 ≤ pf < 2 ^ 64 → 0 ≤ ti < 2 ^ 64 → 0 ≤ kb < 2 ^ 64 →
  wp (init_idt rdmsr map_page timer_init timer_gsi addr dummy pf ti kb idt_load)
    (λ _ k', ∀ v, 0 ≤ v < 256 → routes (part k') v (handler_of dummy pf ti kb v)) k.
Proof using All.
  intros Hl Hd Hpf Hti Hkb. unfold init_idt. apply wp_bind, wp_in_part, wp_modify. set (s0 := MkArch _ _ _ _ _ _ _).
  apply wp_bind, wp_in_part. rewrite part_put. eapply wp_mono; [by apply fill_ok|]. intros [] s1 E1.
  assert (Hkeep : ∀ (m m' : comp K unit) t Q, keeps_idt m →
    idt (part t) = idt s1 → (∀ t', idt (part t') = idt s1 → wp m' Q t') → wp (m;; m') Q t).
  { intros m m' t Q Hm Ht Hk. apply wp_bind. eapply wp_mono; [apply Hm|]. intros [] t' Ht'. apply Hk. congruence. }
  apply Hkeep; [done|by rewrite part_put|]. intros s2 E2.
  apply Hkeep; [apply keeps_on; by intros t|done|]. intros s3 E3. apply Hkeep; [apply init_apic_keeps|done|]. intros s4 E4.
  apply Hkeep; [apply init_ioapic_keeps|done|]. intros s5 E5. apply Hkeep; [done|done|]. intros s6 E6.
  rewrite E1 in E6. assert (Hl6 : length (idt (part s6)) = 256%nat) by (by rewrite E6, length_replicate).
  apply wp_bind, wp_in_part, set_gate_ok; [lia|done|].
  apply wp_bind, wp_in_part; rewrite part_put; apply set_gate_ok; [lia|by cbn; rewrite length_insert|].
  apply wp_in_part; rewrite part_put; apply set_gate_ok; [lia|by cbn; rewrite !length_insert|]. rewrite part_put. intros v Hv. unfold handler_of. cbn [idt set_idt].
  apply routes_insert; [by rewrite !length_insert|lia|done|repeat case_match; lia| |done]. intros _.
  apply routes_insert; [by rewrite !length_insert|lia|done|repeat case_match; lia| |done]. intros _.
  apply routes_insert; [done|lia|done|lia| |done]. intros _.
  exists (gate dummy 0x08 0x8E). cbn [idt set_idt]. rewrite E6, lookup_replicate_2 by lia.
  split_and!; try done. by apply gate_roundtrip.
Qed.
End boot_facts.

(** *** The MADT *)

(** A record: its type and the bytes after the two-byte header. *)
Definition rec_bytes (r : Z * list Z) : list Z := r.1 :: Z.of_nat (2 + length r.2) :: r.2.
Definition rec_ok (r : Z * list Z) : Prop :=
  (length r.2 ≤ 253)%nat ∧ (r.1 = 2 → (6 ≤ length r.2)%nat).
Definition overrides (r : Z * list Z) : bool :=
  (r.1 =? 2) && (nth 0 r.2 0 =? 0) && (nth 1 r.2 0 =? 0).
Definition rec_gsi (r : Z * list Z) : Z := le_dec (take 4 (drop 2 r.2)).
(** The last override of ISA interrupt 0 wins. *)
Definition timer_override (rs : list (Z * list Z)) (g : Z) : Z :=
  foldl (λ g r, if overrides r then rec_gsi r else g) g rs.

(** [bs] is what memory holds from [a] on. *)
Definition holds (mem : memory) (a : Z) (bs : list Z) : Prop :=
  ∀ k b, bs !! k = Some b → mem (a + Z.of_nat k) = b.

Lemma holds_app mem a l1 l2 :
  holds mem a (l1 ++ l2) → holds mem a l1 ∧ holds mem (a + Z.of_nat (length l1)) l2.
Proof.
  intros Hh. split; intros k b Hb.
  - apply Hh. by apply lookup_app_l_Some.
  - rewrite <-Z.add_assoc, <-Nat2Z.inj_add. apply Hh. rewrite lookup_app_r by lia.
    rewrite <-Hb. f_equal. lia.
Qed.

Lemma holds_nth mem a l k : holds mem a l → (k < length l)%nat → mem (a + Z.of_nat k) = nth k l 0.
Proof.
  intros Hh Hk. destruct (lookup_lt_is_Some_2 l k Hk) as [b Hb]. rewrite (Hh k b Hb), nth_lookup, Hb. done.
Qed.

Lemma rec_read mem a r :
  holds mem a (rec_bytes r) → rec_ok r →
  mem a = r.1 ∧ mem (a + 1) = Z.of_nat (2 + length r.2) ∧
  (r.1 = 2 → mem (a + 2) = nth 0 r.2 0 ∧ mem (a + 3) = nth 1 r.2 0 ∧ mld32 mem (a + 4) = rec_gsi r).
Proof.
  destruct r as [ty p]. unfold rec_ok, rec_gsi. cbn [fst snd]. intros Hh [Hlen H2]. unfold rec_bytes in Hh. cbn [fst snd] in Hh.
  pose proof (Hh 0%nat _ eq_refl) as E0. pose proof (Hh 1%nat _ eq_refl) as E1.
  rewrite Z.add_0_r in E0. split; [done|]. split; [done|]. intros E. specialize (H2 E).
  assert (Hm : ∀ k, (k < length p)%nat → mem (a + Z.of_nat (2 + k)) = nth k p 0).
  { intros k Hk. rewrite (holds_nth _ _ _ (2 + k) Hh); [done|]. simpl. lia. }
  split; [apply (Hm 0%nat); lia|]. split; [apply (Hm 1%nat); lia|].
  unfold mld32, mem_bytes. simpl seq. cbn [map].
  replace (a + 4 + Z.of_nat 0) with (a + Z.of_nat (2 + 2)) by lia.
  replace (a + 4 + Z.of_nat 1) with (a + Z.of_nat (2 + 3)) by lia.
  replace (a + 4 + Z.of_nat 2) with (a + Z.of_nat (2 + 4)) by lia.
  replace (a + 4 + Z.of_nat 3) with (a + Z.of_nat (2 + 5)) by lia. rewrite !Hm by lia.
  do 6 (destruct p as [|? p]; [simpl in H2; lia|]). done.
Qed.

Lemma length_recs rs : Forall rec_ok rs → Z.of_nat (length (concat (map rec_bytes rs))) ≤ 255 * Z.of_nat (length rs).
Proof.
  induction 1 as [|r rs [Hr _] _ IH]; [done|]. cbn [map concat length]. rewrite length_app.
  unfold rec_bytes at 1. cbn [length]. lia.
Qed.

Lemma madt_records_ok mem rs a g :
  Forall rec_ok rs → holds mem a (concat (map rec_bytes rs)) → 0 ≤ a →
  a + Z.of_nat (length (concat (map rec_bytes rs))) < 2 ^ 64 →
  wp (madt_records mem a (a + Z.of_nat (length (concat (map rec_bytes rs)))))
    (λ _ g', g' = timer_override rs g) g.
Proof.
  intros Hok Hh Ha Hfin. set (fin := a + _) in *. unfold madt_records.
  apply (wp_loop (λ p t, ∃ pre post, rs = pre ++ post ∧ holds mem p (concat (map rec_bytes post)) ∧
      p + Z.of_nat (length (concat (map rec_bytes post))) = fin ∧ a ≤ p ∧ t = timer_override pre g)
    (λ p _, fin - p)).
  - exists [], rs. split_and!; done.
  - lia.
  - intros p t (pre & post & _ & _ & E & _). lia.
  - intros p t (pre & post & -> & Hp & Hend & Hle & ->). destruct post as [|r post].
    { cbn in Hend. destruct (Z.ltb_spec p fin); [lia|]. apply wp_ret. by rewrite app_nil_r. }
    cbn [map concat] in Hp, Hend. rewrite length_app in Hend.
    apply holds_app in Hp as [Hr Hrest]. apply Forall_app in Hok as [_ Hok]. inversion Hok as [|? ? Hr' _]; subst.
    destruct (rec_read mem p r Hr Hr') as (E0 & E1 & E2).
    assert (Hlr : Z.of_nat (length (rec_bytes r)) = Z.of_nat (2 + length r.2)) by done.
    destruct (Z.ltb_spec p fin) as [_|]; [|lia].
    assert (Hstep : wp (if mem p =? 2 then
         if (mem (p + 2) =? 0) && (mem (p + 3) =? 0) then put (mld32 mem (p + 4)) else mret tt
       else mret tt) (λ _ t, t = timer_override (pre ++ [r]) g) (timer_override pre g)).
    { unfold timer_override. rewrite foldl_app. cbn [foldl]. unfold overrides. rewrite E0.
      destruct (Z.eqb_spec r.1 2) as [E|]; [|by apply wp_ret].
      destruct (E2 E) as (-> & -> & ->). simpl. destruct (_ && _); [by apply wp_put|by apply wp_ret]. }
    apply wp_bind. eapply wp_mono; [exact Hstep|]. intros [] t ->. apply wp_ret.
    rewrite E1, u64_small by lia. split; [|lia].
    exists (pre ++ [r]), post. rewrite <-Hlr. split_and!; [by rewrite <-app_assoc|done|lia|lia|done].
Qed.

(** ** The properties of the start-up code *)

(** Interrupt routing.  When the callees leave the table alone,
    [init_idt] returns with every one of the 256 vectors present, at ring 0
    in the code segment, its split base fields assembling to the handler
    meant: page faults, the timer and the keyboard at 14, 32 and 33, the dummy
    handler everywhere else. *)
Theorem init_idt_routes {K : Type} `{Part arch K} (rdmsr : Z → comp K Z) (map_page : Z → Z → comp K unit)
    (timer_init : Z → comp K unit) (timer_gsi : comp K Z) (idt_load : comp K unit)
    (addr dummy pf ti kb : Z) (s : K) :
  (∀ r, keeps_idt (rdmsr r)) → (∀ a b, keeps_idt (map_page a b)) → (∀ f, keeps_idt (timer_init f)) →
  keeps_idt timer_gsi → keeps_idt idt_load → length (idt (part s)) = 256%nat →
  0 ≤ dummy < 2 ^ 64 → 0 ≤ pf < 2 ^ 64 → 0 ≤ ti < 2 ^ 64 → 0 ≤ kb < 2 ^ 64 →
  ∃ s', init_idt rdmsr map_page timer_init timer_gsi addr dummy pf ti kb idt_load s = Ret (tt, s') ∧
    ∀ v, 0 ≤ v < 256 → routes (part s') v
      (if v =? 33 then kb else if v =? 32 then ti else if v =? 14 then pf else dummy).
Proof.
  intros Hrd Hmap Htimer Hgsi Hload Hl Hd Hpf Hti Hkb.
  destruct (proj1 (wp_run _ _ _) (init_idt_ok rdmsr map_page timer_init timer_gsi idt_load
    Hrd Hmap Htimer Hgsi Hload addr dummy pf ti kb s Hl Hd Hpf Hti Hkb)) as ([] & s' & Hrun & Hr).
  exists s'. split; [exact Hrun|exact Hr].
Qed.

(** The timer's global interrupt.  On a MADT whose records have the
    lengths they declare, the parser terminates with the interrupt of the last
    source override of ISA interrupt 0, or with what it was before (2 at boot)
    when there is none; a record of length 0 makes it spin for ever. *)
Theorem madt_timer_override (mem : memory) (rs : list (Z * list Z)) (a g : Z) :
  Forall rec_ok rs → holds mem a (concat (map rec_bytes rs)) → 0 ≤ a →
  a + Z.of_nat (length (concat (map rec_bytes rs))) < 2 ^ 64 →
  madt_records mem a (a + Z.of_nat (length (concat (map rec_bytes rs)))) g = Ret (tt, timer_override rs g) ∧
  (∀ m p fin, 0 ≤ p < fin → fin < 2 ^ 64 → m p ≠ 2 → m (p + 1) = 0 → madt_records m p fin g = OutOfFuel).
Proof.
  intros Hok Hh Ha Hfin. split.
  - destruct (proj1 (wp_run _ _ _) (madt_records_ok mem rs a g Hok Hh Ha Hfin)) as ([] & g' & Hrun & ->). done.
  - intros m p fin Hp Hf Ht Hl. apply loop_stuck. destruct (Z.ltb_spec p fin); [|lia].
    apply Z.eqb_neq in Ht. cbn zeta. rewrite Ht. unfold mbind, comp_bind. simpl.
    rewrite Hl, Z.add_0_r, u64_small by lia. reflexivity.
Qed.

Definition arch_demo : arch := MkArch (replicate 256 idt_zero) 0 0 0 0 [] [].

Lemma init_idt_routes_witness :
  ∃ s', init_idt (λ _, mret 0xFEE00900) (λ _ _, mret tt) (λ _, mret tt) (mret 2)
      0x5000 0x1000 0x2000 0x3000 0x4000 (mret tt) arch_demo = Ret (tt, s') ∧
    ∀ v, 0 ≤ v < 256 → routes (part s') v
      (if v =? 33 then 0x4000 else if v =? 32 then 0x3000 else if v =? 14 then 0x2000 else 0x1000).
Proof.
  apply (init_idt_routes (λ _, mret 0xFEE00900) (λ _ _, mret tt) (λ _, mret tt) (mret 2) (mret tt)
    0x5000 0x1000 0x2000 0x3000 0x4000 arch_demo);
    first [lia | apply length_replicate | by repeat intros ?].
Defined.

(** An I/O APIC record, then the override of the timer to interrupt 2. *)
Definition madt_demo : list (Z * list Z) :=
  [(1, [0; 0; 0; 0; 192; 254; 0; 0; 0; 0]); (2, [0; 0; 20; 0; 0; 0; 0; 0])].

Lemma madt_timer_override_witness :
  madt_records (λ k, nth (Z.to_nat k) (concat (map rec_bytes madt_demo)) 0) 0
    (0 + Z.of_nat (length (concat (map rec_bytes madt_demo)))) 2 = Ret (tt, 20) ∧
  (∀ m p fin, 0 ≤ p < fin → fin < 2 ^ 64 → m p ≠ 2 → m (p + 1) = 0 → madt_records m p fin 2 = OutOfFuel).
Proof.
  apply (madt_timer_override (λ k, nth (Z.to_nat k) (concat (map rec_bytes madt_demo)) 0) madt_demo 0 2).
  - repeat constructor; simpl; lia.
  - intros k b Hb. rewrite Z.add_0_l, Nat2Z.id, nth_lookup, Hb. done.
  - lia.
  - reflexivity.
Defined.
