(* ===== verification/Keyboard.v ===== *)
(** * Keyboard: scancode decoding and the key ring (src/drivers/keyboard.c)

    The ring [kbd_buffer] between the interrupt handler (producer) and the
    shell (consumer) is specified as a queue of at most 255 characters. *)

From Stdlib Require Import ZArith Lia.
From stdpp Require Import base numbers list option.
From S2P Require Import Prelude.
Open Scope Z_scope.

Record kbd := MkKbd {
  shift_pressed : bool;
  ctrl_pressed : bool;
  caps_lock : bool;
  kbd_buffer : list Z;
  kbd_head : Z;
  kbd_tail : Z
}.

Definition set_shift b s := MkKbd b (ctrl_pressed s) (caps_lock s) (kbd_buffer s) (kbd_head s) (kbd_tail s).
Definition set_ctrl b s := MkKbd (shift_pressed s) b (caps_lock s) (kbd_buffer s) (kbd_head s) (kbd_tail s).
Definition set_caps b s := MkKbd (shift_pressed s) (ctrl_pressed s) b (kbd_buffer s) (kbd_head s) (kbd_tail s).
Definition set_ring l h t s := MkKbd (shift_pressed s) (ctrl_pressed s) (caps_lock s) l h t.

Definition kbd_boot : kbd := MkKbd false false false (replicate 256 0) 0 0.

(** The two layouts; what the initialisers leave out is 0. *)
Definition kbd_us : list Z :=
  [0; 27; 49; 50; 51; 52; 53; 54; 55; 56; 57; 48; 45; 61; 8;
   9; 113; 119; 101; 114; 116; 121; 117; 105; 111; 112; 91; 93; 10;
   0; 97; 115; 100; 102; 103; 104; 106; 107; 108; 59; 39; 96; 0; 92;
   122; 120; 99; 118; 98; 110; 109; 44; 46; 47; 0; 42; 0; 32] ++ replicate 70 0.
Definition kbd_us_shift : list Z :=
  [0; 27; 33; 64; 35; 36; 37; 94; 38; 42; 40; 41; 95; 43; 8;
   9; 81; 87; 69; 82; 84; 89; 85; 73; 79; 80; 123; 125; 10;
   0; 65; 83; 68; 70; 71; 72; 74; 75; 76; 58; 34; 126; 0; 124;
   90; 88; 67; 86; 66; 78; 77; 60; 62; 63; 0; 42; 0; 32] ++ replicate 70 0.

Definition kbd_put (c : Z) : comp kbd unit :=
  s ← get;
  let next := (kbd_head s + 1) mod 256 in
  if negb (next =? kbd_tail s) then
    l ← must (zset (kbd_buffer s) (kbd_head s) c);
    put (set_ring l next (kbd_tail s) s)
  else mret tt.

Definition kbd_get : comp kbd Z :=
  s ← get;
  if kbd_head s =? kbd_tail s then mret 0
  else
    c ← must (znth (kbd_buffer s) (kbd_tail s));
    put (set_ring (kbd_buffer s) (kbd_head s) ((kbd_tail s + 1) mod 256) s);;
    mret c.

Section handler.
(** Scrolling and the end-of-interrupt belong to other components. *)
Context {X : Type} (scroll_up scroll_down apic_eoi : comp X unit).

Definition in_kbd {A} (m : comp kbd A) : comp (kbd * X) A := zoom fst (λ k s, (k, s.2)) m.
Definition in_rest {A} (m : comp X A) : comp (kbd * X) A := zoom snd (λ x s, (s.1, x)) m.

(** The character of a key press, 0 when it has none. *)
Definition decode (s : kbd) (scancode : Z) : comp kbd Z :=
  c ← must (znth (if shift_pressed s then kbd_us_shift else kbd_us) scancode);
  mret (if caps_lock s && (97 <=? c) && (c <=? 122) then c - 32 else c).

Definition keyboard_handler (scancode : Z) : comp (kbd * X) unit :=
  (if negb (Z.land scancode 0x80 =? 0) then
     let released := Z.land scancode 0x7F in
     (if (released =? 0x2A) || (released =? 0x36) then in_kbd (modify (set_shift false)) else mret tt);;
     (if released =? 0x1D then in_kbd (modify (set_ctrl false)) else mret tt)
   else if (scancode =? 0x2A) || (scancode =? 0x36) then in_kbd (modify (set_shift true))
   else if scancode =? 0x1D then in_kbd (modify (set_ctrl true))
   else if scancode =? 0x3A then in_kbd (modify (λ s, set_caps (negb (caps_lock s)) s))
   else if scancode =? 0x49 then in_rest scroll_up
   else if scancode =? 0x51 then in_rest scroll_down
   else
     s ← in_kbd get;
     if ctrl_pressed s && (scancode =? 0x2E) then in_kbd (kbd_put 3)
     else
       c ← in_kbd (decode s scancode);
       if 0 <? c then in_kbd (kbd_put c) else mret tt);;
  in_rest apic_eoi.
End handler.

(** ** The ring is a queue *)

Record kbd_wf (s : kbd) : Prop := KbdWf {
  kw_len : length (kbd_buffer s) = 256%nat;
  kw_head : 0 ≤ kbd_head s < 256;
  kw_tail : 0 ≤ kbd_tail s < 256
}.

Definition pending (s : kbd) : Z := (kbd_head s - kbd_tail s) mod 256.
Definition slot (s : kbd) (k : Z) : Z := nth (Z.to_nat ((kbd_tail s + k) mod 256)) (kbd_buffer s) 0.
(** The characters waiting, oldest first. *)
Definition queue (s : kbd) : list Z := map (λ k, slot s (Z.of_nat k)) (seq 0 (Z.to_nat (pending s))).

Lemma length_queue s : Z.of_nat (length (queue s)) = pending s.
Proof. unfold queue. rewrite length_map, length_seq. unfold pending. dlia. Qed.

Definition KBD_CAP : Z := 255.

(** The queue specification. *)
Definition q_put (c : Z) (q : list Z) : list Z :=
  if Z.of_nat (length q) <? KBD_CAP then q ++ [c] else q.
Definition q_get (q : list Z) : Z * list Z :=
  match q with [] => (0, []) | c :: q' => (c, q') end.

Lemma queue_nil s : kbd_wf s → (kbd_head s =? kbd_tail s) = true → queue s = [].
Proof.
  intros [_ Hh Ht] E%Z.eqb_eq. unfold queue, pending. rewrite E, Z.sub_diag. done.
Qed.

Lemma kbd_put_ok c s :
  kbd_wf s → wp (kbd_put c) (λ _ s', kbd_wf s' ∧ queue s' = q_put c (queue s) ∧
    shift_pressed s' = shift_pressed s ∧ ctrl_pressed s' = ctrl_pressed s ∧
    caps_lock s' = caps_lock s) s.
Proof.
  intros Hwf. pose proof Hwf as [Hl Hh Ht]. unfold kbd_put. wp_steps.
  unfold q_put, KBD_CAP. rewrite length_queue. unfold pending.
  destruct (Z.eqb_spec ((kbd_head s + 1) mod 256) (kbd_tail s)) as [E|Hne]; simpl.
  { apply wp_ret. destruct (Z.ltb_spec ((kbd_head s - kbd_tail s) mod 256) 255); [dlia|done]. }
  destruct (Z.ltb_spec ((kbd_head s - kbd_tail s) mod 256) 255) as [_|]; [|dlia].
  apply wp_bind. eapply wp_must.
  { unfold zset. rewrite Hl. change (Z.of_nat 256) with 256.
    destruct (Z.leb_spec 0 (kbd_head s)); [|lia]. by destruct (Z.ltb_spec (kbd_head s) 256); [|lia]. }
  apply wp_put. split; [constructor; simpl; [by rewrite length_insert|dlia|done]|].
  split; [|done]. unfold queue, pending. simpl.
  replace (Z.to_nat (((kbd_head s + 1) mod 256 - kbd_tail s) mod 256))
    with (Datatypes.S (Z.to_nat ((kbd_head s - kbd_tail s) mod 256))) by dlia.
  rewrite seq_S, map_app. simpl. f_equal.
  - apply map_ext_in. intros k Hk%in_seq. unfold slot. simpl.
    rewrite !nth_lookup, list_lookup_insert_ne; [done|]. dlia.
  - unfold slot. simpl. rewrite nth_lookup.
    replace (Z.to_nat ((kbd_tail s + Z.of_nat (Z.to_nat ((kbd_head s - kbd_tail s) mod 256))) mod 256))
      with (Z.to_nat (kbd_head s)) by dlia.
    rewrite list_lookup_insert_eq by lia. done.
Qed.

Lemma kbd_get_ok s :
  kbd_wf s → wp kbd_get (λ c s', kbd_wf s' ∧ (c, queue s') = q_get (queue s) ∧
    (shift_pressed s', ctrl_pressed s', caps_lock s') = (shift_pressed s, ctrl_pressed s, caps_lock s)) s.
Proof.
  intros Hwf. pose proof Hwf as [Hl Hh Ht]. unfold kbd_get. wp_steps.
  destruct (kbd_head s =? kbd_tail s) eqn:E.
  { apply wp_ret. rewrite (queue_nil s) by done. done. }
  apply Z.eqb_neq in E. apply wp_bind.
  assert (Hslot : znth (kbd_buffer s) (kbd_tail s) = Some (slot s 0)).
  { unfold znth, slot. destruct (Z.leb_spec 0 (kbd_tail s)); [|lia].
    rewrite Z.add_0_r, Z.mod_small, nth_lookup by lia.
    destruct (lookup_lt_is_Some_2 (kbd_buffer s) (Z.to_nat (kbd_tail s))) as [x ->]; [lia|done]. }
  eapply wp_must; [exact Hslot|]. wp_steps. split; [constructor; simpl; [done|done|dlia]|]. split; [|done].
  unfold queue, pending. cbn [set_ring kbd_head kbd_tail].
  replace (Z.to_nat ((kbd_head s - kbd_tail s) mod 256))
    with (Datatypes.S (Z.to_nat ((kbd_head s - (kbd_tail s + 1) mod 256) mod 256))) by dlia.
  rewrite <-cons_seq, <-seq_shift, map_cons, map_map. unfold q_get. f_equal.
  apply map_ext. intros k. unfold slot. simpl. do 2 f_equal. dlia.
Qed.

(** *** Interleavings of the producer and the consumer *)

Inductive kbd_op := OpPut (c : Z) | OpGet.

(** The characters the gets return, in order. *)
Fixpoint run_ops (ops : list kbd_op) : comp kbd (list Z) :=
  match ops with
  | [] => mret []
  | OpPut c :: ops => kbd_put c;; run_ops ops
  | OpGet :: ops => c ← kbd_get; r ← run_ops ops; mret (c :: r)
  end.
Fixpoint run_spec (ops : list kbd_op) (q : list Z) : list Z * list Z :=
  match ops with
  | [] => ([], q)
  | OpPut c :: ops => run_spec ops (q_put c q)
  | OpGet :: ops =>
      let '(c, q) := q_get q in let '(r, q) := run_spec ops q in (c :: r, q)
  end.

Lemma run_ops_ok ops s :
  kbd_wf s → wp (run_ops ops) (λ r s', kbd_wf s' ∧ (r, queue s') = run_spec ops (queue s)) s.
Proof.
  revert s. induction ops as [|[c|] ops IH]; intros s Hwf; simpl.
  - by apply wp_ret.
  - apply wp_bind. eapply wp_mono; [by apply kbd_put_ok|]. intros [] s' (Hwf' & <- & _). by apply IH.
  - apply wp_bind. eapply wp_mono; [by apply kbd_get_ok|]. intros c s' (Hwf' & Hq & _).
    apply wp_bind. eapply wp_mono; [by apply IH|]. intros r s'' (Hwf'' & Hr). apply wp_ret.
    split; [done|]. rewrite <-Hq. cbn zeta beta iota. by rewrite <-Hr.
Qed.

(** *** Decoding *)

Definition key_char (s : kbd) (scancode : Z) : Z :=
  let c := nth (Z.to_nat scancode) (if shift_pressed s then kbd_us_shift else kbd_us) 0 in
  if caps_lock s && (97 <=? c) && (c <=? 122) then c - 32 else c.

Lemma layout_ok (b : bool) k : 0 ≤ k < 128 →
  ∃ c, znth (if b then kbd_us_shift else kbd_us) k = Some c ∧ 0 ≤ c < 127 ∧
       nth (Z.to_nat k) (if b then kbd_us_shift else kbd_us) 0 = c.
Proof.
  intros Hk. set (l := if b then kbd_us_shift else kbd_us).
  assert (Hl : length l = 128%nat) by (by destruct b).
  assert (Hc : Forall (λ c, 0 ≤ c < 127) l).
  { unfold l. destruct b; unfold kbd_us, kbd_us_shift; repeat (constructor; [lia|]); constructor. }
  destruct (lookup_lt_is_Some_2 l (Z.to_nat k)) as [c E]; [lia|]. exists c.
  unfold znth. destruct (Z.leb_spec 0 k); [|lia]. rewrite nth_lookup, E.
  split; [done|]. split; [|done]. by apply (Forall_lookup_1 _ _ _ _ Hc E).
Qed.

Lemma key_char_range s k : 0 ≤ k < 128 → 0 ≤ key_char s k < 127.
Proof.
  intros Hk. unfold key_char. destruct (layout_ok (shift_pressed s) k Hk) as (c & _ & Hc & ->).
  destruct (caps_lock s); simpl; [|lia]. destruct (Z.leb_spec 97 c); simpl; [|lia].
  destruct (Z.leb_spec c 122); lia.
Qed.

Lemma decode_ok s t k : 0 ≤ k < 128 → decode s k t = Ret (key_char s k, t).
Proof.
  intros Hk. unfold decode, key_char. destruct (layout_ok (shift_pressed s) k Hk) as (c & E & _ & ->).
  unfold mbind, comp_bind. by rewrite E.
Qed.

(** Keys that only change modifiers or scroll. *)
Definition control_key (k : Z) : bool :=
  (k =? 0x2A) || (k =? 0x36) || (k =? 0x1D) || (k =? 0x3A) || (k =? 0x49) || (k =? 0x51).
(** What a scancode appends to the queue. *)
Definition typed (s : kbd) (k : Z) : list Z :=
  if 128 <=? k then [] else if control_key k then []
  else if ctrl_pressed s && (k =? 0x2E) then [3]
  else if 0 <? key_char s k then [key_char s k] else [].
(** The modifiers, and what a scancode does to them. *)
Definition modifiers (s : kbd) : bool * bool * bool := (shift_pressed s, ctrl_pressed s, caps_lock s).
Definition next_modifiers (m : bool * bool * bool) (k : Z) : bool * bool * bool :=
  let '(shift, ctrl, caps) := m in
  let released := Z.land k 0x7F in
  if 128 <=? k then
    (if (released =? 0x2A) || (released =? 0x36) then false else shift, if released =? 0x1D then false else ctrl, caps)
  else if (k =? 0x2A) || (k =? 0x36) then (true, ctrl, caps)
  else if k =? 0x1D then (shift, true, caps)
  else if k =? 0x3A then (shift, ctrl, negb caps)
  else m.
Definition push_all (cs : list Z) (q : list Z) : list Z := foldl (λ q c, q_put c q) q cs.
Definition nonzero (q : list Z) : Prop := Forall (λ c, 0 < c < 128) q.


Section handler_facts.
Context {X : Type} (scroll_up scroll_down apic_eoi : comp X unit).
Context (Hup : returns scroll_up) (Hdown : returns scroll_down) (Heoi : returns apic_eoi).

Definition kbd_step (q : list Z) (m : bool * bool * bool) (s' : kbd) : Prop := kbd_wf s' ∧ queue s' = q ∧ modifiers s' = m.

Lemma in_rest_ok (m : comp X unit) (s : kbd * X) :
  returns m → wp (in_rest m) (λ _ s', s'.1 = s.1) s.
Proof. intros Hm. apply wp_zoom. eapply wp_mono; [apply Hm|done]. Qed.

Lemma in_kbd_put c (s : kbd * X) :
  kbd_wf s.1 → wp (in_kbd (kbd_put c)) (λ _ s', kbd_step (q_put c (queue s.1)) (modifiers s.1) s'.1) s.
Proof.
  intros Hwf. apply wp_zoom. eapply wp_mono; [by apply kbd_put_ok|]. intros [] t (Hw & Hq & E1 & E2 & E3).
  split; [done|]. split; [done|]. unfold modifiers. cbn [fst]. by rewrite E1, E2, E3.
Qed.

Lemma in_kbd_flag (f : kbd → kbd) (s : kbd * X) :
  kbd_wf s.1 → (∀ t, kbd_buffer (f t) = kbd_buffer t ∧ kbd_head (f t) = kbd_head t ∧ kbd_tail (f t) = kbd_tail t) →
  wp (in_kbd (modify f)) (λ _ s', kbd_step (queue s.1) (modifiers (f s.1)) s'.1) s.
Proof.
  intros [Hl Hh Ht] Hf. apply wp_zoom, wp_modify. simpl. destruct (Hf s.1) as (E1 & E2 & E3).
  split; [constructor; congruence|]. split; [|done]. unfold queue, pending, slot. by rewrite E1, E2, E3.
Qed.

(** A release. *)
Lemma release_ok r (s : kbd * X) :
  kbd_wf s.1 →
  wp ((if (r =? 0x2A) || (r =? 0x36) then in_kbd (modify (set_shift false)) else mret tt);;
      (if r =? 0x1D then in_kbd (modify (set_ctrl false)) else mret tt))
    (λ _ s', kbd_step (queue s.1) (if (r =? 0x2A) || (r =? 0x36) then false else shift_pressed s.1,
       if r =? 0x1D then false else ctrl_pressed s.1, caps_lock s.1) s'.1) s.
Proof.
  intros Hwf. destruct s as [ks x]. cbn [fst] in *. apply wp_bind. destruct (_ || _).
  - eapply wp_mono; [by apply in_kbd_flag|]. intros [] t (Hw & Hq & Hm). cbn [fst] in *.
    destruct t as [kt y]. cbn [fst] in *. injection Hm as E1 E2 E3. destruct (r =? 0x1D).
    + eapply wp_mono; [by apply in_kbd_flag|]. intros [] t' (Hw' & Hq' & Hm'). cbn [fst] in *. split; [done|].
      split; [by rewrite Hq'|]. rewrite Hm'. unfold modifiers. simpl. by rewrite E1, E3.
    + apply wp_ret. split; [done|]. split; [done|]. unfold modifiers. cbn [fst]. by rewrite E1, E2, E3.
  - apply wp_ret. destruct (r =? 0x1D); [by apply in_kbd_flag|by apply wp_ret].
Qed.

Lemma handler_ok k (s : kbd * X) :
  0 ≤ k < 256 → kbd_wf s.1 →
  wp (keyboard_handler scroll_up scroll_down apic_eoi k)
    (λ _ s', kbd_step (push_all (typed s.1 k) (queue s.1)) (next_modifiers (modifiers s.1) k) s'.1) s.
Proof using All.
  intros Hk Hwf. unfold keyboard_handler. apply wp_bind.
  set (q := push_all (typed s.1 k) (queue s.1)). set (m0 := next_modifiers (modifiers s.1) k).
  assert (Hq : ∀ m : comp (kbd * X) unit, wp m (λ _ s', kbd_step q m0 s'.1) s →
    wp m (λ _ s', wp (in_rest apic_eoi) (λ _ s'', kbd_step q m0 s''.1) s') s).
  { intros m Hm. eapply wp_mono; [exact Hm|]. intros [] t Ht.
    eapply wp_mono; [by apply in_rest_ok|]. by intros [] t' ->. }
  apply Hq. clear Hq. unfold q, m0, typed, control_key, next_modifiers, modifiers at 1.
  assert (Eb : (Z.land k 0x80 =? 0) = negb (128 <=? k)).
  { change (Z.land k 0x80) with (Z.land k (Z.shiftl 1 7)). rewrite land_bit by lia. f_equal.
    rewrite Z.testbit_eqb by lia. change (2 ^ 7) with 128.
    destruct (Z.leb_spec 128 k), (Z.eqb_spec ((k / 128) mod 2) 1); [done|dlia|dlia|done]. }
  rewrite Eb, negb_involutive. clear Eb q m0. destruct (Z.leb_spec 128 k) as [Hhi|Hlo]; [by apply release_ok|].
  assert (Hrest : ∀ m : comp X unit, returns m → wp (in_rest m) (λ _ s', kbd_step (queue s.1) (modifiers s.1) s'.1) s).
  { intros m Hm. eapply wp_mono; [by apply in_rest_ok|]. by intros [] t ->. }
  destruct ((k =? 0x2A) || (k =? 0x36)); simpl; [by apply (in_kbd_flag (set_shift true))|].
  destruct (k =? 0x1D); simpl; [by apply (in_kbd_flag (set_ctrl true))|].
  destruct (k =? 0x3A); simpl; [by apply (in_kbd_flag (λ s, set_caps (negb (caps_lock s)) s))|].
  destruct (k =? 0x49); simpl; [by apply Hrest|]. destruct (k =? 0x51); simpl; [by apply Hrest|].
  apply wp_bind, wp_zoom, wp_get. destruct s as [ks x]. simpl in *. destruct (ctrl_pressed ks && (k =? 0x2E)).
  { by apply (in_kbd_put _ (ks, x)). }
  apply wp_bind, wp_zoom. unfold wp at 1. rewrite decode_ok by lia. simpl.
  destruct (Z.ltb_spec 0 (key_char ks k)); simpl; [by apply (in_kbd_put _ (ks, x))|].
  by apply wp_ret.
Qed.
End handler_facts.

Lemma typed_nonzero s k : 0 ≤ k → nonzero (typed s k).
Proof.
  intros Hk. unfold typed, nonzero. destruct (Z.leb_spec 128 k); [done|].
  destruct (control_key k); [done|]. destruct (_ && _); [by repeat constructor|].
  pose proof (key_char_range s k ltac:(lia)). destruct (Z.ltb_spec 0 (key_char s k)); [|done].
  repeat constructor; lia.
Qed.

Lemma push_nonzero cs q : nonzero cs → nonzero q → nonzero (push_all cs q).
Proof.
  unfold push_all. intros Hcs. revert q. induction Hcs as [|c cs Hc _ IH]; intros q Hq; simpl; [done|].
  apply IH. unfold q_put. destruct (_ <? _); [|done]. by apply Forall_app_2; [|constructor].
Qed.

(** ** The properties of the keyboard *)

(** C35. The key ring is a queue.  Under any interleaving of puts and gets
    from a well-formed ring, every operation returns and the gets answer what
    a queue of capacity 255 answers (0 when it is empty): characters come out
    in order, none twice, and only those that arrive at a full ring are lost. *)
Theorem kbd_ring_fifo (ops : list kbd_op) (s : kbd) :
  kbd_wf s → ∃ r s', run_ops ops s = Ret (r, s') ∧ kbd_wf s' ∧ (r, queue s') = run_spec ops (queue s).
Proof.
  intros Hwf. destruct (proj1 (wp_run _ _ _) (run_ops_ok ops s Hwf)) as (r & s' & Hrun & Hp). eauto.
Qed.

(** The interrupt handler queues what was typed.  For every scancode the
    handler returns, appends exactly the character the modifiers select
    (Ctrl-C as 3, nothing for releases and control keys), changes the modifiers
    only on their own keys, and never queues a NUL, so a 0 from [kbd_get] always means an empty ring. *)
Theorem keyboard_handler_types {X} (up down eoi : comp X unit) (k : Z) (s : kbd * X) :
  returns up → returns down → returns eoi → 0 ≤ k < 256 → kbd_wf s.1 → nonzero (queue s.1) →
  ∃ s', keyboard_handler up down eoi k s = Ret (tt, s') ∧ kbd_wf s'.1 ∧
    queue s'.1 = push_all (typed s.1 k) (queue s.1) ∧ modifiers s'.1 = next_modifiers (modifiers s.1) k ∧
    nonzero (queue s'.1).
Proof.
  intros Hu Hd He Hk Hwf Hnz.
  destruct (proj1 (wp_run _ _ _) (handler_ok up down eoi Hu Hd He k s Hk Hwf)) as ([] & s' & Hrun & Hw & Hq & Hm).
  exists s'. split_and!; try done. rewrite Hq. apply push_nonzero; [|done]. apply typed_nonzero; lia.
Qed.

Lemma kbd_boot_wf : kbd_wf kbd_boot.
Proof. constructor; simpl; [done|lia|lia]. Qed.

Lemma kbd_ring_fifo_witness :
  ∃ r s', run_ops [OpPut 97; OpGet; OpGet; OpPut 98] kbd_boot = Ret (r, s') ∧ kbd_wf s' ∧
    (r, queue s') = ([97; 0], [98]).
Proof. apply (kbd_ring_fifo [OpPut 97; OpGet; OpGet; OpPut 98] kbd_boot). apply kbd_boot_wf. Defined.

Lemma keyboard_handler_types_witness :
  ∃ s', keyboard_handler (mret tt) (mret tt) (mret tt) 0x1E (set_caps true kbd_boot, tt) = Ret (tt, s') ∧
    kbd_wf s'.1 ∧ queue s'.1 = [65] ∧ modifiers s'.1 = (false, false, true) ∧ nonzero (queue s'.1).
Proof.
  apply (keyboard_handler_types (mret tt) (mret tt) (mret tt) 0x1E (set_caps true kbd_boot, tt));
    [by intros x|by intros x|by intros x|lia|constructor; simpl; [done|lia|lia]|constructor].
Defined.
