(* ===== verification/Pci.v ===== *)
(** * Pci: configuration space, bus scans, AHCI detection and the device list
    (src/drivers/pci.c, src/drivers/ahci.c, src/drivers/net/net.c)

    Port input and output, the memory-mapped AHCI registers and the network
    drivers are arguments.  The four scans share one loop in the model, which
    the source repeats. *)

From Stdlib Require Import ZArith Lia String.
From stdpp Require Import base numbers list option strings.
From S2P Require Import Prelude.
Open Scope Z_scope.

Definition PCI_CONFIG_ADDRESS : Z := 0xCF8.
Definition PCI_CONFIG_DATA : Z := 0xCFC.

(** The word written to the address port. *)
Definition pci_address (bus device function offset : Z) : Z :=
  u32 (Z.lor (Z.lor (Z.lor (Z.lor (Z.shiftl 1 31) (Z.shiftl bus 16)) (Z.shiftl device 11))
         (Z.shiftl function 8)) (Z.land offset 0xFC)).

Section pci.
Context {X : Type} `{Console X}.
Context (outl : Z → Z → comp X unit) (inl : Z → comp X Z).

Definition pci_read_config_dword (bus device function offset : Z) : comp X Z :=
  outl PCI_CONFIG_ADDRESS (pci_address (u8 bus) (u8 device) (u8 function) (u8 offset));;
  inl PCI_CONFIG_DATA.
Definition pci_write_config_dword (bus device function offset value : Z) : comp X unit :=
  outl PCI_CONFIG_ADDRESS (pci_address (u8 bus) (u8 device) (u8 function) (u8 offset));;
  outl PCI_CONFIG_DATA (u32 value).

(** The loop of the scans: every function present on every device present;
    the visitor gets the id and class words and may end the scan. *)
Definition pci_scan {R} (visit : Z → Z → Z → Z → Z → comp X (option R)) : comp X (option R) :=
  for_range 0 256 (λ bus,
    for_range 0 32 (λ device,
      vendor_dev ← pci_read_config_dword bus device 0 0x00;
      if Z.land vendor_dev 0xFFFF =? 0xFFFF then mret None
      else
        header ← pci_read_config_dword bus device 0 0x0C;
        let header_type := Z.land (Z.shiftr header 16) 0xFF in
        let max_func := if negb (Z.land header_type 0x80 =? 0) then 8 else 1 in
        for_range 0 max_func (λ function,
          id ← pci_read_config_dword bus device function 0x00;
          if Z.land id 0xFFFF =? 0xFFFF then mret None
          else
            cls ← pci_read_config_dword bus device function 0x08;
            visit bus device function id cls))).

Definition class_code (cls : Z) : Z := Z.land (Z.shiftr cls 24) 0xFF.
Definition subclass (cls : Z) : Z := Z.land (Z.shiftr cls 16) 0xFF.
Definition prog_if (cls : Z) : Z := Z.land (Z.shiftr cls 8) 0xFF.
Definition vendor_id (id : Z) : Z := Z.land id 0xFFFF.
Definition device_id (id : Z) : Z := Z.land (Z.shiftr id 16) 0xFFFF.

(** Four upper-case hexadecimal digits. *)
Definition print_hex16 (v : Z) : comp X unit :=
  for_each 0 4 (λ k, print_char (hex_digit (Z.shiftr v (12 - 4 * k)))).

(** " bus B dev D func F [vid=VVVV did=DDDD] ->" *)
Definition print_location (head : string) (bus device function id : Z) : comp X unit :=
  print_string head;;
  kprint_dec bus;;
  print_string " dev ";;
  kprint_dec device;;
  print_string " func ";;
  kprint_dec function;;
  print_string " [vid=";;
  print_hex16 (vendor_id id);;
  print_string " did=";;
  print_hex16 (device_id id);;
  print_string "] ->".

Definition visit_multimedia (bus device function id cls : Z) : comp X (option unit) :=
  (if (class_code cls =? 0x04) && (subclass cls =? 0x03) then
     print_string "Found Multimedia Audio Controller at ";;
     print_string "bus ";;
     kprint_dec bus;;
     print_string " dev ";;
     kprint_dec device;;
     print_string " func ";;
     kprint_dec function;;
     print_string " vendor= ";;
     kprint_hex (vendor_id id);;
     print_string " device= ";;
     kprint_hex (device_id id);;
     print_string NL
   else mret tt);;
  mret None.

Definition pci_scan_multimedia : comp X unit :=
  print_string ("PCI: Scanning for Multimedia Audio Controllers..." +:+ NL);;
  _ ← pci_scan visit_multimedia;
  print_string ("PCI: Scan complete." +:+ NL).

Definition print_storage_kind (cls : Z) : comp X unit :=
  (if subclass cls =? 0x01 then print_string " IDE"
   else if subclass cls =? 0x06 then
     print_string " SATA";;
     (if prog_if cls =? 0x01 then print_string " (AHCI)" else mret tt)
   else if subclass cls =? 0x08 then print_string " NVMe SSD"
   else print_string " Other Storage");;
  print_string NL.

Definition print_usb_kind (cls : Z) : comp X unit :=
  (if prog_if cls =? 0x00 then print_string " UHCI (USB 1.x)"
   else if prog_if cls =? 0x10 then print_string " OHCI (USB 1.x)"
   else if prog_if cls =? 0x20 then print_string " EHCI (USB 2.0)"
   else if prog_if cls =? 0x30 then print_string " xHCI (USB 3.0)"
   else print_string " Unknown USB");;
  print_string NL.

Definition visit_storage (bus device function id cls : Z) : comp X (option unit) :=
  (if class_code cls =? 0x01 then
     print_location "PCI: Found SSD / Storage Controller at bus " bus device function id;;
     print_storage_kind cls
   else if (class_code cls =? 0x0C) && (subclass cls =? 0x03) then
     print_location "PCI: Found USB Controller at bus " bus device function id;;
     print_usb_kind cls
   else mret tt);;
  mret None.

Definition pci_scan_storage : comp X unit :=
  print_string ("PCI: Scanning for Storage Controllers..." +:+ NL);;
  _ ← pci_scan visit_storage;
  mret tt.

Section network.
Context (rtl8169_init : Z → Z → Z → comp X unit) (qemu_net_init : comp X unit).

Definition is_rtl8169 (id : Z) : bool :=
  (vendor_id id =? 0x10EC) && ((device_id id =? 0x8168) || (device_id id =? 0x8169)).
Definition is_e1000 (id : Z) : bool := (vendor_id id =? 0x8086) && (device_id id =? 0x100E).

Definition visit_network (bus device function id cls : Z) : comp X (option unit) :=
  (if class_code cls =? 0x02 then
     print_location "PCI: Found Network Controller at bus " bus device function id;;
     (if subclass cls =? 0x00 then
        print_string " Ethernet";;
        (if is_rtl8169 id then
           print_string (NL +:+ "PCI: Realtek 8168/8169 Ethernet matched. Bootstrapping..." +:+ NL);;
           rtl8169_init bus device function
         else if is_e1000 id then
           print_string (NL +:+ "PCI: Intel E1000 matched. Loading QEMU Virtual Net..." +:+ NL);;
           qemu_net_init
         else mret tt)
      else if subclass cls =? 0x80 then print_string " Wi-Fi / Other"
      else print_string " Unknown Network");;
     print_string NL
   else mret tt);;
  mret None.

Definition pci_scan_network : comp X unit :=
  print_string ("PCI: Scanning for Network Controllers..." +:+ NL);;
  _ ← pci_scan visit_network;
  mret tt.
End network.

(** ** AHCI detection *)

Section ahci.
(** A 32-bit load from the register block. *)
Context (mmio_read : Z → comp X Z).

Definition ahci_ports : Z := 0x100.
Definition ahci_port_size : Z := 0x80.

Definition ahci_init (abar : Z) : comp X unit :=
  print_string "AHCI: Initializing HBA at 0x";;
  kprint_hex abar;;
  print_char 10;;
  pi ← mmio_read (abar + 0x0C);
  for_each 0 32 (λ i,
    if negb (Z.land pi (u32 (Z.shiftl 1 i)) =? 0) then
      ssts ← mmio_read (abar + ahci_ports + i * ahci_port_size + 0x28);
      let det := Z.land ssts 0x0F in
      let ipm := Z.land (Z.shiftr ssts 8) 0x0F in
      if (det =? 3) && (ipm =? 1) then
        print_string "AHCI: Active drive detected on Port ";;
        kprint_dec i;;
        print_string " [Signature: 0x";;
        sig ← mmio_read (abar + ahci_ports + i * ahci_port_size + 0x24);
        kprint_hex sig;;
        print_string ("]" +:+ NL)
      else mret tt
    else mret tt).

Definition visit_ahci (bus device function id cls : Z) : comp X (option unit) :=
  if (class_code cls =? 0x01) && (subclass cls =? 0x06) && (prog_if cls =? 0x01) then
    print_string "PCI: AHCI Controller Found at ";;
    kprint_dec bus;; print_char 58;;
    kprint_dec device;; print_char 46;;
    kprint_dec function;; print_char 10;;
    abar ← pci_read_config_dword bus device function 0x24;
    let abar := Z.land abar 0xFFFFFFF0 in
    (if negb (abar =? 0) then ahci_init abar else mret tt);;
    mret (Some tt)
  else mret None.

Definition pci_init_ahci : comp X unit :=
  print_string ("PCI: Scanning for AHCI Controllers..." +:+ NL);;
  r ← pci_scan visit_ahci;
  match r with
  | Some _ => mret tt
  | None => print_string ("PCI: No AHCI Controllers found." +:+ NL)
  end.
End ahci.
End pci.

(** ** The default network device: a pointer and its device's name *)

Section net.
Context {X : Type} `{Console X} (default_net_dev : X → Z) (set_default : Z → X → X).

Definition net_register_device (dev : Z) (nm : list Z) : comp X unit :=
  if dev =? 0 then mret tt
  else
    print_string "NET: Registering device ";;
    print_bytes nm;;
    print_string NL;;
    d ← gets default_net_dev;
    if d =? 0 then
      modify (set_default dev);;
      print_string ("NET: Set as default network device." +:+ NL)
    else mret tt.
End net.

(** ** What is on the bus *)

Section bus.
(** The configuration word behind each address. *)
Context (cfg : Z → Z).

Definition cfg_read (bus device function offset : Z) : Z := cfg (pci_address bus device function offset).
Definition present (bus device function : Z) : bool :=
  negb (Z.land (cfg_read bus device function 0x00) 0xFFFF =? 0xFFFF).
Definition multifunction (bus device : Z) : bool :=
  negb (Z.land (Z.land (Z.shiftr (cfg_read bus device 0 0x0C) 16) 0xFF) 0x80 =? 0).

(** Concatenation over [0 .. n-1]. *)
Definition upto {A} (n : Z) (f : Z → list A) : list A := concat (map (λ k, f (Z.of_nat k)) (seq 0 (Z.to_nat n))).
Definition function_at (bus device function : Z) : list (Z * Z * Z) :=
  if present bus device function then [(bus, device, function)] else [].
Definition device_at (bus device : Z) : list (Z * Z * Z) :=
  if present bus device 0
  then upto (if multifunction bus device then 8 else 1) (function_at bus device) else [].
(** Every function present, in bus order. *)
Definition all_functions : list (Z * Z * Z) := upto 256 (λ bus, upto 32 (device_at bus)).
End bus.

Lemma function_at_eq cfg b d f :
  function_at cfg b d f = if Z.land (cfg_read cfg b d f 0) 0xFFFF =? 0xFFFF then [] else [(b, d, f)].
Proof. unfold function_at, present. by destruct (_ =? _). Qed.
Lemma device_at_eq cfg b d :
  device_at cfg b d = if Z.land (cfg_read cfg b d 0 0) 0xFFFF =? 0xFFFF then []
    else upto (if multifunction cfg b d then 8 else 1) (function_at cfg b d).
Proof. unfold device_at, present. by destruct (_ =? _). Qed.

Lemma upto_0 {A} (f : Z → list A) : upto 0 f = [].
Proof. done. Qed.
Lemma upto_S {A} n (f : Z → list A) : 0 ≤ n → upto (n + 1) f = upto n f ++ f n.
Proof.
  intros Hn. unfold upto. replace (Z.to_nat (n + 1)) with (Datatypes.S (Z.to_nat n)) by lia.
  rewrite seq_S, map_app, concat_app. simpl. rewrite app_nil_r, Z2Nat.id by lia. done.
Qed.

Lemma pci_address_eq b d f o :
  0 ≤ b < 256 → 0 ≤ d < 32 → 0 ≤ f < 8 → 0 ≤ o < 256 → o mod 4 = 0 →
  pci_address b d f o = 2 ^ 31 + b * 2 ^ 16 + d * 2 ^ 11 + f * 2 ^ 8 + o.
Proof.
  intros Hb Hd Hf Ho Ho4. unfold pci_address.
  assert (Eo : Z.land o 0xFC = o).
  { apply Z.bits_inj_iff'. intros n Hn. rewrite Z.land_spec.
    destruct (decide (n < 2)) as [Hn2|].
    - rewrite <-(Z.mod_pow2_bits_low o 2) by lia. change (2 ^ 2) with 4. by rewrite Ho4, Z.bits_0.
    - destruct (decide (n < 8)).
      + assert (n = 2 ∨ n = 3 ∨ n = 4 ∨ n = 5 ∨ n = 6 ∨ n = 7) as H by lia.
        assert (Z.testbit 0xFC n = true) as -> by (repeat destruct H as [->|H]; try done; by subst n).
        apply andb_true_r.
      + rewrite (Z.bits_above_log2 0xFC) by (done || (change (Z.log2 0xFC) with 7; lia)).
        destruct (decide (o = 0)) as [->|]; [by rewrite Z.bits_0|].
        rewrite Z.bits_above_log2; [done|lia|]. apply Z.log2_lt_pow2; [lia|].
        apply Z.lt_le_trans with (2 ^ 8); [lia|]. apply Z.pow_le_mono_r; lia. }
  rewrite Eo. clear Eo.
  (* disjoint fields: lor is addition *)
  assert (Hlor : ∀ x y n, 0 ≤ n → 0 ≤ y < 2 ^ n → x mod 2 ^ n = 0 → Z.lor x y = x + y).
  { intros x y n Hn Hy Hx. rewrite Z.add_nocarry_lxor; [symmetry; apply Z.lxor_lor|]; apply Z.bits_inj_0; intros k;
      rewrite Z.land_spec.
    all: destruct (decide (k < 0)) as [|Hk]; [by rewrite Z.testbit_neg_r by lia|].
    all: destruct (decide (k < n)) as [Hl|Hl];
      [by rewrite <-(Z.mod_pow2_bits_low x n), Hx, Z.bits_0 by lia|].
    all: destruct (decide (y = 0)) as [->|]; [by rewrite Z.bits_0, andb_false_r|].
    all: rewrite (Z.bits_above_log2 y); [apply andb_false_r|lia|].
    all: apply Z.log2_lt_pow2; [lia|]; apply Z.lt_le_trans with (2 ^ n); [lia|]; apply Z.pow_le_mono_r; lia. }
  rewrite !Z.shiftl_mul_pow2 by lia.
  rewrite (Hlor (1 * 2 ^ 31) (b * 2 ^ 16) 31) by (lia || dlia).
  rewrite (Hlor _ (d * 2 ^ 11) 16) by (lia || dlia).
  rewrite (Hlor _ (f * 2 ^ 8) 11) by (lia || dlia).
  rewrite (Hlor _ o 8) by (lia || dlia). rewrite u32_small by lia. lia.
Qed.

(** ** The scan visits what is there *)

Section scan_facts.
Context {X : Type} `{Console X} (outl : Z → Z → comp X unit) (inl : Z → comp X Z).
Context (cfg : Z → Z).
(** [I seen] holds while the functions [seen] have been visited. *)
Context (I : list (Z * Z * Z) → X → Prop).
(** Configuration mechanism 1: the data port reads the word whose address was
    written to the address port. *)
Context (Hread : ∀ a seen x, I seen x →
  wp (outl PCI_CONFIG_ADDRESS a;; inl PCI_CONFIG_DATA) (λ v x', v = cfg a ∧ I seen x') x).

Lemma config_read_ok b d f o seen x (Q : Z → X → Prop) :
  0 ≤ b < 256 → 0 ≤ d < 256 → 0 ≤ f < 256 → 0 ≤ o < 256 → I seen x →
  (∀ x', I seen x' → Q (cfg_read cfg b d f o) x') →
  wp (pci_read_config_dword outl inl b d f o) Q x.
Proof using Hread.
  intros Hb Hd Hf Ho HI HQ. unfold pci_read_config_dword, u8. rewrite !Z.mod_small by done.
  eapply wp_mono; [by apply Hread|]. intros v x' (-> & HI'). by apply HQ.
Qed.

Context {R : Type} (visit : Z → Z → Z → Z → Z → comp X (option R)).
Context (Hvisit : ∀ b d f seen x, 0 ≤ b < 256 → 0 ≤ d < 32 → 0 ≤ f < 8 → I seen x →
  wp (visit b d f (cfg_read cfg b d f 0) (cfg_read cfg b d f 8))
    (λ r x', r = None ∧ I (seen ++ [(b, d, f)]) x') x).

Lemma functions_ok b d n seen x :
  0 ≤ b < 256 → 0 ≤ d < 32 → 0 ≤ n ≤ 8 → I seen x →
  wp (for_range 0 n (λ function,
        id ← pci_read_config_dword outl inl b d function 0x00;
        if Z.land id 0xFFFF =? 0xFFFF then mret None
        else
          cls ← pci_read_config_dword outl inl b d function 0x08;
          visit b d function id cls))
    (λ r x', r = None ∧ I (seen ++ upto n (function_at cfg b d)) x') x.
Proof using Hread Hvisit.
  intros Hb Hd Hn HI. apply (wp_for_range (λ i x, I (seen ++ upto i (function_at cfg b d)) x)).
  - lia.
  - by rewrite upto_0, app_nil_r.
  - intros i t Hi HIt. rewrite upto_S, app_assoc by lia. apply wp_bind. eapply config_read_ok; [lia..|done|].
    intros t1 HI1. rewrite function_at_eq.
    destruct (Z.land (cfg_read cfg b d i 0) 0xFFFF =? 0xFFFF) eqn:Hp; simpl.
    + apply wp_ret. by rewrite app_nil_r.
    + apply wp_bind. eapply config_read_ok; [lia..|done|]. intros t2 HI2.
      eapply wp_mono; [apply Hvisit; [lia|lia|lia|done]|]. by intros r t3 (-> & HI3).
  - done.
Qed.

Lemma scan_ok x : I [] x →
  wp (pci_scan outl inl visit) (λ r x', r = None ∧ I (all_functions cfg) x') x.
Proof using Hread Hvisit.
  intros HI. unfold pci_scan, all_functions.
  apply (wp_for_range (λ i x, I (upto i (λ bus, upto 32 (device_at cfg bus))) x)); [lia|done| |done].
  intros b t Hb HIt. set (seen := upto b _) in *.
  assert (Hdev : wp (for_range 0 32 (λ device,
      vendor_dev ← pci_read_config_dword outl inl b device 0 0x00;
      if Z.land vendor_dev 0xFFFF =? 0xFFFF then mret None
      else
        header ← pci_read_config_dword outl inl b device 0 0x0C;
        let header_type := Z.land (Z.shiftr header 16) 0xFF in
        let max_func := if negb (Z.land header_type 0x80 =? 0) then 8 else 1 in
        for_range 0 max_func (λ function,
          id ← pci_read_config_dword outl inl b device function 0x00;
          if Z.land id 0xFFFF =? 0xFFFF then mret None
          else
            cls ← pci_read_config_dword outl inl b device function 0x08;
            visit b device function id cls)))
    (λ r x', r = None ∧ I (seen ++ upto 32 (device_at cfg b)) x') t).
  { apply (wp_for_range (λ i x, I (seen ++ upto i (device_at cfg b)) x)); [lia| | |done].
    - by rewrite upto_0, app_nil_r.
    - intros d t1 Hd HI1. rewrite upto_S, app_assoc by lia. apply wp_bind. eapply config_read_ok; [lia..|done|].
      intros t2 HI2. rewrite device_at_eq.
      destruct (Z.land (cfg_read cfg b d 0 0) 0xFFFF =? 0xFFFF) eqn:Hp; simpl.
      + apply wp_ret. by rewrite app_nil_r.
      + apply wp_bind. eapply config_read_ok; [lia..|done|]. intros t3 HI3. cbn zeta.
        fold (multifunction cfg b d).
        eapply wp_mono; [apply functions_ok; [lia|lia|by destruct (multifunction cfg b d)|done]|].
        by intros r t4 (-> & HI4). }
  eapply wp_mono; [exact Hdev|]. intros r t' (-> & HI'). rewrite upto_S by lia. done.
Qed.
End scan_facts.

(** A network adapter that was started. *)
Inductive nic := Realtek (bus device function : Z) | E1000.

(** The adapter the scan starts for a function. *)
Definition nic_of (cfg : Z → Z) (loc : Z * Z * Z) : list nic :=
  let '(b, d, f) := loc in
  let id := cfg_read cfg b d f 0 in let cls := cfg_read cfg b d f 8 in
  if (class_code cls =? 0x02) && (subclass cls =? 0x00) then
    if is_rtl8169 id then [Realtek b d f] else if is_e1000 id then [E1000] else []
  else [].

Section network_facts.
Context {X : Type} `{Console X} (outl : Z → Z → comp X unit) (inl : Z → comp X Z).
Context (rtl8169_init : Z → Z → Z → comp X unit) (qemu_net_init : comp X unit).
Context (cfg : Z → Z) (live : X → Prop) (started : X → list nic).
Context (Hread : ∀ a x, live x → wp (outl PCI_CONFIG_ADDRESS a;; inl PCI_CONFIG_DATA)
  (λ v x', v = cfg a ∧ live x' ∧ started x' = started x) x).
Context (Hprint : ∀ o x, live x → live (emit o x) ∧ started (emit o x) = started x).
Context (Hrtl : ∀ b d f x, live x → wp (rtl8169_init b d f)
  (λ _ x', live x' ∧ started x' = started x ++ [Realtek b d f]) x).
Context (Hqemu : ∀ x, live x → wp qemu_net_init (λ _ x', live x' ∧ started x' = started x ++ [E1000]) x).

(** Only printing happens. *)
Definition quiet (m : comp X unit) : Prop :=
  ∀ x, live x → wp m (λ _ x', live x' ∧ started x' = started x) x.

Lemma quiet_print o : quiet (modify (emit o)).
Proof using Hprint. intros x Hx. apply wp_modify. by apply Hprint. Qed.
Lemma quiet_seq m k : quiet m → quiet k → quiet (m;; k).
Proof using Type.
  intros Hm Hk x Hx. apply wp_bind. eapply wp_mono; [by apply Hm|]. intros [] x' (Hl & E).
  eapply wp_mono; [by apply Hk|]. intros [] x'' (Hl' & E'). split; [done|congruence].
Qed.
Lemma quiet_ret : quiet (mret tt).
Proof using Type. by intros x Hx. Qed.
Lemma quiet_hex v : quiet (print_hex16 v).
Proof using Hprint.
  intros x Hx. apply (wp_for_each (λ _ t, live t ∧ started t = started x)); [lia|done| |done].
  intros i t _ (Hl & E). apply wp_modify. rewrite <-E. by apply Hprint.
Qed.
Lemma quiet_location h b d f id : quiet (print_location h b d f id).
Proof using Hprint.
  unfold print_location. repeat first [apply quiet_seq | apply quiet_hex | apply quiet_print].
Qed.

Lemma then_quiet (m k : comp X unit) l x :
  wp m (λ _ x', live x' ∧ started x' = l) x → quiet k → wp (m;; k) (λ _ x', live x' ∧ started x' = l) x.
Proof using Type.
  intros Hm Hk. apply wp_bind. eapply wp_mono; [exact Hm|]. intros [] x' (Hl & <-). by apply Hk.
Qed.
Lemma quiet_then (m k : comp X unit) Q x :
  quiet m → live x → (∀ x', live x' → started x' = started x → wp k Q x') → wp (m;; k) Q x.
Proof using Type.
  intros Hm Hx Hk. apply wp_bind. eapply wp_mono; [by apply Hm|]. intros [] x' (Hl & E). by apply Hk.
Qed.

Lemma visit_network_ok b d f x :
  live x →
  wp (visit_network rtl8169_init qemu_net_init b d f (cfg_read cfg b d f 0) (cfg_read cfg b d f 8))
    (λ r x', r = None ∧ live x' ∧ started x' = started x ++ nic_of cfg (b, d, f)) x.
Proof using Hprint Hrtl Hqemu.
  intros Hx. unfold visit_network, nic_of. set (id := cfg_read cfg b d f 0). set (cls := cfg_read cfg b d f 8).
  apply wp_bind.
  eapply (wp_mono _ (λ _ x', live x' ∧ started x' = started x ++ nic_of cfg (b, d, f)));
    [|intros [] x' (Hl & E); apply wp_ret; done].
  unfold nic_of. fold id cls. destruct (class_code cls =? 0x02); [|apply wp_ret; by rewrite app_nil_r].
  simpl. apply quiet_then; [apply quiet_location|done|]. intros x1 H1 E1. rewrite <-E1.
  apply then_quiet; [|apply quiet_print]. destruct (subclass cls =? 0x00); simpl.
  - apply quiet_then; [apply quiet_print|done|]. intros x2 H2 E2. rewrite <-E2.
    destruct (is_rtl8169 id); [|destruct (is_e1000 id)].
    + apply quiet_then; [apply quiet_print|done|]. intros x3 H3 E3. rewrite <-E3. by apply Hrtl.
    + apply quiet_then; [apply quiet_print|done|]. intros x3 H3 E3. rewrite <-E3. by apply Hqemu.
    + apply wp_ret. by rewrite app_nil_r.
  - rewrite app_nil_r. destruct (subclass cls =? 0x80); by apply quiet_print.
Qed.

Lemma network_ok x :
  live x → wp (pci_scan_network outl inl rtl8169_init qemu_net_init)
    (λ _ x', live x' ∧ started x' = started x ++ concat (map (nic_of cfg) (all_functions cfg))) x.
Proof using All.
  intros Hx. unfold pci_scan_network. apply quiet_then; [apply quiet_print|done|]. intros x1 H1 E1.
  apply wp_bind. eapply wp_mono.
  { apply (scan_ok outl inl cfg (λ seen t, live t ∧ started t = started x ++ concat (map (nic_of cfg) seen))).
    - intros a seen t (Hl & E). eapply wp_mono; [by apply Hread|]. intros v t' (-> & Hl' & E').
      split; [done|]. split; [done|congruence].
    - intros b d f seen t _ _ _ (Hl & E). eapply wp_mono; [by apply visit_network_ok|].
      intros r t' (-> & Hl' & E'). split; [done|]. split; [done|].
      rewrite map_app, concat_app. cbn [map concat]. by rewrite app_nil_r, app_assoc, <-E, E'.
    - split; [done|]. by rewrite app_nil_r. }
  intros r x' (_ & Hl & E). by apply wp_ret.
Qed.
End network_facts.

(** ** The properties of the bus code *)

(** Configuration addresses.  For a bus, device, function and aligned
    register in range the address word has the enable bit, no field spills
    into another, and distinct registers have distinct addresses. *)
Theorem pci_address_injective (b d f o b' d' f' o' : Z) :
  0 ≤ b < 256 → 0 ≤ d < 32 → 0 ≤ f < 8 → 0 ≤ o < 256 → o mod 4 = 0 →
  0 ≤ b' < 256 → 0 ≤ d' < 32 → 0 ≤ f' < 8 → 0 ≤ o' < 256 → o' mod 4 = 0 →
  2 ^ 31 ≤ pci_address b d f o < 2 ^ 31 + 2 ^ 24 ∧
  (pci_address b d f o = pci_address b' d' f' o' → b = b' ∧ d = d' ∧ f = f' ∧ o = o').
Proof. intros. rewrite !pci_address_eq by done. lia. Qed.

(** The network scan starts each adapter.  On hardware whose data port
    reads the addressed configuration word, [pci_scan_network] terminates and
    has started, in bus order, exactly one driver instance per function
    present whose class is Ethernet and whose identifiers are those of an
    RTL8168/8169 or an 82540EM. *)
Theorem network_scan_starts {X} `{Console X} (outl : Z → Z → comp X unit) (inl : Z → comp X Z)
    (rtl8169_init : Z → Z → Z → comp X unit) (qemu_net_init : comp X unit)
    (cfg : Z → Z) (live : X → Prop) (started : X → list nic) (x : X) :
  (∀ a x, live x → wp (outl PCI_CONFIG_ADDRESS a;; inl PCI_CONFIG_DATA)
     (λ v x', v = cfg a ∧ live x' ∧ started x' = started x) x) →
  (∀ o x, live x → live (emit o x) ∧ started (emit o x) = started x) →
  (∀ b d f x, live x → wp (rtl8169_init b d f) (λ _ x', live x' ∧ started x' = started x ++ [Realtek b d f]) x) →
  (∀ x, live x → wp qemu_net_init (λ _ x', live x' ∧ started x' = started x ++ [E1000]) x) →
  live x →
  ∃ x', pci_scan_network outl inl rtl8169_init qemu_net_init x = Ret (tt, x') ∧
    started x' = started x ++ concat (map (nic_of cfg) (all_functions cfg)).
Proof.
  intros Hread Hprint Hrtl Hqemu Hx.
  destruct (proj1 (wp_run _ _ _) (network_ok outl inl rtl8169_init qemu_net_init cfg live started
    Hread Hprint Hrtl Hqemu x Hx)) as ([] & x' & Hrun & _ & E). by exists x'.
Qed.

(** A machine with one RTL8168 at 0:2.0; the address register, then what was
    started. *)
Definition bus_demo (a : Z) : Z :=
  if a =? pci_address 0 2 0 0 then 0x816810EC else if a =? pci_address 0 2 0 8 then 0x02000000
  else if a =? pci_address 0 2 0 0x0C then 0 else 0xFFFFFFFF.
#[export] Instance bus_console : Console (Z * list nic) := λ _ x, x.

Lemma pci_address_injective_witness :
  2 ^ 31 ≤ pci_address 1 2 3 4 < 2 ^ 31 + 2 ^ 24 ∧
  (pci_address 1 2 3 4 = pci_address 1 2 3 8 → 1 = 1 ∧ 2 = 2 ∧ 3 = 3 ∧ 4 = 8).
Proof. apply (pci_address_injective 1 2 3 4 1 2 3 8); lia || reflexivity. Defined.

Lemma network_scan_starts_witness :
  ∃ x', pci_scan_network (λ _ v, modify (λ x, (v, x.2))) (λ _, gets (λ x, bus_demo x.1))
      (λ b d f, modify (λ x, (x.1, x.2 ++ [Realtek b d f]))) (modify (λ x, (x.1, x.2 ++ [E1000])))
      (0, []) = Ret (tt, x') ∧
    x'.2 = [] ++ concat (map (nic_of bus_demo) (all_functions bus_demo)).
Proof.
  apply (network_scan_starts (λ _ v, modify (λ x, (v, x.2))) (λ _, gets (λ x, bus_demo x.1))
    (λ b d f, modify (λ x, (x.1, x.2 ++ [Realtek b d f]))) (modify (λ x, (x.1, x.2 ++ [E1000])))
    bus_demo (λ _, True) snd (0, [])); intros; repeat split.
Defined.
