(* ===== verification/Libc.v ===== *)
(** * Libc: the string, number and matrix routines (src/libc/string.c,
    src/libc/stdlib.c, src/libc/math.c)

    The routines run on byte-addressed memory, so that overlap, aliasing and
    reads past a terminator are those of the code.  The floating-point
    functions of math.c are not modelled. *)

From Stdlib Require Import ZArith Lia ZifyBool.
From stdpp Require Import base numbers list option.
From S2P Require Import Prelude.
Open Scope Z_scope.

Definition mem := comp memory.

Definition peek (a : Z) : mem Z := gets (λ m, m a).
Definition poke (a v : Z) : mem unit := modify (λ m x, if x =? a then u8 v else m x).

(** ** string.c *)

Definition strcmp (s1 s2 : Z) : mem Z :=
  loop (λ '(s1, s2),
    c1 ← peek s1;
    c2 ← peek s2;
    if negb (c1 =? 0) && (c1 =? c2) then mret (inl (s1 + 1, s2 + 1)) else mret (inr (c1 - c2))) (s1, s2).

Definition strncmp (s1 s2 n : Z) : mem Z :=
  if n =? 0 then mret 0
  else
    loop (λ '(s1, s2, n),
      c1 ← peek s1;
      c2 ← peek s2;
      if (1 <? n) && negb (c1 =? 0) && (c1 =? c2) then mret (inl (s1 + 1, s2 + 1, n - 1))
      else mret (inr (c1 - c2))) (s1, s2, n).

Definition lower (c : Z) : Z := if (65 <=? c) && (c <=? 90) then c + 32 else c.

Definition strncasecmp (s1 s2 n : Z) : mem Z :=
  if n =? 0 then mret 0
  else
    loop (λ '(s1, s2, n),
      c1 ← peek s1;
      c2 ← peek s2;
      if (1 <? n) && negb (c1 =? 0) && negb (c2 =? 0) && (lower c1 =? lower c2)
      then mret (inl (s1 + 1, s2 + 1, n - 1))
      else mret (inr (lower c1 - lower c2))) (s1, s2, n).

Definition strlen (s : Z) : mem Z :=
  loop (λ len, c ← peek (s + len); if negb (c =? 0) then mret (inl (len + 1)) else mret (inr len)) 0.

(** Copy up to and with the terminator. *)
Definition copy_string (dest src : Z) : mem unit :=
  loop (λ '(dest, src),
    c ← peek src;
    poke dest c;;
    if negb (c =? 0) then mret (inl (dest + 1, src + 1)) else mret (inr tt)) (dest, src).

Definition strcpy (dest src : Z) : mem Z := copy_string dest src;; mret dest.

Definition strncpy (dest src n : Z) : mem Z :=
  loop (λ '(d, s, n),
    if n =? 0 then mret (inr tt)
    else
      c ← peek s;
      if negb (c =? 0) then poke d c;; mret (inl (d + 1, s + 1, n - 1))
      else poke d 0;; mret (inl (d + 1, s, n - 1))) (dest, src, n);;
  mret dest.

Definition strcat (dest src : Z) : mem Z :=
  len ← strlen dest;
  copy_string (dest + len) src;;
  mret dest.

(** The inner loop of [strstr]: where in the needle the match stops. *)
Definition match_here (h n : Z) : mem Z :=
  loop (λ '(h, n),
    ch ← peek h;
    cn ← peek n;
    if negb (ch =? 0) && negb (cn =? 0) && (ch =? cn) then mret (inl (h + 1, n + 1)) else mret (inr n)) (h, n).

Definition strstr (haystack needle : Z) : mem Z :=
  c ← peek needle;
  if c =? 0 then mret haystack
  else
    loop (λ h,
      ch ← peek h;
      if ch =? 0 then mret (inr 0)
      else
        n ← match_here h needle;
        cn ← peek n;
        if cn =? 0 then mret (inr h) else mret (inl (h + 1))) haystack.

Definition memset (bufptr value size : Z) : mem Z :=
  for_each 0 size (λ i, poke (bufptr + i) value);; mret bufptr.

Definition memcpy (dst src size : Z) : mem Z :=
  for_each 0 size (λ i, c ← peek (src + i); poke (dst + i) c);; mret dst.

Definition memmove (dst src size : Z) : mem Z :=
  (if dst <? src then for_each 0 size (λ i, c ← peek (src + i); poke (dst + i) c)
   else
     for_each 0 size (λ k,
       let i := size - k in
       c ← peek (src + (i - 1)); poke (dst + (i - 1)) c));;
  mret dst.

Definition memcmp (s1 s2 n : Z) : mem Z :=
  r ← for_range 0 n (λ i,
    c1 ← peek (s1 + i);
    c2 ← peek (s2 + i);
    mret (if negb (c1 =? c2) then Some (c1 - c2) else None));
  mret (default 0 r).

(** ** stdlib.c *)

Definition is_digit (c : Z) : bool := (48 <=? c) && (c <=? 57).

(** The value, and where the digits end; [long] arithmetic wraps. *)
Definition strtol (nptr base : Z) : mem (Z * Z) :=
  loop (λ '(p, result),
    c ← peek p;
    if is_digit c then
      mret (inl (p + 1, i64 (result * (if base =? 0 then 10 else base) + (c - 48))))
    else mret (inr (result, p))) (nptr, 0).

Definition atoi (nptr : Z) : mem Z := '(r, _) ← strtol nptr 10; mret (i32 r).

(** ** math.c *)

Definition load_i32 (a : Z) : mem Z := gets (λ m, i32 (mld32 m a)).
Definition store_i32 (a v : Z) : mem unit :=
  for_each 0 4 (λ k, poke (a + k) (Z.shiftr v (8 * k))).

Definition mat_mul_fixed (A B C n frac_bits : Z) : mem unit :=
  for_each 0 n (λ i,
    for_each 0 n (λ j,
      acc ← loop (λ '(k, acc),
        if k <? n then
          a ← load_i32 (A + 4 * u32 (i * n + k));
          b ← load_i32 (B + 4 * u32 (k * n + j));
          mret (inl (k + 1, i64 (acc + a * b)))
        else mret (inr acc)) (0, 0);
      if (frac_bits =? 0) || (63 <? frac_bits) then undef
      else
        let rounding := Z.shiftl 1 (frac_bits - 1) in
        store_i32 (C + 4 * u32 (i * n + j)) (i32 (Z.shiftr (i64 (acc + rounding)) frac_bits)))).

(** ** Moving blocks *)

(** Every cell of memory is a byte. *)
Definition byte_mem (m : memory) : Prop := ∀ x, is_byte (m x).

Lemma poke_run a v m (Q : unit → memory → Prop) :
  Q tt (λ x, if x =? a then u8 v else m x) → wp (poke a v) Q m.
Proof. done. Qed.

(** [m'] is [m] with [n] bytes from [src] of [m0] at [dst]. *)
Definition moved (m0 : memory) (dst src : Z) (in_range : Z → bool) (m' : memory) : Prop :=
  ∀ x, m' x = if in_range (x - dst) then m0 (src + (x - dst)) else m0 x.

Lemma copy_step m0 m dst src P i :
  byte_mem m0 → moved m0 dst src P m → P i = false → m (src + i) = m0 (src + i) →
  moved m0 dst src (λ k, (k =? i) || P k) (λ x, if x =? dst + i then u8 (m (src + i)) else m x).
Proof.
  intros Hb Hm Hi Hs x. destruct (Z.eqb_spec x (dst + i)) as [->|Hne].
  - replace (dst + i - dst) with i by lia. rewrite Z.eqb_refl. simpl. rewrite Hs.
    pose proof (Hb (src + i)). unfold is_byte, u8 in *. by rewrite Z.mod_small by lia.
  - destruct (Z.eqb_spec (x - dst) i); [lia|]. simpl. apply Hm.
Qed.

Lemma moved_ext m0 dst src P P' m : (∀ k, P k = P' k) → moved m0 dst src P m → moved m0 dst src P' m.
Proof. intros HP Hm x. rewrite <-HP. apply Hm. Qed.

Lemma copy_up_ok m0 dst src size :
  byte_mem m0 → dst ≤ src ∨ src + size ≤ dst → 0 ≤ size →
  wp (for_each 0 size (λ i, c ← peek (src + i); poke (dst + i) c))
    (λ _ m, moved m0 dst src (λ k, (0 <=? k) && (k <? size)) m) m0.
Proof.
  intros Hb Hov Hs. apply (wp_for_each (λ i m, moved m0 dst src (λ k, (0 <=? k) && (k <? i)) m)); [done| | |done].
  - intros x. destruct (Z.leb_spec 0 (x - dst)), (Z.ltb_spec (x - dst) 0); simpl; done || lia.
  - intros i m Hi Hm. apply wp_bind, wp_gets, poke_run.
    eapply moved_ext; [|apply copy_step; [exact Hb|exact Hm|cbn beta; lia|]].
    + intros k. cbn beta. lia.
    + rewrite Hm. destruct (Z.leb_spec 0 (src + i - dst)), (Z.ltb_spec (src + i - dst) i); simpl; done || lia.
Qed.

Lemma copy_down_ok m0 dst src size :
  byte_mem m0 → src ≤ dst → 0 ≤ size →
  wp (for_each 0 size (λ k, let i := size - k in c ← peek (src + (i - 1)); poke (dst + (i - 1)) c))
    (λ _ m, moved m0 dst src (λ k, (0 <=? k) && (k <? size)) m) m0.
Proof.
  intros Hb Hov Hs.
  apply (wp_for_each (λ j m, moved m0 dst src (λ k, (size - j <=? k) && (k <? size)) m)); [done| | |].
  - intros x. destruct (Z.leb_spec (size - 0) (x - dst)), (Z.ltb_spec (x - dst) size); simpl; done || lia.
  - intros j m Hj Hm. cbn zeta. apply wp_bind, wp_gets, poke_run.
    eapply moved_ext; [|apply copy_step; [exact Hb|exact Hm|cbn beta; lia|]].
    + intros k. cbn beta. lia.
    + rewrite Hm. destruct (Z.leb_spec (size - j) (src + (size - j - 1) - dst)),
        (Z.ltb_spec (src + (size - j - 1) - dst) size); simpl; done || lia.
  - intros m Hm. eapply moved_ext; [|exact Hm]. intros k. simpl. by rewrite Z.sub_diag.
Qed.

(** Block moves.  [memmove] ends with the bytes of the source block, as
    they were, in the destination block, whether or not the blocks overlap,
    and changes no other byte. *)
Theorem memmove_overlap (m : memory) (dst src size : Z) :
  byte_mem m → 0 ≤ size →
  ∃ m', memmove dst src size m = Ret (dst, m') ∧
    ∀ x, m' x = if (0 <=? x - dst) && (x - dst <? size) then m (src + (x - dst)) else m x.
Proof.
  intros Hb Hs.
  cut (wp (memmove dst src size) (λ r m', r = dst ∧ moved m dst src (λ k, (0 <=? k) && (k <? size)) m') m).
  { rewrite wp_run. intros (r & m' & Hrun & -> & Hm). by exists m'. }
  unfold memmove. apply wp_bind. destruct (Z.ltb_spec dst src).
  - eapply wp_mono; [apply copy_up_ok; [done|lia|done]|]. intros [] m' Hm. by apply wp_ret.
  - eapply wp_mono; [apply copy_down_ok; [done|lia|done]|]. intros [] m' Hm. by apply wp_ret.
Qed.

(** ** Strings in memory *)

Lemma peek_run a m : peek a m = Ret (m a, m).
Proof. done. Qed.

(** A NUL-terminated string at [a]. *)
Fixpoint cstr (m : memory) (a : Z) (s : list Z) : Prop :=
  match s with
  | [] => m a = 0
  | c :: s' => m a = c ∧ c ≠ 0 ∧ cstr m (a + 1) s'
  end.

Lemma cstr_drop m a s k : cstr m a s → (k ≤ length s)%nat → cstr m (a + Z.of_nat k) (drop k s).
Proof.
  revert a s. induction k as [|k IH]; intros a s Hs Hk; [by rewrite Z.add_0_r|].
  destruct s as [|c s]; [simpl in Hk; lia|]. destruct Hs as (_ & _ & Hs). simpl.
  replace (a + Z.of_nat (Datatypes.S k)) with (a + 1 + Z.of_nat k) by lia. apply IH; [done|simpl in Hk; lia].
Qed.

(** The inner loop stops at the end of the needle exactly when the needle is
    a prefix of what it is compared with. *)
Lemma match_here_run m hs : ∀ ns h n,
  cstr m h hs → cstr m n ns → Z.of_nat (length hs) < 2 ^ 63 →
  ∃ n', match_here h n m = Ret (n', m) ∧ (m n' = 0 ↔ ns `prefix_of` hs).
Proof.
  intros ns h n Hh Hn Hlen.
  cut (∃ n', itern (Datatypes.S (length hs)) (λ '(h, n),
    ch ← peek h; cn ← peek n;
    if negb (ch =? 0) && negb (cn =? 0) && (ch =? cn) then mret (inl (h + 1, n + 1)) else mret (inr n)) (h, n) m
    = Ret (inr n', m) ∧ (m n' = 0 ↔ ns `prefix_of` hs)).
  { intros (n' & Hrun & Hiff). exists n'. split; [|done]. unfold match_here. apply (loop_run (Datatypes.S (length hs))); [lia|exact Hrun]. }
  clear Hlen. revert ns h n Hh Hn. induction hs as [|c hs IH]; intros ns h n Hh Hn; simpl in Hh.
  - exists n. simpl. unfold peek, gets, mbind, comp_bind. rewrite Hh. simpl. split; [done|].
    destruct ns as [|c ns]; simpl in Hn; split; try done.
    + intros E. destruct Hn as (? & ? & _). congruence.
    + intros E%prefix_nil_inv. done.
  - destruct Hh as (Hc & Hc0 & Hh). destruct ns as [|d ns]; simpl in Hn.
    + exists n. simpl. unfold peek, gets, mbind, comp_bind. rewrite Hc, Hn. rewrite andb_false_r. simpl.
      split; [done|]. split; [|done]. intros _. apply prefix_nil.
    + destruct Hn as (Hd & Hd0 & Hn). destruct (decide (c = d)) as [<-|Hne].
      * destruct (IH ns (h + 1) (n + 1) Hh Hn) as (n' & Hrun & Hiff). exists n'. split.
        -- change (length (c :: hs)) with (Datatypes.S (length hs)). remember (Datatypes.S (length hs)) as k.
           simpl. unfold peek, gets, mbind, comp_bind. rewrite Hc, Hd.
           destruct (Z.eqb_spec c 0); [done|]. rewrite Z.eqb_refl. simpl. exact Hrun.
        -- rewrite Hiff. split; [apply prefix_cons|]. intros Hp. by apply prefix_cons_inv_2 in Hp.
      * exists n. simpl. unfold peek, gets, mbind, comp_bind. rewrite Hc, Hd.
        destruct (Z.eqb_spec c d); [done|]. rewrite andb_false_r. simpl. split; [done|].
        split; [congruence|]. intros Hp%prefix_cons_inv_1. congruence.
Qed.

(** The first place at which [ns] occurs in [hs]. *)
Fixpoint find_sub (ns hs : list Z) : option nat :=
  if decide (ns `prefix_of` hs) then Some O
  else match hs with [] => None | _ :: hs' => Datatypes.S <$> find_sub ns hs' end.

Lemma find_sub_spec ns hs :
  match find_sub ns hs with
  | Some k => (k ≤ length hs)%nat ∧ ns `prefix_of` drop k hs ∧ ∀ j, (j < k)%nat → ¬ ns `prefix_of` drop j hs
  | None => ∀ j, ¬ ns `prefix_of` drop j hs
  end.
Proof.
  induction hs as [|c hs IH]; simpl; destruct (decide _) as [Hp|Hn].
  - split; [lia|]. split; [done|]. intros; lia.
  - intros j. by rewrite drop_nil.
  - split; [simpl; lia|]. split; [done|]. intros; lia.
  - destruct (find_sub ns hs) as [k|]; simpl.
    + destruct IH as (Hk & Hp & Hno). split; [simpl; lia|]. split; [done|]. intros [|j] Hj; [done|]. apply Hno. lia.
    + intros [|j]; [done|]. apply IH.
Qed.

(** Searching for a substring.  On two strings, [strstr] terminates,
    changes nothing, and answers the address of the first occurrence of the
    needle, or 0 when it does not occur. *)
Theorem strstr_first (m : memory) (haystack needle : Z) (hs ns : list Z) :
  cstr m haystack hs → cstr m needle ns → Z.of_nat (length hs) < 2 ^ 63 →
  strstr haystack needle m =
    Ret (match find_sub ns hs with Some k => haystack + Z.of_nat k | None => 0 end, m) ∧
  match find_sub ns hs with
  | Some k => ns `prefix_of` drop k hs ∧ ∀ j, (j < k)%nat → ¬ ns `prefix_of` drop j hs
  | None => ∀ j, ¬ ns `prefix_of` drop j hs
  end.
Proof.
  intros Hh Hn Hlen. split.
  2: { pose proof (find_sub_spec ns hs) as Hsp. destruct (find_sub ns hs); [|done]. by destruct Hsp as (_ & ? & ?). }
  unfold strstr. rewrite (run_bind _ _ _ _ _ (peek_run needle m)). destruct ns as [|d ns].
  { simpl in Hn. rewrite Hn. simpl. destruct hs; simpl; by rewrite Z.add_0_r. }
  pose proof Hn as (Hd & Hd0 & _). rewrite Hd. destruct (Z.eqb_spec d 0); [done|].
  apply (loop_run (Datatypes.S (length hs))); [lia|].
  clear Hd. revert haystack Hh Hlen. induction hs as [|c hs IH]; intros h Hh Hlen; simpl in Hh.
  - simpl. unfold peek, gets, mbind, comp_bind. by rewrite Hh.
  - destruct (match_here_run m (c :: hs) (d :: ns) h needle Hh Hn Hlen) as (n' & Hrun & Hiff).
    destruct Hh as (Hc & Hc0 & Hh). change (length (c :: hs)) with (Datatypes.S (length hs)) in *.
    remember (Datatypes.S (length hs)) as k eqn:Ek. simpl itern.
    unfold mbind at 1, comp_bind at 1. rewrite (run_bind _ _ _ _ _ (peek_run h m)). rewrite Hc.
    destruct (Z.eqb_spec c 0); [done|].
    rewrite (run_bind _ _ _ _ _ Hrun), (run_bind _ _ _ _ _ (peek_run n' m)).
    cbn [find_sub]. destruct (Z.eqb_spec (m n') 0) as [E|E].
    + destruct (decide _) as [|Hno]; [|by apply Hiff in E]. simpl. by rewrite Z.add_0_r.
    + destruct (decide _) as [Hp|_]; [by apply Hiff in Hp|]. cbn [mret comp_ret].
      rewrite (IH (h + 1) Hh ltac:(lia)). destruct (find_sub (d :: ns) hs); simpl; [|done].
      do 3 f_equal. lia.
Qed.

(** ** Witnesses *)

(** A memory that holds the bytes of a list from address 16 on. *)
Definition mem_demo (l : list Z) : memory := λ x, if (16 <=? x) then nth (Z.to_nat (x - 16)) l 0 else 0.

Lemma memmove_overlap_witness :
  ∃ m', memmove 17 16 3 (λ x, x mod 256) = Ret (17, m') ∧ m' 19 = 18.
Proof.
  destruct (memmove_overlap (λ x, x mod 256) 17 16 3 ltac:(intros x; apply Z.mod_pos_bound; lia) ltac:(lia)) as (m' & Hrun & Hm).
  exists m'. split; [exact Hrun|]. rewrite Hm. reflexivity.
Defined.

(** "banana" and "nan" *)
Lemma strstr_first_witness :
  strstr 16 23 (mem_demo [98; 97; 110; 97; 110; 97; 0; 110; 97; 110; 0]) =
    Ret (18, mem_demo [98; 97; 110; 97; 110; 97; 0; 110; 97; 110; 0]).
Proof.
  refine (proj1 (strstr_first _ 16 23 [98; 97; 110; 97; 110; 97] [110; 97; 110] _ _ _)).
  - repeat split; discriminate.
  - repeat split; discriminate.
  - reflexivity.
Defined.
