(* ===== verification/Fat32.v ===== *)
(** * Fat32: the file system (src/fs/fat32.c, include/fat32.h)

    The driver works on any [BlockDev].  A C string is the list of its bytes
    up to the terminating NUL; a copy that does not fit its buffer is
    undefined.  Stack buffers start out with unknown contents ([junk]) and
    keep them when a sector cannot be read, as most callers ignore the error. *)

From Stdlib Require Import ZArith Lia String.
From stdpp Require Import base numbers list option strings.
From S2P Require Import Prelude Interfaces.
Open Scope Z_scope.

Definition FAT_ATTR_DIRECTORY : Z := 0x10.
Definition FAT_ATTR_ARCHIVE : Z := 0x20.
Definition FAT_ATTR_LFN : Z := 0x0F.
Definition FAT32_EOC : Z := 0x0FFFFFF8.
Definition FAT32_FREE : Z := 0.
Definition FAT32_BAD : Z := 0x0FFFFFF7.
Definition FAT32_MAX_FILENAME : Z := 12.
Definition FAT32_MAX_PATH : Z := 256.
Definition FAT32_MAX_OPEN_FILES : Z := 8.

Record fat32_file_t := MkFile {
  valid : Z;
  first_cluster : Z;
  current_cluster : Z;
  cluster_offset : Z;
  file_size : Z;
  position : Z;
  is_dir : Z;
  dir_cluster : Z;
  dir_entry_index : Z;
  fname : list Z
}.
Definition no_file : fat32_file_t := MkFile 0 0 0 0 0 0 0 0 0 [].
Definition set_valid v f := MkFile v (first_cluster f) (current_cluster f) (cluster_offset f) (file_size f)
  (position f) (is_dir f) (dir_cluster f) (dir_entry_index f) (fname f).
Definition set_place c o p f := MkFile (valid f) (first_cluster f) c o (file_size f) p (is_dir f)
  (dir_cluster f) (dir_entry_index f) (fname f).
Definition set_fsize n f := MkFile (valid f) (first_cluster f) (current_cluster f) (cluster_offset f) n
  (position f) (is_dir f) (dir_cluster f) (dir_entry_index f) (fname f).

(** The boot sector fields, at their offsets in [fat32_bpb_t]. *)
Definition sizeof_bpb : nat := 90.
Definition bpb_oem (b : list Z) : list Z := slice b 3 8.
Definition bpb_bytes_per_sector (b : list Z) : Z := ld16 b 0x0B.
Definition bpb_sectors_per_cluster (b : list Z) : Z := ld8 b 0x0D.
Definition bpb_reserved_sectors (b : list Z) : Z := ld16 b 0x0E.
Definition bpb_num_fats (b : list Z) : Z := ld8 b 0x10.
Definition bpb_fat_size_32 (b : list Z) : Z := ld32 b 0x24.
Definition bpb_root_cluster (b : list Z) : Z := ld32 b 0x2C.
Definition bpb_boot_signature (b : list Z) : Z := ld8 b 0x42.
Definition bpb_fs_type (b : list Z) : list Z := slice b 0x52 8.

Record fs (D : Type) := MkFs {
  disk : D;
  bpb : list Z;
  partition_lba : Z;
  fat_lba : Z;
  data_lba : Z;
  mounted : Z;
  open_files : list fat32_file_t;
  fat32_cwd_cluster : Z;
  fat32_cwd_path : list Z;
  con : list out           (* what was printed, latest first *)
}.
Arguments MkFs {D}.
Arguments disk {D}.
Arguments bpb {D}.
Arguments partition_lba {D}.
Arguments fat_lba {D}.
Arguments data_lba {D}.
Arguments mounted {D}.
Arguments open_files {D}.
Arguments fat32_cwd_cluster {D}.
Arguments fat32_cwd_path {D}.
Arguments con {D}.

#[export] Instance fs_console {D} : Console (fs D) := λ o s,
  MkFs (disk s) (bpb s) (partition_lba s) (fat_lba s) (data_lba s) (mounted s) (open_files s)
    (fat32_cwd_cluster s) (fat32_cwd_path s) (o :: con s).

Definition set_disk {D} (d : D) (s : fs D) : fs D := MkFs d (bpb s) (partition_lba s) (fat_lba s) (data_lba s) (mounted s)
  (open_files s) (fat32_cwd_cluster s) (fat32_cwd_path s) (con s).
Definition set_files {D} l (s : fs D) := MkFs (disk s) (bpb s) (partition_lba s) (fat_lba s) (data_lba s) (mounted s)
  l (fat32_cwd_cluster s) (fat32_cwd_path s) (con s).
Definition set_cwd {D} c p (s : fs D) := MkFs (disk s) (bpb s) (partition_lba s) (fat_lba s) (data_lba s) (mounted s)
  (open_files s) c p (con s).
Definition spc {D} (s : fs D) : Z := bpb_sectors_per_cluster (bpb s).
Definition root_cluster {D} (s : fs D) : Z := bpb_root_cluster (bpb s).

(** ** Directory entries: the 32 bytes at [32 * i] of a sector *)

Definition ent_name0 (buf : list Z) (i : Z) : Z := ld8 buf (32 * i).
Definition ent_name (buf : list Z) (i : Z) : list Z := slice buf (32 * i) 8.
Definition ent_ext (buf : list Z) (i : Z) : list Z := slice buf (32 * i + 8) 3.
Definition ent_attr (buf : list Z) (i : Z) : Z := ld8 buf (32 * i + 11).
Definition ent_cluster (buf : list Z) (i : Z) : Z :=
  Z.lor (Z.shiftl (ld16 buf (32 * i + 20)) 16) (ld16 buf (32 * i + 26)).
Definition ent_size (buf : list Z) (i : Z) : Z := ld32 buf (32 * i + 28).
Definition set_ent_cluster (buf : list Z) (i c : Z) : list Z :=
  st16 (st16 buf (32 * i + 20) (Z.land (Z.shiftr c 16) 0xFFFF)) (32 * i + 26) (Z.land c 0xFFFF).

Definition zeros512 : list Z := replicate 512 0.

(** ** Names *)

(** The 8.3 name as text. *)
Definition format_name (fat_name fat_ext : list Z) : list Z :=
  List.filter (λ c, negb (c =? 32)) fat_name ++
  (if negb (nth 0 fat_ext 0 =? 32)
   then 46 :: List.filter (λ c, negb (c =? 32)) fat_ext else []).

Definition upper (c : Z) : Z := if (97 <=? c) && (c <=? 122) then c - 32 else c.

(** At most [n] characters of [src], stopping at a dot. *)
Fixpoint take_until_dot (n : nat) (src : list Z) : list Z :=
  match n, src with
  | Datatypes.S n', c :: src' => if c =? 46 then [] else upper c :: take_until_dot n' src'
  | _, _ => []
  end.
(** What follows the first dot. *)
Fixpoint after_dot (src : list Z) : option (list Z) :=
  match src with
  | [] => None
  | c :: src' => if c =? 46 then Some src' else after_dot src'
  end.
Definition pad (n : nat) (l : list Z) : list Z := take n (l ++ replicate n 32).

Definition standardize_name (src : list Z) : list Z * list Z :=
  (pad 8 (take_until_dot 8 src),
   match after_dot src with
   | Some ext => pad 3 (map upper (take 3 ext))
   | None => replicate 3 32
   end).

(** The index of the last slash. *)
Fixpoint last_slash (path : list Z) : option nat :=
  match path with
  | [] => None
  | c :: path' =>
      match last_slash path' with
      | Some k => Some (Datatypes.S k)
      | None => if c =? 47 then Some O else None
      end
  end.
(** [strstr(part, "/")]: the component before the first slash, and the rest. *)
Fixpoint split_slash (path : list Z) : list Z * option (list Z) :=
  match path with
  | [] => ([], None)
  | c :: path' =>
      if c =? 47 then ([], Some path')
      else let '(a, r) := split_slash path' in (c :: a, r)
  end.

Section fat32.
Context {D : Type} `{BlockDev D}.
(** Contents of an uninitialised 512-byte stack buffer. *)
Context (junk : list Z).

(** ** The disk *)

(** [ata_read_sectors(lba, 1, buf)]: status and buffer afterwards. *)
Definition ata_read (lba : Z) (buf : list Z) : comp (fs D) (Z * list Z) :=
  gets (λ s, match bd_read (disk s) lba with Some b => (0, b) | None => (-1, buf) end).
Definition ata_write (lba : Z) (buf : list Z) : comp (fs D) unit :=
  modify (λ s, match bd_write (disk s) lba buf with Some d => set_disk d s | None => s end).

Definition cluster_to_lba (cluster : Z) : comp (fs D) Z :=
  gets (λ s, let cluster := if cluster <? 2 then root_cluster s else cluster in
             u32 (data_lba s + u32 (u32 (cluster - 2) * spc s))).

Definition get_next_cluster (cluster : Z) : comp (fs D) Z :=
  fat ← gets fat_lba;
  let fat_offset := u32 (cluster * 4) in
  let fat_sector := u32 (fat + fat_offset / 512) in
  let ent_offset := fat_offset mod 512 in
  '(st, buf) ← ata_read fat_sector junk;
  if negb (st =? 0) then mret FAT32_BAD
  else
    let next := Z.land (ld32 buf ent_offset) 0x0FFFFFFF in
    mret (if 0x0FFFFFF8 <=? next then FAT32_EOC else next).

Definition set_next_cluster (cluster next : Z) : comp (fs D) unit :=
  fat ← gets fat_lba;
  let fat_offset := u32 (cluster * 4) in
  let fat_sector := u32 (fat + fat_offset / 512) in
  let ent_offset := fat_offset mod 512 in
  '(_, buf) ← ata_read fat_sector junk;
  ata_write fat_sector (st32 buf ent_offset next).

(** One sector of the FAT: the first free entry that is not reserved. *)
Definition free_in_sector (buf : list Z) (sec : Z) : option Z :=
  match List.find (λ i, (Z.land (ld32 buf (4 * i)) 0x0FFFFFFF =? 0) && (2 <=? u32 (sec * 128 + i)))
          (map Z.of_nat (seq 0 128)) with
  | Some i => Some (u32 (sec * 128 + i))
  | None => None
  end.

Definition find_free_cluster : comp (fs D) Z :=
  n ← gets (λ s, bpb_fat_size_32 (bpb s));
  fat ← gets fat_lba;
  loop (λ '(sec, buf),
    if sec <? n then
      '(_, buf) ← ata_read (u32 (fat + sec)) buf;
      match free_in_sector buf sec with
      | Some c => mret (inr c)
      | None => mret (inl (u32 (sec + 1), buf))
      end
    else mret (inr 0)) (0, junk).

(** Write zeroes over the sectors [lo ..] of the cluster at [lba]. *)
Definition zero_sectors (lba lo : Z) : comp (fs D) unit :=
  n ← gets spc;
  for_each lo n (λ k, ata_write (u32 (lba + k)) zeros512).

(** ** Directories *)

Definition first_slot (buf : list Z) : option Z :=
  List.find (λ i, (ent_name0 buf i =? 0) || (ent_name0 buf i =? 0xE5)) (map Z.of_nat (seq 0 16)).

Definition fill_slot (buf : list Z) (i : Z) (name_8 ext_3 : list Z) (attr first size : Z) : list Z :=
  let buf := splice buf (32 * i) name_8 in
  let buf := splice buf (32 * i + 8) ext_3 in
  let buf := st8 buf (32 * i + 11) attr in
  let buf := set_ent_cluster buf i first in
  st32 buf (32 * i + 28) size.

Definition create_entry (parent_cluster : Z) (name : list Z) (attr first size : Z) : comp (fs D) Z :=
  let '(name_8, ext_3) := standardize_name name in
  loop (λ '(current, buf),
    if current =? FAT32_EOC then mret (inr (-1))
    else
      lba ← cluster_to_lba current;
      n ← gets spc;
      r ← loop (λ '(k, buf),
        if k <? n then
          '(_, buf) ← ata_read (u32 (lba + k)) buf;
          match first_slot buf with
          | Some i =>
              ata_write (u32 (lba + k)) (fill_slot buf i name_8 ext_3 attr first size);;
              mret (inr (None : option (list Z)))
          | None => mret (inl (k + 1, buf))
          end
        else mret (inr (Some buf))) (0, buf);
      match r with
      | None => mret (inr 0)
      | Some buf =>
          next ← get_next_cluster current;
          if next =? FAT32_EOC then
            extra ← find_free_cluster;
            if extra =? 0 then mret (inr (-1))
            else
              set_next_cluster current extra;;
              set_next_cluster extra FAT32_EOC;;
              elba ← cluster_to_lba extra;
              zero_sectors elba 0;;
              mret (inl (extra, zeros512))
          else mret (inl (next, buf))
      end) (parent_cluster, junk).

(** What a name search makes of the entry at [i]: stop the sector, skip the
    entry, or match. *)
Definition scan_sector (skip_lfn : bool) (name_8 ext_3 buf : list Z) : option Z :=
  let fix go (n : nat) (i : Z) : option Z :=
    match n with
    | O => None
    | Datatypes.S n' =>
        if ent_name0 buf i =? 0 then None
        else if ent_name0 buf i =? 0xE5 then go n' (i + 1)
        else if skip_lfn && (ent_attr buf i =? FAT_ATTR_LFN) then go n' (i + 1)
        else if bool_decide (ent_name buf i = name_8) && bool_decide (ent_ext buf i = ext_3) then Some i
        else go n' (i + 1)
    end in
  go 16%nat 0.

(** The search loops of resolve, open, rmdir and unlink: cluster, sector in
    the cluster, index in the sector and the sector's contents.  [fresh] when
    the buffer is declared inside the loop over the clusters. *)
Definition search_dir (skip_lfn fresh : bool) (start : Z) (name_8 ext_3 : list Z)
    : comp (fs D) (option (Z * Z * Z * list Z)) :=
  loop (λ '(search, buf),
    if search =? FAT32_EOC then mret (inr None)
    else
      lba ← cluster_to_lba search;
      n ← gets spc;
      r ← loop (λ '(k, buf),
        if k <? n then
          '(_, buf) ← ata_read (u32 (lba + k)) buf;
          match scan_sector skip_lfn name_8 ext_3 buf with
          | Some i => mret (inr (inl (search, k, i, buf)))
          | None => mret (inl (k + 1, buf))
          end
        else mret (inr (inr buf))) (0, if fresh then junk else buf);
      match r with
      | inl x => mret (inr (Some x))
      | inr buf => next ← get_next_cluster search; mret (inl (next, buf))
      end) (start, junk).

(** Resolve a path to a cluster, 0 when it does not exist. *)
Definition fat32_resolve_path (path : list Z) : comp (fs D) Z :=
  m ← gets mounted;
  if m =? 0 then mret 0
  else
    root ← gets root_cluster;
    match path with
    | [] => mret root
    | c0 :: _ =>
        cwd ← gets fat32_cwd_cluster;
        let current := if c0 =? 47 then root else cwd in
        if FAT32_MAX_PATH <=? Z.of_nat (length path) then undef
        else
          let part := if c0 =? 47 then tail path else path in
          loop (λ '(current, part),
            match part with
            | [] => mret (inr current)
            | _ =>
                let '(comp, rest) := split_slash part in
                let '(name_8, ext_3) := standardize_name comp in
                r ← search_dir true true current name_8 ext_3;
                match r with
                | None => mret (inr 0)
                | Some (_, _, i, buf) =>
                    let current := ent_cluster buf i in
                    match rest with
                    | None => mret (inr current)
                    | Some part => mret (inl (current, part))
                    end
                end
            end) (current, part)
    end.

(** The directory and name a path designates: the [parent_path] and
    [dir_name] buffers of mkdir and rmdir.  The [bool] tells whether the path
    has its last slash in front. *)
Definition parent_of (path : list Z) : comp (fs D) (Z * list Z * bool) :=
  if FAT32_MAX_PATH <=? Z.of_nat (length path) then undef
  else
    root ← gets root_cluster;
    cwd ← gets fat32_cwd_cluster;
    '(parent, nm, front) ←
      (match last_slash path with
       | None => mret (cwd, path, false)
       | Some O => mret (root, drop 1 path, true)
       | Some k => p ← fat32_resolve_path (take k path); mret (p, drop (Datatypes.S k) path, false)
       end);
    if FAT32_MAX_FILENAME <=? Z.of_nat (length nm) then undef else mret (parent, nm, front).

(** The first sector of a new directory. *)
Definition dot_sector (new_cluster dot_dot_cluster : Z) : list Z :=
  let blank := replicate 11 32 in
  let buf := splice zeros512 0 blank in
  let buf := st8 buf 0 46 in
  let buf := st8 buf 11 FAT_ATTR_DIRECTORY in
  let buf := set_ent_cluster buf 0 new_cluster in
  let buf := splice buf 32 blank in
  let buf := st8 buf 32 46 in
  let buf := st8 buf 33 46 in
  let buf := st8 buf 43 FAT_ATTR_DIRECTORY in
  set_ent_cluster buf 1 dot_dot_cluster.

Definition fat32_mkdir (path : list Z) : comp (fs D) Z :=
  m ← gets mounted;
  if m =? 0 then mret (-1)
  else
    '(parent, nm, front) ← parent_of path;
    if (parent =? 0) && negb front then mret (-1)
    else
      root ← gets root_cluster;
      let parent := if parent =? 0 then root else parent in
      existing ← fat32_resolve_path path;
      if negb (existing =? 0) then mret (-1)
      else
        new_cluster ← find_free_cluster;
        if new_cluster =? 0 then mret (-1)
        else
          set_next_cluster new_cluster FAT32_EOC;;
          lba ← cluster_to_lba new_cluster;
          ata_write lba (dot_sector new_cluster (if parent =? root then 0 else parent));;
          zero_sectors lba 1;;
          r ← create_entry parent nm FAT_ATTR_DIRECTORY new_cluster 0;
          mret (if negb (r =? 0) then -1 else 0).

(** Free the chain that starts at [cluster]. *)
Definition free_chain (cluster : Z) : comp (fs D) unit :=
  loop (λ c,
    if negb (c =? 0) && (c <? 0x0FFFFFF8) then
      next ← get_next_cluster c;
      set_next_cluster c FAT32_FREE;;
      mret (inl next)
    else mret (inr tt)) cluster.

(** Directories nested deeper than [depth] are out of fuel. *)
Fixpoint recursive_rm (depth : nat) (cluster : Z) : comp (fs D) unit :=
  match depth with
  | O => out_of_fuel
  | Datatypes.S depth' =>
      loop (λ '(current, buf),
        if negb (current =? FAT32_EOC) && negb (current =? FAT32_BAD) && negb (current =? 0) then
          lba ← cluster_to_lba current;
          n ← gets spc;
          buf ← loop (λ '(k, buf),
            if k <? n then
              '(_, buf) ← ata_read (u32 (lba + k)) buf;
              _ ← for_range 0 16 (λ i,
                if ent_name0 buf i =? 0 then mret (Some tt)
                else if ent_name0 buf i =? 0xE5 then mret None
                else if ent_name0 buf i =? 46 then mret None
                else if ent_attr buf i =? FAT_ATTR_LFN then mret None
                else
                  (if negb (Z.land (ent_attr buf i) FAT_ATTR_DIRECTORY =? 0)
                   then recursive_rm depth' (ent_cluster buf i)
                   else free_chain (ent_cluster buf i));;
                  mret None);
              mret (inl (k + 1, buf))
            else mret (inr buf)) (0, buf);
          next ← get_next_cluster current;
          set_next_cluster current FAT32_FREE;;
          mret (inl (next, buf))
        else mret (inr tt)) (cluster, junk)
  end.

(** Each level takes more than 512 bytes of a 64 KiB stack. *)
Definition rm_depth : nat := 128.

Definition fat32_rmdir (path : list Z) : comp (fs D) Z :=
  m ← gets mounted;
  if m =? 0 then mret (-1)
  else if bool_decide (path = [47]) then mret (-1)
  else
    cluster ← fat32_resolve_path path;
    if cluster =? 0 then mret (-1)
    else
      '(parent, nm, _) ← parent_of path;
      recursive_rm rm_depth cluster;;
      let '(name_8, ext_3) := standardize_name nm in
      r ← search_dir false true parent name_8 ext_3;
      match r with
      | Some (c, k, i, buf) =>
          lba ← cluster_to_lba c;
          ata_write (u32 (lba + k)) (st8 buf (32 * i) 0xE5);;
          mret 0
      | None => mret 0
      end.

(** ** Mounting and listing *)

Definition fat32_mount (lba_start : Z) : comp (fs D) Z :=
  modify (λ s, MkFs (disk s) (bpb s) lba_start (fat_lba s) (data_lba s) (mounted s) (open_files s)
                 (fat32_cwd_cluster s) (fat32_cwd_path s) (con s));;
  '(st, sector0) ← ata_read lba_start junk;
  if negb (st =? 0) then mret (-1)
  else
    let b := take sizeof_bpb sector0 in
    modify (λ s, MkFs (disk s) b (partition_lba s) (fat_lba s) (data_lba s) (mounted s) (open_files s)
                   (fat32_cwd_cluster s) (fat32_cwd_path s) (con s));;
    print_string "FAT32: Attempting mount at LBA ";;
    kprint_dec lba_start;;
    print_string (NL +:+ "FAT32: OEM: ");;
    for_each 0 8 (λ i, print_char (nth (Z.to_nat i) (bpb_oem b) 0));;
    print_string " | Sig: 0x";;
    kprint_hex (bpb_boot_signature b);;
    print_char 10;;
    (if negb (bpb_boot_signature b =? 0x29) && negb (bpb_boot_signature b =? 0x28)
     then print_string ("FAT32: [WARN] Non-standard boot signature found. Proceeding anyway." +:+ NL)
     else mret tt);;
    if negb (bpb_bytes_per_sector b =? 512) then
      print_string "FAT32: [ERROR] Only 512 byte sectors supported. Found: ";;
      kprint_dec (bpb_bytes_per_sector b);;
      print_char 10;;
      mret (-1)
    else
      modify (λ s,
        let fat := u32 (partition_lba s + bpb_reserved_sectors b) in
        MkFs (disk s) (bpb s) (partition_lba s) fat
          (u32 (fat + u32 (bpb_num_fats b * bpb_fat_size_32 b))) 1
          (map (set_valid 0) (open_files s)) (bpb_root_cluster b) [47] (con s));;
      print_string "FAT32: Mounted successfully. Root Cluster: ";;
      kprint_dec (bpb_root_cluster b);;
      print_char 10;;
      mret 0.

Definition fat32_is_mounted : comp (fs D) Z := gets mounted.

(** The callback acts on the whole system, of which the file system is a part. *)
Definition fat32_list_dir {K} `{Part (fs D) K} (cluster : Z) (cb : list Z → Z → Z → Z → comp K unit) : comp K Z :=
  m ← in_part (gets mounted);
  if m =? 0 then mret (-1)
  else
    cwd ← in_part (gets fat32_cwd_cluster);
    root ← in_part (gets root_cluster);
    let cluster := if cluster =? 0 then cwd else cluster in
    let cluster := if cluster =? 0 then root else cluster in
    loop (λ current,
      if negb (current =? FAT32_EOC) && negb (current =? FAT32_BAD) then
        lba ← in_part (cluster_to_lba current);
        n ← in_part (gets spc);
        r ← for_range 0 n (λ k,
          '(st, buf) ← in_part (ata_read (u32 (lba + k)) junk);
          if negb (st =? 0) then mret (Some (-1))
          else
            for_range 0 16 (λ i,
              if ent_name0 buf i =? 0 then mret (Some 0)
              else if ent_name0 buf i =? 0xE5 then mret None
              else if ent_attr buf i =? FAT_ATTR_LFN then mret None
              else
                cb (format_name (ent_name buf i) (ent_ext buf i)) (ent_attr buf i) (ent_size buf i)
                   (ent_cluster buf i);;
                mret None));
        match r with
        | Some x => mret (inr x)
        | None => next ← in_part (get_next_cluster current); mret (inl next)
        end
      else mret (inr 0)) cluster.

(** ** Files *)

Definition get_file (fd : Z) : comp (fs D) fat32_file_t := s ← get; must (znth (open_files s) fd).
Definition set_file (fd : Z) (f : fat32_file_t) : comp (fs D) unit :=
  s ← get; l ← must (zset (open_files s) fd f); put (set_files l s).

(** The check at the head of every file operation: the open file, if any. *)
Definition open_file (fd : Z) : comp (fs D) (option fat32_file_t) :=
  if (fd <? 0) || (FAT32_MAX_OPEN_FILES <=? fd) then mret None
  else f ← get_file fd; mret (if valid f =? 0 then None else Some f).

(** What follows the last slash. *)
Definition base_name (path : list Z) : list Z :=
  match last_slash path with Some k => drop (Datatypes.S k) path | None => path end.
Definition starts_with_slash (path : list Z) : bool :=
  match path with c :: _ => c =? 47 | [] => false end.

(** Creation in mode ['w']: the new file's first cluster, 0 on failure. *)
Definition create_file (path : list Z) : comp (fs D) Z :=
  root ← gets root_cluster;
  cwd ← gets fat32_cwd_cluster;
  let parent := if starts_with_slash path then root else cwd in
  target ← find_free_cluster;
  if target =? 0 then mret 0
  else
    set_next_cluster target FAT32_EOC;;
    lba ← cluster_to_lba target;
    zero_sectors lba 0;;
    r ← create_entry parent (base_name path) FAT_ATTR_ARCHIVE target 0;
    mret (if negb (r =? 0) then 0 else target).

Definition fat32_open (path : list Z) (mode : Z) : comp (fs D) Z :=
  target ← fat32_resolve_path path;
  target ← (if (target =? 0) && (mode =? 119) then create_file path else mret target);
  if target =? 0 then mret (-1)
  else
    slot ← for_range 0 FAT32_MAX_OPEN_FILES (λ i,
      f ← get_file i; mret (if valid f =? 0 then Some i else None));
    match slot with
    | None => mret (-1)
    | Some fd =>
        old ← get_file fd;
        set_file fd (MkFile 1 target target 0 0 0 (is_dir old) (dir_cluster old) (dir_entry_index old)
                       (take 11 (base_name path)));;
        root ← gets root_cluster;
        cwd ← gets fat32_cwd_cluster;
        let parent := if starts_with_slash path then root else cwd in
        let '(name_8, ext_3) := standardize_name (base_name path) in
        r ← search_dir false true parent name_8 ext_3;
        f ← get_file fd;
        match r with
        | Some (c, k, i, buf) =>
            set_file fd (MkFile (valid f) (first_cluster f) (current_cluster f) (cluster_offset f)
                           (ent_size buf i) (position f) (is_dir f) c (u32 (k * 16 + i)) (fname f));;
            mret fd
        | None => set_file fd (set_valid 0 f);; mret (-1)
        end
    end.

Definition fat32_get_size (fd : Z) : comp (fs D) Z :=
  f ← open_file fd; mret (match f with Some f => file_size f | None => 0 end).

Definition cluster_bytes (s : fs D) : Z := u32 (spc s * 512).

(** [n] steps along the chain, stopping at its end. *)
Definition walk_chain (first n : Z) : comp (fs D) Z :=
  loop (λ '(i, c),
    if i <? n then
      if (c =? FAT32_EOC) || (c =? FAT32_BAD) then mret (inr c)
      else next ← get_next_cluster c; mret (inl (u32 (i + 1), next))
    else mret (inr c)) (0, first).

Definition fat32_seek (fd pos : Z) : comp (fs D) Z :=
  f ← open_file fd;
  match f with
  | None => mret (-1)
  | Some f =>
      let pos := if file_size f <? pos then file_size f else pos in
      cb ← gets cluster_bytes;
      if cb =? 0 then undef
      else
        c ← walk_chain (first_cluster f) (pos / cb);
        set_file fd (set_place c (pos mod cb) pos f);;
        mret 0
  end.

(** Read from the cluster [cur] at offset [off] on: the bytes, and where the
    reading stopped.  [stop] is the test on the cluster that ends it. *)
Definition read_loop (stop : Z → bool) (cb len cur off : Z) : comp (fs D) (list Z * Z * Z) :=
  loop (λ '(acc, cur, off, buf),
    if Z.of_nat (length acc) <? len then
      if stop cur then mret (inr (acc, cur, off))
      else
        let sector_in_cluster := off / 512 in
        let off_in_sector := off mod 512 in
        let can_read := Z.min (512 - off_in_sector) (len - Z.of_nat (length acc)) in
        lba ← cluster_to_lba cur;
        '(st, buf) ← ata_read (u32 (lba + sector_in_cluster)) buf;
        if negb (st =? 0) then mret (inr (acc, cur, off))
        else
          let acc := acc ++ slice buf off_in_sector (Z.to_nat can_read) in
          let off := u32 (off + can_read) in
          if cb <=? off then
            next ← get_next_cluster cur;
            mret (inl (acc, next, 0, buf))
          else mret (inl (acc, cur, off, buf))
    else mret (inr (acc, cur, off))) ([], cur, off, junk).

(** The length of a read at [pos], cut at the end of the file. *)
Definition clamp_len (fsize pos len : Z) : Z := if fsize <? u32 (pos + len) then u32 (fsize - pos) else len.

Definition fat32_read_at (fd offset len : Z) : comp (fs D) (Z * list Z) :=
  f ← open_file fd;
  match f with
  | None => mret (-1, [])
  | Some f =>
      if file_size f <=? offset then mret (0, [])
      else
        let len := clamp_len (file_size f) offset len in
        cb ← gets cluster_bytes;
        if cb =? 0 then undef
        else
          c ← loop (λ '(i, c),
            if i <? offset / cb then
              if (c =? FAT32_EOC) || (c =? FAT32_BAD) then mret (inr None)
              else next ← get_next_cluster c; mret (inl (u32 (i + 1), next))
            else mret (inr (Some c))) (0, first_cluster f);
          match c with
          | None => mret (0, [])
          | Some c =>
              '(bytes, _, _) ← read_loop (λ c, (c =? FAT32_EOC) || (c =? FAT32_BAD)) cb len c (offset mod cb);
              mret (i32 (Z.of_nat (length bytes)), bytes)
          end
  end.

Definition fat32_close (fd : Z) : comp (fs D) unit :=
  if (0 <=? fd) && (fd <? FAT32_MAX_OPEN_FILES) then f ← get_file fd; set_file fd (set_valid 0 f) else mret tt.

Definition fat32_read (fd len : Z) : comp (fs D) (Z * list Z) :=
  f ← open_file fd;
  match f with
  | None => mret (-1, [])
  | Some f =>
      if file_size f <=? position f then mret (0, [])
      else
        let len := clamp_len (file_size f) (position f) len in
        cb ← gets cluster_bytes;
        '(bytes, cur, off) ← read_loop (λ c, c =? FAT32_EOC) cb len (current_cluster f) (cluster_offset f);
        set_file fd (set_place cur off (u32 (position f + Z.of_nat (length bytes))) f);;
        mret (i32 (Z.of_nat (length bytes)), bytes)
  end.

(** The write loop: bytes written, and where the writing stopped. *)
Definition write_loop (cb : Z) (data : list Z) (cur off : Z) : comp (fs D) (Z * Z * Z) :=
  loop (λ '(written, cur, off, buf),
    if written <? Z.of_nat (length data) then
      let sector_in_cluster := off / 512 in
      let offset_in_sector := off mod 512 in
      let can_write := Z.min (512 - offset_in_sector) (Z.of_nat (length data) - written) in
      lba ← cluster_to_lba cur;
      let lba := u32 (lba + sector_in_cluster) in
      '(_, buf) ← (if can_write <? 512 then ata_read lba buf else mret (0, buf));
      let buf := splice buf offset_in_sector (slice data written (Z.to_nat can_write)) in
      ata_write lba buf;;
      let written := written + can_write in
      let off := u32 (off + can_write) in
      if cb <=? off then
        next ← get_next_cluster cur;
        if next =? FAT32_EOC then
          next ← find_free_cluster;
          if next =? 0 then mret (inr (written, cur, off))
          else
            set_next_cluster cur next;;
            set_next_cluster next FAT32_EOC;;
            nlba ← cluster_to_lba next;
            zero_sectors nlba 0;;
            mret (inl (written, next, 0, buf))
        else mret (inl (written, next, 0, buf))
      else mret (inl (written, cur, off, buf))
    else mret (inr (written, cur, off))) (0, cur, off, junk).

Definition fat32_write (fd : Z) (data : list Z) : comp (fs D) Z :=
  f ← open_file fd;
  match f with
  | None => mret (-1)
  | Some f =>
      cb ← gets cluster_bytes;
      '(written, cur, off) ← write_loop cb data (current_cluster f) (cluster_offset f);
      let f := set_place cur off (u32 (position f + written)) f in
      set_file fd f;;
      (if (0 <? written) && (file_size f <? position f) then
         let f := set_fsize (position f) f in
         set_file fd f;;
         lba ← cluster_to_lba (dir_cluster f);
         let lba := u32 (lba + dir_entry_index f / 16) in
         '(_, buf) ← ata_read lba junk;
         ata_write lba (st32 buf (32 * (dir_entry_index f mod 16) + 28) (file_size f))
       else mret tt);;
      mret (i32 written)
  end.

Definition fat32_unlink (path : list Z) : comp (fs D) Z :=
  m ← gets mounted;
  if m =? 0 then mret (-1)
  else
    let '(name_8, ext_3) := standardize_name path in
    root ← gets root_cluster;
    cwd ← gets fat32_cwd_cluster;
    let parent := if starts_with_slash path then root else cwd in
    r ← search_dir false false parent name_8 ext_3;
    match r with
    | None => mret (-1)
    | Some (c, k, i, buf) =>
        if negb (Z.land (ent_attr buf i) FAT_ATTR_DIRECTORY =? 0) then mret (-1)
        else
          lba ← cluster_to_lba c;
          ata_write (u32 (lba + k)) (st8 buf (32 * i) 0xE5);;
          free_chain (ent_cluster buf i);;
          mret 0
    end.

(** ** The working directory *)

(** The path without its last component. *)
Definition parent_path (p : list Z) : list Z :=
  match last_slash p with
  | Some O => take 1 p
  | Some k => take k p
  | None => p
  end.

Definition fat32_chdir (path : list Z) : comp (fs D) Z :=
  cluster ← fat32_resolve_path path;
  if cluster =? 0 then mret (-1)
  else
    cwd ← gets fat32_cwd_path;
    if starts_with_slash path then
      modify (set_cwd cluster (take 255 path));; mret 0
    else if bool_decide (path = [46]) then mret 0
    else if bool_decide (path = [46; 46]) then
      if bool_decide (cwd = [47]) then mret 0
      else
        match last_slash cwd with
        | None => undef
        | Some _ => modify (set_cwd cluster (parent_path cwd));; mret 0
        end
    else
      let new := (if bool_decide (cwd = [47]) then cwd else cwd ++ [47]) ++ path in
      if FAT32_MAX_PATH <=? Z.of_nat (length new) then undef
      else modify (set_cwd cluster new);; mret 0.

Definition fat32_print_cwd : comp (fs D) unit := p ← gets fat32_cwd_path; print_bytes p.

Definition ls_callback (name : list Z) (attr size cluster : Z) : comp (fs D) unit :=
  (if negb (Z.land attr FAT_ATTR_DIRECTORY =? 0) then print_string "<DIR> " else print_string "      ");;
  print_bytes name;;
  for_each (Z.of_nat (length name)) 15 (λ _, print_char 32);;
  (if Z.land attr FAT_ATTR_DIRECTORY =? 0 then kprint_dec size;; print_string " bytes" else mret tt);;
  print_char 10.

Definition fat32_ls (cluster : Z) : comp (fs D) unit := _ ← fat32_list_dir cluster ls_callback; mret tt.
End fat32.
