(* ===== verification/Ata.v ===== *)
(** * Ata: the disk driver (src/drivers/ata.c, include/ata.h)

    PIO transfers go through port operations that are arguments, the embedded
    ramdisk through the memory the state holds.  A transfer answers the status
    and the bytes delivered to the buffer.  The ramdisk is an instance of
    [BlockDev], and the driver in ramdisk mode refines it. *)

From Stdlib Require Import ZArith Lia String.
From stdpp Require Import base numbers list option strings.
From S2P Require Import Prelude Interfaces Fat32.
Open Scope Z_scope.

Definition ATA_PRIMARY_BASE : Z := 0x1F0.
Definition ATA_SECONDARY_BASE : Z := 0x170.
Definition ATA_REG_DATA : Z := 0.
Definition ATA_REG_FEATURES : Z := 1.
Definition ATA_REG_SECCOUNT : Z := 2.
Definition ATA_REG_LBA0 : Z := 3.
Definition ATA_REG_LBA1 : Z := 4.
Definition ATA_REG_LBA2 : Z := 5.
Definition ATA_REG_HDDEVSEL : Z := 6.
Definition ATA_REG_COMMAND : Z := 7.
Definition ATA_REG_STATUS : Z := 7.
Definition ATA_CMD_READ_PIO : Z := 0x20.
Definition ATA_CMD_WRITE_PIO : Z := 0x30.
Definition ATA_CMD_IDENTIFY : Z := 0xEC.
Definition ATA_SR_BSY : Z := 0x80.
Definition ATA_SR_DRQ : Z := 0x08.
Definition ATA_SR_ERR : Z := 0x01.
Definition ATA_SECTOR_SIZE : Z := 512.

(** The statics of ata.c, the ramdisk variables of pmm.c and the memory the
    ramdisk is in. *)
Record ata := MkAta {
  total_sectors : Z;
  drive_present : bool;
  active_base_port : Z;
  active_drive_sel : Z;
  ramdisk_mode : bool;
  ramdisk_ptr : Z;
  partition_offset : Z;
  ramdisk_start : Z;
  ramdisk_size : Z;
  ramdisk_loaded : bool;
  ram : memory
}.
Definition ata_boot (start size : Z) (loaded : bool) (m : memory) : ata :=
  MkAta 0 false ATA_PRIMARY_BASE 0xE0 false 0 0 start size loaded m.

Definition set_total n a := MkAta n (drive_present a) (active_base_port a) (active_drive_sel a) (ramdisk_mode a)
  (ramdisk_ptr a) (partition_offset a) (ramdisk_start a) (ramdisk_size a) (ramdisk_loaded a) (ram a).
Definition set_present b a := MkAta (total_sectors a) b (active_base_port a) (active_drive_sel a) (ramdisk_mode a)
  (ramdisk_ptr a) (partition_offset a) (ramdisk_start a) (ramdisk_size a) (ramdisk_loaded a) (ram a).
Definition set_active p d a := MkAta (total_sectors a) (drive_present a) p d (ramdisk_mode a)
  (ramdisk_ptr a) (partition_offset a) (ramdisk_start a) (ramdisk_size a) (ramdisk_loaded a) (ram a).
Definition set_ramdisk a := MkAta (u32 (ramdisk_size a / ATA_SECTOR_SIZE)) true (active_base_port a) (active_drive_sel a) true
  (ramdisk_start a) 0 (ramdisk_start a) (ramdisk_size a) (ramdisk_loaded a) (ram a).
Definition set_part p a := MkAta (total_sectors a) (drive_present a) (active_base_port a) (active_drive_sel a) (ramdisk_mode a)
  (ramdisk_ptr a) p (ramdisk_start a) (ramdisk_size a) (ramdisk_loaded a) (ram a).
Definition set_ram m a := MkAta (total_sectors a) (drive_present a) (active_base_port a) (active_drive_sel a) (ramdisk_mode a)
  (ramdisk_ptr a) (partition_offset a) (ramdisk_start a) (ramdisk_size a) (ramdisk_loaded a) m.

(** A sector that holds a FAT32 boot record. *)
Definition is_fat32_bpb (sector : list Z) : bool :=
  if negb (bpb_boot_signature sector =? 0x28) && negb (bpb_boot_signature sector =? 0x29) then false
  else if negb (bpb_bytes_per_sector sector =? 512) then false
  else if negb (bool_decide (bpb_fs_type sector = bytes_of "FAT32   ")) then false
  else true.

Section driver.
Context {X : Type} `{Console X}.
Context (outb outw : Z → Z → comp X unit) (inb inw : Z → comp X Z) (wait_io : comp X unit).

Definition in_ata {A} (m : comp ata A) : comp (ata * X) A := zoom fst (λ a s, (a, s.2)) m.
Definition in_io {A} (m : comp X A) : comp (ata * X) A := zoom snd (λ x s, (s.1, x)) m.

(** [while (more(status) && timeout--);]: the counter afterwards. *)
Definition poll (port : Z) (more : Z → bool) (timeout : Z) : comp X Z :=
  loop (λ t,
    status ← inb port;
    if more status then
      if negb (t =? 0) then mret (inl (t - 1)) else mret (inr (u32 (t - 1)))
    else mret (inr t)) timeout.
Definition busy (status : Z) : bool := negb (Z.land status ATA_SR_BSY =? 0).
Definition no_data (status : Z) : bool := Z.land status ATA_SR_DRQ =? 0.

Definition ata_wait_bsy : comp (ata * X) unit :=
  p ← in_ata (gets active_base_port); _ ← in_io (poll (p + ATA_REG_STATUS) busy 500000); mret tt.
Definition ata_wait_drq : comp (ata * X) unit :=
  p ← in_ata (gets active_base_port); _ ← in_io (poll (p + ATA_REG_STATUS) no_data 500000); mret tt.

(** [n] words from the data port, as the bytes they fill. *)
Definition read_words (port : Z) (n : nat) : comp X (list Z) :=
  loop (λ '(i, acc),
    if i <? Z.of_nat n then
      w ← inw port; mret (inl (i + 1, acc ++ le_enc 2 w))
    else mret (inr acc)) (0, []).

(** IDENTIFY one of the four drives. *)
Definition probe (base drive_sel : Z) : comp (ata * X) (option Z) :=
  in_io (outb (base + ATA_REG_HDDEVSEL) drive_sel);;
  in_io wait_io;;
  in_io (outb (base + ATA_REG_COMMAND) ATA_CMD_IDENTIFY);;
  in_io wait_io;;
  status ← in_io (inb (base + ATA_REG_STATUS));
  if (status =? 0) || (status =? 0xFF) then mret None
  else
    timeout ← in_io (poll (base + ATA_REG_STATUS) busy 100000);
    if timeout =? 0 then mret None
    else
      status ← in_io (inb (base + ATA_REG_STATUS));
      if negb (Z.land status ATA_SR_ERR =? 0) then mret None
      else
        timeout ← in_io (poll (base + ATA_REG_STATUS) no_data 100000);
        if timeout =? 0 then mret None
        else
          data ← in_io (read_words (base + ATA_REG_DATA) 256);
          in_ata (modify (set_total (ld32 data 120)));;
          if 0 <? ld32 data 120 then
            in_ata (modify (set_active base (if drive_sel =? 0xB0 then 0xF0 else 0xE0)));;
            mret (Some 1)
          else mret None.

Definition ata_detect_real_drive : comp (ata * X) Z :=
  r ← for_range 0 2 (λ b,
    for_range 0 2 (λ d,
      probe (if b =? 0 then ATA_PRIMARY_BASE else ATA_SECONDARY_BASE) (if d =? 0 then 0xA0 else 0xB0)));
  mret (default 0 r).

(** Select the drive and give it a command for [count] sectors at [lba]. *)
Definition ata_command (lba count cmd : Z) : comp (ata * X) unit :=
  p ← in_ata (gets active_base_port);
  sel ← in_ata (gets active_drive_sel);
  in_io (outb (p + ATA_REG_HDDEVSEL) (Z.lor sel (Z.land (Z.shiftr lba 24) 0x0F));;
         outb (p + ATA_REG_FEATURES) 0;;
         outb (p + ATA_REG_SECCOUNT) count;;
         outb (p + ATA_REG_LBA0) (u8 lba);;
         outb (p + ATA_REG_LBA1) (u8 (Z.shiftr lba 8));;
         outb (p + ATA_REG_LBA2) (u8 (Z.shiftr lba 16));;
         outb (p + ATA_REG_COMMAND) cmd).

Definition ata_read_sectors (lba count : Z) : comp (ata * X) (Z * list Z) :=
  a ← in_ata get;
  if negb (drive_present a) then mret (-1, [])
  else if ramdisk_mode a then
    let offset := u64 (lba * ATA_SECTOR_SIZE) in
    let len := u64 (count * ATA_SECTOR_SIZE) in
    if ramdisk_size a <? u64 (offset + len) then mret (-1, [])
    else mret (0, mem_bytes (ram a) (u64 (ramdisk_ptr a + offset)) (Z.to_nat (u32 len)))
  else
    ata_command lba count ATA_CMD_READ_PIO;;
    loop (λ '(i, acc),
      if i <? count then
        ata_wait_bsy;;
        ata_wait_drq;;
        p ← in_ata (gets active_base_port);
        ws ← in_io (read_words (p + ATA_REG_DATA) 256);
        mret (inl (i + 1, acc ++ ws))
      else mret (inr (0, acc))) (0, []).

Definition ata_write_sectors (lba count : Z) (buffer : list Z) : comp (ata * X) Z :=
  a ← in_ata get;
  if negb (drive_present a) then mret (-1)
  else if ramdisk_mode a then
    let offset := u64 (lba * ATA_SECTOR_SIZE) in
    let len := u64 (count * ATA_SECTOR_SIZE) in
    if ramdisk_size a <? u64 (offset + len) then mret (-1)
    else
      in_ata (modify (set_ram (mem_store (ram a) (u64 (ramdisk_ptr a + offset)) (take (Z.to_nat (u32 len)) buffer))));;
      mret 0
  else
    ata_command lba count ATA_CMD_WRITE_PIO;;
    for_each 0 count (λ i,
      ata_wait_bsy;;
      ata_wait_drq;;
      for_each 0 256 (λ j,
        p ← in_ata (gets active_base_port);
        in_io (outw (p + ATA_REG_DATA) (ld16 buffer (512 * i + 2 * j)))));;
    p ← in_ata (gets active_base_port);
    in_io (outb (p + ATA_REG_COMMAND) 0xE7);;
    ata_wait_bsy;;
    mret 0.

(** Entry [i] of the partition table of a master boot record. *)
Definition mbr_type (sector : list Z) (i : Z) : Z := ld8 sector (446 + 16 * i + 4).
Definition mbr_start (sector : list Z) (i : Z) : Z := ld32 sector (446 + 16 * i + 8).

(** What [ata_init] makes of the first sector of a drive: the offset of the
    volume, if there is one. *)
Definition find_volume (sector : list Z) : comp (ata * X) (option Z) :=
  if is_fat32_bpb sector then
    in_io (print_string ("ATA: Legacy IDE drive (Raw FAT32) found." +:+ NL));;
    mret (Some 0)
  else if (ld8 sector 510 =? 0x55) && (ld8 sector 511 =? 0xAA) then
    for_range 0 4 (λ i,
      if (mbr_type sector i =? 0x0B) || (mbr_type sector i =? 0x0C) then
        '(st, p_sector) ← ata_read_sectors (mbr_start sector i) 1;
        if (st =? 0) && is_fat32_bpb p_sector then
          in_io (print_string "ATA: Legacy IDE drive (MBR Partition ";;
                 kprint_dec (i + 1);;
                 print_string ") found at LBA ";;
                 kprint_dec (mbr_start sector i);;
                 print_char 10);;
          mret (Some (mbr_start sector i))
        else mret None
      else mret None)
  else mret None.

(** The legacy drive: is there one with a FAT32 volume on it? *)
Definition try_drive : comp (ata * X) bool :=
  found ← ata_detect_real_drive;
  if negb (found =? 0) then
    in_ata (modify (set_present true));;
    '(st, sector) ← ata_read_sectors 0 1;
    v ← (if st =? 0 then find_volume sector else mret None);
    match v with
    | Some p => in_ata (modify (set_part p));; mret true
    | None =>
        in_ata (modify (set_present false));;
        in_io (print_string ("ATA: Legacy drive found but no valid FAT32 partition detected." +:+ NL));;
        mret false
    end
  else mret false.

Definition ata_init : comp (ata * X) Z :=
  in_io (print_string ("ATA: Detecting storage..." +:+ NL));;
  in_ata (modify (set_part 0));;
  volume ← try_drive;
  match volume with
  | true => mret 0
  | false =>
      a ← in_ata get;
      if ramdisk_loaded a then
        in_ata (modify set_ramdisk);;
        a ← in_ata get;
        in_io (print_string "ATA: Using embedded ramdisk (FAT32). Sectors: ";;
               kprint_dec (total_sectors a);;
               print_char 10);;
        mret 0
      else
        in_io (print_string ("ATA: No storage detected." +:+ NL));;
        mret (-1)
  end.

Definition ata_get_partition_offset : comp (ata * X) Z := in_ata (gets partition_offset).
Definition ata_is_ramdisk : comp (ata * X) Z := in_ata (gets (λ a, if ramdisk_mode a then 1 else 0)).
Definition ata_get_sector_count : comp (ata * X) Z := in_ata (gets total_sectors).
End driver.

(** ** The ramdisk as a block device *)

#[export] Instance is_byte_dec b : Decision (is_byte b).
Proof. unfold is_byte. apply _. Defined.

(** An image of a disk: bytes. *)
Record ramdisk := Ramdisk { rd_bytes : list Z; rd_wf : Forall is_byte rd_bytes }.

Definition rd_in (d : ramdisk) (l : Z) : bool := (0 <=? l) && (512 * l + 512 <=? Z.of_nat (length (rd_bytes d))).
Definition rd_read (d : ramdisk) (l : Z) : option (list Z) :=
  if rd_in d l then Some (slice (rd_bytes d) (512 * l) 512) else None.
Definition rd_write (d : ramdisk) (l : Z) (b : list Z) : option ramdisk :=
  match decide (Forall is_byte b) with
  | left Hb =>
      if rd_in d l && (length b =? 512)%nat
      then Some (Ramdisk (splice (rd_bytes d) (512 * l) b) (splice_bytes _ _ _ (rd_wf d) Hb))
      else None
  | right _ => None
  end.

Lemma rd_in_spec d l : rd_in d l = true → 0 ≤ l ∧ (Z.to_nat (512 * l) + 512 ≤ length (rd_bytes d))%nat.
Proof. unfold rd_in. intros H. destr_bool. lia. Qed.

Lemma rd_write_spec d l b d' :
  rd_write d l b = Some d' →
  rd_in d l = true ∧ length b = 512%nat ∧ rd_bytes d' = splice (rd_bytes d) (512 * l) b ∧
  length (rd_bytes d') = length (rd_bytes d).
Proof.
  unfold rd_write. destruct (decide _) as [Hb|]; [|done]. destruct (rd_in d l) eqn:Hin; [|done]. simpl.
  destruct (Nat.eqb_spec (length b) 512) as [Hl|]; [|done]. intros [= <-]. simpl. split_and!; [done..|].
  apply length_splice. apply rd_in_spec in Hin. lia.
Qed.

Lemma rd_in_same d d' l : length (rd_bytes d') = length (rd_bytes d) → rd_in d' l = rd_in d l.
Proof. unfold rd_in. by intros ->. Qed.

#[export] Program Instance ramdisk_dev : BlockDev ramdisk := {
  bd_read := rd_read;
  bd_write := rd_write
}.
Next Obligation.
  intros d l b Hr. unfold rd_read in Hr. destruct (rd_in d l) eqn:Hin; [|done]. simplify_eq.
  destruct (rd_in_spec _ _ Hin). split; [by apply length_slice|]. apply slice_bytes, rd_wf.
Qed.
Next Obligation.
  intros d l b b0 Hr Hl Hb. unfold rd_read in Hr. unfold rd_write. destruct (rd_in d l) eqn:Hin; [|done].
  destruct (decide _); [|done]. rewrite Hl. simpl. eauto.
Qed.
Next Obligation.
  intros d l b d' Hl Hb Hw. destruct (rd_write_spec _ _ _ _ Hw) as (Hin & _ & E & El).
  unfold rd_read. rewrite (rd_in_same d d') by done. rewrite Hin, E. f_equal.
  apply rd_in_spec in Hin. rewrite <-Hl. apply slice_splice_same. lia.
Qed.
Next Obligation.
  intros d l k b d' Hl Hb Hw Hne. destruct (rd_write_spec _ _ _ _ Hw) as (Hin & _ & E & El).
  unfold rd_read. rewrite (rd_in_same d d') by done. destruct (rd_in d k) eqn:Hk; [|done]. f_equal. rewrite E.
  apply rd_in_spec in Hin. apply rd_in_spec in Hk.
  destruct (Z.lt_total k l) as [?|[?|?]]; [|done|].
  - apply slice_splice_before; lia.
  - apply slice_splice_after; lia.
Qed.

(** Memory holds the image at the place the driver looks. *)
Definition holds (a : ata) (d : ramdisk) : Prop :=
  ramdisk_size a = Z.of_nat (length (rd_bytes d)) ∧ 0 ≤ ramdisk_ptr a ∧
  ramdisk_ptr a + ramdisk_size a ≤ 2 ^ 64 ∧
  ∀ k, (k < length (rd_bytes d))%nat → rd_bytes d !! k = Some (ram a (ramdisk_ptr a + Z.of_nat k)).

Lemma holds_slice a d o n :
  holds a d → 0 ≤ o → (Z.to_nat o + n ≤ length (rd_bytes d))%nat →
  mem_bytes (ram a) (ramdisk_ptr a + o) n = slice (rd_bytes d) o n.
Proof.
  intros (_ & _ & _ & Hk) Ho Hn. apply list_eq. intros i. unfold slice.
  destruct (decide (i < n)%nat) as [Hi|Hi].
  - rewrite lookup_mem_bytes by done. rewrite lookup_take_lt, lookup_drop by done.
    rewrite Hk by lia. do 2 f_equal. lia.
  - rewrite !lookup_ge_None_2; [done| |]; rewrite ?length_mem_bytes, ?length_take; lia.
Qed.

Lemma holds_store a d o bs d' :
  holds a d → 0 ≤ o → (Z.to_nat o + length bs ≤ length (rd_bytes d))%nat →
  rd_bytes d' = splice (rd_bytes d) o bs →
  holds (set_ram (mem_store (ram a) (ramdisk_ptr a + o) bs) a) d'.
Proof.
  intros (Hs & Hp & Hfit & Hk) Ho Hn E.
  assert (El : length (rd_bytes d') = length (rd_bytes d)) by (rewrite E; by apply length_splice).
  split_and!; simpl; [congruence|done|done|]. intros k Hlt. rewrite El in Hlt. rewrite E. unfold splice, mem_store.
  destruct (Z.leb_spec (ramdisk_ptr a + o) (ramdisk_ptr a + Z.of_nat k)) as [Hle|Hlt']; simpl.
  - rewrite lookup_app_r by (rewrite length_take; lia). rewrite length_take, Nat.min_l by lia.
    destruct (Z.ltb_spec (ramdisk_ptr a + Z.of_nat k) (ramdisk_ptr a + o + Z.of_nat (length bs))).
    + rewrite lookup_app_l by lia.
      replace (Z.to_nat (ramdisk_ptr a + Z.of_nat k - (ramdisk_ptr a + o))) with (k - Z.to_nat o)%nat by lia.
      destruct (lookup_lt_is_Some_2 bs (k - Z.to_nat o)) as [x Hx]; [lia|]. rewrite Hx. f_equal. symmetry.
      rewrite nth_lookup, Hx. done.
    + rewrite lookup_app_r by lia. rewrite lookup_drop.
      replace (Z.to_nat o + length bs + (k - Z.to_nat o - length bs))%nat with k by lia. by apply Hk.
  - rewrite lookup_app_l by (rewrite length_take; lia). rewrite lookup_take_lt by lia. by apply Hk.
Qed.

Section ramdisk_mode_facts.
Context {X : Type} `{Console X}.
Context (outb outw : Z → Z → comp X unit) (inb inw : Z → comp X Z).

(** C31. The driver in ramdisk mode refines the block device.  With the image
    of [d] in memory, reading a sector answers status 0 and the bytes of
    [bd_read], or -1 without a byte when the sector is outside the image; a
    write answers 0 and leaves the image of [bd_write] in memory, or -1 and
    nothing changed. *)
Theorem ramdisk_refines_blockdev (a : ata) (x : X) (d : ramdisk) (lba : Z) :
  drive_present a = true → ramdisk_mode a = true → holds a d → 0 ≤ lba < 2 ^ 32 →
  ata_read_sectors outb inb inw lba 1 (a, x) =
    Ret (match bd_read d lba with Some b => (0, b) | None => (-1, []) end, (a, x)) ∧
  ∀ b, length b = 512%nat → Forall is_byte b →
    match bd_write d lba b with
    | Some d' => ∃ a', ata_write_sectors outb outw inb lba 1 b (a, x) = Ret (0, (a', x)) ∧
        holds a' d' ∧ drive_present a' = true ∧ ramdisk_mode a' = true ∧ ramdisk_ptr a' = ramdisk_ptr a
    | None => ata_write_sectors outb outw inb lba 1 b (a, x) = Ret (-1, (a, x))
    end.
Proof.
  intros Hp Hm Hd Hlba. pose proof Hd as (Hs & Hptr & Hfit & _).
  assert (Eo : u64 (lba * ATA_SECTOR_SIZE) = 512 * lba).
  { unfold ATA_SECTOR_SIZE. rewrite u64_small by lia. lia. }
  assert (El : u64 (1 * ATA_SECTOR_SIZE) = 512) by done.
  assert (Ee : u64 (512 * lba + 512) = 512 * lba + 512) by (apply u64_small; lia).
  assert (Hout : rd_in d lba = negb (ramdisk_size a <? 512 * lba + 512)).
  { unfold rd_in. rewrite Hs. destruct (Z.leb_spec 0 lba); [|lia]. simpl.
    destruct (Z.leb_spec (512 * lba + 512) (Z.of_nat (length (rd_bytes d)))),
      (Z.ltb_spec (Z.of_nat (length (rd_bytes d))) (512 * lba + 512)); done || lia. }
  change (bd_read d lba) with (rd_read d lba). unfold rd_read. split.
  - unfold ata_read_sectors, in_ata, zoom, get, mbind, comp_bind. simpl. rewrite Hp, Hm. simpl.
    rewrite Eo, El, Ee, Hout. destruct (Z.ltb_spec (ramdisk_size a) (512 * lba + 512)) as [|Hle]; [done|]. simpl.
    rewrite u64_small by lia.
    change (Z.to_nat (u32 512)) with 512%nat. rewrite (holds_slice a d (512 * lba)) by (done || lia). done.
  - intros b Hb Hbytes. change (bd_write d lba b) with (rd_write d lba b).
    unfold ata_write_sectors, in_ata, zoom, get, modify, mbind, comp_bind. simpl. rewrite Hp, Hm. simpl.
    rewrite Eo, El, Ee.
    destruct (rd_write d lba b) as [d'|] eqn:Hw.
    + destruct (rd_write_spec _ _ _ _ Hw) as (Hin & _ & E & _). rewrite Hout in Hin. destr_bool.
      destruct (Z.ltb_spec (ramdisk_size a) (512 * lba + 512)) as [|Hle]; [lia|].
      rewrite u64_small by lia. eexists. split; [done|]. split; [|done].
      rewrite firstn_all2 by (rewrite Hb; done).
      apply (holds_store a d); [done|lia| |done]. rewrite Hs in Hle. lia.
    + unfold rd_write in Hw. destruct (decide _) as [|Hn]; [|done]. rewrite Hout, Hb in Hw.
      destruct (Z.ltb_spec (ramdisk_size a) (512 * lba + 512)) as [|Hle]; [done|]. done.
Qed.
End ramdisk_mode_facts.

(** ** Detection, on any machine whose ports answer *)

Section detection.
Context {X : Type} `{Console X}.
Context (outb outw : Z → Z → comp X unit) (inb inw : Z → comp X Z) (wait_io : comp X unit).

Context (Houtb : ∀ p v, returns (outb p v)) (Hinb : ∀ p, returns (inb p)) (Hinw : ∀ p, returns (inw p))
  (Hwait : returns wait_io).

Lemma wp_in_io {A} (m : comp X A) (Q : A → ata * X → Prop) s :
  returns m → (∀ v x, Q v (s.1, x)) → wp (in_io m) Q s.
Proof. intros Hm HQ. apply wp_zoom. eapply wp_mono; [apply Hm|]. intros. apply HQ. Qed.

Lemma poll_returns port more t : 0 ≤ t < 2 ^ 32 → returns (poll inb port more t).
Proof.
  intros Ht x. apply (wp_loop (λ t _, 0 ≤ t < 2 ^ 32) (λ t _, t)); [done|lia|intros; lia|].
  intros t' x' Ht'. apply wp_bind. eapply wp_mono; [apply Hinb|]. intros v x'' _. cbn beta.
  destruct (more v); [|by apply wp_ret]. destruct (Z.eqb_spec t' 0); simpl; [by apply wp_ret|].
  apply wp_ret. lia.
Qed.

Lemma read_words_ok port n x :
  Z.of_nat n < 2 ^ 32 →
  wp (read_words inw port n) (λ l _, length l = (2 * n)%nat ∧ Forall is_byte l) x.
Proof.
  intros Hn. apply (wp_loop (λ '(i, acc) _, 0 ≤ i ≤ Z.of_nat n ∧ Z.of_nat (length acc) = 2 * i ∧ Forall is_byte acc)
    (λ '(i, _) _, Z.of_nat n - i)).
  - split_and!; [lia|lia|done|constructor].
  - lia.
  - intros [i acc] _ (? & _). lia.
  - intros [i acc] x' (Hi & Hl & Hb). destruct (Z.ltb_spec i (Z.of_nat n)).
    + apply wp_bind. eapply wp_mono; [apply Hinw|]. intros w x'' _. apply wp_ret. split; [|lia].
      split_and!; [lia|lia| |].
      * rewrite length_app. cbn [length le_enc]. lia.
      * apply Forall_app_2; [done|apply le_enc_bytes].
    + apply wp_ret. split; [lia|done].
Qed.

(** Detection only sets the drive and its size. *)
Definition detected (a a' : ata) : Prop := ∃ n p sel, a' = set_active p sel (set_total n a).

Lemma detected_refl a : detected a a.
Proof. exists (total_sectors a), (active_base_port a), (active_drive_sel a). by destruct a. Qed.
Lemma detected_trans a b c : detected a b → detected b c → detected a c.
Proof. intros (? & ? & ? & ->) (? & ? & ? & ->). eexists _, _, _. reflexivity. Qed.

Lemma probe_ok base sel s :
  wp (probe outb inb inw wait_io base sel) (λ r s', detected s.1 s'.1 ∧ ∀ v, r = Some v → v = 1) s.
Proof.
  assert (Hstop : detected s.1 s.1 ∧ ∀ v : Z, None = Some v → v = 1) by (split; [apply detected_refl|done]).
  unfold probe. apply wp_bind, wp_in_io; [apply Houtb|intros _ x1]. cbn [fst].
  apply wp_bind, wp_in_io; [done|intros _ x2]. apply wp_bind, wp_in_io; [apply Houtb|intros _ x3].
  apply wp_bind, wp_in_io; [done|intros _ x4]. apply wp_bind, wp_in_io; [apply Hinb|intros st x5]. cbn [fst].
  destruct (_ || _); [exact Hstop|].
  apply wp_bind, wp_in_io; [apply poll_returns; lia|intros t1 x6]. destruct (t1 =? 0); [exact Hstop|].
  apply wp_bind, wp_in_io; [apply Hinb|intros st2 x7]. destruct (negb _); [exact Hstop|].
  apply wp_bind, wp_in_io; [apply poll_returns; lia|intros t2 x8]. destruct (t2 =? 0); [exact Hstop|].
  apply wp_bind, wp_in_io; [|intros data x9].
  { intros x. eapply wp_mono; [by apply read_words_ok|done]. }
  apply wp_bind. unfold in_ata. apply wp_zoom, wp_modify. destruct (0 <? _).
  - apply wp_bind, wp_zoom, wp_modify, wp_ret. split; [|congruence]. eexists _, _, _. reflexivity.
  - apply wp_ret. split; [|done]. exists (ld32 data 120), (active_base_port s.1), (active_drive_sel s.1). reflexivity.
Qed.

Lemma detect_ok s :
  wp (ata_detect_real_drive outb inb inw wait_io) (λ r s', detected s.1 s'.1 ∧ (r = 0 ∨ r = 1)) s.
Proof.
  unfold ata_detect_real_drive. apply wp_bind.
  apply (wp_for_range (λ _ t, detected s.1 t.1)); [lia|apply detected_refl| |].
  - intros b t _ Ht. apply (wp_for_range (λ _ t', detected s.1 t'.1)); [lia|done| |done].
    intros d t1 _ Ht1. eapply wp_mono; [apply probe_ok|]. intros [v|] t2 [Hd Hv].
    + apply wp_ret. split; [by eapply detected_trans|]. right. by apply Hv.
    + by eapply detected_trans.
  - intros t Ht. apply wp_ret. split; [done|]. by left.
Qed.

Lemma wait_bsy_ok (Q : unit → ata * X → Prop) s : (∀ x, Q tt (s.1, x)) → wp (ata_wait_bsy inb) Q s.
Proof.
  intros HQ. unfold ata_wait_bsy, in_ata. apply wp_bind, wp_zoom, wp_gets, wp_bind, wp_in_io; [apply poll_returns; lia|].
  intros _ x. by apply wp_ret.
Qed.
Lemma wait_drq_ok (Q : unit → ata * X → Prop) s : (∀ x, Q tt (s.1, x)) → wp (ata_wait_drq inb) Q s.
Proof.
  intros HQ. unfold ata_wait_drq, in_ata. apply wp_bind, wp_zoom, wp_gets, wp_bind, wp_in_io; [apply poll_returns; lia|].
  intros _ x. by apply wp_ret.
Qed.

(** A PIO read delivers whole sectors and leaves the driver's state alone. *)
Lemma read_pio_ok s lba count :
  drive_present s.1 = true → ramdisk_mode s.1 = false → 0 ≤ count < 256 →
  wp (ata_read_sectors outb inb inw lba count)
    (λ '(st, bs) s', st = 0 ∧ s'.1 = s.1 ∧ Z.of_nat (length bs) = 512 * count ∧ Forall is_byte bs) s.
Proof.
  intros Hp Hm Hc. unfold ata_read_sectors, in_ata. apply wp_bind, wp_zoom, wp_get. rewrite Hp, Hm. cbn [negb].
  apply wp_bind. unfold ata_command, in_ata.
  apply wp_bind, wp_zoom, wp_gets, wp_bind, wp_zoom, wp_gets, wp_in_io.
  { do 6 (apply keeps_bind; [apply Houtb|intros _]). apply Houtb. }
  intros _ x. cbn [fst].
  apply (wp_loop (λ '(i, acc) t, t.1 = s.1 ∧ 0 ≤ i ≤ count ∧ Z.of_nat (length acc) = 512 * i ∧ Forall is_byte acc)
    (λ '(i, _) _, count - i)).
  - split_and!; [done|lia|lia|done|constructor].
  - lia.
  - intros [i acc] _ (_ & ? & _). lia.
  - intros [i acc] t (Et & Hi & Hl & Hb). destruct (Z.ltb_spec i count).
    + apply wp_bind, wait_bsy_ok. intros x1. apply wp_bind, wait_drq_ok. intros x2. cbn [fst].
      apply wp_bind, wp_zoom, wp_gets, wp_bind. unfold in_io. apply wp_zoom.
      eapply wp_mono; [by apply read_words_ok|]. intros ws x3 (Hwl & Hwb). apply wp_ret. split; [|lia].
      split_and!; [done|lia|lia| |by apply Forall_app_2]. rewrite length_app, Hwl. lia.
    + apply wp_ret. split_and!; [done|done|lia|done].
Qed.

Lemma mbr_start_range sector i : Forall is_byte sector → 0 ≤ mbr_start sector i < 2 ^ 32.
Proof.
  intros Hb. unfold mbr_start, ld32. pose proof (le_dec_bound (slice sector (446 + 16 * i + 8) 4) (slice_bytes _ _ _ Hb)) as [? Hlt].
  split; [done|]. eapply Z.lt_le_trans; [exact Hlt|]. change (2 ^ 32) with (256 ^ 4).
  apply Z.pow_le_mono_r; [lia|]. unfold slice. rewrite length_take. lia.
Qed.

Lemma find_volume_ok s sector :
  drive_present s.1 = true → ramdisk_mode s.1 = false → Forall is_byte sector →
  wp (find_volume outb inb inw sector)
    (λ r s', s'.1 = s.1 ∧ ∀ p, r = Some p → 0 ≤ p < 2 ^ 32) s.
Proof.
  intros Hp Hm Hb. unfold find_volume. destruct (is_fat32_bpb sector).
  - apply wp_bind, wp_in_io; [intros ?; by apply wp_modify|]. intros _ x. apply wp_ret. split; [done|]. intros; simplify_eq. lia.
  - destruct (_ && _); [|by apply wp_ret].
    apply (wp_for_range (λ _ t, t.1 = s.1)); [lia|done| |done].
    intros i t Hi Et. destruct (_ || _); [|by apply wp_ret]. apply wp_bind.
    eapply wp_mono; [apply read_pio_ok; [by rewrite Et|by rewrite Et|lia]|].
    intros [st ps] t' (_ & Et' & _). destruct (_ && _); [|apply wp_ret; congruence].
    apply wp_bind, wp_in_io.
    { do 4 (apply keeps_bind; [intros ?; by apply wp_modify|intros _]). intros ?. by apply wp_modify. }
    intros _ x. apply wp_ret. split; [simpl; congruence|]. intros p [= <-]. by apply mbr_start_range.
Qed.

Lemma try_drive_ok s :
  drive_present s.1 = false → ramdisk_mode s.1 = false → partition_offset s.1 = 0 →
  wp (try_drive outb inb inw wait_io)
    (λ ok s', ∃ a p, detected s.1 a ∧ 0 ≤ p < 2 ^ 32 ∧ (ok = false → p = 0) ∧ s'.1 = set_part p (set_present ok a)) s.
Proof.
  intros Hp Hm H0. unfold try_drive, in_ata. apply wp_bind.
  eapply wp_mono; [apply detect_ok|]. intros found t [Hd Hf]. cbn beta.
  assert (Ht : drive_present t.1 = false ∧ ramdisk_mode t.1 = false ∧ partition_offset t.1 = 0).
  { destruct Hd as (? & ? & ? & ->). done. }
  destruct Ht as (Htp & Htm & Ht0). destruct (found =? 0); cbn [negb].
  - apply wp_ret. exists t.1, 0. split_and!; [done|lia|lia|done|]. destruct t as [[] ?]; unfold set_part, set_present; simpl in *; congruence.
  - apply wp_bind, wp_zoom, wp_modify, wp_bind. eapply wp_mono; [apply read_pio_ok; [done|done|lia]|].
    intros [st sector] t1 (-> & Et1 & _ & Hb). cbn [Z.eqb]. apply wp_bind.
    eapply wp_mono; [apply find_volume_ok; [by rewrite Et1|by rewrite Et1|done]|].
    intros [p|] t2 [Et2 Hr].
    + apply wp_bind, wp_zoom, wp_modify, wp_ret. exists t.1, p. split_and!; [done|by apply Hr..|done|].
      simpl. rewrite Et2, Et1. done.
    + apply wp_bind, wp_zoom, wp_modify, wp_bind, wp_in_io; [intros ?; by apply wp_modify|]. intros _ x. apply wp_ret.
      exists t.1, 0. split_and!; [done|lia|lia|done|]. simpl. rewrite Et2, Et1. destruct t as [[] ?]; unfold set_part, set_present; simpl in *; congruence.
Qed.

(** Storage detection.  On a machine whose ports answer, whatever they
    answer, [ata_init] from its initial state terminates.  It answers 0 or -1;
    0 exactly when sector transfers are enabled; -1 only without a ramdisk.
    It uses the ramdisk only when one is loaded, with its address, its size in
    whole sectors and no partition offset, and it changes neither the memory
    nor what the loader said of the ramdisk. *)
Theorem ata_init_outcome (a : ata) (x : X) :
  drive_present a = false → ramdisk_mode a = false →
  ∃ r a' x', ata_init outb inb inw wait_io (a, x) = Ret (r, (a', x')) ∧
    (r = 0 ∧ drive_present a' = true ∨ r = -1 ∧ drive_present a' = false ∧ ramdisk_loaded a = false) ∧
    (ramdisk_mode a' = true → ramdisk_loaded a = true ∧ ramdisk_ptr a' = ramdisk_start a ∧
       total_sectors a' = u32 (ramdisk_size a / 512) ∧ partition_offset a' = 0) ∧
    0 ≤ partition_offset a' < 2 ^ 32 ∧ ram a' = ram a ∧
    (ramdisk_start a', ramdisk_size a', ramdisk_loaded a') = (ramdisk_start a, ramdisk_size a, ramdisk_loaded a).
Proof.
  intros Hp Hm. cut (wp (ata_init outb inb inw wait_io) (λ r s', let a' := s'.1 in
    (r = 0 ∧ drive_present a' = true ∨ r = -1 ∧ drive_present a' = false ∧ ramdisk_loaded a = false) ∧
    (ramdisk_mode a' = true → ramdisk_loaded a = true ∧ ramdisk_ptr a' = ramdisk_start a ∧
       total_sectors a' = u32 (ramdisk_size a / 512) ∧ partition_offset a' = 0) ∧
    0 ≤ partition_offset a' < 2 ^ 32 ∧ ram a' = ram a ∧
    (ramdisk_start a', ramdisk_size a', ramdisk_loaded a') = (ramdisk_start a, ramdisk_size a, ramdisk_loaded a)) (a, x)).
  { rewrite wp_run. intros (r & [a' x'] & Hrun & HQ). by exists r, a', x'. }
  unfold ata_init, in_ata. apply wp_bind, wp_in_io; [intros ?; by apply wp_modify|]. intros _ x1.
  apply wp_bind, wp_zoom, wp_modify, wp_bind. eapply wp_mono; [by apply try_drive_ok|].
  intros ok t (a1 & p & (n & port & sel & ->) & Hpr & Hp0 & Et). destruct ok; cbn zeta.
  - apply wp_ret. rewrite Et. simpl. split_and!; [by left|congruence|lia|lia|done|done].
  - apply wp_bind, wp_zoom, wp_get. rewrite Et. simpl. destruct (ramdisk_loaded a) eqn:El.
    + apply wp_bind, wp_zoom, wp_modify, wp_bind, wp_zoom, wp_get, wp_bind, wp_in_io.
      { do 2 (apply keeps_bind; [intros ?; by apply wp_modify|intros _]). intros ?. by apply wp_modify. }
      intros _ x2. apply wp_ret. simpl. rewrite El. split_and!; [by left|done|lia|lia|done|done].
    + apply wp_bind, wp_in_io; [intros ?; by apply wp_modify|]. intros _ x2. apply wp_ret. simpl.
      rewrite Hp0, Hm, El by done. split_and!; [by right|done|lia|lia|done|done].
Qed.
End detection.

(** A drive that stays busy: the counter wraps, and is not 0. *)
Lemma poll_expires {X} (inb : Z → comp X Z) port more x t :
  0 ≤ t < 2 ^ 32 → (∀ p y, ∃ v y', inb p y = Ret (v, y') ∧ more v = true) →
  wp (poll inb port more t) (λ t' _, t' = 2 ^ 32 - 1) x.
Proof.
  intros Ht Hbusy. apply (wp_loop (λ t _, 0 ≤ t < 2 ^ 32) (λ t _, t)); [done|lia|intros; lia|].
  intros t' y Ht'. apply wp_bind. destruct (Hbusy port y) as (v & y' & Hv & Hm). unfold wp at 1. rewrite Hv, Hm.
  destruct (Z.eqb_spec t' 0) as [->|]; simpl; apply wp_ret; [done|lia].
Qed.

(** ** Witnesses *)

Definition demo_image : ramdisk := Ramdisk (replicate 1024 7) ltac:(by apply Forall_replicate).
Definition demo_ata : ata := MkAta 2 true ATA_PRIMARY_BASE 0xE0 true 4096 0 4096 1024 true (λ _, 7).
Definition no_port2 (_ _ : Z) : comp (list out) unit := mret tt.
Definition no_wait : comp (list out) unit := mret tt.
Definition no_port1 (_ : Z) : comp (list out) Z := mret 0.
#[export] Instance console_list : Console (list out) := cons.

Lemma ramdisk_refines_blockdev_witness :
  ata_read_sectors no_port2 no_port1 no_port1 1 1 (demo_ata, []) = Ret ((0, slice (replicate 1024 7) 512 512), (demo_ata, [])) ∧
  ata_read_sectors no_port2 no_port1 no_port1 2 1 (demo_ata, []) = Ret ((-1, []), (demo_ata, [])).
Proof.
  assert (Hh : holds demo_ata demo_image).
  { split; [reflexivity|]. split; [discriminate|]. split; [discriminate|]. intros k Hk.
    change (rd_bytes demo_image) with (replicate 1024 7) in *. rewrite length_replicate in Hk.
    by apply lookup_replicate_2. }
  split.
  - destruct (ramdisk_refines_blockdev no_port2 no_port2 no_port1 no_port1 demo_ata [] demo_image 1 eq_refl eq_refl Hh ltac:(lia)) as [E _].
    exact E.
  - destruct (ramdisk_refines_blockdev no_port2 no_port2 no_port1 no_port1 demo_ata [] demo_image 2 eq_refl eq_refl Hh ltac:(lia)) as [E _].
    exact E.
Defined.

Lemma ata_init_outcome_witness :
  ∃ r a' x', ata_init no_port2 no_port1 no_port1 no_wait (ata_boot 4096 1024 true (λ _, 7), []) = Ret (r, (a', x')) ∧
    r = 0 ∧ drive_present a' = true.
Proof.
  destruct (ata_init_outcome no_port2 no_port1 no_port1 no_wait (λ _ _ _, eq_refl) (λ _ _, eq_refl) (λ _ _, eq_refl) (λ _, eq_refl)
    (ata_boot 4096 1024 true (λ _, 7)) [] eq_refl eq_refl) as (r & a' & x' & Hrun & [[Hr Hp]|(_ & _ & Hl)] & _).
  - exists r, a', x'. split; [exact Hrun|]. split; [exact Hr|exact Hp].
  - discriminate Hl.
Defined.
