(* ===== verification/Fat32Facts.v ===== *)
(** * Fat32Facts: specifications and theorems of the file system

    The file allocation table as a function from clusters to links, file
    contents as the bytes of a chain of clusters, and what the operations of
    Fat32.v do in those terms, for any [BlockDev]. *)

From Stdlib Require Import ZArith Lia String.
From stdpp Require Import base numbers list option strings functions.
From S2P Require Import Prelude Interfaces Fat32 Ata.
Open Scope Z_scope.

(** ** Lists of equal blocks *)

Lemma length_concat_same {A} (n : nat) (ls : list (list A)) :
  Forall (λ l, length l = n) ls → length (concat ls) = (n * length ls)%nat.
Proof.
  induction 1 as [|l ls Hl _ IH]; simpl; [lia|]. rewrite length_app, IH. lia.
Qed.

Lemma drop_concat_same {A} (n k : nat) (ls : list (list A)) :
  Forall (λ l, length l = n) ls → (k ≤ length ls)%nat → drop (n * k) (concat ls) = concat (drop k ls).
Proof.
  intros Hls. revert k. induction Hls as [|l ls Hl _ IH]; intros k Hk; simpl in *.
  - by rewrite !drop_nil.
  - destruct k as [|k]; [by rewrite Nat.mul_0_r|]. simpl.
    rewrite drop_app_ge by lia. rewrite Hl. replace (n * Datatypes.S k - n)%nat with (n * k)%nat by lia.
    apply IH. lia.
Qed.

(** A run of bytes inside one block. *)
Lemma block_slice {A} (n k o m : nat) (ls : list (list A)) l :
  Forall (λ l, length l = n) ls → ls !! k = Some l → (o + m ≤ n)%nat →
  take m (drop (n * k + o) (concat ls)) = take m (drop o l).
Proof.
  intros Hls Hl Hm. assert (Hk : (k < length ls)%nat) by (by eapply lookup_lt_Some).
  rewrite <-drop_drop. rewrite drop_concat_same by (done || lia).
  rewrite (drop_S ls l k Hl). simpl.
  assert (Hlen : length l = n) by (by apply (Forall_lookup_1 _ _ _ _ Hls Hl)).
  rewrite drop_app_le by lia. rewrite take_app_le by (rewrite length_drop; lia). done.
Qed.

Lemma take_add_drop {A} (a b : nat) (l : list A) : take (a + b) l = take a l ++ take b (drop a l).
Proof. by rewrite take_take_drop. Qed.

Section fat.
Context {D : Type} `{BlockDev D} (junk : list Z).
Implicit Types (s : fs D) (c v : Z) (cs : list Z).

(** ** The file allocation table *)

(** Where the entry of cluster [c] is. *)
Definition fat_sector s c : Z := u32 (fat_lba s + c / 128).
Definition fat_offset c : Z := 4 * (c mod 128).
Definition cluster_ok c : Prop := 0 ≤ c < 2 ^ 30.

Definition fat_entry s c : option Z :=
  match bd_read (disk s) (fat_sector s c) with Some b => Some (ld32 b (fat_offset c)) | None => None end.

(** The link as the code reads it. *)
Definition link v : Z :=
  let n := Z.land v 0x0FFFFFFF in if 0x0FFFFFF8 <=? n then FAT32_EOC else n.
Definition next_of s c : Z := match fat_entry s c with Some v => link v | None => FAT32_BAD end.

Lemma fat_place c : cluster_ok c → u32 (c * 4) / 512 = c / 128 ∧ u32 (c * 4) mod 512 = fat_offset c.
Proof. intros Hc. unfold cluster_ok in Hc. rewrite u32_small by lia. unfold fat_offset. split; dlia. Qed.

Lemma get_next_run s c : cluster_ok c → get_next_cluster junk c s = Ret (next_of s c, s).
Proof.
  intros Hc. unfold get_next_cluster. destruct (fat_place c Hc) as [E1 E2].
  unfold mbind, comp_bind, gets, ata_read, gets. rewrite E1, E2. fold (fat_sector s c).
  unfold next_of, fat_entry. destruct (bd_read (disk s) (fat_sector s c)); simpl; [|done].
  unfold link. by destruct (_ <=? _).
Qed.

(** Only the disk differs. *)
Definition same_fs s s' : Prop := s' = set_disk (disk s') s.

Lemma same_fs_lba s s' c : same_fs s s' → fat_sector s' c = fat_sector s c.
Proof. intros ->. done. Qed.
Lemma same_fs_refl s : same_fs s s.
Proof. by destruct s. Qed.
Lemma same_fs_trans s1 s2 s3 : same_fs s1 s2 → same_fs s2 s3 → same_fs s1 s3.
Proof. unfold same_fs. intros -> ->. done. Qed.

Lemma fat_sector_inj s c c' :
  cluster_ok c → cluster_ok c' → fat_sector s c = fat_sector s c' → c / 128 = c' / 128.
Proof. unfold cluster_ok, fat_sector, u32. intros Hc Hc' E. dlia. Qed.

(** Writing one sector. *)
Lemma ata_write_run s lba b b0 :
  bd_read (disk s) lba = Some b0 → length b = 512%nat → Forall is_byte b →
  ∃ s', ata_write lba b s = Ret (tt, s') ∧ same_fs s s' ∧ bd_read (disk s') lba = Some b ∧
    (∀ l, l ≠ lba → bd_read (disk s') l = bd_read (disk s) l).
Proof.
  intros Hr Hl Hb. destruct (bd_write_ok (disk s) lba b b0 Hr Hl Hb) as [d Hd].
  exists (set_disk d s). unfold ata_write, modify. rewrite Hd. split; [done|]. split; [done|].
  simpl. split; [by apply (bd_read_write (disk s) lba b d)|].
  intros l Hne. by apply (bd_read_write_ne (disk s) lba l b d).
Qed.

Lemma st32_sector b off v :
  length b = 512%nat → Forall is_byte b → 0 ≤ off ≤ 508 →
  length (st32 b off v) = 512%nat ∧ Forall is_byte (st32 b off v).
Proof.
  intros Hl Hb Ho. unfold st32. split.
  - rewrite length_splice; [done|]. rewrite length_le_enc. lia.
  - apply splice_bytes; [done|]. apply le_enc_bytes.
Qed.

Lemma fat_offset_range c : 0 ≤ fat_offset c ≤ 508.
Proof. unfold fat_offset. dlia. Qed.

Lemma set_next_run s c v :
  cluster_ok c → is_Some (fat_entry s c) →
  ∃ s', set_next_cluster junk c v s = Ret (tt, s') ∧ same_fs s s' ∧ fat_entry s' c = Some (u32 v) ∧
    (∀ c', cluster_ok c' → c' ≠ c → fat_entry s' c' = fat_entry s c') ∧
    (∀ l, l ≠ fat_sector s c → bd_read (disk s') l = bd_read (disk s) l).
Proof.
  intros Hc [e He]. unfold fat_entry in He. destruct (bd_read (disk s) (fat_sector s c)) as [b|] eqn:Hb; [|done].
  destruct (bd_read_sector (disk s) _ _ Hb) as [Hlen Hbytes]. pose proof (fat_offset_range c) as Ho.
  destruct (st32_sector b (fat_offset c) v Hlen Hbytes Ho) as [Hlen' Hbytes'].
  destruct (ata_write_run s _ _ _ Hb Hlen' Hbytes') as (s' & Hw & Hsame & Hr & Hother).
  exists s'. split; [|split; [done|split; [|split; [|done]]]].
  - unfold set_next_cluster. destruct (fat_place c Hc) as [E1 E2].
    unfold mbind, comp_bind, gets, ata_read, gets. rewrite E1, E2. fold (fat_sector s c). rewrite Hb. exact Hw.
  - unfold fat_entry. rewrite (same_fs_lba s s') by done. rewrite Hr. f_equal. apply ld32_st32_same. lia.
  - intros c' Hc' Hne. unfold fat_entry. rewrite (same_fs_lba s s') by done.
    destruct (decide (fat_sector s c' = fat_sector s c)) as [E|E].
    + rewrite E, Hr, Hb. f_equal. apply ld32_st32_other; [lia|].
      apply fat_sector_inj in E; [|done|done]. pose proof (fat_offset_range c').
      unfold fat_offset in *. assert (c mod 128 ≠ c' mod 128) by dlia. lia.
    + by rewrite Hother.
Qed.

(** *** The first free cluster *)

Definition fat_len s : Z := bpb_fat_size_32 (bpb s).
Definition fat_readable s : Prop := ∀ k, 0 ≤ k < fat_len s → is_Some (bd_read (disk s) (u32 (fat_lba s + k))).
Definition is_free s c : bool :=
  match fat_entry s c with Some v => Z.land v 0x0FFFFFFF =? 0 | None => false end.

Lemma find_seq_spec (p : Z → bool) n :
  match List.find p (map Z.of_nat (seq 0 n)) with
  | Some i => 0 ≤ i < Z.of_nat n ∧ p i = true ∧ (∀ j, 0 ≤ j < i → p j = false)
  | None => ∀ j, 0 ≤ j < Z.of_nat n → p j = false
  end.
Proof.
  induction n as [|n IH]; [simpl; intros; lia|].
  rewrite seq_S, map_app. destruct (List.find p (map Z.of_nat (seq 0 n))) as [i|] eqn:E.
  - assert (E' : List.find p (map Z.of_nat (seq 0 n) ++ map Z.of_nat [n]) = Some i).
    { clear IH. induction (map Z.of_nat (seq 0 n)) as [|a l IHl]; [done|]. simpl in *.
      destruct (p a); [done|]. by apply IHl. }
    simpl. simpl in E'. rewrite E'. destruct IH as (? & ? & ?). split; [lia|done].
  - assert (E' : List.find p (map Z.of_nat (seq 0 n) ++ map Z.of_nat [n]) = if p (Z.of_nat n) then Some (Z.of_nat n) else None).
    { clear IH. induction (map Z.of_nat (seq 0 n)) as [|a l IHl]; [done|]. simpl in *.
      destruct (p a); [done|]. by apply IHl. }
    simpl. simpl in E'. rewrite E'. destruct (p (Z.of_nat n)) eqn:Ep.
    + split; [lia|]. split; [done|]. intros j Hj. apply IH. lia.
    + intros j Hj. destruct (decide (j = Z.of_nat n)) as [->|]; [done|]. apply IH. lia.
Qed.

Lemma is_free_in_sector s sec i b :
  0 ≤ sec < 2 ^ 23 → 0 ≤ i < 128 → bd_read (disk s) (u32 (fat_lba s + sec)) = Some b →
  is_free s (sec * 128 + i) = (Z.land (ld32 b (4 * i)) 0x0FFFFFFF =? 0).
Proof.
  intros Hs Hi Hb. unfold is_free, fat_entry, fat_sector, fat_offset.
  replace ((sec * 128 + i) / 128) with sec by dlia. rewrite Hb.
  by replace ((sec * 128 + i) mod 128) with i by dlia.
Qed.

Definition first_free s r : Prop :=
  2 ≤ r < fat_len s * 128 ∧ is_free s r = true ∧ ∀ c, 2 ≤ c < r → is_free s c = false.
Definition none_free s : Prop := ∀ c, 2 ≤ c < fat_len s * 128 → is_free s c = false.

Lemma find_free_ok s :
  fat_readable s → 0 ≤ fat_len s ≤ 2 ^ 23 →
  wp (find_free_cluster junk) (λ r s', s' = s ∧ (r = 0 ∧ none_free s ∨ first_free s r)) s.
Proof.
  intros Hread Hlen. unfold find_free_cluster. apply wp_bind, wp_gets, wp_bind, wp_gets. fold (fat_len s).
  apply (wp_loop (λ '(sec, _) t, t = s ∧ 0 ≤ sec ≤ fat_len s ∧ ∀ c, 2 ≤ c < sec * 128 → is_free s c = false)
           (λ '(sec, _) _, fat_len s - sec)).
  - split; [done|]. split; [lia|]. intros; lia.
  - lia.
  - intros [sec buf] t (_ & Hs & _). lia.
  - intros [sec buf] t (-> & Hs & Hno). destruct (Z.ltb_spec sec (fat_len s)) as [Hlt|Hge].
    + destruct (Hread sec ltac:(lia)) as [b Hb]. apply wp_bind. unfold ata_read. apply wp_gets. rewrite Hb.
      unfold free_in_sector.
      set (p := λ i, (Z.land (ld32 b (4 * i)) 0x0FFFFFFF =? 0) && (2 <=? u32 (sec * 128 + i))).
      assert (Hp : ∀ i, 0 ≤ i < 128 → p i = is_free s (sec * 128 + i) && (2 <=? sec * 128 + i)).
      { intros i Hi. unfold p. rewrite (is_free_in_sector s sec i b) by (done || lia).
        rewrite u32_small by lia. done. }
      pose proof (find_seq_spec p 128) as Hfind. destruct (List.find p _) as [i|].
      * destruct Hfind as (Hi & Hpi & Hbefore). rewrite Hp in Hpi by lia.
        apply andb_true_iff in Hpi as [Hfree Hge%Z.leb_le]. apply wp_ret. split; [done|]. right.
        rewrite u32_small by lia. split; [lia|]. split; [done|]. intros c Hc.
        destruct (decide (c < sec * 128)); [apply Hno; lia|].
        specialize (Hbefore (c - sec * 128) ltac:(lia)). rewrite Hp in Hbefore by lia.
        replace (sec * 128 + (c - sec * 128)) with c in Hbefore by lia.
        destruct (is_free s c); [|done]. simpl in Hbefore. apply Z.leb_gt in Hbefore. lia.
      * apply wp_ret. rewrite u32_small by lia. split; [|lia]. split; [done|]. split; [lia|].
        intros c Hc. destruct (decide (c < sec * 128)); [apply Hno; lia|].
        specialize (Hfind (c - sec * 128) ltac:(lia)). rewrite Hp in Hfind by lia.
        replace (sec * 128 + (c - sec * 128)) with c in Hfind by lia.
        destruct (is_free s c); [|done]. simpl in Hfind. apply Z.leb_gt in Hfind. lia.
    + apply wp_ret. split; [done|]. left. split; [done|]. intros c Hc. apply Hno. lia.
Qed.

(** ** File contents *)

(** A chain of clusters as the table links them, the last one to the end
    mark. *)
Fixpoint chain s cs : Prop :=
  match cs with
  | [] => True
  | c :: cs' => 2 ≤ c < FAT32_BAD ∧ next_of s c = default FAT32_EOC (head cs') ∧ chain s cs'
  end.

Definition cluster_lba s c : Z := u32 (data_lba s + u32 (u32 (c - 2) * spc s)).
Definition sector_at s c (k : nat) : option (list Z) := bd_read (disk s) (u32 (cluster_lba s c + Z.of_nat k)).
Definition cluster_sectors s c : list (list Z) :=
  map (λ k, default [] (sector_at s c k)) (seq 0 (Z.to_nat (spc s))).
(** Every sector of the chain can be read. *)
Definition readable s cs : Prop :=
  ∀ c (k : nat), c ∈ cs → Z.of_nat k < spc s → is_Some (sector_at s c k).
(** The bytes of a chain. *)
Definition content s cs : list Z := concat (concat (map (cluster_sectors s) cs)).

(** A sane geometry: 1 to 128 sectors to a cluster. *)
Definition geometry s : Prop := 1 ≤ spc s ≤ 128.

Lemma cluster_lba_run s c : 2 ≤ c → cluster_to_lba c s = Ret (cluster_lba s c, s).
Proof. intros Hc. unfold cluster_to_lba, gets. destruct (Z.ltb_spec c 2); [lia|]. done. Qed.

Lemma cluster_sectors_len s cs :
  readable s cs → Forall (λ l, length l = 512%nat) (concat (map (cluster_sectors s) cs)).
Proof.
  intros Hr. apply Forall_concat, Forall_map, Forall_forall. intros c Hc. apply Forall_map, Forall_forall.
  intros k Hk%in_seq. simpl.
  destruct (Hr c k) as [b Hb]; [by apply list_elem_of_In|lia|]. rewrite Hb.
  by destruct (bd_read_sector _ _ _ Hb).
Qed.

Lemma length_cluster_sectors s c : length (cluster_sectors s c) = Z.to_nat (spc s).
Proof. unfold cluster_sectors. by rewrite length_map, length_seq. Qed.

Lemma length_sectors s cs : length (concat (map (cluster_sectors s) cs)) = (Z.to_nat (spc s) * length cs)%nat.
Proof.
  rewrite (length_concat_same (Z.to_nat (spc s))); [by rewrite length_map|].
  apply Forall_map, Forall_true. intros c. apply length_cluster_sectors.
Qed.

Lemma length_content s cs : readable s cs → length (content s cs) = (512 * (Z.to_nat (spc s) * length cs))%nat.
Proof.
  intros Hr. unfold content. rewrite (length_concat_same 512) by by apply cluster_sectors_len.
  by rewrite length_sectors.
Qed.

(** The [k]-th sector of the [i]-th cluster. *)
Lemma sector_lookup s cs i c (k : nat) b :
  cs !! i = Some c → Z.of_nat k < spc s → sector_at s c k = Some b →
  concat (map (cluster_sectors s) cs) !! (Z.to_nat (spc s) * i + k)%nat = Some b.
Proof.
  intros Hi Hk Hb. revert i Hi. induction cs as [|c' cs IH]; intros i Hi; [done|]. simpl.
  destruct i as [|i]; simpl in Hi.
  - simplify_eq. rewrite Nat.mul_0_r. simpl. rewrite lookup_app_l by (rewrite length_cluster_sectors; lia).
    unfold cluster_sectors. rewrite list_lookup_fmap, lookup_seq_lt by lia. simpl. by rewrite Hb.
  - rewrite lookup_app_r by (rewrite length_cluster_sectors; lia). rewrite length_cluster_sectors.
    replace (Z.to_nat (spc s) * Datatypes.S i + k - Z.to_nat (spc s))%nat with (Z.to_nat (spc s) * i + k)%nat by lia.
    by apply IH.
Qed.

(** Where a position of the file is: cluster [cur], offset [off] in it. *)
Definition at_pos s cs (pos cur off : Z) : Prop :=
  ∃ i, 0 ≤ i ∧ pos = i * (spc s * 512) + off ∧ 0 ≤ off < spc s * 512 ∧
    (i < Z.of_nat (length cs) ∧ cs !! Z.to_nat i = Some cur ∨
     i = Z.of_nat (length cs) ∧ off = 0 ∧ cur = FAT32_EOC).

Lemma chain_lookup s cs i c :
  chain s cs → cs !! i = Some c →
  2 ≤ c < FAT32_BAD ∧ next_of s c = default FAT32_EOC (cs !! Datatypes.S i).
Proof.
  revert i. induction cs as [|c' cs IH]; intros i Hch Hi; [done|]. destruct Hch as (Hc & Hn & Hch).
  destruct i as [|i]; simpl in Hi.
  - simplify_eq. split; [done|]. rewrite Hn. by destruct cs.
  - by apply IH.
Qed.

(** The bytes from a position to the end of its sector. *)
Lemma content_at s cs pos cur off b (m : nat) :
  geometry s → readable s cs → at_pos s cs pos cur off → 0 ≤ pos →
  pos < Z.of_nat (length (content s cs)) →
  sector_at s cur (Z.to_nat (off / 512)) = Some b →
  (Z.to_nat (off mod 512) + m ≤ 512)%nat →
  take m (drop (Z.to_nat pos) (content s cs)) = slice b (off mod 512) m.
Proof.
  intros Hg Hr (i & Hi & -> & Hoff & Hcase) Hpos Hlt Hb Hm. unfold geometry in Hg.
  rewrite length_content in Hlt by done.
  destruct Hcase as [(Hil & Hcur)|(-> & -> & _)]; [|lia].
  pose proof (sector_lookup s cs _ cur (Z.to_nat (off / 512)) b Hcur ltac:(dlia) Hb) as Hsec.
  unfold content, slice.
  replace (Z.to_nat (i * (spc s * 512) + off))
    with (512 * (Z.to_nat (spc s) * Z.to_nat i + Z.to_nat (off / 512)) + Z.to_nat (off mod 512))%nat by dlia.
  apply (block_slice 512 _ _ _ _ b); [by apply cluster_sectors_len|done|done].
Qed.

(** Going on by [m] bytes inside a sector. *)
Lemma at_pos_step s cs pos cur off m :
  geometry s → chain s cs → at_pos s cs pos cur off → 0 < m → off mod 512 + m ≤ 512 →
  pos < Z.of_nat (length cs) * (spc s * 512) →
  (off + m < spc s * 512 → at_pos s cs (pos + m) cur (off + m)) ∧
  (spc s * 512 ≤ off + m → at_pos s cs (pos + m) (next_of s cur) 0).
Proof.
  intros Hg Hch (i & Hi & -> & Hoff & Hcase) Hm Hsec Hlt. unfold geometry in Hg.
  assert (Hil : i < Z.of_nat (length cs)) by nia.
  destruct Hcase as [(_ & Hcur)|(-> & _)]; [|lia]. split; intros Hend.
  - exists i. split_and!; [done|lia|lia|lia|]. by left.
  - exists (i + 1). split_and!; [lia| |lia|lia|].
    + assert (off + m = spc s * 512) by dlia. lia.
    + destruct (chain_lookup s cs _ cur Hch Hcur) as (_ & ->).
      replace (Datatypes.S (Z.to_nat i)) with (Z.to_nat (i + 1)) by lia.
      destruct (decide (i + 1 = Z.of_nat (length cs))) as [E|].
      * right. split; [done|]. split; [done|]. rewrite lookup_ge_None_2 by lia. done.
      * left. split; [lia|]. destruct (lookup_lt_is_Some_2 cs (Z.to_nat (i + 1))) as [c Hc]; [lia|].
        by rewrite Hc.
Qed.

Lemma at_pos_live s cs pos cur off :
  geometry s → chain s cs → at_pos s cs pos cur off → pos < Z.of_nat (length cs) * (spc s * 512) →
  cur ∈ cs ∧ 2 ≤ cur < FAT32_BAD ∧ 0 ≤ off < spc s * 512.
Proof.
  intros Hg Hch (i & Hi & -> & Hoff & Hcase) Hlt. unfold geometry in Hg.
  destruct Hcase as [(_ & Hcur)|(-> & _ & _)]; [|nia].
  destruct (chain_lookup s cs _ cur Hch Hcur) as (? & _). split; [by eapply list_elem_of_lookup_2|]. done.
Qed.

(** Reading along a chain. *)
Lemma read_loop_ok s cs stop len pos cur off :
  geometry s → chain s cs → readable s cs → at_pos s cs pos cur off → 0 ≤ pos →
  0 ≤ len → pos + len ≤ Z.of_nat (length cs) * (spc s * 512) → len < 2 ^ 32 →
  (∀ c, 2 ≤ c < FAT32_BAD → stop c = false) →
  wp (read_loop junk stop (spc s * 512) len cur off)
    (λ '(bytes, cur', off') s', s' = s ∧
       bytes = take (Z.to_nat len) (drop (Z.to_nat pos) (content s cs)) ∧
       Z.of_nat (length bytes) = len ∧ at_pos s cs (pos + len) cur' off') s.
Proof.
  intros Hg Hch Hr Hat Hpos Hlen Hfit H32 Hstop. unfold read_loop.
  assert (Hclen : Z.of_nat (length (content s cs)) = Z.of_nat (length cs) * (spc s * 512)).
  { rewrite length_content by done. unfold geometry in Hg. lia. }
  apply (wp_loop (λ '(acc, cur, off, _) t, t = s ∧ Z.of_nat (length acc) ≤ len ∧
      acc = take (length acc) (drop (Z.to_nat pos) (content s cs)) ∧
      at_pos s cs (pos + Z.of_nat (length acc)) cur off)
    (λ '(acc, _, _, _) _, len - Z.of_nat (length acc))).
  - split_and!; [done|simpl; lia|done|]. simpl. by rewrite Z.add_0_r.
  - simpl. lia.
  - intros [[[acc c] o] buf] t (_ & Ha & _). lia.
  - intros [[[acc c] o] buf] t (-> & Ha & Eacc & Hap).
    destruct (Z.ltb_spec (Z.of_nat (length acc)) len) as [Hlt|Hge].
    2: { assert (E : Z.of_nat (length acc) = len) by lia. apply wp_ret. rewrite <-E, Nat2Z.id.
         split_and!; [done|done|done|]. done. }
    set (p := pos + Z.of_nat (length acc)) in *.
    destruct (at_pos_live s cs p c o Hg Hch Hap ltac:(lia)) as (Hin & Hc & Ho).
    rewrite Hstop by done. cbn zeta. set (can := Z.min _ _).
    assert (Hcan : 0 < can ∧ o mod 512 + can ≤ 512 ∧ can ≤ len - Z.of_nat (length acc)) by (unfold can; dlia).
    unfold geometry in Hg. destruct (Hr c (Z.to_nat (o / 512)) Hin ltac:(dlia)) as [b Hb].
    destruct (bd_read_sector _ _ _ Hb) as [Hbl _].
    apply wp_bind. unfold wp at 1. rewrite cluster_lba_run by lia. apply wp_bind. unfold ata_read. apply wp_gets.
    unfold sector_at in Hb. rewrite Z2Nat.id in Hb by dlia. rewrite Hb. simpl.
    fold (sector_at s c (Z.to_nat (o / 512))) in Hb.
    pose proof (Z.mod_pos_bound o 512 ltac:(lia)) as Hom.
    assert (Hslice : slice b (o mod 512) (Z.to_nat can) =
      take (Z.to_nat can) (drop (Z.to_nat p) (content s cs))).
    { symmetry. apply (content_at s cs p c o b); [done|done|done|lia|lia| |lia].
      unfold sector_at. by rewrite Z2Nat.id by dlia. }
    assert (Hsl : length (slice b (o mod 512) (Z.to_nat can)) = Z.to_nat can).
    { apply length_slice. lia. }
    set (acc' := acc ++ slice b (o mod 512) (Z.to_nat can)).
    assert (Hacc' : Z.of_nat (length acc') = Z.of_nat (length acc) + can).
    { unfold acc'. rewrite length_app, Hsl. lia. }
    assert (Eacc' : acc' = take (length acc') (drop (Z.to_nat pos) (content s cs))).
    { unfold acc' at 1. rewrite Hslice. replace (length acc') with (length acc + Z.to_nat can)%nat by lia.
      rewrite take_add_drop, <-Eacc. do 2 f_equal. rewrite drop_drop. f_equal. unfold p. lia. }
    destruct (at_pos_step s cs p c o can Hg Hch Hap) as [Hsame Hnext]; [lia|lia|lia|].
    replace (p + can) with (pos + Z.of_nat (length acc')) in * by (unfold p; lia).
    rewrite u32_small by lia. destruct (Z.leb_spec (spc s * 512) (o + can)) as [Hle|Hlt'].
    + apply wp_bind. unfold wp at 1. rewrite get_next_run by (unfold cluster_ok, FAT32_BAD in *; lia).
      apply wp_ret. split; [|lia]. split_and!; [done|lia|done|by apply Hnext].
    + apply wp_ret. split; [|lia]. split_and!; [done|lia|done|by apply Hsame].
Qed.

(** Walking the chain to the cluster of a position. *)
Lemma walk_pos s cs pos :
  geometry s → chain s cs → cs ≠ [] → 0 ≤ pos ≤ Z.of_nat (length cs) * (spc s * 512) →
  ∀ i c, 0 ≤ i ≤ pos / (spc s * 512) →
    c = default FAT32_EOC (cs !! Z.to_nat i) →
    i = pos / (spc s * 512) → at_pos s cs pos c (pos mod (spc s * 512)).
Proof.
  intros Hg Hch Hne Hpos i c Hi Hc Ei. unfold geometry in Hg. exists i.
  assert (Hm : 0 ≤ pos mod (spc s * 512) < spc s * 512) by (apply Z.mod_pos_bound; lia).
  pose proof (Z.div_mod pos (spc s * 512) ltac:(lia)) as Hdm. rewrite <-Ei in Hdm.
  assert (Hil : i ≤ Z.of_nat (length cs)) by nia.
  split_and!; [lia|lia|lia|lia|]. destruct (decide (i = Z.of_nat (length cs))) as [E|].
  - right. split; [done|]. rewrite lookup_ge_None_2 in Hc by lia. split; [nia|done].
  - left. split; [lia|]. destruct (lookup_lt_is_Some_2 cs (Z.to_nat i)) as [c' Hc']; [lia|].
    rewrite Hc' in *. simpl in Hc. congruence.
Qed.

Lemma length_chain_pos s cs : geometry s → Z.of_nat (length cs) ≤ Z.of_nat (length cs) * (spc s * 512).
Proof. unfold geometry. nia. Qed.

Lemma walk_at_ok s cs n c0 :
  chain s cs → head cs = Some c0 → 0 ≤ n < Z.of_nat (length cs) → n < 2 ^ 32 →
  wp (loop (λ '(i, c),
        if i <? n then
          if (c =? FAT32_EOC) || (c =? FAT32_BAD) then mret (inr None)
          else next ← get_next_cluster junk c; mret (inl (u32 (i + 1), next))
        else mret (inr (Some c))) (0, c0))
    (λ r s', s' = s ∧ ∃ c, r = Some c ∧ cs !! Z.to_nat n = Some c) s.
Proof.
  intros Hch Hhd Hn H32.
  apply (wp_loop (λ '(i, c) t, t = s ∧ 0 ≤ i ≤ n ∧ cs !! Z.to_nat i = Some c) (λ '(i, _) _, n - i)).
  - split; [done|]. split; [lia|]. by destruct cs.
  - lia.
  - intros [i c] t (_ & Hi & _). lia.
  - intros [i c] t (-> & Hi & Hc). destruct (Z.ltb_spec i n) as [Hlt|].
    + destruct (chain_lookup s cs _ c Hch Hc) as (Hcr & Hnx). unfold FAT32_EOC, FAT32_BAD in *.
      destruct (Z.eqb_spec c 0x0FFFFFF8); [lia|]. destruct (Z.eqb_spec c 0x0FFFFFF7); [lia|]. simpl.
      apply wp_bind. unfold wp at 1. rewrite get_next_run by (unfold cluster_ok; lia). apply wp_ret.
      rewrite u32_small by lia. split; [|lia]. split; [done|]. split; [lia|].
      replace (Z.to_nat (i + 1)) with (Datatypes.S (Z.to_nat i)) by lia.
      destruct (lookup_lt_is_Some_2 cs (Datatypes.S (Z.to_nat i))) as [c' Hc']; [lia|].
      rewrite Hnx, Hc'. done.
    + apply wp_ret. split; [done|]. exists c. split; [done|]. by replace n with i by lia.
Qed.

(** *** Open files *)

(** Handle [fd] is open on the file whose chain is [cs]. *)
Definition handle s fd f cs : Prop :=
  0 ≤ fd < 8 ∧ open_files s !! Z.to_nat fd = Some f ∧ valid f ≠ 0 ∧
  chain s cs ∧ head cs = Some (first_cluster f) ∧ readable s cs ∧
  0 ≤ file_size f ≤ Z.of_nat (length cs) * (spc s * 512) ∧ file_size f < 2 ^ 31.

Lemma open_file_run s fd f cs : handle s fd f cs → open_file fd s = Ret (Some f, s).
Proof.
  intros (Hfd & Hf & Hv & _). unfold open_file, FAT32_MAX_OPEN_FILES.
  destruct (Z.ltb_spec fd 0); [lia|]. destruct (Z.leb_spec 8 fd); [lia|]. simpl.
  unfold get_file, mbind, comp_bind, get, must, znth. destruct (Z.leb_spec 0 fd); [|lia]. rewrite Hf. simpl.
  by destruct (Z.eqb_spec (valid f) 0).
Qed.

Lemma cluster_bytes_eq s : geometry s → cluster_bytes s = spc s * 512.
Proof. intros Hg. unfold cluster_bytes, geometry in *. rewrite u32_small; lia. Qed.

(** The bytes a read at [pos] should deliver. *)
Definition file_bytes s f cs (pos len : Z) : list Z :=
  take (Z.to_nat (Z.min len (file_size f - pos))) (drop (Z.to_nat pos) (content s cs)).

Lemma clamp_min f pos len :
  0 ≤ pos < file_size f → file_size f < 2 ^ 31 → 0 ≤ len → pos + len < 2 ^ 32 →
  clamp_len (file_size f) pos len = Z.min len (file_size f - pos).
Proof.
  intros. unfold clamp_len. rewrite (u32_small (pos + len)) by lia.
  destruct (Z.ltb_spec (file_size f) (pos + len)); rewrite ?u32_small by lia; lia.
Qed.

Lemma read_at_ok s fd f cs pos len :
  geometry s → handle s fd f cs → 0 ≤ pos < file_size f → 0 ≤ len → pos + len < 2 ^ 32 →
  wp (fat32_read_at junk fd pos len) (λ '(n, bytes) s', s' = s ∧ bytes = file_bytes s f cs pos len ∧
    n = Z.of_nat (length bytes) ∧ n = Z.min len (file_size f - pos)) s.
Proof.
  intros Hg Hh Hpos Hlen H32. unfold fat32_read_at. apply wp_bind. unfold wp at 1.
  rewrite (open_file_run s fd f cs) by done.
  destruct Hh as (_ & _ & _ & Hch & Hhd & Hr & Hsz & Hsz31).
  destruct (Z.leb_spec (file_size f) pos); [lia|]. cbn zeta. rewrite clamp_min by lia.
  set (m := Z.min len (file_size f - pos)). apply wp_bind, wp_gets. rewrite cluster_bytes_eq by done.
  pose proof Hg as Hg'. unfold geometry in Hg'.
  destruct (Z.eqb_spec (spc s * 512) 0) as [|_]; [lia|]. apply wp_bind.
  assert (Hdiv : 0 ≤ pos / (spc s * 512) < Z.of_nat (length cs)).
  { split; [apply Z.div_pos; lia|]. apply Z.div_lt_upper_bound; lia. }
  assert (Hdiv' : pos / (spc s * 512) ≤ pos) by (apply Z.div_le_upper_bound; nia).
  eapply wp_mono; [apply (walk_at_ok s cs _ (first_cluster f)); [done|done|done|lia]|].
  intros r t (-> & c & -> & Hc). apply wp_bind.
  assert (Hat : at_pos s cs pos c (pos mod (spc s * 512))).
  { eapply (walk_pos s cs pos Hg Hch); [by destruct cs|lia| |by rewrite Hc|done]. lia. }
  eapply wp_mono; [apply (read_loop_ok s cs _ m pos); try done; unfold m; try lia|].
  - intros c' Hc'. unfold FAT32_EOC, FAT32_BAD in *.
    destruct (Z.eqb_spec c' 0x0FFFFFF8); [lia|]. destruct (Z.eqb_spec c' 0x0FFFFFF7); [lia|done].
  - intros [[bytes cur'] off'] t (-> & Eb & Hbl & _). apply wp_ret. unfold file_bytes. fold m in Eb, Hbl |- *.
    split_and!; [done|done| |].
    + unfold i32, signed. rewrite Z.mod_small by (unfold m in *; change (2 ^ (32 - 1)) with (2 ^ 31); lia). lia.
    + unfold i32, signed. rewrite Z.mod_small by (unfold m in *; change (2 ^ (32 - 1)) with (2 ^ 31); lia). lia.
Qed.

(** The handle's cursor agrees with its position. *)
Definition cursor s f cs : Prop := at_pos s cs (position f) (current_cluster f) (cluster_offset f).

(** The state with handle [fd] replaced. *)
Definition with_file s fd f : fs D := set_files (<[Z.to_nat fd := f]> (open_files s)) s.

Lemma set_file_run s fd f f' cs : handle s fd f cs → set_file fd f' s = Ret (tt, with_file s fd f').
Proof.
  intros (Hfd & Hf & _). unfold set_file, mbind, comp_bind, get, must, zset.
  apply lookup_lt_Some in Hf. destruct (Z.leb_spec 0 fd); [|lia].
  destruct (Z.ltb_spec fd (Z.of_nat (length (open_files s)))); [|lia]. done.
Qed.

Lemma chain_files s l cs : chain s cs → chain (set_files l s) cs.
Proof. induction cs as [|c cs IH]; [done|]. intros (Hc & Hn & Hch). by repeat split; [lia|lia| |apply IH]. Qed.

Lemma with_file_handle s fd f f' cs :
  handle s fd f cs → valid f' = valid f → first_cluster f' = first_cluster f → file_size f' = file_size f →
  handle (with_file s fd f') fd f' cs.
Proof.
  intros (Hfd & Hf & Hv & Hch & Hhd & Hr & Hsz) E1 E2 E3. unfold handle. rewrite E1, E2, E3.
  split; [done|]. split; [apply list_lookup_insert_eq; by eapply lookup_lt_Some|].
  split; [done|]. split; [by apply chain_files|]. exact (conj Hhd (conj Hr Hsz)).
Qed.

Lemma seek_ok s fd f cs pos :
  geometry s → handle s fd f cs → 0 ≤ pos < 2 ^ 32 →
  wp (fat32_seek junk fd pos) (λ r s', r = 0 ∧ ∃ f', s' = with_file s fd f' ∧
    handle s' fd f' cs ∧ cursor s' f' cs ∧ position f' = Z.min pos (file_size f) ∧ file_size f' = file_size f) s.
Proof.
  intros Hg Hh Hpos. unfold fat32_seek. apply wp_bind. unfold wp at 1. rewrite (open_file_run s fd f cs) by done.
  pose proof Hh as (_ & _ & _ & Hch & Hhd & Hr & Hsz & Hsz31). pose proof Hg as Hg'. unfold geometry in Hg'.
  cbn zeta. set (p := if file_size f <? pos then file_size f else pos).
  assert (Ep : p = Z.min pos (file_size f)) by (unfold p; destruct (Z.ltb_spec (file_size f) pos); lia).
  apply wp_bind, wp_gets. rewrite cluster_bytes_eq by done. destruct (Z.eqb_spec (spc s * 512) 0) as [|_]; [lia|].
  set (n := p / (spc s * 512)).
  assert (Hn : 0 ≤ n ≤ Z.of_nat (length cs) ∧ n ≤ p).
  { unfold n. split; [split; [apply Z.div_pos; lia|]|].
    - apply Z.div_le_upper_bound; lia.
    - apply Z.div_le_upper_bound; nia. }
  apply wp_bind. unfold walk_chain.
  apply (wp_loop (λ '(i, c) t, t = s ∧ 0 ≤ i ≤ n ∧ c = default FAT32_EOC (cs !! Z.to_nat i)) (λ '(i, _) _, n - i)).
  - split; [done|]. split; [lia|]. destruct cs; simpl in *; congruence.
  - lia.
  - intros [i c] t (_ & Hi & _). lia.
  - intros [i c] t (-> & Hi & Ec).
    destruct (Z.ltb_spec i n) as [Hlt|Hge].
    + destruct (lookup_lt_is_Some_2 cs (Z.to_nat i)) as [c' Hc']; [lia|]. rewrite Hc' in Ec. simpl in Ec. subst c'.
      destruct (chain_lookup s cs _ c Hch Hc') as (Hcr & Hnx). unfold FAT32_EOC, FAT32_BAD in *.
      destruct (Z.eqb_spec c 0x0FFFFFF8); [lia|]. destruct (Z.eqb_spec c 0x0FFFFFF7); [lia|]. simpl.
      apply wp_bind. unfold wp at 1. rewrite get_next_run by (unfold cluster_ok; lia). apply wp_ret.
      rewrite u32_small by lia. split; [|lia]. split; [done|]. split; [lia|].
      by replace (Z.to_nat (i + 1)) with (Datatypes.S (Z.to_nat i)) by lia.
    + apply wp_ret. apply wp_bind. unfold wp at 1.
      rewrite (set_file_run s fd f _ cs) by done. apply wp_ret. split; [done|]. eexists. split; [done|].
      split; [by apply (with_file_handle s fd f)|]. split; [|done].
      change (at_pos s cs p c (p mod (spc s * 512))).
      apply (walk_pos s cs p Hg Hch ltac:(by destruct cs) ltac:(lia) i c); [fold n; lia|done|fold n; lia].
Qed.

Lemma read_ok s fd f cs len :
  geometry s → handle s fd f cs → cursor s f cs → 0 ≤ position f < file_size f → 0 ≤ len →
  position f + len < 2 ^ 32 →
  wp (fat32_read junk fd len) (λ '(n, bytes) s', bytes = file_bytes s f cs (position f) len ∧
    n = Z.min len (file_size f - position f) ∧ ∃ f', s' = with_file s fd f' ∧
    handle s' fd f' cs ∧ cursor s' f' cs ∧ position f' = position f + n ∧ file_size f' = file_size f) s.
Proof.
  intros Hg Hh Hcur Hpos Hlen H32. unfold fat32_read. apply wp_bind. unfold wp at 1.
  rewrite (open_file_run s fd f cs) by done.
  pose proof Hh as (_ & _ & _ & Hch & Hhd & Hr & Hsz & Hsz31).
  destruct (Z.leb_spec (file_size f) (position f)); [lia|]. cbn zeta. rewrite clamp_min by lia.
  set (m := Z.min len (file_size f - position f)). apply wp_bind, wp_gets. rewrite cluster_bytes_eq by done.
  apply wp_bind. eapply wp_mono; [apply (read_loop_ok s cs _ m (position f)); try done; unfold m; try lia|].
  - intros c' Hc'. unfold FAT32_EOC, FAT32_BAD in *. by destruct (Z.eqb_spec c' 0x0FFFFFF8); [lia|].
  - intros [[bytes cur'] off'] t (-> & Eb & Hbl & Hat). fold m in Eb, Hbl, Hat. apply wp_bind.
    unfold wp at 1. rewrite (set_file_run s fd f _ cs) by done. apply wp_ret. rewrite Hbl.
    assert (Hm : 0 ≤ m < 2 ^ 31) by (unfold m; lia).
    split_and!; [done| |].
    + unfold i32, signed. change (2 ^ (32 - 1)) with (2 ^ 31). rewrite Z.mod_small by lia. lia.
    + eexists. split; [done|]. split; [by apply (with_file_handle s fd f)|].
      cbn [position set_place]. rewrite u32_small by (unfold m; lia).
      split; [exact Hat|]. split; [|done].
      unfold i32, signed. change (2 ^ (32 - 1)) with (2 ^ 31). rewrite Z.mod_small by lia. lia.
Qed.

(** *** Freeing a chain *)

Lemma link_zero : link 0 = 0.
Proof. done. Qed.

Lemma next_some s c v : next_of s c = v → v ≠ FAT32_BAD → is_Some (fat_entry s c).
Proof. unfold next_of. destruct (fat_entry s c); [eauto|]. congruence. Qed.

Lemma chain_other s s' cs :
  same_fs s s' → (∀ c, c ∈ cs → fat_entry s' c = fat_entry s c) → chain s cs → chain s' cs.
Proof.
  intros Hsame. induction cs as [|c cs IH]; intros He Hch; [done|]. destruct Hch as (Hc & Hn & Hch).
  split; [done|]. split; [|apply IH; [|done]; intros; apply He; by right].
  unfold next_of. rewrite He by (by left). exact Hn.
Qed.

(** The table with the links of [cs] cleared. *)
Definition freed s cs s' : Prop :=
  same_fs s s' ∧ (∀ c, c ∈ cs → fat_entry s' c = Some 0) ∧
  (∀ c, cluster_ok c → c ∉ cs → fat_entry s' c = fat_entry s c).

Lemma free_chain_iter s cs :
  chain s cs → NoDup cs →
  ∃ s', itern (Datatypes.S (length cs)) (λ c,
      if negb (c =? 0) && (c <? 0x0FFFFFF8) then
        next ← get_next_cluster junk c;
        set_next_cluster junk c FAT32_FREE;;
        mret (inl next)
      else mret (inr tt)) (default FAT32_EOC (head cs)) s = Ret (inr tt, s') ∧ freed s cs s'.
Proof.
  revert s. induction cs as [|c cs IH]; intros s Hch Hnd.
  - exists s. split; [done|]. split_and!; [apply same_fs_refl|by intros ? ?%elem_of_nil|done].
  - pose proof Hch as (Hc & Hn & Hch'). apply list.NoDup_cons in Hnd as [Hnin Hnd].
    assert (Hok : cluster_ok c) by (unfold cluster_ok, FAT32_BAD in *; lia).
    assert (Hsome : is_Some (fat_entry s c)).
    { apply (next_some s c _ Hn). unfold FAT32_EOC, FAT32_BAD in *.
      destruct cs as [|c' cs]; simpl; [lia|]. destruct Hch' as ([_ Hc'] & _). unfold FAT32_BAD in Hc'. lia. }
    destruct (set_next_run s c 0 Hok Hsome) as (s1 & Hset & Hsame & Hzero & Hother & _).
    assert (Hcs_ok : ∀ c', c' ∈ cs → cluster_ok c' ∧ c' ≠ c).
    { intros c' Hin. split; [|by intros ->]. apply list_elem_of_lookup in Hin as [i Hi].
      destruct (chain_lookup s cs i c' Hch' Hi) as (? & _). unfold cluster_ok, FAT32_BAD in *. lia. }
    destruct (IH s1) as (s2 & Hrun & Hsame2 & Hz2 & Ho2).
    { apply (chain_other s s1); [done| |done]. intros c' Hin. destruct (Hcs_ok c' Hin). by apply Hother. }
    { done. }
    exists s2. split.
    + change (length (c :: cs)) with (Datatypes.S (length cs)).
      remember (Datatypes.S (length cs)) as n eqn:En. cbn [head default]. simpl itern.
      unfold FAT32_BAD in Hc. destruct (Z.eqb_spec c 0); [lia|]. destruct (Z.ltb_spec c 0x0FFFFFF8); [|lia].
      cbn [negb andb]. unfold mbind at 1, comp_bind at 1.
      rewrite (run_bind _ _ _ _ _ (get_next_run s c Hok)). rewrite (run_bind _ _ _ _ _ Hset).
      cbn [mret comp_ret]. rewrite Hn. exact Hrun.
    + split_and!; [by eapply same_fs_trans| |].
      * intros c' [->|Hin]%elem_of_cons; [|by apply Hz2]. rewrite Ho2 by done. by rewrite Hzero.
      * intros c' Hc' Hnin'. apply not_elem_of_cons in Hnin' as [Hne Hnin'].
        rewrite Ho2 by done. by apply Hother.
Qed.

Lemma free_chain_run s c cs :
  chain s (c :: cs) → NoDup (c :: cs) → Z.of_nat (length cs) < 2 ^ 63 →
  ∃ s', free_chain junk c s = Ret (tt, s') ∧ freed s (c :: cs) s'.
Proof.
  intros Hch Hnd Hlen. destruct (free_chain_iter s (c :: cs) Hch Hnd) as (s' & Hrun & Hfr).
  exists s'. split; [|done]. unfold free_chain. eapply loop_run; [|exact Hrun]. simpl length. lia.
Qed.
End fat.

(** ** Names *)

(** A base name or extension that survives: no space, dot or lower case. *)
Definition name_char (c : Z) : Prop := c ≠ 32 ∧ c ≠ 46.
Definition name_text (base ext : list Z) : list Z :=
  match ext with [] => base | _ => base ++ 46 :: ext end.

Lemma take_until_dot_all n base rest :
  (length base ≤ n)%nat → Forall name_char base → (rest = [] ∨ ∃ r, rest = 46 :: r) →
  take_until_dot n (base ++ rest) = map upper base.
Proof.
  intros Hn Hb Hrest. revert n Hn. induction Hb as [|c base [_ Hc] _ IH]; intros n Hn; simpl.
  - destruct n, Hrest as [->|(r & ->)]; done.
  - destruct n as [|n]; [simpl in Hn; lia|]. simpl. destruct (Z.eqb_spec c 46); [done|].
    f_equal. apply IH. simpl in Hn. lia.
Qed.

Lemma after_dot_none base : Forall name_char base → after_dot base = None.
Proof. induction 1 as [|c base [_ Hc] _ IH]; [done|]. simpl. by destruct (Z.eqb_spec c 46). Qed.
Lemma after_dot_some base ext : Forall name_char base → after_dot (base ++ 46 :: ext) = Some ext.
Proof. induction 1 as [|c base [_ Hc] _ IH]; [done|]. simpl. by destruct (Z.eqb_spec c 46). Qed.

Lemma upper_space c : upper c = 32 → c = 32.
Proof. unfold upper. destruct (Z.leb_spec 97 c), (Z.leb_spec c 122); simpl; lia. Qed.

Lemma filter_pad n l :
  (length l ≤ n)%nat → Forall (λ c, c ≠ 32) l →
  List.filter (λ c, negb (c =? 32)) (pad n l) = l.
Proof.
  intros Hn Hl. unfold pad. rewrite take_app_ge by done. rewrite take_replicate, List.filter_app.
  assert (E1 : List.filter (λ c, negb (c =? 32)) l = l).
  { clear Hn. induction Hl as [|c l Hc _ IH]; [done|]. simpl. destruct (Z.eqb_spec c 32); [done|]. simpl. by rewrite IH. }
  assert (E2 : ∀ k, List.filter (λ c, negb (c =? 32)) (replicate k 32) = []) by (induction k; done).
  by rewrite E1, E2, app_nil_r.
Qed.

Lemma Forall_upper l : Forall name_char l → Forall (λ c, c ≠ 32) (map upper l).
Proof.
  induction 1 as [|c l [Hc _] _ IH]; simpl; constructor; [|done]. intros E. by apply upper_space in E.
Qed.

Lemma standardize_text base ext :
  (length base ≤ 8)%nat → (length ext ≤ 3)%nat → Forall name_char base → Forall name_char ext →
  standardize_name (name_text base ext) = (pad 8 (map upper base), pad 3 (map upper ext)).
Proof.
  intros Hb He Hcb Hce. unfold standardize_name, name_text. destruct ext as [|e ext].
  - rewrite <-(app_nil_r base) at 1. rewrite take_until_dot_all by (done || by left).
    rewrite after_dot_none by done. done.
  - rewrite take_until_dot_all by (done || (right; eauto)). rewrite after_dot_some by done.
    rewrite take_ge by done. done.
Qed.

Lemma nth0_pad l : l ≠ [] → nth 0 (pad 3 l) 0 = nth 0 l 0.
Proof. unfold pad. by destruct l. Qed.

(** ** The properties of the file system *)

Section properties.
Context {D : Type} `{BlockDev D} (junk : list Z).

(** C30. A link in the table.  When the table sector of a cluster is
    readable, [set_next_cluster] makes [get_next_cluster] of that cluster
    answer the link written (28 bits, end marks normalised) and changes the
    link of no other cluster, also in the same sector. *)
Theorem fat_link_roundtrip (s : fs D) (c v : Z) :
  cluster_ok c → is_Some (fat_entry s c) →
  ∃ s', set_next_cluster junk c v s = Ret (tt, s') ∧
    get_next_cluster junk c s' = Ret (link (u32 v), s') ∧
    (∀ c', cluster_ok c' → c' ≠ c → get_next_cluster junk c' s' = Ret (next_of s c', s')).
Proof.
  intros Hc He. destruct (set_next_run junk s c v Hc He) as (s' & Hrun & _ & Hnew & Hother & _).
  exists s'. split; [done|]. split.
  - rewrite get_next_run by done. unfold next_of. by rewrite Hnew.
  - intros c' Hc' Hne. rewrite get_next_run by done. unfold next_of. by rewrite Hother.
Qed.

(** The first free cluster.  On a readable table [find_free_cluster]
    terminates, changes nothing, and answers 0 exactly when no entry from
    cluster 2 on is free, otherwise the lowest such cluster. *)
Theorem find_free_least (s : fs D) :
  fat_readable s → 0 ≤ fat_len s ≤ 2 ^ 23 →
  ∃ r, find_free_cluster junk s = Ret (r, s) ∧ (r = 0 ↔ none_free s) ∧ (r ≠ 0 → first_free s r).
Proof.
  intros Hr Hl. destruct (proj1 (wp_run _ _ _) (find_free_ok junk s Hr Hl)) as (r & s' & Hrun & -> & Hres).
  exists r. split; [done|]. destruct Hres as [(-> & Hn)|Hf]; [done|]. destruct Hf as (Hr2 & Hfree & Hmin).
  split; [|by intros _]. split; [lia|]. intros Hn. by rewrite Hn in Hfree by lia.
Qed.

(** C26. Reading a file at an offset.  On a handle whose clusters the table
    chains and the disk can read, [fat32_read_at] terminates, changes nothing,
    and delivers exactly the bytes of the file from the offset to the length
    asked for or the end of the file, across sector and cluster borders. *)
Theorem read_at_slice (s : fs D) (fd : Z) (f : fat32_file_t) (cs : list Z) (pos len : Z) :
  geometry s → handle s fd f cs → 0 ≤ pos < file_size f → 0 ≤ len → pos + len < 2 ^ 32 →
  ∃ bytes, fat32_read_at junk fd pos len s = Ret ((Z.of_nat (length bytes), bytes), s) ∧
    bytes = take (Z.to_nat (Z.min len (file_size f - pos))) (drop (Z.to_nat pos) (content s cs)) ∧
    Z.of_nat (length bytes) = Z.min len (file_size f - pos).
Proof.
  intros Hg Hh Hpos Hlen H32.
  destruct (proj1 (wp_run _ _ _) (read_at_ok junk s fd f cs pos len Hg Hh Hpos Hlen H32))
    as ([n bytes] & s' & Hrun & -> & Eb & En & Em).
  exists bytes. rewrite En in Hrun. split; [done|]. split; [exact Eb|]. by rewrite <-En.
Qed.

(** Seek and read agree with the re-entrant read.  After a seek within
    the file, [fat32_read] delivers what [fat32_read_at] does at that offset,
    moves the position by what it delivered, and leaves a handle on which the
    next read continues. *)
Theorem seek_read_continues (s : fs D) (fd : Z) (f : fat32_file_t) (cs : list Z) (pos len : Z) :
  geometry s → handle s fd f cs → 0 ≤ pos < file_size f → 0 ≤ len → pos + len < 2 ^ 32 →
  ∃ s1 s2 r f2, fat32_seek junk fd pos s = Ret (0, s1) ∧ fat32_read junk fd len s1 = Ret (r, s2) ∧
    fat32_read_at junk fd pos len s = Ret (r, s) ∧
    handle s2 fd f2 cs ∧ cursor s2 f2 cs ∧ position f2 = pos + r.1 ∧ file_size f2 = file_size f ∧
    disk s2 = disk s.
Proof.
  intros Hg Hh Hpos Hlen H32. pose proof Hh as (_ & _ & _ & _ & _ & _ & _ & Hsz31).
  destruct (proj1 (wp_run _ _ _) (seek_ok junk s fd f cs pos Hg Hh ltac:(lia)))
    as (r0 & s1 & Hseek & -> & f1 & Es1 & Hh1 & Hc1 & Hp1 & Hz1).
  rewrite Z.min_l in Hp1 by lia.
  assert (Hg1 : geometry s1) by by rewrite Es1.
  destruct (proj1 (wp_run _ _ _) (read_ok junk s1 fd f1 cs len Hg1 Hh1 Hc1 ltac:(lia) Hlen ltac:(lia)))
    as ([n bytes] & s2 & Hread & Eb & En & f2 & Es2 & Hh2 & Hc2 & Hp2 & Hz2).
  destruct (proj1 (wp_run _ _ _) (read_at_ok junk s fd f cs pos len Hg Hh Hpos Hlen H32))
    as ([n' bytes'] & s' & Hrun & -> & Eb' & En' & Em').
  assert (Ebb : bytes = bytes').
  { rewrite Eb, Eb'. unfold file_bytes. rewrite Hp1, Hz1. by rewrite Es1. }
  assert (Enn : n = n') by (rewrite En, Em'; congruence).
  exists s1, s2, (n, bytes), f2. rewrite Ebb, Enn in *.
  split_and!; try done; try (cbn [fst]; congruence). by rewrite Es2, Es1.
Qed.

(** C39. Freeing a chain.  [free_chain], the loop of unlink and rmdir,
    terminates on a chain without repetition and clears the link of exactly
    its clusters. *)
Theorem free_chain_exact (s : fs D) (c : Z) (cs : list Z) :
  chain s (c :: cs) → NoDup (c :: cs) → Z.of_nat (length cs) < 2 ^ 63 →
  ∃ s', free_chain junk c s = Ret (tt, s') ∧
    (∀ c', c' ∈ c :: cs → get_next_cluster junk c' s' = Ret (0, s')) ∧
    (∀ c', cluster_ok c' → c' ∉ c :: cs → get_next_cluster junk c' s' = Ret (next_of s c', s')).
Proof.
  intros Hch Hnd Hlen. destruct (free_chain_run junk s c cs Hch Hnd Hlen) as (s' & Hrun & _ & Hz & Ho).
  exists s'. split; [done|]. split.
  - intros c' Hin. rewrite get_next_run; [unfold next_of; by rewrite Hz|].
    apply list_elem_of_lookup in Hin as [i Hi]. destruct (chain_lookup s _ i c' Hch Hi) as (? & _).
    unfold cluster_ok, FAT32_BAD in *. lia.
  - intros c' Hc' Hnin. rewrite get_next_run by done. unfold next_of. by rewrite Ho.
Qed.
End properties.

(** 8.3 names.  A name of at most eight characters with an extension of
    at most three, none of them a space or a dot, is stored so that
    [format_name] gives it back in upper case, and its spelling in upper or
    lower case does not matter. *)
Theorem name_roundtrip (base ext : list Z) :
  (length base ≤ 8)%nat → (length ext ≤ 3)%nat → Forall name_char base → Forall name_char ext →
  let '(n, e) := standardize_name (name_text base ext) in
  length n = 8%nat ∧ length e = 3%nat ∧ format_name n e = name_text (map upper base) (map upper ext) ∧
  standardize_name (name_text (map upper base) (map upper ext)) = (n, e).
Proof.
  intros Hb He Hcb Hce. rewrite standardize_text by done.
  assert (Hup : ∀ l, Forall name_char l → Forall name_char (map upper l)).
  { induction 1 as [|c l [H1 H2] _ IH]; simpl; constructor; [|done]. unfold name_char, upper.
    destruct (Z.leb_spec 97 c), (Z.leb_spec c 122); simpl; lia. }
  assert (Hidem : ∀ l, map upper (map upper l) = map upper l).
  { intros l. rewrite map_map. apply map_ext. intros c. unfold upper.
    destruct ((97 <=? c) && (c <=? 122)) eqn:E; [|by rewrite E]. destr_bool.
    destruct (Z.leb_spec 97 (c - 32)); [lia|done]. }
  split_and!.
  - unfold pad. rewrite length_take, length_app, length_replicate, length_map. lia.
  - unfold pad. rewrite length_take, length_app, length_replicate, length_map. lia.
  - unfold format_name. rewrite filter_pad by ((by rewrite length_map) || by apply Forall_upper).
    destruct ext as [|e ext]; [by simpl; rewrite app_nil_r|].
    rewrite nth0_pad by done. rewrite (filter_pad 3) by ((by rewrite length_map) || by apply Forall_upper).
    inversion Hce as [|? ? [He32 _] _]; subst. cbn [map nth name_text].
    destruct (Z.eqb_spec (upper e) 32) as [E|]; [by apply upper_space in E|done].
  - rewrite standardize_text by ((by rewrite length_map) || by apply Hup). by rewrite !Hidem.
Qed.

(** The two halves of a cluster number. *)
Lemma halves c :
  Z.lor (Z.shiftl (le_dec (le_enc 2 (Z.land (Z.shiftr c 16) 0xFFFF))) 16) (le_dec (le_enc 2 (Z.land c 0xFFFF))) =
  Z.land c 0xFFFFFFFF.
Proof.
  rewrite !le_dec_enc. change (256 ^ Z.of_nat 2) with (2 ^ 16).
  change 0xFFFF with (Z.ones 16). change 0xFFFFFFFF with (Z.ones 32).
  rewrite !Z.land_ones by lia. rewrite !Zmod_mod. apply Z.bits_inj'. intros k Hk.
  rewrite Z.lor_spec, Z.shiftl_spec by done. rewrite !testbit_mod by lia.
  destruct (Z.ltb_spec k 16).
  - rewrite Z.testbit_neg_r by lia. rewrite andb_false_r. simpl. by destruct (Z.ltb_spec k 32); [|lia].
  - rewrite Z.shiftr_spec by lia. replace (k - 16 + 16) with k by lia.
    destruct (Z.ltb_spec (k - 16) 16), (Z.ltb_spec k 32); try lia; simpl; rewrite ?orb_false_r; done.
Qed.

(** The parent directory cannot be named.  In the first sector of a
    directory made by [fat32_mkdir], the search that resolves paths finds no
    entry for the components [..] and [.], whatever clusters the two entries
    hold. *)
Theorem dot_entries_unreachable (new parent : Z) :
  scan_sector true (standardize_name [46; 46]).1 (standardize_name [46; 46]).2 (dot_sector new parent) = None ∧
  scan_sector true (standardize_name [46]).1 (standardize_name [46]).2 (dot_sector new parent) = None ∧
  ent_cluster (dot_sector new parent) 1 = Z.land parent 0xFFFFFFFF.
Proof.
  split; [reflexivity|]. split; [reflexivity|]. unfold ent_cluster, ld16.
  change (slice (dot_sector new parent) (32 * 1 + 20) 2) with (le_enc 2 (Z.land (Z.shiftr parent 16) 0xFFFF)).
  change (slice (dot_sector new parent) (32 * 1 + 26) 2) with (le_enc 2 (Z.land parent 0xFFFF)).
  apply halves.
Qed.

(** ** Witnesses: a volume on a ramdisk *)

(** One FAT sector: cluster 2 links to 4, 3 is free, 4 ends a chain; the
    clusters, of one sector each, follow. *)
Definition demo_fat : list Z :=
  replicate 8 0 ++ le_enc 4 4 ++ le_enc 4 0 ++ le_enc 4 0x0FFFFFFF ++ replicate 492 0.
Definition demo_bytes : list Z := demo_fat ++ replicate 512 1 ++ replicate 512 2 ++ replicate 512 3.
Definition demo_bpb : list Z :=
  replicate 13 0 ++ [1] ++ replicate 22 0 ++ le_enc 4 1 ++ replicate 4 0 ++ le_enc 4 2 ++ replicate 42 0.

Lemma demo_bytes_ok : Forall is_byte demo_bytes.
Proof.
  unfold demo_bytes, demo_fat.
  repeat first [apply Forall_app_2 | apply le_enc_bytes | apply Forall_replicate; unfold is_byte; lia].
Qed.
Definition demo_file : fat32_file_t := MkFile 1 2 2 0 700 0 0 0 0 [].
Definition demo_fs : fs ramdisk :=
  MkFs (Ramdisk demo_bytes demo_bytes_ok) demo_bpb 0 0 1 1 (demo_file :: replicate 7 no_file) 2 [47] [].
Definition demo_junk : list Z := [].

Lemma demo_chain : chain demo_fs [2; 4].
Proof. vm_compute. repeat split; discriminate. Qed.
Lemma demo_geometry : geometry demo_fs.
Proof. vm_compute. split; discriminate. Qed.
Lemma demo_readable : readable demo_fs [2; 4].
Proof.
  intros c k Hc Hk. change (spc demo_fs) with 1 in Hk. assert (k = 0%nat) as -> by lia.
  repeat (apply elem_of_cons in Hc as [->|Hc]; [eexists; reflexivity|]). by apply elem_of_nil in Hc.
Qed.
Lemma demo_handle : handle demo_fs 0 demo_file [2; 4].
Proof.
  split; [lia|]. split; [reflexivity|]. split; [discriminate|]. split; [apply demo_chain|].
  split; [reflexivity|]. split; [apply demo_readable|]. split; [|reflexivity]. split; [discriminate|].
  change (spc demo_fs) with 1. simpl. lia.
Qed.

Lemma fat_link_roundtrip_witness :
  ∃ s', set_next_cluster demo_junk 3 2 demo_fs = Ret (tt, s') ∧ get_next_cluster demo_junk 3 s' = Ret (2, s') ∧
    get_next_cluster demo_junk 2 s' = Ret (4, s').
Proof.
  destruct (fat_link_roundtrip demo_junk demo_fs 3 2 ltac:(split; [lia|reflexivity]) ltac:(eexists; reflexivity))
    as (s' & Hset & Hget & Ho).
  exists s'. split; [exact Hset|]. split; [exact Hget|]. exact (Ho 2 ltac:(split; [lia|reflexivity]) ltac:(lia)).
Defined.

Lemma find_free_least_witness :
  ∃ r, find_free_cluster demo_junk demo_fs = Ret (r, demo_fs) ∧ (r = 0 ↔ none_free demo_fs) ∧ (r ≠ 0 → first_free demo_fs r).
Proof.
  apply (find_free_least demo_junk demo_fs).
  - intros k Hk. change (fat_len demo_fs) with 1 in Hk. assert (k = 0) as -> by lia. eexists. reflexivity.
  - change (fat_len demo_fs) with 1. lia.
Defined.

(** 300 bytes from offset 500 cross from the first cluster to the second one
    and stop at the end of the file. *)
Lemma read_at_slice_witness :
  ∃ bytes, fat32_read_at demo_junk 0 500 300 demo_fs = Ret ((Z.of_nat (length bytes), bytes), demo_fs) ∧
    Z.of_nat (length bytes) = 200.
Proof.
  destruct (read_at_slice demo_junk demo_fs 0 demo_file [2; 4] 500 300 demo_geometry demo_handle
    ltac:(simpl; lia) ltac:(lia) ltac:(lia)) as (bytes & Hrun & _ & Hlen).
  exists bytes. split; [exact Hrun|]. exact Hlen.
Defined.

Lemma seek_read_continues_witness :
  ∃ s1 s2 r f2, fat32_seek demo_junk 0 500 demo_fs = Ret (0, s1) ∧ fat32_read demo_junk 0 100 s1 = Ret (r, s2) ∧
    cursor s2 f2 [2; 4] ∧ position f2 = 500 + r.1.
Proof.
  destruct (seek_read_continues demo_junk demo_fs 0 demo_file [2; 4] 500 100 demo_geometry demo_handle
    ltac:(simpl; lia) ltac:(lia) ltac:(lia)) as (s1 & s2 & r & f2 & Hs & Hr & _ & _ & Hc & Hp & _).
  exists s1, s2, r, f2. split; [exact Hs|]. split; [exact Hr|]. split; [exact Hc|exact Hp].
Defined.

Lemma free_chain_exact_witness :
  ∃ s', free_chain demo_junk 2 demo_fs = Ret (tt, s') ∧ get_next_cluster demo_junk 4 s' = Ret (0, s').
Proof.
  destruct (free_chain_exact demo_junk demo_fs 2 [4] demo_chain
    ltac:(apply (bool_decide_unpack _); reflexivity) ltac:(reflexivity))
    as (s' & Hrun & Hz & _).
  exists s'. split; [exact Hrun|]. apply Hz. right. left.
Defined.

(** "a.c" *)
Lemma name_roundtrip_witness :
  standardize_name [97; 46; 99] = (65 :: replicate 7 32, [67; 32; 32]) ∧
  format_name (65 :: replicate 7 32) [67; 32; 32] = [65; 46; 67].
Proof.
  pose proof (name_roundtrip [97] [99] ltac:(simpl; lia) ltac:(simpl; lia)
    ltac:(repeat constructor; lia) ltac:(repeat constructor; lia)) as Hr.
  split; [reflexivity|]. exact (proj1 (proj2 (proj2 Hr))).
Defined.
