(* ===== verification/Gpt.v ===== *)
(** * Gpt: the partition table listing (src/fs/gpt.c, include/gpt.h)

    Buffers are byte lists; reading an entry past the end of its buffer is
    undefined. *)

From Stdlib Require Import ZArith Lia String.
From stdpp Require Import base numbers list option strings.
From S2P Require Import Prelude.
Open Scope Z_scope.

(** The header's fields, at their offsets in [gpt_header_t]. *)
Definition gpt_signature (b : list Z) : Z := ld64 b 0.
Definition num_partition_entries (b : list Z) : Z := ld32 b 80.
Definition EFI_PART : Z := 0x5452415020494645.

(** An entry's fields, at their offsets in [gpt_entry_t]. *)
Definition sizeof_entry : Z := 128.
Definition guid_data1 (e : list Z) : Z := ld32 e 0.
Definition guid_data2 (e : list Z) : Z := ld16 e 4.
Definition starting_lba (e : list Z) : Z := ld64 e 32.
Definition ending_lba (e : list Z) : Z := ld64 e 40.
Definition unused (e : list Z) : bool := (guid_data1 e =? 0) && (guid_data2 e =? 0).

Section gpt.
Context {X : Type} `{Console X}.

Definition gpt_entry (entries : list Z) (i : Z) : comp X (list Z) :=
  if sizeof_entry * i + sizeof_entry <=? Z.of_nat (length entries)
  then mret (slice entries (sizeof_entry * i) 128) else undef.

Definition print_partition (i : Z) (e : list Z) : comp X unit :=
  print_string "  Part ";;
  kprint_dec (i + 1);;
  print_string ": LBA ";;
  kprint_dec (u32 (starting_lba e));;
  print_string " -> ";;
  kprint_dec (u32 (ending_lba e));;
  print_char 10.

Definition gpt_parse (lba1_buffer entries_buffer : list Z) : comp X Z :=
  if negb (gpt_signature lba1_buffer =? EFI_PART) then
    print_string ("GPT: Invalid EFI PART signature!" +:+ NL);;
    mret (-1)
  else
    print_string ("GPT: Valid Header Found." +:+ NL);;
    print_string "GPT: Found ";;
    kprint_dec (num_partition_entries lba1_buffer);;
    print_string (" partition entries." +:+ NL);;
    for_each 0 (num_partition_entries lba1_buffer) (λ i,
      e ← gpt_entry entries_buffer i;
      if unused e then mret tt else print_partition i e);;
    mret 0.
End gpt.

(** ** What the listing says *)

(** The used entries among the first [n], with their numbers. *)
Definition used_entries (entries : list Z) (n : nat) : list (Z * list Z) :=
  List.filter (λ '(_, e), negb (unused e))
    (map (λ k, (Z.of_nat k, slice entries (sizeof_entry * Z.of_nat k) 128)) (seq 0 n)).

(** What is printed for one entry. *)
Definition entry_out (p : Z * list Z) : list out :=
  [OutStr "  Part "; OutDec (u32 (p.1 + 1)); OutStr ": LBA "; OutDec (u32 (starting_lba p.2)); OutStr " -> ";
   OutDec (u32 (ending_lba p.2)); OutChar 10].

Lemma used_entries_S entries n :
  used_entries entries (Datatypes.S n) =
  used_entries entries n ++
  (let e := slice entries (sizeof_entry * Z.of_nat n) 128 in if unused e then [] else [(Z.of_nat n, e)]).
Proof.
  unfold used_entries. rewrite seq_S, map_app, List.filter_app. f_equal. simpl. by destruct (unused _).
Qed.

#[export] Instance console_log : Console (list out) := λ o l, l ++ [o].

Lemma u32_idem x : u32 (u32 x) = u32 x.
Proof. unfold u32. apply Zmod_mod. Qed.

Definition gpt_body (entries : list Z) (i : Z) : comp (list out) (option unit) :=
  (e ← gpt_entry entries i; if unused e then mret tt else print_partition i e);; mret None.

(** The first [n] entries, when the buffer holds them. *)
Lemma list_entries entries n log :
  128 * Z.of_nat n ≤ Z.of_nat (length entries) →
  for_nat n 0 (gpt_body entries) log = Ret (None, log ++ concat (map entry_out (used_entries entries n))).
Proof.
  induction n as [|n IH]; intros Hn; [by rewrite app_nil_r|].
  replace (Datatypes.S n) with (n + 1)%nat by lia. rewrite for_nat_app.
  rewrite (run_bind _ _ _ _ _ (IH ltac:(lia))). rewrite Nat.add_1_r, used_entries_S, map_app, concat_app, app_assoc.
  generalize (log ++ concat (map entry_out (used_entries entries n))). intros l. simpl.
  unfold gpt_body, gpt_entry, sizeof_entry. rewrite Z.add_0_l.
  destruct (Z.leb_spec (128 * Z.of_nat n + 128) (Z.of_nat (length entries))); [|lia].
  unfold mbind, comp_bind, mret, comp_ret. destruct (unused _); simpl; [by rewrite app_nil_r|].
  unfold print_partition, mbind, comp_bind, print_string, kprint_dec, print_char, modify, emit, console_log. simpl.
  rewrite !u32_idem, <-!app_assoc. done.
Qed.

Lemma list_past_end entries i log : Z.of_nat (length entries) < 128 * i + 128 → gpt_body entries i log = Undef.
Proof.
  intros Hi. unfold gpt_body, gpt_entry, sizeof_entry, mbind, comp_bind.
  destruct (Z.leb_spec (128 * i + 128) (Z.of_nat (length entries))); [lia|done].
Qed.

Definition gpt_head (n : Z) : list out :=
  [OutStr ("GPT: Valid Header Found." +:+ NL); OutStr "GPT: Found "; OutDec (u32 n);
   OutStr (" partition entries." +:+ NL)].

Lemma gpt_parse_eq header entries log :
  gpt_signature header = EFI_PART →
  gpt_parse header entries log =
  (_ ← for_nat (Z.to_nat (num_partition_entries header)) 0 (gpt_body entries); mret 0)
    (log ++ gpt_head (num_partition_entries header)).
Proof.
  intros Hsig. unfold gpt_parse. rewrite Hsig. unfold for_each, for_range. rewrite Z.sub_0_r.
  fold (gpt_body entries). change (negb (EFI_PART =? EFI_PART)) with false. cbn iota.
  unfold print_string, kprint_dec, modify, emit, console_log, mbind, comp_bind, mret, comp_ret.
  rewrite <-!app_assoc. cbn [app]. by destruct (for_nat _ _ _ _) as [[]| |].
Qed.

(** The partition listing.  A buffer without the signature is refused
    with -1 and one message; otherwise, when the entry buffer holds the number
    of entries the header claims, every used entry is printed once, in order,
    with its number from 1, and nothing else; when it holds fewer, the code
    reads past the buffer. *)
Theorem gpt_parse_lists (header entries : list Z) (log : list out) :
  0 ≤ num_partition_entries header →
  (gpt_signature header ≠ EFI_PART →
     gpt_parse header entries log = Ret (-1, log ++ [OutStr ("GPT: Invalid EFI PART signature!" +:+ NL)])) ∧
  (gpt_signature header = EFI_PART → 128 * num_partition_entries header ≤ Z.of_nat (length entries) →
     gpt_parse header entries log =
       Ret (0, log ++ gpt_head (num_partition_entries header) ++ concat (map entry_out (used_entries entries (Z.to_nat (num_partition_entries header)))))) ∧
  (gpt_signature header = EFI_PART → Z.of_nat (length entries) < 128 * num_partition_entries header → gpt_parse header entries log = Undef).
Proof.
  intros Hn. split; [|split].
  - intros Hsig. unfold gpt_parse. destruct (Z.eqb_spec (gpt_signature header) EFI_PART); [done|]. done.
  - intros Hsig Hlen. rewrite gpt_parse_eq by done. rewrite (run_bind _ _ _ _ _ (list_entries entries (Z.to_nat (num_partition_entries header)) _ ltac:(lia))).
    by rewrite <-app_assoc.
  - intros Hsig Hlen. rewrite gpt_parse_eq by done.
    set (n := num_partition_entries header) in *. set (m := Z.to_nat (Z.of_nat (length entries) / 128)).
    assert (Hm : (m < Z.to_nat n)%nat ∧ 128 * Z.of_nat m ≤ Z.of_nat (length entries) < 128 * Z.of_nat m + 128).
    { assert (Em : Z.of_nat m = Z.of_nat (length entries) / 128) by (unfold m; rewrite Z2Nat.id; [done|apply Z.div_pos; lia]).
      pose proof (Z.div_mod (Z.of_nat (length entries)) 128 ltac:(lia)).
      pose proof (Z.mod_pos_bound (Z.of_nat (length entries)) 128 ltac:(lia)). clearbody m. lia. }
    replace (Z.to_nat n) with (m + Datatypes.S (Z.to_nat n - m - 1))%nat by lia.
    unfold mbind, comp_bind. rewrite for_nat_app.
    rewrite (run_bind _ _ _ _ _ (list_entries entries m _ ltac:(lia))). cbn [for_nat].
    unfold mbind, comp_bind. rewrite Z.add_0_l, list_past_end by lia. done.
Qed.

(** A header that claims two entries, the second one used. *)
Definition gpt_demo : list Z := bytes_of "EFI PART" ++ replicate 72 0 ++ [2; 0; 0; 0] ++ replicate 428 0.
Definition entries_demo : list Z :=
  replicate 128 0 ++ replicate 4 1 ++ replicate 28 0 ++ le_enc 8 2048 ++ le_enc 8 4095 ++ replicate 80 0.

Lemma gpt_parse_lists_witness :
  gpt_parse gpt_demo entries_demo [] =
    Ret (0, gpt_head 2 ++ [OutStr "  Part "; OutDec 2; OutStr ": LBA "; OutDec 2048; OutStr " -> "; OutDec 4095; OutChar 10]) ∧
  gpt_parse gpt_demo (take 200 entries_demo) [] = Undef.
Proof.
  split.
  - exact (proj1 (proj2 (gpt_parse_lists gpt_demo entries_demo [] ltac:(discriminate))) eq_refl ltac:(discriminate)).
  - exact (proj2 (proj2 (gpt_parse_lists gpt_demo (take 200 entries_demo) [] ltac:(discriminate))) eq_refl ltac:(reflexivity)).
Defined.
