(* ===== verification/Screen.v ===== *)
(** * Screen: the console (src/drivers/screen.c, include/screen.h)

    The text history is a ring of 1000 lines; the display, in VGA text mode or
    in a framebuffer, shows a window of it.  Arrays are functions whose
    accesses are checked; the two display memories and the ports written are
    part of the state.  The specification at the end is a terminal with an
    unbounded log. *)

From Stdlib Require Import ZArith Lia ZifyBool String.
From stdpp Require Import base numbers list option strings.
From S2P Require Import Prelude.
Open Scope Z_scope.

Definition MAX_HISTORY : Z := 1000.
Definition MAX_ROWS : Z := 200.
Definition MAX_COLS : Z := 320.
Definition MARGIN_ROWS : Z := 2.

(** The framebuffer and the grid of characters. *)
Record fbinfo := MkFb {
  fb_ptr : Z;
  fb_width : Z;
  fb_height : Z;
  fb_pitch : Z;
  fb_bpp : Z;
  SCREEN_ROWS : Z;
  SCREEN_COLS : Z;
  VISIBLE_ROWS : Z
}.

Record text := MkText {
  current_attr : Z;
  history_buffer : Z → Z → Z;
  total_lines_stored : Z;
  current_line_idx : Z;
  current_col : Z;
  scroll_offset : Z;
  defer_refresh : Z
}.

Record capture := MkCap {
  agent_capture_buf : list Z;
  agent_capture_idx : Z;
  agent_capture_active : bool
}.

(** Video memory in cells, framebuffer memory in bytes, and the ports written,
    latest first. *)
Record display := MkDsp {
  vga : Z → Z;
  fbmem : memory;
  fb_last_screen : Z → Z → Z;
  fb_force_redraw : bool;
  cursor : Z;
  ports : list (Z * Z)
}.

Record screen := MkScreen { fb : fbinfo; txt : text; cap : capture; dsp : display }.

Definition set_txt t s := MkScreen (fb s) t (cap s) (dsp s).
Definition set_cap c s := MkScreen (fb s) (txt s) c (dsp s).
Definition set_dsp d s := MkScreen (fb s) (txt s) (cap s) d.

Definition set_attr a t := MkText a (history_buffer t) (total_lines_stored t) (current_line_idx t) (current_col t)
  (scroll_offset t) (defer_refresh t).
Definition set_history h t := MkText (current_attr t) h (total_lines_stored t) (current_line_idx t) (current_col t)
  (scroll_offset t) (defer_refresh t).
Definition set_place n i c t := MkText (current_attr t) (history_buffer t) n i c (scroll_offset t) (defer_refresh t).
Definition set_scroll o t := MkText (current_attr t) (history_buffer t) (total_lines_stored t) (current_line_idx t)
  (current_col t) o (defer_refresh t).
Definition set_defer n t := MkText (current_attr t) (history_buffer t) (total_lines_stored t) (current_line_idx t)
  (current_col t) (scroll_offset t) n.

Definition screen_boot : screen :=
  MkScreen (MkFb 0 0 0 0 0 25 80 23) (MkText 0x07 (λ _ _, 0) 0 0 0 0 0) (MkCap (replicate 2048 0) 0 false)
    (MkDsp (λ _, 0) (λ _, 0) (λ _ _, 0) true 0 []).

Definition blank : Z := 0x0720.
(** A character with its attribute, as 16 bits. *)
Definition cell (attr c : Z) : Z := u16 (Z.lor (Z.shiftl attr 8) c).

Definition vga_palette : list Z :=
  [0x000000; 0x0000AA; 0x00AA00; 0x00AAAA; 0xAA0000; 0xAA00AA; 0xAA5500; 0xAAAAAA;
   0x555555; 0x5555FF; 0x55FF55; 0x55FFFF; 0xFF5555; 0xFF55FF; 0xFFFF55; 0xFFFFFF].
Definition attr_fg (attr : Z) : Z := nth (Z.to_nat (Z.land attr 0x0F)) vga_palette 0.
Definition attr_bg (attr : Z) : Z := nth (Z.to_nat (Z.land (Z.shiftr attr 4) 0x0F)) vga_palette 0.

(** The glyphs of font8x8.h, eight rows of eight bits each. *)
Definition font8x8_basic : list (list Z) := [
  [0; 0; 0; 0; 0; 0; 0; 0];
  [0; 0; 0; 0; 0; 0; 0; 0];
  [0; 0; 0; 0; 0; 0; 0; 0];
  [0; 0; 0; 0; 0; 0; 0; 0];
  [0; 0; 0; 0; 0; 0; 0; 0];
  [0; 0; 0; 0; 0; 0; 0; 0];
  [0; 0; 0; 0; 0; 0; 0; 0];
  [0; 0; 0; 0; 0; 0; 0; 0];
  [0; 0; 0; 0; 0; 0; 0; 0];
  [0; 0; 0; 0; 0; 0; 0; 0];
  [0; 0; 0; 0; 0; 0; 0; 0];
  [0; 0; 0; 0; 0; 0; 0; 0];
  [0; 0; 0; 0; 0; 0; 0; 0];
  [0; 0; 0; 0; 0; 0; 0; 0];
  [0; 0; 0; 0; 0; 0; 0; 0];
  [0; 0; 0; 0; 0; 0; 0; 0];
  [0; 0; 0; 0; 0; 0; 0; 0];
  [0; 0; 0; 0; 0; 0; 0; 0];
  [0; 0; 0; 0; 0; 0; 0; 0];
  [0; 0; 0; 0; 0; 0; 0; 0];
  [0; 0; 0; 0; 0; 0; 0; 0];
  [0; 0; 0; 0; 0; 0; 0; 0];
  [0; 0; 0; 0; 0; 0; 0; 0];
  [0; 0; 0; 0; 0; 0; 0; 0];
  [0; 0; 0; 0; 0; 0; 0; 0];
  [0; 0; 0; 0; 0; 0; 0; 0];
  [0; 0; 0; 0; 0; 0; 0; 0];
  [0; 0; 0; 0; 0; 0; 0; 0];
  [0; 0; 0; 0; 0; 0; 0; 0];
  [0; 0; 0; 0; 0; 0; 0; 0];
  [0; 0; 0; 0; 0; 0; 0; 0];
  [0; 0; 0; 0; 0; 0; 0; 0];
  [0; 0; 0; 0; 0; 0; 0; 0];
  [24; 60; 60; 24; 24; 0; 24; 0];
  [54; 54; 0; 0; 0; 0; 0; 0];
  [54; 54; 127; 54; 127; 54; 54; 0];
  [12; 62; 3; 30; 48; 31; 12; 0];
  [0; 99; 51; 24; 12; 102; 99; 0];
  [28; 54; 28; 110; 59; 51; 110; 0];
  [6; 6; 3; 0; 0; 0; 0; 0];
  [24; 12; 6; 6; 6; 12; 24; 0];
  [6; 12; 24; 24; 24; 12; 6; 0];
  [0; 102; 60; 255; 60; 102; 0; 0];
  [0; 12; 12; 63; 12; 12; 0; 0];
  [0; 0; 0; 0; 0; 12; 12; 6];
  [0; 0; 0; 63; 0; 0; 0; 0];
  [0; 0; 0; 0; 0; 12; 12; 0];
  [96; 48; 24; 12; 6; 3; 1; 0];
  [62; 99; 115; 123; 111; 103; 62; 0];
  [12; 14; 12; 12; 12; 12; 63; 0];
  [30; 51; 48; 28; 6; 51; 63; 0];
  [30; 51; 48; 28; 48; 51; 30; 0];
  [56; 60; 54; 51; 127; 48; 120; 0];
  [63; 3; 31; 48; 48; 51; 30; 0];
  [28; 6; 3; 31; 51; 51; 30; 0];
  [63; 51; 48; 24; 12; 12; 12; 0];
  [30; 51; 51; 30; 51; 51; 30; 0];
  [30; 51; 51; 62; 48; 24; 14; 0];
  [0; 12; 12; 0; 0; 12; 12; 0];
  [0; 12; 12; 0; 0; 12; 12; 6];
  [24; 12; 6; 3; 6; 12; 24; 0];
  [0; 0; 63; 0; 0; 63; 0; 0];
  [6; 12; 24; 48; 24; 12; 6; 0];
  [30; 51; 48; 24; 12; 0; 12; 0];
  [62; 99; 123; 123; 123; 3; 30; 0];
  [12; 30; 51; 51; 63; 51; 51; 0];
  [63; 102; 102; 62; 102; 102; 63; 0];
  [60; 102; 3; 3; 3; 102; 60; 0];
  [31; 54; 102; 102; 102; 54; 31; 0];
  [127; 70; 22; 30; 22; 70; 127; 0];
  [127; 70; 22; 30; 22; 6; 15; 0];
  [60; 102; 3; 3; 115; 102; 124; 0];
  [51; 51; 51; 63; 51; 51; 51; 0];
  [30; 12; 12; 12; 12; 12; 30; 0];
  [120; 48; 48; 48; 51; 51; 30; 0];
  [103; 102; 54; 30; 54; 102; 103; 0];
  [15; 6; 6; 6; 70; 102; 127; 0];
  [99; 119; 127; 127; 107; 99; 99; 0];
  [99; 103; 111; 123; 115; 99; 99; 0];
  [28; 54; 99; 99; 99; 54; 28; 0];
  [63; 102; 102; 62; 6; 6; 15; 0];
  [30; 51; 51; 51; 59; 30; 56; 0];
  [63; 102; 102; 62; 54; 102; 103; 0];
  [30; 51; 7; 14; 56; 51; 30; 0];
  [63; 45; 12; 12; 12; 12; 30; 0];
  [51; 51; 51; 51; 51; 51; 63; 0];
  [51; 51; 51; 51; 51; 30; 12; 0];
  [99; 99; 99; 107; 127; 119; 99; 0];
  [99; 99; 54; 28; 28; 54; 99; 0];
  [51; 51; 51; 30; 12; 12; 30; 0];
  [127; 99; 49; 24; 76; 102; 127; 0];
  [30; 6; 6; 6; 6; 6; 30; 0];
  [3; 6; 12; 24; 48; 96; 64; 0];
  [30; 24; 24; 24; 24; 24; 30; 0];
  [8; 28; 54; 99; 0; 0; 0; 0];
  [0; 0; 0; 0; 0; 0; 0; 255];
  [12; 12; 24; 0; 0; 0; 0; 0];
  [0; 0; 30; 48; 62; 51; 110; 0];
  [7; 6; 6; 62; 102; 102; 59; 0];
  [0; 0; 30; 51; 3; 51; 30; 0];
  [56; 48; 48; 62; 51; 51; 110; 0];
  [0; 0; 30; 51; 63; 3; 30; 0];
  [28; 54; 6; 15; 6; 6; 15; 0];
  [0; 0; 110; 51; 51; 62; 48; 31];
  [7; 6; 54; 110; 102; 102; 103; 0];
  [12; 0; 14; 12; 12; 12; 30; 0];
  [48; 0; 48; 48; 48; 51; 51; 30];
  [7; 6; 102; 54; 30; 54; 103; 0];
  [14; 12; 12; 12; 12; 12; 30; 0];
  [0; 0; 51; 127; 127; 107; 99; 0];
  [0; 0; 31; 51; 51; 51; 51; 0];
  [0; 0; 30; 51; 51; 51; 30; 0];
  [0; 0; 59; 102; 102; 62; 6; 15];
  [0; 0; 110; 51; 51; 62; 48; 120];
  [0; 0; 59; 110; 102; 6; 15; 0];
  [0; 0; 62; 3; 30; 48; 31; 0];
  [8; 12; 62; 12; 12; 44; 24; 0];
  [0; 0; 51; 51; 51; 51; 110; 0];
  [0; 0; 51; 51; 51; 30; 12; 0];
  [0; 0; 99; 107; 127; 127; 54; 0];
  [0; 0; 99; 54; 28; 54; 99; 0];
  [0; 0; 51; 51; 51; 62; 48; 31];
  [0; 0; 63; 25; 12; 38; 63; 0];
  [56; 12; 12; 7; 12; 12; 56; 0];
  [24; 24; 24; 0; 24; 24; 24; 0];
  [7; 12; 12; 56; 12; 12; 7; 0];
  [110; 59; 0; 0; 0; 0; 0; 0];
  [0; 0; 0; 0; 0; 0; 0; 0]].

Definition on_txt {A} (m : comp text A) : comp screen A := zoom txt set_txt m.
Definition on_dsp {A} (m : comp display A) : comp screen A := zoom dsp set_dsp m.

Definition set_text_color (attr : Z) : comp screen unit := on_txt (modify (set_attr (u8 attr))).
Definition reset_text_color : comp screen unit := on_txt (modify (set_attr 0x07)).

(** [history_buffer[i][c] = v] *)
Definition put_history (i c v : Z) : comp text unit :=
  if (0 <=? i) && (i <? MAX_HISTORY) && (0 <=? c) && (c <? MAX_COLS) then
    modify (λ t, set_history (λ i' c', if (i' =? i) && (c' =? c) then v else history_buffer t i' c') t)
  else undef.

Definition clear_history_line (cols idx : Z) : comp text unit :=
  for_each 0 cols (λ i, put_history idx i blank).

Definition screen_init_fb (addr width height pitch bpp : Z) : comp screen unit :=
  modify (λ s,
    let cols := i32 (width / 8) in
    let rows := i32 (height / 8) in
    let cols := if cols <? 40 then 40 else cols in
    let rows := if rows <? 10 then 10 else rows in
    let cols := if MAX_COLS <? cols then MAX_COLS else cols in
    let rows := if MAX_ROWS <? rows then MAX_ROWS else rows in
    MkScreen (MkFb addr width height pitch bpp rows cols (rows - MARGIN_ROWS)) (txt s) (cap s)
      (MkDsp (vga (dsp s)) (fbmem (dsp s)) (fb_last_screen (dsp s)) true (cursor (dsp s)) (ports (dsp s)))).

(** ** Drawing *)

Definition set_vga i v d := MkDsp (λ k, if k =? i then v else vga d k) (fbmem d) (fb_last_screen d) (fb_force_redraw d)
  (cursor d) (ports d).
Definition set_fbmem m d := MkDsp (vga d) m (fb_last_screen d) (fb_force_redraw d) (cursor d) (ports d).
Definition set_last r c v d := MkDsp (vga d) (fbmem d)
  (λ r' c', if (r' =? r) && (c' =? c) then v else fb_last_screen d r' c') (fb_force_redraw d) (cursor d) (ports d).
Definition set_force b d := MkDsp (vga d) (fbmem d) (fb_last_screen d) b (cursor d) (ports d).
Definition set_cursor p d := MkDsp (vga d) (fbmem d) (fb_last_screen d) (fb_force_redraw d) p (ports d).
Definition outb (port v : Z) : comp display unit :=
  modify (λ d, MkDsp (vga d) (fbmem d) (fb_last_screen d) (fb_force_redraw d) (cursor d) ((port, u8 v) :: ports d)).

(** The glyph of a byte. *)
Definition glyph_of (ch : Z) : Z := if ch =? 219 then 35 else if ch =? 179 then 124 else if 127 <? ch then 63 else ch.

Definition draw_fb_char (f : fbinfo) (r c vga_char fg bg : Z) : comp display unit :=
  if fb_ptr f =? 0 then mret tt
  else
    glyph ← must (znth font8x8_basic (glyph_of (Z.land vga_char 0xFF)));
    let bytes_per_pixel := fb_bpp f / 8 in
    let start_x := c * 8 in
    let start_y := r * 8 in
    if (i32 (fb_width f) <? start_x + 8) || (i32 (fb_height f) <? start_y + 8) then mret tt
    else
      for_each 0 8 (λ y,
        let row_ptr := fb_ptr f + u32 ((start_y + y) * fb_pitch f) in
        for_each 0 8 (λ x,
          bits ← must (znth glyph y);
          let color := if negb (Z.land bits (Z.shiftl 1 x) =? 0) then fg else bg in
          let pixel := row_ptr + (start_x + x) * bytes_per_pixel in
          if bytes_per_pixel =? 4 then modify (λ d, set_fbmem (mem_store (fbmem d) pixel (le_enc 4 color)) d)
          else if bytes_per_pixel =? 3 then modify (λ d, set_fbmem (mem_store (fbmem d) pixel (le_enc 3 color)) d)
          else mret tt)).

(** Draw a cell if it differs from what was drawn last, or everything is
    drawn again. *)
Definition draw_changed (f : fbinfo) (r c val vga_char fg bg : Z) : comp display unit :=
  if (0 <=? r) && (r <? MAX_ROWS) && (0 <=? c) && (c <? MAX_COLS) then
    d ← get;
    if fb_force_redraw d || negb (fb_last_screen d r c =? val) then
      draw_fb_char f r c vga_char fg bg;;
      modify (set_last r c val)
    else mret tt
  else undef.

(** [history_buffer[i][c]] *)
Definition get_history (t : text) (i c : Z) : comp display Z :=
  if (0 <=? i) && (i <? MAX_HISTORY) && (0 <=? c) && (c <? MAX_COLS) then mret (history_buffer t i c) else undef.

(** The line shown at the top, and the range of scrolling. *)
Definition start_history (f : fbinfo) (t : text) : Z :=
  let start := total_lines_stored t - scroll_offset t - (VISIBLE_ROWS f - 1) in if start <? 0 then 0 else start.
Definition max_scroll (f : fbinfo) (t : text) : Z :=
  let m := total_lines_stored t - (VISIBLE_ROWS f - 1) in if m <? 0 then 0 else m.
Definition handle_row (f : fbinfo) (t : text) : Z :=
  (VISIBLE_ROWS f - 1) - (scroll_offset t * (VISIBLE_ROWS f - 1)) / max_scroll f t.

Definition refresh_fb_screen (f : fbinfo) (t : text) : comp display unit :=
  for_each 0 (VISIBLE_ROWS f) (λ r,
    let idx := start_history f t + r in
    if idx <=? total_lines_stored t then
      for_each 0 (SCREEN_COLS f) (λ c,
        if c =? SCREEN_COLS f - 1 then mret tt
        else
          val ← get_history t (idx mod MAX_HISTORY) c;
          let a := Z.land (Z.shiftr val 8) 0xFF in
          draw_changed f r c val val (attr_fg a) (attr_bg a))
    else
      for_each 0 (SCREEN_COLS f - 1) (λ c, draw_changed f r c blank 32 (attr_fg 0x07) (attr_bg 0x07)));;
  for_each (VISIBLE_ROWS f) (SCREEN_ROWS f) (λ r,
    for_each 0 (SCREEN_COLS f) (λ c, draw_changed f r c blank 32 (attr_fg 0x07) (attr_bg 0x07)));;
  for_each 0 (VISIBLE_ROWS f) (λ r,
    let handle := (0 <? max_scroll f t) && (r =? handle_row f t) in
    let sb_val := if handle then 0x0F23 else 0x087C in
    let fg := if handle then 0xFFFFFF else 0x444444 in
    draw_changed f r (SCREEN_COLS f - 1) sb_val (Z.land sb_val 0xFF) fg 0x111111);;
  modify (set_force false).

Definition refresh_vga (f : fbinfo) (t : text) : comp display unit :=
  for_each 0 (VISIBLE_ROWS f) (λ r,
    let idx := start_history f t + r in
    if idx <=? total_lines_stored t then
      for_each 0 (SCREEN_COLS f) (λ c,
        if c =? SCREEN_COLS f - 1 then mret tt
        else
          val ← get_history t (idx mod MAX_HISTORY) c;
          modify (set_vga (r * SCREEN_COLS f + c) val))
    else
      for_each 0 (SCREEN_COLS f - 1) (λ c, modify (set_vga (r * SCREEN_COLS f + c) blank)));;
  for_each (VISIBLE_ROWS f) (SCREEN_ROWS f) (λ r,
    for_each 0 (SCREEN_COLS f) (λ c, modify (set_vga (r * SCREEN_COLS f + c) blank)));;
  for_each 0 (VISIBLE_ROWS f) (λ r,
    let handle := (0 <? max_scroll f t) && (r =? handle_row f t) in
    modify (set_vga (r * SCREEN_COLS f + (SCREEN_COLS f - 1)) (if handle then 0x0FDB else 0x08B3))).

Definition refresh_screen : comp screen unit :=
  s ← get;
  on_dsp (if negb (fb_ptr (fb s) =? 0) then refresh_fb_screen (fb s) (txt s) else refresh_vga (fb s) (txt s)).

Definition update_cursor : comp screen unit :=
  s ← get;
  let f := fb s in
  let t := txt s in
  on_dsp (
    if negb (fb_ptr f =? 0) then mret tt
    else if 0 <? scroll_offset t then outb 0x3D4 0x0A;; outb 0x3D5 0x20
    else
      outb 0x3D4 0x0A;; outb 0x3D5 0x0E;;
      outb 0x3D4 0x0B;; outb 0x3D5 0x0F;;
      let start := total_lines_stored t - (VISIBLE_ROWS f - 1) in
      let start := if start <? 0 then 0 else start in
      let pos := (total_lines_stored t - start) * SCREEN_COLS f + current_col t in
      outb 0x3D4 0x0E;; outb 0x3D5 (Z.land (Z.shiftr pos 8) 0xFF);;
      outb 0x3D4 0x0F;; outb 0x3D5 (Z.land pos 0xFF);;
      modify (set_cursor pos)).

(** ** Output *)

Definition clear_screen : comp screen unit :=
  cols ← gets (λ s, SCREEN_COLS (fb s));
  on_txt (for_each 0 MAX_HISTORY (clear_history_line cols));;
  on_txt (modify (λ t, set_scroll 0 (set_place 0 0 0 t)));;
  on_dsp (modify (set_force true));;
  refresh_screen;;
  update_cursor.

Definition scroll_up : comp screen unit :=
  s ← get;
  let o := scroll_offset (txt s) in
  if (o <? max_scroll (fb s) (txt s)) && (o <? MAX_HISTORY - VISIBLE_ROWS (fb s)) then
    on_txt (modify (set_scroll (o + 1)));;
    refresh_screen;;
    update_cursor
  else mret tt.

Definition scroll_down : comp screen unit :=
  s ← get;
  let o := scroll_offset (txt s) in
  if 0 <? o then
    on_txt (modify (set_scroll (o - 1)));;
    refresh_screen;;
    update_cursor
  else mret tt.

Definition screen_start_capture : comp screen unit :=
  s ← get;
  b ← must (zset (agent_capture_buf (cap s)) 0 0);
  put (set_cap (MkCap b 0 true) s).
Definition screen_stop_capture : comp screen unit :=
  modify (λ s, set_cap (MkCap (agent_capture_buf (cap s)) (agent_capture_idx (cap s)) false) s).
Definition screen_get_capture : comp screen (list Z) := gets (λ s, agent_capture_buf (cap s)).

(** The head of [print_char]: the agent's copy and the serial port. *)
Definition capture_char (c : Z) : comp screen unit :=
  s ← get;
  let k := cap s in
  (if agent_capture_active k && (agent_capture_idx k <? 2047) then
     b ← must (zset (agent_capture_buf k) (agent_capture_idx k) c);
     b ← must (zset b (agent_capture_idx k + 1) 0);
     put (set_cap (MkCap b (agent_capture_idx k + 1) true) s)
   else mret tt);;
  on_dsp (outb 0x3F8 c).

(** Show the end of the history, unless a caller does it later. *)
Definition follow : comp screen unit :=
  s ← get;
  if defer_refresh (txt s) =? 0 then
    on_txt (modify (set_scroll 0));;
    refresh_screen;;
    update_cursor
  else mret tt.

Definition newline (cols : Z) : comp text unit :=
  t ← get;
  let n := total_lines_stored t + 1 in
  if 2 ^ 31 <=? n then undef
  else
    put (set_place n (n mod MAX_HISTORY) 0 t);;
    clear_history_line cols (n mod MAX_HISTORY).

(** The recursion is two deep: a wrapped character prints a newline and then
    itself, at column 0. *)
Fixpoint print_char_n (fuel : nat) (c : Z) : comp screen unit :=
  match fuel with
  | O => out_of_fuel
  | Datatypes.S fuel' =>
      capture_char c;;
      s ← get;
      let t := txt s in
      if c =? 8 then
        (if 0 <? current_col t then
           on_txt (modify (set_place (total_lines_stored t) (current_line_idx t) (current_col t - 1));;
                   put_history (current_line_idx t) (current_col t - 1) (cell (current_attr t) 32))
         else mret tt);;
        follow
      else if c =? 10 then
        on_txt (newline (SCREEN_COLS (fb s)));;
        follow
      else if current_col t <? SCREEN_COLS (fb s) - 1 then
        on_txt (put_history (current_line_idx t) (current_col t) (cell (current_attr t) c);;
                modify (set_place (total_lines_stored t) (current_line_idx t) (current_col t + 1)));;
        follow
      else
        print_char_n fuel' 10;;
        print_char_n fuel' c
  end.
Definition print_char (c : Z) : comp screen unit := print_char_n 2 c.

Definition defer (m : comp screen unit) : comp screen unit :=
  on_txt (modify (λ t, set_defer (defer_refresh t + 1) t));;
  m;;
  on_txt (modify (λ t, set_defer (defer_refresh t - 1) t));;
  follow.

Fixpoint print_chars (str : list Z) : comp screen unit :=
  match str with [] => mret tt | c :: str' => print_char c;; print_chars str' end.

Definition print_string (str : list Z) : comp screen unit := defer (print_chars str).

Definition print_color_string (str : list Z) (attr : Z) : comp screen unit :=
  saved ← gets (λ s, current_attr (txt s));
  on_txt (modify (set_attr attr));;
  print_string str;;
  on_txt (modify (set_attr saved)).

Definition kprint_hex (n : Z) : comp screen unit :=
  defer (
    print_string (bytes_of "0x");;
    for_each 0 8 (λ k, print_char (nth (Z.to_nat (Z.land (Z.shiftr n (28 - 4 * k)) 0xF)) (bytes_of "0123456789ABCDEF") 0))).

(** The decimal digits, as the buffer of [kprint_dec] read from its end. *)
Definition digits (n : Z) : comp screen (list Z) :=
  loop (λ '(n, buf), if 0 <? n then mret (inl (n / 10, n mod 10 + 48 :: buf)) else mret (inr buf)) (n, []).

Definition kprint_dec (n : Z) : comp screen unit :=
  if n =? 0 then print_char 48
  else defer (buf ← digits n; print_chars buf).

(** ** Invariants *)

Definition grid_ok (f : fbinfo) : Prop :=
  2 ≤ SCREEN_COLS f ≤ MAX_COLS ∧ SCREEN_ROWS f ≤ MAX_ROWS ∧ VISIBLE_ROWS f = SCREEN_ROWS f - MARGIN_ROWS ∧
  8 ≤ VISIBLE_ROWS f.
Definition text_ok (f : fbinfo) (t : text) : Prop :=
  0 ≤ total_lines_stored t ∧ current_line_idx t = total_lines_stored t mod MAX_HISTORY ∧
  0 ≤ current_col t < SCREEN_COLS f ∧
  0 ≤ scroll_offset t ≤ max_scroll f t ∧ scroll_offset t ≤ MAX_HISTORY - VISIBLE_ROWS f.
Definition cap_ok (k : capture) : Prop :=
  length (agent_capture_buf k) = 2048%nat ∧ 0 ≤ agent_capture_idx k ≤ 2047.
Definition screen_ok (s : screen) : Prop := grid_ok (fb s) ∧ text_ok (fb s) (txt s) ∧ cap_ok (cap s).

Ltac consts := unfold MAX_HISTORY, MAX_ROWS, MAX_COLS, MARGIN_ROWS in *.

Lemma start_range f t : text_ok f t → 0 ≤ start_history f t.
Proof. intros _. unfold start_history. cbv zeta. destruct (Z.ltb_spec (total_lines_stored t - scroll_offset t - (VISIBLE_ROWS f - 1)) 0); lia. Qed.

Lemma ring_range n : 0 ≤ n mod MAX_HISTORY < MAX_HISTORY.
Proof. apply Z.mod_pos_bound. by consts. Qed.

(** *** Drawing never leaves its arrays *)

Lemma glyphs_ok ch : 0 ≤ ch < 128 → ∃ g, znth font8x8_basic ch = Some g ∧ length g = 8%nat.
Proof.
  intros Hch. unfold znth. destruct (Z.leb_spec 0 ch); [|lia].
  destruct (lookup_lt_is_Some_2 font8x8_basic (Z.to_nat ch)) as [g Hg]; [change (length font8x8_basic) with 128%nat; lia|].
  exists g. split; [done|].
  assert (Hall : Forall (λ g, length g = 8%nat) font8x8_basic) by (apply (bool_decide_unpack _); reflexivity).
  exact (Forall_lookup_1 _ _ _ _ Hall Hg).
Qed.

Lemma glyph_of_range v : 0 ≤ glyph_of (Z.land v 0xFF) < 128.
Proof.
  assert (0 ≤ Z.land v 0xFF < 256).
  { change 0xFF with (Z.ones 8). rewrite Z.land_ones by lia. apply Z.mod_pos_bound. lia. }
  unfold glyph_of. repeat case_match; lia.
Qed.

Lemma draw_total f r c v fg bg d : wp (draw_fb_char f r c v fg bg) (λ _ d', vga d' = vga d) d.
Proof.
  unfold draw_fb_char. destruct (fb_ptr f =? 0); [by apply wp_ret|].
  destruct (glyphs_ok _ (glyph_of_range v)) as (g & Hg & Hl). apply wp_bind. eapply wp_must; [exact Hg|]. cbv zeta.
  destruct (_ || _); [by apply wp_ret|].
  apply (wp_for_each (λ _ d', vga d' = vga d)); [lia|done| |done]. intros y d1 Hy E1.
  apply (wp_for_each (λ _ d', vga d' = vga d)); [lia|done| |done]. intros x d2 Hx E2.
  destruct (lookup_lt_is_Some_2 g (Z.to_nat y)) as [b Hb]; [lia|].
  apply wp_bind. eapply wp_must.
  { unfold znth. destruct (Z.leb_spec 0 y); [exact Hb|lia]. }
  cbv zeta. repeat case_match; apply wp_modify || apply wp_ret; done.
Qed.

Lemma draw_changed_total f r c v ch fg bg d :
  0 ≤ r < MAX_ROWS → 0 ≤ c < MAX_COLS → wp (draw_changed f r c v ch fg bg) (λ _ d', vga d' = vga d) d.
Proof.
  intros Hr Hc. unfold draw_changed.
  destruct (Z.leb_spec 0 r), (Z.ltb_spec r MAX_ROWS), (Z.leb_spec 0 c), (Z.ltb_spec c MAX_COLS); try lia. simpl.
  apply wp_bind, wp_get. destruct (_ || _); [|by apply wp_ret].
  apply wp_bind. eapply wp_mono; [apply draw_total|]. intros [] d' E. by apply wp_modify.
Qed.

Lemma get_history_run t i c d :
  0 ≤ i < MAX_HISTORY → 0 ≤ c < MAX_COLS → get_history t i c d = Ret (history_buffer t i c, d).
Proof.
  intros Hi Hc. unfold get_history.
  destruct (Z.leb_spec 0 i), (Z.ltb_spec i MAX_HISTORY), (Z.leb_spec 0 c), (Z.ltb_spec c MAX_COLS); try lia. done.
Qed.

Lemma refresh_fb_total f t d : grid_ok f → wp (refresh_fb_screen f t) (λ _ _, True) d.
Proof.
  intros (Hc & Hr & Hv & Hv8). pose proof ring_range as Hring. consts. unfold refresh_fb_screen.
  assert (Hdraw : ∀ r c v ch fg bg d, 0 ≤ r < SCREEN_ROWS f → 0 ≤ c < SCREEN_COLS f →
    wp (draw_changed f r c v ch fg bg) (λ _ _, True) d).
  { intros. eapply wp_mono; [apply draw_changed_total; consts; lia|done]. }
  apply wp_bind, (wp_for_each (λ _ _, True)); [lia|done| |].
  { intros r d1 Hr1 _. cbv zeta. destruct (_ <=? _); (apply (wp_for_each (λ _ _, True)); [lia|done| |done]).
    - intros c d2 Hc2 _. destruct (Z.eqb_spec c (SCREEN_COLS f - 1)); [by apply wp_ret|].
      apply wp_bind. unfold wp at 1. rewrite get_history_run by (apply Hring || (consts; lia)). apply Hdraw; lia.
    - intros c d2 Hc2 _. apply Hdraw; lia. }
  intros d1 _. apply wp_bind, (wp_for_each (λ _ _, True)); [lia|done| |].
  { intros r d2 Hr2 _. apply (wp_for_each (λ _ _, True)); [lia|done| |done]. intros c d3 Hc3 _. apply Hdraw; lia. }
  intros d2 _. apply wp_bind, (wp_for_each (λ _ _, True)); [lia|done| |].
  { intros r d3 Hr3 _. cbv zeta. apply Hdraw; lia. }
  intros d3 _. by apply wp_modify.
Qed.

(** *** The text-mode window *)

Section window.
Context (f : fbinfo) (t : text) (Hf : grid_ok f).

Definition at_cell (d : display) (r c : Z) : Z := vga d (r * SCREEN_COLS f + c).

Lemma at_set d r c v r' c' :
  0 ≤ c < SCREEN_COLS f → 0 ≤ c' < SCREEN_COLS f →
  at_cell (set_vga (r * SCREEN_COLS f + c) v d) r' c' = if (r' =? r) && (c' =? c) then v else at_cell d r' c'.
Proof.
  intros Hc Hc'. unfold at_cell, set_vga. cbn [vga].
  destruct (Z.eqb_spec (r' * SCREEN_COLS f + c') (r * SCREEN_COLS f + c)) as [E|E].
  - assert (r' = r) by nia. subst. assert (c' = c) by lia. subst. by rewrite !Z.eqb_refl.
  - destruct (Z.eqb_spec r' r) as [->|], (Z.eqb_spec c' c) as [->|]; done.
Qed.

(** What the window shows at row [r], column [c]. *)
Definition shown (r c : Z) : Z :=
  let n := start_history f t + r in
  if n <=? total_lines_stored t then history_buffer t (n mod MAX_HISTORY) c else blank.

(** [d] is [d0] with the cells of [P] set to [g]. *)
Definition painted (d0 : display) (P : Z → Z → bool) (g : Z → Z → Z) (d : display) : Prop :=
  ∀ r c, 0 ≤ c < SCREEN_COLS f → at_cell d r c = if P r c then g r c else at_cell d0 r c.

Lemma painted_ext d0 P P' g d :
  (∀ r c, 0 ≤ c < SCREEN_COLS f → P r c = P' r c) → painted d0 P g d → painted d0 P' g d.
Proof. intros HP Hd r c Hc. rewrite <-HP by done. by apply Hd. Qed.

Lemma paint d0 P g d r c :
  painted d0 P g d → 0 ≤ c < SCREEN_COLS f →
  painted d0 (λ r' c', (r' =? r) && (c' =? c) || P r' c') g (set_vga (r * SCREEN_COLS f + c) (g r c) d).
Proof.
  intros Hd Hc r' c' Hc'. rewrite at_set by done.
  destruct (Z.eqb_spec r' r) as [->|], (Z.eqb_spec c' c) as [->|]; simpl; [done|by apply Hd..].
Qed.

(** A row painted from column 0 on, on top of [P], except where [p] is
    false. *)
Lemma paint_row d0 P g d r n (p : Z → bool) body :
  0 ≤ n ≤ SCREEN_COLS f → painted d0 P g d →
  (∀ c d', 0 ≤ c < n → body c d' = Ret (tt, if p c then set_vga (r * SCREEN_COLS f + c) (g r c) d' else d')) →
  wp (for_each 0 n body) (λ _ d', painted d0 (λ r' c', (r' =? r) && (c' <? n) && p c' || P r' c') g d') d.
Proof.
  intros Hn Hd Hbody.
  apply (wp_for_each (λ c d', painted d0 (λ r' c', (r' =? r) && (c' <? c) && p c' || P r' c') g d')); [lia| | |done].
  - eapply painted_ext; [|exact Hd]. intros r' c' Hc'. cbn beta. lia.
  - intros c d' Hc Hd'. unfold wp. rewrite Hbody by lia. destruct (p c) eqn:Ep.
    + eapply painted_ext; [|apply paint; [exact Hd'|lia]]. intros r' c' Hc'. cbn beta.
      destruct (Z.eqb_spec c' c) as [->|]; [rewrite Ep|]; lia.
    + eapply painted_ext; [|exact Hd']. intros r' c' Hc'. cbn beta.
      destruct (Z.eqb_spec c' c) as [->|]; [rewrite Ep|]; lia.
Qed.

Lemma refresh_vga_ok d0 :
  wp (refresh_vga f t) (λ _ d,
    (∀ r c, 0 ≤ r < VISIBLE_ROWS f → 0 ≤ c < SCREEN_COLS f - 1 → at_cell d r c = shown r c) ∧
    (∀ r c, VISIBLE_ROWS f ≤ r < SCREEN_ROWS f → 0 ≤ c < SCREEN_COLS f → at_cell d r c = blank)) d0.
Proof.
  pose proof Hf as (Hc & Hr & Hv & Hv8). pose proof ring_range as Hring. consts. unfold refresh_vga.
  set (C := SCREEN_COLS f) in *. set (V := VISIBLE_ROWS f) in *.
  apply wp_bind, (wp_for_each (λ r d, painted d0 (λ r' c', (0 <=? r') && (r' <? r) && (c' <? C - 1)) shown d)); [lia| | |].
  { intros r' c' Hc'. cbn beta. destruct (Z.leb_spec 0 r'), (Z.ltb_spec r' 0); simpl; done || lia. }
  { intros r d Hr1 Hd. cbv zeta.
    destruct (Z.leb_spec (start_history f t + r) (total_lines_stored t)) as [Hle|Hgt].
    - eapply wp_mono; [eapply (paint_row d0 _ shown d r C (λ c, negb (c =? C - 1))); [lia|exact Hd|]|].
      + intros c d' Hc1. fold C in Hc1. destruct (Z.eqb_spec c (C - 1)) as [|Hne]; [done|]. cbn [negb].
        unfold mbind, comp_bind. rewrite get_history_run by (apply Hring || (consts; lia)).
        unfold shown. cbv zeta. by destruct (Z.leb_spec (start_history f t + r) (total_lines_stored t)); [|lia].
      + intros [] d' Hd'. eapply painted_ext; [|exact Hd']. intros r' c' Hc'. fold C in Hc'. cbn beta. lia.
    - eapply wp_mono; [eapply (paint_row d0 _ shown d r (C - 1) (λ _, true)); [fold C; lia|exact Hd|]|].
      + intros c d' Hc1. unfold shown. cbv zeta.
        by destruct (Z.leb_spec (start_history f t + r) (total_lines_stored t)); [lia|].
      + intros [] d' Hd'. eapply painted_ext; [|exact Hd']. intros r' c' Hc'. fold C in Hc'. cbn beta. lia. }
  intros d1 Hd1. apply wp_bind.
  apply (wp_for_each (λ r d, painted d1 (λ r' c', (V <=? r') && (r' <? r)) (λ _ _, blank) d)); [lia| | |].
  { intros r' c' Hc'. cbn beta. destruct (Z.leb_spec V r'), (Z.ltb_spec r' V); simpl; done || lia. }
  { intros r d Hr1 Hd.
    eapply wp_mono; [eapply (paint_row d1 _ (λ _ _, blank) d r C (λ _, true)); [lia|exact Hd|done]|].
    intros [] d' Hd'. eapply painted_ext; [|exact Hd']. intros r' c' Hc'. fold C in Hc'. cbn beta. lia. }
  intros d2 Hd2.
  apply (wp_for_each (λ r d, painted d2 (λ r' c', (0 <=? r') && (r' <? r) && (c' =? C - 1))
    (λ r' _, if (0 <? max_scroll f t) && (r' =? handle_row f t) then 0x0FDB else 0x08B3) d)); [lia| | |].
  { intros r' c' Hc'. cbn beta. destruct (Z.leb_spec 0 r'), (Z.ltb_spec r' 0); simpl; done || lia. }
  { intros r d Hr1 Hd. cbv zeta. apply wp_modify.
    eapply painted_ext; [|eapply (paint d2 _ _ d r (C - 1) Hd); fold C; lia]. intros r' c' Hc'. cbn beta. lia. }
  intros d3 Hd3. split.
  - intros r c Hr1 Hc1. rewrite Hd3, Hd2, Hd1 by (fold C; lia).
    destruct (Z.leb_spec 0 r), (Z.ltb_spec r V), (Z.eqb_spec c (C - 1)), (Z.leb_spec V r), (Z.ltb_spec c (C - 1)); try lia. done.
  - intros r c Hr1 Hc1. rewrite Hd3, Hd2 by (fold C; lia).
    destruct (Z.leb_spec 0 r), (Z.ltb_spec r V), (Z.leb_spec V r), (Z.ltb_spec r (SCREEN_ROWS f)); try lia. done.
Qed.
End window.

Lemma refresh_ok s : grid_ok (fb s) → wp refresh_screen (λ _ s', ∃ d, s' = set_dsp d s) s.
Proof.
  intros Hf. unfold refresh_screen. apply wp_bind, wp_get. unfold on_dsp. apply wp_zoom.
  destruct (negb _); (eapply wp_mono; [by first [apply refresh_fb_total | apply refresh_vga_ok]|]; eauto).
Qed.

Lemma outb_any port v (Q : unit → display → Prop) d : (∀ d', Q tt d') → wp (outb port v) Q d.
Proof. intros HQ. apply wp_modify, HQ. Qed.

Lemma cursor_ok s : wp update_cursor (λ _ s', ∃ d, s' = set_dsp d s) s.
Proof.
  unfold update_cursor. apply wp_bind, wp_get. unfold on_dsp. apply wp_zoom.
  destruct (negb _); [by apply wp_ret; exists (dsp s)|]. destruct (0 <? _).
  - apply wp_bind, outb_any. intros d1. apply outb_any. eauto.
  - do 8 (apply wp_bind, outb_any; intros ?). apply wp_modify. eauto.
Qed.

Definition redraw : comp screen unit := refresh_screen;; update_cursor.
Lemma redraw_ok s : grid_ok (fb s) → wp redraw (λ _ s', ∃ d, s' = set_dsp d s) s.
Proof.
  intros Hf. apply wp_bind. eapply wp_mono; [by apply refresh_ok|]. intros _ s1 [d ->].
  eapply wp_mono; [apply cursor_ok|]. intros _ s2 [d' ->]. by exists d'.
Qed.

(** ** The terminal the console implements *)

(** Every line ever printed, by number and column. *)
Record term := MkTerm { t_cell : Z → Z → Z; t_total : Z; t_col : Z; t_attr : Z }.

Definition term_newline (T : term) : term :=
  MkTerm (λ n c, if n =? t_total T + 1 then blank else t_cell T n c) (t_total T + 1) 0 (t_attr T).
Definition term_set (col v next : Z) (T : term) : term :=
  MkTerm (λ n c, if (n =? t_total T) && (c =? col) then v else t_cell T n c) (t_total T) next (t_attr T).
Definition term_put (c : Z) (T : term) : term := term_set (t_col T) (cell (t_attr T) c) (t_col T + 1) T.

Definition term_step (cols c : Z) (T : term) : term :=
  if c =? 8 then (if 0 <? t_col T then term_set (t_col T - 1) (cell (t_attr T) 32) (t_col T - 1) T else T)
  else if c =? 10 then term_newline T
  else if t_col T <? cols - 1 then term_put c T
  else term_put c (term_newline T).

(** The ring holds the last 1000 lines of the log. *)
Definition represents (f : fbinfo) (t : text) (T : term) : Prop :=
  t_total T = total_lines_stored t ∧ t_col T = current_col t ∧ t_attr T = current_attr t ∧
  ∀ n c, 0 ≤ n → total_lines_stored t - MAX_HISTORY < n ≤ total_lines_stored t → 0 ≤ c < SCREEN_COLS f →
    history_buffer t (n mod MAX_HISTORY) c = t_cell T n c.

Lemma ring_inj n n' : n mod MAX_HISTORY = n' mod MAX_HISTORY → - MAX_HISTORY < n - n' < MAX_HISTORY → n = n'.
Proof. consts. intros. dlia. Qed.

Lemma put_history_run i c v t :
  0 ≤ i < MAX_HISTORY → 0 ≤ c < MAX_COLS →
  put_history i c v t = Ret (tt, set_history (λ i' c', if (i' =? i) && (c' =? c) then v else history_buffer t i' c') t).
Proof.
  intros Hi Hc. unfold put_history.
  destruct (Z.leb_spec 0 i), (Z.ltb_spec i MAX_HISTORY), (Z.leb_spec 0 c), (Z.ltb_spec c MAX_COLS); try lia. done.
Qed.

Lemma clear_line_ok cols idx t :
  0 ≤ cols ≤ MAX_COLS → 0 ≤ idx < MAX_HISTORY →
  wp (clear_history_line cols idx) (λ _ t', ∃ h, t' = set_history h t ∧
    ∀ i c, h i c = if (i =? idx) && (0 <=? c) && (c <? cols) then blank else history_buffer t i c) t.
Proof.
  intros Hc Hi. apply (wp_for_each (λ k t', ∃ h, t' = set_history h t ∧
    ∀ i c, h i c = if (i =? idx) && (0 <=? c) && (c <? k) then blank else history_buffer t i c)); [lia| | |done].
  - exists (history_buffer t). split; [by destruct t|]. intros i c.
    destruct (Z.leb_spec 0 c), (Z.ltb_spec c 0); rewrite ?andb_false_r; done || lia.
  - intros k t' Hk (h & -> & Hh). unfold wp. rewrite put_history_run by lia. eexists. split; [reflexivity|].
    intros i c. cbn [history_buffer set_history]. rewrite Hh.
    destruct (Z.eqb_spec i idx), (Z.eqb_spec c k), (Z.leb_spec 0 c), (Z.ltb_spec c k), (Z.ltb_spec c (k + 1)); simpl; done || lia.
Qed.

(** Writing a cell of the current line. *)
Lemma represents_set f t T col v next :
  grid_ok f → text_ok f t → represents f t T → 0 ≤ col < SCREEN_COLS f →
  represents f (set_history (λ i c, if (i =? current_line_idx t) && (c =? col) then v else history_buffer t i c)
                 (set_place (total_lines_stored t) (current_line_idx t) next t)) (term_set col v next T).
Proof.
  intros _ (H0 & Hidx & _) (Ht & Hcol & Hat & Hcell) Hc. split_and!; [done|done|done|].
  intros n c Hn Hr Hc'. cbn [history_buffer set_history set_place total_lines_stored] in *. cbn [t_cell term_set].
  rewrite Hidx, Ht. destruct (Z.eqb_spec n (total_lines_stored t)) as [->|Hne].
  - rewrite Z.eqb_refl. destruct (c =? col); [done|]. by apply Hcell.
  - destruct (Z.eqb_spec (n mod MAX_HISTORY) (total_lines_stored t mod MAX_HISTORY)) as [E|]; [|by apply Hcell].
    apply ring_inj in E; [done|]. consts. lia.
Qed.

Lemma newline_ok f t T :
  grid_ok f → text_ok f t → represents f t T → total_lines_stored t + 1 < 2 ^ 31 →
  wp (newline (SCREEN_COLS f)) (λ _ t', represents f t' (term_newline T) ∧ text_ok f t' ∧
    current_col t' = 0 ∧ scroll_offset t' = scroll_offset t ∧ defer_refresh t' = defer_refresh t) t.
Proof.
  intros (Hc & _ & _ & Hv8) (H0 & Hidx & Hcol & Hs & Hs') (Ht & _ & Hat & Hcell) Hmax. unfold newline. apply wp_bind, wp_get. cbv zeta.
  destruct (Z.leb_spec (2 ^ 31) (total_lines_stored t + 1)); [lia|]. apply wp_bind, wp_put.
  set (n1 := total_lines_stored t + 1) in *. pose proof (ring_range n1) as Hr.
  eapply wp_mono; [apply clear_line_ok; [lia|done]|]. intros [] t' (h & -> & Hh).
  unfold text_ok, represents, max_scroll in *. cbv zeta in *.
  cbn [total_lines_stored current_line_idx current_col scroll_offset defer_refresh current_attr history_buffer
       set_history set_place t_total t_col t_attr t_cell term_newline] in *.
  split; [|split; [|done]].
  - split_and!; [lia|done|done|]. intros n c Hn Hrn Hc'. rewrite Hh, Ht. fold n1.
    destruct (Z.eqb_spec n n1) as [->|Hne].
    + rewrite Z.eqb_refl. destruct (Z.leb_spec 0 c), (Z.ltb_spec c (SCREEN_COLS f)); try lia. done.
    + destruct (Z.eqb_spec (n mod MAX_HISTORY) (n1 mod MAX_HISTORY)) as [E|].
      * apply ring_inj in E; [done|]. consts. lia.
      * apply Hcell; [done|lia|done].
  - split_and!; [lia|done|lia|lia|lia| |lia].
    destruct (Z.ltb_spec (total_lines_stored t - (VISIBLE_ROWS f - 1)) 0), (Z.ltb_spec (n1 - (VISIBLE_ROWS f - 1)) 0); lia.
Qed.

Lemma capture_ok s c :
  cap_ok (cap s) → wp (capture_char c) (λ _ s', fb s' = fb s ∧ txt s' = txt s ∧ cap_ok (cap s')) s.
Proof.
  intros [Hl Hi]. unfold capture_char. apply wp_bind, wp_get. cbv zeta.
  assert (Hset : ∀ (b : list Z) i x, length b = 2048%nat → 0 ≤ i ≤ 2047 → zset b i x = Some (<[Z.to_nat i := x]> b)).
  { intros b i x Hb Hi'. unfold zset. rewrite Hb. destruct (Z.leb_spec 0 i), (Z.ltb_spec i (Z.of_nat 2048)); try lia. done. }
  apply wp_bind. destruct (agent_capture_active (cap s)); simpl.
  2: { apply wp_ret. unfold on_dsp. by apply wp_zoom, wp_modify. }
  destruct (Z.ltb_spec (agent_capture_idx (cap s)) 2047).
  2: { apply wp_ret. unfold on_dsp. by apply wp_zoom, wp_modify. }
  apply wp_bind. eapply wp_must; [apply Hset; [done|lia]|]. apply wp_bind. eapply wp_must; [apply Hset; [by rewrite length_insert|lia]|].
  apply wp_put. unfold on_dsp. apply wp_zoom, wp_modify. split; [done|]. split; [done|].
  split; simpl; rewrite ?length_insert; [done|lia].
Qed.

Lemma set_scroll_ok f t : text_ok f t → grid_ok f → text_ok f (set_scroll 0 t).
Proof.
  intros (H0 & Hidx & Hcol & Hs & Hs') (_ & Hrows & Hv & Hv8). unfold text_ok, max_scroll in *. cbv zeta in *.
  cbn [total_lines_stored current_line_idx current_col scroll_offset set_scroll]. consts. split_and!; lia.
Qed.

(** What a character leaves: the terminal [T], the scroll position reset
    unless drawing is put off. *)
Definition printed (s : screen) (T : term) (s' : screen) : Prop :=
  fb s' = fb s ∧ screen_ok s' ∧ represents (fb s) (txt s') T ∧ defer_refresh (txt s') = defer_refresh (txt s) ∧
  (defer_refresh (txt s) = 0 → scroll_offset (txt s') = 0).

Lemma follow_ok s T :
  screen_ok s → represents (fb s) (txt s) T → wp follow (λ _ s', printed s T s') s.
Proof.
  intros (Hf & Ht & Hk) HR. unfold follow. apply wp_bind, wp_get. destruct (Z.eqb_spec (defer_refresh (txt s)) 0) as [E|E].
  - apply wp_bind. unfold on_txt. apply wp_zoom, wp_modify. change (refresh_screen;; update_cursor) with redraw.
    eapply wp_mono; [by apply redraw_ok|]. intros _ s' [d ->]. split_and!; try done.
    by split; [|split; [apply set_scroll_ok|]].
  - by apply wp_ret.
Qed.

Lemma printed_from s s1 T s' :
  fb s1 = fb s → defer_refresh (txt s1) = defer_refresh (txt s) → printed s1 T s' → printed s T s'.
Proof. unfold printed. intros -> ->. done. Qed.

(** A character that does not wrap. *)
Lemma print_plain n c s T :
  screen_ok s → represents (fb s) (txt s) T → total_lines_stored (txt s) + 1 < 2 ^ 31 →
  c = 8 ∨ c = 10 ∨ current_col (txt s) < SCREEN_COLS (fb s) - 1 →
  wp (print_char_n (Datatypes.S n) c) (λ _ s', printed s (term_step (SCREEN_COLS (fb s)) c T) s') s.
Proof.
  intros (Hf & Ht & Hk) HR Hmax Hc. cbn [print_char_n]. apply wp_bind.
  eapply wp_mono; [by apply capture_ok|]. intros [] s1 (Ef & Et & Hk1). apply wp_bind, wp_get. cbv zeta. rewrite Ef, Et.
  pose proof HR as (Htot & Hcol & Hat & _). pose proof Ht as (_ & Hidx & Hcr & _). pose proof Hf as (HC & _).
  pose proof (ring_range (total_lines_stored (txt s))) as Hring. rewrite <-Hidx in Hring.
  unfold term_step. destruct (Z.eqb_spec c 8) as [->|Hn8]; [|destruct (Z.eqb_spec c 10) as [->|Hn10]].
  - rewrite Hcol. destruct (Z.ltb_spec 0 (current_col (txt s))).
    + apply wp_bind. unfold on_txt. apply wp_zoom, wp_bind, wp_modify. rewrite Et. unfold wp at 1.
      rewrite put_history_run by (done || lia). rewrite Hat.
      eapply wp_mono; [eapply follow_ok|intros ? s'; apply printed_from; [done|done]].
      * split; [by rewrite <-Ef in Hf|]. split; [|done]. simpl. rewrite Ef. unfold text_ok in *. simpl. split_and!; try apply Ht; lia.
      * simpl. rewrite Ef. apply (represents_set (fb s) (txt s)); [done|done|done|lia].
    + apply wp_bind, wp_ret. eapply wp_mono; [eapply follow_ok|intros ? s'; apply printed_from; [done|by rewrite Et]].
      * split; [by rewrite Ef|]. split; [by rewrite Ef, Et|done].
      * by rewrite Ef, Et.
  - apply wp_bind. unfold on_txt. apply wp_zoom. rewrite Et.
    eapply wp_mono; [by apply newline_ok|]. intros [] t1 (HR1 & Ht1 & _ & _ & Hd).
    eapply wp_mono; [eapply follow_ok|intros ? s'; apply printed_from; [done|done]].
    + split; [by rewrite <-Ef in Hf|]. split; [simpl; by rewrite Ef|done].
    + simpl. by rewrite Ef.
  - assert (Hlt : current_col (txt s) < SCREEN_COLS (fb s) - 1) by lia. rewrite Hcol.
    destruct (Z.ltb_spec (current_col (txt s)) (SCREEN_COLS (fb s) - 1)); [|lia].
    apply wp_bind. unfold on_txt. apply wp_zoom. rewrite Et. apply wp_bind. unfold wp at 1.
    rewrite put_history_run by (done || lia). apply wp_modify.
    eapply wp_mono; [eapply follow_ok|intros ? s'; apply printed_from; [done|done]].
    + split; [by rewrite <-Ef in Hf|]. split; [|done]. simpl. rewrite Ef. unfold text_ok in *. simpl. split_and!; try apply Ht; lia.
    + simpl. rewrite Ef. unfold term_put. rewrite Hcol, Hat.
      apply (represents_set (fb s) (txt s)); [done|done|done|lia].
Qed.

Lemma term_step_total cols c T : t_total T ≤ t_total (term_step cols c T) ≤ t_total T + 1.
Proof. unfold term_step. repeat case_match; simpl; lia. Qed.

Lemma print_char_ok c s T :
  screen_ok s → represents (fb s) (txt s) T → total_lines_stored (txt s) + 2 < 2 ^ 31 →
  wp (print_char c) (λ _ s', printed s (term_step (SCREEN_COLS (fb s)) c T) s') s.
Proof.
  intros Hok HR Hmax. unfold print_char.
  destruct (decide (c = 8 ∨ c = 10 ∨ current_col (txt s) < SCREEN_COLS (fb s) - 1)) as [Hp|Hp];
    [apply print_plain; try done; lia|].
  pose proof Hok as (Hf & Ht & Hk). pose proof HR as (Htot & Hcol & _).
  change (print_char_n 2 c) with (capture_char c;; s ← get;
    let t := txt s in
    if c =? 8 then
      (if 0 <? current_col t then
         on_txt (modify (set_place (total_lines_stored t) (current_line_idx t) (current_col t - 1));;
                 put_history (current_line_idx t) (current_col t - 1) (cell (current_attr t) 32))
       else mret tt);; follow
    else if c =? 10 then on_txt (newline (SCREEN_COLS (fb s)));; follow
    else if current_col t <? SCREEN_COLS (fb s) - 1 then
      on_txt (put_history (current_line_idx t) (current_col t) (cell (current_attr t) c);;
              modify (set_place (total_lines_stored t) (current_line_idx t) (current_col t + 1)));; follow
    else print_char_n 1 10;; print_char_n 1 c).
  apply wp_bind. eapply wp_mono; [by apply capture_ok|]. intros [] s1 (Ef & Et & Hk1). apply wp_bind, wp_get. cbv zeta. rewrite Ef, Et.
  destruct (Z.eqb_spec c 8); [lia|]. destruct (Z.eqb_spec c 10); [lia|].
  destruct (Z.ltb_spec (current_col (txt s)) (SCREEN_COLS (fb s) - 1)); [lia|].
  assert (Hok1 : screen_ok s1) by (unfold screen_ok; by rewrite Ef, Et).
  assert (HR1 : represents (fb s1) (txt s1) T) by by rewrite Ef, Et.
  apply wp_bind. eapply wp_mono; [eapply (print_plain 0 10 s1 T Hok1 HR1); [rewrite Et; lia|auto]|].
  intros [] s2 (Ef2 & Hok2 & HR2 & Hd2 & Hs2). change (term_step _ 10 T) with (term_newline T) in HR2.
  pose proof HR2 as (Htot2 & Hcol2 & _).
  assert (Hc2 : current_col (txt s2) = 0) by by rewrite <-Hcol2.
  assert (HC : 2 ≤ SCREEN_COLS (fb s)) by apply Hf.
  eapply wp_mono; [eapply (print_plain 0 c s2 (term_newline T)); [done|by rewrite Ef2| |]|].
  - rewrite <-Htot2. cbn [t_total term_newline]. lia.
  - rewrite Ef2, Ef, Hc2. lia.
  - intros [] s3 Hp3. apply (printed_from s s2); [congruence|by rewrite Hd2, Et|].
    rewrite Ef2, Ef in Hp3. unfold term_step in *. cbn [t_col term_newline] in Hp3. rewrite Hcol.
    destruct (Z.eqb_spec c 8); [lia|]. destruct (Z.eqb_spec c 10); [lia|].
    destruct (Z.ltb_spec 0 (SCREEN_COLS (fb s) - 1)); [|lia].
    destruct (Z.ltb_spec (current_col (txt s)) (SCREEN_COLS (fb s) - 1)); [lia|done].
Qed.

Definition term_string (cols : Z) (str : list Z) (T : term) : term :=
  fold_left (λ T c, term_step cols c T) str T.

Lemma print_chars_ok str : ∀ s T,
  screen_ok s → represents (fb s) (txt s) T → total_lines_stored (txt s) + Z.of_nat (length str) + 1 < 2 ^ 31 →
  wp (print_chars str) (λ _ s', fb s' = fb s ∧ screen_ok s' ∧
    represents (fb s) (txt s') (term_string (SCREEN_COLS (fb s)) str T) ∧ defer_refresh (txt s') = defer_refresh (txt s)) s.
Proof.
  induction str as [|c str IH]; intros s T Hok HR Hmax; cbn [length print_chars] in *; [by apply wp_ret|].
  apply wp_bind. eapply wp_mono; [eapply (print_char_ok c s T Hok HR); lia|]. intros [] s1 (Ef & Hok1 & HR1 & Hd & _).
  pose proof (term_step_total (SCREEN_COLS (fb s)) c T) as Ht. pose proof HR as (Htot & _). pose proof HR1 as (Htot1 & _).
  eapply wp_mono; [eapply (IH s1 (term_step (SCREEN_COLS (fb s)) c T)); [done|by rewrite Ef|lia]|].
  intros [] s2 (Ef2 & Hok2 & HR2 & Hd2). rewrite Ef in HR2. split_and!; [congruence|done|done|congruence].
Qed.

Lemma set_defer_ok f t n : text_ok f t → text_ok f (set_defer n t).
Proof. done. Qed.

(** Output put off: what [m] prints, and then one redraw. *)
Lemma defer_ok m s T :
  0 ≤ defer_refresh (txt s) →
  wp m (λ _ s', fb s' = fb s ∧ screen_ok s' ∧ represents (fb s) (txt s') T ∧
    defer_refresh (txt s') = defer_refresh (txt s) + 1) (set_txt (set_defer (defer_refresh (txt s) + 1) (txt s)) s) →
  wp (defer m) (λ _ s', printed s T s') s.
Proof.
  intros Hd Hm. unfold defer, on_txt. apply wp_bind, wp_zoom, wp_modify, wp_bind.
  eapply wp_mono; [exact Hm|]. intros ? s1 (Ef & (Hf1 & Ht1 & Hk1) & HR & Hd1). apply wp_bind, wp_zoom, wp_modify.
  eapply wp_mono; [eapply (follow_ok _ T)|intros ? s'; apply printed_from].
  - split; [done|]. by split; [apply set_defer_ok|].
  - by rewrite <-Ef in HR.
  - done.
  - simpl. lia.
Qed.

(** C38. The console is a terminal.  Printing a string terminates without
    leaving any array, in both display modes; the ring then holds the last
    1000 lines of an unbounded terminal that has received the same characters
    (backspace, newline and wrapping included), the invariants hold, and,
    unless a caller has put drawing off, the view is back at the end. *)
Theorem print_string_refines (s : screen) (T : term) (str : list Z) :
  screen_ok s → represents (fb s) (txt s) T → 0 ≤ defer_refresh (txt s) →
  total_lines_stored (txt s) + Z.of_nat (length str) + 1 < 2 ^ 31 →
  ∃ s', print_string str s = Ret (tt, s') ∧ printed s (term_string (SCREEN_COLS (fb s)) str T) s'.
Proof.
  intros Hok HR Hd Hmax. cut (wp (print_string str) (λ _ s', printed s (term_string (SCREEN_COLS (fb s)) str T) s') s).
  { rewrite wp_run. intros ([] & s' & Hrun & Hp). by exists s'. }
  apply defer_ok; [done|]. eapply wp_mono; [eapply (print_chars_ok str _ T); [|exact HR|exact Hmax]|].
  - destruct Hok as (Hf & Ht & Hk). by split; [|split; [apply set_defer_ok|]].
  - intros [] s' (Ef & Hok' & HR' & Hd'). done.
Qed.

(** The text-mode window.  Drawing in VGA mode shows, in every visible
    row, the terminal's line at that place of the view, blanks below the last
    line, and blanks in the margin rows, at every scroll position the code
    reaches; in particular the ring still holds every line the view asks
    for. *)
Theorem refresh_shows_log (s : screen) (T : term) :
  screen_ok s → represents (fb s) (txt s) T → fb_ptr (fb s) = 0 →
  ∃ d, refresh_screen s = Ret (tt, set_dsp d s) ∧
    (∀ r c, 0 ≤ r < VISIBLE_ROWS (fb s) → 0 ≤ c < SCREEN_COLS (fb s) - 1 →
       vga d (r * SCREEN_COLS (fb s) + c) =
         if start_history (fb s) (txt s) + r <=? t_total T then t_cell T (start_history (fb s) (txt s) + r) c else blank) ∧
    (∀ r c, VISIBLE_ROWS (fb s) ≤ r < SCREEN_ROWS (fb s) → 0 ≤ c < SCREEN_COLS (fb s) →
       vga d (r * SCREEN_COLS (fb s) + c) = blank).
Proof.
  intros (Hf & Ht & _) (Htot & _ & _ & Hcell) Hfb.
  pose proof (refresh_vga_ok (fb s) (txt s) Hf (dsp s)) as Hw. apply wp_run in Hw as ([] & d & Hrun & Hwin & Hmar).
  exists d. split; [|split].
  - unfold refresh_screen, on_dsp, zoom, mbind, comp_bind, get. rewrite Hfb. cbn [Z.eqb negb]. by rewrite Hrun.
  - intros r c Hr Hc. fold (at_cell (fb s) d r c). rewrite Hwin by done. unfold shown. cbv zeta. rewrite Htot.
    pose proof (start_range (fb s) (txt s) Ht) as Hs.
    destruct (Z.leb_spec (start_history (fb s) (txt s) + r) (total_lines_stored (txt s))); [|done].
    apply Hcell; [lia| |lia]. split; [|done]. destruct Ht as (_ & _ & _ & _ & Hs').
    unfold start_history in *. cbv zeta in *. consts.
    destruct (Z.ltb_spec (total_lines_stored (txt s) - scroll_offset (txt s) - (VISIBLE_ROWS (fb s) - 1)) 0); lia.
  - intros r c Hr Hc. fold (at_cell (fb s) d r c). by apply Hmar.
Qed.

(** *** Numbers *)

Lemma digits_ok n s :
  0 < n < 2 ^ 32 →
  wp (digits n) (λ ds s', s' = s ∧ Forall is_dec ds ∧ dec_value ds = n ∧ hd 48 ds ≠ 48 ∧ (length ds ≤ 10)%nat) s.
Proof.
  intros Hn.
  apply (wp_loop (λ '(k, ds) s', s' = s ∧ Forall is_dec ds ∧ 0 ≤ k ∧ k * 10 ^ Z.of_nat (length ds) + dec_value ds = n ∧
      0 ≤ dec_value ds < 10 ^ Z.of_nat (length ds) ∧ (k = 0 → hd 48 ds ≠ 48) ∧
      k * 10 ^ Z.of_nat (length ds) ≤ n ∧ (ds = [] ∨ 10 ^ (Z.of_nat (length ds) - 1) ≤ n))
    (λ '(k, _) _, k)).
  - split_and!; [done|by apply Forall_nil|lia| | | | | |by left]; cbn [length]; rewrite ?Z.mul_1_r; change (dec_value []) with 0; simpl; lia.
  - lia.
  - intros [k ds] s' (_ & _ & ? & _). done.
  - intros [k ds] s' (-> & Hds & Hk & Hv & Hb & Hhd & Hkn & Hlen). destruct (Z.ltb_spec 0 k) as [Hpos|Hz].
    + apply wp_ret. rewrite dec_value_cons. cbn [length hd]. rewrite Nat2Z.inj_succ, Z.pow_succ_r by lia.
      pose proof (Z.pow_pos_nonneg 10 (Z.of_nat (length ds)) ltac:(lia) ltac:(lia)) as Hp.
      pose proof (Z.div_mod k 10 ltac:(lia)) as Hdm. pose proof (Z.mod_pos_bound k 10 ltac:(lia)) as Hmb.
      split; [|dlia]. split_and!; [done| |dlia|nia|nia|nia| |nia|].
      * constructor; [unfold is_dec; lia|done].
      * intros E. lia.
      * right. replace (Z.succ (Z.of_nat (length ds)) - 1) with (Z.of_nat (length ds)) by lia. nia.
    + assert (k = 0) as -> by lia. apply wp_ret. split_and!; [done|done|lia|by apply Hhd|].
      destruct Hlen as [->|Hlen]; [simpl; lia|]. destruct (decide (length ds ≤ 10)%nat); [done|exfalso].
      assert (10 ^ 10 ≤ 10 ^ (Z.of_nat (length ds) - 1)) by (apply Z.pow_le_mono_r; lia). lia.
Qed.

(** Printing a number.  [kprint_dec] prints its argument in decimal: a
    non-empty text of at most ten digits (the eleven-byte buffer suffices),
    without a leading zero unless the number is 0, whose value is the
    argument. *)
Theorem kprint_dec_digits (s : screen) (T : term) (n : Z) :
  screen_ok s → represents (fb s) (txt s) T → 0 ≤ defer_refresh (txt s) →
  total_lines_stored (txt s) + 11 < 2 ^ 31 → 0 ≤ n < 2 ^ 32 →
  ∃ ds s', kprint_dec n s = Ret (tt, s') ∧ printed s (term_string (SCREEN_COLS (fb s)) ds T) s' ∧
    Forall is_dec ds ∧ dec_value ds = n ∧ (1 ≤ length ds ≤ 10)%nat ∧ (n ≠ 0 → hd 48 ds ≠ 48).
Proof.
  intros Hok HR Hd Hmax Hn. unfold kprint_dec. destruct (Z.eqb_spec n 0) as [->|Hne].
  - destruct (proj1 (wp_run _ _ _) (print_char_ok 48 s T Hok HR ltac:(lia))) as ([] & s' & Hrun & Hp).
    exists [48], s'. split_and!; try done; try (simpl; lia). by repeat constructor.
  - destruct (proj1 (wp_run _ _ _) (digits_ok n (set_txt (set_defer (defer_refresh (txt s) + 1) (txt s)) s) ltac:(lia)))
      as (ds & s0 & Hrun & -> & Hds & Hv & Hhd & Hlen).
    cut (wp (defer (buf ← digits n; print_chars buf)) (λ _ s', printed s (term_string (SCREEN_COLS (fb s)) ds T) s') s).
    { rewrite wp_run. intros ([] & s' & Hrun' & Hp). exists ds, s'. split_and!; try done.
      destruct ds; [change (dec_value []) with 0 in Hv|simpl]; lia. }
    apply defer_ok; [done|]. apply wp_bind. unfold wp at 1. rewrite Hrun.
    eapply wp_mono; [eapply (print_chars_ok ds _ T); [|exact HR|]|].
    + destruct Hok as (Hf & Ht & Hk). by split; [|split; [apply set_defer_ok|]].
    + cbn [set_txt txt set_defer total_lines_stored]. lia.
    + intros [] s' (Ef & Hok' & HR' & Hd'). done.
Qed.

(** ** Witnesses *)

(** The console just after [clear_screen], and the empty terminal. *)
Definition clear_demo : screen :=
  MkScreen (MkFb 0 0 0 0 0 25 80 23) (MkText 0x07 (λ _ _, blank) 0 0 0 0 0) (MkCap (replicate 2048 0) 0 false)
    (MkDsp (λ _, 0) (λ _, 0) (λ _ _, 0) true 0 []).
Definition term_demo : term := MkTerm (λ _ _, blank) 0 0 0x07.

Lemma clear_demo_ok : screen_ok clear_demo.
Proof.
  split; [|split].
  - unfold grid_ok, clear_demo. consts. simpl. lia.
  - vm_compute. repeat split; discriminate.
  - split; [done|]. simpl. lia.
Qed.
Lemma clear_demo_term : represents (fb clear_demo) (txt clear_demo) term_demo.
Proof. done. Qed.

Lemma print_string_refines_witness :
  ∃ s', print_string [72; 105; 10] clear_demo = Ret (tt, s') ∧ printed clear_demo (term_string 80 [72; 105; 10] term_demo) s'.
Proof.
  exact (print_string_refines clear_demo term_demo [72; 105; 10] clear_demo_ok clear_demo_term
    ltac:(simpl; lia) ltac:(simpl; lia)).
Defined.

Lemma refresh_shows_log_witness :
  ∃ d, refresh_screen clear_demo = Ret (tt, set_dsp d clear_demo) ∧ vga d 81 = blank.
Proof.
  destruct (refresh_shows_log clear_demo term_demo clear_demo_ok clear_demo_term eq_refl) as (d & Hrun & Hwin & _).
  exists d. split; [exact Hrun|]. exact (Hwin 1 1 ltac:(simpl; lia) ltac:(simpl; lia)).
Defined.

Lemma kprint_dec_digits_witness :
  ∃ ds s', kprint_dec 4294967295 clear_demo = Ret (tt, s') ∧ dec_value ds = 4294967295 ∧ (length ds ≤ 10)%nat.
Proof.
  destruct (kprint_dec_digits clear_demo term_demo 4294967295 clear_demo_ok clear_demo_term
    ltac:(simpl; lia) ltac:(simpl; lia) ltac:(lia)) as (ds & s' & Hrun & _ & _ & Hv & [_ Hl] & _).
  exists ds, s'. split; [exact Hrun|]. split; [exact Hv|exact Hl].
Defined.
