(* ===== verification/Rtl8169.v ===== *)
(** * Rtl8169: the network driver and its mock (src/drivers/net/rtl8169.c,
    src/drivers/net/e1000_mock.c, include/rtl8169.h)

    Register accesses, PCI configuration and the calls into lwIP are
    arguments; lwIP may send while it is handed a frame, so those arguments
    act on the driver's state as well.  A packet buffer is the bytes it holds.
    Cache flushes and fences do not change the state and are left out. *)

From Stdlib Require Import ZArith Lia String.
From stdpp Require Import base numbers list option strings.
From S2P Require Import Prelude Pci.
Open Scope Z_scope.

Definition RTL_MAC0 : Z := 0x00.
Definition RTL_TX_DESC_START : Z := 0x20.
Definition RTL_COMMAND : Z := 0x37.
Definition RTL_TPPOLL : Z := 0x38.
Definition RTL_RCR : Z := 0x44.
Definition RTL_9346CR : Z := 0x50.
Definition RTL_RX_DESC_START : Z := 0xE4.
Definition RTL_CMD_RESET : Z := 0x10.
Definition RTL_CMD_RE : Z := 0x08.
Definition RTL_CMD_TE : Z := 0x04.
Definition RTL_9346CR_UNLOCK : Z := 0xC0.
Definition RTL_9346CR_LOCK : Z := 0x00.
Definition RTL_DESC_OWN : Z := 0x80000000.
Definition NUM_DESCS : Z := 64.
Definition BUF_SIZE : Z := 1536.
Definition ERR_OK : Z := 0.
Definition ERR_BUF : Z := -2.

Record rtl_desc := MkDesc { command : Z; vlan : Z; buf_low : Z; buf_high : Z }.
Definition set_command c d := MkDesc c (vlan d) (buf_low d) (buf_high d).

(** The fields of lwIP's [struct netif] that the driver sets. *)
Record netif := MkNetif { nname : list Z; mtu : Z; flags : Z; hwaddr : list Z; hwaddr_len : Z }.
Definition no_netif : netif := MkNetif [0; 0] 0 0 (replicate 6 0) 0.
(** NETIF_FLAG_BROADCAST | NETIF_FLAG_ETHARP | NETIF_FLAG_LINK_UP *)
Definition NETIF_FLAGS : Z := Z.lor (Z.lor 0x02 0x08) 0x04.

Record rtl := MkRtl {
  mmio_base : Z;
  rx_ring : list rtl_desc;
  tx_ring : list rtl_desc;
  rx_buffers : list (list Z);
  tx_buffers : list (list Z);
  rtl_netif : netif;
  tx_idx : Z;
  rx_idx : Z;
  tx_packets : Z;
  rx_packets : Z;
  tx_bytes : Z;
  rx_bytes : Z;
  last_tx : list Z * Z;      (* the last packet's buffer and its length *)
  last_rx : list Z * Z;
  live_pktdump : bool;
  is_initialized : bool
}.

Definition set_mmio b s := MkRtl b (rx_ring s) (tx_ring s) (rx_buffers s) (tx_buffers s) (rtl_netif s) (tx_idx s) (rx_idx s)
  (tx_packets s) (rx_packets s) (tx_bytes s) (rx_bytes s) (last_tx s) (last_rx s) (live_pktdump s) (is_initialized s).
Definition set_rings rx tx s := MkRtl (mmio_base s) rx tx (rx_buffers s) (tx_buffers s) (rtl_netif s) (tx_idx s) (rx_idx s)
  (tx_packets s) (rx_packets s) (tx_bytes s) (rx_bytes s) (last_tx s) (last_rx s) (live_pktdump s) (is_initialized s).
Definition set_tx_buffers b s := MkRtl (mmio_base s) (rx_ring s) (tx_ring s) (rx_buffers s) b (rtl_netif s) (tx_idx s) (rx_idx s)
  (tx_packets s) (rx_packets s) (tx_bytes s) (rx_bytes s) (last_tx s) (last_rx s) (live_pktdump s) (is_initialized s).
Definition set_netif n s := MkRtl (mmio_base s) (rx_ring s) (tx_ring s) (rx_buffers s) (tx_buffers s) n (tx_idx s) (rx_idx s)
  (tx_packets s) (rx_packets s) (tx_bytes s) (rx_bytes s) (last_tx s) (last_rx s) (live_pktdump s) (is_initialized s).
Definition set_last_tx l s := MkRtl (mmio_base s) (rx_ring s) (tx_ring s) (rx_buffers s) (tx_buffers s) (rtl_netif s) (tx_idx s) (rx_idx s)
  (tx_packets s) (rx_packets s) (tx_bytes s) (rx_bytes s) l (last_rx s) (live_pktdump s) (is_initialized s).
Definition sent n s := MkRtl (mmio_base s) (rx_ring s) (tx_ring s) (rx_buffers s) (tx_buffers s) (rtl_netif s)
  ((tx_idx s + 1) mod NUM_DESCS) (rx_idx s) (u32 (tx_packets s + 1)) (rx_packets s) (u32 (tx_bytes s + n)) (rx_bytes s)
  (last_tx s) (last_rx s) (live_pktdump s) (is_initialized s).
Definition got n l s := MkRtl (mmio_base s) (rx_ring s) (tx_ring s) (rx_buffers s) (tx_buffers s) (rtl_netif s) (tx_idx s) (rx_idx s)
  (tx_packets s) (u32 (rx_packets s + 1)) (tx_bytes s) (u32 (rx_bytes s + n)) (last_tx s) l (live_pktdump s) (is_initialized s).
Definition given_back ring s := MkRtl (mmio_base s) ring (tx_ring s) (rx_buffers s) (tx_buffers s) (rtl_netif s) (tx_idx s)
  ((rx_idx s + 1) mod NUM_DESCS) (tx_packets s) (rx_packets s) (tx_bytes s) (rx_bytes s) (last_tx s) (last_rx s)
  (live_pktdump s) (is_initialized s).
Definition set_live b s := MkRtl (mmio_base s) (rx_ring s) (tx_ring s) (rx_buffers s) (tx_buffers s) (rtl_netif s) (tx_idx s) (rx_idx s)
  (tx_packets s) (rx_packets s) (tx_bytes s) (rx_bytes s) (last_tx s) (last_rx s) b (is_initialized s).
Definition set_initialized s := MkRtl (mmio_base s) (rx_ring s) (tx_ring s) (rx_buffers s) (tx_buffers s) (rtl_netif s) (tx_idx s) (rx_idx s)
  (tx_packets s) (rx_packets s) (tx_bytes s) (rx_bytes s) (last_tx s) (last_rx s) (live_pktdump s) true.

Definition no_desc : rtl_desc := MkDesc 0 0 0 0.
Definition rtl_boot : rtl := MkRtl 0 (replicate 64 no_desc) (replicate 64 no_desc) (replicate 64 (replicate 1536 0))
  (replicate 64 (replicate 1536 0)) no_netif 0 0 0 0 0 0 (replicate 1536 0, 0) (replicate 1536 0, 0) false false.

(** ** Showing a packet *)

Section dump.
Context {X : Type} `{Console X}.

Definition print_hex8 (v : Z) : comp X unit := print_char (hex_digit (Z.shiftr v 4));; print_char (hex_digit v).

Definition byte_at (data : list Z) (i : Z) : comp X Z := must (znth data i).

Definition print_mac (data : list Z) (off : Z) : comp X unit :=
  for_each 0 6 (λ i,
    b ← byte_at data (off + i);
    print_hex8 b;;
    if i <? 5 then print_char 58 else mret tt).

Definition print_ip (data : list Z) (off : Z) : comp X unit :=
  for_each 0 4 (λ i,
    b ← byte_at data (off + i);
    kprint_dec b;;
    if i <? 3 then print_char 46 else mret tt).

(** A big-endian 16-bit field. *)
Definition be16 (data : list Z) (off : Z) : comp X Z :=
  a ← byte_at data off; b ← byte_at data (off + 1); mret (Z.lor (Z.shiftl a 8) b).

Definition print_ports (data : list Z) : comp X unit :=
  src ← be16 data 34;
  dst ← be16 data 36;
  print_string "  Ports: ";; kprint_dec src;; print_string " -> ";; kprint_dec dst.

Definition print_ipv4 (data : list Z) (len : Z) : comp X unit :=
  proto ← byte_at data 23;
  color COLOR_LIGHT_BLUE;;
  print_string "  IPv4: ";;
  print_ip data 26;;
  print_string " -> ";;
  print_ip data 30;;
  print_string "  Proto: ";;
  (if proto =? 1 then print_string "ICMP"
   else if proto =? 6 then print_string "TCP"
   else if proto =? 17 then print_string "UDP"
   else kprint_dec proto);;
  (if (proto =? 6) && (54 <=? len) then print_ports data
   else if (proto =? 17) && (42 <=? len) then print_ports data
   else mret tt);;
  print_string NL;;
  reset_text_color.

Definition print_arp (data : list Z) : comp X unit :=
  op ← be16 data 20;
  color COLOR_YELLOW;;
  print_string "  ARP: ";;
  (if op =? 1 then print_string "Request who-has "
   else if op =? 2 then print_string "Reply "
   else print_string "Unknown ");;
  print_ip data 38;;
  (if op =? 1 then print_string " tell ";; print_ip data 28 else mret tt);;
  print_string NL;;
  reset_text_color.

Definition rtl8169_print_packet_parsed (data : list Z) (len : Z) : comp X unit :=
  if 14 <=? len then
    eth_type ← be16 data 12;
    color COLOR_LIGHT_MAGENTA;;
    print_string "  Eth: [";;
    print_mac data 6;;
    print_string "] -> [";;
    print_mac data 0;;
    print_string "] Type: 0x";;
    print_hex8 (Z.shiftr eth_type 8);;
    print_hex8 eth_type;;
    print_string NL;;
    reset_text_color;;
    if (eth_type =? 0x0800) && (34 <=? len) then print_ipv4 data len
    else if (eth_type =? 0x0806) && (42 <=? len) then print_arp data
    else mret tt
  else mret tt.

(** Sixteen bytes to a line. *)
Definition hex_dump (data : list Z) (len : Z) : comp X unit :=
  for_each 0 len (λ i,
    b ← byte_at data i;
    print_hex8 b;;
    print_char 32;;
    if (i + 1) mod 16 =? 0 then print_char 10 else mret tt).

Definition dump_packet (prefix : string) (data : list Z) (len : Z) : comp X unit :=
  color COLOR_LIGHT_CYAN;;
  print_string prefix;;
  print_string " LIVE DUMP (";;
  kprint_dec len;;
  print_string (" bytes):" +:+ NL);;
  print_string ("------------------------------------------------" +:+ NL);;
  reset_text_color;;
  rtl8169_print_packet_parsed data len;;
  hex_dump data len;;
  (if negb (len mod 16 =? 0) then print_char 10 else mret tt);;
  print_char 10.
End dump.

(** ** The driver *)

Section driver.
Context {X : Type} `{Console X}.
Context (outb8 outb16 outb32 : Z → Z → comp X unit) (inb8 inb32 : Z → comp X Z).
Context (outl : Z → Z → comp X unit) (inl_port : Z → comp X Z).
(** Where the linker put the rings and the buffers. *)
Context (rx_ring_addr tx_ring_addr rx_buffers_addr tx_buffers_addr : Z).
(** lwIP: packet buffers, the interface's input, and what sets it up. *)
Context (pbuf_alloc : Z → comp X Z) (pbuf_take : Z → list Z → comp X unit) (pbuf_free : Z → comp X unit)
  (netif_input : Z → comp (rtl * X) Z)
  (lwip_init : comp X unit) (netif_add : comp (rtl * X) Z → comp (rtl * X) unit)
  (netif_set_default netif_set_status_callback netif_set_up dhcp_start timer_set_net_ready : comp (rtl * X) unit).

Definition in_rtl {A} (m : comp rtl A) : comp (rtl * X) A := zoom fst (λ r s, (r, s.2)) m.
Definition in_io {A} (m : comp X A) : comp (rtl * X) A := zoom snd (λ x s, (s.1, x)) m.

Definition rtl_outb (reg val : Z) : comp (rtl * X) unit :=
  b ← in_rtl (gets mmio_base); if negb (b =? 0) then in_io (outb8 (b + reg) val) else mret tt.
Definition rtl_inb (reg : Z) : comp (rtl * X) Z :=
  b ← in_rtl (gets mmio_base); if negb (b =? 0) then in_io (inb8 (b + reg)) else mret 0.
Definition rtl_outd (reg val : Z) : comp (rtl * X) unit :=
  b ← in_rtl (gets mmio_base); if negb (b =? 0) then in_io (outb32 (b + reg) val) else mret tt.
Definition rtl_ind (reg : Z) : comp (rtl * X) Z :=
  b ← in_rtl (gets mmio_base); if b =? 0 then mret 0 else in_io (inb32 (b + reg)).

Definition rtl_mdio_write (reg val : Z) : comp (rtl * X) unit :=
  rtl_outd 0x60 (Z.lor (Z.lor 0x80000000 (Z.shiftl (Z.land reg 0x1F) 16)) (Z.land val 0xFFFF));;
  _ ← for_range 0 100000 (λ _,
    v ← rtl_ind 0x60;
    mret (if Z.land v 0x80000000 =? 0 then Some tt else None));
  mret tt.

Definition rtl8169_dump_packet (prefix : string) (data : list Z) (len : Z) : comp (rtl * X) unit :=
  live ← in_rtl (gets live_pktdump);
  if negb live then mret tt else in_io (dump_packet prefix data len).

(** The frame in its buffer, padded with zeroes to 60 bytes. *)
Definition pad_frame (flat : list Z) (tx_len : Z) : list Z :=
  if tx_len <? 60 then splice flat tx_len (replicate (Z.to_nat (60 - tx_len)) 0) else flat.

(** OWN, first and last segment, the length, and the end-of-ring mark. *)
Definition tx_command (i tx_len : Z) : Z :=
  let cmd := Z.lor (Z.lor (Z.lor 0x80000000 0x20000000) 0x10000000) (Z.land tx_len 0xFFFF) in
  if i =? NUM_DESCS - 1 then Z.lor cmd 0x40000000 else cmd.

(** [p] is the packet's bytes; more of them than the buffer holds overrun it. *)
Definition rtl8169_linkoutput (p : list Z) : comp (rtl * X) Z :=
  s ← in_rtl get;
  let i := tx_idx s in
  let tot_len := Z.of_nat (length p) in
  flat ← must (znth (tx_buffers s) i);
  if BUF_SIZE <? tot_len then undef
  else
    let flat := pad_frame (splice flat 0 p) tot_len in
    let tx_len := if tot_len <? 60 then 60 else tot_len in
    bufs ← must (zset (tx_buffers s) i flat);
    in_rtl (modify (set_tx_buffers bufs));;
    d ← must (znth (tx_ring s) i);
    if negb (Z.land (command d) 0x80000000 =? 0) then mret ERR_BUF
    else
      in_rtl (modify (λ s, set_last_tx (splice (fst (last_tx s)) 0 (take (Z.to_nat tx_len) flat), tx_len) s));;
      rtl8169_dump_packet "RTL8169 TX" flat tx_len;;
      s ← in_rtl get;
      let addr := tx_buffers_addr + BUF_SIZE * i in
      ring ← must (zset (tx_ring s) i (MkDesc (tx_command i tx_len) (vlan d) (Z.land addr 0xFFFFFFFF) (Z.shiftr addr 32)));
      in_rtl (modify (set_rings (rx_ring s) ring));;
      rtl_outb RTL_TPPOLL 0x40;;
      in_rtl (modify (sent tot_len));;
      mret ERR_OK.

(** Hand a received frame to lwIP. *)
Definition hand_over (frame : list Z) : comp (rtl * X) unit :=
  p ← in_io (pbuf_alloc (Z.of_nat (length frame)));
  if negb (p =? 0) then
    in_io (pbuf_take p frame);;
    err ← netif_input p;
    if negb (err =? ERR_OK) then in_io (pbuf_free p) else mret tt
  else mret tt.

Definition reset_command (i : Z) : Z :=
  let c := Z.lor RTL_DESC_OWN 1536 in if i =? NUM_DESCS - 1 then Z.lor c 0x40000000 else c.

(** A frame of the right size: count it, keep a copy, hand it over. *)
Definition receive (i len : Z) : comp (rtl * X) unit :=
  s ← in_rtl get;
  buf ← must (znth (rx_buffers s) i);
  let frame := take (Z.to_nat len) buf in
  in_rtl (modify (λ s, got len (splice (fst (last_rx s)) 0 frame, len) s));;
  rtl8169_dump_packet "RTL8169 RX" buf len;;
  hand_over frame.

(** One round of the poll; [inr] leaves the loop. *)
Definition poll_round : comp (rtl * X) (unit + unit) :=
  s ← in_rtl get;
  d ← must (znth (rx_ring s) (rx_idx s));
  let cmd := command d in
  if negb (Z.land cmd RTL_DESC_OWN =? 0) then mret (inr tt)
  else
    let len := Z.land cmd 0x3FFF in
    (if (0 <? len) && (len <=? 1536) then receive (rx_idx s) len else mret tt);;
    s ← in_rtl get;
    d ← must (znth (rx_ring s) (rx_idx s));
    ring ← must (zset (rx_ring s) (rx_idx s) (set_command (reset_command (rx_idx s)) d));
    in_rtl (modify (given_back ring));;
    mret (inl tt).

Definition rtl8169_poll : comp (rtl * X) unit := loop (λ _, poll_round) tt.

Definition rtl8169_netif_init : comp (rtl * X) Z :=
  mac ← loop (λ '(i, acc),
    if i <? 6 then b ← rtl_inb (RTL_MAC0 + i); mret (inl (i + 1, acc ++ [b])) else mret (inr acc)) (0, []);
  in_rtl (modify (set_netif (MkNetif [114; 116] 1500 NETIF_FLAGS mac 6)));;
  mret ERR_OK.

(** The first memory BAR. *)
Definition find_bar (bus device function : Z) : comp X Z :=
  loop (λ bar_off,
    if bar_off <=? 0x24 then
      bar ← pci_read_config_dword outl inl_port bus device function bar_off;
      if (bar =? 0) || (bar =? 0xFFFFFFFF) then mret (inl (bar_off + 4))
      else if negb (Z.land bar 0x01 =? 0) then mret (inl (bar_off + 4))
      else
        let bar_type := Z.land (Z.shiftr bar 1) 0x3 in
        let base := Z.land bar 0xFFFFFFF0 in
        if bar_type =? 2 then
          bar_high ← pci_read_config_dword outl inl_port bus device function (bar_off + 4);
          let base := Z.lor base (Z.shiftl bar_high 32) in
          mret (if negb (base =? 0) then inr base else inl (bar_off + 8))
        else mret (if negb (base =? 0) then inr base else inl (bar_off + 4))
    else mret (inr 0)) 0x10.

Definition print_hex32 (v : Z) : comp X unit :=
  print_bytes (map (λ k, hex_digit (Z.shiftr v (4 * k))) [7; 6; 5; 4; 3; 2; 1; 0]).

Definition ring_desc (i : Z) : rtl_desc :=
  let addr := rx_buffers_addr + BUF_SIZE * i in
  MkDesc (reset_command i) 0 (Z.land addr 0xFFFFFFFF) (Z.shiftr addr 32).

Definition init_rings : comp (rtl * X) unit :=
  for_each 0 NUM_DESCS (λ i,
    s ← in_rtl get;
    rx ← must (zset (rx_ring s) i (ring_desc i));
    tx ← must (zset (tx_ring s) i no_desc);
    in_rtl (modify (set_rings rx tx))).

(** Wait for the reset: the counter afterwards. *)
Definition wait_reset : comp (rtl * X) Z :=
  loop (λ timeout,
    c ← rtl_inb RTL_COMMAND;
    if negb (Z.land c RTL_CMD_RESET =? 0) && (0 <? timeout) then mret (inl (timeout - 1))
    else mret (inr timeout)) 100000.

Definition wait_link : comp (rtl * X) bool :=
  r ← for_range 0 300000 (λ _,
    phystatus ← rtl_inb 0x6C;
    mret (if negb (Z.land phystatus 0x02 =? 0) then Some tt else None));
  mret (match r with Some _ => true | None => false end).

Definition enable_bus_master (bus device function : Z) : comp X unit :=
  pci_cmd ← pci_read_config_dword outl inl_port bus device function 0x04;
  if negb (Z.land pci_cmd 0x0006 =? 0x0006) then
    print_string ("RTL8169: Enabling PCI Memory Space + Bus Mastering..." +:+ NL);;
    pci_write_config_dword outl bus device function 0x04 (Z.lor pci_cmd 0x0006)
  else mret tt.

(** From the reset to the link check. *)
Definition start_hardware : comp (rtl * X) unit :=
  in_io (print_string ("RTL8169: Performing hardware reset..." +:+ NL));;
  rtl_outb RTL_COMMAND RTL_CMD_RESET;;
  timeout ← wait_reset;
  (if timeout =? 0 then in_io (print_string ("RTL8169: WARNING - HW Reset timeout." +:+ NL)) else mret tt);;
  in_io (print_string ("RTL8169: Reset complete." +:+ NL));;
  in_io (print_string ("RTL8169: Unlocking Config..." +:+ NL));;
  rtl_outb RTL_9346CR RTL_9346CR_UNLOCK;;
  in_io (print_string ("RTL8169: Waking up PHY via MDIO & Restarting Auto-MDIX..." +:+ NL));;
  rtl_mdio_write 0 0x1200;;
  rtl_outb RTL_9346CR RTL_9346CR_LOCK;;
  in_io (print_string ("RTL8169: Initializing DMA Rings (static BSS)..." +:+ NL));;
  init_rings;;
  rtl_outd RTL_TX_DESC_START (Z.land tx_ring_addr 0xFFFFFFFF);;
  rtl_outd (RTL_TX_DESC_START + 4) (Z.shiftr tx_ring_addr 32);;
  rtl_outd RTL_RX_DESC_START (Z.land rx_ring_addr 0xFFFFFFFF);;
  rtl_outd (RTL_RX_DESC_START + 4) (Z.shiftr rx_ring_addr 32);;
  in_io (print_string ("RTL8169: Configuring RX Filters & Enabling RX/TX logic..." +:+ NL));;
  b ← in_rtl (gets mmio_base);
  (if negb (b =? 0) then in_io (outb16 (b + 0xDA) 1536) else mret tt);;
  rtl_outd 0x40 0x03000700;;
  rtl_outd RTL_RCR 0x0000070F;;
  rtl_outb RTL_COMMAND (Z.lor RTL_CMD_RE RTL_CMD_TE);;
  in_io (print_string ("RTL8169: HW init done. Waiting for physical link..." +:+ NL));;
  up ← wait_link;
  match up with
  | true => in_io (print_string ("RTL8169: Physical Link is UP!" +:+ NL))
  | false =>
      in_io (print_string ("RTL8169: WARNING - No physical link detected after timeout!" +:+ NL);;
             print_string ("RTL8169: Check Ethernet cable. Continuing anyway..." +:+ NL))
  end.

Definition rtl8169_init (bus device function : Z) : comp (rtl * X) unit :=
  s ← in_rtl get;
  if is_initialized s then
    in_io (print_string ("RTL8169: Already initialized. Skipping to avoid lwIP crashes." +:+ NL))
  else
    in_rtl (modify set_initialized);;
    in_io (print_string ("RTL8169: Initializing hardware..." +:+ NL));;
    in_io (enable_bus_master bus device function);;
    mmio_phys ← in_io (find_bar bus device function);
    in_rtl (modify (set_mmio mmio_phys));;
    in_io (print_string "RTL8169: MMIO mapped at 0x";; print_hex32 (Z.land mmio_phys 0xFFFFFFFF);; print_string NL);;
    if mmio_phys =? 0 then
      in_io (print_string ("RTL8169: FATAL - No MMIO BAR found! NIC unusable." +:+ NL))
    else
      start_hardware;;
      in_io lwip_init;;
      netif_add rtl8169_netif_init;;
      netif_set_default;;
      netif_set_status_callback;;
      netif_set_up;;
      dhcp_start;;
      in_io (print_string ("RTL8169: lwIP Bound to Hardware! Requesting DHCP..." +:+ NL));;
      timer_set_net_ready;;
      in_io (print_string ("RTL8169: Timer-driven RX poll ACTIVE (10 ms interval)." +:+ NL)).

(** The status callback; [addr] is the text of the interface's address. *)
Definition rtl8169_netif_status_cb (addr : list Z) : comp X unit :=
  print_string (NL +:+ "[RTL8169] Network initialized! IP Address: ");;
  print_bytes addr;;
  print_string (NL +:+ "JARVIS [/] $ ").
End driver.

(** ** The mock driver for QEMU *)

Definition MAX_DUMP_SIZE : Z := 1514.

Record e1000 := MkE1000 {
  e_last : list Z;
  e_last_len : Z;
  e_tx_packets : Z;
  e_tx_bytes : Z;
  e_netif : netif;
  e_initialized : bool
}.
Definition e1000_boot : e1000 := MkE1000 (replicate 1514 0) 0 0 0 no_netif false.
Definition set_e_netif n e := MkE1000 (e_last e) (e_last_len e) (e_tx_packets e) (e_tx_bytes e) n (e_initialized e).
Definition set_e_initialized e := MkE1000 (e_last e) (e_last_len e) (e_tx_packets e) (e_tx_bytes e) (e_netif e) true.

Section mock.
Context {X : Type} `{Console X}.
Context (lwip_init : comp X unit) (netif_add : comp (e1000 * X) Z → comp (e1000 * X) unit)
  (netif_set_default netif_set_up dhcp_start : comp (e1000 * X) unit).

Definition in_e {A} (m : comp e1000 A) : comp (e1000 * X) A := zoom fst (λ e s, (e, s.2)) m.
Definition in_x {A} (m : comp X A) : comp (e1000 * X) A := zoom snd (λ x s, (s.1, x)) m.

(** Copy the parts of the packet, as many bytes as the buffer holds. *)
Fixpoint copy_parts (q : list (list Z)) (last : list Z) (offset : Z) : list Z * Z :=
  match q with
  | [] => (last, offset)
  | part :: q' =>
      if offset <? MAX_DUMP_SIZE then
        let len := Z.of_nat (length part) in
        let copy_len := if MAX_DUMP_SIZE <? offset + len then MAX_DUMP_SIZE - offset else len in
        copy_parts q' (splice last offset (take (Z.to_nat copy_len) part)) (offset + copy_len)
      else (last, offset)
  end.

(** The packet is its chain of parts. *)
Definition dummy_linkoutput (p : list (list Z)) : comp (e1000 * X) Z :=
  let tot_len := Z.of_nat (length (concat p)) in
  in_x (color COLOR_LIGHT_MAGENTA;;
        print_string (NL +:+ "[QEMU E1000 Mock] Successfully intercepted Outgoing Packet: ");;
        kprint_dec tot_len;;
        print_string (" bytes." +:+ NL +:+ "JARVIS [/] $ ");;
        reset_text_color);;
  in_e (modify (λ e,
    let '(last, offset) := copy_parts p (e_last e) 0 in
    MkE1000 last (u16 offset) (u32 (e_tx_packets e + 1)) (u32 (e_tx_bytes e + tot_len)) (e_netif e) (e_initialized e)));;
  mret ERR_OK.

Definition dummy_netif_init : comp (e1000 * X) Z :=
  in_e (modify (set_e_netif (MkNetif [101; 48] 1500 NETIF_FLAGS (map (λ i, 0x52 + i) [0; 1; 2; 3; 4; 5]) 6)));;
  mret ERR_OK.

Definition qemu_net_init : comp (e1000 * X) unit :=
  e ← in_e get;
  if e_initialized e then
    in_x (print_string ("QEMU E1000: Already initialized. Skipping to avoid lwIP crashes." +:+ NL))
  else
    in_e (modify set_e_initialized);;
    in_x (print_string ("QEMU E1000: Found Virtual NIC. Initializing lwIP Mock Bridge..." +:+ NL));;
    in_x lwip_init;;
    netif_add dummy_netif_init;;
    netif_set_default;;
    netif_set_up;;
    dhcp_start;;
    in_x (print_string ("QEMU E1000: lwIP Bound to Mock Hardware! DHCP Discovery in progress..." +:+ NL)).
End mock.

(** ** Invariant *)

Record rtl_ok (s : rtl) : Prop := {
  ok_rx_ring : length (rx_ring s) = 64%nat;
  ok_tx_ring : length (tx_ring s) = 64%nat;
  ok_rx_buffers : length (rx_buffers s) = 64%nat ∧ Forall (λ b, length b = 1536%nat) (rx_buffers s);
  ok_tx_buffers : length (tx_buffers s) = 64%nat ∧ Forall (λ b, length b = 1536%nat) (tx_buffers s);
  ok_idx : 0 ≤ tx_idx s < NUM_DESCS ∧ 0 ≤ rx_idx s < NUM_DESCS;
  ok_last : length (last_tx s).1 = 1536%nat ∧ length (last_rx s).1 = 1536%nat
}.

(** *** Showing a packet only prints *)

Section dump_facts.
Context {X T : Type} `{Console X} (f : X → T) (Hemit : ∀ o s, f (emit o s) = f s).

Lemma keeps_byte_at data i : 0 ≤ i < Z.of_nat (length data) → keeps f (byte_at data i).
Proof. intros Hi. apply keeps_must, znth_lt. lia. Qed.
Lemma keeps_hex8 v : keeps f (print_hex8 v).
Proof. unfold print_hex8. keeps. Qed.

(** The same with the reads and the printing of packets. *)
Ltac keeps_packet :=
  repeat first [ keeps_step | apply keeps_hex8 | apply keeps_byte_at; destr_bool; lia ].

Lemma keeps_be16 data i : 0 ≤ i → i + 1 < Z.of_nat (length data) → keeps f (be16 data i).
Proof. intros Hi Hl. unfold be16. keeps_packet. Qed.
Lemma keeps_mac data off : 0 ≤ off → off + 6 ≤ Z.of_nat (length data) → keeps f (print_mac data off).
Proof. intros Ho Hl. unfold print_mac. keeps_packet. Qed.
Lemma keeps_ip data off : 0 ≤ off → off + 4 ≤ Z.of_nat (length data) → keeps f (print_ip data off).
Proof. intros Ho Hl. unfold print_ip. keeps_packet. Qed.

Ltac keeps_fields :=
  repeat first [ keeps_step | apply keeps_hex8 | apply keeps_byte_at; destr_bool; lia
               | apply keeps_be16; destr_bool; lia | apply keeps_mac; destr_bool; lia | apply keeps_ip; destr_bool; lia ].

Lemma keeps_ports data : 42 ≤ Z.of_nat (length data) → keeps f (print_ports data).
Proof. intros Hl. unfold print_ports. keeps_fields. Qed.
Lemma keeps_ipv4 data len : 34 ≤ len ≤ Z.of_nat (length data) → keeps f (print_ipv4 data len).
Proof. intros Hl. unfold print_ipv4. keeps_fields; apply keeps_ports; destr_bool; lia. Qed.
Lemma keeps_arp data : 42 ≤ Z.of_nat (length data) → keeps f (print_arp data).
Proof. intros Hl. unfold print_arp. keeps_fields. Qed.
Lemma keeps_parsed data len : len ≤ Z.of_nat (length data) → keeps f (rtl8169_print_packet_parsed data len).
Proof.
  intros Hl. unfold rtl8169_print_packet_parsed.
  keeps_fields; [apply keeps_ipv4; destr_bool; lia | apply keeps_arp; destr_bool; lia].
Qed.
Lemma keeps_dump prefix data len : len ≤ Z.of_nat (length data) → keeps f (dump_packet prefix data len).
Proof. intros Hl. unfold dump_packet, hex_dump. keeps_fields. by apply keeps_parsed. Qed.
End dump_facts.

(** ** Sending *)

Lemma splice_0 (l p : list Z) : splice l 0 p = p ++ drop (length p) l.
Proof. done. Qed.

Lemma pad_frame_ok flat p :
  length flat = 1536%nat → Z.of_nat (length p) ≤ 1536 →
  let n := Z.max 60 (Z.of_nat (length p)) in
  let flat' := pad_frame (splice flat 0 p) (Z.of_nat (length p)) in
  length flat' = 1536%nat ∧
  take (Z.to_nat n) flat' = p ++ replicate (Z.to_nat (n - Z.of_nat (length p))) 0.
Proof.
  intros Hl Hp. cbv zeta. rewrite splice_0. unfold pad_frame. destruct (Z.ltb_spec (Z.of_nat (length p)) 60).
  - rewrite Z.max_l by lia. unfold splice. rewrite Nat2Z.id, take_app_length. split.
    + rewrite !length_app, length_replicate, length_drop, !length_app, length_drop. lia.
    + rewrite app_assoc. rewrite take_app_le by (rewrite length_app, length_replicate; lia).
      apply firstn_all2. rewrite length_app, length_replicate. lia.
  - rewrite Z.max_r, Z.sub_diag by lia. rewrite Nat2Z.id. split.
    + rewrite length_app, length_drop. lia.
    + rewrite take_app_length. simpl. by rewrite app_nil_r.
Qed.

Lemma tx_command_ok i n :
  0 ≤ n < 2 ^ 16 →
  Z.testbit (tx_command i n) 31 = true ∧ Z.land (tx_command i n) 0xFFFF = n ∧
  Z.testbit (tx_command i n) 30 = (i =? 63).
Proof.
  intros Hn. unfold tx_command, NUM_DESCS. cbv zeta. change (64 - 1) with 63.
  assert (En : Z.land n 0xFFFF = n) by (change 0xFFFF with (Z.ones 16); rewrite Z.land_ones by lia; by apply Z.mod_small).
  assert (Hhi : ∀ k, 16 ≤ k → Z.testbit n k = false).
  { intros k Hk. apply (Z.bits_above_log2); [lia|]. destruct (decide (n = 0)) as [->|]; [simpl; lia|].
    apply Z.log2_lt_pow2; [lia|]. eapply Z.lt_le_trans; [apply Hn|]. apply Z.pow_le_mono_r; lia. }
  rewrite En. destruct (i =? 63).
  - rewrite !Z.lor_spec, !Hhi by lia. split; [done|]. split; [|done]. rewrite !Z.land_lor_distr_l, En. by apply Z.lor_0_r.
  - rewrite !Z.lor_spec, !Hhi by lia. split; [done|]. split; [|done]. rewrite !Z.land_lor_distr_l, En. done.
Qed.

Section sending.
Context {X : Type} `{Console X} (outb8 : Z → Z → comp X unit) (tx_buffers_addr : Z).
Context (Houtb : ∀ p v, returns (outb8 p v)).

Lemma outb_ok reg v (s : rtl * X) (Q : unit → rtl * X → Prop) :
  (∀ x, Q tt (s.1, x)) → wp (rtl_outb outb8 reg v) Q s.
Proof.
  intros HQ. unfold rtl_outb, in_rtl, in_io. apply wp_bind, wp_zoom, wp_gets. destruct (negb _).
  - apply wp_zoom. eapply wp_mono; [apply Houtb|]. intros [] x _. apply HQ.
  - apply wp_ret. destruct s. apply HQ.
Qed.

Lemma dump_ok prefix data len (s : rtl * X) (Q : unit → rtl * X → Prop) :
  len ≤ Z.of_nat (length data) → (∀ x, Q tt (s.1, x)) → wp (rtl8169_dump_packet prefix data len) Q s.
Proof.
  intros Hl HQ. unfold rtl8169_dump_packet, in_rtl, in_io. apply wp_bind, wp_zoom, wp_gets. destruct (negb _).
  - apply wp_ret. destruct s. apply HQ.
  - apply wp_zoom. apply (wp_keeps (λ _ : X, tt)); [by apply keeps_dump|]. intros [] x _. apply HQ.
Qed.

(** The state after the frame [p] was written to the buffer of the next
    descriptor. *)
Definition with_frame (s : rtl) (flat : list Z) : rtl :=
  set_tx_buffers (<[Z.to_nat (tx_idx s) := flat]> (tx_buffers s)) s.

(** What queueing the frame [p] does, when [d] is the next descriptor: either
    the card owns it and only the buffer changed, or the descriptor was filled
    and the index moved on. *)
Record queued (s : rtl) (p : list Z) (d : rtl_desc) (flat : list Z) (r : Z) (s' : rtl) : Prop := {
  q_ok : rtl_ok s';
  q_buffers : tx_buffers s' = <[Z.to_nat (tx_idx s) := flat]> (tx_buffers s);
  q_frame : take (Z.to_nat (Z.max 60 (Z.of_nat (length p)))) flat =
    p ++ replicate (60 - length p) 0;
  q_outcome :
    Z.land (command d) RTL_DESC_OWN ≠ 0 ∧ r = ERR_BUF ∧ s' = with_frame s flat ∨
    Z.land (command d) RTL_DESC_OWN = 0 ∧ r = ERR_OK ∧ tx_idx s' = (tx_idx s + 1) mod 64 ∧
    (∃ d', tx_ring s' = <[Z.to_nat (tx_idx s) := d']> (tx_ring s) ∧
      Z.testbit (command d') 31 = true ∧
      Z.land (command d') 0xFFFF = Z.max 60 (Z.of_nat (length p)) ∧
      Z.testbit (command d') 30 = (tx_idx s =? 63) ∧
      buf_low d' + Z.shiftl (buf_high d') 32 = tx_buffers_addr + 1536 * tx_idx s) ∧
    (rx_ring s', rx_buffers s', rx_idx s', rx_packets s') = (rx_ring s, rx_buffers s, rx_idx s, rx_packets s) ∧
    tx_packets s' = u32 (tx_packets s + 1) ∧
    take (Z.to_nat (last_tx s').2) (last_tx s').1 = p ++ replicate (60 - length p) 0
}.

Lemma split_addr a : Z.land a 0xFFFFFFFF + Z.shiftl (Z.shiftr a 32) 32 = a.
Proof.
  change 0xFFFFFFFF with (Z.ones 32). rewrite Z.land_ones, Z.shiftr_div_pow2, Z.shiftl_mul_pow2 by lia. dlia.
Qed.

(** C9. Queueing a frame.  For a frame the buffer can hold,
    [rtl8169_linkoutput] terminates.  When the card owns the next descriptor
    it answers ERR_BUF and changes nothing but the buffer, which the card may
    be sending: that now starts with the new frame.  Otherwise it answers
    ERR_OK; the buffer starts with the frame, padded with zeroes to 60 bytes;
    the descriptor, and no other, gets the buffer's address and a command with
    OWN, the padded length, and the end-of-ring mark in the last place of the
    ring only; the index moves on round the ring; the receiving side is as it
    was, and the copy kept for the shell is the padded frame. *)
Theorem tx_frame_queued (s : rtl) (x : X) (p : list Z) (d : rtl_desc) :
  rtl_ok s → Z.of_nat (length p) ≤ 1536 → tx_ring s !! Z.to_nat (tx_idx s) = Some d →
  ∃ r s' x' flat,
    rtl8169_linkoutput outb8 tx_buffers_addr p (s, x) = Ret (r, (s', x')) ∧ queued s p d flat r s'.
Proof.
  intros Hok Hp Hd. destruct Hok as [H1 H2 H3 [Htb Htbl] [Ht Hr] [Hl1 Hl2]].
  unfold NUM_DESCS in *.
  destruct (lookup_lt_is_Some_2 (tx_buffers s) (Z.to_nat (tx_idx s))) as [b Hb]; [lia|].
  assert (Hbl : length b = 1536%nat) by exact (Forall_lookup_1 _ _ _ _ Htbl Hb).
  destruct (pad_frame_ok b p Hbl Hp) as [Hfl Hft]. set (flat := pad_frame (splice b 0 p) (Z.of_nat (length p))) in *.
  set (n := Z.max 60 (Z.of_nat (length p))) in *.
  replace (Z.to_nat (n - Z.of_nat (length p))) with (60 - length p)%nat in Hft by (unfold n; lia).
  assert (En : (if Z.of_nat (length p) <? 60 then 60 else Z.of_nat (length p)) = n).
  { unfold n. destruct (Z.ltb_spec (Z.of_nat (length p)) 60); lia. }
  assert (Hn : 60 ≤ n ≤ 1536) by (unfold n; lia).
  pose proof (tx_command_ok (tx_idx s) n ltac:(lia)) as (Hc1 & Hc2 & Hc3).
  assert (Hbufs : Forall (λ b, length b = 1536%nat) (<[Z.to_nat (tx_idx s):=flat]> (tx_buffers s))) by by apply Forall_insert.
  cut (wp (rtl8169_linkoutput outb8 tx_buffers_addr p) (λ r t, queued s p d flat r t.1) (s, x)).
  { rewrite wp_run. intros (r & [s' x'] & Hrun & Hq). by exists r, s', x', flat. }
  unfold rtl8169_linkoutput, in_rtl. wp_steps. cbn [fst snd].
  eapply wp_must; [rewrite znth_nat by lia; exact Hb|].
  unfold BUF_SIZE. destruct (Z.ltb_spec 1536 (Z.of_nat (length p))); [lia|]. fold flat. rewrite En.
  wp_steps. eapply wp_must; [apply zset_lt; lia|]. wp_steps. cbn [fst snd].
  eapply wp_must; [rewrite znth_nat by lia; exact Hd|].
  destruct (Z.eqb_spec (Z.land (command d) 0x80000000) 0) as [Hown|Hown]; cbn [negb]; wp_steps.
  - apply dump_ok; [lia|]. intros x1. wp_steps. cbn [fst snd].
    eapply wp_must; [apply zset_lt; simpl; lia|]. wp_steps. apply outb_ok. intros x2. wp_steps. cbn [fst snd].
    split; simpl; [|done|done|].
    + split; simpl; rewrite ?length_insert; try done.
      * unfold NUM_DESCS. split; [apply Z.mod_pos_bound; lia|done].
      * split; [|done]. rewrite length_splice; rewrite ?length_take; lia.
    + right. split; [done|]. split; [done|]. split; [done|].
      split; [eexists; split_and!; [reflexivity|done..|]; apply split_addr|].
      split; [done|]. split; [done|]. rewrite splice_0, Hft.
      rewrite take_app_le by (rewrite length_app, length_replicate; lia).
      apply firstn_all2. rewrite length_app, length_replicate. lia.
  - split; simpl; [|done|done|by left]. split; simpl; rewrite ?length_insert; done.
Qed.
End sending.

(** ** Receiving *)

(** The place [j] steps after [i] on the ring. *)
Definition on_ring (i j : Z) : Z := (i + j) mod NUM_DESCS.

(** The card has given back [k] descriptors, from the next one on. *)
Definition pending (s : rtl) (k : Z) : Prop :=
  0 ≤ k ≤ 64 ∧
  (∀ j d, 0 ≤ j < k → rx_ring s !! Z.to_nat (on_ring (rx_idx s) j) = Some d → Z.land (command d) RTL_DESC_OWN = 0) ∧
  (∀ d, k < 64 → rx_ring s !! Z.to_nat (on_ring (rx_idx s) k) = Some d → Z.land (command d) RTL_DESC_OWN ≠ 0).

(** The frame in buffer [i], when its descriptor's length is a frame's. *)
Definition frame_in (s : rtl) (i : Z) : option (list Z) :=
  d ← rx_ring s !! Z.to_nat i;
  b ← rx_buffers s !! Z.to_nat i;
  let len := Z.land (command d) 0x3FFF in
  if (0 <? len) && (len <=? 1536) then Some (take (Z.to_nat len) b) else None.

(** The frames of the first [k] descriptors, in order. *)
Definition frames (s : rtl) (k : nat) : list (list Z) :=
  omap (λ j, frame_in s (on_ring (rx_idx s) (Z.of_nat j))) (seq 0 k).

(** The ring with the first [k] descriptors given back to the card. *)
Definition ring_after (s : rtl) (k : Z) : list rtl_desc :=
  imap (λ i d, if (Z.of_nat i - rx_idx s) mod NUM_DESCS <? k then set_command (reset_command (Z.of_nat i)) d else d) (rx_ring s).

Lemma frames_S s k :
  frames s (Datatypes.S k) = frames s k ++ option_list (frame_in s (on_ring (rx_idx s) (Z.of_nat k))).
Proof.
  unfold frames. rewrite seq_S. simpl. rewrite omap_app. simpl.
  by destruct (frame_in s _).
Qed.

Lemma on_ring_range i j : 0 ≤ on_ring i j < 64.
Proof. apply Z.mod_pos_bound. unfold NUM_DESCS. lia. Qed.
Lemma on_ring_back i j : 0 ≤ i < 64 → 0 ≤ j < 64 → (on_ring i j - i) mod NUM_DESCS = j.
Proof. unfold on_ring, NUM_DESCS. intros. dlia. Qed.
Lemma on_ring_64 i : 0 ≤ i < 64 → on_ring i 64 = i.
Proof. unfold on_ring, NUM_DESCS. intros. dlia. Qed.
Lemma on_ring_next i j : (on_ring i j + 1) mod NUM_DESCS = on_ring i (j + 1).
Proof. unfold on_ring, NUM_DESCS. dlia. Qed.
Lemma on_ring_inj i j i' : 0 ≤ i < 64 → 0 ≤ i' < 64 → 0 ≤ j < 64 →
  (i' - i) mod NUM_DESCS = j → i' = on_ring i j.
Proof. unfold on_ring, NUM_DESCS. intros. dlia. Qed.

Lemma ring_after_0 s : ring_after s 0 = rx_ring s.
Proof.
  unfold ring_after. apply list_eq. intros i. rewrite list_lookup_imap. destruct (rx_ring s !! i); [|done]. simpl.
  destruct (Z.ltb_spec ((Z.of_nat i - rx_idx s) mod NUM_DESCS) 0); [|done].
  pose proof (Z.mod_pos_bound (Z.of_nat i - rx_idx s) NUM_DESCS). unfold NUM_DESCS in *. lia.
Qed.

Lemma ring_after_S s j d :
  rtl_ok s → 0 ≤ j < 64 → ring_after s j !! Z.to_nat (on_ring (rx_idx s) j) = Some d →
  <[Z.to_nat (on_ring (rx_idx s) j) := set_command (reset_command (on_ring (rx_idx s) j)) d]> (ring_after s j) = ring_after s (j + 1).
Proof.
  intros Hok Hj Hd. destruct Hok as [Hr _ _ _ [_ Hi] _]. unfold NUM_DESCS in Hi.
  pose proof (on_ring_range (rx_idx s) j) as Ho.
  apply list_eq. intros i. destruct (decide (i = Z.to_nat (on_ring (rx_idx s) j))) as [->|Hne].
  - rewrite list_lookup_insert_eq by by eapply lookup_lt_Some.
    revert Hd. unfold ring_after. rewrite !list_lookup_imap. destruct (rx_ring s !! _) as [d0|]; [|done]. simpl.
    rewrite Z2Nat.id, on_ring_back by lia. rewrite Z.ltb_irrefl. intros [= ->].
    by destruct (Z.ltb_spec j (j + 1)); [|lia].
  - rewrite list_lookup_insert_ne by done. unfold ring_after. rewrite !list_lookup_imap.
    destruct (rx_ring s !! i) as [d0|] eqn:E0; [|done]. simpl. apply lookup_lt_Some in E0.
    assert ((Z.of_nat i - rx_idx s) mod NUM_DESCS ≠ j).
    { intros E. apply Hne. apply on_ring_inj in E; lia. }
    destruct (Z.ltb_spec ((Z.of_nat i - rx_idx s) mod NUM_DESCS) j), (Z.ltb_spec ((Z.of_nat i - rx_idx s) mod NUM_DESCS) (j + 1));
      done || lia.
Qed.

Lemma reset_command_own i : Z.land (reset_command i) RTL_DESC_OWN ≠ 0.
Proof. unfold reset_command. by destruct (i =? _). Qed.

Section receiving.
Context {X : Type} `{Console X}.
Context (pbuf_alloc : Z → comp X Z) (pbuf_take : Z → list Z → comp X unit) (pbuf_free : Z → comp X unit)
  (netif_input : Z → comp (rtl * X) Z).
(** The frames lwIP has accepted, the contents of its packet buffers, and
    whether it may run out of buffers or turn a frame away. *)
Context (accepted : X → list (list Z)) (content : X → Z → list Z) (lossy : bool).
Context (Hemit : ∀ o x, accepted (emit o x) = accepted x).
Context (Halloc : ∀ n x, wp (pbuf_alloc n) (λ p x', accepted x' = accepted x ∧ (p = 0 → lossy = true)) x).
Context (Htake : ∀ p l x, wp (pbuf_take p l) (λ _ x', accepted x' = accepted x ∧ content x' p = l) x).
Context (Hfree : ∀ p x, wp (pbuf_free p) (λ _ x', accepted x' = accepted x) x).

(** What the receiving side keeps of the driver's state. *)
Definition rx_view (s : rtl) := (rx_ring s, rx_buffers s, rx_idx s, rx_packets s).

(** lwIP may send from within [netif_input]; it either accepts the buffer or
    answers an error. *)
Context (Hinput : ∀ p s x, rtl_ok s → wp (netif_input p) (λ err t,
  rtl_ok t.1 ∧ rx_view t.1 = rx_view s ∧
  (err = ERR_OK ∧ accepted t.2 = accepted x ++ [content x p] ∨
   err ≠ ERR_OK ∧ accepted t.2 = accepted x ∧ lossy = true)) (s, x)).

(** [fs] were offered to lwIP between [x] and [x']. *)
Definition offered (fs : list (list Z)) (x x' : X) : Prop :=
  ∃ gs, accepted x' = accepted x ++ gs ∧ sublist gs fs ∧ (lossy = false → gs = fs).

Lemma hand_over_ok frame s x :
  rtl_ok s →
  wp (hand_over pbuf_alloc pbuf_take pbuf_free netif_input frame)
    (λ _ t, rtl_ok t.1 ∧ rx_view t.1 = rx_view s ∧ offered [frame] x t.2) (s, x).
Proof.
  intros Hok. unfold hand_over, in_io. apply wp_bind, wp_zoom. eapply wp_mono; [apply Halloc|].
  intros p x1 [E1 Hp]. cbn [fst snd]. destruct (Z.eqb_spec p 0) as [->|_]; cbn [negb].
  - apply wp_ret. split_and!; [done..|]. exists []. rewrite app_nil_r. split_and!; [done|apply sublist_nil_l|].
    intros Hl. specialize (Hp eq_refl). congruence.
  - apply wp_bind, wp_zoom. eapply wp_mono; [apply Htake|]. intros [] x2 [E2 Hc]. cbn [fst snd].
    apply wp_bind. eapply wp_mono; [by apply Hinput|]. intros err [s3 x3] (Hok3 & Hv & Hcase). cbn [fst snd] in *.
    destruct Hcase as [[-> E3]|(Hne & E3 & Hl)].
    + apply wp_ret. split_and!; [done..|]. exists [frame]. cbn [snd]. by rewrite E3, E2, E1, Hc.
    + destruct (Z.eqb_spec err ERR_OK) as [|_]; [done|]. apply wp_zoom. eapply wp_mono; [apply Hfree|].
      intros [] x4 E4. cbn [fst snd] in *. split_and!; [done..|]. exists []. rewrite app_nil_r.
      split_and!; [congruence|apply sublist_nil_l|congruence].
Qed.

Lemma dump_accepted prefix data len (s : rtl * X) (Q : unit → rtl * X → Prop) :
  len ≤ Z.of_nat (length data) → (∀ x, accepted x = accepted s.2 → Q tt (s.1, x)) →
  wp (rtl8169_dump_packet prefix data len) Q s.
Proof.
  intros Hl HQ. unfold rtl8169_dump_packet, in_rtl, in_io. apply wp_bind, wp_zoom, wp_gets. destruct (negb _).
  - apply wp_ret. destruct s. by apply HQ.
  - apply wp_zoom. apply (wp_keeps accepted); [by apply keeps_dump|]. intros [] x E. by apply HQ.
Qed.

Lemma offered_app x0 x1 x2 fs gs : offered fs x0 x1 → offered gs x1 x2 → offered (fs ++ gs) x0 x2.
Proof.
  intros (f & E1 & S1 & L1) (g & E2 & S2 & L2). exists (f ++ g). split_and!.
  - by rewrite E2, E1, app_assoc.
  - by apply sublist_app.
  - intros Hl. by rewrite L1, L2.
Qed.

Lemma receive_ok s x b len :
  rtl_ok s → rx_buffers s !! Z.to_nat (rx_idx s) = Some b → 0 < len ≤ 1536 →
  wp (receive pbuf_alloc pbuf_take pbuf_free netif_input (rx_idx s) len)
    (λ _ t, rtl_ok t.1 ∧
       rx_view t.1 = (rx_ring s, rx_buffers s, rx_idx s, u32 (rx_packets s + 1)) ∧
       offered [take (Z.to_nat len) b] x t.2) (s, x).
Proof.
  intros Hok Hb Hlen. pose proof Hok as [H1 H2 [H3 H3'] H4 [Ht Hr] [Hl1 Hl2]].
  assert (Hbl : length b = 1536%nat) by exact (Forall_lookup_1 _ _ _ _ H3' Hb).
  unfold receive, in_rtl. wp_steps. cbn [fst snd]. eapply wp_must; [rewrite znth_nat by lia; exact Hb|].
  wp_steps. apply dump_accepted; [lia|]. intros x1 E1. cbn [fst snd] in *.
  eapply wp_mono; [apply hand_over_ok|].
  - split; simpl; try done. split; [done|]. rewrite length_splice; rewrite ?length_take; lia.
  - intros [] [s2 x2] (Hok2 & Hv & Hof). split_and!; [done|exact Hv|]. cbn [snd] in *.
    destruct Hof as (g & Eg & Hg). exists g. by rewrite Eg, E1.
Qed.

(** [j] rounds into the poll. *)
Definition polled (s : rtl) (x : X) (j : Z) (t : rtl * X) : Prop :=
  rtl_ok t.1 ∧ offered (frames s (Z.to_nat j)) x t.2 ∧
  ∃ c, rx_view t.1 = (ring_after s j, rx_buffers s, on_ring (rx_idx s) j, c) ∧
    u32 c = u32 (rx_packets s + Z.of_nat (length (frames s (Z.to_nat j)))).

Lemma polled_start s x : rtl_ok s → polled s x 0 (s, x).
Proof.
  intros Hok. pose proof Hok as [_ _ _ _ [_ Hr] _]. split_and!; [done| |].
  - exists []. by rewrite app_nil_r.
  - exists (rx_packets s). unfold rx_view. cbn [fst snd]. rewrite ring_after_0.
    unfold on_ring, frames. simpl. by rewrite !Z.add_0_r, Z.mod_small.
Qed.

(** The descriptor of a round not made yet is the one the poll started with. *)
Lemma ring_after_at s j :
  rtl_ok s → 0 ≤ j < 64 →
  ring_after s j !! Z.to_nat (on_ring (rx_idx s) j) = rx_ring s !! Z.to_nat (on_ring (rx_idx s) j).
Proof.
  intros Hok Hj. pose proof Hok as [_ _ _ _ [_ Hr] _]. pose proof (on_ring_range (rx_idx s) j).
  unfold ring_after. rewrite list_lookup_imap. destruct (rx_ring s !! _); [|done]. simpl.
  unfold NUM_DESCS in Hr. by rewrite Z2Nat.id, on_ring_back, Z.ltb_irrefl by lia.
Qed.

Lemma given_back_ok s x j t d :
  rtl_ok t.1 → 0 ≤ j < 64 → rtl_ok s → rx_view t.1 = (ring_after s j, rx_buffers s, on_ring (rx_idx s) j, rx_packets t.1) →
  ring_after s j !! Z.to_nat (on_ring (rx_idx s) j) = Some d →
  offered (frames s (Z.to_nat (j + 1))) x t.2 →
  u32 (rx_packets t.1) = u32 (rx_packets s + Z.of_nat (length (frames s (Z.to_nat (j + 1))))) →
  polled s x (j + 1) (given_back (<[Z.to_nat (rx_idx t.1) := set_command (reset_command (rx_idx t.1)) d]> (rx_ring t.1)) t.1, t.2).
Proof.
  intros [H1 H2 H3 H4 [Ht Hr] H6] Hj Hs Hv Hd Hof Hc. unfold rx_view in Hv. injection Hv as E1 E2 E3.
  split_and!; [|done|].
  - split; simpl; rewrite ?length_insert; try done. split; [done|]. apply Z.mod_pos_bound. done.
  - exists (rx_packets t.1). split; [|done]. unfold rx_view, given_back. cbn [fst snd rx_ring rx_buffers rx_idx rx_packets].
    rewrite E1, E2, E3, ring_after_S, on_ring_next by done. done.
Qed.

Lemma frame_in_some s i d b :
  rx_ring s !! Z.to_nat i = Some d → rx_buffers s !! Z.to_nat i = Some b →
  let len := Z.land (command d) 0x3FFF in
  frame_in s i = if (0 <? len) && (len <=? 1536) then Some (take (Z.to_nat len) b) else None.
Proof. intros Hd Hb. unfold frame_in. by rewrite Hd, Hb. Qed.

Lemma u32_add_1 c n : u32 c = u32 n → u32 (u32 (c + 1)) = u32 (n + 1).
Proof. unfold u32. intros E. rewrite Z.mod_mod by done. by rewrite <-Z.add_mod_idemp_l, E, Z.add_mod_idemp_l. Qed.

Abbreviation round := (poll_round pbuf_alloc pbuf_take pbuf_free netif_input).

Lemma poll_stops s x j t d :
  polled s x j t → ring_after s j !! Z.to_nat (on_ring (rx_idx s) j) = Some d → Z.land (command d) RTL_DESC_OWN ≠ 0 →
  wp round (λ r t', r = inr tt ∧ t' = t) t.
Proof.
  intros (_ & _ & c & Hv & _) Hd Hown. destruct t as [t y]. cbn [fst snd] in *. unfold rx_view in Hv. injection Hv as E1 E2 E3 _.
  unfold poll_round, in_rtl. wp_steps. cbn [fst snd]. pose proof (on_ring_range (rx_idx s) j).
  eapply wp_must; [rewrite E1, E3, znth_nat by lia; exact Hd|].
  destruct (Z.eqb_spec (Z.land (command d) RTL_DESC_OWN) 0); [done|]. by apply wp_ret.
Qed.

Lemma poll_receives s x j t d b :
  rtl_ok s → 0 ≤ j < 64 → polled s x j t →
  rx_ring s !! Z.to_nat (on_ring (rx_idx s) j) = Some d → rx_buffers s !! Z.to_nat (on_ring (rx_idx s) j) = Some b →
  Z.land (command d) RTL_DESC_OWN = 0 →
  wp round (λ r t', r = inl tt ∧ polled s x (j + 1) t') t.
Proof.
  intros Hs Hj (Hok & Hof & c & Hv & Hc) Hd Hb Hown. destruct t as [t y]. cbn [fst snd] in *.
  unfold rx_view in Hv. injection Hv as E1 E2 E3 E4. subst c.
  pose proof (on_ring_range (rx_idx s) j) as Hr.
  unfold poll_round, in_rtl. wp_steps. cbn [fst snd].
  assert (Hd' := Hd). rewrite <-ring_after_at in Hd' by done.
  eapply wp_must; [rewrite E1, E3, znth_nat by lia; exact Hd'|].
  rewrite Hown, Z.eqb_refl. cbn [negb]. apply wp_bind.
  assert (EF : frames s (Z.to_nat (j + 1)) = frames s (Z.to_nat j) ++ option_list (frame_in s (on_ring (rx_idx s) j))).
  { replace (Z.to_nat (j + 1)) with (Datatypes.S (Z.to_nat j)) by lia. rewrite frames_S, Z2Nat.id by lia. done. }
  rewrite (frame_in_some _ _ _ _ Hd Hb) in EF.
  eapply (wp_mono _ (λ _ t', rtl_ok t'.1 ∧ rx_view t'.1 = (ring_after s j, rx_buffers s, on_ring (rx_idx s) j, rx_packets t'.1) ∧
    offered (frames s (Z.to_nat (j + 1))) x t'.2 ∧
    u32 (rx_packets t'.1) = u32 (rx_packets s + Z.of_nat (length (frames s (Z.to_nat (j + 1))))))).
  - revert EF. destruct ((0 <? Z.land (command d) 0x3FFF) && (Z.land (command d) 0x3FFF <=? 1536)) eqn:El; intros EF.
    + eapply wp_mono; [apply (receive_ok t y b)|].
      * done.
      * by rewrite E3, E2.
      * destr_bool. lia.
      * intros [] [t' y'] (Hok' & Hv' & Hof'). cbn [fst snd] in *. unfold rx_view in *. injection Hv' as F1 F2 F3 F4.
        split_and!; [done|congruence|rewrite EF; by eapply offered_app|].
        rewrite F4, EF, length_app. simpl. rewrite Nat2Z.inj_add, Z.add_assoc. by apply u32_add_1.
    + apply wp_ret. cbn [fst snd]. simpl in EF. rewrite app_nil_r in EF. rewrite EF. split_and!; try done.
      unfold rx_view. congruence.
  - intros [] [t' y'] (Hok' & Hv' & Hof' & Hc'). cbn [fst snd] in *. wp_steps. cbn [fst snd].
    assert (Hv2 := Hv'). unfold rx_view in Hv2. injection Hv2 as F1 F2 F3.
    eapply wp_must; [rewrite F1, F3, znth_nat by lia; exact Hd'|].
    apply wp_bind. eapply wp_must; [apply zset_lt; rewrite F3; destruct Hok' as [-> _ _ _ _ _]; lia|].
    wp_steps. split; [done|]. cbn [fst snd]. by apply (given_back_ok s x j (t', y')).
Qed.

Lemma poll_rounds s x k : rtl_ok s → pending s k →
  ∀ m j t, Z.of_nat m = k - j → 0 ≤ j → polled s x j t →
  wp (itern (Datatypes.S m) (λ _ : unit, round) tt) (λ r t', ∃ u, r = inr u ∧ polled s x k t') t.
Proof.
  intros Hs (Hk & Hready & Hlast). pose proof Hs as [Hr1 _ [Hr3 _] _ [_ Hi] _]. unfold NUM_DESCS in Hi.
  induction m as [|m IH]; intros j t Hm Hj Hp; (destruct (decide (j < k)) as [Hlt|Hge]; [|]); try lia; simpl.
  - pose proof (on_ring_range (rx_idx s) j).
    assert (j = k) as -> by lia. apply wp_bind.
    destruct (lookup_lt_is_Some_2 (ring_after s k) (Z.to_nat (on_ring (rx_idx s) k))) as [d Hd].
    { unfold ring_after. rewrite length_imap. lia. }
    eapply wp_mono; [eapply poll_stops; [done|exact Hd|]|].
    + destruct (decide (k = 64)) as [->|].
      * revert Hd. unfold ring_after. rewrite list_lookup_imap. destruct (rx_ring s !! _) as [d0|]; [|done]. simpl.
        pose proof (Z.mod_pos_bound (Z.of_nat (Z.to_nat (on_ring (rx_idx s) 64)) - rx_idx s) NUM_DESCS ltac:(done)).
        unfold NUM_DESCS in *. destruct (Z.ltb_spec ((Z.of_nat (Z.to_nat (on_ring (rx_idx s) 64)) - rx_idx s) mod 64) 64); [|lia].
        intros [= <-]. apply reset_command_own.
      * apply (Hlast d); [lia|]. rewrite <-ring_after_at; [done..|lia].
    + intros r t' [-> ->]. apply wp_ret. eauto.
  - pose proof (on_ring_range (rx_idx s) j). apply wp_bind.
    destruct (lookup_lt_is_Some_2 (rx_ring s) (Z.to_nat (on_ring (rx_idx s) j))) as [d Hd]; [lia|].
    destruct (lookup_lt_is_Some_2 (rx_buffers s) (Z.to_nat (on_ring (rx_idx s) j))) as [b Hb]; [lia|].
    eapply wp_mono; [eapply (poll_receives s x j t d b); try done; [lia|]|].
    + apply (Hready j); [lia|done].
    + intros r t' [-> Hp']. apply (IH (j + 1)); [lia..|done].
Qed.

(** C13. Draining the receive ring.  When the card has given back [k]
    descriptors, from the next one on, the poll ends after [k] rounds, however
    lwIP answers: the frames of the right size among them, and nothing else,
    were offered to lwIP in the order of the ring (all of them accepted, when
    it has buffers and turns none away), counted, and exactly those [k]
    descriptors went back to the card; the next one is the first not read. *)
Theorem rx_poll_delivers (s : rtl) (x : X) (k : Z) :
  rtl_ok s → pending s k →
  ∃ s' x', rtl8169_poll pbuf_alloc pbuf_take pbuf_free netif_input (s, x) = Ret (tt, (s', x')) ∧ rtl_ok s' ∧
    offered (frames s (Z.to_nat k)) x x' ∧
    rx_ring s' = ring_after s k ∧ rx_buffers s' = rx_buffers s ∧ rx_idx s' = (rx_idx s + k) mod 64 ∧
    u32 (rx_packets s') = u32 (rx_packets s + Z.of_nat (length (frames s (Z.to_nat k)))).
Proof.
  intros Hs Hpend. pose proof Hpend as (Hk & _).
  cut (wp (rtl8169_poll pbuf_alloc pbuf_take pbuf_free netif_input) (λ _ t, polled s x k t) (s, x)).
  { rewrite wp_run. intros ([] & [s' x'] & Hrun & Hok & Hof & c & Hv & Hc). cbn [fst snd] in *.
    unfold rx_view in Hv. injection Hv as E1 E2 E3 <-. exists s', x'. by split_and!. }
  apply (wp_loop_itern (Datatypes.S (Z.to_nat k))); [lia|].
  eapply wp_mono; [apply (poll_rounds s x k Hs Hpend _ 0); [lia..|by apply polled_start]|]. done.
Qed.
End receiving.

(** ** Concrete runs *)

(** A little lwIP: the accepted frames and one packet buffer. *)
#[local] Instance demo_console : Console (list (list Z) * list Z) := λ _ x, x.

Lemma boot_ok : rtl_ok rtl_boot.
Proof. split; try split; try done; apply Forall_replicate; done. Qed.

Lemma tx_frame_queued_witness :
  ∃ r s' x' flat,
    rtl8169_linkoutput (λ _ _, mret tt) 4096 [1; 2; 3] (rtl_boot, ([], [])) = Ret (r, (s', x')) ∧
    queued 4096 rtl_boot [1; 2; 3] no_desc flat r s'.
Proof. apply tx_frame_queued; [done|apply boot_ok|done|reflexivity]. Defined.

(** Only the last descriptor of the ring is the driver's, with a frame of
    three bytes. *)
Definition rx_demo : rtl :=
  given_back (<[63%nat := MkDesc 3 0 0 0]> (replicate 64 (MkDesc RTL_DESC_OWN 0 0 0)))
    (MkRtl 0 (rx_ring rtl_boot) (tx_ring rtl_boot) (replicate 64 (replicate 1536 7)) (tx_buffers rtl_boot) no_netif 0 62
       0 0 0 0 (last_tx rtl_boot) (last_rx rtl_boot) false true).

Lemma rx_demo_ok : rtl_ok rx_demo ∧ pending rx_demo 1.
Proof.
  split.
  - split; try split; try done; apply Forall_replicate; done.
  - split; [lia|]. split.
    + intros j d Hj. assert (j = 0) as -> by lia. change (Some (MkDesc 3 0 0 0) = Some d → Z.land (command d) RTL_DESC_OWN = 0).
      by intros [= <-].
    + intros d _. change (Some (MkDesc RTL_DESC_OWN 0 0 0) = Some d → Z.land (command d) RTL_DESC_OWN ≠ 0).
      by intros [= <-].
Qed.

Lemma rx_poll_delivers_witness :
  frames rx_demo 1 = [[7; 7; 7]] ∧
  ∃ s' x', rtl8169_poll (λ _, mret 1) (λ _ l, modify (λ x, (x.1, l))) (λ _, mret tt)
      (λ _, modify (λ t, (t.1, (t.2.1 ++ [t.2.2], t.2.2)));; mret ERR_OK) (rx_demo, ([], [])) = Ret (tt, (s', x')) ∧
    rtl_ok s' ∧ offered fst false (frames rx_demo (Z.to_nat 1)) ([], []) x' ∧
    rx_ring s' = ring_after rx_demo 1 ∧ rx_buffers s' = rx_buffers rx_demo ∧ rx_idx s' = (rx_idx rx_demo + 1) mod 64 ∧
    u32 (rx_packets s') = u32 (rx_packets rx_demo + Z.of_nat (length (frames rx_demo (Z.to_nat 1)))).
Proof.
  destruct rx_demo_ok as [Hok Hp]. split; [reflexivity|].
  apply (rx_poll_delivers _ _ _ _ fst (λ x _, x.2) false); try done.
  intros p s x Hs. unfold wp; simpl. split_and!; [done..|]. left. done.
Defined.
