(* ===== verification/NetStack.v ===== *)
(** * NetStack: the language-model client and ping (src/drivers/net/net_stack.c)

    The TCP, ARP and raw-socket calls of lwIP, the shell, the console capture
    and the clock are arguments; all of them may act on this component's state
    as well, since a command run for the model can start a new request.  A
    received packet is the bytes it holds. *)

From Stdlib Require Import ZArith Lia String Ascii.
From stdpp Require Import base numbers list option strings.
From S2P Require Import Prelude Libc CText.
Open Scope Z_scope.

Definition QUOTE : string := String (ascii_of_nat 34) EmptyString.
Definition CRLF : string := String (ascii_of_nat 13) (String (ascii_of_nat 10) EmptyString).
Definition OLLAMA_MODEL : string := "gemma:12b".

(** A [\n] of these literals is a backslash and an n, as in the C source. *)
Definition SYSTEM_PROMPT : string :=
   "You ARE JARVIS, the autonomous execution kernel of Jarvis OS. YOU ARE IN AN AUTOMATED EXECUTION LOOP. " +:+
   "Every message is a task. Every task MUST be executed immediately." +:+
   "\n\nFILESYSTEM IDENTITY:\n" +:+
   "  - FAT32 RAM disk. Root is '/'. This is the ENTIRE filesystem.\n" +:+
   "  - The current working directory (CWD) is given to you in every message.\n" +:+
   "\nRESPONSE FORMAT — NON-NEGOTIABLE:\n" +:+
   "  RULE 1: Wrap EVERY command in <EXEC_CMD:command> — no exceptions.\n" +:+
   "  RULE 2: ONE command per <EXEC_CMD:> tag. Never chain with && | ;.\n" +:+
   "  RULE 3: ZERO markdown. ZERO backticks. ZERO text explanations.\n" +:+
   "  RULE 4: Output ONLY the <EXEC_CMD:command> and absolutely nothing else.\n" +:+
   "\nAVAILABLE COMMANDS:\n" +:+
   "  ls [path]           - list files/dirs\n" +:+
   "  cd <path>           - change directory\n" +:+
   "  cat <file>          - display file contents\n" +:+
   "  touch <file>        - create empty file\n" +:+
   "  write <file> <text> - write text to a file\n" +:+
   "  echo <text>         - print text to screen\n" +:+
   "  rm <file>           - delete file\n" +:+
   "  mkdir <dir>         - create directory\n" +:+
   "  rmdir <dir>         - remove directory\n" +:+
   "  clear               - clear screen\n" +:+
   "  ps                  - list processes\n" +:+
   "  mem                 - memory usage\n" +:+
   "  sysinfo             - full system report\n" +:+
   "  cpuid               - CPU identity\n" +:+
   "  arch                - CPU architecture\n" +:+
   "  agent_ctx_set <k> <v> - Save context to DB\n" +:+
   "  agent_ctx_get <k>     - Retrieve context from DB\n" +:+
   "  pci storage         - scan PCI storage\n" +:+
   "  pci network         - scan PCI network\n" +:+
   "  pci audio           - scan PCI audio\n" +:+
   "  ahci                - scan AHCI controllers\n" +:+
   "  ifconfig            - network interface\n" +:+
   "  netstat             - network statistics\n" +:+
   "  ping <ip>           - ICMP ping\n" +:+
   "  reboot              - restart system\n" +:+
   "  stop                - end task\n".

Definition ERR_OK : Z := 0.
Definition ERR_MEM : Z := -1.
Definition ICMD_MAX : Z := 255.

Record net := MkNet {
  global_prompt : list Z;
  global_ip_str : list Z;
  rx_accum : list Z;         (* the first rx_accum_len bytes of the array *)
  ping_pcb : Z;
  ping_start_ms : Z;
  ping_target : Z
}.
Definition set_prompt p n := MkNet p (global_ip_str n) (rx_accum n) (ping_pcb n) (ping_start_ms n) (ping_target n).
Definition set_ip i n := MkNet (global_prompt n) i (rx_accum n) (ping_pcb n) (ping_start_ms n) (ping_target n).
Definition set_accum a n := MkNet (global_prompt n) (global_ip_str n) a (ping_pcb n) (ping_start_ms n) (ping_target n).
Definition set_ping_pcb p n := MkNet (global_prompt n) (global_ip_str n) (rx_accum n) p (ping_start_ms n) (ping_target n).
Definition set_ping_start t n := MkNet (global_prompt n) (global_ip_str n) (rx_accum n) (ping_pcb n) t (ping_target n).
Definition set_ping_target t n := MkNet (global_prompt n) (global_ip_str n) (rx_accum n) (ping_pcb n) (ping_start_ms n) t.
Definition net_boot : net := MkNet [] [] [] 0 0 0.

(** ** Text *)

(** The digits of [n], least significant first, then reversed in place. *)
Definition itoa {S} (n : Z) : comp S (list Z) :=
  let sign := n in
  let n := if n <? 0 then - n else n in
  digits ← loop (λ '(n, acc),
    let acc := acc ++ [n mod 10 + 48] in
    let n := n / 10 in
    mret (if 0 <? n then inl (n, acc) else inr acc)) (n, []);
  mret (reverse (if sign <? 0 then digits ++ [45] else digits)).

Definition escape_char (c : Z) : list Z :=
  if (c =? 34) || (c =? 92) then [92; c]
  else if c =? 10 then [92; 110]
  else if c =? 13 then [92; 114]
  else if c =? 9 then [92; 116]
  else [c].

(** [room] is what is left of [dst_max - 2]. *)
Fixpoint escape (src : list Z) (room : Z) : list Z :=
  match src with
  | [] => []
  | c :: src' =>
      if 0 <? room then escape_char c ++ escape src' (room - Z.of_nat (length (escape_char c))) else []
  end.
Definition json_escape (src : list Z) (dst_max : Z) : list Z := escape src (dst_max - 2).

Definition hex_value (c : Z) : Z :=
  if (48 <=? c) && (c <=? 57) then c - 48
  else if (97 <=? c) && (c <=? 102) then c - 97 + 10
  else if (65 <=? c) && (c <=? 70) then c - 65 + 10
  else 0.
Definition decode_unicode_escape (p : list Z) : Z :=
  Z.land (fold_left (λ val c, Z.lor (Z.shiftl val 4) (hex_value c)) (take 4 p) 0) 0x7F.

(** Where [pat] first occurs in [l]: what follows it. *)
Definition after (pat l : list Z) : option (list Z) :=
  match find_sub pat l with
  | Some k => Some (drop (k + length pat) l)
  | None => None
  end.

(** The optional spaces and the opening of a command tag, and the spaces after it. *)
Definition open_tag (l : list Z) : option (list Z) :=
  match strip_prefix (bytes_of "EXEC_CMD:") (skip_spaces l) with
  | Some r => Some (skip_spaces r)
  | None => None
  end.

Section client.
Context {X : Type} `{Console X}.
Abbreviation M := (comp (net * X)).

(** The shell, which answers what its argument reads afterwards; the capture
    of the console; the working directory. *)
Context (shell_execute : list Z → M (list Z)).
Context (screen_start_capture screen_stop_capture : M unit) (screen_get_capture : M (list Z))
  (screen_set_capture : list Z → M unit) (fat32_cwd_path : M (list Z)).
(** lwIP. *)
Context (tcp_new : M Z) (tcp_close tcp_recv tcp_err : Z → M unit) (tcp_recved : Z → Z → M unit)
  (tcp_connect : Z → Z → Z → M Z) (tcp_write : Z → list Z → M Z) (tcp_output : Z → M Z)
  (pbuf_free : M unit) (ip4addr_aton : list Z → option Z)
  (netif_default : M bool) (etharp_query : Z → M unit).

Definition in_net {A} (m : comp net A) : M A := zoom fst (λ n s, (n, s.2)) m.
Definition in_x {A} (m : comp X A) : M A := zoom snd (λ x s, (s.1, x)) m.
Definition say (s : string) : M unit := in_x (print_string s).

(** *** The parser *)

(** A decoded character: kept when a command is being caught and there is
    room, printed when none is. *)
Definition keep_char (catching : bool) (cmd : list Z) (c : Z) : M (list Z) :=
  if catching && (Z.of_nat (length cmd) <? ICMD_MAX) then mret (cmd ++ [c])
  else if negb catching then in_x (print_char c);; mret cmd
  else mret cmd.

(** Announce a command. *)
Definition announce (cmd : list Z) : M unit :=
  in_x (color COLOR_LIGHT_CYAN;; print_string (NL +:+ "[JARVIS Agent >> ");; print_bytes cmd;;
        print_string ("]" +:+ NL);; reset_text_color).

(** What a feedback prompt is made of: the command and the console's output. *)
Definition feedback_text (cmd output : list Z) : M (list Z) :=
  f ← strcat_in 2048 [] (bytes_of "[AGENT EXEC RESULT] `");
  f ← strcat_in 2048 f cmd;
  f ← strcat_in 2048 f (bytes_of ("` \nOutput:\n" +:+ QUOTE));
  let p_len := Z.of_nat (length f) in
  let out_len := Z.of_nat (length output) in
  let out_len := if 2000 - p_len - 60 <? out_len then 2000 - p_len - 60 else out_len in
  f ← strcat_in 2048 f (take (Z.to_nat out_len) output);
  strcat_in 2048 f (bytes_of (QUOTE +:+ "\nNext? (Use <EXEC_CMD:stop> if done)")).

Definition ollama_feedback_request (ip_str feedback : list Z) : M unit :=
  in_net (modify (set_accum []));;
  g ← in_net (gets global_prompt);
  if Z.of_nat (length g) + Z.of_nat (length feedback) + 5 <? 8192 then
    g ← strcat_in 8192 g [10; 10];
    g ← strcat_in 8192 g feedback;
    in_net (modify (set_prompt g));;
    pcb ← tcp_new;
    if pcb =? 0 then mret tt
    else
      match ip4addr_aton ip_str with
      | None => tcp_close pcb
      | Some server => tcp_recv pcb;; tcp_err pcb;; _ ← tcp_connect pcb server 11434; mret tt
      end
  else say ("Network: Memory limit reached for autonomous chain. Halting." +:+ NL).

(** A closed tag: run the command and send the model what it printed. *)
Definition run_with_feedback (cmd : list Z) : M unit :=
  announce cmd;;
  screen_start_capture;;
  cmd ← shell_execute cmd;
  screen_stop_capture;;
  in_x (color COLOR_LIGHT_MAGENTA);;
  output ← screen_get_capture;
  let output := trim_end 10 output in
  screen_set_capture output;;
  feedback ← feedback_text cmd output;
  say (NL +:+ "[Network: Queuing Agent Feedback...]" +:+ NL);;
  ip ← in_net (gets global_ip_str);
  ollama_feedback_request ip feedback.

(** One round of the parser: the text left, the command caught so far and
    whether one is being caught. *)
Definition parse_round (st : list Z * list Z * bool) : M ((list Z * list Z * bool) + unit) :=
  let '(resp, cmd, catching) := st in
  match resp with
  | [] => mret (inr tt)
  | c :: r1 =>
      let peek (i : nat) := nth i r1 0 in
      if c =? 34 then mret (inr tt)
      else if (c =? 92) && (peek 0%nat =? 117) && negb (peek 1%nat =? 0) && negb (peek 2%nat =? 0)
           && negb (peek 3%nat =? 0) && negb (peek 4%nat =? 0) then
        let decoded := decode_unicode_escape (drop 1 r1) in
        let resp := drop 5 r1 in
        if decoded =? 60 then
          match open_tag resp with
          | Some r => mret (inl (r, [], true))
          | None => cmd ← keep_char catching cmd decoded; mret (inl (resp, cmd, catching))
          end
        else if (decoded =? 62) && catching then
          let cmd := c_text (trim_end 32 cmd) in
          announce cmd;;
          _ ← shell_execute cmd;
          in_x (color COLOR_LIGHT_MAGENTA);;
          mret (inl (resp, [], false))
        else cmd ← keep_char catching cmd decoded; mret (inl (resp, cmd, catching))
      else if (c =? 92) && (peek 0%nat =? 110) then
        (if negb catching then in_x (print_char 10) else mret tt);; mret (inl (drop 1 r1, cmd, catching))
      else if (c =? 92) && (peek 0%nat =? 116) then
        (if negb catching then in_x (print_char 32) else mret tt);; mret (inl (drop 1 r1, cmd, catching))
      else if (c =? 92) && (peek 0%nat =? 34) then
        cmd ← keep_char catching cmd 34; mret (inl (drop 1 r1, cmd, catching))
      else if (c =? 92) && (peek 0%nat =? 92) then
        cmd ← keep_char catching cmd 92; mret (inl (drop 1 r1, cmd, catching))
      else
        match (if negb catching && (c =? 60) then open_tag r1 else None) with
        | Some r => mret (inl (r, [], true))
        | None =>
            if catching && (c =? 62) then
              let cmd := c_text (trim_end 32 cmd) in
              if is_text cmd "stop" || is_text cmd "done" then
                in_x (color COLOR_LIGHT_GREEN;;
                      print_string (NL +:+ "[JARVIS Agent Sequence Completed]" +:+ NL);;
                      reset_text_color);;
                mret (inr tt)
              else run_with_feedback cmd;; mret (inr tt)
            else cmd ← keep_char catching cmd c; mret (inl (r1, cmd, catching))
        end
  end.

Definition ollama_parse_json (payload : list Z) : M unit :=
  let body := default payload (after (bytes_of (CRLF +:+ CRLF)) payload) in
  match after (bytes_of (QUOTE +:+ "response" +:+ QUOTE +:+ ":" +:+ QUOTE)) body with
  | None => mret tt
  | Some resp =>
      in_x (color COLOR_LIGHT_MAGENTA;; print_string (NL +:+ "AI: "));;
      loop parse_round (resp, [], false);;
      in_x reset_text_color
  end.

(** *** Receiving *)

(** [p] is [None] when the connection was closed. *)
Definition ollama_recv_cb (tpcb : Z) (p : option (list Z)) : M Z :=
  match p with
  | None =>
      tcp_close tpcb;;
      a ← in_net (gets rx_accum);
      (if 0 <? Z.of_nat (length a) then ollama_parse_json (c_text a) else mret tt);;
      in_x (reset_text_color;; color COLOR_LIGHT_GREEN;; print_string (NL +:+ "JARVIS [/] $ ");; reset_text_color);;
      in_net (modify (set_accum []));;
      mret ERR_OK
  | Some bytes =>
      a ← in_net (gets rx_accum);
      let space := 8192 - Z.of_nat (length a) - 1 in
      let copy_len := Z.of_nat (length bytes) in
      let copy_len := if space <? copy_len then space else copy_len in
      (if 0 <? copy_len then in_net (modify (set_accum (a ++ take (Z.to_nat copy_len) bytes))) else mret tt);;
      tcp_recved tpcb (Z.of_nat (length bytes));;
      pbuf_free;;
      mret ERR_OK
  end.

Definition ollama_err_cb (err : Z) : M unit :=
  in_x (print_string (NL +:+ "Network: TCP error (err=");; kprint_dec err;;
        print_string (") — Ollama unreachable or reset." +:+ NL +:+ "JARVIS [/] $ "));;
  in_net (modify (set_accum [])).

Definition mock_payload : list Z :=
  bytes_of ("{" +:+ QUOTE +:+ "model" +:+ QUOTE +:+ ":" +:+ QUOTE +:+ OLLAMA_MODEL +:+ QUOTE +:+ "," +:+
            QUOTE +:+ "response" +:+ QUOTE +:+ ":" +:+ QUOTE +:+ "Scanning your system now!\n" +:+
            "<EXEC_CMD:sysinfo>" +:+ " Also listing storage devices: " +:+ "<EXEC_CMD:pci storage>" +:+
            QUOTE +:+ "}").

Definition ollama_mock_intercept : M unit :=
  say ("Simulating AI Agent response (offline)..." +:+ NL);;
  ollama_parse_json mock_payload.

(** *** Sending *)

Definition body_head : list Z :=
  bytes_of ("{" +:+ QUOTE +:+ "model" +:+ QUOTE +:+ ":" +:+ QUOTE +:+ OLLAMA_MODEL +:+ QUOTE +:+ "," +:+
            QUOTE +:+ "system" +:+ QUOTE +:+ ":" +:+ QUOTE +:+ SYSTEM_PROMPT +:+ QUOTE +:+ "," +:+
            QUOTE +:+ "prompt" +:+ QUOTE +:+ ":" +:+ QUOTE).
Definition body_tail : list Z := bytes_of (QUOTE +:+ "," +:+ QUOTE +:+ "stream" +:+ QUOTE +:+ ":false}").

(** The body of the request for the prompt. *)
Definition json_body (prompt : list Z) : M (list Z) :=
  let escaped := json_escape prompt 8192 in
  b ← strcat_in 16384 [] body_head;
  b ← (if Z.of_nat (length b) + Z.of_nat (length escaped) <? 16384 - 24 then strcat_in 16384 b escaped
       else say ("Network: Prompt truncated (too long)." +:+ NL);; mret b);
  strcat_in 16384 b body_tail.

Definition request_head (ip : list Z) : list Z :=
  bytes_of ("POST /api/generate HTTP/1.1" +:+ CRLF) ++ bytes_of "Host: " ++ ip ++ bytes_of (":11434" +:+ CRLF) ++
  bytes_of ("Content-Type: application/json" +:+ CRLF) ++ bytes_of ("Connection: close" +:+ CRLF) ++
  bytes_of "Content-Length: ".

Definition http_request (ip body : list Z) : M (list Z) :=
  len_str ← itoa (Z.of_nat (length body));
  r ← strcat_in 16384 [] (request_head ip);
  r ← strcat_in 16384 r len_str;
  r ← strcat_in 16384 r (bytes_of (CRLF +:+ CRLF));
  strcat_in 16384 r body.

Definition ollama_connected_cb (tpcb err : Z) : M Z :=
  if negb (err =? ERR_OK) then
    in_x (print_string "Network: Connection to Ollama FAILED (err=";; kprint_dec err;;
          print_string (")." +:+ NL +:+ "JARVIS [/] $ "));;
    mret err
  else
    say ("Network: Connected! Model: " +:+ OLLAMA_MODEL +:+ NL);;
    prompt ← in_net (gets global_prompt);
    body ← json_body prompt;
    ip ← in_net (gets global_ip_str);
    request ← http_request ip body;
    let req_len := Z.of_nat (length request) in
    if 16384 <=? req_len then
      say ("Network: Request overflowed buffer! Aborting." +:+ NL);; tcp_close tpcb;; mret ERR_MEM
    else
      write_err ← tcp_write tpcb request;
      if negb (write_err =? ERR_OK) then
        in_x (print_string "Network: tcp_write() FAILED (err=";; kprint_dec write_err;;
              print_string (") — request too large for TCP_SND_BUF!" +:+ NL));;
        tcp_close tpcb;;
        mret write_err
      else
        out_err ← tcp_output tpcb;
        (if negb (out_err =? ERR_OK) then
           in_x (print_string "Network: tcp_output() FAILED (err=";; kprint_dec out_err;; print_string (")" +:+ NL))
         else mret tt);;
        in_x (print_string "Network: HTTP POST sent (";; kprint_dec req_len;;
              print_string (" bytes). Waiting for Ollama..." +:+ NL));;
        mret ERR_OK.

(** The prompt with the working directory, in an array of 1024. *)
Definition context_prompt (prompt : list Z) : M (list Z) :=
  cwd ← fat32_cwd_path;
  c ← strcat_in 1024 [] (bytes_of "[JARVIS OS STATE] CWD=");
  c ← strcat_in 1024 c cwd;
  c ← strcat_in 1024 c (bytes_of " | Task: ");
  let max_user := 1024 - Z.of_nat (length c) - 64 in
  let max_user := if max_user <? 0 then 0 else max_user in
  let user_len := if max_user <? Z.of_nat (length prompt) then max_user else Z.of_nat (length prompt) in
  c ← strcat_in 1024 c (take (Z.to_nat user_len) prompt);
  strcat_in 1024 c (bytes_of " | EXECUTE commands now.").

Definition ollama_request (ip_str prompt : list Z) : M unit :=
  in_net (modify (set_accum []));;
  c ← context_prompt prompt;
  in_net (modify (set_prompt (take 1023 c)));;
  in_net (modify (set_ip (take 31 ip_str)));;
  pcb ← tcp_new;
  if pcb =? 0 then say ("Network: Out of memory for TCP socket." +:+ NL)
  else
    match ip4addr_aton ip_str with
    | None => say ("Network: Invalid IP address format!" +:+ NL);; tcp_close pcb
    | Some server =>
        d ← netif_default;
        (if d : bool then
           etharp_query server;;
           in_x (print_string "Network: ARP pre-warm sent for ";; print_bytes ip_str;; print_string NL)
         else mret tt);;
        tcp_recv pcb;;
        tcp_err pcb;;
        e ← tcp_connect pcb server 11434;
        if negb (e =? ERR_OK) then say ("Network: tcp_connect() failed." +:+ NL);; tcp_close pcb else mret tt
    end.

(** *** Ping *)

Context (timer_get_ticks : M Z) (raw_new : Z → M Z) (raw_start : Z → M unit) (raw_pbuf_alloc : Z → M Z)
  (raw_sendto : Z → list Z → Z → M unit) (inet_chksum : list Z → Z).

(** [p] is the packet handed over, [addr] the sender's address as text. *)
Definition ping_recv_cb (p addr : list Z) : M Z :=
  if 8 <=? Z.of_nat (length p) then
    if nth 0 p 0 =? 0 then
      now ← timer_get_ticks;
      start ← in_net (gets ping_start_ms);
      let rtt := u32 (u32 (now - start) * 10) in
      in_x (print_string "64 bytes from ";; print_bytes addr;; print_string ": icmp_seq=";;
            kprint_dec (Z.lor (Z.shiftl (nth 6 p 0) 8) (nth 7 p 0));; print_string " time=";; kprint_dec rtt;;
            print_string ("ms" +:+ NL));;
      pbuf_free;;
      mret 1
    else mret 0
  else mret 0.

(** An echo request with sequence number 1, its checksum over the header with
    a zero in its place. *)
Definition echo_header : list Z :=
  let h := [8; 0; 0; 0; 0xBE; 0xEF; 0; 1] in st16 h 2 (inet_chksum h).

Definition ping_request (ip_str : list Z) : M unit :=
  match ip4addr_aton ip_str with
  | None => say ("Ping: Invalid IP address." +:+ NL)
  | Some target =>
      in_net (modify (set_ping_target target));;
      pcb ← in_net (gets ping_pcb);
      pcb ← (if pcb =? 0 then
               pcb ← raw_new 1;
               in_net (modify (set_ping_pcb pcb));;
               (if negb (pcb =? 0) then raw_start pcb else mret tt);;
               mret pcb
             else mret pcb);
      if pcb =? 0 then say ("Ping: No RAW PCB." +:+ NL)
      else
        p ← raw_pbuf_alloc 8;
        if p =? 0 then say ("Ping: Out of memory." +:+ NL)
        else
          in_x (print_string "PING ";; print_bytes ip_str;; print_string " (";; print_bytes ip_str;;
                print_string ("): 56 data bytes" +:+ NL));;
          now ← timer_get_ticks;
          in_net (modify (set_ping_start now));;
          raw_sendto pcb echo_header target;;
          pbuf_free
  end.
End client.
