(* ===== verification/NetStackFacts.v ===== *)
(** * NetStackFacts: properties of the language-model client

    The prompt's escaping against a JSON reader, the request that is sent, the
    accumulation of a response, and the parser: safe on any reply, and what it
    does with a reply that holds a command. *)

From Stdlib Require Import ZArith Lia String Ascii.
From stdpp Require Import base numbers list option strings.
From S2P Require Import Prelude Libc CText NetStack.
Open Scope Z_scope.

(** ** Escaping *)

Definition unescape_char (c : Z) : option Z :=
  if c =? 110 then Some 10 else if c =? 114 then Some 13 else if c =? 116 then Some 9
  else if (c =? 34) || (c =? 92) then Some c else None.

(** A JSON string: its contents up to the closing quote, and what follows. *)
Fixpoint read_json_string (l : list Z) : option (list Z * list Z) :=
  match l with
  | [] => None
  | c :: t =>
      if c =? 34 then Some ([], t)
      else if c =? 92 then
        match t with
        | [] => None
        | d :: t' =>
            match unescape_char d, read_json_string t' with
            | Some e, Some (s, r) => Some (e :: s, r)
            | _, _ => None
            end
        end
      else match read_json_string t with Some (s, r) => Some (c :: s, r) | None => None end
  end.

Lemma escape_char_length c : (1 ≤ length (escape_char c) ≤ 2)%nat.
Proof. unfold escape_char. repeat case_match; simpl; lia. Qed.

Lemma read_escaped c l s r :
  read_json_string l = Some (s, r) → read_json_string (escape_char c ++ l) = Some (c :: s, r).
Proof.
  intros Hl. unfold escape_char.
  destruct (Z.eqb_spec c 34) as [->|H1]; [simpl; by rewrite Hl|].
  destruct (Z.eqb_spec c 92) as [->|H2]; [simpl; by rewrite Hl|].
  destruct (Z.eqb_spec c 10) as [->|]; [simpl; by rewrite Hl|].
  destruct (Z.eqb_spec c 13) as [->|]; [simpl; by rewrite Hl|].
  destruct (Z.eqb_spec c 9) as [->|]; [simpl; by rewrite Hl|]. simpl.
  destruct (Z.eqb_spec c 34), (Z.eqb_spec c 92); try done. by rewrite Hl.
Qed.

Lemma escape_length s room : Z.of_nat (length (escape s room)) ≤ Z.max 0 (room + 1).
Proof.
  revert room. induction s as [|c s IH]; intros room; simpl; [lia|]. destruct (Z.ltb_spec 0 room); [|simpl; lia].
  rewrite length_app. pose proof (escape_char_length c). specialize (IH (room - Z.of_nat (length (escape_char c)))). lia.
Qed.

Lemma read_escape rest s room :
  ∃ k, read_json_string (escape s room ++ 34 :: rest) = Some (take k s, rest) ∧
    (Z.of_nat (length (concat (map escape_char s))) ≤ room → k = length s).
Proof.
  revert room. induction s as [|c s IH]; intros room; simpl; [by exists O|].
  pose proof (escape_char_length c). destruct (Z.ltb_spec 0 room).
  - destruct (IH (room - Z.of_nat (length (escape_char c)))) as (k & E & Hk). exists (Datatypes.S k).
    rewrite <-app_assoc. split; [by apply read_escaped|]. rewrite length_app. intros Hl. rewrite Hk; [done|lia].
  - exists O. split; [done|]. rewrite length_app. lia.
Qed.

(** C32. Escaping a prompt.  In an array of [m] characters the escaped text
    and its NUL fit; a JSON reader that meets it before a closing quote takes
    that quote for the end of the string and reads back the text, cut after
    some number of characters, and not cut when the escaped text has room.  So
    no prompt can end the string early or leave it open. *)
Theorem json_escape_roundtrip (s : list Z) (m : Z) (rest : list Z) :
  1 ≤ m →
  Z.of_nat (length (json_escape s m)) ≤ m - 1 ∧
  ∃ k, read_json_string (json_escape s m ++ 34 :: rest) = Some (take k s, rest) ∧
    (Z.of_nat (length (concat (map escape_char s))) ≤ m - 2 → k = length s).
Proof.
  intros Hm. split; [|apply read_escape]. unfold json_escape. pose proof (escape_length s (m - 2)). lia.
Qed.

Lemma json_escape_roundtrip_witness :
  Z.of_nat (length (json_escape [34; 97; 10; 92; 98] 8)) ≤ 7 ∧
  ∃ k, read_json_string (json_escape [34; 97; 10; 92; 98] 8 ++ 34 :: [44]) = Some (take k [34; 97; 10; 92; 98], [44]) ∧
    (7 ≤ 6 → k = 5%nat).
Proof. apply (json_escape_roundtrip [34; 97; 10; 92; 98] 8 [44]). lia. Defined.

(** ** Numbers *)

Lemma dec_value_snoc_rev n acc :
  dec_value (reverse (acc ++ [n mod 10 + 48])) = (n mod 10) * 10 ^ Z.of_nat (length acc) + dec_value (reverse acc).
Proof. rewrite reverse_app, reverse_singleton. simpl. rewrite dec_value_cons, length_reverse. f_equal. f_equal. lia. Qed.

Lemma itoa_ok {S} n (s : S) :
  0 ≤ n < 10 ^ 15 →
  wp (itoa n) (λ ds s', s' = s ∧ Forall is_dec ds ∧ dec_value ds = n ∧ (1 ≤ length ds ≤ 15)%nat) s.
Proof.
  intros Hn. unfold itoa. destruct (Z.ltb_spec n 0); [lia|]. apply wp_bind.
  apply (wp_loop (λ '(k, acc) t, t = s ∧ 0 ≤ k ∧ Forall is_dec acc ∧ k * 10 ^ Z.of_nat (length acc) + dec_value (reverse acc) = n ∧
      0 ≤ dec_value (reverse acc) ∧ (acc = [] ∨ 0 < k ∧ 10 ^ Z.of_nat (length acc) ≤ n)) (λ '(k, _) _, k)).
  - split_and!; [done|lia|by constructor| |done|by left]. change (dec_value (reverse [])) with 0. simpl. lia.
  - lia.
  - intros [k acc] t (_ & ? & _). done.
  - intros [k acc] t (-> & Hk & Ha & Hv & Hv0 & Hl). apply wp_ret.
    assert (Ha' : Forall is_dec (acc ++ [k mod 10 + 48])).
    { apply Forall_app_2; [done|]. constructor; [|constructor]. unfold is_dec. dlia. }
    pose proof (dec_value_snoc_rev k acc) as Ev.
    pose proof (Z.pow_pos_nonneg 10 (Z.of_nat (length acc)) ltac:(lia) ltac:(lia)) as Hp.
    assert (Elen : Z.of_nat (length (acc ++ [k mod 10 + 48])) = Z.of_nat (length acc) + 1) by (rewrite length_app; simpl; lia).
    pose proof (Z.div_mod k 10 ltac:(lia)) as Hdm. pose proof (Z.mod_pos_bound k 10 ltac:(lia)) as Hmb.
    assert (Elt : (length acc < 15)%nat).
    { destruct Hl as [->|[_ Hl]]; [simpl; lia|]. destruct (decide (length acc < 15)%nat); [done|exfalso].
      assert (10 ^ 15 ≤ 10 ^ Z.of_nat (length acc)) by (apply Z.pow_le_mono_r; lia). lia. }
    destruct (Z.ltb_spec 0 (k / 10)).
    + split; [|dlia]. rewrite Ev, Elen, Z.pow_add_r by lia. split_and!; [done|lia|done|nia|nia|]. right. split; [lia|nia].
    + apply wp_ret. assert (Hk10 : k / 10 = 0) by (apply Z.le_antisymm; [lia|apply Z.div_pos; lia]).
      split_and!; [done|by apply Forall_reverse| |rewrite length_reverse, length_app; simpl; lia..].
      rewrite Ev. nia.
Qed.

(** ** Sending *)

(** The texts fit their arrays. *)
Definition net_ok (n : net) : Prop :=
  Z.of_nat (length (global_prompt n)) ≤ 8191 ∧ Z.of_nat (length (global_ip_str n)) ≤ 31 ∧
  Z.of_nat (length (rx_accum n)) ≤ 8191.

(** A request: the headers, the length of the body in decimal, and the body
    with the escaped prompt; all of it fits the array. *)
Definition post_ok (n : net) (r : list Z) : Prop :=
  ∃ len_str,
    let body := body_head ++ json_escape (global_prompt n) 8192 ++ body_tail in
    r = request_head (global_ip_str n) ++ len_str ++ bytes_of (CRLF +:+ CRLF) ++ body ∧
    Forall is_dec len_str ∧ dec_value len_str = Z.of_nat (length body) ∧ Z.of_nat (length r) < 16384.

Lemma length_body_head : Z.of_nat (length body_head) < 3000.
Proof. vm_compute. reflexivity. Qed.
Lemma length_body_tail : Z.of_nat (length body_tail) = 17.
Proof. reflexivity. Qed.
Lemma length_request_head ip : Z.of_nat (length (request_head ip)) ≤ 240 + Z.of_nat (length ip).
Proof.
  unfold request_head. rewrite !length_app.
  assert (H : ∀ s, (length (bytes_of s) ≤ 40)%nat → (length (bytes_of s) ≤ 40)%nat) by done.
  repeat match goal with |- context [length (bytes_of ?s)] => generalize (H s ltac:(simpl; lia)); generalize (length (bytes_of s)); intros end.
  lia.
Qed.

Section requests.
Context {X : Type} `{Console X} (sent : X → list (list Z)).
Context (tcp_close : Z → comp (net * X) unit) (tcp_write : Z → list Z → comp (net * X) Z) (tcp_output : Z → comp (net * X) Z).
Context (Hemit : ∀ o x, sent (emit o x) = sent x).

(** The state of the client, and what was handed to TCP. *)
Definition seen (t : net * X) : net * list (list Z) := (t.1, sent t.2).
Context (Hclose : ∀ p, keeps seen (tcp_close p)) (Houtput : ∀ p, keeps seen (tcp_output p)).
Context (Hwrite : ∀ p r s, wp (tcp_write p r) (λ _ t, seen t = (s.1, sent s.2 ++ [r])) s).

Lemma keeps_in_x {A} (m : comp X A) : keeps sent m → keeps seen (in_x m).
Proof.
  intros Hm s. unfold in_x. apply wp_zoom. eapply wp_mono; [apply Hm|]. intros a x E. unfold seen. cbn [fst snd]. by rewrite E.
Qed.

Lemma json_body_ok (prompt : list Z) (s : net * X) :
  Z.of_nat (length prompt) ≤ 8191 →
  wp (json_body prompt) (λ b t, t = s ∧ b = body_head ++ json_escape prompt 8192 ++ body_tail) s.
Proof.
  intros Hp. pose proof length_body_head. pose proof length_body_tail.
  pose proof (escape_length prompt (8192 - 2)) as He. fold (json_escape prompt 8192) in He.
  unfold json_body. cbv zeta. apply wp_bind, wp_strcat_in; [cbn [length Nat.add]; lia|]. cbn [app].
  destruct (Z.ltb_spec (Z.of_nat (length body_head) + Z.of_nat (length (json_escape prompt 8192))) (16384 - 24)); [|lia].
  apply wp_bind, wp_strcat_in; [lia|]. apply wp_strcat_in; [rewrite length_app; lia|]. by rewrite <-app_assoc.
Qed.

Lemma http_request_ok (ip body : list Z) (s : net * X) :
  Z.of_nat (length ip) ≤ 31 → Z.of_nat (length body) ≤ 12000 →
  wp (http_request ip body) (λ r t, t = s ∧ ∃ len_str,
    r = request_head ip ++ len_str ++ bytes_of (CRLF +:+ CRLF) ++ body ∧
    Forall is_dec len_str ∧ dec_value len_str = Z.of_nat (length body) ∧ Z.of_nat (length r) < 16384) s.
Proof.
  intros Hip Hb. pose proof (length_request_head ip) as Hh. unfold http_request.
  apply wp_bind. eapply wp_mono; [apply itoa_ok; lia|]. intros ds s' (-> & Hd & Hv & Hl).
  assert (Hc : length (bytes_of (CRLF +:+ CRLF)) = 4%nat) by done.
  apply wp_bind, wp_strcat_in; [cbn [length Nat.add]; lia|]. cbn [app].
  apply wp_bind, wp_strcat_in; [lia|]. apply wp_bind, wp_strcat_in; [rewrite length_app; lia|].
  apply wp_strcat_in; [rewrite !length_app; lia|]. split; [done|]. exists ds.
  rewrite <-!app_assoc. split_and!; try done. rewrite !length_app. lia.
Qed.

(** C33. The request.  When the connection is up, the client hands TCP one
    request and no other, whatever TCP answers: it names the server, its
    Content-Length is the length of its body in decimal, the body holds the
    system text and the escaped prompt, and neither the body nor the request
    overruns its array of 16384, however long the prompt and the address are
    that fit theirs.  The test on the request's length can never fail. *)
Theorem post_well_formed (n : net) (x : X) (tpcb : Z) :
  net_ok n →
  ∃ e x' r, ollama_connected_cb tcp_close tcp_write tcp_output tpcb ERR_OK (n, x) = Ret (e, (n, x')) ∧
    sent x' = sent x ++ [r] ∧ post_ok n r.
Proof.
  intros (Hp & Hip & _).
  cut (wp (ollama_connected_cb tcp_close tcp_write tcp_output tpcb ERR_OK)
    (λ e t, ∃ r, seen t = (n, sent x ++ [r]) ∧ post_ok n r) (n, x)).
  { rewrite wp_run. intros (e & [n' x'] & Hrun & r & Hs & Hr). unfold seen in Hs. injection Hs as -> Es.
    by exists e, x', r. }
  unfold ollama_connected_cb. cbn [negb Z.eqb ERR_OK].
  apply wp_bind. apply (wp_keeps seen); [apply keeps_in_x; by keeps|]. intros [] [n1 x1] E1.
  unfold seen in E1. cbn [fst snd] in E1. injection E1 as -> E1.
  unfold in_net. wp_steps. cbn [fst snd].
  eapply wp_mono; [by apply json_body_ok|]. intros body s' [-> Eb]. wp_steps. cbn [fst snd].
  pose proof length_body_head. pose proof length_body_tail.
  pose proof (escape_length (global_prompt n) (8192 - 2)) as He. fold (json_escape (global_prompt n) 8192) in He.
  eapply wp_mono; [apply http_request_ok; [done|rewrite Eb, !length_app; lia]|].
  intros r s' [-> (ds & Er & Hd & Hv & Hl)].
  assert (Hpost : post_ok n r) by (exists ds; rewrite <-Eb; done).
  destruct (Z.leb_spec 16384 (Z.of_nat (length r))); [lia|].
  apply wp_bind. eapply wp_mono; [apply Hwrite|]. cbn [fst snd]. intros we t Et. rewrite E1 in Et.
  assert (Hk : ∀ (m : comp (net * X) Z), keeps seen m → wp m (λ _ t, ∃ r, seen t = (n, sent x ++ [r]) ∧ post_ok n r) t).
  { intros m Hm. apply (wp_keeps seen); [done|]. intros e t' Et'. exists r. split; [congruence|done]. }
  destruct (negb (we =? ERR_OK)); apply Hk.
  - apply keeps_bind; [apply keeps_in_x; by keeps|]. intros []. apply keeps_bind; [done|]. intros []. apply keeps_ret.
  - apply keeps_bind; [done|]. intros oe. apply keeps_bind.
    { apply keeps_if; intros; [apply keeps_in_x; by keeps|apply keeps_ret]. }
    intros []. apply keeps_bind; [apply keeps_in_x; by keeps|]. intros []. apply keeps_ret.
Qed.
End requests.

(** ** Receiving *)

Section segments.
Context {X : Type} `{Console X}.
Context (shell_execute : list Z → comp (net * X) (list Z)).
Context (screen_start_capture screen_stop_capture : comp (net * X) unit) (screen_get_capture : comp (net * X) (list Z))
  (screen_set_capture : list Z → comp (net * X) unit).
Context (tcp_new : comp (net * X) Z) (tcp_close tcp_recv tcp_err : Z → comp (net * X) unit)
  (tcp_recved : Z → Z → comp (net * X) unit) (tcp_connect : Z → Z → Z → comp (net * X) Z)
  (pbuf_free : comp (net * X) unit) (ip4addr_aton : list Z → option Z).

Abbreviation parse := (ollama_parse_json shell_execute screen_start_capture screen_stop_capture screen_get_capture
  screen_set_capture tcp_new tcp_close tcp_recv tcp_err tcp_connect ip4addr_aton).
Abbreviation round := (parse_round shell_execute screen_start_capture screen_stop_capture screen_get_capture
  screen_set_capture tcp_new tcp_close tcp_recv tcp_err tcp_connect ip4addr_aton).
Abbreviation recv_cb := (ollama_recv_cb shell_execute screen_start_capture screen_stop_capture screen_get_capture
  screen_set_capture tcp_new tcp_close tcp_recv tcp_err tcp_recved tcp_connect pbuf_free ip4addr_aton).

(** The segments of a response, one callback each. *)
Fixpoint recv_all (tpcb : Z) (segs : list (list Z)) : comp (net * X) unit :=
  match segs with
  | [] => mret tt
  | p :: segs' => _ ← recv_cb tpcb (Some p); recv_all tpcb segs'
  end.

Section accumulate.
Context (Hrecved : ∀ p k, keeps fst (tcp_recved p k)) (Hfree : keeps fst pbuf_free).

Lemma recv_segment (tpcb : Z) (p : list Z) (n : net) (x : X) :
  Z.of_nat (length (rx_accum n)) ≤ 8191 →
  wp (recv_cb tpcb (Some p)) (λ e t, e = ERR_OK ∧ t.1 = set_accum (take (Z.to_nat 8191) (rx_accum n ++ p)) n) (n, x).
Proof.
  intros Ha. unfold ollama_recv_cb, in_net. wp_steps. cbn [fst snd].
  set (a := rx_accum n) in *. set (space := 8192 - Z.of_nat (length a) - 1).
  set (k := if space <? Z.of_nat (length p) then space else Z.of_nat (length p)).
  assert (Ek : a ++ take (Z.to_nat k) p = take (Z.to_nat 8191) (a ++ p)).
  { rewrite take_app, (take_ge a) by lia. f_equal. unfold k, space.
    destruct (Z.ltb_spec (8192 - Z.of_nat (length a) - 1) (Z.of_nat (length p))); [f_equal; lia|].
    rewrite !take_ge by lia. done. }
  assert (Hrest : ∀ s : net * X, s.1 = set_accum (take (Z.to_nat 8191) (a ++ p)) n →
    wp (tcp_recved tpcb (Z.of_nat (length p));; pbuf_free;; mret ERR_OK)
      (λ e t, e = ERR_OK ∧ t.1 = set_accum (take (Z.to_nat 8191) (a ++ p)) n) s).
  { intros s Es. apply wp_bind, (wp_keeps fst); [done|]. intros [] s1 E1.
    apply wp_bind, (wp_keeps fst); [done|]. intros [] s2 E2. apply wp_ret. split; [done|congruence]. }
  destruct (Z.ltb_spec 0 k); [apply wp_zoom, wp_modify|apply wp_ret]; apply Hrest; cbn [fst snd].
  - by rewrite Ek.
  - rewrite <-Ek. replace (Z.to_nat k) with O by lia. rewrite take_0, app_nil_r. by destruct n.
Qed.

(** Accumulation.  However a response is cut into segments, the client
    holds the first 8191 bytes of it when they have all arrived: a tag that
    spans two segments reaches the parser whole, and nothing is ever written
    past the array. *)
Theorem segments_accumulate (tpcb : Z) (segs : list (list Z)) (n : net) (x : X) :
  Z.of_nat (length (rx_accum n)) ≤ 8191 →
  ∃ x', recv_all tpcb segs (n, x) = Ret (tt, (set_accum (take (Z.to_nat 8191) (rx_accum n ++ concat segs)) n, x')).
Proof.
  revert n x. induction segs as [|p segs IH]; intros n x Ha.
  - exists x. simpl. rewrite app_nil_r, take_ge by lia. by destruct n.
  - destruct (proj1 (wp_run _ _ _) (recv_segment tpcb p n x Ha)) as (e & [n1 x1] & Hrun & -> & E1).
    cbn [fst] in E1. subst n1.
    destruct (IH (set_accum (take (Z.to_nat 8191) (rx_accum n ++ p)) n) x1) as [x' Hx'].
    { simpl. rewrite length_take. lia. }
    exists x'. simpl. erewrite run_bind by exact Hrun. rewrite Hx'. do 3 f_equal. simpl.
    unfold set_accum; simpl. f_equal. rewrite app_assoc, !(take_app _ (concat segs)), take_take, length_take.
    destruct (decide (length (rx_accum n ++ p) ≤ Z.to_nat 8191)%nat).
    + rewrite Nat.min_id, Nat.min_r by lia. done.
    + rewrite Nat.min_id, Nat.min_l by lia. do 2 f_equal. lia.
Qed.
End accumulate.

(** *** The parser *)

(** What the shell may be asked to execute. *)
Definition cmd_ok (cmd : list Z) : Prop := Z.of_nat (length cmd) ≤ 255 ∧ nul_free cmd.

Lemma open_tag_length l r : open_tag l = Some r → (length r ≤ length l)%nat.
Proof.
  unfold open_tag. destruct (strip_prefix _ (skip_spaces l)) as [r'|] eqn:E; [|done]. intros [= <-].
  apply strip_prefix_some in E. apply (f_equal length) in E. rewrite length_app in E. rewrite !skip_spaces_char in *.
  pose proof (length_skip_char 32 l). pose proof (length_skip_char 32 r'). lia.
Qed.

Lemma feedback_text_ok cmd output (s : net * X) :
  (length cmd ≤ 255)%nat → wp (feedback_text cmd output) (λ f t, t = s ∧ Z.of_nat (length f) ≤ 2000) s.
Proof.
  intros Hc. unfold feedback_text.
  assert (H1 : length (bytes_of "[AGENT EXEC RESULT] `") = 21%nat) by done.
  assert (H2 : length (bytes_of ("` \nOutput:\n" +:+ QUOTE)) = 14%nat) by done.
  assert (H3 : length (bytes_of (QUOTE +:+ "\nNext? (Use <EXEC_CMD:stop> if done)")) = 38%nat) by done.
  apply wp_bind, wp_strcat_in; [cbn [length Nat.add]; lia|]. cbn [app].
  apply wp_bind, wp_strcat_in; [lia|]. apply wp_bind, wp_strcat_in; [rewrite length_app; lia|]. cbv zeta.
  set (f := (_ ++ cmd) ++ _). assert (Hf : length f = (21 + length cmd + 14)%nat) by (unfold f; rewrite !length_app; lia).
  set (n := if _ <? _ then _ else _). assert (Hn : n ≤ 2000 - Z.of_nat (length f) - 60).
  { unfold n. destruct (Z.ltb_spec (2000 - Z.of_nat (length f) - 60) (Z.of_nat (length output))); lia. }
  assert (Ho : Z.of_nat (length (take (Z.to_nat n) output)) ≤ Z.max 0 n) by (rewrite length_take; lia).
  apply wp_bind, wp_strcat_in; [lia|]. apply wp_strcat_in; rewrite !length_app; [lia|]. split; [done|lia].
Qed.

Section parsing.
Context (J : X → Prop).
(** The client's texts fit, and the rest of the system is well. *)
Definition live (s : net * X) : Prop := net_ok s.1 ∧ J s.2.
Context (Hemit : ∀ o x, J x → J (emit o x)).
(** The shell is only promised commands that fit its buffer. *)
Context (Hexec : ∀ cmd s, cmd_ok cmd → live s →
  wp (shell_execute cmd) (λ c t, live t ∧ (length c ≤ length cmd)%nat) s).
Context (Hstart : preserves live screen_start_capture) (Hstop : preserves live screen_stop_capture)
  (Hget : preserves live screen_get_capture) (Hset : ∀ l, preserves live (screen_set_capture l))
  (Hnew : preserves live tcp_new) (Hclose : ∀ p, preserves live (tcp_close p)) (Hrecv : ∀ p, preserves live (tcp_recv p))
  (Herr : ∀ p, preserves live (tcp_err p)) (Hconn : ∀ p a q, preserves live (tcp_connect p a q)).

Lemma live_x {A} (m : comp X A) : preserves J m → preserves live (in_x m).
Proof. intros Hm [n x] [Hn Hx]. unfold in_x. apply wp_zoom. eapply wp_mono; [by apply Hm|]. done. Qed.

Ltac stay_step :=
  match goal with
  | |- preserves _ (mret _) => apply preserves_ret
  | |- preserves _ (_ ≫= _) => apply preserves_bind; [|intros ?]
  | |- preserves _ (in_x _) => apply live_x
  | |- preserves _ (in_net (gets _)) => by intros [? ?] ?
  | |- preserves _ (say _) => apply live_x
  | |- preserves J _ => intros ? ?; by apply Hemit
  | |- preserves _ (if _ then _ else _) => apply preserves_if; intros ?
  | |- preserves _ (match ?o with Some _ => _ | None => _ end) => destruct o
  end; cbn beta; try assumption.
Ltac stay := repeat (try solve [auto]; stay_step).

Lemma announce_ok cmd : preserves live (announce cmd).
Proof. unfold announce. stay. Qed.
Lemma keep_char_ok catching cmd c s :
  live s → Z.of_nat (length cmd) ≤ 255 →
  wp (keep_char catching cmd c) (λ cmd' t, live t ∧ Z.of_nat (length cmd') ≤ 255) s.
Proof.
  intros Hs Hc. unfold keep_char, ICMD_MAX. destruct (catching && _) eqn:E.
  - destr_bool. apply wp_ret. rewrite length_app. split; [done|simpl; lia].
  - destruct (negb catching); [|by apply wp_ret]. apply wp_bind. apply (preserves_run live); [stay|done|].
    intros [] s' Hs'. by apply wp_ret.
Qed.

Lemma feedback_request_ok ip f : Z.of_nat (length f) ≤ 2000 → preserves live (ollama_feedback_request tcp_new tcp_close tcp_recv tcp_err tcp_connect ip4addr_aton ip f).
Proof.
  intros Hf [n x] [(Hp & Hi & Ha) Hx]. unfold ollama_feedback_request.
  apply wp_bind. unfold in_net at 1. apply wp_zoom, wp_modify. apply wp_bind. unfold in_net at 1. apply wp_zoom, wp_gets. cbn [fst snd].
  set (g := global_prompt (set_accum [] n)). assert (Hg : Z.of_nat (length g) ≤ 8191) by exact Hp.
  destruct (Z.ltb_spec (Z.of_nat (length g) + Z.of_nat (length f) + 5) 8192).
  - apply wp_bind, wp_strcat_in; [simpl; lia|]. apply wp_bind, wp_strcat_in; [rewrite length_app; simpl; lia|].
    apply wp_bind. unfold in_net. apply wp_zoom, wp_modify.
    match goal with |- wp ?m _ _ => assert (Hm : preserves live m) by stay end.
    apply Hm. split; [|done]. split; [simpl; rewrite !length_app; simpl; lia|done].
  - match goal with |- wp ?m _ _ => assert (Hm : preserves live m) by stay end. by apply Hm.
Qed.

Lemma run_with_feedback_ok cmd s : cmd_ok cmd → live s →
  wp (run_with_feedback shell_execute screen_start_capture screen_stop_capture screen_get_capture screen_set_capture
        tcp_new tcp_close tcp_recv tcp_err tcp_connect ip4addr_aton cmd) (λ _ t, live t) s.
Proof.
  intros Hc Hs. unfold run_with_feedback.
  apply wp_bind, (preserves_run live); [apply announce_ok|done|]. intros [] s1 H1.
  apply wp_bind, (preserves_run live); [done..|]. intros [] s2 H2.
  apply wp_bind. eapply wp_mono; [by apply Hexec|]. intros c s3 [H3 Hlen].
  apply wp_bind, (preserves_run live); [done..|]. intros [] s4 H4.
  apply wp_bind, (preserves_run live); [stay|done|]. intros [] s5 H5.
  apply wp_bind, (preserves_run live); [done..|]. intros o s6 H6. cbv zeta.
  apply wp_bind, (preserves_run live); [done..|]. intros [] s7 H7.
  apply wp_bind. eapply wp_mono; [apply feedback_text_ok; destruct Hc; lia|]. intros f s8 [-> Hf].
  apply wp_bind, (preserves_run live); [stay|done|]. intros [] s9 H9.
  apply wp_bind, (preserves_run live); [stay|done|]. intros ip s10 H10.
  by apply feedback_request_ok.
Qed.

Lemma command_ok cmd : Z.of_nat (length cmd) ≤ 255 → cmd_ok (c_text (trim_end 32 cmd)).
Proof.
  intros Hc. split; [|apply c_text_nul_free]. pose proof (length_c_text (trim_end 32 cmd)). pose proof (length_trim_end 32 cmd). lia.
Qed.

(** What a round leaves, when there is text left. *)
Definition rounded (resp : list Z) (r : (list Z * list Z * bool) + unit) (t : net * X) : Prop :=
  live t ∧ match r with
           | inl (resp', cmd', _) => (length resp' < length resp)%nat ∧ Z.of_nat (length cmd') ≤ 255
           | inr _ => True
           end.

Lemma keep_round catching cmd c resp resp' s :
  live s → Z.of_nat (length cmd) ≤ 255 → (length resp' < length resp)%nat →
  wp (cmd ← keep_char catching cmd c; mret (inl (resp', cmd, catching))) (rounded resp) s.
Proof.
  intros Hs Hc Hl. apply wp_bind. eapply wp_mono; [by apply keep_char_ok|]. intros cmd' t [Ht Hc']. by apply wp_ret.
Qed.

Lemma skip_round (catching : bool) cmd (c : Z) (resp resp' : list Z) (s : net * X) :
  live s → Z.of_nat (length cmd) ≤ 255 → (length resp' < length resp)%nat →
  wp ((if negb catching then in_x (print_char c) else mret tt);; mret (inl (resp', cmd, catching))) (rounded resp) s.
Proof.
  intros Hs Hc Hl. apply wp_bind, (preserves_run live); [stay|done|]. intros [] t Ht. by apply wp_ret.
Qed.

Lemma round_ok resp cmd catching s :
  live s → Z.of_nat (length cmd) ≤ 255 → wp (round (resp, cmd, catching)) (rounded resp) s.
Proof.
  intros Hs Hc. destruct resp as [|c r1]; [by apply wp_ret|]. unfold parse_round. cbv zeta.
  pose proof (length_drop r1 5) as H5. pose proof (length_drop r1 1) as H1.
  assert (Hd5 : (length (drop 5 r1) < length (c :: r1))%nat) by (simpl length; lia).
  assert (Hd1 : (length (drop 1 r1) < length (c :: r1))%nat) by (simpl length; lia).
  assert (H0 : (length r1 < length (c :: r1))%nat) by (simpl; lia).
  destruct (c =? 34); [by apply wp_ret|].
  destruct (_ && negb (nth 4 r1 0 =? 0)).
  { destruct (decode_unicode_escape (drop 1 r1) =? 60).
    - destruct (open_tag (drop 5 r1)) as [r|] eqn:Eo; [|by apply keep_round].
      apply open_tag_length in Eo. apply wp_ret. split; [done|]. simpl length in *. split; lia.
    - destruct (_ && catching); [|by apply keep_round].
      apply wp_bind, (preserves_run live); [apply announce_ok|done|]. intros [] s1 Hs1.
      apply wp_bind. eapply wp_mono; [apply Hexec; [by apply command_ok|done]|]. intros c' s2 [Hs2 _].
      apply wp_bind, (preserves_run live); [stay|done|]. intros [] s3 Hs3. apply wp_ret. by split. }
  destruct (_ && _); [by apply skip_round|]. destruct (_ && _); [by apply skip_round|].
  destruct (_ && _); [by apply keep_round|]. destruct (_ && _); [by apply keep_round|].
  destruct (if negb catching && (c =? 60) then open_tag r1 else None) as [r|] eqn:Eo.
  - destruct (negb catching && _); [|done]. apply open_tag_length in Eo. apply wp_ret. split; [done|]. simpl length in *. split; lia.
  - destruct (catching && _); [|by apply keep_round]. destruct (_ || _).
    + apply wp_bind, (preserves_run live); [stay|done|]. intros [] s1 Hs1. by apply wp_ret.
    + apply wp_bind. eapply wp_mono; [apply run_with_feedback_ok; [by apply command_ok|done]|].
      intros [] s1 Hs1. by apply wp_ret.
Qed.

(** C25. The parser is safe.  Whatever the server sends, the parser ends; it
    never writes past the command buffer or the feedback prompt, asks the
    shell only for commands of at most 255 characters with no NUL in them, and
    leaves the client's texts within their arrays, provided the shell, on such
    commands, and lwIP return and keep the system well. *)
Theorem parse_json_safe (payload : list Z) (s : net * X) :
  Z.of_nat (length payload) < 2 ^ 63 → live s →
  ∃ s', parse payload s = Ret (tt, s') ∧ live s'.
Proof.
  intros Hlen Hs.
  cut (wp (parse payload) (λ _ t, live t) s).
  { rewrite wp_run. intros ([] & s' & Hrun & Ht). by exists s'. }
  unfold ollama_parse_json.
  assert (Hafter : ∀ pat l r, after pat l = Some r → (length r ≤ length l)%nat).
  { intros pat l r. unfold after. destruct (find_sub pat l); [|done]. intros [= <-]. rewrite length_drop. lia. }
  assert (Hbody : (length (default payload (after (bytes_of (CRLF +:+ CRLF)) payload)) ≤ length payload)%nat).
  { destruct (after _ payload) as [r|] eqn:E; [by apply Hafter in E|done]. }
  destruct (after _ (default payload _)) as [resp|] eqn:E; [|by apply wp_ret].
  apply Hafter in E. apply wp_bind, (preserves_run live); [stay|done|]. intros [] s1 Hs1. apply wp_bind.
  apply (wp_loop (λ '(resp, cmd, _) t, live t ∧ Z.of_nat (length cmd) ≤ 255) (λ '(resp, _, _) _, Z.of_nat (length resp))).
  - done.
  - lia.
  - intros [[r c] b] t _. lia.
  - intros [[r c] b] t [Ht Hc]. eapply wp_mono; [by apply round_ok|].
    intros [[[r' c'] b']|[]] t' [Ht' Hr]; [destruct Hr; split; [done|lia]|].
    apply (preserves_run live); [stay|done|]. done.
Qed.
End parsing.

(** *** A reply with a command *)

(** The characters printed one by one. *)
Definition printed (l : list Z) (x : X) : X := fold_left (λ x c, emit (OutChar c) x) l x.

Definition plain (c : Z) : Prop := c ≠ 34 ∧ c ≠ 92 ∧ c ≠ 60.
(** A text without tags and what it shows: two-character escapes are
    decoded, a tabulator to a space. *)
Inductive shows : list Z → list Z → Prop :=
  | shows_nil : shows [] []
  | shows_plain c l o : plain c → shows l o → shows (c :: l) (c :: o)
  | shows_escape d e l o : (d, e) ∈ [(110, 10); (116, 32); (34, 34); (92, 92)] → shows l o → shows (92 :: d :: l) (e :: o).
Definition plain_cmd (c : Z) : Prop := c ≠ 34 ∧ c ≠ 92 ∧ c ≠ 62 ∧ c ≠ 0.

Lemma round_plain c r (s : net * X) :
  plain c → round (c :: r, [], false) s = Ret (inl (r, [], false), (s.1, emit (OutChar c) s.2)).
Proof.
  intros (H1 & H2 & H3). unfold parse_round. cbv zeta.
  destruct (Z.eqb_spec c 34), (Z.eqb_spec c 92), (Z.eqb_spec c 60); done.
Qed.
Lemma round_catch c r cmd (s : net * X) :
  plain_cmd c → Z.of_nat (length cmd) < 255 → round (c :: r, cmd, true) s = Ret (inl (r, cmd ++ [c], true), s).
Proof.
  intros (H1 & H2 & H3 & _) Hl. unfold parse_round. cbv zeta.
  destruct (Z.eqb_spec c 34), (Z.eqb_spec c 92), (Z.eqb_spec c 62); try done. cbn [andb negb].
  unfold keep_char, ICMD_MAX. by destruct (Z.ltb_spec (Z.of_nat (length cmd)) 255); [|lia].
Qed.
Lemma round_escape d e r (s : net * X) :
  (d, e) ∈ [(110, 10); (116, 32); (34, 34); (92, 92)] →
  round (92 :: d :: r, [], false) s = Ret (inl (r, [], false), (s.1, emit (OutChar e) s.2)).
Proof. rewrite !elem_of_cons, elem_of_nil. intros [E|[E|[E|[E|[]]]]]; by injection E as -> ->. Qed.
Lemma rounds_shown pre o r n (s : net * X) :
  shows pre o →
  itern (length o + n) round (pre ++ r, [], false) s = itern n round (r, [], false) (s.1, printed o s.2).
Proof.
  intros Hp. revert s. induction Hp as [|c l o Hc Hp IH|d e l o He Hp IH]; intros [m x]; [done|..];
    cbn [length app Nat.add itern].
  - erewrite run_bind by by apply round_plain. cbn beta iota. by rewrite IH.
  - erewrite run_bind by by apply round_escape. cbn beta iota. by rewrite IH.
Qed.
Lemma shows_length pre o : shows pre o → (length o ≤ length pre)%nat.
Proof. induction 1; simpl; lia. Qed.
Lemma rounds_catch cmd r acc n (s : net * X) :
  Forall plain_cmd cmd → Z.of_nat (length acc + length cmd) ≤ 255 →
  itern (length cmd + n) round (cmd ++ r, acc, true) s = itern n round (r, acc ++ cmd, true) s.
Proof.
  intros Hp. revert acc. induction Hp as [|c cmd Hc Hp IH]; intros acc Hl.
  - by rewrite app_nil_r.
  - cbn [length app Nat.add itern] in *. erewrite run_bind by (apply round_catch; [done|lia]). cbn beta iota.
    rewrite IH by (rewrite length_app; simpl; lia). by rewrite <-app_assoc.
Qed.

Lemma round_open cmd r (s : net * X) :
  head cmd ≠ Some 32 →
  round (bytes_of "<EXEC_CMD:" ++ cmd ++ 62 :: r, [], false) s = Ret (inl (cmd ++ 62 :: r, [], true), s).
Proof.
  intros Hh. assert (E : open_tag (bytes_of "EXEC_CMD:" ++ cmd ++ 62 :: r) = Some (cmd ++ 62 :: r)).
  { unfold open_tag. change (skip_spaces (bytes_of "EXEC_CMD:" ++ cmd ++ 62 :: r)) with (bytes_of "EXEC_CMD:" ++ cmd ++ 62 :: r).
    rewrite strip_prefix_app. destruct cmd as [|c cmd]; [done|]. simpl in *. destruct (Z.eqb_spec c 32); [congruence|done]. }
  change (bytes_of "<EXEC_CMD:" ++ cmd ++ 62 :: r) with (60 :: (bytes_of "EXEC_CMD:" ++ cmd ++ 62 :: r)).
  generalize dependent (bytes_of "EXEC_CMD:" ++ cmd ++ 62 :: r). intros l E.
  unfold parse_round. cbn [negb andb Z.eqb]. cbn. by rewrite E.
Qed.

Abbreviation obey := (run_with_feedback shell_execute screen_start_capture screen_stop_capture screen_get_capture
  screen_set_capture tcp_new tcp_close tcp_recv tcp_err tcp_connect ip4addr_aton).

Lemma round_close cmd r (s : net * X) :
  nul_free cmd → is_text (trim_end 32 cmd) "stop" = false → is_text (trim_end 32 cmd) "done" = false →
  round (62 :: r, cmd, true) s = (_ ← obey (trim_end 32 cmd); mret (inr tt)) s.
Proof.
  intros Hn H1 H2. unfold parse_round. cbv zeta. cbn [negb andb Z.eqb Pos.eqb].
  rewrite (c_text_id (trim_end 32 cmd)) by by apply trim_end_forall. by rewrite H1, H2.
Qed.

(** The loop on a text that is plain up to its first tag. *)
Lemma loop_first_tag (pre shown cmd rest : list Z) (s : net * X) :
  Z.of_nat (length pre) < 2 ^ 63 → shows pre shown →
  Z.of_nat (length cmd) ≤ 255 → Forall plain_cmd cmd → head cmd ≠ Some 32 →
  is_text (trim_end 32 cmd) "stop" = false → is_text (trim_end 32 cmd) "done" = false →
  loop round (pre ++ bytes_of "<EXEC_CMD:" ++ cmd ++ 62 :: rest, [], false) s = obey (trim_end 32 cmd) (s.1, printed shown s.2).
Proof.
  intros Hpl Hpre Hcl Hcmd Hh Hs Hd.
  pose proof (shows_length _ _ Hpre).
  rewrite (loop_finish (length shown + (1 + (length cmd + 1))) _ _ _ (λ _, obey (trim_end 32 cmd) (s.1, printed shown s.2))); [done|lia|].
  rewrite rounds_shown by done. cbn [Nat.add itern].
  erewrite run_bind by by apply round_open. cbn beta iota. rewrite rounds_catch by (done || (simpl; lia)). cbn [app itern].
  unfold mbind at 1, comp_bind. rewrite round_close; [| |done..].
  - unfold mbind, comp_bind. destruct (obey _ _) as [[[] s3]| |]; done.
  - eapply Forall_impl; [exact Hcmd|]. by intros c (_ & _ & _ & ?).
Qed.

(** A reply with a command.  When the reply's text up to its first
    tag is plain characters and escapes, the parser prints what they show,
    character by character, runs the tag's command without the spaces after
    it, sends the model what it printed, and ignores the rest of the reply. *)
Theorem parse_first_command (payload pre shown cmd rest : list Z) (s : net * X) :
  after (bytes_of (QUOTE +:+ "response" +:+ QUOTE +:+ ":" +:+ QUOTE))
    (default payload (after (bytes_of (CRLF +:+ CRLF)) payload)) =
    Some (pre ++ bytes_of "<EXEC_CMD:" ++ cmd ++ 62 :: rest) →
  Z.of_nat (length pre) < 2 ^ 63 → shows pre shown →
  Z.of_nat (length cmd) ≤ 255 → Forall plain_cmd cmd → head cmd ≠ Some 32 →
  is_text (trim_end 32 cmd) "stop" = false → is_text (trim_end 32 cmd) "done" = false →
  parse payload s =
    (in_x (color COLOR_LIGHT_MAGENTA;; print_string (NL +:+ "AI: ");; modify (printed shown));;
     obey (trim_end 32 cmd);;
     in_x reset_text_color) s.
Proof.
  intros Eafter Hpl Hpre Hcl Hcmd Hh Hs Hd. unfold ollama_parse_json. rewrite Eafter.
  set (s1 := (s.1, emit (OutStr (NL +:+ "AI: ")) (emit (OutColor (u8 (MAKE_COLOR COLOR_LIGHT_MAGENTA COLOR_BLACK))) s.2))).
  rewrite (run_bind (in_x (color COLOR_LIGHT_MAGENTA;; print_string (NL +:+ "AI: "))) _ s tt s1) by done.
  set (s2 := (s1.1, printed shown s1.2)).
  rewrite (run_bind (in_x (color COLOR_LIGHT_MAGENTA;; print_string (NL +:+ "AI: ");; modify (printed shown))) _ s tt s2) by done.
  unfold mbind, comp_bind. by rewrite (loop_first_tag _ shown).
Qed.
End segments.

(** ** Concrete runs *)

(** The rest of the system: the requests handed to TCP, or for the parser the
    commands executed. *)
#[local] Instance log_console : Console (list (list Z)) := λ _ x, x.
Definition demo_log (c : list Z) : comp (net * list (list Z)) (list Z) := in_x (modify (λ l, l ++ [c]));; mret c.
Abbreviation nop := (mret tt : comp (net * list (list Z)) unit).

Lemma boot_net_ok : net_ok net_boot.
Proof. done. Qed.

Lemma post_well_formed_witness :
  ∃ e x' r, ollama_connected_cb (λ _, nop) (λ _ r, in_x (modify (λ l, l ++ [r]));; mret ERR_OK) (λ _, mret ERR_OK) 1 ERR_OK
      (set_prompt [34; 97; 10] net_boot, []) = Ret (e, (set_prompt [34; 97; 10] net_boot, x')) ∧
    x' = [] ++ [r] ∧ post_ok (set_prompt [34; 97; 10] net_boot) r.
Proof. by apply (post_well_formed (λ x, x)). Defined.

Lemma segments_accumulate_witness :
  ∃ x', recv_all demo_log nop nop (mret []) (λ _, nop) (mret 0) (λ _, nop) (λ _, nop) (λ _, nop) (λ _ _, nop)
      (λ _ _ _, mret 0) nop (λ _, None) 1 [[60; 69]; []; [88]] (net_boot, []) =
    Ret (tt, (set_accum (take (Z.to_nat 8191) [60; 69; 88]) net_boot, x')).
Proof. by apply (segments_accumulate demo_log nop nop (mret []) (λ _, nop) (mret 0) (λ _, nop) (λ _, nop) (λ _, nop) (λ _ _, nop)
      (λ _ _ _, mret 0) nop (λ _, None)). Defined.

Abbreviation demo_parse := (ollama_parse_json demo_log nop nop (mret []) (λ _, nop) (mret 0) (λ _, nop) (λ _, nop) (λ _, nop)
  (λ _ _ _, mret 0) (λ _, None)).

Lemma parse_json_safe_witness :
  ∃ s', demo_parse mock_payload (net_boot, []) = Ret (tt, s') ∧ live (λ _, True) s'.
Proof.
  apply (parse_json_safe demo_log nop nop (mret []) (λ _, nop) (mret 0) (λ _, nop) (λ _, nop) (λ _, nop) (λ _ _ _, mret 0) (λ _, None)
    (λ _, True)); try done; try (intros; by intros ? ?); try (by intros ? ?).
Defined.

Definition demo_reply : list Z :=
  bytes_of ("{" +:+ QUOTE +:+ "response" +:+ QUOTE +:+ ":" +:+ QUOTE +:+ "hi\n<EXEC_CMD:ls /  >more" +:+ QUOTE +:+ "}").

Lemma parse_first_command_witness :
  trim_end 32 (bytes_of "ls /  ") = bytes_of "ls /" ∧
  demo_parse demo_reply (net_boot, []) =
    (in_x (color COLOR_LIGHT_MAGENTA;; print_string (NL +:+ "AI: ");; modify (printed [104; 105; 10]));;
     run_with_feedback demo_log nop nop (mret []) (λ _, nop) (mret 0) (λ _, nop) (λ _, nop) (λ _, nop) (λ _ _ _, mret 0) (λ _, None)
       (trim_end 32 (bytes_of "ls /  "));;
     in_x reset_text_color) (net_boot, []).
Proof.
  split; [reflexivity|].
  apply (parse_first_command demo_log nop nop (mret []) (λ _, nop) (mret 0) (λ _, nop) (λ _, nop) (λ _, nop) (λ _ _ _, mret 0) (λ _, None)
    demo_reply (bytes_of "hi\n") [104; 105; 10] (bytes_of "ls /  ") (bytes_of ("more" +:+ QUOTE +:+ "}"))); try done.
  - repeat (constructor; [by split_and!|]). apply (shows_escape 110 10); [by left|constructor].
  - repeat (constructor; [split_and!; done|]). constructor.
Defined.
