(* ===== verification/Agent.v ===== *)
(** * Agent: the context store of the agent (src/agent/agent.c)

    The store keeps each value in a file; everything but the request to the
    model is file operations and printing, so the operations act on the file
    system's state.  The loop that prints a file is also the shell's [cat]. *)

From Stdlib Require Import ZArith Lia String.
From stdpp Require Import base numbers list option strings.
From S2P Require Import Prelude Interfaces Fat32 Ata Fat32Facts CText.
Open Scope Z_scope.

Section agent.
Context {D : Type} `{BlockDev D} (junk : list Z).

Definition agent_init : comp (fs D) unit :=
  _ ← fat32_mkdir junk (bytes_of "/agent");
  _ ← fat32_mkdir junk (bytes_of "/agent/db");
  mret tt.

(** [char path[128]] *)
Definition context_path (key : list Z) : comp (fs D) (list Z) :=
  p ← strcat_in 128 [] (bytes_of "/agent/db/");
  p ← strcat_in 128 p key;
  strcat_in 128 p (bytes_of ".txt").

Definition agent_ctx_set (key value : list Z) : comp (fs D) unit :=
  path ← context_path key;
  fd ← fat32_open junk path 119;
  if 0 <=? fd then
    _ ← fat32_write junk fd value;
    fat32_close fd;;
    color COLOR_LIGHT_GREEN;;
    print_string "Agent DB: Set '";;
    print_bytes key;;
    print_string ("' successfully." +:+ NL);;
    reset_text_color
  else
    color COLOR_LIGHT_RED;;
    print_string ("Agent DB ERROR: Failed to write context." +:+ NL);;
    reset_text_color.

(** [while ((bytes = fat32_read(fd, buf, 512)) > 0)]: print the buffer as a
    string. *)
Definition print_file (fd : Z) : comp (fs D) unit :=
  loop (λ _,
    '(bytes, buf) ← fat32_read junk fd 512;
    if 0 <? bytes then print_bytes (c_text buf);; mret (inl tt) else mret (inr tt)) tt.

Definition agent_ctx_get (key : list Z) : comp (fs D) unit :=
  path ← context_path key;
  fd ← fat32_open junk path 114;
  if 0 <=? fd then
    color COLOR_YELLOW;;
    print_string "Agent DB Context [";;
    print_bytes key;;
    print_string ("]:" +:+ NL);;
    reset_text_color;;
    print_file fd;;
    fat32_close fd;;
    print_string NL
  else
    color COLOR_LIGHT_RED;;
    print_string "Agent DB ERROR: Context '";;
    print_bytes key;;
    print_string ("' not found." +:+ NL);;
    reset_text_color.

(** The request to the model is the network client's. *)
Definition agent_task {X} `{Console X} (ollama_request : list Z → list Z → comp X unit) (instruction : list Z) : comp X unit :=
  color COLOR_LIGHT_CYAN;;
  print_string ">> Spawning Agent Task: ";;
  print_bytes instruction;;
  print_string NL;;
  reset_text_color;;
  ollama_request (bytes_of "172.16.100.1") instruction.

(** ** Printing a file *)

(** A text in blocks of 512 characters, the last one shorter. *)
Fixpoint blocks (n : nat) (l : list Z) : list (list Z) :=
  match n, l with
  | Datatypes.S n', _ :: _ => take 512 l :: blocks n' (drop 512 l)
  | _, _ => []
  end.

Lemma blocks_enough n m l : (length l ≤ n)%nat → (length l ≤ m)%nat → blocks n l = blocks m l.
Proof.
  revert m l. induction n as [|n IH]; intros m l Hn Hm.
  - destruct l; [by destruct m|simpl in Hn; lia].
  - destruct l as [|c l]; [by destruct m|]. destruct m as [|m]; [simpl in Hm; lia|]. cbn [blocks]. f_equal.
    assert (length (drop 512 (c :: l)) ≤ length l)%nat by (rewrite length_drop; simpl length; lia).
    simpl length in Hn, Hm. apply IH; lia.
Qed.

(** The state with other handles and another console. *)
Definition opened (l : list fat32_file_t) (c : list out) (s : fs D) : fs D :=
  MkFs (disk s) (bpb s) (partition_lba s) (fat_lba s) (data_lba s) (mounted s) l (fat32_cwd_cluster s) (fat32_cwd_path s) c.

(** What is left to print from position [p] of [data]. *)
Definition to_print (data : list Z) (p : Z) : list out :=
  map (λ b, OutBytes (c_text b)) (blocks (length data) (drop (Z.to_nat p) data)).

Lemma to_print_end data p : Z.of_nat (length data) ≤ p → to_print data p = [].
Proof. intros Hp. unfold to_print. rewrite drop_ge by lia. by destruct (length data). Qed.
Lemma to_print_next data p :
  0 ≤ p < Z.of_nat (length data) →
  to_print data p = OutBytes (c_text (take 512 (drop (Z.to_nat p) data))) :: to_print data (p + Z.min 512 (Z.of_nat (length data) - p)).
Proof.
  intros Hp. unfold to_print.
  assert (Hl : length (drop (Z.to_nat p) data) = (length data - Z.to_nat p)%nat) by apply length_drop.
  rewrite (blocks_enough (length data) (Datatypes.S (length data))) by lia.
  destruct (drop (Z.to_nat p) data) as [|c l] eqn:E; [simpl in Hl; lia|].
  cbn [blocks map]. rewrite <-E. do 2 f_equal. rewrite drop_drop.
  destruct (Z.leb_spec 512 (Z.of_nat (length data) - p)).
  - rewrite Z.min_l by lia. f_equal. f_equal. lia.
  - rewrite Z.min_r, !drop_ge by lia. done.
Qed.

Lemma handle_emit o s fd f cs : handle s fd f cs → handle (emit o s) fd f cs.
Proof.
  intros (Hfd & Hf & Hv & Hch & Hr). split; [done|]. split; [done|]. split; [done|]. split; [|exact Hr].
  clear -Hch. induction cs as [|c cs IH]; [done|]. destruct Hch as (Hc & Hn & Hch). split; [done|]. split; [done|]. by apply IH.
Qed.

(** Printing a file.  On a freshly opened handle of a readable file the
    loop of [cat] and [agent_ctx_get] ends with the file at its end, having
    printed the file and nothing else, in blocks of 512 bytes, each up to its
    first NUL; the disk and the other handles are as they were. *)
Theorem print_file_prints (s : fs D) (fd : Z) (f : fat32_file_t) (cs : list Z) :
  geometry s → handle s fd f cs → cursor s f cs → position f = 0 →
  ∃ f', print_file fd s = Ret (tt, opened (<[Z.to_nat fd := f']> (open_files s))
      (rev (to_print (take (Z.to_nat (file_size f)) (content s cs)) 0) ++ con s) s) ∧
    position f' = file_size f ∧ file_size f' = file_size f.
Proof.
  intros Hg Hh Hc Hp. set (data := take (Z.to_nat (file_size f)) (content s cs)).
  pose proof Hh as (_ & _ & _ & Hch & _ & Hrd & Hsz & Hsz31).
  assert (Hlen : Z.of_nat (length data) = file_size f).
  { unfold data. rewrite length_take. rewrite length_content by done. unfold geometry in Hg. lia. }
  pose (st := λ f1 t, opened (<[Z.to_nat fd := f1]> (open_files s)) t s).
  cut (wp (print_file fd) (λ _ t, ∃ f', t = st f' (rev (to_print data 0) ++ con s) ∧
    position f' = file_size f ∧ file_size f' = file_size f) s).
  { rewrite wp_run. intros ([] & t & Hrun & f' & -> & Hf). by exists f'. }
  unfold print_file. apply (wp_loop (λ _ t, ∃ f1 o, t = st f1 o ∧ handle t fd f1 cs ∧ cursor t f1 cs ∧ 0 ≤ position f1 ≤ file_size f ∧
      file_size f1 = file_size f ∧ rev (to_print data (position f1)) ++ o = rev (to_print data 0) ++ con s)
    (λ _ t, match open_files t !! Z.to_nat fd with Some f1 => file_size f - position f1 | None => 0 end)).
  - exists f, (con s). rewrite Hp. split_and!; try done; try lia. unfold st, opened.
    rewrite list_insert_id by (by destruct Hh as (_ & ? & _)). by destruct s.
  - destruct Hh as (_ & -> & _). lia.
  - intros [] t (f1 & o & -> & (_ & -> & _) & _ & ? & _). lia.
  - intros [] t (f1 & o & -> & Hh1 & Hc1 & Hp1 & Hz1 & Ho). apply wp_bind.
    destruct (decide (position f1 = file_size f)) as [Eend|Hne].
    + unfold fat32_read. apply wp_bind. unfold wp at 1. rewrite (open_file_run _ fd f1 cs) by done.
      destruct (Z.leb_spec (file_size f1) (position f1)); [|lia]. apply wp_ret, wp_ret. exists f1.
      rewrite to_print_end in Ho by lia. simpl in Ho. split_and!; [by rewrite Ho|done|done].
    + eapply wp_mono; [apply (read_ok junk _ fd f1 cs 512); try done; lia|].
      intros [n bytes] t (Eb & En & f2 & -> & Hh2 & Hc2 & Hp2 & Hz2). rewrite Hz1 in En.
      destruct (Z.ltb_spec 0 n); [|lia]. apply wp_bind, wp_modify, wp_ret. split.
      * exists f2, (OutBytes (c_text bytes) :: o). split.
        { unfold st, with_file, opened, set_files, emit, fs_console; simpl. by rewrite list_insert_insert_eq. }
        split; [by apply handle_emit|]. split; [exact Hc2|]. split; [lia|]. split; [congruence|].
        rewrite <-Ho, (to_print_next data (position f1)) by lia. simpl rev. rewrite <-app_assoc. simpl.
        rewrite Hp2, En, Hlen. do 4 f_equal. rewrite Eb. unfold file_bytes, data.
        change (content (st f1 o) cs) with (content s cs). rewrite Hz1, skipn_firstn_comm, take_take. f_equal. lia.
      * destruct Hh1 as (Hfd & Hf1 & _), Hh2 as (_ & Hf2 & _). cbn [open_files fs_console emit] in *.
        rewrite Hf1, Hf2. lia.
Qed.
End agent.

(** The file of 700 bytes of the demonstration volume. *)
Lemma print_file_prints_witness :
  ∃ f', print_file demo_junk 0 demo_fs = Ret (tt, opened (<[0%nat := f']> (open_files demo_fs))
      (rev (to_print (take 700 (content demo_fs [2; 4])) 0) ++ []) demo_fs) ∧
    position f' = 700.
Proof.
  destruct (print_file_prints demo_junk demo_fs 0 demo_file [2; 4] demo_geometry demo_handle
    ltac:(exists 0; split; [lia|]; split; [reflexivity|]; split; [change (spc demo_fs) with 1; simpl; lia|]; left; split; [simpl; lia|reflexivity])
    ltac:(reflexivity)) as (f' & Hrun & Hp & _).
  exists f'. split; [exact Hrun|exact Hp].
Defined.
