(* ===== verification/Reports.v ===== *)
(** * Reports: the shell commands that show the state of the system
    (src/core/shell.c, lines 61 to 393 and the texts of help and mem)

    They read the other components' states and print; [K] is the state of the
    whole system. *)

From Stdlib Require Import ZArith Lia String.
From stdpp Require Import base numbers list option strings.
From S2P Require Import Prelude Interfaces Pmm Kmalloc Timer Pci Rtl8169 CText.
Open Scope Z_scope.

(** The bytes of a register, lowest first. *)
Definition reg_bytes (r : Z) : list Z :=
  [Z.land r 0xFF; Z.land (Z.shiftr r 8) 0xFF; Z.land (Z.shiftr r 16) 0xFF; Z.land (Z.shiftr r 24) 0xFF].

Definition bit (r k : Z) : bool := negb (Z.land (Z.shiftr r k) 1 =? 0).

Section reports.
Context {K : Type} `{Console K} `{!Part pmm K} `{!Part kheap K} `{!Part timer K} `{!Part rtl K} `{!Part e1000 K}.
(** The CPUID instruction: EAX, EBX, ECX and EDX for a leaf; lwIP's list of
    interfaces, each with its IPv4 address. *)
Context (cpuid : Z → comp K (Z * Z * Z * Z)) (netif_list : comp K (list (netif * Z))).

(** *** ifconfig *)

Definition print_ip_addr (ip : Z) : comp K unit :=
  kprint_dec (Z.land (Z.shiftr ip 0) 0xFF);; print_char 46;;
  kprint_dec (Z.land (Z.shiftr ip 8) 0xFF);; print_char 46;;
  kprint_dec (Z.land (Z.shiftr ip 16) 0xFF);; print_char 46;;
  kprint_dec (Z.land (Z.shiftr ip 24) 0xFF);; print_char 10.

Definition print_hwaddr (n : netif) : comp K unit :=
  for_each 0 (hwaddr_len n) (λ i,
    b ← must (znth (hwaddr n) i);
    print_char (hex_digit (Z.shiftr b 4));;
    print_char (hex_digit b);;
    if i <? hwaddr_len n - 1 then print_char 58 else mret tt).

Definition print_netif (n : netif) (ip : Z) : comp K unit :=
  color COLOR_WHITE;;
  print_string "Interface: ";;
  print_char (nth 0 (nname n) 0);;
  print_char (nth 1 (nname n) 0);;
  print_char 10;;
  print_string "  IP Address: ";;
  print_ip_addr ip;;
  print_string "  HW MAC:     ";;
  print_hwaddr n;;
  print_string (NL +:+ "  Link MTU:   ");;
  kprint_dec (mtu n);;
  print_string (NL +:+ "  State:      ");;
  (if negb (Z.land (flags n) 0x04 =? 0) then color COLOR_LIGHT_GREEN;; print_line "ONLINE (UP)"
   else color COLOR_RED;; print_line "OFFLINE (DOWN)");;
  reset_text_color;;
  print_char 10.

Fixpoint print_netifs (l : list (netif * Z)) : comp K unit :=
  match l with [] => mret tt | (n, ip) :: l' => print_netif n ip;; print_netifs l' end.

Definition cmd_ifconfig : comp K unit :=
  color COLOR_LIGHT_CYAN;;
  print_line "Network Interfaces:";;
  print_line "-------------------";;
  reset_text_color;;
  l ← netif_list;
  match l with
  | [] =>
      color COLOR_LIGHT_RED;;
      print_line "No network interfaces detected. Run hardware scan first.";;
      reset_text_color
  | _ => print_netifs l
  end.

(** *** netstat *)

Definition print_traffic (what : string) (packets bytes : Z) : comp K unit :=
  print_string (what +:+ " Packets: ");;
  kprint_dec packets;;
  print_string " (";;
  kprint_dec bytes.

(** The receive counters of the mock driver are never written. *)
Definition cmd_netstat : comp K unit :=
  r ← gets (part (T := rtl));
  e ← gets (part (T := e1000));
  color COLOR_LIGHT_CYAN;;
  print_line "Network Statistics (RTL8169):";;
  print_line "-----------------------------";;
  reset_text_color;;
  print_traffic "TX" (tx_packets r) (tx_bytes r);; print_line " bytes)";;
  print_traffic "RX" (rx_packets r) (rx_bytes r);; print_string (" bytes)" +:+ NL +:+ NL);;
  color COLOR_LIGHT_CYAN;;
  print_line "Network Statistics (QEMU E1000 Mock):";;
  print_line "-------------------------------------";;
  reset_text_color;;
  print_traffic "TX" (e_tx_packets e) (e_tx_bytes e);; print_line " bytes)";;
  print_traffic "RX" 0 0;; print_line " bytes)".

(** *** pktdump *)

Definition show_packet (what : string) (p : list Z * Z) : comp K unit :=
  let '(data, len) := p in
  color COLOR_LIGHT_CYAN;;
  print_string ("Last RTL8169 " +:+ what +:+ " Packet (");;
  kprint_dec len;;
  print_line " bytes):";;
  print_line "------------------------------------------------";;
  reset_text_color;;
  (if 0 <? len then rtl8169_print_packet_parsed data len else mret tt);;
  hex_dump data len;;
  (if len =? 0 then print_line "None." else if negb (len mod 16 =? 0) then print_char 10 else mret tt).

Definition cmd_pktdump : comp K unit :=
  r ← gets (part (T := rtl));
  show_packet "TX" (last_tx r);;
  print_char 10;;
  show_packet "RX" (last_rx r).

(** *** cpuid *)

Definition vendor_text (ebx ecx edx : Z) : list Z := c_text (reg_bytes ebx ++ reg_bytes edx ++ reg_bytes ecx).

(** The brand string without its leading spaces. *)
Definition brand_text : comp K (list Z) :=
  '(a0, b0, c0, d0) ← cpuid 0x80000002;
  '(a1, b1, c1, d1) ← cpuid 0x80000003;
  '(a2, b2, c2, d2) ← cpuid 0x80000004;
  mret (skip_spaces (c_text (concat (map (le_enc 4) [a0; b0; c0; d0; a1; b1; c1; d1; a2; b2; c2; d2])))).

Definition cpu_family (eax : Z) : Z := Z.land (Z.shiftr eax 8) 0xF + Z.land (Z.shiftr eax 20) 0xFF.
Definition cpu_model (eax : Z) : Z :=
  Z.lor (Z.land (Z.shiftr eax 4) 0xF) (Z.shiftl (Z.land (Z.shiftr eax 16) 0xF) 4).

(** One of two texts, the first in green and the second in red. *)
Definition verdict (ok : bool) (yes no : string) : comp K unit :=
  (if ok then color COLOR_LIGHT_GREEN;; print_string yes else color COLOR_RED;; print_string no);;
  reset_text_color;;
  print_char 10.

Definition cmd_cpuid : comp K unit :=
  '(_, ebx, ecx, edx) ← cpuid 0;
  color COLOR_LIGHT_CYAN;;
  print_line "CPUID Information";;
  print_line "-----------------";;
  reset_text_color;;
  print_string "CPU Vendor    : ";; print_bytes (vendor_text ebx ecx edx);; print_char 10;;
  '(eax, _, ecx, edx) ← cpuid 1;
  print_string "Family/Model  : ";; kprint_dec (cpu_family eax);;
  print_string "/";; kprint_dec (cpu_model eax);;
  print_string "  Stepping: ";; kprint_dec (Z.land eax 0xF);; print_char 10;;
  print_string "Features      : ";;
  (if bit edx 0 then print_string "FPU " else mret tt);;
  (if bit edx 9 then print_string "APIC " else mret tt);;
  (if bit edx 26 then print_string "SSE2 " else mret tt);;
  (if bit ecx 20 then print_string "SSE4.2 " else mret tt);;
  (if bit ecx 28 then print_string "AVX " else mret tt);;
  print_char 10;;
  '(_, _, _, edx) ← cpuid 0x80000001;
  print_string "64-bit (LM)   : ";;
  verdict (bit edx 29) "YES - CPU supports x86_64" "NO  - 32-bit only";;
  bp ← brand_text;
  print_string "CPU Brand     : ";; print_bytes bp;; print_char 10.

(** *** arch *)

Definition cmd_arch : comp K unit :=
  color COLOR_LIGHT_GREEN;;
  print_line "  ___  __  ___  __      _____  _  _   ";;
  print_line " \ \ \/ _ \/ __\/_ \    / ___/ | || |  ";;
  print_line "  \ \/ // / (_ / __/   / /__  / _  |  ";;
  print_line "  /_/\___/\___/\___/   \___/ /_/ |_|  ";;
  reset_text_color;;
  print_char 10;;
  print_string "Architecture : ";;
  color COLOR_LIGHT_CYAN;;
  print_string "x86_64 (64-bit Long Mode)";;
  reset_text_color;;
  print_char 10;;
  print_line "Pointer Size : 64-bit (8 bytes)";;
  print_line "Page Tables  : 4-Level (PML4 → PDPT → PD → PT)";;
  print_line "Address Space: 48-bit Virtual (256 TB range)";;
  print_line "Endianness   : Little-Endian";;
  print_line "Registers    : RAX RBX RCX RDX RSI RDI R8-R15";;
  print_line "SIMD         : SSE2+";;
  '(_, _, _, edx) ← cpuid 0x80000001;
  print_string "Long Mode Bit: ";;
  verdict (bit edx 29) "SET (Active)" "NOT SET (ERROR)".

(** *** sysinfo *)

Definition section_head (s : string) : comp K unit := color COLOR_LIGHT_BLUE;; print_line s;; reset_text_color.

Definition print_cpu : comp K unit :=
  section_head "  =[ CPU ]================================";;
  '(_, ebx, ecx, edx) ← cpuid 0;
  print_string "  Vendor       : ";; print_bytes (vendor_text ebx ecx edx);; print_char 10;;
  bp ← brand_text;
  print_string "  Model        : ";; print_bytes bp;; print_char 10;;
  '(eax, _, _, edx) ← cpuid 1;
  print_string "  Family       : ";; kprint_dec (cpu_family eax);; print_string "  Model: ";; kprint_dec (cpu_model eax);; print_char 10;;
  print_string "  APIC         : ";;
  verdict (bit edx 9) "Present" "Not Found";;
  '(_, _, _, edx) ← cpuid 0x80000001;
  print_string "  x86_64 LM    : ";;
  verdict (bit edx 29) "Active" "INACTIVE".

Definition print_memory : comp K unit :=
  section_head "  =[ MEMORY ]=============================";;
  p ← gets (part (T := pmm));
  let total_mb := pmm_get_total_memory_kb p / 1024 in
  let used_kb := u32 (pmm_get_used_blocks p * 4) in
  let free_kb := u32 (pmm_get_free_blocks p * 4) in
  print_string "  Total RAM    : ";; kprint_dec total_mb;; print_line " MB";;
  print_string "  Used         : ";; kprint_dec (used_kb / 1024);; print_line " MB";;
  print_string "  Free         : ";; kprint_dec (free_kb / 1024);; print_line " MB".

Definition cmd_sysinfo : comp K unit :=
  color COLOR_LIGHT_CYAN;;
  print_line "  +--------------------------------------+";;
  print_line "  |    JARVIS OS  --  System Report      |";;
  print_line "  +--------------------------------------+";;
  reset_text_color;;
  section_head "  =[ OS ]=================================";;
  print_line "  Name         : Jarvis OS";;
  print_line "  Arch         : x86_64 (64-bit)";;
  print_line "  Boot Method  : GRUB Multiboot2 / UEFI";;
  print_line "  Paging       : 4-Level (PML4)";;
  print_line "  Networking   : lwIP (Bare-Metal TCP/IP Stack)";;
  print_line "  AI Shell     : Ollama API Autonomous Intercept";;
  print_cpu;;
  print_memory;;
  '(uptime_h, uptime_m, uptime_s) ← in_part timer_get_uptime;
  section_head "  =[ UPTIME ]=============================";;
  print_string "  ";;
  kprint_dec uptime_h;; print_string "h ";;
  kprint_dec uptime_m;; print_string "m ";;
  kprint_dec uptime_s;; print_line "s".

(** *** help and mem *)

Definition cmd_help : comp K unit :=
  print_line "Available commands:";;
  print_line "- ls [path]    (List files)";;
  print_line "- cd <path>    (Change directory)";;
  print_line "- cat <file>   (Show file contents)";;
  print_line "- touch <file> (Create empty file)";;
  print_line "- write <f> <t>(Write text to file)";;
  print_line "- rm <file>    (Remove file)";;
  print_line "- mkdir <dir>  (Create directory)";;
  print_line "- rmdir <dir>  (Remove directory)";;
  print_line "- clear        (Clear screen)";;
  print_line "- ps           (List processes)";;
  print_line "- mem          (Show memory statistics)";;
  print_line "- sysinfo      (Full system information)";;
  print_line "- cpuid        (Raw CPU identity report)";;
  print_line "- arch         (Confirm CPU architecture)";;
  print_line "- pci <class>  (Scan PCI bus: storage, network, audio)";;
  print_line "- ahci         (Scan for AHCI Storage Controllers)";;
  print_line "- ifconfig     (Show lwIP initialized network interfaces)";;
  print_line "- netstat      (Show network usage statistics)";;
  print_line "- ping <ip>    (Send ICMP Echo Request)";;
  print_line "- ai <ip> <p>  (Send query to Autonomous Agent via Network)";;
  print_line "- ai_mock      (Test Agentic intercept via fake Ollama payload)";;
  print_line "- pktdump [on|off] (Hex dump of last packet, or toggle live stream)";;
  print_string ("- reboot       (Restart system)" +:+ NL +:+ NL).

Definition cmd_mem : comp K unit :=
  p ← gets (part (T := pmm));
  print_string "Physical Memory: ";;
  kprint_dec (pmm_get_total_memory_kb p / 1024);;
  print_line " MB";;
  let used_p := pmm_get_used_blocks p in
  let total_p := u32 (pmm_get_used_blocks p + pmm_get_free_blocks p) in
  print_string "Physical Used:   ";;
  kprint_dec (u32 (used_p * 4096) / 1024);;
  print_string " KB / ";;
  kprint_dec (u32 (total_p * 4096) / 1024);;
  print_line " KB";;
  stats ← in_part kmalloc_get_stats;
  print_string "Kernel Heap:    ";;
  kprint_dec (used_size stats / 1024);;
  print_string " KB / ";;
  kprint_dec (total_size stats / 1024);;
  print_string (" KB" +:+ NL +:+ NL).
End reports.
