(* ===== verification/Shell.v ===== *)
(** * Shell: command line, commands, line editing and completion
    (src/core/shell.c)

    [K] is the state of the whole system.  The file system, the agent's store,
    the reports and the heap and frame statistics are the components' own
    operations; what reaches hardware or lwIP is an argument. *)

From Stdlib Require Import ZArith Lia String.
From stdpp Require Import base numbers list option strings.
From S2P Require Import Prelude Interfaces Pmm Kmalloc Timer Task Keyboard Pci Libc Fat32 Rtl8169 CText Agent Reports.
Open Scope Z_scope.

Record shell := MkShell {
  shell_buffer : list Z;
  buffer_idx : Z;
  tc_best_match : list Z;
  tc_match_count : Z;
  tc_prefix : list Z;
  tc_prefix_len : Z;
  tc_is_dir : bool;
  welcomed : bool
}.
Definition set_line b i s := MkShell b i (tc_best_match s) (tc_match_count s) (tc_prefix s) (tc_prefix_len s) (tc_is_dir s) (welcomed s).
Definition set_match m n d s := MkShell (shell_buffer s) (buffer_idx s) m n (tc_prefix s) (tc_prefix_len s) d (welcomed s).
Definition set_tc_prefix p n s := MkShell (shell_buffer s) (buffer_idx s) (tc_best_match s) (tc_match_count s) p n (tc_is_dir s) (welcomed s).
Definition set_welcomed s := MkShell (shell_buffer s) (buffer_idx s) (tc_best_match s) (tc_match_count s) (tc_prefix s) (tc_prefix_len s) (tc_is_dir s) true.
Definition shell_boot : shell := MkShell (replicate 256 0) 0 [] 0 [] 0 false false.

Definition commands : list (list Z) := map bytes_of
  ["ls"; "cd"; "cat"; "touch"; "write"; "rm"; "mkdir"; "rmdir"; "clear"; "echo"; "help"; "ps"; "mem"; "reboot";
   "sysinfo"; "cpuid"; "arch"; "pci"; "ahci"; "ifconfig"; "netstat"; "ai"; "ai_mock"; "pktdump"; "ping";
   "agent_ctx_set"; "agent_ctx_get"; "agent_task"]%string.

(** ** The command line *)

(** The index of the first space. *)
Fixpoint find_space (l : list Z) : option nat :=
  match l with [] => None | c :: t => if c =? 32 then Some O else Datatypes.S <$> find_space t end.

(** The argument without the slashes at its end; its first character stays. *)
Definition strip_slashes (arg : list Z) : list Z :=
  match arg with [] => [] | c :: t => c :: trim_end 47 t end.

(** A command line cut up: the command, its argument and where in the array
    it starts, and the array as the cutting leaves it. *)
Record cmd_line := MkLine { l_name : list Z; l_arg : option (list Z); l_off : nat; l_array : list Z }.

(** [None] when there is nothing but spaces. *)
Definition split_line (cmd : list Z) : option cmd_line :=
  let start := skip_spaces cmd in
  let lead := (length cmd - length start)%nat in
  match start with
  | [] => None
  | _ =>
      let body := trim_end 32 start in
      let array := take lead cmd ++ body ++ replicate (length start - length body) 0 in
      match find_space body with
      | None => Some (MkLine body None O array)
      | Some i =>
          let array := <[(lead + i)%nat := 0]> array in
          let rest := drop (Datatypes.S i) body in
          let arg := skip_spaces rest in
          match arg with
          | [] => Some (MkLine (take i body) None O array)
          | _ =>
              let off := (lead + Datatypes.S i + (length rest - length arg))%nat in
              let arg' := strip_slashes arg in
              Some (MkLine (take i body) (Some arg') off
                (splice array (Z.of_nat off) (arg' ++ replicate (length arg - length arg') 0)))
          end
      end
  end.

(** ** Completion *)

(** [strncmp] and, with [lower], [strncasecmp] answer 0 on two texts. *)
Fixpoint strn_eqb (f : Z → Z) (n : nat) (s1 s2 : list Z) : bool :=
  match n with
  | O => true
  | Datatypes.S n' =>
      let c1 := hd 0 s1 in
      let c2 := hd 0 s2 in
      if f c1 =? f c2 then if c1 =? 0 then true else strn_eqb f n' (tl s1) (tl s2) else false
  end.

(** How many characters two texts have in common at their start. *)
Fixpoint common_len (f : Z → Z) (s1 s2 : list Z) : nat :=
  match s1, s2 with
  | c1 :: t1, c2 :: t2 => if f c1 =? f c2 then Datatypes.S (common_len f t1 t2) else O
  | _, _ => O
  end.

Definition tc_callback (name : list Z) (attr : Z) : comp shell unit :=
  s ← get;
  if strn_eqb lower (Z.to_nat (tc_prefix_len s)) name (tc_prefix s) then
    let dir := negb (Z.land attr FAT_ATTR_DIRECTORY =? 0) in
    (if tc_match_count s =? 0 then
       m ← strcat_in 64 [] name;
       modify (λ s, set_match m (tc_match_count s) dir s)
     else
       let j := common_len lower (tc_best_match s) name in
       modify (set_match (take j (tc_best_match s)) (tc_match_count s)
                 (if tc_is_dir s && negb dir then false else tc_is_dir s)));;
    modify (λ s, set_match (tc_best_match s) (tc_match_count s + 1) (tc_is_dir s) s)
  else mret tt.

(** The matches of the commands: their number and what they have in common,
    in an array of 32. *)
Fixpoint match_commands {S} (cmds : list (list Z)) (prefix : list Z) (acc : Z * list Z) : comp S (Z * list Z) :=
  match cmds with
  | [] => mret acc
  | cmd :: cmds' =>
      let '(n, common) := acc in
      if strn_eqb (λ c, c) (length prefix) cmd prefix then
        common ← (if n =? 0 then strcat_in 32 [] cmd else mret (take (common_len (λ c, c) common cmd) common));
        match_commands cmds' prefix (n + 1, common)
      else match_commands cmds' prefix acc
  end.

Definition path_commands : list (list Z) := map bytes_of
  ["ls"; "cd"; "cat"; "rm"; "mkdir"; "rmdir"; "touch"; "write"]%string.

(** What follows the last space. *)
Fixpoint last_word (l : list Z) : option (list Z) :=
  match l with
  | [] => None
  | c :: t => match last_word t with Some w => Some w | None => if c =? 32 then Some t else None end
  end.

(** The argument cut at its first space, and where. *)
Definition cut_arg (arg : list Z) : option (list Z * list Z * nat) :=
  match find_space arg with
  | Some m => Some (take m arg, drop (Datatypes.S m) arg, m)
  | None => None
  end.

Section shell.
Context {K D : Type} `{BlockDev D} (junk : list Z) `{Console K}.
Context `{!Part shell K} `{!Part (fs D) K} `{!Part pmm K} `{!Part kheap K} `{!Part timer K} `{!Part sched K}
  `{!Part kbd K} `{!Part rtl K} `{!Part e1000 K}.
Context (cpuid : Z → comp K (Z * Z * Z * Z)) (netif_list : comp K (list (netif * Z))).
Context (clear_screen sys_reboot : comp K unit)
  (pci_scan_storage pci_scan_network pci_scan_multimedia pci_init_ahci : comp K unit)
  (ollama_request : list Z → list Z → comp K unit) (ollama_mock_intercept : comp K unit)
  (ping_request : list Z → comp K unit).

Definition in_sh {A} (m : comp shell A) : comp K A := in_part m.
Definition in_fs {A} (m : comp (fs D) A) : comp K A := in_part m.

(** *** Commands *)

Definition cmd_ls (arg : option (list Z)) : comp K unit :=
  match arg with
  | None => in_fs (fat32_ls junk 0)
  | Some arg =>
      cluster ← in_fs (fat32_resolve_path junk arg);
      if negb (cluster =? 0) then in_fs (fat32_ls junk cluster) else print_line "Directory not found!"
  end.

Definition cmd_cd (arg : list Z) : comp K unit :=
  r ← in_fs (fat32_chdir junk arg);
  if negb (r =? 0) then print_line "Directory not found!" else mret tt.

Definition cmd_cat (arg : list Z) : comp K unit :=
  fd ← in_fs (fat32_open junk arg 114);
  if 0 <=? fd then
    in_fs (print_file junk fd);;
    in_fs (fat32_close fd);;
    print_char 10
  else print_line "File not found!".

Definition cmd_touch (arg : list Z) : comp K unit :=
  fd ← in_fs (fat32_open junk arg 119);
  if 0 <=? fd then in_fs (fat32_close fd);; print_line "File created."
  else print_line "Failed to create file.".

Definition cmd_write (file text : list Z) : comp K unit :=
  fd ← in_fs (fat32_open junk file 119);
  if 0 <=? fd then
    _ ← in_fs (fat32_write junk fd text);
    in_fs (fat32_close fd);;
    print_line "File written."
  else print_line "Failed to write to file.".

(** [rm], [mkdir] and [rmdir] say how it went. *)
Definition say_result (m : comp K Z) (ok failed : string) : comp K unit :=
  r ← m; if r =? 0 then print_line ok else print_line failed.

Definition cmd_pci (arg : option (list Z)) : comp K unit :=
  match arg with
  | None => print_line "Usage: pci <storage|network|audio>"
  | Some arg =>
      if is_text arg "storage" then pci_scan_storage
      else if is_text arg "network" then pci_scan_network
      else if is_text arg "audio" then pci_scan_multimedia
      else print_line "Unknown PCI class. Valid: storage, network, audio"
  end.

(** [ai]: where it cut its argument. *)
Definition cmd_ai (arg : option (list Z)) : comp K (option nat) :=
  match arg with
  | None => print_line "Usage: ai <ip> <prompt>";; mret None
  | Some arg =>
      match cut_arg arg with
      | None => print_line "Usage: ai <ip> <prompt>";; mret None
      | Some (ip_str, rest, m) =>
          match skip_spaces rest with
          | [] => print_line "Usage: ai <ip> <prompt>";; mret (Some m)
          | prompt =>
              print_string "Networking: Connecting to Cognitive Core (AI) at ";;
              print_bytes ip_str;;
              print_line "...";;
              ollama_request ip_str prompt;;
              print_line "Network: Request queued. Waiting for Ollama response...";;
              mret (Some m)
          end
      end
  end.

Definition set_live_pktdump (b : bool) : comp K unit := in_part (modify (set_live b)).

Definition cmd_pktdump_arg (arg : option (list Z)) : comp K unit :=
  match arg with
  | None => cmd_pktdump
  | Some arg =>
      if is_text arg "on" then
        set_live_pktdump true;;
        color COLOR_LIGHT_GREEN;; print_line "Live continuous packet dump ENABLED.";; reset_text_color
      else if is_text arg "off" then
        set_live_pktdump false;;
        color COLOR_RED;; print_line "Live continuous packet dump DISABLED.";; reset_text_color
      else print_line "Usage: pktdump [on|off]"
  end.

(** A command that needs an argument. *)
Definition with_arg (usage : string) (arg : option (list Z)) (k : list Z → comp K unit) : comp K (option nat) :=
  match arg with
  | None => print_line ("Usage: " +:+ usage);; mret None
  | Some a => k a;; mret None
  end.
(** One that needs two: the argument is cut at its first space. *)
Definition with_two (usage : string) (arg : option (list Z)) (k : list Z → list Z → comp K unit) : comp K (option nat) :=
  match arg with
  | None => print_line ("Usage: " +:+ usage);; mret None
  | Some a =>
      match cut_arg a with
      | None => print_line ("Usage: " +:+ usage);; mret None
      | Some (x, y, m) => k x y;; mret (Some m)
      end
  end.
Definition done_with (m : comp K unit) : comp K (option nat) := m;; mret None.

(** Run a command; the answer is where it cut its argument, if it did. *)
Definition exec_command (name : list Z) (arg : option (list Z)) : comp K (option nat) :=
  let named := is_text name in
  if named "ls" then done_with (cmd_ls arg)
  else if named "cd" then with_arg "cd <path>" arg cmd_cd
  else if named "cat" then with_arg "cat <file>" arg cmd_cat
  else if named "touch" then with_arg "touch <file>" arg cmd_touch
  else if named "write" then with_two "write <file> <text>" arg cmd_write
  else if named "rm" then
    with_arg "rm <file>" arg (λ a, say_result (in_fs (fat32_unlink junk a)) "File removed." "Could not remove file.")
  else if named "mkdir" then
    with_arg "mkdir <dir>" arg (λ a, say_result (in_fs (fat32_mkdir junk a)) "Directory created." "Could not create directory.")
  else if named "rmdir" then
    with_arg "rmdir <dir>" arg (λ a, say_result (in_fs (fat32_rmdir junk a)) "Directory removed." "Could not remove directory.")
  else if named "clear" then done_with clear_screen
  else if named "echo" then
    done_with (match arg with Some a => print_bytes a | None => mret tt end;; print_char 10)
  else if named "help" then done_with cmd_help
  else if named "ps" then done_with (as_pair task_list)
  else if named "mem" then done_with cmd_mem
  else if named "reboot" then done_with (print_line "Rebooting...";; sys_reboot)
  else if named "sysinfo" then done_with (cmd_sysinfo cpuid)
  else if named "cpuid" then done_with (cmd_cpuid cpuid)
  else if named "arch" then done_with (cmd_arch cpuid)
  else if named "pci" then done_with (cmd_pci arg)
  else if named "ahci" then done_with pci_init_ahci
  else if named "ai" then cmd_ai arg
  else if named "ai_mock" then done_with ollama_mock_intercept
  else if named "ifconfig" then done_with (cmd_ifconfig netif_list)
  else if named "netstat" then done_with cmd_netstat
  else if named "ping" then with_arg "ping <ip>" arg ping_request
  else if named "agent_ctx_set" then
    with_two "agent_ctx_set <key> <value>" arg (λ k v, in_fs (agent_ctx_set junk k v))
  else if named "agent_ctx_get" then with_arg "agent_ctx_get <key>" arg (λ k, in_fs (agent_ctx_get junk k))
  else if named "agent_task" then with_arg "agent_task <instruction>" arg (agent_task ollama_request)
  else if named "pktdump" then done_with (cmd_pktdump_arg arg)
  else done_with (print_line "Unknown command. Type 'help' for assistance.").

(** [cmd] is the text of an array; the answer is what the array holds
    afterwards in the place of that text. *)
Definition shell_execute (cmd : list Z) : comp K (list Z) :=
  match split_line cmd with
  | None => mret cmd
  | Some l =>
      cut ← exec_command (l_name l) (l_arg l);
      mret (match cut with Some m => <[(l_off l + m)%nat := 0]> (l_array l) | None => l_array l end)
  end.

(** *** The line editor *)

Definition print_prompt : comp K unit :=
  color COLOR_LIGHT_GREEN;;
  print_string "JARVIS [";;
  color COLOR_LIGHT_BLUE;;
  in_fs fat32_print_cwd;;
  color COLOR_LIGHT_GREEN;;
  print_string "] $ ";;
  reset_text_color.

Definition interrupt : comp K unit :=
  color COLOR_LIGHT_RED;;
  print_line "^C";;
  reset_text_color;;
  s ← in_sh get;
  b ← must (zset (shell_buffer s) 0 0);
  in_sh (modify (set_line b 0));;
  set_live_pktdump false;;
  print_prompt.

(** Run the line the buffer holds and start a new one. *)
Definition run_line (text : list Z) : comp K unit :=
  after ← shell_execute text;
  in_sh (modify (λ s, set_line (splice (shell_buffer s) 0 after) (buffer_idx s) s));;
  print_prompt;;
  in_sh (modify (λ s, set_line (shell_buffer s) 0 s)).

Definition enter : comp K unit :=
  s ← in_sh get;
  b ← must (zset (shell_buffer s) (buffer_idx s) 0);
  in_sh (modify (set_line b (buffer_idx s)));;
  print_char 10;;
  run_line (c_text b).

Definition backspace : comp K unit :=
  in_sh (modify (λ s, set_line (shell_buffer s) (buffer_idx s - 1) s));;
  print_char 8;;
  print_char 32;;
  print_char 8.

(** A [char] is signed: from 128 on it is less than the space. *)
Definition type_char (c : Z) : comp K unit :=
  s ← in_sh get;
  if (buffer_idx s <? 255) && (32 <=? i8 c) then
    b ← must (zset (shell_buffer s) (buffer_idx s) c);
    in_sh (modify (set_line b (buffer_idx s + 1)));;
    color COLOR_WHITE;;
    print_char c;;
    reset_text_color
  else mret tt.

(** Type a text with the line editor itself. *)
Fixpoint type_all (input : Z → comp K unit) (l : list Z) : comp K unit :=
  match l with [] => mret tt | c :: l' => input c;; type_all input l' end.

Definition complete_command (input : Z → comp K unit) (prefix : list Z) : comp K unit :=
  '(n, common) ← match_commands commands prefix (0, []);
  if 0 <? n then
    type_all input (drop (length prefix) common);;
    if n =? 1 then input 32 else mret tt
  else mret tt.

(** Type the rest of the best match, read anew for every character. *)
Definition type_match (input : Z → comp K unit) (i : Z) : comp K unit :=
  loop (λ i,
    s ← in_sh get;
    match znth (tc_best_match s) i with
    | Some c => if c =? 0 then mret (inr tt) else input c;; mret (inl (i + 1))
    | None => mret (inr tt)
    end) i.

Definition complete_path (input : Z → comp K unit) (prefix : list Z) : comp K unit :=
  in_sh (modify (λ s, set_match [] 0 (tc_is_dir s) (set_tc_prefix prefix (Z.of_nat (length prefix)) s)));;
  cwd ← in_fs (gets fat32_cwd_cluster);
  _ ← fat32_list_dir junk cwd (λ name attr _ _, in_sh (tc_callback name attr));
  s ← in_sh get;
  if 0 <? tc_match_count s then
    type_match input (tc_prefix_len s);;
    s ← in_sh get;
    if tc_match_count s =? 1 then input (if tc_is_dir s then 47 else 32) else mret tt
  else mret tt.

Definition complete (input : Z → comp K unit) : comp K unit :=
  s ← in_sh get;
  let line := take (Z.to_nat (buffer_idx s)) (shell_buffer s) in
  match last_word line with
  | None => complete_command input (take 63 line)
  | Some word =>
      let cmd_name := take 31 (match find_space line with Some k => take k line | None => line end) in
      if existsb (text_eqb cmd_name) path_commands then complete_path input (take 63 word) else mret tt
  end.

(** [depth] bounds the nesting of completions. *)
Fixpoint shell_input (depth : nat) (c : Z) : comp K unit :=
  match depth with
  | O => out_of_fuel
  | Datatypes.S depth' =>
      if c =? 3 then interrupt
      else if c =? 10 then enter
      else
        s ← in_sh get;
        if (c =? 8) && (0 <? buffer_idx s) then backspace
        else if c =? 9 then complete (shell_input depth')
        else type_char c
  end.

Definition welcome : comp K unit :=
  color COLOR_LIGHT_CYAN;;
  print_string (NL +:+ "JARVIS OS - Interactive Mode" +:+ NL);;
  reset_text_color;;
  print_string ("Type 'help' for a list of commands." +:+ NL +:+ NL);;
  print_prompt;;
  in_sh (modify set_welcomed).

Definition shell_task (depth : nat) : comp K unit :=
  s ← in_sh get;
  (if negb (welcomed s) then welcome else mret tt);;
  c ← in_part kbd_get;
  if negb (c =? 0) then shell_input depth c else mret tt.
End shell.
