(* ===== verification/System.v ===== *)
(** * System: the state of the whole kernel

    One record holds the state of every component that the shell and the boot
    sequence reach.  Each component finds its state in it through [Part]; the
    frame allocator's is inside the page tables', which is inside the heap's.
    [D] is the disk and [Y] the rest: lwIP, the ports and the display. *)

From Stdlib Require Import ZArith Lia String.
From stdpp Require Import base numbers list option strings.
From S2P Require Import Prelude Interfaces Pmm Vmm Kmalloc Timer Task Arch Keyboard Fat32 Ata Rtl8169 NetStack Shell.
Open Scope Z_scope.

Record kernel (D Y : Type) := MkKernel {
  k_gdt : gdt_state;
  k_arch : arch;
  k_gsi : Z;                (* system_timer_gsi of acpi.c *)
  k_timer : timer;
  k_heap : kheap;
  k_sched : sched;
  k_kbd : kbd;
  k_ata : ata;
  k_fs : fs D;
  k_rtl : rtl;
  k_e1000 : e1000;
  k_net : net;
  k_shell : shell;
  k_rest : Y
}.
Arguments MkKernel {D Y}.
Arguments k_gdt {D Y}.
Arguments k_arch {D Y}.
Arguments k_gsi {D Y}.
Arguments k_timer {D Y}.
Arguments k_heap {D Y}.
Arguments k_sched {D Y}.
Arguments k_kbd {D Y}.
Arguments k_ata {D Y}.
Arguments k_fs {D Y}.
Arguments k_rtl {D Y}.
Arguments k_e1000 {D Y}.
Arguments k_net {D Y}.
Arguments k_shell {D Y}.
Arguments k_rest {D Y}.

(** What the kernel prints is logged with the file system's output. *)
#[export] Instance kernel_console {D Y} : Console (kernel D Y) := λ o k,
  MkKernel (k_gdt k) (k_arch k) (k_gsi k) (k_timer k) (k_heap k) (k_sched k) (k_kbd k) (k_ata k) (emit o (k_fs k))
    (k_rtl k) (k_e1000 k) (k_net k) (k_shell k) (k_rest k).

Ltac part_laws := intros; repeat match goal with k : kernel _ _ |- _ => destruct k end; done.

#[export] Program Instance part_gdt {D Y} : Part gdt_state (kernel D Y) := {|
  part := k_gdt;
  put_part := λ x k, MkKernel x (k_arch k) (k_gsi k) (k_timer k) (k_heap k) (k_sched k) (k_kbd k) (k_ata k) (k_fs k) (k_rtl k) (k_e1000 k) (k_net k) (k_shell k) (k_rest k) |}.
Solve Obligations with part_laws.
#[export] Program Instance part_arch {D Y} : Part arch (kernel D Y) := {|
  part := k_arch;
  put_part := λ x k, MkKernel (k_gdt k) x (k_gsi k) (k_timer k) (k_heap k) (k_sched k) (k_kbd k) (k_ata k) (k_fs k) (k_rtl k) (k_e1000 k) (k_net k) (k_shell k) (k_rest k) |}.
Solve Obligations with part_laws.
#[export] Program Instance part_gsi {D Y} : Part Z (kernel D Y) := {|
  part := k_gsi;
  put_part := λ x k, MkKernel (k_gdt k) (k_arch k) x (k_timer k) (k_heap k) (k_sched k) (k_kbd k) (k_ata k) (k_fs k) (k_rtl k) (k_e1000 k) (k_net k) (k_shell k) (k_rest k) |}.
Solve Obligations with part_laws.
#[export] Program Instance part_timer {D Y} : Part timer (kernel D Y) := {|
  part := k_timer;
  put_part := λ x k, MkKernel (k_gdt k) (k_arch k) (k_gsi k) x (k_heap k) (k_sched k) (k_kbd k) (k_ata k) (k_fs k) (k_rtl k) (k_e1000 k) (k_net k) (k_shell k) (k_rest k) |}.
Solve Obligations with part_laws.
#[export] Program Instance part_heap {D Y} : Part kheap (kernel D Y) := {|
  part := k_heap;
  put_part := λ x k, MkKernel (k_gdt k) (k_arch k) (k_gsi k) (k_timer k) x (k_sched k) (k_kbd k) (k_ata k) (k_fs k) (k_rtl k) (k_e1000 k) (k_net k) (k_shell k) (k_rest k) |}.
Solve Obligations with part_laws.
#[export] Program Instance part_sched {D Y} : Part sched (kernel D Y) := {|
  part := k_sched;
  put_part := λ x k, MkKernel (k_gdt k) (k_arch k) (k_gsi k) (k_timer k) (k_heap k) x (k_kbd k) (k_ata k) (k_fs k) (k_rtl k) (k_e1000 k) (k_net k) (k_shell k) (k_rest k) |}.
Solve Obligations with part_laws.
#[export] Program Instance part_kbd {D Y} : Part kbd (kernel D Y) := {|
  part := k_kbd;
  put_part := λ x k, MkKernel (k_gdt k) (k_arch k) (k_gsi k) (k_timer k) (k_heap k) (k_sched k) x (k_ata k) (k_fs k) (k_rtl k) (k_e1000 k) (k_net k) (k_shell k) (k_rest k) |}.
Solve Obligations with part_laws.
#[export] Program Instance part_ata {D Y} : Part ata (kernel D Y) := {|
  part := k_ata;
  put_part := λ x k, MkKernel (k_gdt k) (k_arch k) (k_gsi k) (k_timer k) (k_heap k) (k_sched k) (k_kbd k) x (k_fs k) (k_rtl k) (k_e1000 k) (k_net k) (k_shell k) (k_rest k) |}.
Solve Obligations with part_laws.
#[export] Program Instance part_fs {D Y} : Part (fs D) (kernel D Y) := {|
  part := k_fs;
  put_part := λ x k, MkKernel (k_gdt k) (k_arch k) (k_gsi k) (k_timer k) (k_heap k) (k_sched k) (k_kbd k) (k_ata k) x (k_rtl k) (k_e1000 k) (k_net k) (k_shell k) (k_rest k) |}.
Solve Obligations with part_laws.
#[export] Program Instance part_rtl {D Y} : Part rtl (kernel D Y) := {|
  part := k_rtl;
  put_part := λ x k, MkKernel (k_gdt k) (k_arch k) (k_gsi k) (k_timer k) (k_heap k) (k_sched k) (k_kbd k) (k_ata k) (k_fs k) x (k_e1000 k) (k_net k) (k_shell k) (k_rest k) |}.
Solve Obligations with part_laws.
#[export] Program Instance part_e1000 {D Y} : Part e1000 (kernel D Y) := {|
  part := k_e1000;
  put_part := λ x k, MkKernel (k_gdt k) (k_arch k) (k_gsi k) (k_timer k) (k_heap k) (k_sched k) (k_kbd k) (k_ata k) (k_fs k) (k_rtl k) x (k_net k) (k_shell k) (k_rest k) |}.
Solve Obligations with part_laws.
#[export] Program Instance part_net {D Y} : Part net (kernel D Y) := {|
  part := k_net;
  put_part := λ x k, MkKernel (k_gdt k) (k_arch k) (k_gsi k) (k_timer k) (k_heap k) (k_sched k) (k_kbd k) (k_ata k) (k_fs k) (k_rtl k) (k_e1000 k) x (k_shell k) (k_rest k) |}.
Solve Obligations with part_laws.
#[export] Program Instance part_shell {D Y} : Part shell (kernel D Y) := {|
  part := k_shell;
  put_part := λ x k, MkKernel (k_gdt k) (k_arch k) (k_gsi k) (k_timer k) (k_heap k) (k_sched k) (k_kbd k) (k_ata k) (k_fs k) (k_rtl k) (k_e1000 k) (k_net k) x (k_rest k) |}.
Solve Obligations with part_laws.

(** The parts inside the heap's state. *)
Definition put_vm {D Y} (v : vmm pmm) (k : kernel D Y) : kernel D Y :=
  put_part (MkKheap (kh_mem (k_heap k)) (heap_start (k_heap k)) (dynamic_heap_size (k_heap k)) v) k.
Definition put_frames {D Y} (p : pmm) (k : kernel D Y) : kernel D Y :=
  let v := kh_vm (k_heap k) in put_vm (MkVmm (vm_mem v) p (vm_invlpg v) (vm_cr3 v)) k.
Ltac inner_laws := part_laws || (intros; repeat match goal with k : kernel _ _ |- _ => destruct k as [? ? ? ? [? ? ? []] ? ? ? ? ? ? ? ? ?] end; done).
#[export] Program Instance part_vm {D Y} : Part (vmm pmm) (kernel D Y) := {|
  part := λ k, kh_vm (k_heap k); put_part := put_vm |}.
Solve Obligations with inner_laws.
#[export] Program Instance part_pmm {D Y} : Part pmm (kernel D Y) := {|
  part := λ k, vm_frames (kh_vm (k_heap k)); put_part := put_frames |}.
Solve Obligations with inner_laws.

(** The zero-initialised globals. [vm] are the words of the page tables the
    loader leaves; the ramdisk is what pmm_init has found. *)
Definition kernel_boot {D Y} (vm : Z → Z) (a : ata) (f : fs D) (y : Y) : kernel D Y :=
  MkKernel (MkGdtState (replicate 3 gdt_zero) 0 0) (MkArch (replicate 256 idt_zero) 0 0 0 0 [] []) system_timer_gsi_boot
    (MkTimer 0 0 []) (MkKheap (λ _, 0) 0 0 (MkVmm vm pmm_boot [] 0)) sched_boot kbd_boot a f rtl_boot e1000_boot
    net_boot shell_boot y.
