(* ===== verification/ShellFacts.v ===== *)
(** * ShellFacts: properties of the shell

    The grammar of command lines against the in-place cutting, the line editor
    against an abstract one, and the completion of commands. *)

From Stdlib Require Import ZArith Lia String.
From stdpp Require Import base numbers list option strings.
From S2P Require Import Prelude Interfaces Pmm Kmalloc Timer Task Keyboard Fat32 Ata Fat32Facts Rtl8169 CText Shell System.
Open Scope Z_scope.

(** ** Command lines *)

Definition word (l : list Z) : Prop := l ≠ [] ∧ Forall (λ c, c ≠ 32) l.

(** The command lines: spaces, a word, and perhaps spaces and an argument,
    which may hold spaces inside, and spaces. *)
Inductive reads_as : list Z → list Z → option (list Z) → Prop :=
  | reads_word a name c :
      word name → reads_as (replicate a 32 ++ name ++ replicate c 32) name None
  | reads_arg a name b arg c :
      word name → arg ≠ [] → head arg ≠ Some 32 → last arg ≠ Some 32 →
      reads_as (replicate a 32 ++ name ++ replicate (Datatypes.S b) 32 ++ arg ++ replicate c 32) name (Some arg).

Lemma find_space_none l : Forall (λ c, c ≠ 32) l → find_space l = None.
Proof. induction 1 as [|c l Hc Hl IH]; simpl; [done|]. destruct (Z.eqb_spec c 32); [done|]. by rewrite IH. Qed.
Lemma find_space_app l t : Forall (λ c, c ≠ 32) l → find_space (l ++ 32 :: t) = Some (length l).
Proof. induction 1 as [|c l Hc Hl IH]; simpl; [done|]. destruct (Z.eqb_spec c 32); [done|]. by rewrite IH. Qed.
Lemma find_space_spec l :
  match find_space l with
  | Some i => l = take i l ++ 32 :: drop (Datatypes.S i) l ∧ Forall (λ c, c ≠ 32) (take i l)
  | None => Forall (λ c, c ≠ 32) l
  end.
Proof.
  induction l as [|c l IH]; simpl; [constructor|]. destruct (Z.eqb_spec c 32) as [->|Hc].
  - split; [done|constructor].
  - destruct (find_space l) as [i|]; simpl; [|by constructor]. destruct IH as [E Hf]. split; [by f_equal|by constructor].
Qed.

Lemma word_head l : word l → head l ≠ Some 32.
Proof. intros [Hne Hf]. destruct l; [done|]. inversion Hf. simpl. congruence. Qed.
Lemma forall_last l : Forall (λ c, c ≠ 32) l → last l ≠ Some 32.
Proof. intros Hf E. apply last_Some_elem_of in E. rewrite Forall_forall in Hf. by apply (Hf 32). Qed.

Lemma skip_spaces_app a l : head l ≠ Some 32 → skip_spaces (replicate a 32 ++ l) = l.
Proof. intros Hl. rewrite skip_spaces_char. by apply skip_char_app. Qed.

Lemma c_text_app l t : nul_free l → c_text (l ++ 0 :: t) = l.
Proof. induction 1 as [|c l Hc Hl IH]; simpl; [done|]. destruct (Z.eqb_spec c 0); [done|]. by rewrite IH. Qed.
Lemma c_text_zeros l n : nul_free l → c_text (l ++ replicate n 0) = l.
Proof.
  intros Hl. destruct n; simpl; [rewrite app_nil_r; by apply c_text_id|by apply c_text_app].
Qed.

Lemma length_strip_slashes l : (length (strip_slashes l) ≤ length l)%nat.
Proof. destruct l as [|c l]; simpl; [done|]. pose proof (length_trim_end 47 l). lia. Qed.

Lemma split_word a name c :
  word name →
  split_line (replicate a 32 ++ name ++ replicate c 32) = Some (MkLine name None O (replicate a 32 ++ name ++ replicate c 0)).
Proof.
  intros Hw. pose proof (word_head _ Hw) as Hh. destruct Hw as [Hne Hf]. pose proof (forall_last _ Hf) as Hl.
  unfold split_line. rewrite skip_spaces_app by (by destruct name).
  rewrite trim_end_app, find_space_none by done. destruct name as [|d name]; [done|].
  cbn [app]. rewrite app_comm_cons. do 2 f_equal. rewrite !length_app, !length_replicate.
  replace (a + (length (d :: name) + c) - (length (d :: name) + c))%nat with a by lia.
  rewrite take_app_length' by by rewrite length_replicate.
  by replace (length (d :: name) + c - length (d :: name))%nat with c by lia.
Qed.

(** What the cutting leaves when there is an argument. *)
Lemma split_arg a name b arg c :
  word name → arg ≠ [] → head arg ≠ Some 32 → last arg ≠ Some 32 →
  ∃ l t, split_line (replicate a 32 ++ name ++ replicate (Datatypes.S b) 32 ++ arg ++ replicate c 32) = Some l ∧
    l_name l = name ∧ l_arg l = Some (strip_slashes arg) ∧ l_array l = replicate a 32 ++ name ++ 0 :: t ∧
    (a + length name < l_off l)%nat ∧
    length (l_array l) = (a + length name + Datatypes.S b + length arg + c)%nat.
Proof.
  intros Hw Hane Hah Hal. pose proof (word_head _ Hw) as Hh. destruct Hw as [Hne Hf].
  set (body := name ++ replicate (Datatypes.S b) 32 ++ arg).
  assert (El : last body = last arg) by (unfold body; rewrite !last_app; by destruct (last arg) eqn:E; [|apply last_None in E]).
  assert (Estart : skip_spaces (replicate a 32 ++ name ++ replicate (Datatypes.S b) 32 ++ arg ++ replicate c 32) = body ++ replicate c 32).
  { rewrite skip_spaces_app by (by destruct name). unfold body. by rewrite <-!app_assoc. }
  unfold split_line. rewrite Estart, trim_end_app by congruence.
  assert (Efind : find_space body = Some (length name)) by by apply find_space_app.
  rewrite Efind. clear Estart. destruct (body ++ replicate c 32) as [|d0 rest0] eqn:E0.
  { unfold body in E0. by destruct name. }
  rewrite <-E0. clear d0 rest0 E0. cbv zeta.
  assert (Etake : take (length name) body = name) by by apply take_app_length.
  assert (Edrop : drop (Datatypes.S (length name)) body = replicate b 32 ++ arg).
  { unfold body. simpl replicate. rewrite <-app_comm_cons. by rewrite drop_app_ge, Nat.sub_succ_l, Nat.sub_diag by lia. }
  rewrite Etake, Edrop, skip_spaces_app by done.
  set (lead := (length _ - length (body ++ _))%nat).
  assert (Elead : lead = a) by (unfold lead, body; rewrite !length_app, !length_replicate; lia).
  rewrite Elead. clearbody lead.
  match goal with |- context [match arg with [] => ?x | _ :: _ => ?y end] =>
    replace (match arg with [] => x | _ :: _ => y end) with y by (clear -Hane; by destruct arg) end.
  assert (Elen : (length (replicate b (32:Z) ++ arg) - length arg)%nat = b) by (rewrite length_app, length_replicate; lia).
  assert (Epad : (length (body ++ replicate c (32:Z)) - length body)%nat = c) by (rewrite length_app, length_replicate; lia).
  rewrite Elen, Epad, take_app_length' by by rewrite length_replicate.
  set (pre := replicate a 32 ++ name).
  assert (Ecut : <[(a + length name)%nat := 0]> (replicate a 32 ++ body ++ replicate c 0) =
    pre ++ 0 :: replicate b 32 ++ arg ++ replicate c 0).
  { unfold body, pre. rewrite <-!app_assoc. replace (a + length name)%nat with (length (replicate a (32:Z) ++ name) + 0)%nat
      by (rewrite length_app, length_replicate; lia).
    rewrite (app_assoc (replicate a 32)), insert_app_r. by rewrite <-app_assoc. }
  assert (Epre : length pre = (a + length name)%nat) by (unfold pre; by rewrite length_app, length_replicate).
  rewrite Ecut. set (new := strip_slashes arg ++ _).
  assert (Enew : length new = length arg).
  { unfold new. rewrite length_app, length_replicate. pose proof (length_strip_slashes arg). lia. }
  eexists. exists (replicate b 32 ++ new ++ replicate c 0). split; [done|]. cbn [l_name l_arg l_array l_off].
  split; [done|]. split; [done|]. unfold splice. rewrite Nat2Z.id.
  replace (a + Datatypes.S (length name) + b)%nat with (length (pre ++ 0 :: replicate b 32))
    by (rewrite length_app; simpl; rewrite length_replicate; lia).
  rewrite app_comm_cons, (app_assoc pre), take_app_length. rewrite drop_app_ge by lia.
  replace (_ + length new - _)%nat with (length new) by lia. rewrite Enew, drop_app_length.
  unfold pre. rewrite <-!app_assoc. split; [done|]. rewrite !length_app. simpl. rewrite !length_replicate. lia.
Qed.

(** Every line is blank or reads as a command. *)
Lemma line_cases cmd : (∃ n, cmd = replicate n 32) ∨ ∃ name arg, reads_as cmd name arg.
Proof.
  destruct (skip_char_suffix 32 cmd) as [a Ea]. destruct (skip_char 32 cmd) as [|d start] eqn:Es.
  { left. exists a. by rewrite app_nil_r in Ea. }
  right. assert (Hd : d ≠ 32) by (intros ->; by apply (skip_char_head 32 cmd); rewrite Es).
  destruct (trim_end_prefix 32 (d :: start)) as [c Ec]. pose proof (trim_end_last 32 (d :: start)) as Hl.
  assert (Hb : head (trim_end 32 (d :: start)) = Some d).
  { destruct (trim_end 32 (d :: start)) as [|e body]; [|by injection Ec as <- _].
    destruct c as [|c]; [done|]. by injection Ec. }
  set (body := trim_end 32 (d :: start)) in *. clearbody body. rewrite Ec in Ea.
  pose proof (find_space_spec body) as Hf. destruct (find_space body) as [i|].
  - destruct Hf as [Ebody Hw]. set (name := take i body) in *.
    destruct (skip_char_suffix 32 (drop (Datatypes.S i) body)) as [b Eb]. set (arg := skip_char 32 (drop (Datatypes.S i) body)) in *.
    assert (Hname : word name).
    { split; [|done]. intros E. rewrite E in Ebody. simpl in Ebody. rewrite Ebody in Hb. by injection Hb. }
    assert (E : body = name ++ replicate (Datatypes.S b) 32 ++ arg) by (rewrite Ebody at 1; by rewrite Eb at 1).
    exists name, (Some arg). rewrite Ea, E, <-!app_assoc. apply reads_arg; try done.
    + intros Earg. rewrite Earg, app_nil_r in E. apply Hl. rewrite E, replicate_S_end, app_assoc. apply last_snoc.
    + apply skip_char_head.
    + intros Earg. apply Hl. by rewrite E, app_assoc, last_app, Earg.
  - exists body, None. rewrite Ea. apply reads_word. split; [|done]. by destruct body.
Qed.

(** ** Completion *)

Lemma strn_eqb_prefix w cmd : nul_free w → strn_eqb (λ c, c) (length w) cmd w = bool_decide (w `prefix_of` cmd).
Proof.
  intros Hw. revert cmd. induction Hw as [|c w Hc Hw IH]; intros cmd.
  - symmetry. apply bool_decide_eq_true, prefix_nil.
  - cbn [length strn_eqb hd tl]. destruct cmd as [|d cmd]; cbn [hd tl].
    + destruct (Z.eqb_spec 0 c); [congruence|]. symmetry. apply bool_decide_eq_false. by apply prefix_nil_not.
    + destruct (Z.eqb_spec d c) as [->|Hne].
      * destruct (Z.eqb_spec c 0); [done|]. rewrite IH. apply bool_decide_ext. split; [apply prefix_cons|apply prefix_cons_inv_2].
      * symmetry. apply bool_decide_eq_false. intros ?%prefix_cons_inv_1. congruence.
Qed.

(** The longest common prefix of some texts. *)
Definition is_lcp (p : list Z) (l : list (list Z)) : Prop :=
  (∀ x, x ∈ l → p `prefix_of` x) ∧ ∀ q, (∀ x, x ∈ l → q `prefix_of` x) → q `prefix_of` p.

Lemma common_prefix p cmd q :
  q `prefix_of` take (common_len (λ c, c) p cmd) p ↔ q `prefix_of` p ∧ q `prefix_of` cmd.
Proof.
  revert cmd q. induction p as [|c p IH]; intros cmd q; simpl.
  - split; [intros Hq|by intros [? _]]. split; [done|]. destruct q; [apply prefix_nil|by apply prefix_nil_not in Hq].
  - destruct cmd as [|d cmd].
    { simpl. split; [intros Hq|intros [_ ?]; done]. split; [|done]. destruct q; [apply prefix_nil|by apply prefix_nil_not in Hq]. }
    destruct (Z.eqb_spec c d) as [->|Hne]; simpl; destruct q as [|e q].
    + split; intros; [split|]; apply prefix_nil.
    + split.
      * intros Hq. pose proof (prefix_cons_inv_1 _ _ _ _ Hq) as ->. apply prefix_cons_inv_2, IH in Hq as [? ?].
        split; by apply prefix_cons.
      * intros [H1 H2]. pose proof (prefix_cons_inv_1 _ _ _ _ H1) as ->. apply prefix_cons, IH.
        split; by eapply prefix_cons_inv_2.
    + split; intros; [split|]; apply prefix_nil.
    + split; [intros Hq; by apply prefix_nil_not in Hq|]. intros [H1 H2].
      apply prefix_cons_inv_1 in H1, H2. congruence.
Qed.

Lemma lcp_one x : is_lcp x [x].
Proof. split; [by intros y ->%list_elem_of_singleton|]. intros q Hq. apply Hq, list_elem_of_singleton. done. Qed.
Lemma lcp_snoc p l cmd : is_lcp p l → is_lcp (take (common_len (λ c, c) p cmd) p) (l ++ [cmd]).
Proof.
  intros [H1 H2]. destruct (proj1 (common_prefix p cmd _) (reflexivity _)) as [Ha Hb]. split.
  - intros x [Hx| ->%list_elem_of_singleton]%elem_of_app; [|done]. etrans; [exact Ha|by apply H1].
  - intros q Hq. apply common_prefix. split; [apply H2; intros x Hx|]; apply Hq, elem_of_app; [by left|right].
    by apply list_elem_of_singleton.
Qed.

Definition summary (l : list (list Z)) (acc : Z * list Z) : Prop :=
  acc.1 = Z.of_nat (length l) ∧ (l = [] → acc.2 = []) ∧ (l ≠ [] → is_lcp acc.2 l).

Lemma match_commands_ok {S} w cmds seen acc (s : S) :
  nul_free w → Forall (λ c, (length c < 32)%nat) cmds → summary seen acc →
  wp (match_commands cmds w acc) (λ acc' s', s' = s ∧ summary (seen ++ filter (λ c, w `prefix_of` c) cmds) acc') s.
Proof.
  intros Hw Hc. revert seen acc. induction Hc as [|cmd cmds Hl Hc IH]; intros seen [n common] Hs.
  { apply wp_ret. by rewrite app_nil_r. }
  cbn [match_commands]. rewrite strn_eqb_prefix by done. destruct (decide (w `prefix_of` cmd)) as [Hp|Hp].
  - rewrite bool_decide_eq_true_2, filter_cons_True by done. rewrite cons_middle, app_assoc. apply wp_bind.
    destruct Hs as (En & He & Hlcp). cbn [fst snd] in *. destruct (Z.eqb_spec n 0) as [->|Hn].
    + apply wp_strcat_in; [simpl; lia|]. apply IH. destruct seen; [|simpl in En; lia].
      split; [done|]. split; [done|]. intros _. apply lcp_one.
    + apply wp_ret. apply IH. split; [rewrite length_app; simpl; lia|]. split; [by destruct seen|].
      intros _. apply lcp_snoc, Hlcp. intros ->. simpl in En. lia.
  - rewrite bool_decide_eq_false_2, filter_cons_False by done. by apply IH.
Qed.

(** The characters of commands. *)
Definition letter (c : Z) : Prop := 33 ≤ c ≤ 126.
Lemma commands_letters : Forall (λ cmd, Forall letter cmd ∧ (length cmd < 32)%nat) commands.
Proof.
  assert (H : forallb (λ cmd, forallb (λ c, (33 <=? c) && (c <=? 126)) cmd && (length cmd <? 32)%nat) commands = true) by reflexivity.
  rewrite forallb_forall in H. apply Forall_forall. intros cmd Hin. apply list_elem_of_In, H, andb_true_iff in Hin as [Hl Hn].
  rewrite forallb_forall in Hl. split; [|by apply Nat.ltb_lt in Hn]. apply Forall_forall. intros c Hc.
  apply list_elem_of_In, Hl in Hc. unfold letter. destr_bool. lia.
Qed.

Lemma letter_i8 c : 32 ≤ c ≤ 126 → i8 c = c.
Proof. intros Hc. unfold i8, signed. change (2 ^ (8 - 1)) with 128. change (2 ^ 8) with 256. rewrite Z.mod_small; lia. Qed.

Lemma last_word_none l : Forall (λ c, c ≠ 32) l → last_word l = None.
Proof. induction 1 as [|c l Hc Hl IH]; simpl; [done|]. rewrite IH. by destruct (Z.eqb_spec c 32). Qed.

Section shell.
Context {K D : Type} `{BlockDev D} (junk : list Z) `{Console K}.
Context `{!Part shell K} `{!Part (fs D) K} `{!Part pmm K} `{!Part kheap K} `{!Part timer K} `{!Part sched K}
  `{!Part kbd K} `{!Part rtl K} `{!Part e1000 K}.
Context (cpuid : Z → comp K (Z * Z * Z * Z)) (netif_list : comp K (list (netif * Z))).
Context (clear_screen sys_reboot : comp K unit)
  (pci_scan_storage pci_scan_network pci_scan_multimedia pci_init_ahci : comp K unit)
  (ollama_request : list Z → list Z → comp K unit) (ollama_mock_intercept : comp K unit)
  (ping_request : list Z → comp K unit).

Abbreviation execute := (shell_execute junk cpuid netif_list clear_screen sys_reboot pci_scan_storage pci_scan_network
  pci_scan_multimedia pci_init_ahci ollama_request ollama_mock_intercept ping_request).
Abbreviation exec := (exec_command junk cpuid netif_list clear_screen sys_reboot pci_scan_storage pci_scan_network
  pci_scan_multimedia pci_init_ahci ollama_request ollama_mock_intercept ping_request).

(** C27. Command lines.  [shell_execute] does nothing on a blank line, and
    every other line reads as a command with or without an argument; it then
    runs that command, with the slashes at the end of the argument cut, and
    leaves in the array a string that ends after the command's word: what a
    caller that shows its line afterwards shows of it. *)
Theorem command_line_executed (cmd : list Z) (k : K) :
  nul_free cmd →
  (∃ n, cmd = replicate n 32) ∧ execute cmd k = Ret (cmd, k) ∨
  ∃ a name arg after, reads_as cmd name arg ∧
    execute cmd k = (cut ← exec name (strip_slashes <$> arg); mret (after cut)) k ∧
    ∀ cut, (arg = None → cut = None) → length (after cut) = length cmd ∧ c_text (after cut) = replicate a 32 ++ name.
Proof.
  intros Hnul. destruct (line_cases cmd) as [[n ->]|(name & arg & Hr)].
  - left. split; [by exists n|]. unfold shell_execute, split_line.
    rewrite <-(app_nil_r (replicate n 32)), skip_spaces_app by done. done.
  - right. assert (Hreads := Hr). destruct Hr as [a name c Hw|a name b arg c Hw Hne Hh Hl].
    + apply Forall_app in Hnul as [Ha [Hn _]%Forall_app].
      exists a, name, None, (λ cut, match cut with Some m => <[(0 + m)%nat := 0]> (replicate a 32 ++ name ++ replicate c 0)
                                     | None => replicate a 32 ++ name ++ replicate c 0 end).
      split; [done|]. split; [unfold shell_execute; by rewrite split_word|]. intros cut Hcut. rewrite Hcut by done.
      split; [by rewrite !length_app, !length_replicate|]. rewrite app_assoc. apply c_text_zeros. by apply Forall_app_2.
    + destruct (split_arg a name b arg c Hw Hne Hh Hl) as (l & t & Es & En & Earg & Earr & Eoff & Elen).
      apply Forall_app in Hnul as [Ha [Hn _]%Forall_app].
      exists a, name, (Some arg), (λ cut, match cut with Some m => <[(l_off l + m)%nat := 0]> (l_array l) | None => l_array l end).
      split; [done|]. split; [unfold shell_execute; by rewrite Es, En, Earg|]. intros cut _. split.
      * assert (Hc : length (l_array l) = length (replicate a 32 ++ name ++ replicate (Datatypes.S b) 32 ++ arg ++ replicate c 32)).
        { rewrite Elen, !length_app, !length_replicate. lia. }
        destruct cut; [by rewrite length_insert|done].
      * assert (Hp : nul_free (replicate a 32 ++ name)) by by apply Forall_app_2.
        destruct cut as [m|]; [|rewrite Earr, app_assoc; by apply c_text_app].
        rewrite Earr, app_assoc, insert_app_r_alt by (rewrite length_app, length_replicate; lia).
        destruct (l_off l + m - _)%nat as [|q] eqn:Eq; [rewrite length_app, length_replicate in Eq; lia|].
        simpl. by apply c_text_app.
Qed.

(** ** The line editor *)

Abbreviation input := (shell_input junk cpuid netif_list clear_screen sys_reboot pci_scan_storage pci_scan_network
  pci_scan_multimedia pci_init_ahci ollama_request ollama_mock_intercept ping_request).
Abbreviation run := (run_line junk cpuid netif_list clear_screen sys_reboot pci_scan_storage pci_scan_network
  pci_scan_multimedia pci_init_ahci ollama_request ollama_mock_intercept ping_request).

(** The line typed so far. *)
Definition line (s : shell) : list Z := take (Z.to_nat (buffer_idx s)) (shell_buffer s).
Record shell_ok (s : shell) : Prop := {
  ok_buffer : length (shell_buffer s) = 256%nat;
  ok_idx : 0 ≤ buffer_idx s ≤ 255;
  ok_line : nul_free (line s)
}.
Abbreviation shell_of k := (part (T := shell) k).

(** The abstract editor: a backspace drops the last character, a printable
    one is appended while there is room, others are ignored. *)
Definition edit (l : list Z) (c : Z) : list Z :=
  if c =? 8 then take (length l - 1) l
  else if (Z.of_nat (length l) <? 255) && (32 <=? i8 c) then l ++ [c] else l.

Lemma length_line s : shell_ok s → Z.of_nat (length (line s)) = buffer_idx s.
Proof. intros [Hb Hi _]. unfold line. rewrite length_take. lia. Qed.

Section editing.
Context (Hemit : ∀ o k, shell_of (emit o k) = shell_of k).

Lemma wp_sh {A} (m : comp shell A) (Q : A → K → Prop) k :
  wp m (λ a t, Q a (put_part t k)) (shell_of k) → wp (in_sh m) Q k.
Proof. apply wp_in_part. Qed.

Lemma line_snoc s c b :
  shell_ok s → buffer_idx s < 255 → zset (shell_buffer s) (buffer_idx s) c = Some b → c ≠ 0 →
  let s' := set_line b (buffer_idx s + 1) s in shell_ok s' ∧ line s' = line s ++ [c].
Proof.
  intros [Hb Hi Hl] Hlt Hz Hc. rewrite zset_lt in Hz by lia. injection Hz as <-.
  assert (E : line (set_line (<[Z.to_nat (buffer_idx s):=c]> (shell_buffer s)) (buffer_idx s + 1) s) = line s ++ [c]).
  { unfold line. simpl. replace (Z.to_nat (buffer_idx s + 1)) with (Datatypes.S (Z.to_nat (buffer_idx s))) by lia.
    rewrite (take_S_r _ _ c) by (apply list_lookup_insert_eq; lia). by rewrite take_insert_ge by lia. }
  split; [|done]. split; simpl; [by rewrite length_insert|lia|]. rewrite E. apply Forall_app_2; [done|]. by constructor.
Qed.

Lemma i8_nonzero c : 32 ≤ i8 c → c ≠ 0.
Proof. intros Hc ->. by vm_compute in Hc. Qed.

(** A key that neither interrupts, nor runs, nor completes. *)
Definition plain_key (c : Z) : Prop := c ≠ 3 ∧ c ≠ 9 ∧ c ≠ 10.

Lemma key_ok depth c k :
  plain_key c → shell_ok (shell_of k) →
  wp (input (Datatypes.S depth) c) (λ _ k', shell_ok (shell_of k') ∧ line (shell_of k') = edit (line (shell_of k)) c) k.
Proof.
  intros (H3 & H9 & H10) Hok. assert (Hk := Hok). destruct Hok as [Hb Hi Hl]. pose proof (length_line _ Hk) as Hlen.
  cbn [shell_input]. destruct (Z.eqb_spec c 3), (Z.eqb_spec c 10), (Z.eqb_spec c 9); try done.
  apply wp_bind, wp_sh, wp_get. rewrite put_part_same. unfold edit. destruct (Z.eqb_spec c 8) as [->|H8]; cbn [andb].
  - destruct (Z.ltb_spec 0 (buffer_idx (shell_of k))) as [Hpos|Hz].
    + unfold backspace. apply wp_bind, wp_sh, wp_modify. apply (wp_keeps (λ k, shell_of k)); [by keeps|].
      intros _ k' Ek. rewrite Ek, part_put.
      assert (E : line (set_line (shell_buffer (shell_of k)) (buffer_idx (shell_of k) - 1) (shell_of k)) =
        take (length (line (shell_of k)) - 1) (line (shell_of k))).
      { unfold line in *. simpl. rewrite take_take. f_equal. lia. }
      split; [|done]. split; simpl; [done|lia|]. rewrite E. by apply Forall_take.
    + unfold type_char. apply wp_bind, wp_sh, wp_get. rewrite put_part_same. change (32 <=? i8 8) with false.
      rewrite andb_false_r. apply wp_ret. split; [done|]. rewrite take_ge; [done|]. lia.
  - unfold type_char. apply wp_bind, wp_sh, wp_get. rewrite put_part_same, Hlen.
    destruct (Z.ltb_spec (buffer_idx (shell_of k)) 255), (Z.leb_spec 32 (i8 c)); cbn [andb]; try by apply wp_ret.
    destruct (zset (shell_buffer (shell_of k)) (buffer_idx (shell_of k)) c) as [b|] eqn:Ez; [|rewrite zset_lt in Ez by lia; done].
    apply wp_bind. eapply wp_must; [done|]. apply wp_bind, wp_sh, wp_modify.
    apply (wp_keeps (λ k, shell_of k)); [by keeps|]. intros _ k' Ek. rewrite Ek, part_put.
    by apply line_snoc, i8_nonzero.
Qed.

Lemma keys_ok depth ks k :
  Forall plain_key ks → shell_ok (shell_of k) →
  wp (type_all (input (Datatypes.S depth)) ks)
    (λ _ k', shell_ok (shell_of k') ∧ line (shell_of k') = fold_left edit ks (line (shell_of k))) k.
Proof.
  intros Hks. revert k. induction Hks as [|c ks Hc Hks IH]; intros k Hok; simpl; [by apply wp_ret|].
  apply wp_bind. eapply wp_mono; [by apply key_ok|]. intros _ k1 [Hok1 E1].
  eapply wp_mono; [by apply IH|]. intros _ k2 [Hok2 E2]. by rewrite E2, E1.
Qed.

(** Typing a line.  After any keys but Ctrl-C, tab and enter the buffer
    holds what the abstract editor makes of them, within its 255 characters;
    enter then runs exactly that line. *)
Theorem typed_line_executed (depth : nat) (ks : list Z) (k : K) :
  Forall plain_key ks → shell_ok (shell_of k) →
  ∃ k1 k2, type_all (input (Datatypes.S depth)) ks k = Ret (tt, k1) ∧ shell_ok (shell_of k1) ∧
    line (shell_of k1) = fold_left edit ks (line (shell_of k)) ∧
    (length (line (shell_of k1)) ≤ 255)%nat ∧
    input (Datatypes.S depth) 10 k1 = run (fold_left edit ks (line (shell_of k))) k2 ∧
    line (shell_of k2) = line (shell_of k1).
Proof.
  intros Hks Hok. destruct (proj1 (wp_run _ _ _) (keys_ok depth ks k Hks Hok)) as ([] & k1 & Hrun & Hok1 & E1).
  pose proof (length_line _ Hok1) as Hlen. assert (Hk1 := Hok1). destruct Hok1 as [Hb Hi Hl].
  set (s1 := shell_of k1) in *. set (b := <[Z.to_nat (buffer_idx s1) := 0]> (shell_buffer s1)).
  exists k1, (emit (OutChar 10) (put_part (set_line b (buffer_idx s1) s1) k1)).
  split; [done|]. split; [done|]. split; [done|]. fold s1. split; [lia|].
  assert (Eb : c_text b = line s1).
  { unfold b. rewrite <-(take_drop (Z.to_nat (buffer_idx s1)) (shell_buffer s1)).
    rewrite insert_app_r_alt by (rewrite length_take; lia). rewrite length_take, Nat.min_l, Nat.sub_diag by lia.
    destruct (drop (Z.to_nat (buffer_idx s1)) (shell_buffer s1)) as [|d t] eqn:Ed.
    { apply (f_equal length) in Ed. rewrite length_drop in Ed. simpl in Ed. lia. }
    simpl. by apply c_text_app. }
  split.
  - cbn [shell_input Z.eqb Pos.eqb]. unfold enter.
    rewrite (run_bind (in_sh get) _ k1 s1 k1) by (unfold in_sh, in_part, zoom, get; by rewrite put_part_same).
    rewrite zset_lt by lia. fold b. rewrite (run_bind (must (Some b)) _ k1 b k1) by done.
    rewrite (run_bind (in_sh (modify (set_line b (buffer_idx s1)))) _ k1 tt (put_part (set_line b (buffer_idx s1) s1) k1)) by done.
    by rewrite <-E1, <-Eb.
  - rewrite Hemit, part_put. unfold line, b. simpl. by rewrite take_insert_ge by lia.
Qed.
Lemma edit_type l c : 32 ≤ c ≤ 126 → (length l < 255)%nat → edit l c = l ++ [c].
Proof.
  intros Hc Hl. unfold edit. destruct (Z.eqb_spec c 8); [lia|]. rewrite letter_i8 by done.
  by destruct (Z.ltb_spec (Z.of_nat (length l)) 255), (Z.leb_spec 32 c); try lia.
Qed.
Lemma edit_letters l ks : Forall letter ks → (length l + length ks ≤ 255)%nat → fold_left edit ks l = l ++ ks.
Proof.
  intros Hks. revert l. induction Hks as [|c ks Hc Hks IH]; intros l Hl; simpl in *; [by rewrite app_nil_r|].
  unfold letter in Hc. rewrite edit_type by lia. rewrite IH by (rewrite length_app; simpl; lia). by rewrite <-app_assoc.
Qed.
Lemma letters_plain ks : Forall letter ks → Forall plain_key ks.
Proof. intros Hf. eapply Forall_impl; [exact Hf|]. intros c Hc. unfold letter in Hc. split_and!; lia. Qed.

(** Completing a command.  When the line is a word that starts some
    commands, tab types the rest of their longest common prefix, and a space
    when there is only one such command; when it starts none, tab does
    nothing. *)
Theorem command_completion (depth : nat) (k : K) :
  shell_ok (shell_of k) → word (line (shell_of k)) → (length (line (shell_of k)) ≤ 63)%nat →
  ∃ k', input (Datatypes.S (Datatypes.S depth)) 9 k = Ret (tt, k') ∧ shell_ok (shell_of k') ∧
    match filter (λ cmd, line (shell_of k) `prefix_of` cmd) commands with
    | [] => line (shell_of k') = line (shell_of k)
    | ms => ∃ p, is_lcp p ms ∧ line (shell_of k') = p ++ (if (length ms =? 1)%nat then [32] else [])
    end.
Proof.
  intros Hok [_ Hw] H63. set (w := line (shell_of k)) in *. set (ms := filter _ commands).
  cut (wp (input (Datatypes.S (Datatypes.S depth)) 9) (λ _ k', shell_ok (shell_of k') ∧
    match ms with [] => line (shell_of k') = w
    | _ => ∃ p, is_lcp p ms ∧ line (shell_of k') = p ++ (if (length ms =? 1)%nat then [32] else []) end) k).
  { rewrite wp_run. intros ([] & k' & Hrun & H1 & H2). exists k'. split; [done|]. split; [done|]. by destruct ms. }
  set (d1 := Datatypes.S depth). cbn [shell_input Z.eqb Pos.eqb andb]. apply wp_bind, wp_sh, wp_get. rewrite put_part_same.
  unfold complete. apply wp_bind, wp_sh, wp_get. rewrite put_part_same. cbv zeta. fold (line (shell_of k)). fold w.
  rewrite last_word_none, take_ge by done. unfold complete_command.
  assert (Hcl : Forall (λ c, (length c < 32)%nat) commands) by (eapply Forall_impl; [apply commands_letters|by intros ? [_ ?]]).
  apply wp_bind. eapply wp_mono; [apply (match_commands_ok w commands [] (0, [])); [by destruct Hok|done|done]|].
  intros [n common] k0 [-> (En & Hnil & Hlcp)]. cbn [fst snd app] in *. fold ms in En, Hnil, Hlcp.
  destruct (Z.ltb_spec 0 n) as [Hpos|Hz].
  - assert (Hne : ms ≠ []) by (intros E; rewrite E in En; simpl in En; lia). specialize (Hlcp Hne).
    assert (Hx : ∃ x, x ∈ ms ∧ x ∈ commands).
    { destruct ms as [|x ms'] eqn:Ems; [done|]. exists x. split; [by left|].
      assert (Hin : x ∈ ms) by (rewrite Ems; by left). by apply list_elem_of_filter in Hin as [_ ?]. }
    destruct Hx as (x & Hxm & Hxc). destruct (proj1 (Forall_forall _ _) commands_letters x Hxc) as [Hxl Hx32].
    assert (Hpx : common `prefix_of` x) by by apply Hlcp.
    assert (Hwp : w `prefix_of` common) by (apply Hlcp; intros y Hy; by apply list_elem_of_filter in Hy as [? _]).
    destruct Hwp as [r Er]. destruct Hpx as [r' Er']. rewrite Er, drop_app_length.
    assert (Hr : Forall letter r) by (rewrite Er', Er in Hxl; apply Forall_app in Hxl as [[_ ?]%Forall_app _]; done).
    assert (Hlen : (length w + length r < 32)%nat) by (rewrite Er', Er, !length_app in Hx32; lia).
    apply wp_bind. eapply wp_mono; [by apply keys_ok; [apply letters_plain|]|]. intros _ k1 [Hok1 E1].
    fold w in E1. rewrite edit_letters in E1 by (done || lia).
    assert (En1 : (n =? 1) = (length ms =? 1)%nat) by (destruct (Z.eqb_spec n 1), (Nat.eqb_spec (length ms) 1); lia || done).
    rewrite En1. assert (Hgoal : ∀ k', shell_ok (shell_of k') →
      line (shell_of k') = (w ++ r) ++ (if (length ms =? 1)%nat then [32] else []) →
      shell_ok (shell_of k') ∧ match ms with [] => line (shell_of k') = w
        | _ => ∃ p, is_lcp p ms ∧ line (shell_of k') = p ++ (if (length ms =? 1)%nat then [32] else []) end).
    { intros k' Hok' El. split; [done|]. destruct ms; [done|]. exists (w ++ r). split; [by rewrite <-Er|done]. }
    destruct (length ms =? 1)%nat.
    + eapply wp_mono; [apply key_ok; [split_and!; lia|done]|]. intros _ k2 [Hok2 E2]. apply Hgoal; [done|].
      rewrite E2, E1. apply edit_type; [lia|]. rewrite length_app. lia.
    + apply wp_ret. apply Hgoal; [done|]. by rewrite app_nil_r.
  - apply wp_ret. split; [done|]. destruct ms; [done|]. simpl in En. lia.
Qed.
End editing.
End shell.

(** ** Concrete runs *)

(** Hardware and lwIP do nothing; the shell starts on an empty line. *)
Definition demo_kernel : kernel ramdisk unit := kernel_boot (λ _, 0) demo_ata demo_fs tt.
Abbreviation nop := (mret tt : comp (kernel ramdisk unit) unit).
Abbreviation no_cpuid := (λ _ : Z, mret (0, 0, 0, 0) : comp (kernel ramdisk unit) (Z * Z * Z * Z)).
Abbreviation no_netifs := (mret [] : comp (kernel ramdisk unit) (list (netif * Z))).

Ltac by_chars := repeat (constructor; [by repeat split|]); constructor.
Lemma demo_shell_ok : shell_ok (part demo_kernel).
Proof. split; [done|done|]. apply Forall_nil. done. Qed.

Lemma command_line_executed_witness :
  ∃ a name arg after, reads_as (bytes_of "  cat /a b// ") name arg ∧
    shell_execute demo_junk no_cpuid no_netifs nop nop nop nop nop nop (λ _ _, nop) nop (λ _, nop) (bytes_of "  cat /a b// ") demo_kernel =
      (cut ← exec_command demo_junk no_cpuid no_netifs nop nop nop nop nop nop (λ _ _, nop) nop (λ _, nop) name (strip_slashes <$> arg);
       mret (after cut)) demo_kernel ∧
    ∀ cut, (arg = None → cut = None) → length (after cut) = 13%nat ∧ c_text (after cut) = replicate a 32 ++ name.
Proof.
  pose proof (command_line_executed demo_junk no_cpuid no_netifs nop nop nop nop nop nop (λ _ _, nop) nop (λ _, nop)
    (bytes_of "  cat /a b// ") demo_kernel ltac:(by_chars)) as [[[m Hm] _]|Hr]; [|exact Hr].
  exfalso. assert (Hin : 99 ∈ bytes_of "  cat /a b// ") by by apply (bool_decide_unpack _).
  rewrite Hm in Hin. by apply elem_of_replicate in Hin as [? _].
Defined.

Lemma typed_line_executed_witness :
  ∃ k1 k2, type_all (shell_input demo_junk no_cpuid no_netifs nop nop nop nop nop nop (λ _ _, nop) nop (λ _, nop) 1)
      [112; 120; 8; 115] demo_kernel = Ret (tt, k1) ∧ shell_ok (part k1) ∧ line (part k1) = [112; 115] ∧
    (length (line (part k1)) ≤ 255)%nat ∧
    shell_input demo_junk no_cpuid no_netifs nop nop nop nop nop nop (λ _ _, nop) nop (λ _, nop) 1 10 k1 =
      run_line demo_junk no_cpuid no_netifs nop nop nop nop nop nop (λ _ _, nop) nop (λ _, nop) [112; 115] k2 ∧
    line (part k2) = line (part k1).
Proof.
  assert (E : fold_left edit [112; 120; 8; 115] (line (part demo_kernel)) = [112; 115]) by reflexivity.
  pose proof (typed_line_executed demo_junk no_cpuid no_netifs nop nop nop nop nop nop (λ _ _, nop) nop (λ _, nop)) as Hrun.
  specialize (Hrun ltac:(intros o k; reflexivity) 0%nat [112; 120; 8; 115] demo_kernel ltac:(by_chars) demo_shell_ok).
  rewrite E in Hrun. exact Hrun.
Defined.

(** The shell after [sy]. *)
Definition demo_typed : kernel ramdisk unit :=
  put_part (set_line ([115; 121] ++ replicate 254 0) 2 shell_boot) demo_kernel.

Lemma command_completion_witness :
  ∃ k', shell_input demo_junk no_cpuid no_netifs nop nop nop nop nop nop (λ _ _, nop) nop (λ _, nop) 2 9 demo_typed = Ret (tt, k') ∧
    shell_ok (part k') ∧ ∃ p, is_lcp p [bytes_of "sysinfo"] ∧ line (part k') = p ++ [32].
Proof.
  pose proof (command_completion demo_junk no_cpuid no_netifs nop nop nop nop nop nop (λ _ _, nop) nop (λ _, nop)) as Hrun.
  specialize (Hrun ltac:(intros o k; reflexivity) 0%nat demo_typed ltac:(split; [done|done|by_chars]) ltac:(split; [done|by_chars]) ltac:(by apply Nat.leb_le)).
  assert (E : filter (λ cmd, line (part demo_typed) `prefix_of` cmd) commands = [bytes_of "sysinfo"]) by reflexivity.
  rewrite E in Hrun. exact Hrun.
Defined.
