(* ===== verification/Frame.v ===== *)
(** * Frame: what a computation leaves alone

    [leaves f m]: if [m] returns, what [f] reads of the state is as before.
    The lemmas follow the shape of a computation, and the tactic [leaves]
    takes it apart; a component's operation on its own part of the system
    leaves alone whatever is [Apart] from that part. *)

From Stdlib Require Import ZArith Lia String.
From stdpp Require Import base numbers list option.
From S2P Require Import Prelude Interfaces CText.
Open Scope Z_scope.

Definition leaves {S A B} (f : S → B) (m : comp S A) : Prop := ∀ s a s', m s = Ret (a, s') → f s' = f s.

(** Replacing the part [T], and printing, do not change what [f] reads. *)
Class Apart (T : Type) {K B : Type} `{Part T K} (f : K → B) := apart : ∀ t k, f (put_part t k) = f k.
Class Mute {K B : Type} `{Console K} (f : K → B) := mute : ∀ o k, f (emit o k) = f k.

Section leaves.
Context {S B : Type} (f : S → B).

Lemma leaves_ret {A} (a : A) : leaves f (mret a).
Proof. by intros s a' s' [= _ ->]. Qed.
Lemma leaves_bind {A C} (m : comp S A) (k : A → comp S C) : leaves f m → (∀ a, leaves f (k a)) → leaves f (m ≫= k).
Proof.
  intros Hm Hk s c s'. unfold mbind, comp_bind. destruct (m s) as [[a s1]| |] eqn:E; [|done..].
  intros E'. rewrite (Hk a _ _ _ E'). by apply (Hm s a).
Qed.
Lemma leaves_get : leaves f get.
Proof. by intros s a s' [= _ ->]. Qed.
Lemma leaves_gets {A} (g : S → A) : leaves f (gets g).
Proof. by intros s a s' [= _ ->]. Qed.
Lemma leaves_modify (g : S → S) : (∀ s, f (g s) = f s) → leaves f (modify g).
Proof. intros Hg s a s' [= _ <-]. apply Hg. Qed.
Lemma leaves_undef {A} : leaves f (undef : comp S A).
Proof. by intros s a s'. Qed.
Lemma leaves_out_of_fuel {A} : leaves f (out_of_fuel : comp S A).
Proof. by intros s a s'. Qed.
Lemma leaves_must {A} (o : option A) : leaves f (must o).
Proof. destruct o; [apply leaves_ret|apply leaves_undef]. Qed.
Lemma leaves_strcat cap dst src : leaves f (strcat_in cap dst src).
Proof. unfold strcat_in. destruct (_ <? _); [apply leaves_ret|apply leaves_undef]. Qed.

Lemma leaves_for_nat {R} n i (body : Z → comp S (option R)) : (∀ i, leaves f (body i)) → leaves f (for_nat n i body).
Proof.
  intros Hb. revert i. induction n as [|n IH]; intros i; [apply leaves_ret|].
  apply leaves_bind; [apply Hb|]. intros [x|]; [apply leaves_ret|apply IH].
Qed.
Lemma leaves_for_range {R} lo hi (body : Z → comp S (option R)) : (∀ i, leaves f (body i)) → leaves f (for_range lo hi body).
Proof. apply leaves_for_nat. Qed.
Lemma leaves_for_each lo hi (body : Z → comp S unit) : (∀ i, leaves f (body i)) → leaves f (for_each lo hi body).
Proof.
  intros Hb. apply leaves_bind; [apply leaves_for_range|intros; apply leaves_ret].
  intros i. apply leaves_bind; [apply Hb|intros; apply leaves_ret].
Qed.
Lemma leaves_iterp {A R} p (body : A → comp S (A + R)) a : (∀ a, leaves f (body a)) → leaves f (iterp p body a).
Proof.
  intros Hb. revert a. induction p as [p IH|p IH|]; intros a; cbn [iterp]; [| |apply Hb].
  - apply leaves_bind; [apply Hb|]. intros [a1|x]; [|apply leaves_ret].
    apply leaves_bind; [apply IH|]. intros [a2|x]; [apply IH|apply leaves_ret].
  - apply leaves_bind; [apply IH|]. intros [a1|x]; [apply IH|apply leaves_ret].
Qed.
Lemma leaves_loop {A R} (body : A → comp S (A + R)) a : (∀ a, leaves f (body a)) → leaves f (loop body a).
Proof.
  intros Hb. apply leaves_bind; [by apply leaves_iterp|]. intros [a'|x]; [apply leaves_out_of_fuel|apply leaves_ret].
Qed.

(** Less of the state. *)
Lemma leaves_part {A C} (g : B → C) (m : comp S A) : leaves f m → leaves (λ s, g (f s)) m.
Proof. intros Hm s a s' E. by rewrite (Hm _ _ _ E). Qed.

(** An operation on a smaller state. *)
Lemma leaves_zoom {T A} (pr : S → T) st (m : comp T A) : (∀ s t, f (st t s) = f s) → leaves f (zoom pr st m).
Proof. intros E s a s'. unfold zoom. destruct (m (pr s)) as [[a' t]| |]; [|done..]. intros [= _ <-]. apply E. Qed.
Lemma leaves_zoom_in {T A C} (g : T → C) (pr : S → T) st (m : comp T A) :
  leaves g m → (∀ s t, g t = g (pr s) → f (st t s) = f s) → leaves f (zoom pr st m).
Proof.
  intros Hm E s a s'. unfold zoom. destruct (m (pr s)) as [[a' t]| |] eqn:Em; [|done..]. intros [= _ <-].
  by apply E, (Hm _ a').
Qed.
Lemma leaves_in_part {T A} `{Part T S, !Apart T f} (m : comp T A) : leaves f (in_part m).
Proof. apply leaves_zoom. intros s t. apply apart. Qed.
(** One that only reads its part. *)
Lemma leaves_reading {T A} `{Part T S} (m : comp T A) : leaves (λ t, t) m → leaves f (in_part m).
Proof. intros Hm. apply (leaves_zoom_in (λ t, t)); [done|]. intros s t ->. by rewrite put_part_same. Qed.
Lemma leaves_print `{Console S, !Mute f} o : leaves f (modify (emit o)).
Proof. apply leaves_modify. intros s. apply mute. Qed.
End leaves.

Lemma wlp_leaves {S A B} (f : S → B) (m : comp S A) (Q : A → S → Prop) s :
  leaves f m → (∀ a s', f s' = f s → Q a s') → wlp m Q s.
Proof. intros Hm HQ. unfold wlp. destruct (m s) as [[a s']| |] eqn:E; [|done..]. by apply HQ, (Hm _ a). Qed.

Lemma wp_leaves {S A B} (f : S → B) (m : comp S A) (Q : A → S → Prop) s :
  leaves f m → wp m (λ a s', f s' = f s → Q a s') s → wp m Q s.
Proof. intros Hm. unfold wp. destruct (m s) as [[a s']| |] eqn:E; [|done..]. intros HQ. by apply HQ, (Hm _ a). Qed.

(** What [f] reads of a component's state put back into the system. *)
Definition paired {T K B} `{Part T K} (f : K → B) (tk : T * K) : B := f (put_part tk.1 tk.2).

Section pairs.
Context {T K B : Type} `{Part T K} (f : K → B).

Lemma leaves_as_pair {A} (m : comp (T * K) A) : leaves (paired f) m → leaves f (as_pair m).
Proof.
  intros Hm. apply (leaves_zoom_in f (paired f)); [done|]. intros k [t k'] E. unfold paired in E. cbn [fst snd] in *.
  by rewrite E, put_part_same.
Qed.
Lemma leaves_as_whole {A} (m : comp K A) : leaves f m → leaves (paired f) (as_whole m).
Proof.
  intros Hm. apply (leaves_zoom_in (paired f) f); [done|]. intros [t k] k' E. unfold paired. cbn [fst snd] in *.
  by rewrite put_part_same.
Qed.
Lemma leaves_fst `{!Apart T f} {A} (m : comp T A) : leaves (paired f) (zoom fst (λ t s, (t, s.2)) m).
Proof. apply leaves_zoom. intros [t k] t'. unfold paired. by rewrite !apart. Qed.
Lemma leaves_snd `{!Apart T f} {A} (m : comp K A) : leaves f m → leaves (paired f) (zoom snd (λ x s, (s.1, x)) m).
Proof.
  intros Hm. apply (leaves_zoom_in (paired f) f); [done|]. intros [t k] k' E. unfold paired. cbn [fst snd] in *.
  by rewrite !apart.
Qed.
End pairs.

Ltac leaves_head m := match m with ?g _ => leaves_head g | _ => m end.
Create HintDb leaves discriminated.
#[export] Hint Constants Opaque : leaves.
(** One step: the hypotheses and the declared lemmas first, then the shape of
    the computation, then the definition at its head. *)
Ltac leaves_step :=
  cbv beta zeta;
  match goal with
  | |- ∀ _, _ => intros ?
  | |- leaves _ _ => solve [auto 2 with leaves nocore]
  | |- leaves _ (mret _) => apply leaves_ret
  | |- leaves _ (_ ≫= _) => apply leaves_bind
  | |- leaves _ (if ?b then _ else _) => destruct b
  | |- leaves _ (match ?x with _ => _ end) => destruct x
  | |- leaves _ get => apply leaves_get
  | |- leaves _ (gets _) => apply leaves_gets
  | |- leaves _ undef => apply leaves_undef
  | |- leaves _ out_of_fuel => apply leaves_out_of_fuel
  | |- leaves _ (must _) => apply leaves_must
  | |- leaves _ (strcat_in _ _ _) => apply leaves_strcat
  | |- leaves _ (modify (emit _)) => apply leaves_print; apply _
  | |- leaves _ (modify _) => apply leaves_modify; done
  | |- leaves _ (for_range _ _ _) => apply leaves_for_range
  | |- leaves _ (for_each _ _ _) => apply leaves_for_each
  | |- leaves _ (loop _ _) => apply leaves_loop
  | |- leaves _ (in_part _) => apply leaves_in_part; apply _
  | |- leaves _ (as_pair _) => apply leaves_as_pair
  | |- leaves (paired _) (as_whole _) => apply leaves_as_whole
  | |- leaves (paired _) (zoom fst _ _) => apply leaves_fst; apply _
  | |- leaves (paired _) (zoom snd _ _) => apply leaves_snd; [apply _|]
  | |- leaves _ ?m => let h := leaves_head m in unfold h
  end.
Ltac leaves := repeat leaves_step.
