(* ===== verification/Kernel.v ===== *)
(** * Kernel: the components put together
    (src/core/kernel.c, src/arch/x86_64/io.c)

    Everything here acts on the one state of System.v, through the components'
    own operations.  Below them are the machine, whose instructions and
    display act on the rest [Y] of the state, and lwIP, which can call back
    into the drivers and acts on the whole. *)

From Stdlib Require Import ZArith Lia String.
From stdpp Require Import base numbers list option strings.
From S2P Require Import Prelude Interfaces Pmm Vmm Kmalloc Timer Task Arch Keyboard Pci Fat32 Ata Rtl8169 CText NetStack.
From S2P Require Import Agent Reports Shell System.
Open Scope Z_scope.

(** The processor, the ports and the register blocks. *)
Record machine (Y : Type) := Machine {
  inb : Z → comp Y Z;
  inw : Z → comp Y Z;
  inl_port : Z → comp Y Z;
  outb : Z → Z → comp Y unit;
  outw : Z → Z → comp Y unit;
  outl : Z → Z → comp Y unit;
  mmio_read8 : Z → comp Y Z;
  mmio_read32 : Z → comp Y Z;
  mmio_write8 : Z → Z → comp Y unit;
  mmio_write16 : Z → Z → comp Y unit;
  mmio_write32 : Z → Z → comp Y unit;
  cpuid : Z → comp Y (Z * Z * Z * Z);
  rdmsr : Z → comp Y Z;
  gdt_flush : comp Y unit;
  idt_load : comp Y unit;
  cli : comp Y unit;
  sti : comp Y unit;
  hlt : comp Y unit
}.
Arguments inb {Y}. Arguments inw {Y}. Arguments inl_port {Y}. Arguments outb {Y}. Arguments outw {Y}. Arguments outl {Y}.
Arguments mmio_read8 {Y}. Arguments mmio_read32 {Y}. Arguments mmio_write8 {Y}. Arguments mmio_write16 {Y}. Arguments mmio_write32 {Y}.
Arguments cpuid {Y}. Arguments rdmsr {Y}. Arguments gdt_flush {Y}. Arguments idt_load {Y}. Arguments cli {Y}. Arguments sti {Y}. Arguments hlt {Y}.

(** The display: Screen.v models it on its own state. *)
Record display (Y : Type) := Display {
  clear_screen : comp Y unit;
  scroll_up : comp Y unit;
  scroll_down : comp Y unit;
  screen_start_capture : comp Y unit;
  screen_stop_capture : comp Y unit;
  screen_get_capture : comp Y (list Z);
  screen_set_capture : list Z → comp Y unit;
  screen_init_fb : Z → Z → Z → Z → Z → Y → Y;
  fb_geometry : comp Y (Z * Z * Z)       (* fb_ptr, fb_height, fb_pitch *)
}.
Arguments clear_screen {Y}. Arguments scroll_up {Y}. Arguments scroll_down {Y}. Arguments screen_start_capture {Y}.
Arguments screen_stop_capture {Y}. Arguments screen_get_capture {Y}. Arguments screen_set_capture {Y}.
Arguments screen_init_fb {Y}. Arguments fb_geometry {Y}.

(** lwIP, on the whole state. *)
Record lwip (K : Type) := Lwip {
  lwip_init : comp K unit;
  sys_check_timeouts : comp K unit;
  netif_list : comp K (list (netif * Z));
  netif_default : comp K bool;
  netif_add : comp K Z → comp K unit;
  netif_set_default : comp K unit;
  netif_set_status_callback : comp K unit;
  netif_set_up : comp K unit;
  dhcp_start : comp K unit;
  netif_input : Z → comp K Z;
  pbuf_alloc : Z → comp K Z;
  pbuf_take : Z → list Z → comp K unit;
  pbuf_free : Z → comp K unit;
  packet_free : comp K unit;      (* the packet at hand *)
  raw_pbuf_alloc : Z → comp K Z;
  etharp_query : Z → comp K unit;
  tcp_new : comp K Z;
  tcp_close : Z → comp K unit;
  tcp_recv : Z → comp K unit;
  tcp_err : Z → comp K unit;
  tcp_connect : Z → Z → Z → comp K Z;
  raw_new : Z → comp K Z;
  raw_start : Z → comp K unit;
  raw_sendto : Z → list Z → Z → comp K unit;
  ip4addr_aton : list Z → option Z;
  inet_chksum : list Z → Z
}.
Arguments lwip_init {K}. Arguments sys_check_timeouts {K}. Arguments netif_list {K}. Arguments netif_default {K}. Arguments netif_add {K}.
Arguments netif_set_default {K}. Arguments netif_set_status_callback {K}. Arguments netif_set_up {K}. Arguments dhcp_start {K}.
Arguments netif_input {K}. Arguments pbuf_alloc {K}. Arguments pbuf_take {K}. Arguments pbuf_free {K}. Arguments packet_free {K}. Arguments raw_pbuf_alloc {K}. Arguments etharp_query {K}.
Arguments tcp_new {K}. Arguments tcp_close {K}. Arguments tcp_recv {K}. Arguments tcp_err {K}. Arguments tcp_connect {K}.
Arguments raw_new {K}. Arguments raw_start {K}. Arguments raw_sendto {K}. Arguments ip4addr_aton {K}. Arguments inet_chksum {K}.

(** Where the linker and the loader put things, and the memory they read. *)
Record image := Image {
  mem : memory;
  kernel_start : Z;
  kernel_end : Z;
  pml4_table : Z;
  gdt_addr : Z;
  idt_addr : Z;
  interrupt_handler_dummy : Z;
  page_fault_handler_asm : Z;
  timer_handler_asm : Z;
  keyboard_handler_asm : Z;
  shell_task_addr : Z;
  rx_ring_addr : Z;
  tx_ring_addr : Z;
  rx_buffers_addr : Z;
  ramdisk_image : memory
}.

Section kernel.
Context {D Y : Type} `{BlockDev D} (junk : list Z).
Abbreviation K := (kernel D Y).
Context (hw : machine Y) (scr : display Y) (ip : lwip K) (img : image).

Definition in_rest {A} (m : comp Y A) : comp K A :=
  zoom k_rest (λ y k, MkKernel (k_gdt k) (k_arch k) (k_gsi k) (k_timer k) (k_heap k) (k_sched k) (k_kbd k) (k_ata k) (k_fs k)
    (k_rtl k) (k_e1000 k) (k_net k) (k_shell k) y) m.

(** ** io.c *)

Definition wait_io : comp K unit := in_rest (outb hw 0x80 0).

(** Never returns: the pulse resets the machine, or it halts for good. *)
Definition sys_reboot : comp K unit :=
  in_rest (cli hw);;
  loop (λ _ : unit,
    temp ← in_rest (inb hw 0x64);
    (if negb (Z.land temp 0x01 =? 0) then _ ← in_rest (inb hw 0x60); mret tt else mret tt);;
    mret (if negb (Z.land temp 0x02 =? 0) then inl tt else inr tt)) tt;;
  in_rest (outb hw 0x64 0xFE);;
  loop (λ _ : unit, in_rest (hlt hw);; mret (inl tt : unit + unit)) tt.

(** ** The drivers on this machine *)

Definition port_outl (port v : Z) : comp K unit := in_rest (outl hw port v).
Definition port_inl (port : Z) : comp K Z := in_rest (inl_port hw port).
Definition kernel_rtl8169_init (bus device function : Z) : comp K unit :=
  as_pair (rtl8169_init (λ a v, in_rest (mmio_write8 hw a v)) (λ a v, in_rest (mmio_write16 hw a v))
    (λ a v, in_rest (mmio_write32 hw a v)) (λ a, in_rest (mmio_read8 hw a)) (λ a, in_rest (mmio_read32 hw a))
    port_outl port_inl (rx_ring_addr img) (tx_ring_addr img) (rx_buffers_addr img)
    (lwip_init ip) (λ init, as_whole (netif_add ip (as_pair init))) (as_whole (netif_set_default ip))
    (as_whole (netif_set_status_callback ip)) (as_whole (netif_set_up ip)) (as_whole (dhcp_start ip))
    (as_whole (in_part timer_set_net_ready)) bus device function).
Definition kernel_qemu_net_init : comp K unit :=
  as_pair (qemu_net_init (lwip_init ip) (λ init, as_whole (netif_add ip (as_pair init))) (as_whole (netif_set_default ip))
    (as_whole (netif_set_up ip)) (as_whole (dhcp_start ip))).
Definition kernel_scan_storage : comp K unit := pci_scan_storage port_outl port_inl.
Definition kernel_scan_network : comp K unit :=
  pci_scan_network port_outl port_inl kernel_rtl8169_init kernel_qemu_net_init.
Definition kernel_scan_multimedia : comp K unit := pci_scan_multimedia port_outl port_inl.
Definition kernel_init_ahci : comp K unit := pci_init_ahci port_outl port_inl (λ a, in_rest (mmio_read32 hw a)).
Definition kernel_ata_init : comp K Z :=
  as_pair (ata_init (λ p v, in_rest (outb hw p v)) (λ p, in_rest (inb hw p)) (λ p, in_rest (inw hw p)) wait_io).

(** ** The shell and the network client, which call each other *)

Definition cwd_path : comp K (list Z) := in_part (T := fs D) (gets fat32_cwd_path).
Definition kernel_ollama_request (ip_str prompt : list Z) : comp K unit :=
  as_pair (ollama_request (as_whole cwd_path) (as_whole (tcp_new ip)) (λ p, as_whole (tcp_close ip p))
    (λ p, as_whole (tcp_recv ip p)) (λ p, as_whole (tcp_err ip p)) (λ p a q, as_whole (tcp_connect ip p a q))
    (ip4addr_aton ip) (as_whole (netif_default ip)) (λ a, as_whole (etharp_query ip a)) ip_str prompt).
Definition kernel_ping_request (ip_str : list Z) : comp K unit :=
  as_pair (ping_request (as_whole (packet_free ip)) (ip4addr_aton ip) (as_whole (in_part timer_get_ticks))
    (λ p, as_whole (raw_new ip p)) (λ p, as_whole (raw_start ip p)) (λ n, as_whole (raw_pbuf_alloc ip n))
    (λ p d a, as_whole (raw_sendto ip p d a)) (inet_chksum ip) ip_str).

(** The client's parser with a shell to run commands in; the client reads its
    command's buffer afterwards. *)
Definition client_shell (execute : list Z → comp K (list Z)) (cmd : list Z) : comp (net * K) (list Z) :=
  as_whole (after ← execute cmd; mret (c_text after)).
Definition mock_intercept (execute : list Z → comp K (list Z)) : comp K unit :=
  as_pair (ollama_mock_intercept (client_shell execute) (as_whole (in_rest (screen_start_capture scr)))
    (as_whole (in_rest (screen_stop_capture scr))) (as_whole (in_rest (screen_get_capture scr)))
    (λ l, as_whole (in_rest (screen_set_capture scr l))) (as_whole (tcp_new ip)) (λ p, as_whole (tcp_close ip p))
    (λ p, as_whole (tcp_recv ip p)) (λ p, as_whole (tcp_err ip p)) (λ p a q, as_whole (tcp_connect ip p a q))
    (ip4addr_aton ip)).

Abbreviation with_kernel f := (f (λ leaf, in_rest (cpuid hw leaf)) (netif_list ip) (in_rest (clear_screen scr)) sys_reboot
  kernel_scan_storage kernel_scan_network kernel_scan_multimedia kernel_init_ahci kernel_ollama_request).

(** A command runs the client's mock reply, and that a command: [depth]
    bounds the nesting. *)
Fixpoint execute_at (depth : nat) (cmd : list Z) : comp K (list Z) :=
  match depth with
  | O => out_of_fuel
  | Datatypes.S depth' =>
      with_kernel (shell_execute junk) (mock_intercept (execute_at depth')) kernel_ping_request cmd
  end.

(** The line editor, and the task that feeds it. *)
Definition kernel_input (depth : nat) (c : Z) : comp K unit :=
  with_kernel (shell_input junk) (mock_intercept (execute_at depth)) kernel_ping_request depth c.
Definition kernel_shell_task (depth : nat) : comp K unit :=
  with_kernel (shell_task junk) (mock_intercept (execute_at depth)) kernel_ping_request depth.

(** ** The interrupts *)

Definition end_of_interrupt : comp K unit := in_part apic_eoi.
Definition kernel_rtl8169_poll : comp K unit :=
  as_pair (rtl8169_poll (pbuf_alloc ip) (pbuf_take ip) (pbuf_free ip) (λ p, as_whole (netif_input ip p))).
Definition timer_irq : comp K unit :=
  as_pair (timer_handler kernel_rtl8169_poll (sys_check_timeouts ip) end_of_interrupt).
Definition key_event (scancode : Z) : comp K unit :=
  as_pair (keyboard_handler (in_rest (scroll_up scr)) (in_rest (scroll_down scr)) end_of_interrupt scancode).
Definition keyboard_irq : comp K unit := scancode ← in_rest (inb hw 0x60); key_event scancode.
Definition page_fault (error_code faulting_addr : Z) : comp K unit :=
  page_fault_handler sys_reboot error_code faulting_addr.

(** ** The boot banner *)

Definition shade (fg : Z) (s : list Z) : comp K unit := print_color_string s (MAKE_COLOR fg COLOR_BLACK).

Definition print_logo : comp K unit :=
  shade COLOR_LIGHT_CYAN (bytes_of ("  ###     #    ######  ##   ##  ###  #####" +:+ NL));;
  shade COLOR_LIGHT_CYAN (bytes_of ("   #     # #   #    #  ##   ##   #  #     " +:+ NL));;
  shade COLOR_CYAN (bytes_of ("   #    #####  ######   ## ##    #   ####  " +:+ NL));;
  shade COLOR_LIGHT_CYAN (bytes_of ("   #   #     # #    #    ###     #       # " +:+ NL));;
  shade COLOR_LIGHT_CYAN (bytes_of ("  ###  #     # #    #     #     ###  #####  " +:+ NL));;
  print_char 10;;
  shade COLOR_LIGHT_BLUE (bytes_of ("  +--------------------------------------------------+" +:+ NL));;
  shade COLOR_YELLOW (bytes_of ("  |       x86_64 OS Kernel  v1.0  --  64-bit         |" +:+ NL));;
  shade COLOR_LIGHT_BLUE (bytes_of ("  +--------------------------------------------------+" +:+ NL));;
  print_char 10.

Definition print_architecture (vendor : list Z) (has_lm has_apic : bool) : comp K unit :=
  shade COLOR_LIGHT_BLUE (bytes_of ("  =[ ARCHITECTURE ]==============================" +:+ NL));;
  shade COLOR_LIGHT_GREY (bytes_of "  CPU Vendor   : ");;
  shade COLOR_WHITE vendor;;
  print_char 10;;
  shade COLOR_LIGHT_GREY (bytes_of "  Mode         : ");;
  (if has_lm : bool then shade COLOR_LIGHT_GREEN (bytes_of ("[OK] x86_64  64-Bit Long Mode  ACTIVE" +:+ NL))
   else shade COLOR_RED (bytes_of ("[!!] WARNING: Long Mode NOT detected!" +:+ NL)));;
  shade COLOR_LIGHT_GREY (bytes_of "  Paging       : ");;
  shade COLOR_LIGHT_GREEN (bytes_of ("[OK] 4-Level Paging  PML4->PDPT->PD->PT" +:+ NL));;
  shade COLOR_LIGHT_GREY (bytes_of "  Interrupts   : ");;
  (if has_apic : bool then shade COLOR_LIGHT_GREEN (bytes_of ("[OK] Local APIC + I/O APIC  (Modern)" +:+ NL))
   else shade COLOR_YELLOW (bytes_of ("[>>] Legacy 8259 PIC  (BIOS Fallback)" +:+ NL)));;
  print_char 10.

Definition print_volume : comp K unit :=
  m ← in_part (fat32_is_mounted (D := D));
  if negb (m =? 0) then
    r ← as_pair ata_is_ramdisk;
    if negb (r =? 0) then shade COLOR_LIGHT_GREEN (bytes_of ("[OK] FAT32  on  RAM Disk (64 MB, volatile)" +:+ NL))
    else shade COLOR_LIGHT_GREEN (bytes_of ("[OK] FAT32  on  Physical Drive (MBR/Raw)" +:+ NL))
  else shade COLOR_RED (bytes_of ("[!!] No filesystem detected  --  storage commands unavailable" +:+ NL)).

Definition print_system (total_mb : Z) : comp K unit :=
  shade COLOR_LIGHT_BLUE (bytes_of ("  =[ SYSTEM ]=====================================" +:+ NL));;
  shade COLOR_LIGHT_GREY (bytes_of "  RAM          : ");;
  kprint_dec total_mb;;
  shade COLOR_WHITE (bytes_of (" MB Physical Memory" +:+ NL));;
  shade COLOR_LIGHT_GREY (bytes_of "  Heap         : ");;
  shade COLOR_LIGHT_GREEN (bytes_of ("[OK] Dynamic  --  Base: 0x0000000200000000" +:+ NL));;
  shade COLOR_LIGHT_GREY (bytes_of "  File System  : ");;
  print_volume;;
  print_char 10;;
  shade COLOR_LIGHT_BLUE (bytes_of ("  ================================================" +:+ NL));;
  shade COLOR_LIGHT_CYAN (bytes_of ("  >> Type 'help' for commands  |  'sysinfo' for full report" +:+ NL));;
  shade COLOR_LIGHT_BLUE (bytes_of ("  ================================================" +:+ NL));;
  print_char 10.

(** ** Booting *)

(** [init_gdt] and [init_idt] load their tables with assembly. *)
Definition start_gdt : comp K unit := in_part (init_gdt (gdt_addr img) (mret tt));; in_rest (gdt_flush hw).
Definition start_pmm (magic mbd : Z) : comp K unit :=
  as_pair (pmm_init (λ addr width height pitch bpp k,
      MkKernel (k_gdt k) (k_arch k) (k_gsi k) (k_timer k) (k_heap k) (k_sched k) (k_kbd k) (k_ata k) (k_fs k)
        (k_rtl k) (k_e1000 k) (k_net k) (k_shell k) (screen_init_fb scr addr width height pitch bpp (k_rest k)))
    (λ rsdp, in_part (acpi_init (mem img) rsdp)) (mem img) (kernel_start img) (kernel_end img) magic mbd).
Definition start_idt : comp K unit :=
  init_idt (λ r, in_rest (rdmsr hw r)) (λ va pa, in_part (T := vmm pmm) (vmm_map_page (pml4_table img) va pa))
    (λ f, in_part (timer_init f)) (in_part get_timer_gsi) (idt_addr img) (interrupt_handler_dummy img)
    (page_fault_handler_asm img) (timer_handler_asm img) (keyboard_handler_asm img) (in_rest (idt_load hw)).
Definition start_paging : comp K unit :=
  '(fb_ptr, fb_height, fb_pitch) ← in_rest (fb_geometry scr);
  p ← gets (part (T := pmm));
  in_part (T := vmm pmm) (vmm_init (pml4_table img) fb_ptr fb_height fb_pitch
    (Pmm.ramdisk_loaded p) (Pmm.ramdisk_start p) (Pmm.ramdisk_size p)).

(** The driver reads pmm.c's account of the ramdisk. *)
Definition share_ramdisk : comp K unit :=
  p ← gets (part (T := pmm));
  in_part (modify (λ a, MkAta (total_sectors a) (drive_present a) (active_base_port a) (active_drive_sel a) (ramdisk_mode a)
    (ramdisk_ptr a) (partition_offset a) (Pmm.ramdisk_start p) (Pmm.ramdisk_size p)
    (negb (Pmm.ramdisk_loaded p =? 0)) (ramdisk_image img))).

Definition start_storage : comp K unit :=
  share_ramdisk;;
  r ← kernel_ata_init;
  if r =? 0 then
    offset ← as_pair ata_get_partition_offset;
    r ← in_part (T := fs D) (fat32_mount junk offset);
    if r =? 0 then
      print_line "Kernel: FAT32 OK";;
      in_part (T := fs D) (agent_init junk);;
      print_line "Kernel: Agent DB OK"
    else print_line "Kernel: FAT32 Mount Fail"
  else print_line "Kernel: Storage detection failed".

Definition start_tasks : comp K unit :=
  in_part task_init;;
  print_line "Kernel: Task OK".
Definition create_shell : comp K unit :=
  _ ← in_part (task_create (bytes_of "shell") (shell_task_addr img) 1); mret tt.

Definition banner : comp K unit :=
  '(_, ebx, ecx, edx) ← in_rest (cpuid hw 0);
  let vendor := vendor_text ebx ecx edx in
  '(_, _, _, edx) ← in_rest (cpuid hw 1);
  let has_apic := bit edx 9 in
  '(_, _, _, edx) ← in_rest (cpuid hw 0x80000001);
  let has_lm := bit edx 29 in
  p ← gets (part (T := pmm));
  let total_mb := pmm_get_total_memory_kb p / 1024 in
  in_rest (clear_screen scr);;
  print_logo;;
  print_architecture vendor has_lm has_apic;;
  print_system total_mb.

(** [kmain] up to its last loop. *)
Definition kmain_init (magic mbd : Z) : comp K unit :=
  start_gdt;;
  start_pmm magic mbd;;
  start_idt;;
  in_part (timer_init 100);;
  start_paging;;
  in_rest (clear_screen scr);;
  print_line "Kernel: Init GDT OK";;
  print_line "Kernel: PMM OK";;
  print_line "Kernel: Init IDT OK";;
  print_line "Kernel: VMM OK";;
  in_part (kmalloc_init (pml4_table img));;
  print_line "Kernel: Kmalloc OK";;
  start_tasks;;
  kernel_scan_storage;;
  kernel_scan_network;;
  start_storage;;
  create_shell;;
  in_rest (sti hw);;
  print_line "Kernel: Interrupts enabled";;
  banner.

(** The only function pointer in the task table is the shell's. *)
Definition run_task (depth : nat) (fn : Z) : comp K unit :=
  if fn =? shell_task_addr img then kernel_shell_task depth else undef.
Definition kernel_yield (depth : nat) : comp K unit :=
  as_pair (task_yield (λ k, timer_ticks (part k)) (λ fn, as_whole (run_task depth fn))).

(** The last loop of [kmain], some rounds of it. *)
Fixpoint idle (depth rounds : nat) : comp K unit :=
  match rounds with O => mret tt | Datatypes.S n => kernel_yield depth;; idle depth n end.
Definition kmain (depth rounds : nat) (magic mbd : Z) : comp K unit :=
  kmain_init magic mbd;; idle depth rounds.
End kernel.
