(* ===== verification/KernelFacts.v ===== *)
(** * KernelFacts: properties of the components together

    The nesting of the shell and the network client, what no command can
    touch, the tasks after the boot and the main loop, and the way of a key
    from the keyboard to the command line. *)

From Stdlib Require Import ZArith Lia String.
From stdpp Require Import base numbers list option strings.
From S2P Require Import Prelude Interfaces Frame Pmm Vmm Kmalloc Timer Task Arch Keyboard Pci Fat32 Ata Fat32Facts Rtl8169 CText NetStack.
From S2P Require Import NetStackFacts Agent Reports Shell System ShellFacts Kernel.
Open Scope Z_scope.

Lemma bind_ext {S A B} (m m' : comp S A) (f : A → comp S B) s : m s = m' s → (m ≫= f) s = (m' ≫= f) s.
Proof. intros E. unfold mbind, comp_bind. by rewrite E. Qed.
Lemma bind_ext_r {S A B} (m : comp S A) (f g : A → comp S B) s : (∀ a s', f a s' = g a s') → (m ≫= f) s = (m ≫= g) s.
Proof. intros E. unfold mbind, comp_bind. destruct (m s) as [[a s']| |]; [apply E|done..]. Qed.
Lemma zoom_ext {S T A} (pr : S → T) st (m m' : comp T A) s : m (pr s) = m' (pr s) → zoom pr st m s = zoom pr st m' s.
Proof. intros E. unfold zoom. by rewrite E. Qed.

(** ** The nesting of commands *)

Section nesting.
Context {X : Type} `{Console X}.
Context (execute execute' : list Z → comp (net * X) (list Z)).
Context (screen_start_capture screen_stop_capture : comp (net * X) unit) (screen_get_capture : comp (net * X) (list Z))
  (screen_set_capture : list Z → comp (net * X) unit).
Context (tcp_new : comp (net * X) Z) (tcp_close tcp_recv tcp_err : Z → comp (net * X) unit)
  (tcp_connect : Z → Z → Z → comp (net * X) Z) (ip4addr_aton : list Z → option Z).

(** The mock reply runs one command, so only that matters of the shell. *)
Lemma mock_ext s :
  (∀ s, execute (bytes_of "sysinfo") s = execute' (bytes_of "sysinfo") s) →
  NetStack.ollama_mock_intercept execute screen_start_capture screen_stop_capture screen_get_capture screen_set_capture
    tcp_new tcp_close tcp_recv tcp_err tcp_connect ip4addr_aton s =
  NetStack.ollama_mock_intercept execute' screen_start_capture screen_stop_capture screen_get_capture screen_set_capture
    tcp_new tcp_close tcp_recv tcp_err tcp_connect ip4addr_aton s.
Proof.
  intros Hx. unfold NetStack.ollama_mock_intercept. apply bind_ext_r. intros _ s1. unfold ollama_parse_json.
  set (pre := bytes_of "Scanning your system now!\n").
  assert (Hafter : ∃ rest, after (bytes_of (QUOTE +:+ "response" +:+ QUOTE +:+ ":" +:+ QUOTE))
      (default mock_payload (after (bytes_of (CRLF +:+ CRLF)) mock_payload)) =
      Some (pre ++ bytes_of "<EXEC_CMD:" ++ bytes_of "sysinfo" ++ 62 :: rest)) by (eexists; vm_compute; reflexivity).
  destruct Hafter as [rest ->]. apply bind_ext_r. intros _ s2. apply bind_ext.
  assert (Hpre : shows pre (bytes_of "Scanning your system now!" ++ [10])).
  { repeat (constructor; [by split_and!|]). apply (shows_escape 110 10); [by left|constructor]. }
  assert (Hcmd : Forall plain_cmd (bytes_of "sysinfo")) by (repeat (constructor; [by split_and!|]); constructor).
  assert (Hlen : Z.of_nat (length pre) < 2 ^ 63) by done.
  rewrite !(loop_first_tag _ _ _ _ _ _ _ _ _ _ _ pre _ _ rest _ Hlen Hpre) by done.
  change (trim_end 32 (bytes_of "sysinfo")) with (bytes_of "sysinfo").
  unfold run_with_feedback. do 2 (apply bind_ext_r; intros _ ?). by apply bind_ext.
Qed.
End nesting.

Section kernel.
Context {D Y : Type} `{BlockDev D} (junk : list Z).
Abbreviation K := (kernel D Y).
Context (hw : machine Y) (scr : display Y) (ip : lwip K) (img : image).

Abbreviation shell_with mock := (shell_execute junk (λ leaf, in_rest (cpuid hw leaf)) (netif_list ip) (in_rest (clear_screen scr))
  (sys_reboot hw) (kernel_scan_storage hw) (kernel_scan_network hw ip img) (kernel_scan_multimedia hw) (kernel_init_ahci hw)
  (kernel_ollama_request ip) mock (kernel_ping_request ip)).

Lemma shell_mock_ext (mock mock' : comp K unit) cmd k : (∀ k, mock k = mock' k) → shell_with mock cmd k = shell_with mock' cmd k.
Proof.
  intros E. unfold shell_execute. destruct (split_line cmd) as [l|]; [|done]. apply bind_ext.
  unfold exec_command. repeat (destruct (is_text (l_name l) _); [try reflexivity|]); [|reflexivity].
  apply bind_ext, E.
Qed.
Lemma shell_sysinfo (mock mock' : comp K unit) k : shell_with mock (bytes_of "sysinfo") k = shell_with mock' (bytes_of "sysinfo") k.
Proof. reflexivity. Qed.

Lemma intercept_ext (execute execute' : list Z → comp K (list Z)) k :
  (∀ k, execute (bytes_of "sysinfo") k = execute' (bytes_of "sysinfo") k) →
  mock_intercept scr ip execute k = mock_intercept scr ip execute' k.
Proof.
  intros E. apply zoom_ext, mock_ext. intros s. apply zoom_ext, bind_ext, E.
Qed.

(** Commands inside commands.  [ai_mock] feeds the client a reply that
    holds a command, which the client runs with the shell: two levels are all
    the nesting there is, whatever the command line and the state. *)
Theorem execute_nesting (n : nat) (cmd : list Z) (k : K) :
  execute_at junk hw scr ip img (Datatypes.S (Datatypes.S n)) cmd k = execute_at junk hw scr ip img 2 cmd k.
Proof.
  cbn [execute_at]. apply shell_mock_ext. intros k1. apply intercept_ext. intros k2. apply shell_sysinfo.
Qed.
End kernel.

(** ** What the shell leaves alone *)

Section frame.
Context {D Y : Type} `{BlockDev D} (junk : list Z).
Abbreviation K := (kernel D Y).
Context (hw : machine Y) (scr : display Y) (ip : lwip K) (img : image).

(** The descriptor and interrupt tables, the timer's interrupt line, the heap
    with the page tables and the frames, the key ring, and the task table. *)
Definition core (k : K) := (k_gdt k, k_arch k, k_gsi k, k_heap k, k_kbd k, k_sched k).

#[export] Instance core_timer : Apart timer core. Proof. done. Qed.
#[export] Instance core_ata : Apart ata core. Proof. done. Qed.
#[export] Instance core_fs : Apart (fs D) core. Proof. done. Qed.
#[export] Instance core_rtl : Apart rtl core. Proof. done. Qed.
#[export] Instance core_e1000 : Apart e1000 core. Proof. done. Qed.
#[export] Instance core_net : Apart net core. Proof. done. Qed.
#[export] Instance core_shell : Apart shell core. Proof. done. Qed.
#[export] Instance core_mute : Mute core. Proof. done. Qed.

(** lwIP's calls act on its own state, the drivers' and the display. *)
Record lwip_apart : Prop := {
  ap_init : leaves core (lwip_init ip);
  ap_list : leaves core (netif_list ip);
  ap_default : leaves core (netif_default ip);
  ap_add : ∀ init, leaves core init → leaves core (netif_add ip init);
  ap_set_default : leaves core (netif_set_default ip);
  ap_callback : leaves core (netif_set_status_callback ip);
  ap_up : leaves core (netif_set_up ip);
  ap_dhcp : leaves core (dhcp_start ip);
  ap_packet_free : leaves core (packet_free ip);
  ap_raw_alloc : ∀ n, leaves core (raw_pbuf_alloc ip n);
  ap_query : ∀ a, leaves core (etharp_query ip a);
  ap_tcp_new : leaves core (tcp_new ip);
  ap_tcp_close : ∀ p, leaves core (tcp_close ip p);
  ap_tcp_recv : ∀ p, leaves core (tcp_recv ip p);
  ap_tcp_err : ∀ p, leaves core (tcp_err ip p);
  ap_tcp_connect : ∀ p a q, leaves core (tcp_connect ip p a q);
  ap_raw_new : ∀ p, leaves core (raw_new ip p);
  ap_raw_start : ∀ p, leaves core (raw_start ip p);
  ap_raw_sendto : ∀ p d a, leaves core (raw_sendto ip p d a)
}.
Context (Hip : lwip_apart).
Ltac framed :=
  pose proof (ap_add Hip) as Hadd; destruct Hip;
  repeat match goal with |- leaves core (netif_add ip _) => apply Hadd | _ => leaves_step end.

Lemma core_rest {A} (m : comp Y A) : leaves core (in_rest m).
Proof. by apply leaves_zoom. Qed.
#[local] Hint Resolve core_rest : leaves.

Lemma core_scan_storage : leaves core (kernel_scan_storage hw).
Proof. leaves. Qed.
Lemma core_scan_multimedia : leaves core (kernel_scan_multimedia hw).
Proof. leaves. Qed.
Lemma core_ahci : leaves core (kernel_init_ahci hw).
Proof. leaves. Qed.
Lemma core_scan_network : leaves core (kernel_scan_network hw ip img).
Proof. framed. Qed.
Lemma core_reboot : leaves core (sys_reboot hw).
Proof. leaves. Qed.
Lemma core_request a p : leaves core (kernel_ollama_request ip a p).
Proof. framed. Qed.
Lemma core_ping a : leaves core (kernel_ping_request ip a).
Proof. framed. Qed.
#[local] Hint Resolve core_scan_storage core_scan_multimedia core_ahci core_scan_network core_reboot core_request core_ping : leaves.

Lemma core_print_netifs l : leaves core (print_netifs l).
Proof. induction l as [|[n a] l IH]; [apply leaves_ret|]. cbn [print_netifs]. leaves. Qed.
Lemma core_sched_rest {A} (m : comp K A) : leaves core m → leaves (paired (T := sched) core) (Task.in_rest m).
Proof.
  intros Hm. apply (leaves_zoom_in (paired core) core); [done|]. intros [t k] k' E. unfold paired, core in *.
  cbn in *. by injection E as -> -> -> -> -> _.
Qed.
Lemma core_sched_get i : leaves (paired core) (Task.in_sched (X := K) (get_task i)).
Proof.
  apply (leaves_zoom_in _ (λ s : sched, s)); [|by intros [t k] t' ->].
  apply leaves_bind; [apply leaves_get|intros; apply leaves_must].
Qed.
Lemma core_task_list : leaves core (as_pair (T := sched) task_list).
Proof.
  apply leaves_as_pair. unfold task_list.
  repeat match goal with
  | |- leaves _ (Task.in_rest _) => apply core_sched_rest
  | |- leaves _ (Task.in_sched _) => apply core_sched_get
  | _ => leaves_step
  end.
Qed.
Lemma core_list_dir cluster cb : (∀ n a s c, leaves core (cb n a s c)) → leaves core (fat32_list_dir (K := K) junk cluster cb).
Proof. intros Hcb. leaves. Qed.
Lemma core_mock execute : (∀ c, leaves core (execute c)) → leaves core (mock_intercept scr ip execute).
Proof. intros He. framed. Qed.
#[local] Hint Resolve core_print_netifs core_task_list : leaves.

(** The reports and the commands. *)
Abbreviation hw_cpuid := (λ leaf, in_rest (D := D) (cpuid hw leaf)).
Lemma core_ifconfig : leaves core (cmd_ifconfig (netif_list ip)).
Proof. framed. Qed.
Lemma core_netstat : leaves core (cmd_netstat (K := K)).
Proof. leaves. Qed.
Lemma core_pktdump arg : leaves core (cmd_pktdump_arg (K := K) arg).
Proof. leaves. Qed.
Lemma core_cpuid : leaves core (cmd_cpuid hw_cpuid).
Proof. leaves. Qed.
Lemma core_arch : leaves core (cmd_arch hw_cpuid).
Proof. leaves. Qed.
Lemma core_sysinfo : leaves core (cmd_sysinfo hw_cpuid).
Proof. leaves. Qed.
Lemma core_help : leaves core (cmd_help (K := K)).
Proof. leaves. Qed.
Lemma core_stats : leaves core (in_part kmalloc_get_stats).
Proof. apply leaves_reading. leaves. Qed.
#[local] Hint Resolve core_stats : leaves.
Lemma core_mem : leaves core (cmd_mem (K := K)).
Proof. leaves. Qed.
#[local] Hint Resolve core_ifconfig core_netstat core_pktdump core_cpuid core_arch core_sysinfo core_help core_mem : leaves.

Lemma core_exec mock name arg : leaves core mock →
  leaves core (exec_command junk hw_cpuid (netif_list ip) (in_rest (clear_screen scr)) (sys_reboot hw)
    (kernel_scan_storage hw) (kernel_scan_network hw ip img) (kernel_scan_multimedia hw) (kernel_init_ahci hw)
    (kernel_ollama_request ip) mock (kernel_ping_request ip) name arg).
Proof. intros Hmock. leaves. Qed.
#[local] Hint Resolve core_exec : leaves.
Lemma core_execute depth cmd : leaves core (execute_at junk hw scr ip img depth cmd).
Proof.
  revert cmd. induction depth as [|depth IH]; intros cmd; [apply leaves_out_of_fuel|]. cbn [execute_at].
  pose proof (core_mock _ IH). leaves.
Qed.

(** The line editor. *)
Lemma core_type_all input l : (∀ c, leaves core (input c)) → leaves core (type_all (K := K) input l).
Proof. intros Hi. induction l as [|c l IH]; [apply leaves_ret|]. cbn [type_all]. leaves. Qed.
Lemma core_match_commands cmds w acc : leaves core (match_commands (S := K) cmds w acc).
Proof. revert acc. induction cmds as [|cmd cmds IH]; intros acc; cbn [match_commands]; leaves. Qed.
#[local] Hint Resolve core_type_all core_match_commands : leaves.
Lemma core_complete input : (∀ c, leaves core (input c)) → leaves core (complete (D := D) junk input).
Proof. intros Hi. leaves. Qed.
#[local] Hint Resolve core_complete core_execute core_mock : leaves.
Lemma core_input depth n c :
  leaves core (shell_input junk hw_cpuid (netif_list ip) (in_rest (clear_screen scr)) (sys_reboot hw)
    (kernel_scan_storage hw) (kernel_scan_network hw ip img) (kernel_scan_multimedia hw) (kernel_init_ahci hw)
    (kernel_ollama_request ip) (mock_intercept scr ip (execute_at junk hw scr ip img n)) (kernel_ping_request ip) depth c).
Proof.
  assert (Hm : leaves core (mock_intercept scr ip (execute_at junk hw scr ip img n))) by auto with leaves.
  revert c. induction depth as [|depth IH]; intros c; [apply leaves_out_of_fuel|]. cbn [shell_input].
  pose proof (core_complete _ IH). leaves.
Qed.

(** *** The boot and the task table *)

#[export] Instance tasks_gdt : Apart gdt_state (k_sched (D := D) (Y := Y)). Proof. done. Qed.
#[export] Instance tasks_arch : Apart arch (k_sched (D := D) (Y := Y)). Proof. done. Qed.
#[export] Instance tasks_gsi : Apart Z (k_sched (D := D) (Y := Y)). Proof. done. Qed.
#[export] Instance tasks_timer : Apart timer (k_sched (D := D) (Y := Y)). Proof. done. Qed.
#[export] Instance tasks_heap : Apart kheap (k_sched (D := D) (Y := Y)). Proof. done. Qed.
#[export] Instance tasks_vm : Apart (vmm pmm) (k_sched (D := D) (Y := Y)). Proof. done. Qed.
#[export] Instance tasks_pmm : Apart pmm (k_sched (D := D) (Y := Y)). Proof. done. Qed.
#[export] Instance tasks_ata : Apart ata (k_sched (D := D) (Y := Y)). Proof. done. Qed.
#[export] Instance tasks_fs : Apart (fs D) (k_sched (D := D) (Y := Y)). Proof. done. Qed.
#[export] Instance tasks_kbd : Apart kbd (k_sched (D := D) (Y := Y)). Proof. done. Qed.
#[export] Instance tasks_shell : Apart shell (k_sched (D := D) (Y := Y)). Proof. done. Qed.
#[export] Instance tasks_mute : Mute (k_sched (D := D) (Y := Y)). Proof. done. Qed.

Lemma tasks_of_core {A} (m : comp K A) : leaves core m → leaves k_sched m.
Proof. apply (leaves_part core (λ c, c.2)). Qed.
Lemma tasks_rest {A} (m : comp Y A) : leaves k_sched (in_rest (D := D) m).
Proof. apply tasks_of_core, core_rest. Qed.
Lemma core_storage : leaves core (start_storage junk hw img).
Proof. leaves. Qed.
#[local] Hint Resolve tasks_rest : leaves.
Lemma tasks_input depth n c :
  leaves k_sched (shell_input junk hw_cpuid (netif_list ip) (in_rest (clear_screen scr)) (sys_reboot hw)
    (kernel_scan_storage hw) (kernel_scan_network hw ip img) (kernel_scan_multimedia hw) (kernel_init_ahci hw)
    (kernel_ollama_request ip) (mock_intercept scr ip (execute_at junk hw scr ip img n)) (kernel_ping_request ip) depth c).
Proof. apply tasks_of_core, core_input. Qed.
#[local] Hint Resolve tasks_input : leaves.
Lemma tasks_shell_task depth : leaves k_sched (kernel_shell_task junk hw scr ip img depth).
Proof. leaves. Qed.
Lemma tasks_start_pmm magic mbd : leaves k_sched (start_pmm (D := D) scr img magic mbd).
Proof. leaves. Qed.
Lemma tasks_start_idt : leaves k_sched (start_idt (D := D) hw img).
Proof. leaves. Qed.
Lemma tasks_start_paging : leaves k_sched (start_paging (D := D) scr img).
Proof. leaves. Qed.
Lemma tasks_banner : leaves k_sched (banner (D := D) hw scr).
Proof. leaves. Qed.
#[local] Hint Resolve tasks_start_pmm tasks_start_idt tasks_start_paging tasks_banner : leaves.

(** The task table as [kmain] sets it up: the idle task, which has no
    function, and the shell. *)
Definition dead_task : task := MkTask 0 (replicate 32 0) TASK_DEAD 0 0 0 0.
Definition idle_task : task := MkTask 0 idle_name TASK_READY 0 0 0 0.
Definition shell_entry (st : Z) : task := MkTask 1 (bytes_of "shell" ++ replicate 27 0) st 1 (shell_task_addr img) 0 0.
Definition table (st cur : Z) : sched := MkSched (idle_task :: shell_entry st :: replicate 30 dead_task) 2 cur.

Lemma init_tasks : task_init sched_boot = Ret (tt, MkSched (idle_task :: replicate 31 dead_task) 1 0).
Proof. vm_compute. reflexivity. Qed.
Lemma create_shell_task :
  task_create (bytes_of "shell") (shell_task_addr img) 1 (MkSched (idle_task :: replicate 31 dead_task) 1 0) =
  Ret (1, table TASK_READY 0).
Proof. reflexivity. Qed.
Lemma tasks_start_gdt : leaves k_sched (start_gdt (D := D) hw img).
Proof. leaves. Qed.
Lemma tasks_scan_storage : leaves k_sched (kernel_scan_storage (D := D) hw).
Proof. apply tasks_of_core, core_scan_storage. Qed.
Lemma tasks_scan_network : leaves k_sched (kernel_scan_network hw ip img).
Proof. apply tasks_of_core, core_scan_network. Qed.
Lemma tasks_storage : leaves k_sched (start_storage junk hw img).
Proof. apply tasks_of_core, core_storage. Qed.
Lemma tasks_line s : leaves k_sched (print_line (S := K) s).
Proof. leaves. Qed.

Lemma tasks_part {T A} `{Part T K, !Apart T (k_sched (D := D) (Y := Y))} (m : comp T A) : leaves k_sched (in_part m).
Proof. by apply leaves_in_part. Qed.

Lemma wlp_step (m m' : comp K unit) Q k t :
  leaves k_sched m → k_sched k = t → (∀ k', k_sched k' = t → wlp m' Q k') → wlp (m;; m') Q k.
Proof. intros Hm <- Hm'. apply wlp_bind, (wlp_leaves k_sched); [done|]. intros _ k' E. by apply Hm'. Qed.
Tactic Notation "passes" uconstr(lem) := eapply wlp_step; [apply lem|eassumption|]; intros ? ?.
Lemma kmain_init_tasks magic mbd k :
  k_sched k = sched_boot → wlp (kmain_init junk hw scr ip img magic mbd) (λ _ k', k_sched k' = table TASK_READY 0) k.
Proof.
  intros Hk. unfold kmain_init.
  passes tasks_start_gdt. passes tasks_start_pmm. passes tasks_start_idt.
  passes tasks_part. passes tasks_start_paging. passes tasks_rest.
  do 4 passes tasks_line. passes tasks_part. passes tasks_line.
  apply wlp_bind. unfold start_tasks. apply wlp_bind. unfold in_part at 1, wlp at 1, zoom. cbn [part part_sched].
  match goal with E : k_sched ?k = _ |- _ => rewrite E, init_tasks end.
  apply (wlp_leaves k_sched); [apply tasks_line|]. intros _ k1 Hk1.
  change (k_sched k1 = MkSched (idle_task :: replicate 31 dead_task) 1 0) in Hk1.
  passes tasks_scan_storage. passes tasks_scan_network. passes tasks_storage.
  apply wlp_bind. unfold create_shell. apply wlp_bind. unfold in_part at 1, wlp at 1, zoom. cbn [part part_sched].
  match goal with E : k_sched ?k = _ |- _ => rewrite E, create_shell_task end.
  apply wlp_ret. set (k2 := put_part _ _). assert (Hk2 : k_sched k2 = table TASK_READY 0) by done. clearbody k2.
  passes tasks_rest. passes tasks_line. apply (wlp_leaves k_sched); [apply tasks_banner|]. congruence.
Qed.

(** *** The main loop *)

(** The idle task's turn, which does nothing, is left out. *)
Definition shell_turn (depth : nat) : comp K unit :=
  in_part (put (table TASK_RUNNING 1));;
  kernel_shell_task junk hw scr ip img depth;;
  in_part (put (table TASK_READY 0)).
Fixpoint shell_turns (depth n : nat) : comp K unit :=
  match n with O => mret tt | S n => shell_turn depth;; shell_turns depth n end.

Lemma table_wf st cur : 0 ≤ cur < 32 → sched_wf (table st cur).
Proof. intros Hc. split; [done|exact Hc]. Qed.
Lemma chosen_shell ticks (k : K) : chosen ticks (table TASK_READY 0) k = table TASK_READY 1.
Proof. reflexivity. Qed.
Lemma chosen_idle ticks (k : K) : chosen ticks (table TASK_READY 1) k = table TASK_READY 0.
Proof. reflexivity. Qed.

Lemma yield_idle depth k :
  k_sched k = table TASK_READY 1 → kernel_yield junk hw scr ip img depth k = Ret (tt, put_part (table TASK_READY 0) k).
Proof.
  intros Hk. unfold kernel_yield, as_pair, zoom. cbn [part part_sched]. rewrite Hk.
  rewrite yield_eq by by apply table_wf. by rewrite chosen_idle.
Qed.
Lemma yield_shell depth k :
  shell_task_addr img ≠ 0 → k_sched k = table TASK_READY 0 →
  kernel_yield junk hw scr ip img depth k =
  (in_part (put (table TASK_RUNNING 1));; kernel_shell_task junk hw scr ip img depth;; in_part (put (table TASK_READY 1))) k.
Proof.
  intros Ha Hk. unfold kernel_yield, as_pair, zoom. cbn [part part_sched]. rewrite Hk.
  rewrite yield_eq by by apply table_wf. rewrite chosen_shell.
  change (function (Task.slot (table TASK_READY 1) (current_task_id (table TASK_READY 1)))) with (shell_task_addr img).
  destruct (Z.eqb_spec (shell_task_addr img) 0); [done|].
  change (upd _ _ _) with (table TASK_RUNNING 1). unfold run_task. rewrite Z.eqb_refl.
  unfold mbind, comp_bind, as_whole, in_part, zoom. cbn [put part put_part part_sched fst snd]. unfold put.
  match goal with |- context [kernel_shell_task junk hw scr ip img depth ?k] => set (k0 := k) end.
  destruct (kernel_shell_task junk hw scr ip img depth k0) as [[[] k1]| |] eqn:E; [|done..].
  assert (Ek : k_sched k1 = table TASK_RUNNING 1) by apply (tasks_shell_task depth _ _ _ E).
  by rewrite Ek.
Qed.

Lemma turns_ok depth n k :
  shell_task_addr img ≠ 0 → k_sched k = table TASK_READY 0 →
  idle junk hw scr ip img depth (n + n) k = shell_turns depth n k.
Proof.
  intros Ha. revert k. induction n as [|n IH]; intros k Hk; [done|].
  rewrite Nat.add_succ_r. cbn [Nat.add idle shell_turns]. unfold mbind at 1, comp_bind at 1. rewrite yield_shell by done.
  unfold shell_turn. unfold mbind, comp_bind, in_part, zoom, put.
  destruct (kernel_shell_task junk hw scr ip img depth _) as [[[] k1]| |]; [|done..].
  rewrite yield_idle by done. by rewrite IH.
Qed.
End frame.

(** ** Keys and turns *)

Section events.
Context {D Y : Type} `{BlockDev D} (junk : list Z).
Abbreviation K := (kernel D Y).
Context (hw : machine Y) (scr : display Y) (ip : lwip K) (img : image).
Context (Hip : lwip_apart ip) (Hup : returns (scroll_up scr)) (Hdown : returns (scroll_down scr)).

(** A scancode arrives, or the shell has its turn. *)
Inductive event := Key (scancode : Z) | Turn.
Definition run_event (depth : nat) (e : event) : comp K unit :=
  match e with Key sc => key_event scr sc | Turn => kernel_shell_task junk hw scr ip img (Datatypes.S depth) end.
Fixpoint run_events (depth : nat) (es : list event) : comp K unit :=
  match es with [] => mret tt | e :: es' => run_event depth e;; run_events depth es' end.

(** What the user sees of it: the modifiers held, the characters waiting and
    the line. *)
Record desk := Desk { d_modifiers : bool * bool * bool; d_queue : list Z; d_line : list Z }.
Definition typed_with (m : bool * bool * bool) (sc : Z) : list Z := typed (MkKbd m.1.1 m.1.2 m.2 [] 0 0) sc.
Definition desk_step (d : desk) (e : event) : desk :=
  match e with
  | Key sc => Desk (next_modifiers (d_modifiers d) sc) (push_all (typed_with (d_modifiers d) sc) (d_queue d)) (d_line d)
  | Turn => match d_queue d with [] => d | c :: q => Desk (d_modifiers d) q (edit (d_line d) c) end
  end.
(** No turn meets Ctrl-C, tab or enter. *)
Fixpoint plain_run (d : desk) (es : list event) : Prop :=
  match es with
  | [] => True
  | e :: es' =>
      match e with
      | Key sc => 0 ≤ sc < 256
      | Turn => match d_queue d with [] => True | c :: _ => plain_key c end
      end ∧ plain_run (desk_step d e) es'
  end.

Definition desk_of (k : K) : desk := Desk (modifiers (k_kbd k)) (queue (k_kbd k)) (line (k_shell k)).
Definition desk_ok (k : K) : Prop := kbd_wf (k_kbd k) ∧ nonzero (queue (k_kbd k)) ∧ shell_ok (k_shell k).

#[local] Instance shell_arch : Apart arch (k_shell (D := D) (Y := Y)). Proof. done. Qed.
#[local] Instance shell_kbd : Apart kbd (k_shell (D := D) (Y := Y)). Proof. done. Qed.
Lemma shell_rest {A} (m : comp Y A) : leaves k_shell (in_rest (D := D) m).
Proof. by apply leaves_zoom. Qed.
#[local] Hint Resolve shell_rest : leaves.
Lemma key_shell sc : leaves k_shell (key_event (D := D) scr sc).
Proof. leaves. Qed.

Lemma returns_rest (m : comp Y unit) : returns m → returns (in_rest (D := D) m).
Proof. intros Hm k. apply wp_zoom. eapply wp_mono; [apply Hm|done]. Qed.
Lemma returns_eoi : returns (end_of_interrupt (D := D) (Y := Y)).
Proof. intros k. apply wp_in_part. unfold apic_eoi. apply wp_bind, wp_get. by destruct (negb _). Qed.

Lemma key_event_ok sc k :
  0 ≤ sc < 256 → desk_ok k →
  wp (key_event scr sc) (λ _ k', desk_ok k' ∧ desk_of k' = desk_step (desk_of k) (Key sc)) k.
Proof.
  intros Hsc (Hwf & Hnz & Hok). apply (wp_leaves k_shell); [apply key_shell|]. apply wp_zoom.
  eapply wp_mono; [apply handler_ok; [by apply returns_rest|by apply returns_rest|apply returns_eoi|done|done]|].
  intros [] [kb k1] (Hw & Hq & Hm). cbn [fst snd] in *. intros Es.
  assert (Hnz' : nonzero (queue kb)) by (rewrite Hq; apply push_nonzero; [apply typed_nonzero; lia|done]).
  split; [split; [done|]; split; [done|]; by rewrite Es|]. unfold desk_of. rewrite Es.
  change (k_kbd (put_part kb k1)) with kb. by rewrite Hq, Hm.
Qed.

Lemma welcome_ok (k : K) :
  wp (if negb (welcomed (k_shell k)) then welcome (D := D) else mret tt) (λ _ k1, k_kbd k1 = k_kbd k ∧
    (k_shell k1 = k_shell k ∨ k_shell k1 = set_welcomed (k_shell k))) k.
Proof. destruct (negb _); [|by apply wp_ret; split; [|left]]. by split; [|right]. Qed.

Lemma turn_ok depth (k : K) :
  desk_ok k → match queue (k_kbd k) with [] => True | c :: _ => plain_key c end →
  wp (run_event depth Turn) (λ _ k', desk_ok k' ∧ desk_of k' = desk_step (desk_of k) Turn) k.
Proof.
  intros (Hwf & Hnz & Hok) Hplain. cbn [run_event]. unfold kernel_shell_task, shell_task.
  apply wp_bind, wp_in_part, wp_get. rewrite put_part_same. apply wp_bind.
  eapply wp_mono; [apply welcome_ok|]. intros _ k1 (Ek & Es).
  assert (Hok1 : shell_ok (k_shell k1)) by (destruct Es as [->| ->]; [done|]; by destruct Hok).
  assert (El : line (k_shell k1) = line (k_shell k)) by by destruct Es as [->| ->].
  apply wp_bind, wp_in_part. change (part (T := kbd) k1) with (k_kbd k1). rewrite Ek.
  eapply wp_mono; [by apply kbd_get_ok|]. intros c kb (Hw & Hq & Hm). set (k2 := put_part kb k1).
  assert (Hd : desk_of k2 = Desk (modifiers (k_kbd k)) (queue kb) (line (k_shell k))).
  { unfold desk_of. change (k_kbd k2) with kb. change (k_shell k2) with (k_shell k1). rewrite El.
    unfold modifiers. by rewrite Hm. }
  cbn [desk_step]. change (d_queue (desk_of k)) with (queue (k_kbd k)). unfold nonzero in Hnz.
  destruct (queue (k_kbd k)) as [|c0 q] eqn:Eq; injection Hq as -> Eq'.
  - apply wp_ret. rewrite Hd, Eq'. split; [|unfold desk_of; by rewrite Eq]. split; [done|]. split; [|done].
    change (k_kbd k2) with kb. by rewrite Eq'.
  - apply Forall_cons in Hnz as [Hc Hnz]. destruct (Z.eqb_spec c0 0); [lia|]. cbn [negb].
    pose proof (core_input junk hw scr ip img Hip (Datatypes.S depth) (Datatypes.S depth) c0) as Hcore.
    apply (wp_leaves core); [exact Hcore|].
    eapply wp_mono; [apply (key_ok (K := K) junk); [by intros|done|exact Hok1]|].
    intros _ k3 [Hok3 El3] Ecore. injection Ecore as _ _ _ _ Ekbd _.
    change (part (T := shell) k2) with (k_shell k1) in El3. rewrite El in El3.
    split; [split; [by rewrite Ekbd|]; split; [|done]; rewrite Ekbd; change (k_kbd k2) with kb; by rewrite Eq'|].
    unfold desk_of at 1. rewrite Ekbd. change (line (k_shell k3)) with (line (part (T := shell) k3)). rewrite El3.
    change (k_kbd k2) with kb. unfold desk_of; cbn [d_modifiers d_line]. unfold modifiers. by rewrite Hm, Eq'.
Qed.

Lemma events_ok depth es (k : K) :
  desk_ok k → plain_run (desk_of k) es →
  wp (run_events depth es) (λ _ k', desk_ok k' ∧ desk_of k' = fold_left desk_step es (desk_of k)) k.
Proof.
  revert k. induction es as [|e es IH]; intros k Hk Hp; [by apply wp_ret|].
  destruct Hp as [He Hp]. cbn [run_events fold_left]. apply wp_bind.
  assert (Hstep : wp (run_event depth e) (λ _ k', desk_ok k' ∧ desk_of k' = desk_step (desk_of k) e) k).
  { destruct e as [sc|]; [by apply key_event_ok|by apply turn_ok]. }
  eapply wp_mono; [exact Hstep|]. intros _ k1 [Hk1 E1]. rewrite <-E1. apply IH; [done|by rewrite E1].
Qed.
End events.

(** ** The properties of the whole kernel *)

Section properties.
Context {D Y : Type} `{BlockDev D} (junk : list Z).
Context (hw : machine Y) (scr : display Y) (ip : lwip (kernel D Y)) (img : image).

(** C12. What commands cannot touch.  Whatever command line is executed and
    whatever key is typed, when the call returns the descriptor and interrupt
    tables, the timer's interrupt line, the heap with the page tables and the
    frame allocator, the key ring and the task table are exactly as before,
    provided lwIP's calls, which have no access to them, leave them alone. *)
Theorem shell_leaves_core (depth : nat) :
  lwip_apart ip →
  (∀ cmd k after k', execute_at junk hw scr ip img depth cmd k = Ret (after, k') → core k' = core k) ∧
  (∀ c k k', kernel_input junk hw scr ip img depth c k = Ret (tt, k') → core k' = core k).
Proof.
  intros Hip. split.
  - intros cmd k after k'. by apply core_execute.
  - intros c k k'. by apply core_input.
Qed.

(** C11. The main loop.  From the zero-initialised task table the boot makes
    two tasks, and the last loop of [kmain] alternates between them: two
    rounds are one turn of the shell, shown as running meanwhile, and one of
    the idle task, which does nothing, for as long as the shell returns; no
    command can disturb the table. *)
Theorem kmain_turns (depth n : nat) (magic mbd : Z) (k : kernel D Y) :
  lwip_apart ip → shell_task_addr img ≠ 0 → k_sched k = sched_boot →
  kmain junk hw scr ip img depth (n + n) magic mbd k =
  (kmain_init junk hw scr ip img magic mbd;; shell_turns junk hw scr ip img depth n) k.
Proof.
  intros Hip Ha Hk. unfold kmain, mbind, comp_bind.
  pose proof (kmain_init_tasks junk hw scr ip img Hip magic mbd k Hk) as Hinit. unfold wlp in Hinit.
  destruct (kmain_init junk hw scr ip img magic mbd k) as [[[] k1]| |]; [|done..]. by apply turns_ok.
Qed.

(** C10. From the keyboard to the line.  Scancodes arriving and turns of the
    shell, in any order and number, act together as a modifier state, a queue
    of characters and an editor on the line: what was typed reaches the line
    once, in order, whenever the turns come.  The turns must not meet Ctrl-C,
    tab or enter. *)
Theorem keys_reach_line (depth : nat) (es : list event) (k : kernel D Y) :
  lwip_apart ip → returns (scroll_up scr) → returns (scroll_down scr) →
  desk_ok k → plain_run (desk_of k) es →
  ∃ k', run_events junk hw scr ip img depth es k = Ret (tt, k') ∧ desk_ok k' ∧
    desk_of k' = fold_left desk_step es (desk_of k).
Proof.
  intros Hip Hu Hd Hk Hp.
  destruct (proj1 (wp_run _ _ _) (events_ok junk hw scr ip img Hip Hu Hd depth es k Hk Hp)) as ([] & k' & Hrun & Hk').
  by exists k'.
Qed.
End properties.

(** ** Concrete runs *)

(** A machine without devices, a display that shows nothing and a network
    that does nothing. *)
Definition demo_hw : machine unit :=
  Machine unit (λ _, mret 0) (λ _, mret 0) (λ _, mret 0) (λ _ _, mret tt) (λ _ _, mret tt) (λ _ _, mret tt)
    (λ _, mret 0) (λ _, mret 0) (λ _ _, mret tt) (λ _ _, mret tt) (λ _ _, mret tt) (λ _, mret (0, 0, 0, 0)) (λ _, mret 0)
    (mret tt) (mret tt) (mret tt) (mret tt) (mret tt).
Definition demo_scr : display unit :=
  Display unit (mret tt) (mret tt) (mret tt) (mret tt) (mret tt) (mret []) (λ _, mret tt) (λ _ _ _ _ _ y, y) (mret (0, 0, 0)).
Definition demo_ip : lwip (kernel ramdisk unit) :=
  Lwip (kernel ramdisk unit) (mret tt) (mret tt) (mret []) (mret false) (λ init, _ ← init; mret tt) (mret tt) (mret tt) (mret tt)
    (mret tt) (λ _, mret 0) (λ _, mret 0) (λ _ _, mret tt) (λ _, mret tt) (mret tt) (λ _, mret 0) (λ _, mret tt)
    (mret 0) (λ _, mret tt) (λ _, mret tt) (λ _, mret tt) (λ _ _ _, mret 0) (λ _, mret 0) (λ _, mret tt) (λ _ _ _, mret tt)
    (λ _, None) (λ _, 0).
Definition demo_img : image := Image (λ _, 0) 0x100000 0x200000 0x1000 0x2000 0x3000 0x4000 0x5000 0x6000 0x7000 0x8000
  0x9000 0xA000 0xB000 (λ _, 0).
Lemma demo_apart : lwip_apart demo_ip.
Proof. split; intros; try apply leaves_ret. apply leaves_bind; [done|]. intros. apply leaves_ret. Qed.

Lemma shell_leaves_core_witness :
  (∀ cmd k after k', execute_at demo_junk demo_hw demo_scr demo_ip demo_img 3 cmd k = Ret (after, k') → core k' = core k) ∧
  (∀ c k k', kernel_input demo_junk demo_hw demo_scr demo_ip demo_img 3 c k = Ret (tt, k') → core k' = core k).
Proof. apply (shell_leaves_core demo_junk demo_hw demo_scr demo_ip demo_img 3). apply demo_apart. Defined.

Lemma kmain_turns_witness :
  kmain demo_junk demo_hw demo_scr demo_ip demo_img 3 (2 + 2) 0 0 demo_kernel =
  (kmain_init demo_junk demo_hw demo_scr demo_ip demo_img 0 0;; shell_turns demo_junk demo_hw demo_scr demo_ip demo_img 3 2) demo_kernel.
Proof. apply (kmain_turns demo_junk demo_hw demo_scr demo_ip demo_img 3 2); [apply demo_apart|done|done]. Defined.

(** Shift and A, a turn, the shift released, B, X and a backspace, three
    turns. *)
Definition demo_events : list event := [Key 0x2A; Key 0x1E; Turn; Key 0xAA; Key 0x30; Key 0x2D; Turn; Key 0x0E; Turn; Turn].
Lemma demo_desk_ok : desk_ok demo_kernel.
Proof. split; [apply kbd_boot_wf|]. split; [constructor|apply demo_shell_ok]. Qed.
Lemma keys_reach_line_witness :
  ∃ k', run_events demo_junk demo_hw demo_scr demo_ip demo_img 1 demo_events demo_kernel = Ret (tt, k') ∧ desk_ok k' ∧
    desk_of k' = Desk (false, false, false) [] [65; 98].
Proof.
  pose proof (keys_reach_line demo_junk demo_hw demo_scr demo_ip demo_img 1 demo_events demo_kernel demo_apart) as Hrun.
  specialize (Hrun ltac:(by intros []) ltac:(by intros []) demo_desk_ok).
  assert (E : desk_of demo_kernel = Desk (false, false, false) [] []) by reflexivity. rewrite E in Hrun.
  assert (E' : fold_left desk_step demo_events (Desk (false, false, false) [] []) = Desk (false, false, false) [] [65; 98])
    by reflexivity.
  rewrite E' in Hrun. apply Hrun. vm_compute. repeat split; discriminate.
Defined.
