(* ===== verification/LwipBase.v ===== *)
(** * LwipBase: what the parts of lwIP share

    The configuration of the kernel (include/lwip_port/lwipopts.h, with the
    defaults of lwip/opt.h for what it leaves open), alignment, byte order
    (core/def.c), assertions, and singly linked lists in memory. *)

From Stdlib Require Import ZArith Lia.
From stdpp Require Import base numbers list option functions gmap sets fin_sets.
From S2P Require Import Prelude.
Open Scope Z_scope.

(** ** The configuration *)

Definition MEM_ALIGNMENT : Z := 4.
Definition MEM_SIZE : Z := 128000.
Definition MEMP_NUM_PBUF : Z := 16.
Definition PBUF_POOL_SIZE : Z := 32.
Definition PBUF_POOL_BUFSIZE : Z := 1536.
(** [LWIP_TCP + IP_REASSEMBLY + LWIP_ARP + 2 * LWIP_DHCP + LWIP_AUTOIP]. *)
Definition MEMP_NUM_SYS_TIMEOUT : Z := 6.

(** [memp_t], in the order of memp_std.h for this configuration. *)
Definition MEMP_RAW_PCB : Z := 0.
Definition MEMP_UDP_PCB : Z := 1.
Definition MEMP_TCP_PCB : Z := 2.
Definition MEMP_TCP_PCB_LISTEN : Z := 3.
Definition MEMP_TCP_SEG : Z := 4.
Definition MEMP_REASSDATA : Z := 5.
Definition MEMP_FRAG_PBUF : Z := 6.
Definition MEMP_SYS_TIMEOUT : Z := 7.
Definition MEMP_PBUF : Z := 8.
Definition MEMP_PBUF_POOL : Z := 9.
Definition MEMP_MAX : Z := 10.

Definition NULL : Z := 0.
Lemma pos_nonnull x : 0 < x → x ≠ NULL.
Proof. unfold NULL. lia. Qed.

(** Error codes (lwip/err.h). *)
Definition ERR_OK : Z := 0.
Definition ERR_MEM : Z := -1.
Definition ERR_VAL : Z := -6.
Definition ERR_ARG : Z := -16.

(** [LWIP_ASSERT] is on; a failed assertion prints and spins for ever. *)
Definition LWIP_ASSERT {S} (b : bool) : comp S unit := if b then mret tt else out_of_fuel.

Lemma wp_assert {S} b (Q : unit → S → Prop) s : b = true → Q tt s → wp (LWIP_ASSERT b) Q s.
Proof. by intros ->. Qed.

(** ** Alignment: sizes are 32 bits wide, addresses 64 *)

Definition LWIP_MEM_ALIGN_SIZE (size : Z) : Z := Z.land (u32 (size + 3)) (u32 (Z.lnot 3)).
Definition LWIP_MEM_ALIGN (addr : Z) : Z := Z.land (u64 (addr + 3)) (u64 (Z.lnot 3)).

Lemma land_align w x : 2 ≤ w → 0 ≤ x < 2 ^ w → Z.land x ((Z.lnot 3) `mod` 2 ^ w) = x - x `mod` 4.
Proof.
  intros Hw Hx. transitivity (Z.ldiff x (Z.ones 2)).
  - apply Z.bits_inj_iff'. intros n Hn. rewrite Z.land_spec, Z.ldiff_spec.
    destruct (Z.ltb_spec n w).
    + rewrite Z.mod_pow2_bits_low by lia. rewrite Z.lnot_spec by lia. done.
    + rewrite Z.mod_pow2_bits_high by lia. destruct (decide (x = 0)) as [->|]; [by rewrite Z.bits_0|].
      rewrite (Z.bits_above_log2 x); [done|lia|]. apply Z.log2_lt_pow2; [lia|].
      apply Z.lt_le_trans with (2 ^ w); [lia|]. apply Z.pow_le_mono_r; lia.
  - rewrite Z.ldiff_ones_r, Z.shiftr_div_pow2, Z.shiftl_mul_pow2 by lia. change (2 ^ 2) with 4. dlia.
Qed.

Lemma sub_mod4 x : (x - x mod 4) mod 4 = 0.
Proof. by rewrite Zminus_mod_idemp_r, Z.sub_diag. Qed.

Lemma align_size_spec size : 0 ≤ size ≤ 2 ^ 32 - 4 →
  size ≤ LWIP_MEM_ALIGN_SIZE size < size + 4 ∧ LWIP_MEM_ALIGN_SIZE size mod 4 = 0.
Proof.
  intros Hs. unfold LWIP_MEM_ALIGN_SIZE. rewrite (u32_small (size + 3)) by lia. unfold u32.
  rewrite land_align by lia. split; [pose proof (Z.mod_pos_bound (size + 3) 4); lia | apply sub_mod4].
Qed.
(** Near the top of the range the sum wraps. *)
Lemma align_size_wrap size : 2 ^ 32 - 4 < size < 2 ^ 32 → LWIP_MEM_ALIGN_SIZE size = 0.
Proof.
  intros Hs. assert (size = 2 ^ 32 - 3 ∨ size = 2 ^ 32 - 2 ∨ size = 2 ^ 32 - 1) as [->|[->| ->]] by lia;
    by vm_compute.
Qed.
Lemma align_spec a : 0 ≤ a ≤ 2 ^ 64 - 4 →
  a ≤ LWIP_MEM_ALIGN a < a + 4 ∧ LWIP_MEM_ALIGN a mod 4 = 0.
Proof.
  intros Hs. unfold LWIP_MEM_ALIGN. rewrite (u64_small (a + 3)) by lia. unfold u64.
  rewrite land_align by lia. split; [pose proof (Z.mod_pos_bound (a + 3) 4); lia | apply sub_mod4].
Qed.
Lemma align_id a : 0 ≤ a ≤ 2 ^ 64 - 4 → a mod 4 = 0 → LWIP_MEM_ALIGN a = a.
Proof. intros Ha Hm. pose proof (align_spec a Ha). dlia. Qed.

(** ** Byte order (core/def.c): the machine is little-endian *)

Definition lwip_htons (n : Z) : Z :=
  u16 (Z.lor (Z.shiftl (Z.land n 0x00ff) 8) (Z.shiftr (Z.land n 0xff00) 8)).
Definition lwip_htonl (n : Z) : Z :=
  Z.lor (Z.lor (Z.lor (Z.shiftl (Z.land n 0x000000ff) 24) (Z.shiftl (Z.land n 0x0000ff00) 8))
    (Z.shiftr (Z.land n 0x00ff0000) 8)) (Z.shiftr (Z.land n 0xff000000) 24).

(** Two disjoint parts of a word. *)
Lemma lor_add a b k : 0 ≤ k → 0 ≤ b < 2 ^ k → a mod 2 ^ k = 0 → Z.lor a b = a + b.
Proof.
  intros Hk Hb Ha. assert (HL : Z.land a b = 0); [|pose proof (Z.add_lor_land a b); lia].
  apply Z.bits_inj_0. intros n. rewrite Z.land_spec.
  destruct (Z.ltb_spec n k) as [Hn|Hn].
  - destruct (Z.leb_spec 0 n); [|by rewrite Z.testbit_neg_r].
    rewrite <-(Z.mod_pow2_bits_low a k n) by lia. rewrite Ha. by rewrite Z.bits_0.
  - destruct (decide (b = 0)) as [->|]; [by rewrite Z.bits_0, andb_false_r|].
    rewrite (Z.bits_above_log2 b n), andb_false_r; [done|lia|]. apply Z.log2_lt_pow2; [lia|].
    apply Z.lt_le_trans with (2 ^ k); [lia|]. by apply Z.pow_le_mono_r.
Qed.

(** A byte of a word, moved down or left in place. *)
Lemma land_byte0 n : Z.land n 0xff = n `mod` 256.
Proof. change 0xff with (Z.ones 8). by rewrite Z.land_ones by lia. Qed.
Lemma shiftr_byte n k : 0 ≤ k → Z.shiftr (Z.land n (0xff * 2 ^ k)) k = (n / 2 ^ k) `mod` 256.
Proof.
  intros Hk. rewrite Z.shiftr_land, (Z.shiftr_div_pow2 (0xff * 2 ^ k)) by lia.
  rewrite Z.div_mul by lia. rewrite land_byte0, Z.shiftr_div_pow2 by lia. done.
Qed.
Lemma land_byte n k : 0 ≤ k → Z.land n (0xff * 2 ^ k) = (n / 2 ^ k) `mod` 256 * 2 ^ k.
Proof.
  intros Hk. transitivity (Z.shiftl (Z.shiftr (Z.land n (0xff * 2 ^ k)) k) k);
    [|by rewrite shiftr_byte, Z.shiftl_mul_pow2 by done].
  apply Z.bits_inj_iff'. intros i Hi. rewrite Z.shiftl_spec by lia.
  destruct (Z.ltb_spec i k).
  - rewrite (Z.testbit_neg_r _ (i - k)) by lia. rewrite Z.land_spec.
    rewrite Z.mul_pow2_bits_low, andb_false_r by lia. done.
  - rewrite Z.shiftr_spec by lia. by replace (i - k + k) with i by lia.
Qed.

Lemma htons_eq n : 0 ≤ n < 2 ^ 16 → lwip_htons n = n `mod` 256 * 256 + n / 256.
Proof.
  intros Hn. unfold lwip_htons. rewrite land_byte0. change 0xff00 with (0xff * 2 ^ 8).
  rewrite shiftr_byte, Z.shiftl_mul_pow2 by lia. change (2 ^ 8) with 256.
  rewrite (lor_add _ _ 8) by (change (2 ^ 8) with 256; dlia). unfold u16. dlia.
Qed.
Lemma htons_range n : 0 ≤ lwip_htons n < 2 ^ 16.
Proof. apply Z.mod_pos_bound. lia. Qed.
Lemma htons_involutive n : 0 ≤ n < 2 ^ 16 → lwip_htons (lwip_htons n) = n.
Proof. intros Hn. rewrite (htons_eq n) by done. rewrite htons_eq by dlia. dlia. Qed.

Lemma htonl_eq n : 0 ≤ n < 2 ^ 32 →
  lwip_htonl n = n `mod` 256 * 2 ^ 24 + (n / 256) `mod` 256 * 2 ^ 16 + (n / 2 ^ 16) `mod` 256 * 256 + n / 2 ^ 24.
Proof.
  intros Hn. unfold lwip_htonl. rewrite land_byte0.
  change 0x0000ff00 with (0xff * 2 ^ 8). change 0x00ff0000 with (0xff * 2 ^ 16).
  change 0xff000000 with (0xff * 2 ^ 24).
  rewrite (shiftr_byte n 24), (land_byte n 8), (land_byte n 16) by lia.
  rewrite !Z.shiftl_mul_pow2, Z.shiftr_div_pow2 by lia.
  rewrite (lor_add (n mod 256 * 2 ^ 24) _ 24) by dlia.
  rewrite (lor_add (n mod 256 * 2 ^ 24 + _) _ 16) by dlia.
  rewrite (lor_add _ _ 8) by dlia. dlia.
Qed.

Lemma elem_of_rev {A} (x : A) (l : list A) : x ∈ rev l ↔ x ∈ l.
Proof. by rewrite !list_elem_of_In, <-in_rev. Qed.

Lemma filter_all {A} (P : A → Prop) `{∀ x, Decision (P x)} (l : list A) : (∀ x, x ∈ l → P x) → filter P l = l.
Proof.
  induction l as [|x l IH]; intros Hl; [done|]. rewrite filter_cons_True by apply Hl, list_elem_of_here.
  f_equal. apply IH. intros y Hy. by apply Hl, list_elem_of_further.
Qed.

Lemma wp_elim {S A} (m : comp S A) (Q : A → S → Prop) s a s' : wp m Q s → m s = Ret (a, s') → Q a s'.
Proof. unfold wp. intros H E. by rewrite E in H. Qed.

Lemma hang_bind {S A B} (m : comp S A) (f : A → comp S B) s : m s = OutOfFuel → (m ≫= f) s = OutOfFuel.
Proof. intros E. unfold mbind, comp_bind. by rewrite E. Qed.

(** A loop whose measure is that of a ghost value [x] the invariant describes
    the state by. *)
Lemma wp_loop_ghost {S A R X} (I : X → A → S → Prop) (μ : X → nat) (body : A → comp S (A + R)) (Q : R → S → Prop) x a s :
  I x a s → Z.of_nat (μ x) < 2 ^ 64 →
  (∀ x a s, I x a s → wp (body a) (λ r t, match r with
     | inl a' => ∃ x', I x' a' t ∧ (μ x' < μ x)%nat
     | inr b => Q b t end) s) →
  wp (loop body a) Q s.
Proof.
  intros HI Hμ Hbody. apply (wp_loop_itern (Datatypes.S (μ x))); [lia|]. clear Hμ.
  assert (H : ∀ n x a s, I x a s → (μ x < n)%nat → wp (itern n body a) (λ r t, ∃ b, r = inr b ∧ Q b t) s).
  { intros n. induction n as [|n IH]; intros x' a' s' HI' Hn; [lia|]. cbn [itern]. apply wp_bind.
    eapply wp_mono; [by apply Hbody|]. intros [a1|b] t Ht; [|apply wp_ret; eauto].
    destruct Ht as (x1 & HI1 & Hlt). apply (IH x1); [done|lia]. }
  apply (H _ x); [done|lia].
Qed.

(** ** Singly linked lists in memory *)

(** The elements [l], linked by [next] from [a], the last one to [e]. *)
Fixpoint lseg (next : Z → Z) (a : Z) (l : list Z) (e : Z) : Prop :=
  match l with
  | [] => a = e
  | x :: t => a = x ∧ x ≠ NULL ∧ lseg next (next x) t e
  end.
Definition chain (next : Z → Z) (a : Z) (l : list Z) : Prop := lseg next a l NULL.

Lemma lseg_ext next next' a l e : (∀ x, x ∈ l → next' x = next x) → lseg next a l e → lseg next' a l e.
Proof.
  revert a. induction l as [|x l IH]; intros a He; [done|]. cbn [lseg]. intros (-> & Hx & Hc).
  split; [done|]. split; [done|]. rewrite He by apply list_elem_of_here. apply IH; [|done].
  intros y Hy. apply He. by apply list_elem_of_further.
Qed.
Lemma lseg_insert next a l e p v : p ∉ l → lseg next a l e → lseg (<[p := v]> next) a l e.
Proof. intros Hp. apply lseg_ext. intros x Hx. apply fn_lookup_insert_ne. intros ->. done. Qed.
Lemma lseg_app next a l1 l2 e : lseg next a (l1 ++ l2) e ↔ ∃ x, lseg next a l1 x ∧ lseg next x l2 e.
Proof.
  revert a. induction l1 as [|y l1 IH]; intros a; cbn [app lseg].
  - split; [by exists a | by intros (x & -> & ?)].
  - rewrite IH. naive_solver.
Qed.
Lemma lseg_head next a x l e : lseg next a (x :: l) e → a = x ∧ x ≠ NULL.
Proof. intros (-> & H & _). done. Qed.
Lemma chain_fun next a l l' : chain next a l → chain next a l' → l = l'.
Proof.
  unfold chain. revert a l'. induction l as [|x l IH]; intros a [|y l']; cbn [lseg]; [done| | |].
  - intros -> (<- & H & _). done.
  - intros (-> & H & _) ->. done.
  - intros (-> & _ & H) (-> & _ & H'). f_equal. by eapply IH.
Qed.
Lemma chain_null next a l : chain next a l → (a =? NULL) = bool_decide (l = []).
Proof.
  destruct l as [|x l]; [by intros ->|]. intros [-> Hx]%lseg_head. by apply Z.eqb_neq.
Qed.
Lemma lseg_nonnull next a l e x : lseg next a l e → x ∈ l → x ≠ NULL.
Proof.
  revert a. induction l as [|y l IH]; intros a; cbn [lseg]; [by intros _ ?%elem_of_nil|].
  intros (_ & Hy & Hc). rewrite elem_of_cons. intros [->|Hx]; [done|]. by eapply IH.
Qed.

(** ** Statistics of an allocator ([struct stats_mem]) *)

Record stats_mem := MkStatsMem {
  st_err : Z;
  st_avail : Z;
  st_used : Z;
  st_max : Z;
  st_illegal : Z
}.
(** [STATS_INC_USED]: count up and keep the maximum. *)
Definition stats_inc_used (n : Z) (st : stats_mem) : stats_mem :=
  let used := u32 (st_used st + n) in
  MkStatsMem (st_err st) (st_avail st) used (if st_max st <? used then used else st_max st) (st_illegal st).
Definition stats_dec_used (n : Z) (st : stats_mem) : stats_mem :=
  MkStatsMem (st_err st) (st_avail st) (u32 (st_used st - n)) (st_max st) (st_illegal st).
Definition stats_inc_err (st : stats_mem) : stats_mem :=
  MkStatsMem (u16 (st_err st + 1)) (st_avail st) (st_used st) (st_max st) (st_illegal st).
Definition stats_set_avail (n : Z) (st : stats_mem) : stats_mem :=
  MkStatsMem (st_err st) n (st_used st) (st_max st) (st_illegal st).

(** ** What the pools promise to their clients

    [pool_live m t L]: the elements of pool [t] handed out in [m] are [L]. *)
Class Pools (M : Type) := {
  memp_malloc : Z → comp M Z;
  memp_free : Z → Z → comp M unit;
  pool_cap : Z → nat;
  pool_size : Z → Z;
  pool_live : M → Z → gset Z → Prop;
  pool_cap_ok : ∀ m t L, pool_live m t L → (size L ≤ pool_cap t)%nat;
  pool_addr : ∀ m t L x, pool_live m t L → x ∈ L → 0 < x ∧ x + pool_size t ≤ 2 ^ 64 ∧ x mod 4 = 0;
  pool_apart : ∀ m t t' L L' x x', pool_live m t L → pool_live m t' L' → x ∈ L → x' ∈ L' → (t, x) ≠ (t', x') →
    x + pool_size t ≤ x' ∨ x' + pool_size t' ≤ x;
  memp_malloc_ok : ∀ m t L, pool_live m t L →
    wp (memp_malloc t) (λ x m',
      (∀ t' L', t' ≠ t → pool_live m t' L' → pool_live m' t' L') ∧
      (if decide (size L = pool_cap t) then x = NULL ∧ pool_live m' t L
       else x ∉ L ∧ pool_live m' t ({[ x ]} ∪ L))) m;
  memp_free_ok : ∀ m t L x, pool_live m t L → x ∈ L →
    wp (memp_free t x) (λ _ m',
      (∀ t' L', t' ≠ t → pool_live m t' L' → pool_live m' t' L') ∧ pool_live m' t (L ∖ {[ x ]})) m
}.

(** ** What the heap promises to its clients

    [heap_live h L]: the blocks handed out are the keys of [L], with the sizes
    of their data, between [heap_lo] and [heap_hi].  [heap_may_trim]: when a
    block may be shrunk. *)
Class Heaps (H : Type) := {
  mem_malloc : Z → comp H Z;
  mem_free : Z → comp H unit;
  mem_trim : Z → Z → comp H Z;
  heap_live : H → gmap Z Z → Prop;
  heap_may_trim : H → Z → Z → Prop;
  heap_lo : Z;
  heap_hi : Z;
  heap_range : 0 < heap_lo ∧ heap_hi < 2 ^ 63 ∧ heap_hi < heap_lo + 2 ^ 32;
  heap_addr : ∀ h L a n, heap_live h L → L !! a = Some n → heap_lo ≤ a ∧ a + n ≤ heap_hi ∧ a mod 4 = 0 ∧ 12 ≤ n;
  heap_apart : ∀ h L a n a' n', heap_live h L → L !! a = Some n → L !! a' = Some n' → a ≠ a' → a + n ≤ a' ∨ a' + n' ≤ a;
  mem_malloc_ok : ∀ h L n, heap_live h L → 0 ≤ n < 2 ^ 32 →
    wp (mem_malloc n) (λ p h', (p = NULL ∧ heap_live h' L) ∨
      ∃ k, n ≤ k ∧ L !! p = None ∧ heap_live h' (<[p := k]> L)) h;
  mem_free_ok : ∀ h L p k, heap_live h L → L !! p = Some k → wp (mem_free p) (λ _ h', heap_live h' (delete p L)) h;
  mem_trim_ok : ∀ h L p k n, heap_live h L → L !! p = Some k → 0 ≤ n ≤ k → heap_may_trim h p n →
    wp (mem_trim p n) (λ q h', q = p ∧ ∃ k', n ≤ k' ∧ heap_live h' (<[p := k']> L)) h
}.
(** Would the heap answer a request for [n] bytes with a block? *)
Definition heap_serves {H : Type} `{Heaps H} (h : H) (n : Z) : bool :=
  match mem_malloc n h with Ret (p, _) => negb (p =? NULL) | _ => false end.
Lemma heap_serves_answer {H : Type} `{Heaps H} (h : H) n p h' : mem_malloc n h = Ret (p, h') → heap_serves h n = negb (p =? NULL).
Proof. unfold heap_serves. by intros ->. Qed.
