(* ===== verification/LwipAddr.v ===== *)
(** * LwipAddr: IPv4 addresses (core/ipv4/ip4_addr.c, lwip/ip4_addr.h)

    An address is the 32-bit word that holds it in network byte order, on a
    little-endian machine: its first octet is the low byte.  A text is the list
    of its characters without the NUL. *)

From Stdlib Require Import ZArith Lia String.
From stdpp Require Import base numbers list option functions gmap sets fin_sets strings.
From S2P Require Import Prelude CText LwipBase.
Open Scope Z_scope.

Definition IPADDR_ANY : Z := 0x00000000.
Definition IPADDR_BROADCAST : Z := 0xffffffff.
Definition IPADDR_NONE : Z := 0xffffffff.
Definition IP4ADDR_STRLEN_MAX : Z := 16.

Definition NETIF_FLAG_UP : Z := 0x01.
Definition NETIF_FLAG_BROADCAST : Z := 0x02.
Definition NETIF_FLAG_LINK_UP : Z := 0x04.
Definition NETIF_FLAG_ETHARP : Z := 0x08.

(** [struct netif] (lwip/netif.h): the fields that the modelled code uses. *)
Record netif := MkNetif {
  ip_addr : Z;
  netmask : Z;
  gw : Z;
  mtu : Z;
  hwaddr : list Z;
  hwaddr_len : Z;
  nflags : Z;
  num : Z
}.

(** ** Kinds of addresses *)

Definition ip4_addr_isany (a : Z) : bool := a =? IPADDR_ANY.
Definition ip4_addr_netcmp (a b mask : Z) : bool := Z.land a mask =? Z.land b mask.
Definition ip4_addr_ismulticast (a : Z) : bool := Z.land a (lwip_htonl 0xf0000000) =? lwip_htonl 0xe0000000.
Definition ip4_addr_islinklocal (a : Z) : bool := Z.land a (lwip_htonl 0xffff0000) =? lwip_htonl 0xa9fe0000.
Definition ip4_addr_get_byte (a idx : Z) : Z := Z.land (Z.shiftr a (idx * 8)) 0xff.

Definition ip4_addr_isbroadcast_u32 (addr : Z) (n : netif) : bool :=
  if (u32 (Z.lnot addr) =? IPADDR_ANY) || (addr =? IPADDR_ANY) then true
  else if Z.land (nflags n) NETIF_FLAG_BROADCAST =? 0 then false
  else if addr =? ip_addr n then false
  else if ip4_addr_netcmp addr (ip_addr n) (netmask n) &&
          (Z.land addr (u32 (Z.lnot (netmask n))) =? Z.land IPADDR_BROADCAST (u32 (Z.lnot (netmask n)))) then true
  else false.

(** [for (; mask != 0; mask >>= 1) if (...) break], from [1 << 31] on; 32
    rounds shift the bit out. *)
Fixpoint scan_mask (n : nat) (stop : Z → bool) (mask : Z) : Z :=
  match n with
  | O => mask
  | Datatypes.S k => if mask =? 0 then mask else if stop mask then mask else scan_mask k stop (Z.shiftr mask 1)
  end.
Definition ip4_addr_netmask_valid (netmask : Z) : bool :=
  let nm_hostorder := lwip_htonl netmask in
  let mask := scan_mask 32 (λ mask, Z.land nm_hostorder mask =? 0) (Z.shiftl 1 31) in
  scan_mask 32 (λ mask, negb (Z.land nm_hostorder mask =? 0)) mask =? 0.

(** ** Reading an address *)

Definition lwip_in_range (c lo up : Z) : bool := (lo <=? c) && (c <=? up).
Definition lwip_isdigit (c : Z) : bool := lwip_in_range c 48 57.
Definition lwip_isxdigit (c : Z) : bool := lwip_isdigit c || lwip_in_range c 97 102 || lwip_in_range c 65 70.
Definition lwip_islower (c : Z) : bool := lwip_in_range c 97 122.
Definition lwip_isspace (c : Z) : bool :=
  (c =? 32) || (c =? 12) || (c =? 10) || (c =? 13) || (c =? 9) || (c =? 11).

(** [*cp]. *)
Definition char_at (cp : list Z) : Z := hd 0 cp.

(** The digits of one part, read in [base] after the value [val]; the text
    after them. *)
Fixpoint aton_digits (base val : Z) (cp : list Z) : Z * list Z :=
  match cp with
  | [] => (val, [])
  | c :: t =>
      if lwip_isdigit c then
        if (base =? 8) && (8 <=? u32 (c - 48)) then (val, cp)
        else aton_digits base (u32 (u32 (val * base) + u32 (c - 48))) t
      else if (base =? 16) && lwip_isxdigit c then
        aton_digits base (Z.lor (u32 (Z.shiftl val 4)) (u32 (c + 10 - (if lwip_islower c then 97 else 65)))) t
      else (val, cp)
  end.
(** The base, which a leading 0 or 0x tells. *)
Definition aton_base (cp : list Z) : Z * list Z :=
  if char_at cp =? 48 then
    let cp := tl cp in
    if (char_at cp =? 120) || (char_at cp =? 88) then (16, tl cp) else (8, cp)
  else (10, cp).
(** The parts up to the last one, its value, and the text after it.  A fourth
    dot ends the loop, so that four rounds are enough. *)
Fixpoint aton_parts (rounds : nat) (parts : list Z) (cp : list Z) : option (list Z * Z * list Z) :=
  match rounds with
  | O => None
  | Datatypes.S k =>
      if negb (lwip_isdigit (char_at cp)) then None
      else
        let '(base, cp) := aton_base cp in
        let '(val, cp) := aton_digits base 0 cp in
        if char_at cp =? 46 then
          if 3 <=? Z.of_nat (length parts) then None else aton_parts k (parts ++ [val]) (tl cp)
        else Some (parts, val, cp)
  end.
Definition concoct (parts : list Z) (val : Z) : option Z :=
  match parts with
  | [] => Some val
  | [a] => if 0xffffff <? val then None else if 0xff <? a then None else Some (Z.lor val (u32 (Z.shiftl a 24)))
  | [a; b] => if 0xffff <? val then None else if (0xff <? a) || (0xff <? b) then None
              else Some (Z.lor val (Z.lor (u32 (Z.shiftl a 24)) (u32 (Z.shiftl b 16))))
  | [a; b; c] => if 0xff <? val then None else if (0xff <? a) || (0xff <? b) || (0xff <? c) then None
                 else Some (Z.lor val (Z.lor (Z.lor (u32 (Z.shiftl a 24)) (u32 (Z.shiftl b 16))) (u32 (Z.shiftl c 8))))
  | _ => None
  end.
Definition ip4addr_aton (cp : list Z) : option Z :=
  '(parts, val, cp) ← aton_parts 4 [] cp;
  if negb (char_at cp =? 0) && negb (lwip_isspace (char_at cp)) then None
  else
    val ← concoct parts val;
    Some (lwip_htonl val).
Definition ipaddr_addr (cp : list Z) : Z := default IPADDR_NONE (ip4addr_aton cp).

(** ** Writing an address *)

(** [inv]: the digits of one byte, the last one first; it has room for three. *)
Fixpoint inv_digits (n : nat) (ap : Z) : list Z :=
  match n with
  | O => []
  | Datatypes.S k =>
      let rem := ap mod 10 in
      let ap := ap / 10 in
      (48 + rem) :: (if ap =? 0 then [] else inv_digits k ap)
  end.
(** [if (len++ >= buflen) return NULL; *rp++ = c] *)
Definition put_char_in (buflen : Z) (buf : option (list Z)) (c : Z) : option (list Z) :=
  buf ← buf;
  if buflen <=? Z.of_nat (length buf) then None else Some (buf ++ [c]).
Definition put_octet (buflen : Z) (buf : option (list Z)) (ap : Z) : option (list Z) :=
  foldl (put_char_in buflen) buf (reverse (inv_digits 3 ap) ++ [46]).
(** The text in [buf]: the last dot is overwritten with the NUL. *)
Definition ip4addr_ntoa_r (addr buflen : Z) : option (list Z) :=
  buf ← foldl (put_octet buflen) (Some []) (le_enc 4 addr);
  Some (removelast buf).
Definition ip4addr_ntoa (addr : Z) : option (list Z) := ip4addr_ntoa_r addr IP4ADDR_STRLEN_MAX.

(** ** Netmasks *)

Lemma land_pow2 x j : 0 ≤ j → (Z.land x (2 ^ j) =? 0) = negb (Z.testbit x j).
Proof. intros Hj. rewrite <-(land_bit x j Hj). by rewrite Z.shiftl_1_l. Qed.
Lemma shiftr_pow2 j : Z.shiftr (2 ^ Z.of_nat (Datatypes.S j)) 1 = 2 ^ Z.of_nat j.
Proof. rewrite Z.shiftr_div_pow2 by lia. rewrite Nat2Z.inj_succ, Z.pow_succ_r by lia. change (2 ^ 1) with 2. rewrite Z.mul_comm. by apply Z.div_mul. Qed.

(** The scan stops at the first bit, from [j] down, where [stop] holds. *)
Lemma scan_mask_spec n (stop : Z → bool) j : (j < n)%nat →
  (scan_mask n stop (2 ^ Z.of_nat j) = 0 ∧ ∀ i, (i ≤ j)%nat → stop (2 ^ Z.of_nat i) = false) ∨
  (∃ i, (i ≤ j)%nat ∧ scan_mask n stop (2 ^ Z.of_nat j) = 2 ^ Z.of_nat i ∧ stop (2 ^ Z.of_nat i) = true ∧
     ∀ k, (i < k ≤ j)%nat → stop (2 ^ Z.of_nat k) = false).
Proof.
  revert j. induction n as [|n IH]; intros j Hj; [lia|]. cbn [scan_mask].
  destruct (Z.eqb_spec (2 ^ Z.of_nat j) 0) as [E|_]; [pose proof (Z.pow_pos_nonneg 2 (Z.of_nat j)); lia|].
  destruct (stop (2 ^ Z.of_nat j)) eqn:Es.
  - right. exists j. split; [done|]. split; [done|]. split; [done|]. lia.
  - destruct j as [|j].
    + left. split; [destruct n; done|]. intros i Hi. by replace i with O by lia.
    + rewrite shiftr_pow2. destruct (IH j ltac:(lia)) as [[E Hall]|(i & Hi & E & Hs & Hall)].
      * left. split; [done|]. intros i Hi. destruct (decide (i = Datatypes.S j)) as [->|]; [done|]. apply Hall. lia.
      * right. exists i. split; [lia|]. split; [done|]. split; [done|]. intros k Hk. destruct (decide (k = Datatypes.S j)) as [->|]; [done|]. apply Hall. lia.
Qed.
Lemma scan_mask_zero n stop : scan_mask n stop 0 = 0.
Proof. by destruct n. Qed.

Lemma testbit_high x w i : 0 ≤ x < 2 ^ w → w ≤ i → Z.testbit x i = false.
Proof.
  intros Hx Hi. destruct (decide (0 ≤ w)); [|rewrite Z.pow_neg_r in Hx by lia; lia].
  rewrite <-(Z.mod_small x (2 ^ w)) by done. rewrite testbit_mod by done. destruct (Z.ltb_spec i w); [lia|done].
Qed.
(** The ones above bit [k]. *)
Lemma prefix_ones x k : 0 ≤ k ≤ 32 → 0 ≤ x < 2 ^ 32 → x = 2 ^ 32 - 2 ^ k ↔ ∀ i, 0 ≤ i < 32 → Z.testbit x i = (k <=? i).
Proof.
  intros Hk Hx. assert (E : 2 ^ 32 - 2 ^ k = Z.shiftl (Z.ones (32 - k)) k).
  { rewrite Z.shiftl_mul_pow2, Z.ones_equiv by lia. rewrite <-Z.sub_1_r, Z.mul_sub_distr_r, <-Z.pow_add_r by lia.
    replace (32 - k + k) with 32 by lia. lia. }
  assert (Hb : ∀ i, 0 ≤ i < 32 → Z.testbit (2 ^ 32 - 2 ^ k) i = (k <=? i)).
  { intros i Hi. rewrite E, Z.shiftl_spec by lia. destruct (Z.leb_spec k i).
    - rewrite Z.testbit_ones_nonneg by lia. by apply Z.ltb_lt; lia.
    - apply Z.testbit_neg_r. lia. }
  split; [by intros ->|]. intros Hx'. apply Z.bits_inj_iff'. intros i Hi. destruct (Z.ltb_spec i 32).
  - by rewrite Hx', Hb by lia.
  - rewrite !(testbit_high _ 32) by (lia || (pose proof (Z.pow_pos_nonneg 2 k); pose proof (Z.pow_le_mono_r 2 k 32); lia)). done.
Qed.

Lemma htonl_range n : 0 ≤ n < 2 ^ 32 → 0 ≤ lwip_htonl n < 2 ^ 32.
Proof. intros Hn. rewrite htonl_eq by done. dlia. Qed.

(** A netmask is valid exactly when its bits in host order are ones
    followed by zeros. *)
Theorem netmask_valid_prefix netmask : 0 ≤ netmask < 2 ^ 32 →
  ip4_addr_netmask_valid netmask = true ↔ ∃ k, 0 ≤ k ≤ 32 ∧ lwip_htonl netmask = 2 ^ 32 - 2 ^ k.
Proof.
  intros Hn. unfold ip4_addr_netmask_valid. pose proof (htonl_range _ Hn) as Hx. set (x := lwip_htonl netmask) in *. rewrite Z.shiftl_1_l.
  assert (Hbit : ∀ i : nat, (Z.land x (2 ^ Z.of_nat i) =? 0) = negb (Z.testbit x (Z.of_nat i))) by (intros i; apply land_pow2; lia).
  change 31 with (Z.of_nat 31). destruct (scan_mask_spec 32 (λ mask, Z.land x mask =? 0) 31 ltac:(lia)) as [[-> Hall]|(z & Hz & -> & Hs & Hall)].
  - rewrite scan_mask_zero. split; [intros _; exists 0|done]. split; [lia|]. apply prefix_ones; [lia|done|]. intros i Hi.
    pose proof (Hall (Z.to_nat i) ltac:(lia)) as Hb. rewrite Hbit, Z2Nat.id in Hb by lia. apply negb_false_iff in Hb. rewrite Hb. symmetry. apply Z.leb_le. lia.
  - rewrite Hbit in Hs. apply negb_true_iff in Hs.
    assert (Hup : ∀ i, Z.of_nat z < i < 32 → Z.testbit x i = true).
    { intros i Hi. pose proof (Hall (Z.to_nat i) ltac:(lia)) as Hb. rewrite Hbit, Z2Nat.id in Hb by lia. by apply negb_false_iff in Hb. }
    destruct (scan_mask_spec 32 (λ mask, negb (Z.land x mask =? 0)) z ltac:(lia)) as [[-> Hall2]|(o & Ho & -> & Hs2 & _)].
    + split; [intros _|done]. exists (Z.of_nat z + 1). split; [lia|]. apply prefix_ones; [lia|done|]. intros i Hi.
      destruct (Z.leb_spec (Z.of_nat z + 1) i); [apply Hup; lia|].
      pose proof (Hall2 (Z.to_nat i) ltac:(lia)) as Hb. rewrite Hbit, negb_involutive, Z2Nat.id in Hb by lia. done.
    + split.
      * intros E%Z.eqb_eq. pose proof (Z.pow_pos_nonneg 2 (Z.of_nat o)). lia.
      * intros (k & Hk & E). exfalso. pose proof (proj1 (prefix_ones x k Hk Hx) E) as Hb. rewrite Hbit, negb_involutive in Hs2.
        rewrite Hb in Hs2 by lia. rewrite Hb in Hs by lia. apply Z.leb_le in Hs2. apply Z.leb_gt in Hs. lia.
Qed.
Lemma netmask_valid_prefix_witness : ip4_addr_netmask_valid 0x00ffffff = true ↔ ∃ k, 0 ≤ k ≤ 32 ∧ lwip_htonl 0x00ffffff = 2 ^ 32 - 2 ^ k.
Proof. apply (netmask_valid_prefix 0x00ffffff). lia. Defined.

(** ** Texts of addresses *)

Definition octet (v : Z) : list Z := reverse (inv_digits 3 v).

(** The texts of the 256 octets, all looked at. *)
Definition octet_ok (v : Z) : bool :=
  let ds := octet v in
  forallb (λ c, (48 <=? c) && (c <=? 57)) ds && (dec_value ds =? v) && (length ds <=? 3)%nat &&
  (if hd 48 ds =? 48 then bool_decide (ds = [48]) else true).
Lemma octets_ok : forallb (λ k, octet_ok (Z.of_nat k)) (seq 0 256) = true.
Proof. by vm_compute. Qed.
Lemma octet_spec v : is_byte v →
  Forall is_dec (octet v) ∧ dec_value (octet v) = v ∧ (1 ≤ length (octet v) ≤ 3)%nat ∧ (hd 48 (octet v) = 48 → octet v = [48]).
Proof.
  intros Hv. pose proof octets_ok as H. rewrite forallb_forall in H. specialize (H (Z.to_nat v)). rewrite Z2Nat.id in H by (unfold is_byte in Hv; lia).
  assert (Hi : In (Z.to_nat v) (seq 0 256)) by (apply in_seq; unfold is_byte in Hv; lia). specialize (H Hi). unfold octet_ok in H.
  apply andb_true_iff in H as [[[H1 H2%Z.eqb_eq]%andb_true_iff H3%Nat.leb_le]%andb_true_iff H4].
  split. { rewrite forallb_forall in H1. apply Forall_forall. intros c Hc%list_elem_of_In. apply H1 in Hc. unfold is_dec. lia. }
  split; [done|]. split.
  - split; [|done]. unfold octet. rewrite length_reverse. simpl. lia.
  - intros E. rewrite E, Z.eqb_refl in H4. by apply bool_decide_eq_true in H4.
Qed.

(** A text that cannot continue a number. *)
Definition stops (t : list Z) : Prop := lwip_isxdigit (char_at t) = false ∧ char_at t ≠ 120 ∧ char_at t ≠ 88.
Lemma aton_stop base v t : stops t → aton_digits base v t = (v, t).
Proof.
  intros [Hx _]. destruct t as [|c t]; [done|]. cbn [aton_digits char_at hd] in *. unfold lwip_isxdigit in Hx.
  apply orb_false_iff in Hx as [Hd%orb_false_iff Hx]. destruct Hd as [Hd Ha]. unfold lwip_isxdigit. rewrite Hd, Ha, Hx. cbn [orb]. by rewrite andb_false_r.
Qed.
Lemma dec_digit c : is_dec c → lwip_isdigit c = true.
Proof. unfold is_dec, lwip_isdigit, lwip_in_range. intros. apply andb_true_iff. lia. Qed.
Lemma fold_dec_mono ds v : Forall is_dec ds → 0 ≤ v → v ≤ fold_left (λ v c, 10 * v + (c - 48)) ds v.
Proof.
  intros Hd. revert v. induction Hd as [|c ds Hc Hd IH]; intros v Hv; simpl; [done|]. unfold is_dec in Hc.
  etrans; [|apply IH; lia]. lia.
Qed.
Lemma aton_dec ds v t : Forall is_dec ds → 0 ≤ v → fold_left (λ v c, 10 * v + (c - 48)) ds v < 2 ^ 32 →
  aton_digits 10 v (ds ++ t) = aton_digits 10 (fold_left (λ v c, 10 * v + (c - 48)) ds v) t.
Proof.
  intros Hd. revert v. induction Hd as [|c ds Hc Hd IH]; intros v Hv Hlt; [done|]. cbn [app aton_digits fold_left] in *.
  rewrite dec_digit by done. unfold is_dec in Hc. pose proof (fold_dec_mono ds (10 * v + (c - 48)) Hd ltac:(lia)) as Hm.
  change (10 =? 8) with false. cbn [andb]. rewrite !(u32_small (v * 10)), (u32_small (c - 48)), u32_small by lia.
  replace (v * 10 + (c - 48)) with (10 * v + (c - 48)) by lia. by apply IH; lia.
Qed.
(** One decimal part is read as its value, 0 too, which is taken for octal. *)
Lemma read_octet v t : is_byte v → stops t →
  lwip_isdigit (char_at (octet v ++ t)) = true ∧
  (let '(base, cp) := aton_base (octet v ++ t) in aton_digits base 0 cp) = (v, t).
Proof.
  intros Hv Ht. destruct (octet_spec v Hv) as (Hd & Ev & [Hl _] & H0). destruct (octet v) as [|c ds]; [simpl in Hl; lia|].
  cbn [app char_at hd] in *. split; [apply dec_digit; by inversion Hd|]. unfold aton_base. cbn [char_at hd tl].
  destruct (Z.eqb_spec c 48) as [->|Hc].
  - specialize (H0 eq_refl). injection H0 as ->. change (dec_value [48]) with 0 in Ev. subst v. cbn [app].
    pose proof (aton_stop 8 0 t Ht) as E. destruct Ht as (_ & H1 & H2).
    rewrite (proj2 (Z.eqb_neq _ _) H1), (proj2 (Z.eqb_neq _ _) H2). cbn [orb]. exact E.
  - rewrite app_comm_cons, aton_dec by (done || lia || (fold (dec_value (c :: ds)); unfold is_byte in Hv; lia)).
    fold (dec_value (c :: ds)). rewrite Ev. by apply aton_stop.
Qed.
Lemma dot_stops t : stops (46 :: t).
Proof. done. Qed.
Lemma aton_parts_octet k parts v t : is_byte v → stops t → aton_parts (Datatypes.S k) parts (octet v ++ t) =
  if char_at t =? 46 then if 3 <=? Z.of_nat (length parts) then None else aton_parts k (parts ++ [v]) (tl t) else Some (parts, v, t).
Proof.
  intros Hv Ht. destruct (read_octet v t Hv Ht) as [Hd E]. cbn [aton_parts]. rewrite Hd. cbn [negb].
  destruct (aton_base (octet v ++ t)) as [base cp]. by rewrite E.
Qed.

Lemma concoct_octets a b c d : is_byte a → is_byte b → is_byte c → is_byte d →
  concoct [a; b; c] d = Some (a * 2 ^ 24 + b * 2 ^ 16 + c * 2 ^ 8 + d).
Proof.
  unfold is_byte. intros Ha Hb Hc Hd. unfold concoct.
  rewrite !(proj2 (Z.ltb_ge _ _)) by lia. cbn [orb]. rewrite !Z.shiftl_mul_pow2 by lia. rewrite !u32_small by lia. f_equal.
  rewrite (Z.lor_comm d), (lor_add (a * 2 ^ 24) _ 24), (lor_add _ (c * 2 ^ 8) 16), (lor_add _ d 8) by dlia. lia.
Qed.
Lemma htonl_octets a b c d : is_byte a → is_byte b → is_byte c → is_byte d →
  lwip_htonl (a * 2 ^ 24 + b * 2 ^ 16 + c * 2 ^ 8 + d) = le_dec [a; b; c; d].
Proof. unfold is_byte. intros Ha Hb Hc Hd. rewrite htonl_eq by lia. simpl. dlia. Qed.

(** What may follow an address. *)
Definition ends_word (t : list Z) : Prop := char_at t = 0 ∨ lwip_isspace (char_at t) = true.
Lemma ends_word_stops t : ends_word t → stops t ∧ char_at t ≠ 46 ∧ negb (char_at t =? 0) && negb (lwip_isspace (char_at t)) = false.
Proof.
  unfold ends_word, stops. intros [->|Hs]; [done|]. assert (Hc : 0 < char_at t ≤ 32) by (unfold lwip_isspace in Hs; lia).
  rewrite Hs. split_and!; [|lia|lia|lia|by rewrite andb_false_r].
  unfold lwip_isxdigit, lwip_isdigit, lwip_in_range. lia.
Qed.

Lemma put_chars buflen buf l : Z.of_nat (length buf) ≤ buflen → foldl (put_char_in buflen) (Some buf) l =
  if Z.of_nat (length (buf ++ l)) <=? buflen then Some (buf ++ l) else None.
Proof.
  revert buf. induction l as [|c l IH]; intros buf Hb; cbn [foldl].
  - rewrite app_nil_r. by rewrite (proj2 (Z.leb_le _ _)) by lia.
  - unfold put_char_in at 2. cbn [mbind option_bind]. destruct (Z.leb_spec buflen (Z.of_nat (length buf))) as [Hge|Hlt].
    + rewrite length_app in *. cbn [length]. rewrite (proj2 (Z.leb_gt _ _)) by lia. clear. by induction l.
    + rewrite IH by (rewrite length_app; simpl; lia). by rewrite <-app_assoc.
Qed.
Lemma put_chars_none buflen l : foldl (put_char_in buflen) None l = None.
Proof. by induction l. Qed.
Lemma put_octets buflen buf vs : Z.of_nat (length buf) ≤ buflen → foldl (put_octet buflen) (Some buf) vs =
  let all := buf ++ concat (map (λ v, octet v ++ [46]) vs) in if Z.of_nat (length all) <=? buflen then Some all else None.
Proof.
  revert buf. induction vs as [|v vs IH]; intros buf Hb; cbn [foldl map concat].
  - rewrite app_nil_r. by rewrite (proj2 (Z.leb_le _ _)) by lia.
  - unfold put_octet at 2. fold (octet v). rewrite put_chars by done. destruct (Z.leb_spec (Z.of_nat (length (buf ++ octet v ++ [46]))) buflen) as [Hle|Hgt].
    + rewrite IH by done. by rewrite <-!app_assoc.
    + rewrite (app_assoc buf). cbv zeta. rewrite length_app. rewrite (proj2 (Z.leb_gt _ _)) by lia.
      clear. induction vs as [|w vs IH]; [done|]. cbn [foldl]. unfold put_octet at 2. by rewrite put_chars_none.
Qed.

(** The dotted text of an address. *)
Definition dotted (a b c d : Z) : list Z := octet a ++ 46 :: octet b ++ 46 :: octet c ++ 46 :: octet d.
Lemma dotted_nul_free a b c d : is_byte a → is_byte b → is_byte c → is_byte d → nul_free (dotted a b c d).
Proof.
  intros Ha Hb Hc Hd. assert (K : ∀ v, is_byte v → nul_free (octet v)).
  { intros v Hv. destruct (octet_spec v Hv) as [H _]. eapply Forall_impl; [exact H|]. unfold is_dec. intros; lia. }
  unfold dotted, nul_free. apply Forall_app. split; [by apply K|]. constructor; [lia|]. apply Forall_app. split; [by apply K|].
  constructor; [lia|]. apply Forall_app. split; [by apply K|]. constructor; [lia|]. by apply K.
Qed.
Lemma aton_dotted a b c d t : is_byte a → is_byte b → is_byte c → is_byte d → ends_word t →
  ip4addr_aton (dotted a b c d ++ t) = Some (le_dec [a; b; c; d]).
Proof.
  intros Ha Hb Hc Hd Ht. destruct (ends_word_stops t Ht) as (Hs & Hdot & Htrail). unfold ip4addr_aton, dotted.
  rewrite <-app_assoc. cbn [app]. rewrite aton_parts_octet by done. cbn [char_at hd tl app]. rewrite Z.eqb_refl.
  change (3 <=? Z.of_nat (length [])) with false. cbv iota.
  rewrite <-app_assoc. cbn [app]. rewrite aton_parts_octet by done. cbn [char_at hd tl app]. rewrite Z.eqb_refl.
  change (3 <=? Z.of_nat (length [a])) with false. cbv iota.
  rewrite <-app_assoc. cbn [app]. rewrite aton_parts_octet by done. cbn [char_at hd tl app]. rewrite Z.eqb_refl.
  change (3 <=? Z.of_nat (length [a; b])) with false. cbv iota.
  rewrite aton_parts_octet by done. rewrite (proj2 (Z.eqb_neq _ _) Hdot). cbn [mbind option_bind app].
  rewrite Htrail. rewrite concoct_octets by done. cbn [mbind option_bind]. by rewrite htonl_octets.
Qed.
Lemma ntoa_dotted a b c d buflen : 0 ≤ buflen → is_byte a → is_byte b → is_byte c → is_byte d →
  ip4addr_ntoa_r (le_dec [a; b; c; d]) buflen = if Z.of_nat (length (dotted a b c d)) <? buflen then Some (dotted a b c d) else None.
Proof.
  intros Hb H1 H2 H3 H4. unfold ip4addr_ntoa_r. change 4%nat with (length [a; b; c; d]). rewrite le_enc_dec by (repeat constructor; apply H1 || apply H2 || apply H3 || apply H4).
  rewrite put_octets by done. cbn [map concat app]. cbv zeta.
  replace ((octet a ++ [46]) ++ (octet b ++ [46]) ++ (octet c ++ [46]) ++ (octet d ++ [46]) ++ []) with (dotted a b c d ++ [46])
    by (unfold dotted; rewrite app_nil_r; repeat (rewrite <-app_assoc; cbn [app]); done).
  rewrite length_app. cbn [length]. destruct (Z.ltb_spec (Z.of_nat (length (dotted a b c d))) buflen).
  - rewrite (proj2 (Z.leb_le _ _)) by lia. cbn [mbind option_bind]. f_equal. by apply removelast_last.
  - by rewrite (proj2 (Z.leb_gt _ _)) by lia.
Qed.
Lemma four_bytes x : 0 ≤ x < 2 ^ 32 → ∃ a b c d, x = le_dec [a; b; c; d] ∧ is_byte a ∧ is_byte b ∧ is_byte c ∧ is_byte d.
Proof.
  intros Hx. pose proof (le_enc_bytes 4 x) as Hf. pose proof (le_dec_enc 4 x) as E. change (256 ^ Z.of_nat 4) with (2 ^ 32) in E.
  rewrite Z.mod_small in E by done. cbn [le_enc] in *. do 4 eexists. split; [exact (eq_sym E)|].
  apply Forall_cons in Hf as [? Hf]. apply Forall_cons in Hf as [? Hf]. apply Forall_cons in Hf as [? Hf]. apply Forall_cons in Hf as [? _]. done.
Qed.

(** C29. Every address has a text of at most 15 characters, which is written
    exactly when the buffer has room for it and its NUL, and which is read back
    as the address when the text ends there or white space follows, whatever
    comes after that. *)
Theorem addr_text_roundtrip addr t : 0 ≤ addr < 2 ^ 32 → ends_word t →
  ∃ txt, (∀ buflen, 0 ≤ buflen → ip4addr_ntoa_r addr buflen = if Z.of_nat (length txt) <? buflen then Some txt else None) ∧
    ip4addr_ntoa addr = Some txt ∧ (length txt ≤ 15)%nat ∧ nul_free txt ∧ ip4addr_aton (txt ++ t) = Some addr.
Proof.
  intros Ha Ht. destruct (four_bytes addr Ha) as (a & b & c & d & -> & H1 & H2 & H3 & H4). exists (dotted a b c d).
  split; [intros; by apply ntoa_dotted|].
  assert (Hlen : (length (dotted a b c d) ≤ 15)%nat); [|split; [|split; [done|split; [by apply dotted_nul_free|by apply aton_dotted]]]].
  2: { unfold ip4addr_ntoa. rewrite ntoa_dotted by done. unfold IP4ADDR_STRLEN_MAX. by rewrite (proj2 (Z.ltb_lt _ _)) by lia. }
  unfold dotted.
  destruct (octet_spec a H1) as (_ & _ & ? & _), (octet_spec b H2) as (_ & _ & ? & _), (octet_spec c H3) as (_ & _ & ? & _), (octet_spec d H4) as (_ & _ & ? & _).
  rewrite length_app. cbn [length]. rewrite length_app. cbn [length]. rewrite length_app. cbn [length]. lia.
Qed.
Lemma addr_text_roundtrip_witness :
  ∃ txt, (∀ buflen, 0 ≤ buflen → ip4addr_ntoa_r 0x0100a8c0 buflen = if Z.of_nat (length txt) <? buflen then Some txt else None) ∧
    ip4addr_ntoa 0x0100a8c0 = Some txt ∧ (length txt ≤ 15)%nat ∧ nul_free txt ∧ ip4addr_aton (txt ++ [32; 97]) = Some 0x0100a8c0.
Proof. apply (addr_text_roundtrip 0x0100a8c0 [32; 97]); [lia|by right]. Defined.

(** What is read beyond dotted decimals: octal and hexadecimal parts, fewer
    parts; 0x without digits; and numbers that do not fit wrap round. *)
Example aton_octal : ip4addr_aton (bytes_of "010.0x10.1") = Some (lwip_htonl 0x08100001).
Proof. by vm_compute. Qed.
Example aton_no_digits : ip4addr_aton (bytes_of "0x.0.0.1") = Some (lwip_htonl 1).
Proof. by vm_compute. Qed.
Example aton_wraps : ip4addr_aton (bytes_of "4294967306.0.0.1") = Some (lwip_htonl 0x0a000001).
Proof. by vm_compute. Qed.
Example aton_too_big : ip4addr_aton (bytes_of "256.0.0.1") = None.
Proof. by vm_compute. Qed.
