(* ===== verification/LwipChksum.v ===== *)
(** * LwipChksum: the Internet checksum (core/inet_chksum.c)

    The kernel does not choose an algorithm, so lwIP takes its version 2:
    words of 16 bits in the order of the machine, with an odd start address
    turned round at the end.  The reference is the sum of RFC 1071, on words in
    network order with the carry added at each step. *)

From Stdlib Require Import ZArith Lia.
From stdpp Require Import base numbers list option functions.
From S2P Require Import Prelude LwipBase.
Open Scope Z_scope.

Definition FOLD_U32T (u : Z) : Z := u32 (Z.shiftr u 16 + Z.land u 0x0000ffff).
Definition SWAP_BYTES_IN_WORD (w : Z) : Z :=
  Z.lor (Z.shiftl (Z.land w 0xff) 8) (Z.shiftr (Z.land w 0xff00) 8).

(** The [u16_t] at an address. *)
Definition mld16 (m : memory) (a : Z) : Z := le_dec (mem_bytes m a 2).

(** [sum += *ps++] while two bytes are left; answers where it stopped. *)
Definition sum_words (ps len : Z) : comp memory (Z * Z * Z) :=
  loop (λ '(ps, len, sum),
    if 1 <? len then
      w ← gets (λ m, mld16 m ps);
      mret (inl (ps + 2, len - 2, u32 (sum + w)))
    else mret (inr (ps, len, sum))) (ps, len, 0).

Definition lwip_standard_chksum (dataptr len : Z) : comp memory Z :=
  let odd := Z.odd dataptr in
  '(pb, len, t) ← (if odd && (0 <? len)
                   then b ← gets (λ m, m dataptr); mret (dataptr + 1, len - 1, Z.shiftl b 8)
                   else mret (dataptr, len, 0));
  '(ps, len, sum) ← sum_words pb len;
  t ← (if 0 <? len then b ← gets (λ m, m ps); mret (Z.lor (Z.land t 0xff00) b) else mret t);
  let sum := u32 (sum + t) in
  let sum := FOLD_U32T sum in
  let sum := FOLD_U32T sum in
  let sum := if odd then SWAP_BYTES_IN_WORD sum else sum in
  mret (u16 sum).

Definition inet_chksum (dataptr len : Z) : comp memory Z :=
  s ← lwip_standard_chksum dataptr len;
  mret (u16 (Z.lnot s)).

(** ** The reference *)

(** The words of a packet in network order; a last odd byte is padded. *)
Fixpoint net_words (bs : list Z) : list Z :=
  match bs with
  | [] => []
  | [a] => [a * 256]
  | a :: b :: t => a * 256 + b :: net_words t
  end.

(** Addition with the carry added back in. *)
Definition oc_add (a b : Z) : Z := let s := a + b in if s <? 65536 then s else s - 65535.
Definition rfc1071_sum (bs : list Z) : Z := fold_left oc_add (net_words bs) 0.

(** ** Numbers modulo 65535, with 0 kept apart *)

(** The value of a one's complement accumulator that has summed up [s]. *)
Definition canon (s : Z) : Z := if s =? 0 then 0 else (s - 1) mod 65535 + 1.

Lemma canon_intro s c k : 0 ≤ c ≤ 65535 → s = c + 65535 * k → 0 ≤ k → (c = 0 → s = 0) → canon s = c.
Proof.
  intros Hc -> Hk H0. unfold canon. destruct (Z.eqb_spec (c + 65535 * k) 0); [lia|].
  assert (c ≠ 0) by (intros ->; lia).
  replace (c + 65535 * k - 1) with (c - 1 + k * 65535) by lia. rewrite Z_mod_plus_full, Z.mod_small; lia.
Qed.
Lemma canon_elim s : 0 ≤ s → ∃ k, 0 ≤ k ∧ s = canon s + 65535 * k ∧ 0 ≤ canon s ≤ 65535 ∧ (canon s = 0 ↔ s = 0).
Proof.
  intros Hs. unfold canon. destruct (Z.eqb_spec s 0) as [->|Hne]; [exists 0; lia|].
  exists ((s - 1) / 65535). dlia.
Qed.
Lemma canon_range s : 0 ≤ s → 0 ≤ canon s ≤ 65535.
Proof. intros Hs. by destruct (canon_elim s Hs) as (k & _ & _ & H & _). Qed.
Lemma canon_small s : 0 ≤ s ≤ 65535 → canon s = s.
Proof. intros Hs. apply (canon_intro s s 0); lia. Qed.

(** A product of canonical values is a matter of residues. *)
Lemma canon_cong s s' k : 0 ≤ s → 0 ≤ s' → s = s' + 65535 * k → (s = 0 ↔ s' = 0) → canon s = canon s'.
Proof.
  intros Hs Hs' E H0. destruct (canon_elim s' Hs') as (k' & Hk' & E' & Hr & Hz).
  apply (canon_intro s _ (k + k')); [done|lia| |lia].
  assert (k + k' < 0 → False); [|lia]. intros Hneg. lia.
Qed.
Lemma canon_add a b : 0 ≤ a → 0 ≤ b → canon (canon a + b) = canon (a + b).
Proof.
  intros Ha Hb. destruct (canon_elim a Ha) as (k & Hk & E & Hr & Hz).
  apply (canon_cong _ _ (- k)); lia.
Qed.
Lemma canon_mul a b : 0 ≤ a → 0 < b → canon (canon a * b) = canon (a * b).
Proof.
  intros Ha Hb. destruct (canon_elim a Ha) as (k & Hk & E & Hr & Hz).
  apply (canon_cong _ _ (- k * b)); nia.
Qed.
Lemma canon_65536 a : 0 ≤ a → canon (65536 * a) = canon a.
Proof. intros Ha. apply (canon_cong _ _ a); lia. Qed.

Lemma oc_add_canon a b : 0 ≤ a → 0 ≤ b ≤ 65535 → oc_add (canon a) b = canon (a + b).
Proof.
  intros Ha Hb. rewrite <-canon_add by lia. pose proof (canon_range a Ha). unfold oc_add.
  destruct (Z.ltb_spec (canon a + b) 65536).
  - symmetry. apply canon_small. lia.
  - symmetry. apply (canon_intro _ _ 1); lia.
Qed.

(** Two folds bring a sum of 32 bits down to its value. *)
Lemma fold_eq u : 0 ≤ u < 2 ^ 32 → FOLD_U32T u = u / 65536 + u mod 65536.
Proof.
  intros Hu. unfold FOLD_U32T. rewrite Z.shiftr_div_pow2 by lia.
  change 0x0000ffff with (Z.ones 16). rewrite Z.land_ones by lia. apply u32_small. dlia.
Qed.
Lemma fold_small u : 0 ≤ u ≤ 2 * 65535 → FOLD_U32T u = canon u.
Proof.
  intros Hu. rewrite fold_eq by lia. symmetry. apply (canon_intro _ _ (u / 65536)); dlia.
Qed.
Lemma fold_twice u : 0 ≤ u < 2 ^ 32 → FOLD_U32T (FOLD_U32T u) = canon u.
Proof.
  intros Hu. rewrite (fold_eq u) by done.
  assert (0 ≤ u / 65536 + u mod 65536 ≤ 2 * 65535) by dlia.
  rewrite fold_small by done. apply (canon_cong _ _ (- (u / 65536))); dlia.
Qed.

Lemma swap_eq c : 0 ≤ c ≤ 65535 → SWAP_BYTES_IN_WORD c = c mod 256 * 256 + c / 256.
Proof.
  intros Hc. unfold SWAP_BYTES_IN_WORD. rewrite land_byte0. change 0xff00 with (0xff * 2 ^ 8).
  rewrite shiftr_byte, Z.shiftl_mul_pow2 by lia. rewrite (lor_add _ _ 8) by dlia. dlia.
Qed.
Lemma swap_canon a : 0 ≤ a → SWAP_BYTES_IN_WORD (canon a) = canon (256 * a).
Proof.
  intros Ha. pose proof (canon_range a Ha). rewrite swap_eq by lia.
  rewrite (Z.mul_comm 256 a), <-canon_mul by lia.
  symmetry. apply (canon_intro _ _ (canon a / 256)); dlia.
Qed.
Lemma htons_swap c : 0 ≤ c ≤ 65535 → lwip_htons c = SWAP_BYTES_IN_WORD c.
Proof. intros Hc. rewrite htons_eq, swap_eq by lia. done. Qed.

(** ** The checksum of a list of bytes *)

(** The bytes as one little-endian number: 65536 is 1 modulo 65535, so its
    value as an accumulator is the sum of its words. *)
Definition csum (bs : list Z) : Z := canon (le_dec bs).

Lemma le_dec_nonneg bs : Forall is_byte bs → 0 ≤ le_dec bs.
Proof. intros H. by apply le_dec_bound. Qed.
#[export] Hint Resolve le_dec_nonneg : csem.

Lemma csum_range bs : Forall is_byte bs → 0 ≤ csum bs ≤ 65535.
Proof. intros H. apply canon_range, le_dec_nonneg, H. Qed.

Lemma rfc_from bs : Forall is_byte bs → ∀ a, 0 ≤ a →
  fold_left oc_add (net_words bs) (canon a) = canon (a + 256 * le_dec bs).
Proof.
  revert bs. fix IH 1. intros [|x [|y t]] Hb a Ha.
  - simpl. f_equal. lia.
  - inversion_clear Hb as [|? ? Hx _]. unfold is_byte in Hx. simpl.
    rewrite oc_add_canon by lia. f_equal. lia.
  - inversion_clear Hb as [|? ? Hx Hb']. inversion_clear Hb' as [|? ? Hy Ht]. unfold is_byte in *.
    pose proof (le_dec_nonneg t Ht). cbn [net_words fold_left le_dec].
    rewrite oc_add_canon by lia. rewrite (IH t) by (done || lia).
    apply (canon_cong _ _ (- (y + 256 * le_dec t))); lia.
Qed.

(** In network order the value is the sum of the RFC. *)
Lemma csum_rfc bs : Forall is_byte bs → lwip_htons (csum bs) = rfc1071_sum bs.
Proof.
  intros Hb. pose proof (le_dec_nonneg bs Hb). rewrite htons_swap by by apply csum_range.
  unfold csum. rewrite swap_canon by done. unfold rfc1071_sum.
  change 0 with (canon 0). by rewrite rfc_from by done.
Qed.

(** Pieces: the second one is turned round when the first one is odd. *)
Lemma le_dec_app_even l1 l2 :
  Forall is_byte l1 → Forall is_byte l2 → Nat.Even (length l1) →
  canon (le_dec (l1 ++ l2)) = canon (le_dec l1 + le_dec l2).
Proof.
  intros H1 H2 [n Hn]. pose proof (le_dec_nonneg _ H1). pose proof (le_dec_nonneg _ H2).
  rewrite le_dec_app, Hn. clear Hn. rewrite Nat2Z.inj_mul, Z.pow_mul_r by lia. change (256 ^ Z.of_nat 2) with 65536.
  set (a := le_dec l1) in *. set (b := le_dec l2) in *.
  assert (∀ n : nat, ∃ k, 0 ≤ k ∧ 65536 ^ Z.of_nat n = 1 + 65535 * k) as Hp.
  { intros m. induction m as [|m (k & Hk & E)]; [exists 0; lia|].
    rewrite Nat2Z.inj_succ, Z.pow_succ_r, E by lia. exists (1 + 65535 * k + k). lia. }
  destruct (Hp n) as (k & Hk & ->). apply (canon_cong _ _ (k * b)); nia.
Qed.
Lemma le_dec_app_odd l1 l2 :
  Forall is_byte l1 → Forall is_byte l2 → Nat.Odd (length l1) →
  canon (le_dec (l1 ++ l2)) = canon (le_dec l1 + 256 * le_dec l2).
Proof.
  intros H1 H2 [n Hn]. destruct l1 as [|x l1 _] using rev_ind; [simpl in Hn; lia|].
  rewrite length_app in Hn. simpl in Hn. apply Forall_app in H1 as [H1 Hx].
  rewrite <-app_assoc. rewrite le_dec_app_even; [|done| |exists n; lia].
  2: { apply Forall_app. done. }
  pose proof (le_dec_nonneg _ H1). pose proof (le_dec_nonneg _ H2).
  inversion_clear Hx as [|? ? Hx' _]. unfold is_byte in Hx'.
  assert (E : canon (le_dec (l1 ++ [x])) = canon (le_dec l1 + le_dec [x])).
  { apply le_dec_app_even; [done| |exists n; lia]. constructor; [done|constructor]. }
  assert (0 ≤ le_dec (l1 ++ [x])) by (apply le_dec_nonneg, Forall_app; split; [done|by constructor]).
  rewrite <-(canon_add (le_dec (l1 ++ [x]))) by lia. rewrite E, canon_add by (simpl; lia).
  f_equal. simpl. lia.
Qed.

(** ** The code computes it *)

(** Sum of [n] machine words from [a] on. *)
Fixpoint word_sum (m : memory) (a : Z) (n : nat) : Z :=
  match n with O => 0 | S n' => mld16 m a + word_sum m (a + 2) n' end.

Lemma mld16_range m a : (∀ x, is_byte (m x)) → 0 ≤ mld16 m a < 65536.
Proof. intros H. exact (le_dec_bound _ (mem_bytes_bytes m a 2 H)). Qed.

Lemma word_sum_bound m a n : (∀ x, is_byte (m x)) → 0 ≤ word_sum m a n ≤ 65535 * Z.of_nat n.
Proof.
  intros H. revert a. induction n as [|n IH]; intros a; simpl; [lia|].
  specialize (IH (a + 2)). pose proof (mld16_range m a H). lia.
Qed.

Lemma word_sum_le_dec m a n : (∀ x, is_byte (m x)) →
  canon (word_sum m a n) = csum (mem_bytes m a (2 * n)).
Proof.
  intros H. revert a. induction n as [|n IH]; intros a; [done|].
  replace (2 * S n)%nat with (2 + 2 * n)%nat by lia. unfold csum.
  rewrite mem_bytes_app, le_dec_app_even; [|by apply mem_bytes_bytes..|exists 1%nat; done].
  cbn [word_sum]. fold (mld16 m a). pose proof (mld16_range m a H). pose proof (word_sum_bound m (a + 2) n H).
  rewrite (Z.add_comm (mld16 m a)), <-canon_add by lia. rewrite IH. unfold csum.
  rewrite canon_add by (lia || by apply le_dec_nonneg, mem_bytes_bytes). f_equal. change (Z.of_nat 2) with 2. lia.
Qed.

Lemma sum_words_run m ps n r : (∀ x, is_byte (m x)) → 0 ≤ r ≤ 1 → Z.of_nat n ≤ 65536 →
  wp (sum_words ps (2 * Z.of_nat n + r)) (λ '(ps', len', sum) m',
    m' = m ∧ ps' = ps + 2 * Z.of_nat n ∧ len' = r ∧ sum = word_sum m ps n) m.
Proof.
  intros Hm Hr Hn.
  unfold sum_words. apply (wp_loop (λ '(ps', len', sum) m', ∃ k : nat, m' = m ∧ (k ≤ n)%nat ∧ len' = 2 * Z.of_nat k + r ∧
      ps' = ps + 2 * Z.of_nat (n - k) ∧ 0 ≤ sum ∧ sum + word_sum m ps' k = word_sum m ps n)
    (λ '(_, len', _) _, len')).
  - exists n. rewrite Nat.sub_diag. repeat split; lia.
  - lia.
  - intros [[ps' len'] sum] m' (k & _ & _ & -> & _). lia.
  - intros [[ps' len'] sum] m' (k & -> & Hk & -> & -> & Hs0 & Hs).
    destruct (Z.ltb_spec 1 (2 * Z.of_nat k + r)).
    + destruct k as [|k]; [lia|]. wp_steps. cbn [word_sum] in Hs.
      pose proof (mld16_range m (ps + 2 * Z.of_nat (n - S k)) Hm).
      pose proof (word_sum_bound m (ps + 2 * Z.of_nat (n - S k) + 2) k Hm).
      pose proof (word_sum_bound m ps n Hm).
      split; [|lia]. exists k. rewrite u32_small by lia.
      replace (ps + 2 * Z.of_nat (n - k)) with (ps + 2 * Z.of_nat (n - S k) + 2) by lia.
      repeat split; lia.
    + destruct k as [|k]; [|lia]. wp_steps. rewrite Nat.sub_0_r. simpl in Hs. repeat split; lia.
Qed.

(** The words and the byte left over. *)
Definition left_over (m : memory) (p len : Z) : Z := if 0 <? len mod 2 then m (p + 2 * (len / 2)) else 0.

Lemma words_and_rest m p len : (∀ x, is_byte (m x)) → 0 ≤ len →
  canon (word_sum m p (Z.to_nat (len / 2)) + left_over m p len) = csum (mem_bytes m p (Z.to_nat len)).
Proof.
  intros Hm Hlen. unfold left_over. set (n := Z.to_nat (len / 2)).
  pose proof (word_sum_bound m p n Hm). pose proof (Hm (p + 2 * (len / 2))) as Hb. unfold is_byte in Hb.
  destruct (Z.ltb_spec 0 (len mod 2)) as [Hr|Hr].
  - replace (Z.to_nat len) with (2 * n + 1)%nat by (subst n; dlia). unfold csum.
    rewrite mem_bytes_app, le_dec_app_even; [|by apply mem_bytes_bytes..|exists n; rewrite length_mem_bytes; lia].
    rewrite <-canon_add, word_sum_le_dec by (done || lia). unfold csum.
    rewrite canon_add by (lia || by apply le_dec_nonneg, mem_bytes_bytes). f_equal.
    replace (p + 2 * (len / 2)) with (p + Z.of_nat (2 * n)) by (subst n; dlia).
    rewrite mem_bytes_S. simpl. lia.
  - replace (Z.to_nat len) with (2 * n)%nat by (subst n; dlia). rewrite Z.add_0_r. by apply word_sum_le_dec.
Qed.

Lemma sum_words_spec ps len m : (∀ x, is_byte (m x)) → 0 ≤ len ≤ 131072 →
  wp (sum_words ps len) (λ '(ps', len', sum) m',
    m' = m ∧ ps' = ps + 2 * (len / 2) ∧ len' = len mod 2 ∧ sum = word_sum m ps (Z.to_nat (len / 2))) m.
Proof.
  intros Hm Hlen. replace len with (2 * Z.of_nat (Z.to_nat (len / 2)) + len mod 2) at 1 by dlia.
  eapply wp_mono; [apply sum_words_run; [done|dlia|dlia]|].
  intros [[ps' len'] sum] m' (-> & -> & -> & ->). repeat split. rewrite Z2Nat.id by dlia. done.
Qed.

(** The end of the routine: fold, and turn round after an odd start. *)
Lemma fold_total m p len b : (∀ x, is_byte (m x)) → 0 ≤ len ≤ 131072 → 0 ≤ b < 256 →
  let s := u32 (word_sum m p (Z.to_nat (len / 2)) + (256 * b + left_over m p len)) in
  FOLD_U32T (FOLD_U32T s) = canon (256 * b + le_dec (mem_bytes m p (Z.to_nat len))).
Proof.
  intros Hm Hlen Hb s. pose proof (word_sum_bound m p (Z.to_nat (len / 2)) Hm) as HW.
  assert (Hlo : 0 ≤ left_over m p len < 256).
  { unfold left_over. destruct (0 <? _); [apply Hm|lia]. }
  assert (HW' : word_sum m p (Z.to_nat (len / 2)) ≤ 65535 * 65536) by dlia.
  subst s. rewrite fold_twice by apply u32_range. rewrite u32_small by lia.
  replace (word_sum m p (Z.to_nat (len / 2)) + (256 * b + left_over m p len))
    with (word_sum m p (Z.to_nat (len / 2)) + left_over m p len + 256 * b) by lia.
  rewrite <-canon_add by lia. rewrite words_and_rest by (done || lia). unfold csum.
  rewrite canon_add by (lia || by apply le_dec_nonneg, mem_bytes_bytes). f_equal. lia.
Qed.

(** The byte left over goes to the low half of [t]. *)
Lemma left_over_run m p len t (Q : Z → memory → Prop) : (∀ x, is_byte (m x)) → 0 ≤ t < 256 →
  Q (256 * t + left_over m p len) m →
  wp (if 0 <? len mod 2 then b ← gets (λ m, m (p + 2 * (len / 2))); mret (Z.lor (Z.land (Z.shiftl t 8) 0xff00) b)
      else mret (Z.shiftl t 8)) Q m.
Proof.
  intros Hm Ht HQ. unfold left_over in HQ. pose proof (Hm (p + 2 * (len / 2))) as Hb. unfold is_byte in Hb.
  assert (E : Z.shiftl t 8 = 256 * t) by (rewrite Z.shiftl_mul_pow2 by lia; lia).
  destruct (0 <? len mod 2); wp_steps.
  - rewrite E. change 0xff00 with (0xff * 2 ^ 8). rewrite land_byte by lia.
    replace (256 * t / 2 ^ 8) with t by dlia. rewrite (Z.mod_small t) by lia.
    rewrite (lor_add _ _ 8) by (change (2 ^ 8) with 256; dlia). by replace (t * 2 ^ 8) with (256 * t) by lia.
  - rewrite E. by rewrite Z.add_0_r in HQ.
Qed.

(** ** [lwip_standard_chksum] *)

Lemma chksum_run a len m : (∀ x, is_byte (m x)) → 0 ≤ len ≤ 131072 →
  wp (lwip_standard_chksum a len) (λ r m', m' = m ∧ r = csum (mem_bytes m a (Z.to_nat len))) m.
Proof.
  intros Hm Hlen. unfold lwip_standard_chksum. destruct (Z.odd a) eqn:Ho; cbn [andb];
    [destruct (Z.ltb_spec 0 len) as [Hp|Hz]|]; wp_steps.
  - eapply wp_mono; [apply sum_words_spec; [done|lia]|]. intros [[ps' len'] sum] m' (-> & -> & -> & ->).
    apply wp_bind. pose proof (Hm a) as Hb. apply left_over_run; [done|done|]. wp_steps. split; [done|].
    rewrite fold_total by (done || lia). rewrite swap_canon by (pose proof (le_dec_nonneg _ (mem_bytes_bytes m (a + 1) (Z.to_nat (len - 1)) Hm)); unfold is_byte in Hb; lia).
    pose proof (le_dec_nonneg _ (mem_bytes_bytes m (a + 1) (Z.to_nat (len - 1)) Hm)) as Hd. unfold is_byte in Hb.
    unfold u16. rewrite Z.mod_small by (pose proof (canon_range (256 * (256 * m a + le_dec (mem_bytes m (a + 1) (Z.to_nat (len - 1))))) ltac:(lia)); lia).
    unfold csum. replace (Z.to_nat len) with (S (Z.to_nat (len - 1))) by lia. rewrite mem_bytes_S. cbn [le_dec].
    apply (canon_cong _ _ (m a)); lia.
  - assert (len = 0) as -> by lia. eapply wp_mono; [apply sum_words_spec; [done|lia]|].
    intros [[ps' len'] sum] m' (-> & -> & -> & ->). by wp_steps.
  - eapply wp_mono; [apply sum_words_spec; [done|lia]|]. intros [[ps' len'] sum] m' (-> & -> & -> & ->).
    apply wp_bind. change 0 with (Z.shiftl 0 8) at 2 3. apply left_over_run; [done|done|]. wp_steps. split; [done|].
    rewrite fold_total by (done || lia). cbn [Z.mul]. rewrite Z.add_0_l. unfold u16.
    pose proof (csum_range _ (mem_bytes_bytes m a (Z.to_nat len) Hm)). rewrite Z.mod_small by (unfold csum in *; lia). done.
Qed.

Lemma inet_chksum_run a len m : (∀ x, is_byte (m x)) → 0 ≤ len ≤ 131072 →
  wp (inet_chksum a len) (λ r m', m' = m ∧ r = 65535 - csum (mem_bytes m a (Z.to_nat len))) m.
Proof.
  intros Hm Hlen. apply wp_bind. eapply wp_mono; [by apply chksum_run|]. intros r m' [-> ->]. wp_steps.
  split; [done|]. pose proof (csum_range _ (mem_bytes_bytes m a (Z.to_nat len) Hm)).
  unfold Z.lnot, u16. dlia.
Qed.

(** A packet around one of its words. *)
Definition others (m : memory) (a off len : Z) : Z :=
  le_dec (mem_bytes m a (Z.to_nat off)) + le_dec (mem_bytes m (a + off + 2) (Z.to_nat (len - off - 2))).

Lemma others_nonneg m a off len : (∀ x, is_byte (m x)) → 0 ≤ others m a off len.
Proof.
  intros Hm. pose proof (le_dec_nonneg _ (mem_bytes_bytes m a (Z.to_nat off) Hm)).
  pose proof (le_dec_nonneg _ (mem_bytes_bytes m (a + off + 2) (Z.to_nat (len - off - 2)) Hm)). unfold others. lia.
Qed.
Lemma csum_word m a off len : (∀ x, is_byte (m x)) → 0 ≤ off → off mod 2 = 0 → off + 2 ≤ len →
  csum (mem_bytes m a (Z.to_nat len)) = canon (others m a off len + mld16 m (a + off)).
Proof.
  intros Hm Ho He Hl. unfold csum.
  replace (Z.to_nat len) with (Z.to_nat off + (2 + Z.to_nat (len - off - 2)))%nat by lia.
  rewrite mem_bytes_app, Z2Nat.id, mem_bytes_app by lia. change (Z.of_nat 2) with 2.
  assert (HA := mem_bytes_bytes m a (Z.to_nat off) Hm).
  assert (HW := mem_bytes_bytes m (a + off) 2 Hm).
  assert (HB := mem_bytes_bytes m (a + off + 2) (Z.to_nat (len - off - 2)) Hm).
  rewrite le_dec_app_even; [|done|by apply Forall_app|exists (Z.to_nat (off / 2)); rewrite length_mem_bytes; dlia].
  rewrite Z.add_comm, <-canon_add; [|by apply le_dec_nonneg, Forall_app|by apply le_dec_nonneg].
  rewrite (le_dec_app_even (mem_bytes m (a + off) 2)); [|done|done|by exists 1%nat].
  fold (mld16 m (a + off)). pose proof (mld16_range m (a + off) Hm). pose proof (le_dec_nonneg _ HA). pose proof (le_dec_nonneg _ HB).
  rewrite canon_add by lia. f_equal. unfold others. lia.
Qed.

(** Writing the word leaves the others alone. *)
Lemma others_store m a off len v : 0 ≤ off → off + 2 ≤ len →
  others (mem_store m (a + off) (le_enc 2 v)) a off len = others m a off len.
Proof.
  intros Ho Hl. unfold others. f_equal; f_equal; apply mem_bytes_ext; intros x Hx; apply mem_store_out; rewrite length_le_enc; lia.
Qed.
Lemma mld16_store m a v : mld16 (mem_store m a (le_enc 2 v)) a = u16 v.
Proof.
  unfold mld16. replace 2%nat with (length (le_enc 2 v)) at 2 by apply length_le_enc.
  rewrite mem_bytes_store, le_dec_enc. done.
Qed.
Lemma store_bytes m a n v : (∀ x, is_byte (m x)) → ∀ x, is_byte (mem_store m a (le_enc n v) x).
Proof. intros Hm. apply mem_store_bytes; [done|apply le_enc_bytes]. Qed.
#[export] Hint Resolve store_bytes mem_bytes_bytes others_nonneg : csem.

(** Filling in the checksum makes the sum of the packet 65535. *)
Lemma chksum_filled m a off len : (∀ x, is_byte (m x)) → 0 ≤ off → off mod 2 = 0 → off + 2 ≤ len →
  mld16 m (a + off) = 0 →
  csum (mem_bytes (mem_store m (a + off) (le_enc 2 (65535 - csum (mem_bytes m a (Z.to_nat len))))) a (Z.to_nat len)) = 65535.
Proof.
  intros Hm Ho He Hl H0.
  set (m1 := mem_store m (a + off) (le_enc 2 (65535 - csum (mem_bytes m a (Z.to_nat len))))).
  rewrite (csum_word m1 a off) by (eauto with csem). subst m1.
  rewrite others_store, mld16_store, (csum_word m a off), H0, Z.add_0_r by done.
  pose proof (others_nonneg m a off len Hm). destruct (canon_elim (others m a off len)) as (k & Hk & E & Hr & Hz); [done|].
  unfold u16. rewrite Z.mod_small by lia. apply (canon_intro _ _ k); lia.
Qed.

(** ** Theorems *)

(** [lwip_standard_chksum] returns, for any start address (odd ones
    included) and up to 128 KiB, the checksum of RFC 1071: turned to network
    order it is the one's complement sum of the packet's words, and it reads the
    memory without changing it. *)
Theorem chksum_rfc1071 m a len :
  (∀ x, is_byte (m x)) → 0 ≤ len ≤ 131072 →
  wp (lwip_standard_chksum a len) (λ r m',
    m' = m ∧ 0 ≤ r ≤ 65535 ∧ lwip_htons r = rfc1071_sum (mem_bytes m a (Z.to_nat len))) m.
Proof.
  intros Hm Hlen. eapply wp_mono; [by apply chksum_run|]. intros r m' [-> ->].
  split; [done|]. split; [apply csum_range|apply csum_rfc]; auto with csem.
Qed.

(** Storing [inet_chksum] of a packet in its zeroed checksum field makes
    [inet_chksum] of the packet 0, which is what receivers test; and replacing
    any word of that packet by one that differs modulo 65535 makes it nonzero. *)
Theorem chksum_verifies m a off len off' w :
  (∀ x, is_byte (m x)) → 0 ≤ off → off mod 2 = 0 → off + 2 ≤ len ≤ 131072 → mld16 m (a + off) = 0 →
  0 ≤ off' → off' mod 2 = 0 → off' + 2 ≤ len → 0 ≤ w < 65536 →
  wp (c ← inet_chksum a len;
      modify (λ m, mem_store m (a + off) (le_enc 2 c));;
      v ← inet_chksum a len;
      old ← gets (λ m, mld16 m (a + off'));
      modify (λ m, mem_store m (a + off') (le_enc 2 w));;
      v' ← inet_chksum a len;
      mret (v, old, v'))
    (λ '(v, old, v') _, v = 0 ∧ ((old - w) mod 65535 ≠ 0 → v' ≠ 0)) m.
Proof.
  intros Hm Ho He Hl H0 Ho' He' Hl' Hw. apply wp_bind. eapply wp_mono; [apply inet_chksum_run; [done|lia]|].
  intros c ? [-> ->]. wp_steps. set (m1 := mem_store m _ _).
  assert (Hm1 : ∀ x, is_byte (m1 x)) by (apply store_bytes, Hm).
  assert (Hf : csum (mem_bytes m1 a (Z.to_nat len)) = 65535) by (by apply chksum_filled; try lia).
  eapply wp_mono; [apply inet_chksum_run; [done|lia]|]. intros v ? [-> ->]. wp_steps.
  eapply wp_mono; [apply inet_chksum_run; [by apply store_bytes|lia]|]. intros v' ? [-> ->]. wp_steps.
  split; [lia|]. intros Hne Hv. apply Hne. rewrite (csum_word m1 a off') in Hf by (done || lia).
  rewrite (csum_word _ a off') in Hv by (lia || eauto with csem). rewrite others_store, mld16_store in Hv by lia.
  pose proof (others_nonneg m1 a off' len Hm1). pose proof (mld16_range m1 (a + off') Hm1).
  unfold u16 in Hv. rewrite Z.mod_small in Hv by lia.
  destruct (canon_elim (others m1 a off' len + mld16 m1 (a + off'))) as (k & _ & E & _); [lia|].
  destruct (canon_elim (others m1 a off' len + w)) as (k' & _ & E' & _); [lia|].
  replace (mld16 m1 (a + off') - w) with ((k - k') * 65535) by lia. apply Z_mod_mult.
Qed.

(** An IP header with a zeroed checksum, at an odd address. *)
Definition sample_header : list Z :=
  [0x45; 0; 0; 0x73; 0; 0; 0x40; 0; 0x40; 0x11; 0; 0; 0xc0; 0xa8; 0; 1; 0xc0; 0xa8; 0; 0xc7].
Definition sample_memory : memory := mem_store (λ _, 0) 1001 sample_header.

Lemma sample_bytes : ∀ x, is_byte (sample_memory x).
Proof. apply mem_store_bytes; [done|]. repeat constructor; unfold is_byte; lia. Qed.

Example sample_chksum : inet_chksum 1001 20 sample_memory = Ret (lwip_htons 0xb861, sample_memory).
Proof. vm_compute. reflexivity. Qed.

Lemma chksum_rfc1071_witness :
  wp (lwip_standard_chksum 1001 20) (λ r m',
    m' = sample_memory ∧ 0 ≤ r ≤ 65535 ∧ lwip_htons r = rfc1071_sum (mem_bytes sample_memory 1001 20)) sample_memory.
Proof. apply (chksum_rfc1071 sample_memory 1001 20); [exact sample_bytes | lia]. Defined.

Lemma chksum_verifies_witness :
  wp (c ← inet_chksum 1001 20;
      modify (λ m, mem_store m (1001 + 10) (le_enc 2 c));;
      v ← inet_chksum 1001 20;
      old ← gets (λ m, mld16 m (1001 + 2));
      modify (λ m, mem_store m (1001 + 2) (le_enc 2 0x7400));;
      v' ← inet_chksum 1001 20;
      mret (v, old, v'))
    (λ '(v, old, v') _, v = 0 ∧ ((old - 0x7400) mod 65535 ≠ 0 → v' ≠ 0)) sample_memory.
Proof. apply (chksum_verifies sample_memory 1001 10 20 2 0x7400); try exact sample_bytes; try lia; reflexivity. Defined.
