(* ===== verification/LwipMem.v ===== *)
(** * LwipMem: the heap of lwIP (core/mem.c)

    The heap is a stretch of [MEM_SIZE] bytes at [ram], cut into blocks that
    start with a [struct mem]: the offsets of the next and the previous block
    and a used flag.  A pointer to a [struct mem] is modelled by its offset from
    [ram]; the structure's fields are the cells [lh_mem] at that offset ([next]),
    4 further ([prev]) and 8 further ([used]).  Sizes of structures make an expression 64
    bits wide, as in C.  The specification is a list of blocks that tile the
    heap. *)

From Stdlib Require Import ZArith Lia.
From stdpp Require Import base numbers list option functions gmap sets fin_sets.
From S2P Require Import Prelude LwipBase.
Open Scope Z_scope.

Definition SIZEOF_STRUCT_MEM : Z := 12.
Definition MIN_SIZE_ALIGNED : Z := 12.
Definition MEM_SIZE_ALIGNED : Z := LWIP_MEM_ALIGN_SIZE MEM_SIZE.

Record lheap := MkLheap {
  lh_mem : Z → Z;
  ram : Z;
  lfree : Z;
  lh_stats : stats_mem
}.
(** [ram_end], as an offset. *)
Definition ram_end : Z := MEM_SIZE_ALIGNED.

Definition lcell (a : Z) : comp lheap Z := gets (λ s, lh_mem s a).
Definition set_lcell (a v : Z) : comp lheap unit :=
  modify (λ s, MkLheap (<[a := v]> (lh_mem s)) (ram s) (lfree s) (lh_stats s)).
Definition m_next (p : Z) : comp lheap Z := lcell p.
Definition m_prev (p : Z) : comp lheap Z := lcell (p + 4).
Definition m_used (p : Z) : comp lheap Z := lcell (p + 8).
Definition set_m_next (p v : Z) : comp lheap unit := set_lcell p v.
Definition set_m_prev (p v : Z) : comp lheap unit := set_lcell (p + 4) v.
Definition set_m_used (p v : Z) : comp lheap unit := set_lcell (p + 8) v.
Definition set_lfree (p : Z) : comp lheap unit :=
  modify (λ s, MkLheap (lh_mem s) (ram s) p (lh_stats s)).
Definition upd_lstats (f : stats_mem → stats_mem) : comp lheap unit :=
  modify (λ s, MkLheap (lh_mem s) (ram s) (lfree s) (f (lh_stats s))).

Definition plug_holes (mem : Z) : comp lheap unit :=
  LWIP_ASSERT (0 <=? mem);;
  LWIP_ASSERT (mem <? ram_end);;
  used ← m_used mem;
  LWIP_ASSERT (used =? 0);;
  nmem ← m_next mem;
  LWIP_ASSERT (nmem <=? MEM_SIZE_ALIGNED);;
  nused ← m_used nmem;
  (if negb (mem =? nmem) && (nused =? 0) && negb (nmem =? ram_end) then
     f ← gets lfree;
     (if f =? nmem then set_lfree mem else mret tt);;
     nn ← m_next nmem;
     set_m_next mem nn;;
     (if negb (nn =? MEM_SIZE_ALIGNED) then set_m_prev nn mem else mret tt)
   else mret tt);;
  pmem ← m_prev mem;
  pused ← m_used pmem;
  if negb (pmem =? mem) && (pused =? 0) then
    f ← gets lfree;
    (if f =? mem then set_lfree pmem else mret tt);;
    n ← m_next mem;
    set_m_next pmem n;;
    (if negb (n =? MEM_SIZE_ALIGNED) then set_m_prev n pmem else mret tt)
  else mret tt.

(** [ram_heap] is the address of the array. *)
Definition mem_init (ram_heap : Z) : comp lheap unit :=
  modify (λ s, MkLheap (lh_mem s) (LWIP_MEM_ALIGN ram_heap) (lfree s) (lh_stats s));;
  set_m_next 0 MEM_SIZE_ALIGNED;;
  set_m_prev 0 0;;
  set_m_used 0 0;;
  set_m_used ram_end 1;;
  set_m_next ram_end MEM_SIZE_ALIGNED;;
  set_m_prev ram_end MEM_SIZE_ALIGNED;;
  set_lfree 0;;
  upd_lstats (stats_set_avail MEM_SIZE_ALIGNED).

Definition mem_link_valid (mem : Z) : comp lheap bool :=
  next ← m_next mem;
  prev ← m_prev mem;
  pnext ← m_next prev;
  nprev ← m_prev next;
  mret (negb ((MEM_SIZE_ALIGNED <? next) || (MEM_SIZE_ALIGNED <? prev) ||
    (negb (prev =? mem) && negb (pnext =? mem)) || (negb (next =? ram_end) && negb (nprev =? mem)))).

Definition mem_free (rmem : Z) : comp lheap unit :=
  if rmem =? NULL then mret tt
  else
    LWIP_ASSERT (Z.land rmem (MEM_ALIGNMENT - 1) =? 0);;
    base ← gets ram;
    let mem := rmem - SIZEOF_STRUCT_MEM - base in
    LWIP_ASSERT (negb ((mem <? 0) || (base + ram_end <? rmem + MIN_SIZE_ALIGNED)));;
    used ← m_used mem;
    LWIP_ASSERT (negb (used =? 0));;
    valid ← mem_link_valid mem;
    LWIP_ASSERT valid;;
    set_m_used mem 0;;
    f ← gets lfree;
    (if mem <? f then set_lfree mem else mret tt);;
    next ← m_next mem;
    upd_lstats (stats_dec_used (u32 (next - mem)));;
    plug_holes mem.

(** The size to reserve for a request, and whether it can be met at all. *)
Definition request_size (size_in : Z) : Z :=
  let size := LWIP_MEM_ALIGN_SIZE size_in in
  if size <? MIN_SIZE_ALIGNED then MIN_SIZE_ALIGNED else size.
Definition impossible_size (size size_in : Z) : bool := (MEM_SIZE_ALIGNED <? size) || (size <? size_in).

(** The block after the shrunk one starts at [ptr2]. *)
Definition shrink_block (mem newsize size : Z) : comp lheap unit :=
  next ← m_next mem;
  let mem2 := next in
  used2 ← m_used mem2;
  if used2 =? 0 then
    LWIP_ASSERT (negb (next =? MEM_SIZE_ALIGNED));;
    next2 ← m_next mem2;
    let ptr2 := u32 (mem + SIZEOF_STRUCT_MEM + newsize) in
    f ← gets lfree;
    (if f =? mem2 then set_lfree ptr2 else mret tt);;
    set_m_used ptr2 0;;
    set_m_next ptr2 next2;;
    set_m_prev ptr2 mem;;
    set_m_next mem ptr2;;
    n2 ← m_next ptr2;
    (if negb (n2 =? MEM_SIZE_ALIGNED) then set_m_prev n2 ptr2 else mret tt);;
    upd_lstats (stats_dec_used (u32 (size - newsize)))
  else if newsize + SIZEOF_STRUCT_MEM + MIN_SIZE_ALIGNED <=? size then
    let ptr2 := u32 (mem + SIZEOF_STRUCT_MEM + newsize) in
    LWIP_ASSERT (negb (next =? MEM_SIZE_ALIGNED));;
    f ← gets lfree;
    (if ptr2 <? f then set_lfree ptr2 else mret tt);;
    set_m_used ptr2 0;;
    set_m_next ptr2 next;;
    set_m_prev ptr2 mem;;
    set_m_next mem ptr2;;
    n2 ← m_next ptr2;
    (if negb (n2 =? MEM_SIZE_ALIGNED) then set_m_prev n2 ptr2 else mret tt);;
    upd_lstats (stats_dec_used (u32 (size - newsize)))
  else mret tt.

Definition mem_trim (rmem new_size : Z) : comp lheap Z :=
  let newsize := request_size new_size in
  if impossible_size newsize new_size then mret NULL
  else
    base ← gets ram;
    LWIP_ASSERT ((base <=? rmem) && (rmem <? base + ram_end));;
    let mem := rmem - SIZEOF_STRUCT_MEM - base in
    next ← m_next mem;
    let size := u32 (u32 (next - mem) - SIZEOF_STRUCT_MEM) in
    LWIP_ASSERT (newsize <=? size);;
    if newsize =? size then mret rmem
    else
      shrink_block mem newsize size;;
      mret rmem.

(** Use the block at [mem], or its first part. *)
Definition use_block (mem size : Z) : comp lheap unit :=
  next ← m_next mem;
  if size + SIZEOF_STRUCT_MEM + MIN_SIZE_ALIGNED <=? u64 (next - (mem + SIZEOF_STRUCT_MEM)) then
    let ptr2 := u32 (mem + SIZEOF_STRUCT_MEM + size) in
    LWIP_ASSERT (negb (ptr2 =? MEM_SIZE_ALIGNED));;
    set_m_used ptr2 0;;
    set_m_next ptr2 next;;
    set_m_prev ptr2 mem;;
    set_m_next mem ptr2;;
    set_m_used mem 1;;
    n2 ← m_next ptr2;
    (if negb (n2 =? MEM_SIZE_ALIGNED) then set_m_prev n2 ptr2 else mret tt);;
    upd_lstats (stats_inc_used (u32 (size + SIZEOF_STRUCT_MEM)))
  else
    set_m_used mem 1;;
    upd_lstats (stats_inc_used (u32 (next - mem))).

(** The next free block, or the end. *)
Definition advance_lfree (mem : Z) : comp lheap unit :=
  f ← gets lfree;
  if mem =? f then
    cur ← loop (λ cur,
      used ← m_used cur;
      if negb (used =? 0) && negb (cur =? ram_end)
      then next ← m_next cur; mret (inl next)
      else mret (inr cur)) f;
    set_lfree cur;;
    used ← m_used cur;
    LWIP_ASSERT ((cur =? ram_end) || (used =? 0))
  else mret tt.

Definition mem_malloc (size_in : Z) : comp lheap Z :=
  if size_in =? 0 then mret NULL
  else
    let size := request_size size_in in
    if impossible_size size size_in then mret NULL
    else
      start ← gets lfree;
      loop (λ ptr,
        if ptr <? u32 (MEM_SIZE_ALIGNED - size) then
          used ← m_used ptr;
          next ← m_next ptr;
          if (used =? 0) && (size <=? u64 (next - (ptr + SIZEOF_STRUCT_MEM))) then
            use_block ptr size;;
            advance_lfree ptr;;
            base ← gets ram;
            LWIP_ASSERT (base + ptr + SIZEOF_STRUCT_MEM + size <=? base + ram_end);;
            LWIP_ASSERT ((base + ptr + SIZEOF_STRUCT_MEM) mod MEM_ALIGNMENT =? 0);;
            LWIP_ASSERT (Z.land (base + ptr) (MEM_ALIGNMENT - 1) =? 0);;
            mret (inr (base + ptr + SIZEOF_STRUCT_MEM))
          else mret (inl next)
        else
          upd_lstats stats_inc_err;;
          mret (inr NULL)) start.

(** [memset] acts on the memory around. *)
Definition mem_calloc (count size : Z) : comp (lheap * memory) Z :=
  let alloc_size := u64 (count * size) in
  if negb (u32 alloc_size =? alloc_size) then mret NULL
  else
    p ← zoom fst (λ h s, (h, s.2)) (mem_malloc (u32 alloc_size));
    (if negb (p =? NULL)
     then modify (λ s, (s.1, mem_store s.2 p (replicate (Z.to_nat alloc_size) 0)))
     else mret tt);;
    mret p.

(** ** The specification: blocks that tile the heap *)

Record blk := Blk { b_off : Z; b_size : Z; b_free : bool }.
#[global] Instance blk_eq_dec : EqDecision blk.
Proof. solve_decision. Defined.
Definition b_end (b : blk) : Z := b_off b + 12 + b_size b.

(** [l] covers [a, e) without gaps. *)
Fixpoint tiles (a : Z) (l : list blk) (e : Z) : Prop :=
  match l with
  | [] => a = e
  | b :: t => b_off b = a ∧ 12 ≤ b_size b ∧ b_size b mod 4 = 0 ∧ tiles (b_end b) t e
  end.
(** The structures of [l]; the block before them is at [p]. *)
Fixpoint hdrs (m : Z → Z) (p : Z) (l : list blk) : Prop :=
  match l with
  | [] => True
  | b :: t =>
      m (b_off b) = b_end b ∧ m (b_off b + 4) = p ∧ m (b_off b + 8) = (if b_free b then 0 else 1) ∧
      hdrs m (b_off b) t
  end.
Definition last_off (p : Z) (l : list blk) : Z := match last l with Some b => b_off b | None => p end.

(** No two neighbours are both free. *)
Definition head_free (l : list blk) : Prop := match l with b :: _ => b_free b = true | [] => False end.
Fixpoint no_adj (l : list blk) : Prop :=
  match l with
  | [] => True
  | b :: t => ¬ (b_free b = true ∧ head_free t) ∧ no_adj t
  end.
(** Where the lowest free block is. *)
Fixpoint first_free (l : list blk) : Z :=
  match l with
  | [] => ram_end
  | b :: t => if b_free b then b_off b else first_free t
  end.
Definition b_used (b : blk) : Z := if b_free b then 0 else 12 + b_size b.
Fixpoint used_bytes (l : list blk) : Z := match l with [] => 0 | b :: t => b_used b + used_bytes t end.

(** The blocks and the end mark are in memory. *)
Record heap_shape (s : lheap) (l : list blk) : Prop := HeapShape {
  hs_tiles : tiles 0 l ram_end;
  hs_hdrs : hdrs (lh_mem s) 0 l;
  hs_end : lh_mem s ram_end = ram_end ∧ lh_mem s (ram_end + 8) = 1;
  hs_ram : 0 < ram s ∧ ram s + ram_end + 12 < 2 ^ 63 ∧ ram s mod 4 = 0
}.
(** The heap between two calls. *)
Record heap_rep (s : lheap) (l : list blk) : Prop := HeapRep {
  hr_shape : heap_shape s l;
  hr_adj : no_adj l;
  hr_lfree : lfree s = first_free l;
  hr_used : st_used (lh_stats s) = used_bytes l
}.

Lemma ram_end_eq : ram_end = 128000.
Proof. reflexivity. Qed.

(** ** Tilings *)

Lemma heap_tiles_app a l1 l2 e : tiles a (l1 ++ l2) e ↔ ∃ x, tiles a l1 x ∧ tiles x l2 e.
Proof.
  revert a. induction l1 as [|b l1 IH]; intros a; simpl.
  - split; [by exists a | by intros (x & -> & ?)].
  - rewrite IH. naive_solver.
Qed.
Lemma heap_tiles_le a l e : tiles a l e → a + 24 * Z.of_nat (length l) ≤ e ∧ (e - a) mod 4 = 0.
Proof.
  revert a. induction l as [|b l IH]; intros a; simpl; [intros ->; rewrite Z.sub_diag; split; [lia|done]|].
  intros (<- & Hs & Hm & Ht). destruct (IH _ Ht) as [H1 H2]. unfold b_end in *. split; [lia|].
  replace (e - b_off b) with (e - (b_off b + 12 + b_size b) + (12 + b_size b)) by lia. dlia.
Qed.
Lemma heap_tiles_fun a l e e' : tiles a l e → tiles a l e' → e = e'.
Proof. revert a. induction l as [|b l IH]; intros a; simpl; [congruence|]. intros (_ & _ & _ & H) (_ & _ & _ & H'). eauto. Qed.

(** Headers depend on the cells of their range only. *)
Lemma hdrs_frame m m' p l a e : tiles a l e → (∀ z, a ≤ z < e → m' z = m z) → hdrs m p l → hdrs m' p l.
Proof.
  revert a p. induction l as [|b l IH]; intros a p; simpl; [done|].
  intros (<- & Hs & _ & Ht) Hm (H1 & H2 & H3 & Hl). pose proof (heap_tiles_le _ _ _ Ht). unfold b_end in *.
  rewrite !Hm by lia. split; [done|]. split; [done|]. split; [done|].
  eapply IH; [done| |done]. intros z Hz. apply Hm. lia.
Qed.
Lemma hdrs_app m p l1 l2 : hdrs m p (l1 ++ l2) ↔ hdrs m p l1 ∧ hdrs m (last_off p l1) l2.
Proof.
  revert p. induction l1 as [|b l1 IH]; intros p; simpl; [unfold last_off; simpl; tauto|].
  rewrite IH. unfold last_off. rewrite last_cons. destruct (last l1); tauto.
Qed.
Lemma last_off_snoc p l b : last_off p (l ++ [b]) = b_off b.
Proof. unfold last_off. by rewrite last_snoc. Qed.
Lemma last_off_bound a l e p : tiles a l e → 0 ≤ a → 0 ≤ p ≤ a → 0 ≤ last_off p l ≤ e.
Proof.
  intros Ht Ha Hp. destruct l as [|b l _] using rev_ind; [simpl in Ht; unfold last_off; simpl; lia|].
  rewrite last_off_snoc. apply heap_tiles_app in Ht as (x & H1 & <- & Hs & _ & H2). apply heap_tiles_le in H1.
  simpl in H2. unfold b_end in *. lia.
Qed.

(** After a block there is the end, or room for another. *)
Lemma tiles_gap a l e : tiles a l e → a = e ∨ a + 24 ≤ e.
Proof. intros H. pose proof (heap_tiles_le _ _ _ H). destruct l; simpl in *; [by left|right; lia]. Qed.

(** One block of a heap. *)
Lemma focus s pre b post : heap_shape s (pre ++ b :: post) →
  tiles 0 pre (b_off b) ∧ tiles (b_end b) post ram_end ∧ hdrs (lh_mem s) 0 pre ∧ hdrs (lh_mem s) (b_off b) post ∧
  lh_mem s (b_off b) = b_end b ∧ lh_mem s (b_off b + 4) = last_off 0 pre ∧
  lh_mem s (b_off b + 8) = (if b_free b then 0 else 1) ∧
  0 ≤ b_off b ∧ 12 ≤ b_size b ∧ b_size b mod 4 = 0 ∧ b_off b mod 4 = 0 ∧ b_end b ≤ ram_end.
Proof.
  intros [Ht Hh _ _]. apply heap_tiles_app in Ht as (x & Ht1 & Hx & Hs & Hm & Ht2). subst x.
  apply hdrs_app in Hh as (Hh1 & H1 & H2 & H3 & Hh2). pose proof (heap_tiles_le _ _ _ Ht1) as [? Hm1]. pose proof (heap_tiles_le _ _ _ Ht2).
  rewrite Z.sub_0_r in Hm1. repeat split; try done; lia.
Qed.

(** Putting a heap together again around new blocks. *)
Lemma unfocus s s' pre mid post y :
  (∃ l, heap_shape s l) → tiles 0 pre y → tiles y (mid ++ post) ram_end → hdrs (lh_mem s') 0 pre →
  hdrs (lh_mem s') (last_off 0 pre) mid → hdrs (lh_mem s') (last_off (last_off 0 pre) mid) post →
  lh_mem s' ram_end = lh_mem s ram_end → lh_mem s' (ram_end + 8) = lh_mem s (ram_end + 8) → ram s' = ram s →
  heap_shape s' (pre ++ mid ++ post).
Proof.
  intros [l [_ _ [He1 He2] Hr]] H1 H2 H3 H4 H5 E1 E2 Er. split.
  - apply heap_tiles_app. eauto.
  - rewrite !hdrs_app. done.
  - by rewrite E1, E2.
  - by rewrite Er.
Qed.

(** The following blocks when the block before them changes. *)
Lemma hdrs_relink m m' p p' l a e : tiles a l e → hdrs m p l → (∀ z, a ≤ z < e → z ≠ a + 4 → m' z = m z) →
  (a ≠ e → m' (a + 4) = p') → hdrs m' p' l.
Proof.
  destruct l as [|b l]; [done|]. intros Ht. pose proof (heap_tiles_le _ _ _ Ht) as [Hle _]. simpl in Hle.
  destruct Ht as (<- & Hs & Hm & Ht). intros (H1 & H2 & H3 & Hl) Heq Hp. pose proof (heap_tiles_le _ _ _ Ht). unfold b_end in *.
  split; [rewrite Heq by lia; done|]. split; [apply Hp; lia|]. split; [rewrite Heq by lia; done|].
  eapply hdrs_frame; [exact Ht| |exact Hl]. intros z Hz. apply Heq; lia.
Qed.

(** [next] is a block, not the end: then its link back is set. *)
Lemma link_back_run n v s (Q : unit → lheap → Prop) :
  (∀ m', (∀ z, z ≠ n + 4 → m' z = lh_mem s z) → (n ≠ ram_end → m' (n + 4) = v) → (n = ram_end → m' = lh_mem s) →
     Q tt (MkLheap m' (ram s) (lfree s) (lh_stats s))) →
  wp (if negb (n =? MEM_SIZE_ALIGNED) then set_m_prev n v else mret tt) Q s.
Proof.
  intros HQ. unfold ram_end in *. destruct (Z.eqb_spec n MEM_SIZE_ALIGNED) as [E|E]; cbn [negb].
  - apply wp_ret. destruct s as [m r f st]. apply HQ; [done|done|done].
  - unfold set_m_prev, set_lcell. apply wp_modify. apply HQ; [|intros _; by rewrite fn_lookup_insert|done].
    intros z Hz. by rewrite fn_lookup_insert_ne.
Qed.

Ltac cells := repeat (rewrite fn_lookup_insert || rewrite fn_lookup_insert_ne by lia).
Ltac heap_steps := unfold m_next, m_prev, m_used, set_m_next, set_m_prev, set_m_used, set_lcell, lcell, set_lfree, upd_lstats; wp_steps;
  cbn [lh_mem ram lfree lh_stats].

(** Taking a block, or the first part of it. *)
Definition place (size : Z) (b : blk) : list blk :=
  if size + 24 <=? b_size b
  then [Blk (b_off b) size false; Blk (b_off b + 12 + size) (b_size b - size - 12) true]
  else [Blk (b_off b) (b_size b) false].
Definition request_ok (size : Z) : Prop := 12 ≤ size ≤ ram_end ∧ size mod 4 = 0.

(** Cells that no operation on [b] may change. *)
Definition untouched (b : blk) (s s' : lheap) : Prop :=
  ∀ z, z < b_off b ∨ b_end b ≤ z → z ≠ b_end b + 4 → lh_mem s' z = lh_mem s z.

Lemma place_tiles size b post e : request_ok size → 12 ≤ b_size b → b_size b mod 4 = 0 → tiles (b_end b) post e →
  tiles (b_off b) (place size b ++ post) e.
Proof.
  intros [Hr Hm] Hs Hm' Ht. unfold place. destruct (Z.leb_spec (size + 24) (b_size b)); simpl.
  - split; [done|]. split; [lia|]. split; [done|]. unfold b_end at 1. cbn [b_off b_size]. split; [done|]. split; [lia|].
    split; [dlia|]. unfold b_end in *. cbn [b_off b_size]. by replace (b_off b + 12 + size + 12 + (b_size b - size - 12)) with (b_off b + 12 + b_size b) by lia.
  - split; [done|]. split; [lia|]. split; [done|]. exact Ht.
Qed.

Lemma use_block_run s pre b post size :
  heap_shape s (pre ++ b :: post) → request_ok size → size ≤ b_size b →
  wp (use_block (b_off b) size) (λ _ s', heap_shape s' (pre ++ place size b ++ post) ∧ lfree s' = lfree s ∧ ram s' = ram s ∧
    st_used (lh_stats s') = u32 (st_used (lh_stats s) + used_bytes (place size b)) ∧ untouched b s s') s.
Proof.
  intros Hsh Hreq Hfit. destruct (focus _ _ _ _ Hsh) as (Ht1 & Ht2 & Hh1 & Hh2 & En & Ep & Eu & Ho & Hs & Hm & Hmo & He).
  pose proof Hreq as [Hr Hrm]. rewrite ram_end_eq in *. pose proof (place_tiles size b post 128000 Hreq Hs Hm Ht2) as Htp.
  assert (Hpre : ∀ m', (∀ z, z < b_off b → m' z = lh_mem s z) → hdrs m' 0 pre).
  { intros m' Hm'. eapply hdrs_frame; [exact Ht1| |exact Hh1]. intros z Hz. apply Hm'. lia. }
  pose proof (tiles_gap _ _ _ Ht2) as Hgap. unfold use_block. heap_steps. rewrite En. unfold SIZEOF_STRUCT_MEM, MIN_SIZE_ALIGNED.
  assert (Esz : u64 (b_end b - (b_off b + 12)) = b_size b).
  { unfold b_end. replace (b_off b + 12 + b_size b - (b_off b + 12)) with (b_size b) by lia. apply u64_small. unfold b_end in He. lia. }
  rewrite Esz. unfold place in *. destruct (Z.leb_spec (size + 12 + 12) (b_size b)) as [Hsplit|Hnsplit].
  - destruct (Z.leb_spec (size + 24) (b_size b)); [|lia].
    assert (Eptr : u32 (b_off b + 12 + size) = b_off b + 12 + size) by (apply u32_small; unfold b_end in He; lia). rewrite Eptr.
    apply wp_bind, wp_assert.
    { apply negb_true_iff, Z.eqb_neq. change MEM_SIZE_ALIGNED with 128000. unfold b_end in He. lia. }
    heap_steps. rewrite !(fn_lookup_insert_ne _ (b_off b + 8)), !(fn_lookup_insert_ne _ (b_off b)), (fn_lookup_insert_ne _ (b_off b + 12 + size + 4)), fn_lookup_insert by lia.
    apply link_back_run. cbn [lh_mem ram lfree lh_stats]. intros m' Hm' Hback Hend. heap_steps.
    assert (Hcell : ∀ z, z ≠ b_end b + 4 → m' z = <[b_off b + 8:=1]> (<[b_off b:=b_off b + 12 + size]> (<[b_off b + 12 + size + 4:=b_off b]>
      (<[b_off b + 12 + size:=b_end b]> (<[b_off b + 12 + size + 8:=0]> (lh_mem s))))) z) by exact Hm'.
    split; [|split; [done|split; [done|split]]].
    + eapply (unfocus s _ pre _ post (b_off b)); cbn [lh_mem ram]; try done; [by exists (pre ++ b :: post)| | | | |].
      * apply Hpre. intros z Hz. rewrite Hcell by (unfold b_end; lia). by cells.
      * cbn [hdrs b_off b_size b_free]. unfold b_end in *. cbn [b_off b_size b_free].
        rewrite !Hcell by lia. cells. rewrite Ep. repeat split; try lia.
      * unfold last_off. cbn [last b_off]. eapply hdrs_relink; [exact Ht2|exact Hh2| |].
        -- intros z Hz Hz4. rewrite Hcell by lia. unfold b_end in *. by cells.
        -- intros Hne. apply Hback. by rewrite ram_end_eq.
      * rewrite ram_end_eq, Hcell by lia. unfold b_end in *. by cells.
      * rewrite ram_end_eq, Hcell by lia. unfold b_end in *. by cells.
    + cbn [st_used stats_inc_used used_bytes b_used b_free b_size]. f_equal. unfold b_used. cbn [b_free b_size].
      unfold u32. rewrite Z.mod_small by lia. lia.
    + intros z Hz Hz4. cbn [lh_mem]. rewrite Hcell by done. unfold b_end in *. by cells.
  - destruct (Z.leb_spec (size + 24) (b_size b)); [lia|]. heap_steps. split; [|split; [done|split; [done|split]]].
    + eapply (unfocus s _ pre _ post (b_off b)); cbn [lh_mem ram]; try done; [by exists (pre ++ b :: post)| | | | |].
      * apply Hpre. intros z Hz. by cells.
      * cbn [hdrs b_off b_size b_free]. unfold b_end in *. cbn [b_off b_size]. cells. rewrite En, Ep. done.
      * unfold last_off. cbn [last b_off]. eapply hdrs_frame; [exact Ht2| |exact Hh2].
        intros z Hz. unfold b_end in *. by cells.
      * rewrite ram_end_eq. unfold b_end in *. by cells.
      * rewrite ram_end_eq. unfold b_end in *. by cells.
    + cbn [st_used stats_inc_used used_bytes b_used b_free b_size]. f_equal. unfold b_used. cbn [b_free b_size]. unfold b_end in *.
      rewrite u32_small by lia. lia.
    + intros z Hz Hz4. cbn [lh_mem]. unfold b_end in *. by cells.
Qed.

(** ** Allocation *)

Definition fits (size : Z) (b : blk) : bool := b_free b && (size <=? b_size b).
(** The first block that fits is taken: its offset, and the blocks after. *)
Fixpoint first_fit (size : Z) (l : list blk) : option (Z * list blk) :=
  match l with
  | [] => None
  | b :: t => if fits size b then Some (b_off b, place size b ++ t)
              else prod_map id (cons b) <$> first_fit size t
  end.
(** What [mem_malloc] answers, and the blocks it leaves. *)
Definition malloc_spec (base size_in : Z) (l : list blk) : Z * list blk :=
  let size := request_size size_in in
  if (size_in =? 0) || impossible_size size size_in then (NULL, l)
  else match first_fit size l with
       | Some (o, l') => (base + o + SIZEOF_STRUCT_MEM, l')
       | None => (NULL, l)
       end.
(** The contents of the blocks in use stay. *)
Definition contents_kept (l : list blk) (s s' : lheap) : Prop :=
  ∀ b z, b ∈ l → b_free b = false → b_off b + 12 ≤ z < b_end b → lh_mem s' z = lh_mem s z.

Lemma first_fit_none size l : (∀ b, b ∈ l → fits size b = false) → first_fit size l = None.
Proof.
  induction l as [|b l IH]; intros Hl; simpl; [done|]. rewrite Hl by apply list_elem_of_here.
  rewrite IH; [done|]. intros b' Hb'. by apply Hl, list_elem_of_further.
Qed.
Lemma first_fit_some size pre b post : (∀ x, x ∈ pre → fits size x = false) → fits size b = true →
  first_fit size (pre ++ b :: post) = Some (b_off b, pre ++ place size b ++ post).
Proof.
  intros Hpre Hb. induction pre as [|x pre IH]; simpl; [by rewrite Hb|].
  rewrite Hpre by apply list_elem_of_here. rewrite IH; [done|]. intros y Hy. by apply Hpre, list_elem_of_further.
Qed.

Lemma used_bytes_app l1 l2 : used_bytes (l1 ++ l2) = used_bytes l1 + used_bytes l2.
Proof. induction l1 as [|b l1 IH]; simpl; [done|]. rewrite IH. lia. Qed.
Lemma used_bytes_bound a l e : tiles a l e → 0 ≤ used_bytes l ≤ e - a.
Proof.
  revert a. induction l as [|b l IH]; intros a; simpl; [intros ->; lia|]. intros (<- & Hs & _ & Ht).
  specialize (IH _ Ht). unfold b_used, b_end in *. destruct (b_free b); lia.
Qed.
Lemma first_free_range a l : tiles a l ram_end → a ≤ first_free l ≤ ram_end.
Proof.
  revert a. induction l as [|b l IH]; intros a; simpl; [lia|]. intros (<- & Hs & _ & Ht).
  pose proof (heap_tiles_le _ _ _ Ht). specialize (IH _ Ht). unfold b_end in *. destruct (b_free b); lia.
Qed.
Lemma first_free_app l1 l2 : first_free (l1 ++ l2) = if existsb b_free l1 then first_free l1 else first_free l2.
Proof. induction l1 as [|b l1 IH]; simpl; [done|]. destruct (b_free b); simpl; done. Qed.
Lemma first_free_in a l e : tiles a l e → existsb b_free l = true → a ≤ first_free l < e.
Proof.
  revert a. induction l as [|b l IH]; intros a; simpl; [done|]. intros (<- & Hs & _ & Ht).
  pose proof (heap_tiles_le _ _ _ Ht). unfold b_end in *. destruct (b_free b); simpl; intros Hf; [lia|].
  specialize (IH _ Ht Hf). lia.
Qed.

Definition tail_free (l : list blk) : Prop := match last l with Some b => b_free b = true | None => False end.
Lemma heap_no_adj_app l1 l2 : no_adj (l1 ++ l2) ↔ no_adj l1 ∧ no_adj l2 ∧ ¬ (tail_free l1 ∧ head_free l2).
Proof.
  induction l1 as [|b l1 IH]; [unfold tail_free; simpl; tauto|]. cbn [app no_adj]. rewrite IH.
  unfold tail_free. rewrite last_cons. destruct l1 as [|c l1]; [simpl; tauto|].
  destruct (last (c :: l1)) as [y|] eqn:E; [|by apply last_None in E]. cbn [app head_free]. tauto.
Qed.

Definition head_off (l : list blk) : Z := match l with b :: _ => b_off b | [] => ram_end end.
Lemma tiles_head a l : tiles a l ram_end → head_off l = a.
Proof. destruct l; simpl; [done|]. by intros (? & _). Qed.

(** The walk to the next free block. *)
Lemma walk_run s pre l : heap_shape s (pre ++ l) →
  wp (loop (λ cur,
      used ← m_used cur;
      if negb (used =? 0) && negb (cur =? ram_end)
      then next ← m_next cur; mret (inl next)
      else mret (inr cur)) (head_off l)) (λ c s', c = first_free l ∧ s' = s) s.
Proof.
  intros Hsh.
  apply (wp_loop_ghost (λ r cur t, t = s ∧ cur = head_off r ∧ first_free r = first_free l ∧ ∃ pre, heap_shape s (pre ++ r))
    length _ _ l).
  - split; [done|]. split; [done|]. split; [done|]. by exists pre.
  - destruct (proj1 (heap_tiles_app _ _ _ _) (hs_tiles _ _ Hsh)) as (x & H1 & H2). apply heap_tiles_le in H1, H2.
    rewrite ram_end_eq in H2. lia.
  - clear pre Hsh. intros r cur t (-> & -> & Hff & pre & Hsh). heap_steps. destruct r as [|b r].
    + pose proof (hs_end _ _ Hsh) as [_ He]. cbn [head_off]. rewrite He, Z.eqb_refl. cbn [negb andb Z.eqb].
      apply wp_ret. by split.
    + destruct (focus _ _ _ _ Hsh) as (Ht1 & Ht2 & Hh1 & Hh2 & En & Ep & Eu & Ho & Hs & Hm & Hmo & He).
      cbn [head_off]. rewrite Eu. simpl in Hff. destruct (b_free b) eqn:Hb; cbn [negb andb Z.eqb].
      * apply wp_ret. split; [by simpl|done].
      * replace (b_off b =? ram_end) with false by (symmetry; apply Z.eqb_neq; unfold b_end in He; lia).
        cbn [negb]. heap_steps. rewrite En. exists r. split; [|simpl; lia]. split; [done|].
        split; [symmetry; by apply tiles_head|]. split; [done|]. exists (pre ++ [b]). by rewrite <-app_assoc.
Qed.

(** [lfree] after a block was taken at [b]. *)
Lemma advance_run s pre b r post : heap_shape s (pre ++ r ++ post) → tiles 0 pre (b_off b) →
  b_free b = true → lfree s = first_free (pre ++ b :: post) → (∃ x t, r = x :: t ∧ b_off x = b_off b) →
  wp (advance_lfree (b_off b)) (λ _ s', heap_shape s' (pre ++ r ++ post) ∧ lfree s' = first_free (pre ++ r ++ post) ∧
    lh_stats s' = lh_stats s ∧ lh_mem s' = lh_mem s ∧ ram s' = ram s) s.
Proof.
  intros Hsh Ht Hb Hl (x & t & -> & Hx). unfold advance_lfree. heap_steps.
  rewrite Hl. rewrite (first_free_app pre (b :: post)), (first_free_app pre ((x :: t) ++ post)). destruct (existsb b_free pre) eqn:Hpre.
  - pose proof (first_free_in _ _ _ Ht Hpre). replace (b_off b =? first_free pre) with false by (symmetry; apply Z.eqb_neq; lia).
    apply wp_ret. split; [done|]. split; [|done]. by rewrite Hl, first_free_app, Hpre.
  - cbn [first_free]. rewrite Hb, Z.eqb_refl. apply wp_bind.
    eapply wp_mono; [rewrite <-Hx; by apply (walk_run _ pre ((x :: t) ++ post))|]. cbn beta. intros c s' [-> ->]. heap_steps.
    apply wp_assert.
    { (* the walk stops at the end or at a free block *)
      clear -Hsh. assert (H : ∀ l pre, heap_shape s (pre ++ l) → (first_free l =? ram_end) || (lh_mem s (first_free l + 8) =? 0) = true).
      { induction l as [|y l IH]; intros pre' Hsh'; simpl; [done|].
        destruct (focus _ _ _ _ Hsh') as (_ & _ & _ & _ & _ & _ & Eu & _).
        destruct (b_free y); [by rewrite Eu, orb_true_r|]. apply (IH (pre' ++ [y])). by rewrite <-app_assoc. }
      by apply (H _ pre). }
    split; [|done]. destruct Hsh as [H1 H2 H3 H4]. by split.
Qed.

Lemma request_size_ok size_in : 0 ≤ size_in < 2 ^ 32 → impossible_size (request_size size_in) size_in = false →
  request_ok (request_size size_in) ∧ size_in ≤ request_size size_in.
Proof.
  intros Hs. unfold impossible_size, request_ok, request_size. change MEM_SIZE_ALIGNED with ram_end. rewrite ram_end_eq.
  unfold MIN_SIZE_ALIGNED. destruct (Z.leb_spec size_in (2 ^ 32 - 4)).
  - pose proof (align_size_spec size_in). destruct (Z.ltb_spec (LWIP_MEM_ALIGN_SIZE size_in) 12);
      rewrite orb_false_iff, !Z.ltb_ge; intros; (split; [split; [lia|]|lia]); [done|tauto].
  - rewrite align_size_wrap by lia. simpl. rewrite Z.ltb_ge. lia.
Qed.

Lemma heap_place_adj size pre b post : b_free b = true → no_adj (pre ++ b :: post) → no_adj (pre ++ place size b ++ post).
Proof.
  intros Hb. change (b :: post) with ([b] ++ post). rewrite !heap_no_adj_app. unfold tail_free. simpl.
  intros (H1 & (_ & H2 & H3) & H4). unfold place. destruct (size + 24 <=? b_size b); simpl; naive_solver.
Qed.
Lemma place_used size b : b_free b = true → request_ok size → size ≤ b_size b → 12 ≤ used_bytes (place size b) ≤ 12 + b_size b.
Proof. intros Hb [Hr _] Hs. unfold place. destruct (Z.leb_spec (size + 24) (b_size b)); simpl; unfold b_used; simpl; lia. Qed.

Lemma heap_tiles_in a l e b : tiles a l e → b ∈ l → a ≤ b_off b ∧ 12 ≤ b_size b ∧ b_end b ≤ e.
Proof.
  intros Ht (l1 & l2 & ->)%list_elem_of_split. apply heap_tiles_app in Ht as (x & H1 & <- & Hs & _ & H2).
  apply heap_tiles_le in H1, H2. lia.
Qed.
(** The blocks before the lowest free one. *)
Lemma first_free_split a l : tiles a l ram_end → ∃ pre r, l = pre ++ r ∧ head_off r = first_free l ∧ (∀ x, x ∈ pre → b_free x = false).
Proof.
  revert a. induction l as [|b l IH]; intros a.
  - intros _. exists [], []. split; [done|]. split; [done|]. by intros x ?%elem_of_nil.
  - simpl. intros (_ & _ & _ & Ht). destruct (b_free b) eqn:Hb.
    + exists [], (b :: l). split; [done|]. split; [done|]. by intros x ?%elem_of_nil.
    + destruct (IH _ Ht) as (pre & r & -> & Hr & Hp). exists (b :: pre), r. split; [done|]. split; [done|].
      intros x [->|Hx]%elem_of_cons; [done|]. by apply Hp.
Qed.

(** A block that fits is taken. *)
Lemma blk_take_run s pre b post size (Q : Z + Z → lheap → Prop) :
  heap_rep s (pre ++ b :: post) → request_ok size → fits size b = true →
  (∀ s', heap_rep s' (pre ++ place size b ++ post) → contents_kept (pre ++ b :: post) s s' → ram s' = ram s →
    Q (inr (ram s + b_off b + SIZEOF_STRUCT_MEM)) s') →
  wp (use_block (b_off b) size;;
      advance_lfree (b_off b);;
      base ← gets ram;
      LWIP_ASSERT (base + b_off b + SIZEOF_STRUCT_MEM + size <=? base + ram_end);;
      LWIP_ASSERT ((base + b_off b + SIZEOF_STRUCT_MEM) mod MEM_ALIGNMENT =? 0);;
      LWIP_ASSERT (Z.land (base + b_off b) (MEM_ALIGNMENT - 1) =? 0);;
      mret (inr (base + b_off b + SIZEOF_STRUCT_MEM))) Q s.
Proof.
  intros [Hsh Hadj Hl Hu] Hreq [Hb Hfit%Z.leb_le]%andb_true_iff HQ.
  destruct (focus _ _ _ _ Hsh) as (Ht1 & Ht2 & Hh1 & Hh2 & En & Ep & Eu & Ho & Hs & Hm & Hmo & He).
  pose proof (hs_ram _ _ Hsh) as (Hr1 & Hr2 & Hr3). apply wp_bind. eapply wp_mono; [by apply use_block_run|].
  intros [] s1 (Hsh1 & Hl1 & Er1 & Hu1 & Hun). apply wp_bind. eapply wp_mono.
  { apply (advance_run s1 pre b (place size b) post Hsh1 Ht1 Hb); [by rewrite Hl1|].
    unfold place. destruct (_ <=? _); eauto. }
  intros [] s2 (Hsh2 & Hl2 & Hst2 & Hm2 & Er2). heap_steps. rewrite Er2, Er1. unfold SIZEOF_STRUCT_MEM, MEM_ALIGNMENT.
  change (4 - 1) with (Z.ones 2). rewrite Z.land_ones by lia. change (2 ^ 2) with 4. unfold b_end in He.
  apply wp_assert; [by apply Z.leb_le; lia|]. apply wp_bind, wp_assert; [apply Z.eqb_eq; dlia|].
  apply wp_bind, wp_assert; [apply Z.eqb_eq; dlia|]. apply wp_ret. apply HQ; [| |by rewrite Er2].
  - split; [done|by apply heap_place_adj|done|]. rewrite Hst2, Hu1, Hu. pose proof (place_used size b Hb Hreq Hfit).
    rewrite used_bytes_app. simpl. unfold b_used at 1. rewrite Hb, !used_bytes_app.
    pose proof (used_bytes_bound _ _ _ Ht1). pose proof (used_bytes_bound _ _ _ Ht2). rewrite ram_end_eq in *.
    unfold b_end in *. rewrite u32_small; lia.
  - intros x z Hx Hxf Hz. rewrite Hm2. pose proof (hs_tiles _ _ Hsh) as Ht. apply heap_tiles_app in Ht as (y & Hy1 & Hy2).
    pose proof (heap_tiles_fun _ _ _ _ Hy1 Ht1) as ->. cbn [tiles] in Hy2. destruct Hy2 as (_ & _ & _ & Hy2).
    apply elem_of_app in Hx as [Hx|[->|Hx]%elem_of_cons]; [|congruence|].
    + destruct (heap_tiles_in _ _ _ _ Hy1 Hx) as (? & ? & ?). apply Hun; unfold b_end in *; lia.
    + destruct (heap_tiles_in _ _ _ _ Hy2 Hx) as (? & ? & ?). apply Hun; unfold b_end in *; lia.
Qed.

(** [mem_malloc] serves a request from the first free block that is large
    enough: it answers the address of its data, splits off what is left when
    another block fits there, keeps the blocks in use and their contents, and
    keeps its lowest free block and its statistics exact; a request of size 0,
    one that wraps or exceeds the heap, or one no block can hold gets NULL and
    leaves the blocks alone. *)
Lemma malloc_run s l size_in : heap_rep s l → 0 ≤ size_in < 2 ^ 32 →
  wp (mem_malloc size_in) (λ p s', p = (malloc_spec (ram s) size_in l).1 ∧ heap_rep s' (malloc_spec (ram s) size_in l).2 ∧
    ram s' = ram s ∧ contents_kept l s s') s.
Proof.
  intros Hrep Hin. unfold mem_malloc, malloc_spec. destruct (size_in =? 0); [by apply wp_ret|]. cbn [orb].
  destruct (impossible_size _ _) eqn:Himp; [by apply wp_ret|].
  destruct (request_size_ok _ Hin Himp) as [Hreq _]. set (size := request_size size_in) in *. pose proof Hreq as [Hr _].
  rewrite ram_end_eq in Hr. heap_steps. rewrite (hr_lfree _ _ Hrep).
  destruct (first_free_split _ _ (hs_tiles _ _ (hr_shape _ _ Hrep))) as (pre & r & Hl & <- & Hpre).
  apply (wp_loop_ghost (λ r cur t, t = s ∧ cur = head_off r ∧ ∃ pre, l = pre ++ r ∧ ∀ x, x ∈ pre → fits size x = false)
    length _ _ r).
  - split; [done|]. split; [done|]. exists pre. split; [done|]. intros x Hx. unfold fits. by rewrite Hpre.
  - pose proof (hs_tiles _ _ (hr_shape _ _ Hrep)) as Ht. apply heap_tiles_le in Ht. rewrite Hl, length_app, ram_end_eq in Ht. lia.
  - clear pre r Hl Hpre. intros r cur t (-> & -> & pre & Hl & Hpre).
    change MEM_SIZE_ALIGNED with 128000. rewrite u32_small by lia.
    destruct (Z.ltb_spec (head_off r) (128000 - size)) as [Hlt|Hge].
    + destruct r as [|b r]; [simpl in Hlt; rewrite ram_end_eq in Hlt; lia|]. subst l.
      destruct (focus _ _ _ _ (hr_shape _ _ Hrep)) as (Ht1 & Ht2 & Hh1 & Hh2 & En & Ep & Eu & Ho & Hs & Hm & Hmo & He).
      cbn [head_off] in *. heap_steps. rewrite En, Eu. unfold SIZEOF_STRUCT_MEM at 1.
      replace (u64 (b_end b - (b_off b + 12))) with (b_size b)
        by (unfold b_end in *; rewrite ram_end_eq in *; rewrite u64_small by lia; lia).
      replace ((if b_free b then 0 else 1) =? 0) with (b_free b) by (by destruct (b_free b)). fold (fits size b).
      destruct (fits size b) eqn:Hfit.
      * rewrite (first_fit_some _ _ _ _ Hpre Hfit). cbn [fst snd].
        apply (blk_take_run s pre b r size); [done..|]. intros s' Hs1 Hs2 Hs3. done.
      * heap_steps. exists r. split; [|simpl; lia]. split; [done|]. split; [symmetry; by apply tiles_head|].
        exists (pre ++ [b]). split; [by rewrite <-app_assoc|]. intros x [Hx|Hx%list_elem_of_singleton]%elem_of_app; [by apply Hpre|by subst].
    + heap_steps. rewrite first_fit_none; [split; [done|]; split; [|done]; destruct Hrep as [[]]; by split|].
      intros x Hx. subst l. apply elem_of_app in Hx as [Hx|Hx]; [by apply Hpre|].
      pose proof (hs_tiles _ _ (hr_shape _ _ Hrep)) as Ht. apply heap_tiles_app in Ht as (y & _ & Ht).
      rewrite (tiles_head _ _ Ht) in Hge. destruct (heap_tiles_in _ _ _ _ Ht Hx) as (? & ? & ?). unfold fits, b_end in *.
      rewrite ram_end_eq in *. destruct (Z.leb_spec size (b_size x)); [lia|]. apply andb_false_r.
Qed.

(** ** Release *)

Definition mark_free (o : Z) (l : list blk) : list blk :=
  map (λ b, if b_off b =? o then Blk (b_off b) (b_size b) true else b) l.
Definition merge (b x : blk) : blk := Blk (b_off b) (b_size b + 12 + b_size x) true.
Definition join (b : blk) (l : list blk) : list blk :=
  match l with
  | x :: t => if b_free b && b_free x then merge b x :: t else b :: l
  | [] => [b]
  end.
(** Neighbouring free blocks become one. *)
Definition coalesce (l : list blk) : list blk := foldr join [] l.

Lemma coalesce_no_adj l : no_adj l → coalesce l = l.
Proof.
  induction l as [|b [|x l] IH]; [done|done|]. intros [H1 H2]. change (join b (coalesce (x :: l)) = b :: x :: l).
  rewrite (IH H2). simpl. destruct (b_free b) eqn:Hb, (b_free x) eqn:Hx; try done. by destruct H1.
Qed.
Lemma coalesce_before pre x l : no_adj pre → ¬ (tail_free pre ∧ b_free x = true) →
  foldr join (x :: l) pre = pre ++ x :: l.
Proof.
  intros Hn. induction pre as [|b pre IH]; [done|]. destruct Hn as [Hb Hn]. intros Ht. simpl. rewrite IH; [|done|].
  - destruct pre as [|c pre]; simpl; destruct (b_free b) eqn:Eb; try done.
    + destruct (b_free x) eqn:Ex; [|done]. destruct Ht. unfold tail_free. by simpl.
    + destruct (b_free c) eqn:Ec; [|done]. by destruct Hb.
  - unfold tail_free in *. rewrite last_cons in Ht. destruct (last pre); naive_solver.
Qed.
(** Freeing one block of a heap without free neighbours. *)
Lemma coalesce_one pre b post : no_adj pre → no_adj post → b_free b = true →
  coalesce (pre ++ b :: post) =
  let l := join b post in
  match last pre with
  | Some p => if b_free p then removelast pre ++ join p l else pre ++ l
  | None => l
  end.
Proof.
  intros H1 H2 Hb. unfold coalesce. rewrite foldr_app. simpl. change (foldr join [] post) with (coalesce post).
  rewrite (coalesce_no_adj _ H2). destruct (join b post) as [|y t] eqn:E.
  { destruct post; simpl in E; [done|]. by destruct (_ && _). }
  destruct pre as [|p pre _] using rev_ind; [done|]. rewrite last_snoc, foldr_app, removelast_last. cbn [foldr].
  apply heap_no_adj_app in H1 as (H1 & _ & H3). assert (Hy : b_free y = true).
  { destruct post as [|x post]; simpl in E; [by simplify_eq|]. destruct (b_free b && b_free x); by simplify_eq. }
  simpl. rewrite Hy, andb_true_r. destruct (b_free p) eqn:Hp.
  - apply coalesce_before; [done|]. simpl. intros [Hpt _]. apply H3. by split.
  - rewrite coalesce_before; [by rewrite <-app_assoc|done|]. rewrite Hp. naive_solver.
Qed.

Lemma first_free_le a pre b post e : tiles a pre e → b_off b = e → b_free b = true → first_free (pre ++ b :: post) ≤ b_off b.
Proof.
  intros Ht He Hb. rewrite first_free_app. simpl. rewrite Hb. destruct (existsb b_free pre) eqn:Hp; [|lia].
  pose proof (first_free_in _ _ _ Ht Hp). lia.
Qed.

(** A free block takes in the free block after it. *)
Lemma absorb_run s pre p x post : heap_shape s (pre ++ p :: x :: post) → b_free p = true → b_free x = true →
  lfree s = first_free (pre ++ p :: x :: post) →
  wp (f ← gets lfree;
      (if f =? b_off x then set_lfree (b_off p) else mret tt);;
      n ← m_next (b_off x);
      set_m_next (b_off p) n;;
      (if negb (n =? MEM_SIZE_ALIGNED) then set_m_prev n (b_off p) else mret tt))
    (λ _ s', heap_shape s' (pre ++ merge p x :: post) ∧ lfree s' = first_free (pre ++ merge p x :: post) ∧
      lh_stats s' = lh_stats s ∧ ram s' = ram s ∧ (∀ z, z ≠ b_off p → z ≠ b_end x + 4 → lh_mem s' z = lh_mem s z)) s.
Proof.
  intros Hsh Hp Hx Hl.
  destruct (focus _ _ _ _ Hsh) as (Ht1 & Ht2 & Hh1 & Hh2 & En & Ep & Eu & Ho & Hs & Hm & Hmo & He).
  destruct Ht2 as (Hxo & Hxs & Hxm & Ht2). destruct Hh2 as (Hx1 & Hx2 & Hx3 & Hh2). pose proof (tiles_gap _ _ _ Ht2) as Hgap.
  pose proof (first_free_le _ pre p (x :: post) _ Ht1 eq_refl Hp).
  rewrite Hp in Eu. assert (Hend : b_end (merge p x) = b_end x) by (unfold b_end in *; cbn [merge b_off b_size]; lia).
  heap_steps. replace (lfree s =? b_off x) with false by (symmetry; apply Z.eqb_neq; unfold b_end in *; lia).
  heap_steps. rewrite Hx1. apply link_back_run. cbn [lh_mem ram lfree lh_stats]. intros m' Hm' Hback Hne.
  assert (Hcell : ∀ z, z ≠ b_off p → z ≠ b_end x + 4 → m' z = lh_mem s z).
  { intros z Hz1 Hz2. rewrite Hm' by done. by cells. }
  rewrite ram_end_eq in *. unfold b_end in *.
  split; [|split; [|by split]].
  - eapply (unfocus s _ pre [merge p x] post (b_off p)); cbn [lh_mem ram]; try done; [by exists (pre ++ p :: x :: post)| | | | | |].
    + cbn [app tiles]. unfold b_end. cbn [merge b_off b_size]. split; [done|]. split; [lia|]. split; [dlia|].
      by replace (b_off p + 12 + (b_size p + 12 + b_size x)) with (b_off x + 12 + b_size x) by lia.
    + eapply hdrs_frame; [exact Ht1| |exact Hh1]. intros z Hz. apply Hcell; lia.
    + cbn [hdrs b_off b_size b_free merge]. unfold b_end. cbn [merge b_off b_size]. rewrite Hm' by lia. cells.
      rewrite !Hcell by lia. repeat split; [lia|done|done].
    + unfold last_off. cbn [last merge b_off]. eapply hdrs_relink; [exact Ht2|exact Hh2| |].
      * intros z Hz Hz4. apply Hcell; lia.
      * intros Hne'. by apply Hback.
    + rewrite ram_end_eq. apply Hcell; lia.
    + rewrite ram_end_eq. apply Hcell; lia.
  - cbn [lfree]. rewrite Hl, !first_free_app. cbn [first_free merge b_free b_off]. by rewrite Hp.
Qed.

Lemma tiles_order a l e b x : tiles a l e → b ∈ l → x ∈ l → b = x ∨ b_end b ≤ b_off x ∨ b_end x ≤ b_off b.
Proof.
  revert a. induction l as [|y l IH]; intros a; [by intros _ ?%elem_of_nil|]. intros (_ & _ & _ & Ht).
  rewrite !elem_of_cons. intros [->|Hb] [->|Hx]; [by left| | |by eapply IH].
  - right. left. by destruct (heap_tiles_in _ _ _ _ Ht Hx).
  - right. right. by destruct (heap_tiles_in _ _ _ _ Ht Hb).
Qed.
(** The contents of a block are apart from all the structures. *)
Lemma contents_apart s l b x z : heap_shape s l → b ∈ l → b_off b + 12 ≤ z < b_end b → x ∈ l →
  (z < b_off x ∨ b_off x + 12 ≤ z) ∧ (z < b_end x ∨ b_end x + 12 ≤ z).
Proof.
  intros Hsh Hb Hz Hx. pose proof (hs_tiles _ _ Hsh) as Ht. destruct (heap_tiles_in _ _ _ _ Ht Hx) as (_ & Hs & _).
  destruct (tiles_order _ _ _ _ _ Ht Hb Hx) as [->|[?|?]]; unfold b_end in *; lia.
Qed.

(** What the merging steps of [plug_holes] do around the block [mem]. *)
Lemma plug_run s pre b post : heap_shape s (pre ++ b :: post) → b_free b = true → no_adj pre → no_adj post →
  lfree s = first_free (pre ++ b :: post) →
  wp (plug_holes (b_off b)) (λ _ s', let l := coalesce (pre ++ b :: post) in
    heap_shape s' l ∧ lfree s' = first_free l ∧ lh_stats s' = lh_stats s ∧ ram s' = ram s ∧
    contents_kept (pre ++ b :: post) s s') s.
Proof.
  intros Hsh Hb Hn1 Hn2 Hl.
  destruct (focus _ _ _ _ Hsh) as (Ht1 & Ht2 & Hh1 & Hh2 & En & Ep & Eu & Ho & Hs & Hm & Hmo & He).
  rewrite Hb in Eu. unfold plug_holes. apply wp_bind, wp_assert; [by apply Z.leb_le|].
  apply wp_bind, wp_assert; [apply Z.ltb_lt; unfold b_end in He; lia|]. heap_steps. rewrite Eu.
  apply wp_assert; [done|]. heap_steps. rewrite En. apply wp_assert; [by apply Z.leb_le|]. heap_steps.
  replace (b_off b =? b_end b) with false by (symmetry; apply Z.eqb_neq; unfold b_end; lia). cbn [negb andb].
  (* the block after *)
  eapply (wp_mono _ (λ _ s', heap_shape s' (pre ++ join b post) ∧ lfree s' = first_free (pre ++ join b post) ∧ lh_stats s' = lh_stats s ∧
    ram s' = ram s ∧ contents_kept (pre ++ b :: post) s s')).
  { destruct post as [|x post].
    - destruct (hs_end _ _ Hsh) as [_ E8]. simpl in Ht2. rewrite Ht2, E8. simpl. by apply wp_ret.
    - pose proof Ht2 as (Hxo & Hxs & _ & Ht3). destruct Hh2 as (_ & _ & Hx3 & _). apply heap_tiles_le in Ht3. rewrite <-Hxo, Hx3.
      replace (b_off x =? ram_end) with false by (symmetry; apply Z.eqb_neq; unfold b_end in *; lia).
      cbn [join negb]. rewrite Hb, !andb_true_r. cbn [andb]. destruct (b_free x) eqn:Hx; cbn [Z.eqb]; [|by apply wp_ret].
      eapply wp_mono; [by apply absorb_run|]. intros [] s' (H1 & H2 & H3 & H4 & H5). repeat (split; [done|]).
      intros y z Hy Hyf Hz. apply H5.
      + apply (contents_apart _ _ y b z) in Hsh; [lia|done|done|set_solver].
      + apply (contents_apart _ _ y x z) in Hsh; [lia|done|done|set_solver]. }
  (* the block before *)
  intros [] s1 (Hsh1 & Hl1 & Hst1 & Hr1 & Hk1). heap_steps. rewrite (coalesce_one _ _ _ Hn1 Hn2 Hb). cbv zeta.
  assert (Hj : ∃ y t, join b post = y :: t ∧ b_off y = b_off b ∧ b_free y = true ∧ ∀ x, x ∈ post → b_free x = false → x ∈ t).
  { destruct post as [|x post]; simpl; [exists b, []; split_and!; try done; by intros u ?%elem_of_nil|]. rewrite Hb. destruct (b_free x) eqn:Ex; simpl; eexists _, _; split_and!; try done.
    intros u [->|Hu]%elem_of_cons Huf; [congruence|done]. }
  destruct Hj as (y & t & Ej & Ey & Hy & Ht). rewrite Ej in *.
  destruct (focus _ _ _ _ Hsh1) as (Gt1 & Gt2 & Gh1 & Gh2 & Gn & Gp & Gu & Go & Gs & Gm & Gmo & Ge). rewrite Ey in *.
  rewrite Gp. destruct pre as [|p pre _] using rev_ind.
  { unfold last_off. simpl. simpl in Ht1. rewrite <-Ht1. cbn [Z.eqb negb andb]. by apply wp_ret. }
  rewrite last_snoc, last_off_snoc, removelast_last. rewrite <-!app_assoc in *. cbn [app] in *.
  destruct (focus _ _ _ _ Hsh1) as (_ & Ft2 & _ & _ & Fn & _ & Fu & _). rewrite Fu.
  destruct Ft2 as (Fo & _). rewrite Ey in Fo. unfold b_end in Fo.
  destruct (focus _ _ _ _ Hsh) as (_ & _ & _ & _ & _ & _ & _ & _ & Fs & _).
  replace (b_off p =? b_off b) with false by (symmetry; apply Z.eqb_neq; lia).
  destruct (b_free p) eqn:Hp; cbn [negb andb Z.eqb]; [|apply wp_ret; done].
  cbn [join]. rewrite Hp, Hy. cbn [andb]. rewrite <-Ey. eapply wp_mono; [by apply absorb_run|].
  intros [] s' (H1 & H2 & H3 & H4 & H5). split; [done|]. split; [done|]. split; [congruence|]. split; [congruence|].
  intros u z Hu Huf Hz. assert (Hin : u ∈ pre ++ p :: y :: t).
  { apply elem_of_app. apply elem_of_app in Hu as [Hu|[->|[->|Hu]%elem_of_cons]%elem_of_cons]; [by left|congruence|congruence|].
    right. by apply list_elem_of_further, list_elem_of_further, Ht. }
  pose proof (contents_apart _ _ u p z Hsh1 Hin Hz) as Ap. pose proof (contents_apart _ _ u y z Hsh1 Hin Hz) as Ay.
  rewrite !elem_of_app, !elem_of_cons in *. rewrite H5; [by apply (Hk1 u); [rewrite elem_of_app, !elem_of_cons|..]| |].
  - destruct Ap; [tauto|lia].
  - destruct Ay; [tauto|lia].
Qed.

Lemma join_tiles b l a e : tiles a (b :: l) e → tiles a (join b l) e.
Proof.
  destruct l as [|x l]; [done|]. simpl. intros (Hb & Hs & Hm & Hx & Hs' & Hm' & Ht). destruct (_ && _); simpl; [|done].
  split; [done|]. split; [lia|]. split; [dlia|]. unfold b_end in *. cbn [merge b_off b_size].
  by replace (b_off b + 12 + (b_size b + 12 + b_size x)) with (b_off x + 12 + b_size x) by lia.
Qed.
Lemma coalesce_adj l : no_adj (coalesce l).
Proof.
  induction l as [|b l IH]; [done|]. simpl. destruct (coalesce l) as [|x t]; [simpl; naive_solver|]. simpl.
  destruct IH as [H1 H2]. destruct (b_free b) eqn:Hb, (b_free x) eqn:Hx; simpl; rewrite ?Hx in *; [|split; [intros []; congruence|by split]..].
  split; [|done]. tauto.
Qed.
Lemma coalesce_used l : used_bytes (coalesce l) = used_bytes l.
Proof.
  induction l as [|b l IH]; [done|]. simpl. rewrite <-IH. destruct (coalesce l) as [|x t]; [done|]. simpl.
  unfold b_used. destruct (b_free b) eqn:Hb, (b_free x) eqn:Hx; simpl; unfold b_used; simpl; rewrite ?Hb, ?Hx; lia.
Qed.
Lemma mark_free_at pre b post : tiles 0 (pre ++ b :: post) ram_end →
  mark_free (b_off b) (pre ++ b :: post) = pre ++ Blk (b_off b) (b_size b) true :: post.
Proof.
  intros Ht. apply heap_tiles_app in Ht as (x & H1 & <- & Hs & _ & H2). unfold mark_free. rewrite map_app. simpl. rewrite Z.eqb_refl.
  f_equal; [|f_equal]; (rewrite <-map_id; apply map_ext_in; intros y Hy%list_elem_of_In).
  - destruct (heap_tiles_in _ _ _ _ H1 Hy) as (? & ? & ?). destruct (Z.eqb_spec (b_off y) (b_off b)); [unfold b_end in *; lia|done].
  - destruct (heap_tiles_in _ _ _ _ H2 Hy) as (? & ? & ?). destruct (Z.eqb_spec (b_off y) (b_off b)); [unfold b_end in *; lia|done].
Qed.

(** The block at [b] becomes free. *)
Lemma mark_shape s pre b post :
  heap_shape s (pre ++ b :: post) →
  heap_shape (MkLheap (<[b_off b + 8 := 0]> (lh_mem s)) (ram s) (lfree s) (lh_stats s)) (pre ++ Blk (b_off b) (b_size b) true :: post).
Proof.
  intros Hsh. destruct (focus _ _ _ _ Hsh) as (Ht1 & Ht2 & Hh1 & Hh2 & En & Ep & Eu & Ho & Hs & Hm & Hmo & He).
  rewrite ram_end_eq in *. unfold b_end in *.
  eapply (unfocus s _ pre [Blk (b_off b) (b_size b) true] post (b_off b)); cbn [lh_mem ram]; try done; [by exists (pre ++ b :: post)| | | |..].
  - eapply hdrs_frame; [exact Ht1| |exact Hh1]. intros z Hz. by cells.
  - cbn [hdrs b_off b_size b_free]. unfold b_end. cbn [b_off b_size]. cells. done.
  - unfold last_off. cbn [last b_off]. eapply hdrs_frame; [exact Ht2| |exact Hh2]. intros z Hz. by cells.
  - rewrite ram_end_eq. by cells.
  - rewrite ram_end_eq. by cells.
Qed.

(** The links around a block agree. *)
Lemma link_valid_run s pre b post (Q : bool → lheap → Prop) : heap_shape s (pre ++ b :: post) → Q true s →
  wp (mem_link_valid (b_off b)) Q s.
Proof.
  intros Hsh HQ. destruct (focus _ _ _ _ Hsh) as (Ht1 & Ht2 & Hh1 & Hh2 & En & Ep & Eu & Ho & Hs & Hm & Hmo & He).
  unfold mem_link_valid. heap_steps. rewrite En, Ep. change MEM_SIZE_ALIGNED with ram_end.
  pose proof (last_off_bound 0 pre (b_off b) 0 Ht1 ltac:(lia) ltac:(lia)).
  replace (ram_end <? b_end b) with false by (symmetry; apply Z.ltb_ge; lia).
  replace (ram_end <? last_off 0 pre) with false by (symmetry; apply Z.ltb_ge; unfold b_end in *; lia).
  assert (Hp : negb (last_off 0 pre =? b_off b) && negb (lh_mem s (last_off 0 pre) =? b_off b) = false).
  { destruct pre as [|p pre _] using rev_ind; [by simpl in Ht1; rewrite <-Ht1|]. rewrite last_off_snoc, <-app_assoc in *.
    destruct (focus _ _ _ _ Hsh) as (_ & (Fo & _) & _ & _ & Fn & _). rewrite Fn, Fo, Z.eqb_refl. apply andb_false_r. }
  assert (Hn : negb (b_end b =? ram_end) && negb (lh_mem s (b_end b + 4) =? b_off b) = false).
  { destruct post as [|x post]; [simpl in Ht2; by rewrite Ht2, Z.eqb_refl|].
    destruct Ht2 as (Hx & _), Hh2 as (_ & Hx2 & _). rewrite <-Hx, Hx2, Z.eqb_refl. apply andb_false_r. }
  by rewrite Hp, Hn.
Qed.

(** [mem_free] returns a block to the heap: given the address of a block in
    use, it marks the block free and merges it with a free block on either
    side, so that again no two free blocks are neighbours; the lowest free
    block, the statistics and the contents of the other blocks stay right. *)
Lemma mem_free_run s l b : heap_rep s l → b ∈ l → b_free b = false →
  wp (mem_free (ram s + b_off b + SIZEOF_STRUCT_MEM)) (λ _ s',
    heap_rep s' (coalesce (mark_free (b_off b) l)) ∧ ram s' = ram s ∧
    ∀ x z, x ∈ l → x ≠ b → b_free x = false → b_off x + 12 ≤ z < b_end x → lh_mem s' z = lh_mem s z) s.
Proof.
  intros [Hsh Hadj Hl Hu] (pre & post & ->)%list_elem_of_split Hb. rewrite (mark_free_at _ _ _ (hs_tiles _ _ Hsh)).
  destruct (focus _ _ _ _ Hsh) as (Ht1 & Ht2 & Hh1 & Hh2 & En & Ep & Eu & Ho & Hs & Hm & Hmo & He).
  pose proof (hs_ram _ _ Hsh) as (Hr1 & Hr2 & Hr3). unfold mem_free. unfold SIZEOF_STRUCT_MEM, MIN_SIZE_ALIGNED, MEM_ALIGNMENT, NULL in *.
  replace (_ =? 0) with false by (symmetry; apply Z.eqb_neq; lia).
  change (4 - 1) with (Z.ones 2). rewrite Z.land_ones by lia. change (2 ^ 2) with 4. unfold b_end in He.
  apply wp_bind, wp_assert; [apply Z.eqb_eq; dlia|]. heap_steps.
  replace (ram s + b_off b + 12 - 12 - ram s) with (b_off b) by lia.
  apply wp_assert; [apply negb_true_iff, orb_false_iff; split; apply Z.ltb_ge; lia|]. heap_steps. rewrite Eu, Hb.
  apply wp_assert; [done|]. apply wp_bind. apply (link_valid_run _ _ _ _ _ Hsh). apply wp_bind, wp_assert; [done|].
  pose proof (mark_shape _ _ _ _ Hsh) as Hsh1. set (fb := Blk (b_off b) (b_size b) true) in *.
  heap_steps. apply (wp_mono _ (λ _ s1, s1 = MkLheap (<[b_off b + 8 := 0]> (lh_mem s)) (ram s) (first_free (pre ++ fb :: post)) (lh_stats s))).
  { rewrite Hl, !first_free_app. simpl. rewrite Hb. destruct (existsb b_free pre) eqn:Hpre.
    - pose proof (first_free_in _ _ _ Ht1 Hpre). destruct (Z.ltb_spec (b_off b) (first_free pre)); [lia|].
      apply wp_ret. destruct s; simpl in *. by rewrite ?Hl, ?first_free_app, ?Hpre.
    - pose proof (first_free_range _ _ Ht2). unfold b_end in *. destruct (Z.ltb_spec (b_off b) (first_free post)); [|lia]. by apply wp_modify. }
  intros [] s1 ->. heap_steps. rewrite fn_lookup_insert_ne, En by lia. eapply wp_mono.
  { apply (plug_run _ pre fb post); [destruct Hsh1; by split|done|..]; try done; by apply heap_no_adj_app in Hadj as (? & [_ ?] & _). }
  cbn beta zeta. cbn [lh_mem ram lfree lh_stats]. intros [] s' (H1 & H2 & H3 & H4 & H5). split; [|split; [done|]].
  - split; [done|apply coalesce_adj|done|]. rewrite coalesce_used, H3. cbn [stats_dec_used st_used]. rewrite Hu, !used_bytes_app. simpl.
    unfold b_used. rewrite Hb. simpl. pose proof (used_bytes_bound _ _ _ Ht1). pose proof (used_bytes_bound _ _ _ Ht2).
    rewrite ram_end_eq in *. unfold b_end in *. rewrite (u32_small (_ - b_off b)) by lia. rewrite u32_small; lia.
  - intros x z Hx Hne Hxf Hz. rewrite (H5 x z); [|set_solver|done|done]. cbn [lh_mem].
    pose proof (contents_apart _ _ x b z Hsh Hx Hz ltac:(set_solver)). by rewrite fn_lookup_insert_ne by lia.
Qed.

(** ** Shrinking *)

(** A block cut to [n] bytes: what is left goes to the free block after it, or
    becomes one when it is large enough. *)
Definition trim_block (n : Z) (b : blk) (post : list blk) : list blk :=
  let o := b_off b + 12 + n in
  if n =? b_size b then b :: post
  else match post with
       | x :: t =>
           if b_free x then Blk (b_off b) n false :: Blk o (b_end x - o - 12) true :: t
           else if n + 24 <=? b_size b then Blk (b_off b) n false :: Blk o (b_end b - o - 12) true :: post
           else b :: post
       | [] => [b]
       end.

(** The free block [ptr2] to [e] is cut off the block at [b], and takes the
    place of the blocks [mid]. *)
Lemma cut_run s pre b mid rest n e f :
  heap_shape s (pre ++ b :: mid ++ rest) → b_free b = false → tiles (b_end b) mid e → request_ok n →
  b_off b + 12 + n + 24 ≤ e →
  let o := b_off b + 12 + n in
  wp (set_m_used o 0;; set_m_next o e;; set_m_prev o (b_off b);; set_m_next (b_off b) o;;
      n2 ← m_next o;
      (if negb (n2 =? MEM_SIZE_ALIGNED) then set_m_prev n2 o else mret tt);;
      upd_lstats f)
    (λ _ s', heap_shape s' (pre ++ [Blk (b_off b) n false; Blk o (e - o - 12) true] ++ rest) ∧ lfree s' = lfree s ∧ ram s' = ram s ∧
      lh_stats s' = f (lh_stats s) ∧
      ∀ z, z ≠ b_off b → z < o ∨ o + 12 ≤ z → z ≠ e + 4 → lh_mem s' z = lh_mem s z) s.
Proof.
  intros Hsh Hb Hmid [Hn Hnm] Hroom o.
  destruct (focus _ _ _ _ Hsh) as (Ht1 & Ht2 & Hh1 & Hh2 & En & Ep & Eu & Ho & Hs & Hm & Hmo & He).
  apply heap_tiles_app in Ht2 as (e' & Ht2 & Ht3). pose proof (heap_tiles_fun _ _ _ _ Ht2 Hmid) as ->. clear Hmid.
  apply hdrs_app in Hh2 as [_ Hh3]. pose proof (tiles_gap _ _ _ Ht3) as Hgap. pose proof (heap_tiles_le _ _ _ Ht2) as [Hbe Hbm].
  pose proof (heap_tiles_le _ _ _ Ht3) as [Hee _]. rewrite Hb in Eu. rewrite ram_end_eq in *. unfold b_end in *.
  heap_steps. cells. apply link_back_run. cbn [lh_mem ram lfree lh_stats]. intros m' Hm' Hback _. heap_steps.
  assert (Hcell : ∀ z, z ≠ b_off b → z < o ∨ o + 12 ≤ z → z ≠ e + 4 → m' z = lh_mem s z).
  { intros z Hz1 Hz2 Hz3. rewrite Hm' by done. by cells. }
  split; [|split; [done|split; [done|split; [done|exact Hcell]]]].
  eapply (unfocus s _ pre _ rest (b_off b)); cbn [lh_mem ram]; try done; [by eexists| | | | | |].
  - cbn [app tiles]. unfold b_end. cbn [b_off b_size]. repeat (split; [done || lia || dlia|]).
    by replace (o + 12 + (e - o - 12)) with e by lia.
  - eapply hdrs_frame; [exact Ht1| |exact Hh1]. intros z Hz. apply Hcell; lia.
  - cbn [hdrs b_off b_size b_free]. unfold b_end. cbn [b_off b_size]. rewrite !(Hm' (b_off b)), !(Hm' (b_off b + _)), !Hm' by lia. cells.
    rewrite Ep, Eu. repeat split; lia.
  - unfold last_off at 1. cbn [last b_off]. eapply hdrs_relink; [exact Ht3|exact Hh3| |].
    + intros z Hz Hz4. apply Hcell; lia.
    + intros Hne. apply Hback. by rewrite ram_end_eq.
  - rewrite ram_end_eq. apply Hcell; lia.
  - rewrite ram_end_eq. apply Hcell; lia.
Qed.

Section cutting.
Variables (s : lheap) (pre : list blk) (b : blk) (post : list blk) (n : Z).
Hypotheses (Hrep : heap_rep s (pre ++ b :: post)) (Hb : b_free b = false) (Hn : request_ok n).

(** The contents that are kept when a new block takes the place of [mid]. *)
Lemma cut_contents mid rest e s' : post = mid ++ rest → tiles (b_end b) mid e → (∀ x, x ∈ mid → b_free x = true) →
  b_off b + 12 + n + 24 ≤ e →
  (∀ z, z ≠ b_off b → z < b_off b + 12 + n ∨ b_off b + 12 + n + 12 ≤ z → z ≠ e + 4 → lh_mem s' z = lh_mem s z) →
  ∀ x z, x ∈ pre ++ b :: post → b_free x = false → b_off x + 12 ≤ z < b_end x → (x = b → z < b_off b + 12 + n) →
    lh_mem s' z = lh_mem s z.
Proof.
  intros Epost Hmid Hfree Hroom Heq x z Hx Hxf Hz Hxb.
  destruct (focus _ _ _ _ (hr_shape _ _ Hrep)) as (Ht1 & Ht2 & _ & _ & _ & _ & _ & Ho & Hs & _ & _ & He).
  rewrite Epost in *. apply heap_tiles_app in Ht2 as (e' & H1 & H2). pose proof (heap_tiles_fun _ _ _ _ H1 Hmid) as ->. pose proof (heap_tiles_le _ _ _ H1).
  destruct Hn as [Hn1 _]. unfold b_end in *. apply elem_of_app in Hx as [Hx|[->|[Hx|Hx]%elem_of_app]%elem_of_cons].
  - destruct (heap_tiles_in _ _ _ _ Ht1 Hx) as (? & ? & ?). unfold b_end in *. apply Heq; lia.
  - specialize (Hxb eq_refl). apply Heq; lia.
  - rewrite (Hfree _ Hx) in Hxf. done.
  - destruct (heap_tiles_in _ _ _ _ H2 Hx) as (? & ? & ?). unfold b_end in *. apply Heq; lia.
Qed.

(** Cutting once the lowest free block is set. *)
Lemma cut_rep mid rest e s0 : let o := b_off b + 12 + n in
  n ≤ b_size b → post = mid ++ rest → tiles (b_end b) mid e → (∀ y, y ∈ mid → b_free y = true) → o + 24 ≤ e → ¬ head_free rest →
  lh_mem s0 = lh_mem s → ram s0 = ram s → lh_stats s0 = lh_stats s →
  lfree s0 = (if existsb b_free pre then first_free pre else o) →
  wp (set_m_used o 0;; set_m_next o e;; set_m_prev o (b_off b);; set_m_next (b_off b) o;;
      n2 ← m_next o;
      (if negb (n2 =? MEM_SIZE_ALIGNED) then set_m_prev n2 o else mret tt);;
      upd_lstats (stats_dec_used (u32 (b_size b - n))))
    (λ _ s', heap_rep s' (pre ++ [Blk (b_off b) n false; Blk o (e - o - 12) true] ++ rest) ∧ ram s' = ram s ∧
      ∀ y z, y ∈ pre ++ b :: post → b_free y = false → b_off y + 12 ≤ z < b_end y → (y = b → z < b_off b + 12 + n) →
        lh_mem s' z = lh_mem s z) s0.
Proof.
  intros o Hle Epost Hmid Hfree Hroom Hhead Em Er Est Hlf.
  pose proof (hr_shape _ _ Hrep) as Hsh. pose proof (hr_adj _ _ Hrep) as Hadj. pose proof (hr_used _ _ Hrep) as Hu.
  destruct (focus _ _ _ _ Hsh) as (Ht1 & Ht2 & _ & _ & _ & _ & _ & Ho & Hs & _ & _ & He).
  pose proof (used_bytes_bound _ _ _ Ht1). pose proof (used_bytes_bound _ _ _ Ht2). destruct Hn as [Hn1 _].
  assert (Hum : used_bytes mid = 0).
  { clear -Hfree. induction mid as [|y mid IH]; [done|]. simpl. unfold b_used. rewrite Hfree by apply list_elem_of_here.
    apply IH. intros x Hx. by apply Hfree, list_elem_of_further. }
  eapply wp_mono.
  { apply (cut_run s0 pre b mid rest n e (stats_dec_used (u32 (b_size b - n)))); try done.
    rewrite <-Epost. destruct Hsh as [K1 K2 K3 K4]. split; by rewrite ?Em, ?Er. }
  intros [] s' (H1 & H2 & H3 & H4 & H5). rewrite Em in H5.
  split; [|split; [congruence|by eapply cut_contents]]. split; [done| | |].
  - rewrite Epost in Hadj. change (b :: mid ++ rest) with ([b] ++ mid ++ rest) in Hadj. rewrite !heap_no_adj_app in Hadj.
    apply heap_no_adj_app. simpl. destruct Hadj as (A1 & (_ & (_ & A2 & _) & _) & _). split; [done|]. split; [|by intros []].
    split; [by intros []|]. split; [by intros []|done].
  - rewrite H2, Hlf, first_free_app. done.
  - rewrite H4, Est. cbn [st_used stats_dec_used]. rewrite Hu, Epost, !used_bytes_app. cbn [used_bytes app]. rewrite Epost in *.
    rewrite !used_bytes_app in *. rewrite Hum in *. unfold b_used. rewrite Hb. cbn [b_free b_size]. rewrite ram_end_eq in *. unfold b_end in *.
    rewrite (u32_small (b_size b - n)) by lia. rewrite u32_small; lia.
Qed.
End cutting.

(** The checks of [mem_trim] pass. *)
Lemma trim_enter s pre b post new_size (Q : Z → lheap → Prop) : let n := request_size new_size in
  let rmem := ram s + b_off b + SIZEOF_STRUCT_MEM in
  heap_rep s (pre ++ b :: post) → 0 ≤ new_size ≤ n → n ≤ b_size b →
  (request_ok n → wp (if n =? b_size b then mret rmem else (shrink_block (b_off b) n (b_size b);; mret rmem)) Q s) →
  wp (mem_trim rmem new_size) Q s.
Proof.
  intros n rmem [Hsh _ _ _] Hnew Hle HQ. destruct (focus _ _ _ _ Hsh) as (_ & _ & _ & _ & En & _ & _ & Ho & Hs & _ & _ & He).
  pose proof (hs_ram _ _ Hsh) as (Hr1 & Hr2 & Hr3). rewrite ram_end_eq in *. unfold b_end in He.
  assert (Himp : impossible_size n new_size = false).
  { apply orb_false_iff. rewrite !Z.ltb_ge. change MEM_SIZE_ALIGNED with 128000. lia. }
  destruct (request_size_ok new_size ltac:(lia) Himp) as [Hreq _].
  unfold mem_trim. fold n. rewrite Himp. heap_steps. unfold SIZEOF_STRUCT_MEM in *.
  apply wp_assert; [apply andb_true_iff; rewrite Z.leb_le, Z.ltb_lt, ram_end_eq; lia|].
  replace (rmem - 12 - ram s) with (b_off b) by lia. heap_steps. rewrite En.
  replace (u32 (u32 (b_end b - b_off b) - 12)) with (b_size b) by (unfold b_end in *; rewrite (u32_small (_ - b_off b)), u32_small; lia).
  apply wp_assert; [by apply Z.leb_le|]. by apply HQ.
Qed.

(** [mem_trim] shrinks a block in use to the requested size (rounded up),
    giving what is left to the free block after it or making it one when it is
    large enough; the address, the kept part of the data and the other blocks'
    contents stay, and the lowest free block and the statistics are right.  The
    last block of the heap must not be cut (its assertion would fail). *)
Lemma trim_run s pre b post new_size : let n := request_size new_size in
  heap_rep s (pre ++ b :: post) → b_free b = false → 0 ≤ new_size ≤ n → n ≤ b_size b →
  (post = [] → n = b_size b ∨ b_size b < n + 24) →
  wp (mem_trim (ram s + b_off b + SIZEOF_STRUCT_MEM) new_size) (λ p s',
    p = ram s + b_off b + SIZEOF_STRUCT_MEM ∧ heap_rep s' (pre ++ trim_block n b post) ∧ ram s' = ram s ∧
    ∀ x z, x ∈ pre ++ b :: post → b_free x = false → b_off x + 12 ≤ z < b_end x → (x = b → z < b_off b + 12 + n) →
      lh_mem s' z = lh_mem s z) s.
Proof.
  intros n Hrep Hb Hnew Hle Hlast.
  apply (trim_enter s pre b post); [done..|]. fold n. intros Hreq. pose proof Hrep as [Hsh Hadj Hl Hu].
  destruct (focus _ _ _ _ Hsh) as (Ht1 & Ht2 & Hh1 & Hh2 & En & Ep & Eu & Ho & Hs & Hm & Hmo & He).
  unfold trim_block. destruct (Z.eqb_spec n (b_size b)) as [En'|Hne]; [by apply wp_ret|].
  apply wp_bind. unfold shrink_block, SIZEOF_STRUCT_MEM, MIN_SIZE_ALIGNED. heap_steps. rewrite En.
  destruct post as [|x t].
  { simpl in Ht2. destruct (Hlast eq_refl); [done|]. destruct (hs_end _ _ Hsh) as [_ E8]. rewrite Ht2, E8. cbn [Z.eqb].
    destruct (Z.leb_spec (n + 12 + 12) (b_size b)); [lia|]. by apply wp_ret, wp_ret. }
  pose proof Ht2 as (Hxo & Hxs & Hxm & Ht3). destruct Hh2 as (Hx1 & _ & Hx3 & Hh3). rewrite <-Hxo, Hx3.
  pose proof (heap_tiles_le _ _ _ Ht3) as [Hxe _]. rewrite ram_end_eq in *.
  assert (Eo : u32 (b_off b + 12 + n) = b_off b + 12 + n) by (apply u32_small; unfold b_end in *; lia).
  assert (Hff : lfree s = if existsb b_free pre then first_free pre else first_free (x :: t)).
  { rewrite Hl, first_free_app. simpl. by rewrite Hb. }
  assert (Hpre : existsb b_free pre = true → first_free pre < b_off b) by (intros Hp; by apply (first_free_in _ _ _ Ht1 Hp)).
  assert (Hna : b_free x = true → ¬ head_free t).
  { intros Hx Ht. apply heap_no_adj_app in Hadj as (_ & (_ & Ha & _) & _). by apply Ha. }
  destruct (b_free x) eqn:Hxf; cbn [Z.eqb].
  - apply wp_bind, wp_assert; [apply negb_true_iff, Z.eqb_neq; change MEM_SIZE_ALIGNED with 128000; unfold b_end in *; lia|].
    heap_steps. rewrite Hx1, Eo. cbn [first_free] in Hff. rewrite Hxf in Hff.
    apply (wp_mono _ (λ _ s0, s0 = MkLheap (lh_mem s) (ram s) (if existsb b_free pre then first_free pre else b_off b + 12 + n) (lh_stats s))).
    { rewrite Hff. destruct (existsb b_free pre) eqn:Hp.
      - specialize (Hpre eq_refl). replace (first_free pre =? b_off x) with false by (symmetry; apply Z.eqb_neq; unfold b_end in *; lia).
        apply wp_ret. destruct s. simpl in *. by rewrite Hff.
      - rewrite Z.eqb_refl. by apply wp_modify. }
    intros [] s0 ->. eapply wp_mono.
    { apply (cut_rep s pre b (x :: t) n Hrep Hb Hreq [x] t (b_end x)); try done.
      - intros y ->%list_elem_of_singleton. done.
      - unfold b_end in *. lia.
      - by apply Hna. }
    intros [] s' K. by apply wp_ret.
  - destruct (Z.leb_spec (n + 12 + 12) (b_size b)) as [Hcut|Hno].
    + destruct (Z.leb_spec (n + 24) (b_size b)); [|lia]. rewrite Eo.
      apply wp_bind, wp_assert; [apply negb_true_iff, Z.eqb_neq; change MEM_SIZE_ALIGNED with 128000; unfold b_end in *; lia|]. heap_steps.
      apply (wp_mono _ (λ _ s0, s0 = MkLheap (lh_mem s) (ram s) (if existsb b_free pre then first_free pre else b_off b + 12 + n) (lh_stats s))).
      { rewrite Hff. pose proof (first_free_range _ (x :: t) Ht2). destruct (existsb b_free pre) eqn:Hp.
        - specialize (Hpre eq_refl). destruct (Z.ltb_spec (b_off b + 12 + n) (first_free pre)); [lia|].
          apply wp_ret. destruct s. simpl in *. by rewrite Hff.
        - destruct (Z.ltb_spec (b_off b + 12 + n) (first_free (x :: t))); [by apply wp_modify|unfold b_end in *; lia]. }
      intros [] s0 ->. rewrite Hxo. eapply wp_mono.
      { apply (cut_rep s pre b (x :: t) n Hrep Hb Hreq [] (x :: t) (b_end b)); try done.
        - by intros y ?%elem_of_nil.
        - unfold b_end in *. lia.
        - simpl. by rewrite Hxf. }
      intros [] s' K. by apply wp_ret.
    + destruct (Z.leb_spec (n + 24) (b_size b)); [lia|]. by apply wp_ret, wp_ret.
Qed.

(** ** The heap as its clients see it *)

Definition addr (s : lheap) (b : blk) : Z := ram s + b_off b + SIZEOF_STRUCT_MEM.
Definition live_in (s : lheap) (l : list blk) (L : gmap Z Z) : Prop :=
  ∀ a n, L !! a = Some n ↔ ∃ b, b ∈ l ∧ b_free b = false ∧ a = addr s b ∧ n = b_size b.
(** Where [ram_heap] is. *)
Class RamHeap := { ram_heap : Z; ram_heap_ok : 0 < ram_heap ∧ ram_heap + ram_end + 16 < 2 ^ 63 }.
Section live.
Context `{RamHeap}.
Definition live (s : lheap) (L : gmap Z Z) : Prop :=
  ram s = LWIP_MEM_ALIGN ram_heap ∧ ∃ l, heap_rep s l ∧ live_in s l L.

Lemma rep_block s l b : heap_rep s l → b ∈ l →
  0 ≤ b_off b ∧ 12 ≤ b_size b ∧ b_end b ≤ ram_end ∧ b_off b mod 4 = 0.
Proof.
  intros [Hsh _ _ _] (pre & post & ->)%list_elem_of_split. destruct (focus _ _ _ _ Hsh) as (_ & _ & _ & _ & _ & _ & _ & Ho & Hs & _ & Hm & He).
  done.
Qed.
Lemma live_block s L a n : live s L → L !! a = Some n →
  LWIP_MEM_ALIGN ram_heap ≤ a ∧ a + n ≤ LWIP_MEM_ALIGN ram_heap + ram_end ∧ a mod 4 = 0 ∧ 12 ≤ n.
Proof.
  intros (<- & l & Hrep & Hl) (b & Hb & _ & -> & ->)%Hl. destruct (rep_block _ _ _ Hrep Hb) as (? & ? & ? & ?).
  destruct (hs_ram _ _ (hr_shape _ _ Hrep)) as (? & ? & ?). unfold addr, SIZEOF_STRUCT_MEM, b_end in *. rewrite ram_end_eq in *.
  split; [lia|]. split; [lia|]. split; [dlia|done].
Qed.
Lemma live_apart s L a n a' n' : live s L → L !! a = Some n → L !! a' = Some n' → a ≠ a' → a + n ≤ a' ∨ a' + n' ≤ a.
Proof.
  intros (_ & l & Hrep & Hl) (b & Hb & _ & -> & ->)%Hl (b' & Hb' & _ & -> & ->)%Hl Hne.
  destruct (tiles_order _ _ _ _ _ (hs_tiles _ _ (hr_shape _ _ Hrep)) Hb Hb') as [->|[?|?]]; [done|..]; unfold addr, SIZEOF_STRUCT_MEM, b_end in *; lia.
Qed.
(** Offsets tell blocks apart. *)
Lemma block_inj s l b b' : heap_rep s l → b ∈ l → b' ∈ l → b_off b = b_off b' → b = b'.
Proof.
  intros Hrep Hb Hb' E. destruct (rep_block _ _ _ Hrep Hb) as (_ & ? & _). destruct (rep_block _ _ _ Hrep Hb') as (_ & ? & _).
  destruct (tiles_order _ _ _ _ _ (hs_tiles _ _ (hr_shape _ _ Hrep)) Hb Hb') as [?|[?|?]]; [done|..]; unfold b_end in *; lia.
Qed.

Lemma first_fit_inv size l o l' : first_fit size l = Some (o, l') →
  ∃ pre b post, l = pre ++ b :: post ∧ fits size b = true ∧ o = b_off b ∧ l' = pre ++ place size b ++ post.
Proof.
  revert o l'. induction l as [|b l IH]; intros o l'; simpl; [done|]. destruct (fits size b) eqn:Hf.
  - intros [= <- <-]. by exists [], b, l.
  - destruct (first_fit size l) as [[o1 l1]|]; simpl; [|done]. intros [= <- <-].
    destruct (IH _ _ eq_refl) as (pre & b' & post & -> & H1 & -> & ->). by exists (b :: pre), b', post.
Qed.

(** A request extends the live blocks, or gets [NULL]. *)
Lemma live_malloc s L n : live s L → 0 ≤ n < 2 ^ 32 →
  wp (mem_malloc n) (λ p s', (p = NULL ∧ live s' L) ∨ ∃ k, n ≤ k ∧ L !! p = None ∧ live s' (<[p := k]> L)) s.
Proof.
  intros (Eb & l & Hrep & Hl) Hn. eapply wp_mono; [by apply malloc_run|]. intros p s' (-> & Hrep' & Er & _).
  unfold malloc_spec in *. assert (Hsame : heap_rep s' l → live s' L).
  { intros Hr. split; [congruence|]. exists l. split; [done|]. unfold live_in, addr in *. by rewrite Er. }
  destruct ((n =? 0) || impossible_size (request_size n) n) eqn:Himp; [left; by split; [|apply Hsame]|].
  apply orb_false_iff in Himp as [_ Himp]. destruct (request_size_ok _ Hn Himp) as [Hreq Hge].
  destruct (first_fit (request_size n) l) as [[o l']|] eqn:Hff; [|left; by split; [|apply Hsame]].
  destruct (first_fit_inv _ _ _ _ Hff) as (pre & b & post & -> & Hfit & -> & ->). cbn [fst snd] in *. right.
  apply andb_true_iff in Hfit as [Hb Hle%Z.leb_le].
  destruct (place (request_size n) b) as [|y t] eqn:Ep; [unfold place in Ep; by destruct (_ <=? _)|].
  assert (Hy : b_off y = b_off b ∧ b_free y = false ∧ n ≤ b_size y ∧ ∀ x, x ∈ t → b_free x = true).
  { unfold place in Ep. destruct (_ <=? _) in Ep; simplify_eq; cbn [b_off b_free b_size]; split_and!; try done; try lia.
    - intros x ->%list_elem_of_singleton. done.
    - by intros x ?%elem_of_nil. }
  destruct Hy as (Hyo & Hyf & Hyn & Hyt). exists (b_size y). split; [done|].
  assert (Hfresh : ∀ x, x ∈ pre ++ b :: post → b_free x = false → b_off x ≠ b_off b).
  { intros x Hx Hxf E. pose proof (block_inj _ _ x b Hrep Hx ltac:(set_solver) E). congruence. }
  split.
  - apply eq_None_not_Some. intros [k (x & Hx & Hxf & Ex & _)%Hl]. apply (Hfresh x Hx Hxf). unfold addr in Ex. lia.
  - split; [congruence|]. exists (pre ++ (y :: t) ++ post). split; [done|]. unfold live_in, addr in *. rewrite Er. intros a k.
    rewrite lookup_insert_Some, Hl. rewrite <-Hyo in *. split.
    + intros [[<- <-]|[Hne (x & Hx & Hxf & -> & ->)]].
      * exists y. split_and!; try done. set_solver.
      * exists x. split_and!; try done. rewrite elem_of_app, elem_of_cons in Hx. destruct Hx as [Hx|[->|Hx]]; [set_solver|congruence|set_solver].
    + intros (x & Hx & Hxf & -> & ->). destruct (decide (x = y)) as [->|Hxy]; [by left|].
      assert (Hx' : x ∈ pre ++ b :: post).
      { rewrite !elem_of_app, elem_of_cons in *. destruct Hx as [Hx|[[Hx|Hx]|Hx]]; [by left|done| |by right; right].
        rewrite (Hyt _ Hx) in Hxf. done. }
      right. split; [|by exists x]. specialize (Hfresh x Hx' Hxf). lia.
Qed.

Lemma coalesce_in l x : b_free x = false → x ∈ coalesce l ↔ x ∈ l.
Proof.
  intros Hx. induction l as [|b l IH]; [done|]. simpl. rewrite elem_of_cons, <-IH. destruct (coalesce l) as [|y t]; [change (join b []) with [b]; by rewrite elem_of_cons|].
  cbn [join]. destruct (b_free b) eqn:Hb, (b_free y) eqn:Hy; simpl; rewrite !elem_of_cons; try done.
  split; [intros [->|?]; [done|tauto]|]. intros [->|[->|?]]; [congruence..|by right].
Qed.

(** A live block that is freed is no longer live; nothing else changes. *)
Lemma live_free s L p k : live s L → L !! p = Some k → wp (mem_free p) (λ _ s', live s' (delete p L)) s.
Proof.
  intros (Eb & l & Hrep & Hl) (b & Hb & Hbf & -> & ->)%Hl. eapply wp_mono; [by apply mem_free_run|].
  intros [] s' (Hrep' & Er & _). split; [congruence|]. exists (coalesce (mark_free (b_off b) l)). split; [done|]. unfold live_in, addr in *. rewrite Er.
  intros a n. rewrite lookup_delete_Some, Hl. split.
  - intros (Hne & x & Hx & Hxf & -> & ->). exists x. split; [|done]. apply coalesce_in; [done|]. unfold mark_free.
    apply list_elem_of_fmap. exists x. split; [|done]. destruct (Z.eqb_spec (b_off x) (b_off b)); [lia|done].
  - intros (x & Hx & Hxf & -> & ->). rewrite (coalesce_in _ _ Hxf) in Hx. apply list_elem_of_fmap in Hx as (y & -> & Hy).
    destruct (Z.eqb_spec (b_off y) (b_off b)); [done|]. split; [lia|by exists y].
Qed.

Lemma used_cons x y t : b_free x = true → b_free y = false → y ∈ x :: t ↔ y ∈ t.
Proof. intros Hx Hy. rewrite elem_of_cons. split; [intros [->|?]; [congruence|done]|by right]. Qed.

(** Shrinking is safe unless it would cut the last block of the heap. *)
Definition may_trim (s : lheap) (p new_size : Z) : Prop :=
  ∀ l b, heap_rep s l → b ∈ l → p = addr s b → b_end b = ram_end →
  request_size new_size = b_size b ∨ b_size b < request_size new_size + 24.
Lemma live_trim s L p k new_size : live s L → L !! p = Some k → 0 ≤ new_size ≤ request_size new_size →
  request_size new_size ≤ k → may_trim s p new_size →
  wp (mem_trim p new_size) (λ q s', q = p ∧ ∃ k', new_size ≤ k' ∧ live s' (<[p := k']> L)) s.
Proof.
  intros (Eb & l & Hrep & Hl) (b & Hb & Hbf & -> & ->)%Hl Hnew Hle Hmay. pose proof Hb as (pre & post & ->)%list_elem_of_split.
  destruct (focus _ _ _ _ (hr_shape _ _ Hrep)) as (_ & Ht2 & _). eapply wp_mono.
  { apply trim_run; [done..|]. intros ->. apply (Hmay _ _ Hrep Hb eq_refl). by simpl in Ht2. }
  intros q s' (-> & Hrep' & Er & _). split; [done|].
  set (n := request_size new_size) in *.
  assert (Htb : ∃ y t, trim_block n b post = y :: t ∧ b_off y = b_off b ∧ b_free y = false ∧ new_size ≤ b_size y ∧
    ∀ x, b_free x = false → x ∈ t ↔ x ∈ post).
  { unfold trim_block. destruct (Z.eqb_spec n (b_size b)); [exists b, post; split_and!; try done; lia|].
    destruct post as [|x t]; [exists b, []; split_and!; try done; lia|].
    destruct (b_free x) eqn:Hx; [|destruct (n + 24 <=? b_size b)]; eexists _, _; split_and!; try done; cbn [b_size]; try lia;
      intros y Hy; by rewrite ?used_cons by done. }
  destruct Htb as (y & t & Ey & Hyo & Hyf & Hyn & Hyt). rewrite Ey in *. exists (b_size y). split; [done|].
  split; [congruence|]. eexists. split; [exact Hrep'|]. unfold live_in, addr in *. rewrite Er. intros a k. rewrite lookup_insert_Some, Hl. split.
  - intros [[<- <-]|[Hne (x & Hx & Hxf & -> & ->)]].
    + exists y. rewrite Hyo. split_and!; try done. set_solver.
    + exists x. split; [|done]. apply elem_of_app. rewrite elem_of_cons, (Hyt _ Hxf).
      apply elem_of_app in Hx as [Hx|[->|Hx]%elem_of_cons]; [by left|done|by right; right].
  - intros (x & Hx & Hxf & -> & ->). destruct (decide (x = y)) as [->|Hxy]; [left; by rewrite Hyo|].
    right. split.
    + intros E. apply Hxy. apply (block_inj _ _ _ _ Hrep' Hx); [set_solver|lia].
    + exists x. split; [|done]. apply elem_of_app. rewrite elem_of_cons, <-(Hyt _ Hxf).
      apply elem_of_app in Hx as [Hx|[->|Hx]%elem_of_cons]; [by left|done|by right; right].
Qed.

(** What fits a block still fits it rounded up. *)
Lemma request_size_le n k : 0 ≤ n ≤ k → 12 ≤ k ≤ ram_end → k mod 4 = 0 → n ≤ request_size n ≤ k.
Proof.
  intros Hn Hk Hm. rewrite ram_end_eq in *. destruct (align_size_spec n ltac:(lia)) as [Ha Hm']. unfold request_size, MIN_SIZE_ALIGNED.
  destruct (Z.ltb_spec (LWIP_MEM_ALIGN_SIZE n) 12); [lia|]. split; [lia|]. dlia.
Qed.

#[export] Instance lheap_ok : Heaps lheap.
Proof using All.
  refine {| LwipBase.mem_malloc := mem_malloc; LwipBase.mem_free := mem_free; LwipBase.mem_trim := mem_trim;
    heap_live := live; heap_may_trim := may_trim; heap_lo := LWIP_MEM_ALIGN ram_heap; heap_hi := LWIP_MEM_ALIGN ram_heap + ram_end;
    heap_addr := live_block; heap_apart := live_apart; mem_malloc_ok := live_malloc; mem_free_ok := live_free |}.
  { destruct ram_heap_ok as [H1 H2]. rewrite ram_end_eq in *. destruct (align_spec ram_heap); lia. }
  intros s L p k n Hlive Hp Hn Hmay. assert (Hk : n ≤ request_size n ≤ k).
  { destruct (live_block _ _ _ _ Hlive Hp) as (_ & _ & _ & Hk). destruct Hlive as (_ & l & Hrep & Hl).
    apply Hl in Hp as (b & Hb & _ & _ & ->). destruct (rep_block _ _ _ Hrep Hb) as (? & _ & ? & _).
    pose proof Hb as (pre & post & ->)%list_elem_of_split.
    destruct (focus _ _ _ _ (hr_shape _ _ Hrep)) as (_ & _ & _ & _ & _ & _ & _ & _ & _ & Hm & _).
    apply request_size_le; [done| |done]. unfold b_end in *. lia. }
  by apply (live_trim s L p k n); [done|done|lia|lia|].
Defined.

(** The heap serves a request exactly when the specification, first fit, does. *)
Lemma heap_serves_first_fit s l n : heap_rep s l → 0 ≤ n < 2 ^ 32 → heap_serves s n = negb ((malloc_spec (ram s) n l).1 =? NULL).
Proof using All.
  intros Hrep Hn. destruct (proj1 (wp_run _ _ _) (malloc_run s l n Hrep Hn)) as (p & s' & E & -> & _). by apply (heap_serves_answer s n _ s').
Qed.

End live.

(** The heap starts as one free block. *)
Lemma mem_init_run s ram_heap : 0 < ram_heap → ram_heap + ram_end + 16 < 2 ^ 63 → st_used (lh_stats s) = 0 →
  wp (mem_init ram_heap) (λ _ s', heap_rep s' [Blk 0 (MEM_SIZE_ALIGNED - 12) true]) s.
Proof.
  intros H1 H2 Hu. destruct (align_spec ram_heap) as [Ha Hm]; [rewrite ram_end_eq in *; lia|].
  unfold mem_init. heap_steps. rewrite ram_end_eq in *. split; [|split; [by intros [_ []]|done]|done|exact Hu].
  split; cbn [lh_mem ram].
  - simpl. done.
  - cbn [hdrs b_off b_size b_free]. cells. done.
  - rewrite ram_end_eq. cells. done.
  - rewrite ram_end_eq. lia.
Qed.

(** Cutting the last block of the heap fails an assertion: [mem_trim] then
    never returns, although the code after it provides for that case. *)
Lemma mem_trim_last_hangs s pre b new_size : let n := request_size new_size in
  heap_rep s (pre ++ [b]) → b_free b = false → 0 ≤ new_size ≤ n → n + 24 ≤ b_size b →
  mem_trim (ram s + b_off b + SIZEOF_STRUCT_MEM) new_size s = OutOfFuel.
Proof.
  intros n Hrep Hb Hnew Hle. destruct (focus _ _ _ _ (hr_shape _ _ Hrep)) as (_ & Ht2 & _ & _ & En & _ & _ & Ho & Hs & _ & _ & He).
  pose proof (hs_ram _ _ (hr_shape _ _ Hrep)) as (Hr1 & Hr2 & Hr3). destruct (hs_end _ _ (hr_shape _ _ Hrep)) as [_ E8].
  simpl in Ht2. unfold mem_trim. fold n. rewrite ram_end_eq in *. unfold b_end in *.
  replace (impossible_size n new_size) with false
    by (symmetry; apply orb_false_iff; rewrite !Z.ltb_ge; change MEM_SIZE_ALIGNED with 128000; lia).
  unfold SIZEOF_STRUCT_MEM in *. rewrite (run_bind (gets ram) _ s (ram s) s eq_refl).
  replace ((ram s <=? ram s + b_off b + 12) && (ram s + b_off b + 12 <? ram s + 128000)) with true
    by (symmetry; apply andb_true_iff; rewrite Z.leb_le, Z.ltb_lt; lia).
  replace (ram s + b_off b + 12 - 12 - ram s) with (b_off b) by lia. rewrite (run_bind (LWIP_ASSERT true) _ s tt s eq_refl).
  rewrite (run_bind (m_next (b_off b)) _ s _ s eq_refl), En.
  replace (u32 (u32 (b_off b + 12 + b_size b - b_off b) - 12)) with (b_size b) by (rewrite (u32_small (_ - b_off b)), u32_small; lia).
  replace (n <=? b_size b) with true by (symmetry; apply Z.leb_le; lia). rewrite (run_bind (LWIP_ASSERT true) _ s tt s eq_refl).
  replace (n =? b_size b) with false by (symmetry; apply Z.eqb_neq; lia). apply hang_bind. unfold shrink_block.
  rewrite (run_bind (m_next (b_off b)) _ s _ s eq_refl), En, Ht2.
  rewrite (run_bind (m_used _) _ s (lh_mem s (128000 + 8)) s eq_refl), E8. cbn [Z.eqb].
  unfold SIZEOF_STRUCT_MEM, MIN_SIZE_ALIGNED. replace (n + 12 + 12 <=? b_size b) with true by (symmetry; apply Z.leb_le; lia).
  by apply hang_bind.
Qed.

(** ** Refinement: what a client sees of any sequence of calls *)

Inductive heap_op : Type :=
  | HMalloc (n : Z)
  | HFree (p : Z)
  | HTrim (p n : Z).
Definition run_op (op : heap_op) : comp lheap Z :=
  match op with
  | HMalloc n => mem_malloc n
  | HFree p => mem_free p;; mret 0
  | HTrim p n => mem_trim p n
  end.
Fixpoint run_ops (ops : list heap_op) : comp lheap (list Z) :=
  match ops with
  | [] => mret []
  | op :: t => r ← run_op op; rs ← run_ops t; mret (r :: rs)
  end.

(** The block in use whose data is at [off] past the start, with what is before
    and after it. *)
Fixpoint used_at (off : Z) (l : list blk) : option (list blk * blk * list blk) :=
  match l with
  | [] => None
  | b :: t =>
      if (b_off b + SIZEOF_STRUCT_MEM =? off) && negb (b_free b) then Some ([], b, t)
      else (λ '(pre, x, post), (b :: pre, x, post)) <$> used_at off t
  end.
(** One call on a list of blocks.  [None] when the client breaks its side of the
    contract: a request that is not a size, an address no block in use has, a
    block to be enlarged; and for one call the contract allows but the code
    does not survive: cutting 24 bytes or more off the last block, on which
    [mem_trim] fails an assertion and hangs ([mem_trim_last_hangs]). *)
Definition spec_op (base : Z) (op : heap_op) (l : list blk) : option (Z * list blk) :=
  match op with
  | HMalloc n => if (0 <=? n) && (n <? 2 ^ 32) then Some (malloc_spec base n l) else None
  | HFree p =>
      if p =? NULL then Some (0, l)
      else '(_, b, _) ← used_at (p - base) l; Some (0, coalesce (mark_free (b_off b) l))
  | HTrim p n =>
      '(pre, b, post) ← used_at (p - base) l;
      let k := request_size n in
      if (0 <=? n) && (n <=? k) && (k <=? b_size b) &&
         (negb (b_end b =? ram_end) || (k =? b_size b) || (b_size b <? k + 24))
      then Some (p, pre ++ trim_block k b post) else None
  end.
Fixpoint spec_ops (base : Z) (ops : list heap_op) (l : list blk) : option (list Z * list blk) :=
  match ops with
  | [] => Some ([], l)
  | op :: t => '(r, l1) ← spec_op base op l; '(rs, l2) ← spec_ops base t l1; Some (r :: rs, l2)
  end.

Lemma used_at_inv off l pre b post : used_at off l = Some (pre, b, post) →
  l = pre ++ b :: post ∧ b_free b = false ∧ b_off b + SIZEOF_STRUCT_MEM = off.
Proof.
  revert pre. induction l as [|x l IH]; intros pre; simpl; [done|].
  destruct (Z.eqb_spec (b_off x + SIZEOF_STRUCT_MEM) off); simpl.
  - destruct (b_free x) eqn:Hx; simpl; [|by intros [= <- <- <-]].
    destruct (used_at off l) as [[[p y] q]|]; simpl; [|done]. intros [= <- <- <-]. destruct (IH _ eq_refl) as (-> & ? & ?). done.
  - destruct (used_at off l) as [[[p y] q]|]; simpl; [|done]. intros [= <- <- <-]. destruct (IH _ eq_refl) as (-> & ? & ?). done.
Qed.

Lemma op_refines s l op r l' : heap_rep s l → spec_op (ram s) op l = Some (r, l') →
  wp (run_op op) (λ r' s', r' = r ∧ heap_rep s' l' ∧ ram s' = ram s) s.
Proof.
  intros Hrep. destruct op as [n|p|p n]; cbn [spec_op run_op].
  - destruct (_ && _) eqn:E; [|done]. apply andb_true_iff in E. rewrite Z.leb_le, Z.ltb_lt in E. intros [= E'].
    eapply wp_mono; [by apply malloc_run|]. rewrite E'. intros q s' (-> & H & Er & _). done.
  - destruct (Z.eqb_spec p NULL) as [->|Hp]; [intros [= <- <-]; by apply wp_bind, wp_ret, wp_ret|].
    destruct (used_at (p - ram s) l) as [[[pre b] post]|] eqn:E; [|done]. intros [= <- <-].
    destruct (used_at_inv _ _ _ _ _ E) as (-> & Hb & Ho). replace p with (ram s + b_off b + SIZEOF_STRUCT_MEM) by lia.
    apply wp_bind. eapply wp_mono; [apply mem_free_run; [done|set_solver|done]|]. intros [] s' (H1 & H2 & _). by apply wp_ret.
  - destruct (used_at (p - ram s) l) as [[[pre b] post]|] eqn:E; [|done]. cbn [mbind option_bind]. cbv zeta.
    destruct (_ && _) eqn:Ec; [|done]. intros [= <- <-].
    rewrite !andb_true_iff, !orb_true_iff, negb_true_iff, !Z.leb_le, Z.eqb_neq, Z.eqb_eq, Z.ltb_lt in Ec. destruct Ec as (((H1 & H2) & H3) & H4).
    destruct (used_at_inv _ _ _ _ _ E) as (-> & Hb & Ho). replace p with (ram s + b_off b + SIZEOF_STRUCT_MEM) by lia.
    destruct (focus _ _ _ _ (hr_shape _ _ Hrep)) as (_ & Ht2 & _).
    eapply wp_mono; [apply trim_run; [done..|]|by intros q s' (-> & K1 & K2 & _)].
    intros ->. simpl in Ht2. destruct H4 as [[?|?]|?]; [done|by left|by right].
Qed.

(** C40. The heap of lwIP refines a list of blocks that tile it: for every
    sequence of [mem_malloc], [mem_free] and [mem_trim] calls that frees and
    shrinks only blocks in use, and does not cut 24 bytes or more off the last
    block, where [mem_trim] hangs ([mem_trim_last_hangs]), each call returns, what it returns is what the
    specification says (first fit, splitting, merging with both neighbours, the
    address kept on shrinking, NULL when nothing fits), and the structures in
    memory, the lowest free block and the bytes in use stand for the blocks
    the specification ends with. *)
Theorem heap_refines s l ops rs l' : heap_rep s l → spec_ops (ram s) ops l = Some (rs, l') →
  wp (run_ops ops) (λ rs' s', rs' = rs ∧ heap_rep s' l') s.
Proof.
  revert s l rs. induction ops as [|op ops IH]; intros s l rs Hrep; cbn [spec_ops run_ops].
  - intros [= <- <-]. by apply wp_ret.
  - destruct (spec_op (ram s) op l) as [[r l1]|] eqn:E; [|done]. cbn [mbind option_bind].
    destruct (spec_ops (ram s) ops l1) as [[rs1 l2]|] eqn:E2; [|done]. intros [= <- <-].
    apply wp_bind. eapply wp_mono; [by apply (op_refines s l)|]. intros r' s1 (-> & Hrep1 & Er).
    apply wp_bind. eapply wp_mono; [apply (IH s1 l1 rs1 Hrep1); by rewrite Er|]. intros rs' s2 [-> Hrep2]. by apply wp_ret.
Qed.

(** A heap just initialised, and a run on it. *)
Definition blank : lheap := MkLheap (λ _, 0) 0 0 (MkStatsMem 0 0 0 0 0).
Definition demo_heap : lheap := match mem_init 4096 blank with Ret (_, s) => s | _ => blank end.
Lemma demo_heap_rep : heap_rep demo_heap [Blk 0 127988 true].
Proof.
  assert (H : wp (mem_init 4096) (λ _ s', heap_rep s' [Blk 0 (MEM_SIZE_ALIGNED - 12) true]) blank)
    by (apply mem_init_run; [done|reflexivity|done]).
  exact H.
Qed.
Definition demo_ops : list heap_op :=
  [HMalloc 100; HMalloc 201; HMalloc 0; HMalloc 4294967295; HMalloc 200000; HMalloc 30; HTrim 4220 150; HFree 4108; HMalloc 64; HFree 4436;
   HFree 4220; HFree 4108].
Lemma heap_refines_witness :
  heap_rep demo_heap [Blk 0 127988 true] ∧
  spec_ops (ram demo_heap) demo_ops [Blk 0 127988 true] =
    Some ([4108; 4220; 0; 0; 0; 4436; 4220; 0; 4108; 0; 0; 0], [Blk 0 127988 true]) ∧
  wp (run_ops demo_ops) (λ rs' s', rs' = [4108; 4220; 0; 0; 0; 4436; 4220; 0; 4108; 0; 0; 0] ∧ heap_rep s' [Blk 0 127988 true]) demo_heap.
Proof.
  assert (E : spec_ops (ram demo_heap) demo_ops [Blk 0 127988 true] =
    Some ([4108; 4220; 0; 0; 0; 4436; 4220; 0; 4108; 0; 0; 0], [Blk 0 127988 true])) by (vm_compute; reflexivity).
  split; [exact demo_heap_rep|split; [exact E|]].
  exact (heap_refines demo_heap _ demo_ops _ _ demo_heap_rep E).
Defined.

(** Placing and freeing again. *)
Lemma place_release size pre b post : no_adj (pre ++ b :: post) → b_free b = true → request_ok size → size ≤ b_size b →
  tiles 0 (pre ++ place size b ++ post) ram_end →
  coalesce (mark_free (b_off b) (pre ++ place size b ++ post)) = pre ++ b :: post.
Proof.
  intros Hadj Hb [Hs _] Hle Ht. transitivity (coalesce (pre ++ b :: post)); [|by apply coalesce_no_adj].
  unfold place in *. destruct (Z.leb_spec (size + 24) (b_size b)); cbn [app] in *.
  - rewrite (mark_free_at pre (Blk (b_off b) size false)) by done. cbn [b_off b_size].
    unfold coalesce. rewrite !foldr_app. f_equal. cbn [foldr]. change (foldr join [] post) with (coalesce post).
    apply heap_no_adj_app in Hadj as (_ & (Ha & Hn) & _). rewrite (coalesce_no_adj _ Hn).
    destruct b as [o k f]; cbn [b_off b_size b_free] in *. subst f.
    destruct post as [|x t]; simpl; unfold merge; simpl.
    + f_equal. f_equal. lia.
    + simpl in Ha. destruct (b_free x); [by destruct Ha|]. simpl. unfold merge. simpl. f_equal. f_equal. lia.
  - rewrite (mark_free_at pre (Blk (b_off b) (b_size b) false)) by done. destruct b as [o k f]; simpl in *. by subst f.
Qed.

(** Freeing what [mem_malloc] answered gives the heap back as it was: the
    split block is merged again, and nothing is lost. *)
Theorem mem_malloc_free s l n : heap_rep s l → 0 ≤ n < 2 ^ 32 →
  wp (p ← mem_malloc n; mem_free p) (λ _ s', heap_rep s' l) s.
Proof.
  intros Hrep Hn. apply wp_bind. eapply wp_mono; [by apply malloc_run|]. intros p s1 (-> & Hrep1 & Er & _).
  unfold malloc_spec in *. destruct (_ || impossible_size _ _) eqn:Himp; [by apply wp_ret|].
  apply orb_false_iff in Himp as [_ Himp]. destruct (request_size_ok _ Hn Himp) as [Hreq _].
  destruct (first_fit _ l) as [[o l']|] eqn:Hff; [|by apply wp_ret]. cbn [fst snd] in *.
  destruct (first_fit_inv _ _ _ _ Hff) as (pre & b & post & -> & Hfit & -> & ->). apply andb_true_iff in Hfit as [Hb Hle%Z.leb_le].
  rewrite <-Er. rewrite <-(place_release (request_size n) pre b post (hr_adj _ _ Hrep) Hb Hreq Hle (hs_tiles _ _ (hr_shape _ _ Hrep1))).
  assert (Hy : ∃ y, y ∈ place (request_size n) b ∧ b_off y = b_off b ∧ b_free y = false).
  { unfold place. destruct (_ <=? _); eexists; (split; [apply list_elem_of_here|done]). }
  destruct Hy as (y & Hy & Ey & Hyf). rewrite <-Ey. eapply wp_mono; [by apply mem_free_run; [exact Hrep1|set_solver|]|].
  by intros [] s' [H _].
Qed.
Lemma mem_malloc_free_witness :
  heap_rep demo_heap [Blk 0 127988 true] ∧ 0 ≤ 100 < 2 ^ 32 ∧
  wp (p ← mem_malloc 100; mem_free p) (λ _ s', heap_rep s' [Blk 0 127988 true]) demo_heap.
Proof.
  assert (H : 0 ≤ 100 < 2 ^ 32) by lia. split; [exact demo_heap_rep|split; [exact H|]].
  exact (mem_malloc_free demo_heap _ 100 demo_heap_rep H).
Defined.
