(* ===== verification/LwipMemp.v ===== *)
(** * LwipMemp: pools of elements of one size (core/memp.c, lwip/priv/memp_std.h)

    A pool is a stretch of memory cut into elements; the free ones are linked
    through their first word.  [mp_next] is that word of every element,
    [mp_tab] the list heads.  Where the pools lie and how large a structure is
    is up to the compiler: [memp_pools] is an argument. *)

From Stdlib Require Import ZArith Lia.
From stdpp Require Import base numbers list option functions gmap sets fin_sets relations.
From S2P Require Import Prelude LwipBase.
Open Scope Z_scope.

Record memp_desc := MkDesc { desc_size : Z; desc_num : Z; desc_base : Z }.

Record memp := MkMemp {
  mp_next : Z → Z;
  mp_tab : Z → Z;
  mp_stats : Z → stats_mem
}.

Definition set_mp_next (p v : Z) : comp memp unit :=
  modify (λ s, MkMemp (<[p := v]> (mp_next s)) (mp_tab s) (mp_stats s)).
Definition set_mp_tab (t v : Z) : comp memp unit :=
  modify (λ s, MkMemp (mp_next s) (<[t := v]> (mp_tab s)) (mp_stats s)).
Definition upd_mp_stats (t : Z) (f : stats_mem → stats_mem) : comp memp unit :=
  modify (λ s, MkMemp (mp_next s) (mp_tab s) (<[t := f (mp_stats s t)]> (mp_stats s))).

Class MempPools := memp_pools : Z → memp_desc.

Section memp.
Context `{MempPools}.

Definition memp_init_pool (t : Z) : comp memp unit :=
  let desc := memp_pools t in
  set_mp_tab t NULL;;
  loop (λ '(i, memp),
    if i <? desc_num desc then
      head ← gets (λ s, mp_tab s t);
      set_mp_next memp head;;
      set_mp_tab t memp;;
      mret (inl (i + 1, memp + desc_size desc))
    else mret (inr tt)) (0, LWIP_MEM_ALIGN (desc_base desc));;
  upd_mp_stats t (stats_set_avail (desc_num desc)).

Definition memp_init : comp memp unit := for_each 0 MEMP_MAX memp_init_pool.

Definition do_memp_malloc_pool (t : Z) : comp memp Z :=
  memp ← gets (λ s, mp_tab s t);
  if negb (memp =? NULL) then
    next ← gets (λ s, mp_next s memp);
    set_mp_tab t next;;
    LWIP_ASSERT (memp mod MEM_ALIGNMENT =? 0);;
    upd_mp_stats t (stats_inc_used 1);;
    mret memp
  else
    upd_mp_stats t stats_inc_err;;
    mret NULL.

Definition memp_malloc (type : Z) : comp memp Z :=
  if type <? MEMP_MAX then do_memp_malloc_pool type else mret NULL.

Definition do_memp_free_pool (t mem : Z) : comp memp unit :=
  LWIP_ASSERT (mem mod MEM_ALIGNMENT =? 0);;
  upd_mp_stats t (stats_dec_used 1);;
  head ← gets (λ s, mp_tab s t);
  set_mp_next mem head;;
  set_mp_tab t mem.

Definition memp_free (type mem : Z) : comp memp unit :=
  if type <? MEMP_MAX then
    if mem =? NULL then mret tt else do_memp_free_pool type mem
  else mret tt.

(** ** Elements and the free lists *)

(** The [k]th element of a pool, and all of them. *)
Definition elem (t : Z) (k : nat) : Z := LWIP_MEM_ALIGN (desc_base (memp_pools t)) + Z.of_nat k * desc_size (memp_pools t).
Definition num (t : Z) : nat := Z.to_nat (desc_num (memp_pools t)).
Definition elems (t : Z) : list Z := map (elem t) (seq 0 (num t)).
Definition region_end (t : Z) : Z := elem t (num t).
Definition pool_type (t : Z) : Prop := 0 ≤ t < MEMP_MAX.

(** What the linker guarantees: elements hold a pointer, are addressable and
    no two pools overlap. *)
Record pools_ok : Prop := PoolsOk {
  po_size : ∀ t, pool_type t → 8 ≤ desc_size (memp_pools t) < 2 ^ 16 ∧ desc_size (memp_pools t) mod 4 = 0;
  po_num : ∀ t, pool_type t → 0 ≤ desc_num (memp_pools t) < 2 ^ 16;
  po_base : ∀ t, pool_type t → 0 < desc_base (memp_pools t) < 2 ^ 63;
  po_regions : ∀ t t', pool_type t → pool_type t' → t ≠ t' →
    region_end t ≤ elem t' 0 ∨ region_end t' ≤ elem t 0
}.

(** The lists [free] of the pools' free elements. *)
Record memp_rep (s : memp) (free : Z → list Z) : Prop := MempRep {
  mr_chain : ∀ t, pool_type t → chain (mp_next s) (mp_tab s t) (free t);
  mr_nodup : ∀ t, pool_type t → NoDup (free t);
  mr_in : ∀ t x, pool_type t → x ∈ free t → x ∈ elems t;
  mr_used : ∀ t, pool_type t → st_used (mp_stats s t) = Z.of_nat (num t) - Z.of_nat (length (free t))
}.

Context (Hpools : pools_ok).

Ltac memp_steps := unfold set_mp_next, set_mp_tab, upd_mp_stats; wp_steps; cbn [mp_next mp_tab mp_stats].

Lemma elem_range t k : pool_type t → (k < num t)%nat → 0 < elem t k < 2 ^ 64 ∧ elem t k mod 4 = 0.
Proof using Hpools.
  intros Ht Hk. destruct (po_size Hpools t Ht) as [Hs Hm]. pose proof (po_num Hpools t Ht) as Hn.
  pose proof (po_base Hpools t Ht). unfold elem, num in *.
  destruct (align_spec (desc_base (memp_pools t))) as [Ha Hm']; [lia|]. split; [nia|].
  apply Z.mod_divide in Hm as [q ->]; [|done]. apply Z.mod_divide in Hm' as [q' ->]; [|done].
  replace (q' * 4 + Z.of_nat k * (q * 4)) with ((q' + Z.of_nat k * q) * 4) by lia. apply Z_mod_mult.
Qed.
Lemma elem_of_elems t x : x ∈ elems t ↔ ∃ k, (k < num t)%nat ∧ x = elem t k.
Proof.
  unfold elems. change (map ?f ?l) with (f <$> l). rewrite list_elem_of_fmap. setoid_rewrite elem_of_seq.
  split; [intros (k & -> & Hk); exists k; split; [lia|done] | intros (k & Hk & ->); exists k; split; [done|lia]].
Qed.
Lemma elems_ok t x : pool_type t → x ∈ elems t → 0 < x < 2 ^ 64 ∧ x mod 4 = 0.
Proof using Hpools. intros Ht (k & Hk & ->)%elem_of_elems. by apply elem_range. Qed.
(** Elements do not overlap. *)
Lemma elem_apart t t' k k' : pool_type t → pool_type t' → (k < num t)%nat → (k' < num t')%nat → (t, k) ≠ (t', k') →
  elem t k + desc_size (memp_pools t) ≤ elem t' k' ∨ elem t' k' + desc_size (memp_pools t') ≤ elem t k.
Proof using Hpools.
  intros Ht Ht' Hk Hk' Hne. destruct (po_size Hpools t Ht) as [Hs _], (po_size Hpools t' Ht') as [Hs' _].
  destruct (decide (t = t')) as [<-|Htt].
  - assert (k ≠ k') by (intros ->; done). unfold elem. destruct (Nat.lt_total k k') as [?|[?|?]]; [left|done|right]; nia.
  - destruct (po_regions Hpools t t' Ht Ht' Htt) as [H1|H1]; unfold region_end, elem in *; [left|right]; nia.
Qed.
Lemma po_apart t t' x : pool_type t → pool_type t' → x ∈ elems t → x ∈ elems t' → t = t'.
Proof using Hpools.
  intros Ht Ht' (k & Hk & ->)%elem_of_elems (k' & Hk' & E)%elem_of_elems.
  destruct (decide (t = t')) as [|Hne]; [done|]. destruct (po_size Hpools t Ht), (po_size Hpools t' Ht').
  destruct (elem_apart t t' k k'); try done; [congruence|lia|lia].
Qed.
Lemma elem_inj t k k' : pool_type t → elem t k = elem t k' → k = k'.
Proof using Hpools. intros Ht E. destruct (po_size Hpools t Ht) as [Hs _]. unfold elem in E. nia. Qed.
Lemma NoDup_elems t : pool_type t → NoDup (elems t).
Proof using Hpools. intros Ht. apply NoDup_fmap_2_strong; [|apply NoDup_seq]. intros k k' _ _. by apply elem_inj. Qed.
Lemma length_elems t : length (elems t) = num t.
Proof. unfold elems. by rewrite length_map, length_seq. Qed.

(** A write to an element of a pool is not seen by other free lists. *)
Lemma pool_chain_other s free t t' x v : memp_rep s free → pool_type t → pool_type t' → x ∈ elems t → t ≠ t' →
  chain (<[x := v]> (mp_next s)) (mp_tab s t') (free t').
Proof using Hpools.
  intros Hr Ht Ht' Hx Hne. apply lseg_insert; [|by apply (mr_chain _ _ Hr)].
  intros Hin. apply Hne. eapply po_apart; try done. by eapply (mr_in _ _ Hr).
Qed.

Lemma malloc_pool_spec s free t : pool_type t → memp_rep s free →
  wp (do_memp_malloc_pool t) (λ x s',
    match free t with
    | [] => x = NULL ∧ memp_rep s' free
    | y :: rest => x = y ∧ memp_rep s' (<[t := rest]> free)
    end) s.
Proof using Hpools.
  intros Ht Hr. unfold do_memp_malloc_pool. memp_steps. pose proof (mr_chain _ _ Hr t Ht) as Hc.
  rewrite (chain_null _ _ _ Hc). destruct (free t) as [|y rest] eqn:Ef; cbn [bool_decide negb]; simpl.
  - memp_steps. split; [done|]. split; try apply Hr. cbn [mp_stats]. intros t' Ht'.
    destruct (decide (t' = t)) as [->|]; [rewrite fn_lookup_insert|rewrite fn_lookup_insert_ne by done]; by apply Hr.
  - destruct Hc as (E & Hy & Hc). memp_steps.
    assert (Hye : y ∈ elems t) by (apply (mr_in _ _ Hr t y Ht); rewrite Ef; apply list_elem_of_here).
    rewrite E. destruct (elems_ok t y Ht Hye) as [_ Hm].
    apply wp_assert; [by apply Z.eqb_eq|]. cbn beta. memp_steps. split; [done|].
    pose proof (mr_nodup _ _ Hr t Ht) as Hnd. rewrite Ef in Hnd. apply NoDup_cons in Hnd as [Hyr Hnd].
    split; cbn [mp_next mp_tab mp_stats].
    + intros t' Ht'. destruct (decide (t' = t)) as [->|]; [by rewrite !fn_lookup_insert, ?E|].
      rewrite !fn_lookup_insert_ne by done. by apply Hr.
    + intros t' Ht'. destruct (decide (t' = t)) as [->|]; [by rewrite fn_lookup_insert|].
      rewrite fn_lookup_insert_ne by done. by apply Hr.
    + intros t' x Ht'. destruct (decide (t' = t)) as [->|]; [rewrite fn_lookup_insert|].
      * intros Hx. apply (mr_in _ _ Hr); [done|]. rewrite Ef. by apply list_elem_of_further.
      * rewrite fn_lookup_insert_ne by done. by apply Hr.
    + intros t' Ht'. destruct (decide (t' = t)) as [->|]; [|rewrite !fn_lookup_insert_ne by done; by apply Hr].
      rewrite !fn_lookup_insert. cbn [st_used stats_inc_used]. rewrite (mr_used _ _ Hr), Ef by done.
      assert (Hl : (length (free t) ≤ num t)%nat).
      { rewrite <-length_elems. apply submseteq_length, NoDup_submseteq; [by apply Hr|]. intros x. by apply Hr. }
      rewrite Ef in Hl. simpl in Hl. pose proof (po_num Hpools t Ht). unfold num in *.
      rewrite u32_small; simpl length; lia.
Qed.

Lemma free_pool_spec s free t x : pool_type t → memp_rep s free → x ∈ elems t → x ∉ free t →
  wp (do_memp_free_pool t x) (λ _ s', memp_rep s' (<[t := x :: free t]> free)) s.
Proof using Hpools.
  intros Ht Hr Hx Hnx. unfold do_memp_free_pool. destruct (elems_ok t x Ht Hx) as [Hx0 Hm].
  apply wp_bind, wp_assert; [by apply Z.eqb_eq|]. memp_steps.
  assert (Hl : (length (x :: free t) ≤ num t)%nat).
  { rewrite <-length_elems. apply submseteq_length, NoDup_submseteq.
    - apply NoDup_cons. split; [done|by apply Hr].
    - intros y [->|Hy]%elem_of_cons; [done|by apply Hr]. }
  split; cbn [mp_next mp_tab mp_stats].
  - intros t' Ht'. destruct (decide (t' = t)) as [->|].
    + rewrite !fn_lookup_insert. unfold chain. cbn [lseg]. split; [done|]. split; [apply pos_nonnull; lia|]. rewrite fn_lookup_insert.
      apply lseg_insert; [done|exact (mr_chain _ _ Hr t Ht)].
    + rewrite !fn_lookup_insert_ne by done. apply (pool_chain_other s free t); auto.
  - intros t' Ht'. destruct (decide (t' = t)) as [->|]; [rewrite fn_lookup_insert|rewrite fn_lookup_insert_ne by done; by apply Hr].
    apply NoDup_cons. split; [done|by apply Hr].
  - intros t' y Ht'. destruct (decide (t' = t)) as [->|]; [rewrite fn_lookup_insert|rewrite fn_lookup_insert_ne by done; by apply Hr].
    intros [->|Hy]%elem_of_cons; [done|by apply Hr].
  - intros t' Ht'. destruct (decide (t' = t)) as [->|]; [|rewrite !fn_lookup_insert_ne by done; by apply Hr].
    rewrite !fn_lookup_insert. cbn [st_used stats_dec_used length]. rewrite (mr_used _ _ Hr) by done.
    cbn [length] in Hl. pose proof (po_num Hpools t Ht). unfold num in *. rewrite u32_small; lia.
Qed.

(** ** Initialisation *)

Lemma init_pool_spec t s (done_ : Z → Prop) free :
  pool_type t → ¬ done_ t →
  (∀ t', done_ t' → pool_type t' ∧ chain (mp_next s) (mp_tab s t') (free t') ∧ ∀ x, x ∈ free t' → x ∈ elems t') →
  wp (memp_init_pool t) (λ _ s',
    (∀ t', done_ t' → chain (mp_next s') (mp_tab s' t') (free t')) ∧
    chain (mp_next s') (mp_tab s' t) (rev (elems t)) ∧
    (∀ t', t' ≠ t → mp_stats s' t' = mp_stats s t') ∧ st_used (mp_stats s' t) = st_used (mp_stats s t)) s.
Proof using Hpools.
  intros Ht Hnd Hdone. unfold memp_init_pool. apply wp_bind. memp_steps.
  pose proof (po_num Hpools t Ht) as Hn.
  eapply (wp_loop (λ '(i, p) s', 0 ≤ i ≤ desc_num (memp_pools t) ∧ p = elem t (Z.to_nat i) ∧
      (∀ t', done_ t' → chain (mp_next s') (mp_tab s' t') (free t')) ∧
      chain (mp_next s') (mp_tab s' t) (rev (map (elem t) (seq 0 (Z.to_nat i)))) ∧ mp_stats s' = mp_stats s)
    (λ '(i, _) _, desc_num (memp_pools t) - i)).
  - cbn [mp_next mp_tab mp_stats]. split; [lia|]. split; [unfold elem; lia|]. split; [|split; [|done]].
    + intros t' Ht'. rewrite fn_lookup_insert_ne by (intros ->; done). by apply Hdone.
    + by rewrite fn_lookup_insert.
  - lia.
  - intros [i p] s' (? & _). lia.
  - intros [i p] s1 (Hi & -> & Hd & Hc & Hst). destruct (Z.ltb_spec i (desc_num (memp_pools t))) as [Hlt|Hge].
    + assert (Hin : elem t (Z.to_nat i) ∈ elems t).
      { apply elem_of_elems. exists (Z.to_nat i). unfold num. split; [lia|done]. }
      memp_steps. cbn [mp_next mp_tab mp_stats]. split; [|lia]. split; [lia|].
      split; [unfold elem; rewrite !Z2Nat.id by lia; lia|]. split; [|split; [|done]].
      * intros t' Ht'. rewrite fn_lookup_insert_ne by (intros ->; done). apply lseg_insert; [|by apply Hd].
        intros Hx. apply Hnd. destruct (Hdone t' Ht') as (Hpt & _ & Hsub).
        by rewrite (po_apart t t' (elem t (Z.to_nat i)) Ht Hpt Hin (Hsub _ Hx)).
      * replace (Z.to_nat (i + 1)) with (S (Z.to_nat i)) by lia.
        rewrite seq_S, map_app, rev_app_distr. simpl. rewrite fn_lookup_insert.
        assert (Hnn : elem t (Z.to_nat i) ≠ NULL) by (apply pos_nonnull; destruct (elems_ok t _ Ht Hin); lia).
        unfold chain. cbn [lseg]. split; [done|]. split; [done|]. rewrite fn_lookup_insert.
        apply lseg_insert; [|done].
        rewrite elem_of_rev. change (map ?f ?l) with (f <$> l).
        intros (k & E & Hk)%list_elem_of_fmap. apply elem_of_seq in Hk. apply elem_inj in E; [lia|done].
    + wp_steps. assert (i = desc_num (memp_pools t)) as -> by lia. cbn [mp_next mp_tab mp_stats].
      split; [done|]. split; [done|]. rewrite Hst. split.
      * intros t' Hne. by rewrite fn_lookup_insert_ne.
      * by rewrite fn_lookup_insert.
Qed.

Lemma memp_init_spec s : (∀ t, pool_type t → st_used (mp_stats s t) = 0) →
  wp memp_init (λ _ s', memp_rep s' (λ t, rev (elems t))) s.
Proof using Hpools.
  intros H0. unfold memp_init.
  apply (wp_for_each (λ i s', (∀ t, 0 ≤ t < i → chain (mp_next s') (mp_tab s' t) (rev (elems t))) ∧
    ∀ t, pool_type t → st_used (mp_stats s' t) = 0)).
  - done.
  - split; [lia|done].
  - intros i s1 Hi [Hc Hu]. eapply wp_mono.
    + apply (init_pool_spec i s1 (λ t, 0 ≤ t < i) (λ t, rev (elems t))); [by unfold pool_type|lia|].
      intros t Ht. split; [unfold pool_type; lia|]. split; [by apply Hc|]. intros x.
      by rewrite elem_of_rev.
    + intros [] s2 (Hd & Hi2 & Hst & Hu2). split.
      * intros t Ht. destruct (decide (t = i)) as [->|]; [done|]. apply Hd. lia.
      * intros t Ht. destruct (decide (t = i)) as [->|]; [rewrite Hu2|rewrite Hst by done]; by apply Hu.
  - intros s1 [Hc Hu]. split.
    + intros t Ht. by apply Hc.
    + intros t Ht. rewrite <-Permutation_rev. by apply NoDup_elems.
    + intros t x Ht. by rewrite elem_of_rev.
    + intros t Ht. rewrite Hu, length_rev, length_elems by done. lia.
Qed.
End memp.

(** ** Any sequence of allocations and releases *)

Section ledger.
Context `{MempPools}.

(** One call from outside; [L] holds the elements handed out and not yet
    given back, with the pool they came from. *)
Inductive memp_step : memp * gset (Z * Z) → memp * gset (Z * Z) → Prop :=
  | step_malloc s L t x s' :
      pool_type t → memp_malloc t s = Ret (x, s') →
      memp_step (s, L) (s', if decide (x = NULL) then L else {[ (t, x) ]} ∪ L)
  | step_free s L t x s' :
      pool_type t → (t, x) ∈ L → memp_free t x s = Ret (tt, s') →
      memp_step (s, L) (s', L ∖ {[ (t, x) ]}).

(** Free and handed out: each element of a pool is exactly one of the two. *)
Definition ledger_ok (c : memp * gset (Z * Z)) : Prop :=
  ∃ free, memp_rep c.1 free ∧
    (∀ t x, (t, x) ∈ c.2 → pool_type t) ∧
    ∀ t x, pool_type t → (t, x) ∈ c.2 ↔ x ∈ elems t ∧ x ∉ free t.

Context (Hpools : pools_ok).

Lemma memp_malloc_spec s free t : pool_type t → memp_rep s free →
  wp (memp_malloc t) (λ x s',
    match free t with
    | [] => x = NULL ∧ memp_rep s' free
    | y :: rest => x = y ∧ memp_rep s' (<[t := rest]> free)
    end) s.
Proof using Hpools.
  intros Ht Hr. unfold memp_malloc. destruct (Z.ltb_spec t MEMP_MAX); [by apply malloc_pool_spec|].
  unfold pool_type in Ht. lia.
Qed.
Lemma memp_free_spec s free t x : pool_type t → memp_rep s free → x ∈ elems t → x ∉ free t →
  wp (memp_free t x) (λ _ s', memp_rep s' (<[t := x :: free t]> free)) s.
Proof using Hpools.
  intros Ht Hr Hx Hn. unfold memp_free. destruct (Z.ltb_spec t MEMP_MAX); [|unfold pool_type in Ht; lia].
  destruct (elems_ok Hpools t x Ht Hx). destruct (Z.eqb_spec x NULL) as [E|]; [|by apply free_pool_spec].
  unfold NULL in E. lia.
Qed.

Lemma ledger_step c c' : ledger_ok c → memp_step c c' → ledger_ok c'.
Proof using Hpools.
  intros (free & Hr & Hty & HL) Hs. destruct Hs as [s L t x s' Ht Hrun | s L t x s' Ht Hx Hrun]; cbn [fst snd] in *.
  - pose proof (wp_elim _ _ _ _ _ (memp_malloc_spec s free t Ht Hr) Hrun) as Hw. cbn beta in Hw.
    destruct (free t) as [|y rest] eqn:Ef.
    + destruct Hw as [-> Hr']. rewrite decide_True by done. by exists free.
    + destruct Hw as [-> Hr'].
      assert (Hin : y ∈ elems t) by (apply (mr_in _ _ Hr t y Ht); rewrite Ef; apply list_elem_of_here).
      rewrite decide_False by (apply pos_nonnull; destruct (elems_ok Hpools t y Ht Hin); lia).
      pose proof (mr_nodup _ _ Hr t Ht) as Hnd. rewrite Ef, NoDup_cons in Hnd. destruct Hnd as [Hny _].
      exists (<[t := rest]> free). split; [done|]. cbn [fst snd]. split; [set_solver|].
      intros t' z Ht'. rewrite elem_of_union, elem_of_singleton, HL by done.
      destruct (decide (t' = t)) as [->|]; [rewrite fn_lookup_insert, Ef|rewrite fn_lookup_insert_ne by done; set_solver].
      rewrite elem_of_cons. destruct (decide (z = y)) as [->|]; [|naive_solver]. split; [done|]. by left.
  - apply HL in Hx as [Hxe Hxf]; [|done].
    pose proof (wp_elim _ _ _ _ _ (memp_free_spec s free t x Ht Hr Hxe Hxf) Hrun) as Hw. cbn beta in Hw.
    exists (<[t := x :: free t]> free). split; [done|]. cbn [fst snd]. split; [set_solver|].
    intros t' z Ht'. rewrite elem_of_difference, elem_of_singleton, HL by done.
    destruct (decide (t' = t)) as [->|]; [rewrite fn_lookup_insert|rewrite fn_lookup_insert_ne by done; naive_solver].
    rewrite elem_of_cons. naive_solver.
Qed.

Lemma ledger_reachable c c' : ledger_ok c → rtc memp_step c c' → ledger_ok c'.
Proof using Hpools. intros Hc Hs. induction Hs as [|? ? ? Hs _ IH]; [done|]. apply IH. by eapply ledger_step. Qed.
End ledger.

(** ** The pools keep what [Pools] promises *)

Section instance.
Context `{MempPools} (Hpools : pools_ok).

Definition memp_live (s : memp) (t : Z) (L : gset Z) : Prop :=
  pool_type t ∧ ∃ free, memp_rep s free ∧ ∀ x, x ∈ L ↔ x ∈ elems t ∧ x ∉ free t.

Lemma live_perm s t (L : gset Z) free : memp_rep s free → pool_type t → (∀ x, x ∈ L ↔ x ∈ elems t ∧ x ∉ free t) →
  elems t ≡ₚ elements L ++ free t.
Proof using Hpools.
  intros Hr Ht HL. apply NoDup_Permutation; [by apply NoDup_elems| |].
  - apply NoDup_app. split; [apply NoDup_elements|]. split; [|by apply Hr].
    intros x Hx. rewrite elem_of_elements, HL in Hx. naive_solver.
  - intros x. rewrite elem_of_app, elem_of_elements, HL. pose proof (mr_in _ _ Hr t x Ht).
    destruct (decide (x ∈ free t)); naive_solver.
Qed.
Lemma live_count s t (L : gset Z) free : memp_rep s free → pool_type t → (∀ x, x ∈ L ↔ x ∈ elems t ∧ x ∉ free t) →
  (size L + length (free t) = num t)%nat.
Proof using Hpools.
  intros Hr Ht HL. pose proof (Permutation_length (live_perm s t L free Hr Ht HL)) as E.
  rewrite length_elems, length_app in E. unfold size, set_size. simpl. lia.
Qed.
Lemma live_others s s' t free free' : memp_rep s free → memp_rep s' free' → (∀ t', t' ≠ t → free' t' = free t') →
  (∀ t' L', t' ≠ t → memp_live s t' L' → memp_live s' t' L').
Proof using Hpools.
  intros Hr Hr' E t' L' Hne (Ht' & g & Hg & HL). split; [done|]. exists free'. split; [done|].
  intros x. rewrite HL, E by done. by rewrite (chain_fun _ _ _ _ (mr_chain _ _ Hg t' Ht') (mr_chain _ _ Hr t' Ht')).
Qed.

#[export] Program Instance memp_pools_ok : Pools memp := {|
  LwipBase.memp_malloc := LwipMemp.memp_malloc;
  LwipBase.memp_free := LwipMemp.memp_free;
  pool_cap := num;
  pool_size t := desc_size (memp_pools t);
  pool_live := memp_live
|}.
Next Obligation.
  intros s t L (Ht & free & Hr & HL). pose proof (live_count s t L free Hr Ht HL). lia.
Qed.
Next Obligation.
  intros s t L x (Ht & free & Hr & HL) Hx. apply HL in Hx as [Hx _].
  destruct (elems_ok Hpools t x Ht Hx) as [H1 H2]. split; [lia|]. split; [|done].
  apply elem_of_elems in Hx as (k & Hk & ->). destruct (po_size Hpools t Ht), (align_spec (desc_base (memp_pools t))).
  - pose proof (po_base Hpools t Ht). lia.
  - pose proof (po_base Hpools t Ht). pose proof (po_num Hpools t Ht). unfold elem, num in *. nia.
Qed.
Next Obligation.
  intros s t t' L L' x x' (Ht & free & Hr & HL) (Ht' & free' & Hr' & HL') Hx Hx' Hne.
  apply HL in Hx as [(k & Hk & ->)%elem_of_elems _]. apply HL' in Hx' as [(k' & Hk' & ->)%elem_of_elems _].
  apply elem_apart; try done. congruence.
Qed.
Next Obligation.
  intros s t L (Ht & free & Hr & HL). pose proof (live_count s t L free Hr Ht HL) as Hn.
  eapply wp_mono; [by apply memp_malloc_spec|]. intros x s' Hx. destruct (free t) as [|y rest] eqn:Ef; simpl in Hn.
  - destruct Hx as [-> Hr']. split; [by apply (live_others s s' t free free)|]. rewrite decide_True by lia.
    split; [done|]. split; [done|]. exists free. by rewrite Ef.
  - destruct Hx as [-> Hr']. split.
    { apply (live_others s s' t free (<[t := rest]> free)); [done|done|]. intros t' Hne. by rewrite fn_lookup_insert_ne. }
    rewrite decide_False by lia. assert (Hy : y ∈ free t) by (rewrite Ef; apply list_elem_of_here).
    pose proof (mr_in _ _ Hr t y Ht Hy) as Hye. pose proof (mr_nodup _ _ Hr t Ht) as Hnd. rewrite Ef, NoDup_cons in Hnd.
    destruct Hnd as [Hyr _]. split; [rewrite HL; intros [_ Hny]; apply Hny; apply list_elem_of_here|].
    split; [done|]. exists (<[t := rest]> free). split; [done|]. intros x.
    rewrite fn_lookup_insert, elem_of_union, elem_of_singleton, HL, elem_of_cons.
    destruct (decide (x = y)) as [->|]; naive_solver.
Qed.
Next Obligation.
  intros s t L x (Ht & free & Hr & HL) Hx. pose proof Hx as Hx'. apply HL in Hx' as [Hxe Hxf].
  eapply wp_mono; [by apply memp_free_spec|]. intros [] s' Hr'. split.
  { apply (live_others s s' t free (<[t := x :: free t]> free)); [done|done|]. intros t' Hne. by rewrite fn_lookup_insert_ne. }
  split; [done|]. exists (<[t := x :: free t]> free). split; [done|]. intros y.
  rewrite fn_lookup_insert, elem_of_difference, elem_of_singleton, HL, elem_of_cons. naive_solver.
Qed.
End instance.

(** After [memp_init] and any sequence of allocations and of releases of
    elements that are handed out, a pool's counter is the number of its elements
    that are handed out, [memp_malloc] fails exactly when that is all of them,
    and otherwise it answers an element of the pool that is not handed out. *)
Theorem memp_never_twice `{MempPools} (s0 s1 s : memp) (L : gset (Z * Z)) t :
  pools_ok → (∀ t, pool_type t → st_used (mp_stats s0 t) = 0) → memp_init s0 = Ret (tt, s1) →
  rtc memp_step (s1, ∅) (s, L) → pool_type t →
  let live := filter (λ x, (t, x) ∈ L) (elems t) in
  st_used (mp_stats s t) = Z.of_nat (length live) ∧
  wp (memp_malloc t) (λ x _,
    x = NULL ∧ live = elems t ∨ x ∈ elems t ∧ (t, x) ∉ L) s.
Proof.
  intros Hok H0 Hinit Hsteps Ht live.
  assert (Hled : ledger_ok (s, L)).
  { eapply (ledger_reachable Hok); [|exact Hsteps]. exists (λ t, rev (elems t)).
    pose proof (wp_elim _ _ _ _ _ (memp_init_spec Hok s0 H0) Hinit) as Hw.
    split; [exact Hw|]. split; [set_solver|]. intros t' x Ht'. split; [set_solver|].
    rewrite elem_of_rev. naive_solver. }
  destruct Hled as (free & Hr & Hty & HL). cbn [fst snd] in *.
  assert (Hperm : elems t ≡ₚ live ++ free t).
  { apply NoDup_Permutation; [by apply NoDup_elems| |].
    - apply NoDup_app. split; [by apply NoDup_filter, NoDup_elems|]. split; [|by apply Hr].
      intros x Hx. apply list_elem_of_filter in Hx as [Hx _]. by apply HL in Hx as [_ Hx].
    - intros x. rewrite elem_of_app. unfold live. rewrite list_elem_of_filter, HL by done.
      destruct (decide (x ∈ free t)); [|naive_solver]. pose proof (mr_in _ _ Hr t x Ht). naive_solver. }
  split.
  - rewrite (mr_used _ _ Hr) by done. apply Permutation_length in Hperm.
    rewrite length_elems, length_app in Hperm. lia.
  - eapply wp_mono; [by apply memp_malloc_spec|]. intros x s' Hx. destruct (free t) as [|y rest] eqn:Ef.
    + left. split; [by destruct Hx|]. rewrite app_nil_r in Hperm. unfold live.
      apply filter_all. intros x' Hx'. rewrite Hperm in Hx'. by apply list_elem_of_filter in Hx' as [? _].
    + right. destruct Hx as [-> _]. assert (Hy : y ∈ free t) by (rewrite Ef; apply list_elem_of_here).
      split; [by apply (mr_in _ _ Hr t y)|]. intros Hin. apply HL in Hin as [_ Hin]; [|done]. by apply Hin.
Qed.

(** Six elements in each pool, one after the other. *)
Definition demo_pools : MempPools := λ t, MkDesc 2048 6 (65536 * (t + 1)).

Lemma demo_pools_ok : @pools_ok demo_pools.
Proof.
  split; unfold memp_pools, demo_pools; cbn [desc_size desc_num desc_base].
  - intros t _. split; [lia|done].
  - lia.
  - unfold pool_type, MEMP_MAX. lia.
  - unfold pool_type, MEMP_MAX, region_end. intros t t' Ht Ht' Hne. unfold elem, num, memp_pools, demo_pools.
    cbn [desc_size desc_num desc_base].
    assert (E : ∀ t, 0 ≤ t < 10 → LWIP_MEM_ALIGN (65536 * (t + 1)) = 65536 * (t + 1)).
    { intros u Hu. apply align_id; [lia|]. apply Z.mod_divide; [done|]. exists (16384 * (u + 1)). lia. }
    rewrite !E by done. lia.
Qed.

Definition demo_memp0 : memp := MkMemp (λ _, 0) (λ _, 0) (λ _, MkStatsMem 0 0 0 0 0).
Definition demo_memp : memp :=
  match @memp_init demo_pools demo_memp0 with Ret (_, s) => s | _ => demo_memp0 end.

Lemma demo_memp_run : @memp_init demo_pools demo_memp0 = Ret (tt, demo_memp).
Proof.
  destruct (proj1 (wp_run _ _ _) (memp_init_spec demo_pools_ok demo_memp0 (λ _ _, eq_refl))) as ([] & s' & E & _).
  unfold demo_memp. by rewrite E.
Qed.

Lemma memp_never_twice_witness :
  let live := filter (λ x, (MEMP_PBUF, x) ∈ (∅ : gset (Z * Z))) (@elems demo_pools MEMP_PBUF) in
  st_used (mp_stats demo_memp MEMP_PBUF) = Z.of_nat (length live) ∧
  wp (memp_malloc MEMP_PBUF) (λ x _,
    x = NULL ∧ live = @elems demo_pools MEMP_PBUF ∨
    x ∈ @elems demo_pools MEMP_PBUF ∧ (MEMP_PBUF, x) ∉ (∅ : gset (Z * Z))) demo_memp.
Proof.
  exact (@memp_never_twice demo_pools demo_memp0 demo_memp demo_memp ∅ MEMP_PBUF demo_pools_ok
    (λ _ _, eq_refl) demo_memp_run (rtc_refl _ _) ltac:(unfold pool_type, MEMP_PBUF, MEMP_MAX; lia)).
Defined.
