(* ===== verification/LwipTimeouts.v ===== *)
(** * LwipTimeouts: the timers of lwIP (core/timeouts.c)

    Pending timeouts are elements of the pool MEMP_SYS_TIMEOUT, linked in the
    order of their due times; times are 32 bits wide and wrap.  [to_mem] gives
    the structure at an address.  The pool is any with the laws of [Pools]; the
    clock, the protocols' own timers and the state they need are arguments.
    The specification has unbounded times. *)

From Stdlib Require Import ZArith Lia.
From stdpp Require Import base numbers list option functions gmap sets fin_sets sorting.
From S2P Require Import Prelude Interfaces LwipMemp LwipBase Frame.
Open Scope Z_scope.

(** The handlers of this configuration; any other function by its address.
    The argument of [lwip_cyclic_timer] points into [lwip_cyclic_timers], and
    is modelled by the index. *)
Inductive sys_timeout_handler :=
  | lwip_cyclic_timer_fn
  | tcpip_tcp_timer_fn
  | other_fn (addr : Z)
  | null_fn.

#[export] Instance handler_eq_dec : EqDecision sys_timeout_handler.
Proof. solve_decision. Defined.

Record sys_timeo := MkTimeo {
  to_next : Z;
  to_time : Z;
  to_h : sys_timeout_handler;
  to_arg : Z
}.

Record timeos := MkTimeos {
  to_mem : Z → sys_timeo;
  next_timeout : Z;
  current_timeout_due_time : Z;
  tcpip_tcp_timer_active : Z
}.

Definition LWIP_MAX_TIMEOUT : Z := 0x7fffffff.
Definition LWIP_UINT32_MAX : Z := 0xffffffff.
Definition SYS_TIMEOUTS_SLEEPTIME_INFINITE : Z := 0xFFFFFFFF.
Definition TIME_LESS_THAN (t compare_to : Z) : bool := LWIP_MAX_TIMEOUT <? u32 (t - compare_to).

Definition TCP_TMR_INTERVAL : Z := 250.
Definition IP_TMR_INTERVAL : Z := 1000.
Definition ARP_TMR_INTERVAL : Z := 1000.
Definition DHCP_COARSE_TIMER_MSECS : Z := 60000.
Definition DHCP_FINE_TIMER_MSECS : Z := 500.
Definition AUTOIP_TMR_INTERVAL : Z := 100.

(** The intervals of [lwip_cyclic_timers]; the handlers are [tmr] below. *)
Definition lwip_cyclic_timers : list Z :=
  [TCP_TMR_INTERVAL; IP_TMR_INTERVAL; ARP_TMR_INTERVAL; DHCP_COARSE_TIMER_MSECS; DHCP_FINE_TIMER_MSECS;
   AUTOIP_TMR_INTERVAL].


Section timeouts.
Context {M K : Type} `{Pools M} `{PT : Part timeos K} `{PM : Part M K}.
Context (sys_now : comp K Z).
(** The timer functions of the protocols, by their place in the table;
    whether a TCP connection needs its timer; a handler of unknown code; the
    release of out-of-sequence segments when the packet pool has run dry. *)
Context (tmr : Z → comp K unit) (tcp_pcbs : K → bool).
Context (call_fn : Z → Z → comp K unit) (PBUF_CHECK_FREE_OOSEQ : comp K unit).

Definition timeo (p : Z) : comp K sys_timeo := gets (λ k, to_mem (part k) p).
Definition set_timeo (p : Z) (t : sys_timeo) : comp K unit :=
  modify (λ k, let s := part k in
    put_part (MkTimeos (<[p := t]> (to_mem s)) (next_timeout s) (current_timeout_due_time s) (tcpip_tcp_timer_active s)) k).
Definition set_next (p v : Z) : comp K unit :=
  t ← timeo p;
  set_timeo p (MkTimeo v (to_time t) (to_h t) (to_arg t)).
Definition set_next_timeout (v : Z) : comp K unit :=
  modify (λ k, let s := part k in
    put_part (MkTimeos (to_mem s) v (current_timeout_due_time s) (tcpip_tcp_timer_active s)) k).
Definition set_due_time (v : Z) : comp K unit :=
  modify (λ k, let s := part k in
    put_part (MkTimeos (to_mem s) (next_timeout s) v (tcpip_tcp_timer_active s)) k).
Definition set_tcp_active (v : Z) : comp K unit :=
  modify (λ k, let s := part k in
    put_part (MkTimeos (to_mem s) (next_timeout s) (current_timeout_due_time s) v) k).
Definition get_timeos : comp K timeos := gets part.

(** Link a new timeout in front of the first one that is due later. *)
Definition link_timeout (timeout abs_time : Z) : comp K unit :=
  s ← get_timeos;
  if next_timeout s =? NULL then set_next_timeout timeout
  else
    first ← timeo (next_timeout s);
    if TIME_LESS_THAN abs_time (to_time first) then
      set_next timeout (next_timeout s);;
      set_next_timeout timeout
    else
      loop (λ t,
        if t =? NULL then mret (inr tt)
        else
          tt_ ← timeo t;
          here ← (if to_next tt_ =? NULL then mret true
                  else n ← timeo (to_next tt_); mret (TIME_LESS_THAN abs_time (to_time n)));
          if (here : bool) then
            set_next timeout (to_next tt_);;
            set_next t timeout;;
            mret (inr tt)
          else mret (inl (to_next tt_))) (next_timeout s).

Definition sys_timeout_abs (abs_time : Z) (handler : sys_timeout_handler) (arg : Z) : comp K unit :=
  timeout ← in_part (memp_malloc MEMP_SYS_TIMEOUT);
  if timeout =? NULL then LWIP_ASSERT (negb (timeout =? NULL))
  else
    set_timeo timeout (MkTimeo NULL abs_time handler arg);;
    link_timeout timeout abs_time.

Definition sys_timeout (msecs : Z) (handler : sys_timeout_handler) (arg : Z) : comp K unit :=
  LWIP_ASSERT (msecs <=? LWIP_UINT32_MAX / 4);;
  now ← sys_now;
  sys_timeout_abs (u32 (now + msecs)) handler arg.

Definition tcpip_tcp_timer : comp K unit :=
  tmr 0;;
  needed ← gets tcp_pcbs;
  if (needed : bool) then sys_timeout TCP_TMR_INTERVAL tcpip_tcp_timer_fn NULL else set_tcp_active 0.

Definition tcp_timer_needed : comp K unit :=
  s ← get_timeos;
  needed ← gets tcp_pcbs;
  if (tcpip_tcp_timer_active s =? 0) && needed then
    set_tcp_active 1;;
    sys_timeout TCP_TMR_INTERVAL tcpip_tcp_timer_fn NULL
  else mret tt.

Definition lwip_cyclic_timer (arg : Z) : comp K unit :=
  interval_ms ← must (znth lwip_cyclic_timers arg);
  tmr arg;;
  now ← sys_now;
  s ← get_timeos;
  let next_timeout_time := u32 (current_timeout_due_time s + interval_ms) in
  if TIME_LESS_THAN next_timeout_time now
  then sys_timeout_abs (u32 (now + interval_ms)) lwip_cyclic_timer_fn arg
  else sys_timeout_abs next_timeout_time lwip_cyclic_timer_fn arg.

Definition sys_timeouts_init : comp K unit :=
  for_each 1 (Z.of_nat (length lwip_cyclic_timers)) (λ i,
    interval_ms ← must (znth lwip_cyclic_timers i);
    sys_timeout interval_ms lwip_cyclic_timer_fn i).

Definition sys_untimeout (handler : sys_timeout_handler) (arg : Z) : comp K unit :=
  s ← get_timeos;
  if next_timeout s =? NULL then mret tt
  else
    loop (λ '(t, prev_t),
      if t =? NULL then mret (inr tt)
      else
        tt_ ← timeo t;
        if bool_decide (to_h tt_ = handler) && (to_arg tt_ =? arg) then
          (if prev_t =? NULL then set_next_timeout (to_next tt_) else set_next prev_t (to_next tt_));;
          in_part (memp_free MEMP_SYS_TIMEOUT t);;
          mret (inr tt)
        else mret (inl (to_next tt_, t))) (next_timeout s, NULL).

(** [handler(arg)]. *)
Definition run_handler (handler : sys_timeout_handler) (arg : Z) : comp K unit :=
  match handler with
  | lwip_cyclic_timer_fn => lwip_cyclic_timer arg
  | tcpip_tcp_timer_fn => tcpip_tcp_timer
  | other_fn f => call_fn f arg
  | null_fn => mret tt
  end.

Definition sys_check_timeouts : comp K unit :=
  now ← sys_now;
  loop (λ _ : unit,
    PBUF_CHECK_FREE_OOSEQ;;
    s ← get_timeos;
    let tmptimeout := next_timeout s in
    if tmptimeout =? NULL then mret (inr tt)
    else
      t ← timeo tmptimeout;
      if TIME_LESS_THAN now (to_time t) then mret (inr tt)
      else
        set_next_timeout (to_next t);;
        set_due_time (to_time t);;
        in_part (memp_free MEMP_SYS_TIMEOUT tmptimeout);;
        run_handler (to_h t) (to_arg t);;
        mret (inl tt)) tt.

Definition sys_restart_timeouts : comp K unit :=
  s ← get_timeos;
  if next_timeout s =? NULL then mret tt
  else
    now ← sys_now;
    first ← timeo (next_timeout s);
    let base := to_time first in
    loop (λ t,
      if t =? NULL then mret (inr tt)
      else
        tt_ ← timeo t;
        set_timeo t (MkTimeo (to_next tt_) (u32 (to_time tt_ - base + now)) (to_h tt_) (to_arg tt_));;
        mret (inl (to_next tt_))) (next_timeout s).

Definition sys_timeouts_sleeptime : comp K Z :=
  s ← get_timeos;
  if next_timeout s =? NULL then mret SYS_TIMEOUTS_SLEEPTIME_INFINITE
  else
    now ← sys_now;
    first ← timeo (next_timeout s);
    if TIME_LESS_THAN (to_time first) now then mret 0
    else
      let ret := u32 (to_time first - now) in
      LWIP_ASSERT (ret <=? LWIP_MAX_TIMEOUT);;
      mret ret.
End timeouts.

(** ** The specification: pending timeouts by unbounded due time *)

Record entry := MkEntry { due : Z; e_h : sys_timeout_handler; e_arg : Z }.

(** Insertion behind the entries that are not due later. *)
Fixpoint insert_by {A} (key : A → Z) (x : A) (l : list A) : list A :=
  match l with
  | [] => [x]
  | y :: t => if key x <? key y then x :: l else y :: insert_by key x t
  end.
Abbreviation insert_due := (insert_by due).

Lemma insert_by_skip {A} (key : A → Z) x l1 l2 : Forall (λ y, key y ≤ key x) l1 →
  insert_by key x (l1 ++ l2) = l1 ++ insert_by key x l2.
Proof.
  induction 1 as [|y l1 Hy _ IH]; [done|]. cbn [app insert_by].
  destruct (Z.ltb_spec (key x) (key y)); [lia|]. by rewrite IH.
Qed.
Lemma insert_by_perm {A} (key : A → Z) x l : insert_by key x l ≡ₚ x :: l.
Proof.
  induction l as [|y l IH]; [done|]. simpl. destruct (key x <? key y); [done|].
  rewrite IH. apply perm_swap.
Qed.
Lemma insert_by_map {A B} (f : A → B) (ka : A → Z) (kb : B → Z) x l : (∀ y, kb (f y) = ka y) →
  map f (insert_by ka x l) = insert_by kb (f x) (map f l).
Proof.
  intros E. induction l as [|y l IH]; [done|]. simpl. rewrite !E. destruct (ka x <? ka y); simpl; [done|]. by rewrite IH.
Qed.
Lemma insert_by_sorted {A} (key : A → Z) x l :
  StronglySorted (λ a b, key a ≤ key b) l → StronglySorted (λ a b, key a ≤ key b) (insert_by key x l).
Proof.
  induction 1 as [|y l Hl IH Hy]; simpl; [by repeat constructor|].
  destruct (Z.ltb_spec (key x) (key y)).
  - constructor; [by constructor|]. constructor; [lia|]. eapply Forall_impl; [exact Hy|]. simpl. intros; lia.
  - constructor; [done|]. rewrite insert_by_perm. constructor; [lia|done].
Qed.

(** Comparison of wrapped times that are less than 2^31 apart. *)
Lemma time_less_than a b : - 2 ^ 31 ≤ a - b < 2 ^ 31 → TIME_LESS_THAN (u32 a) (u32 b) = (a <? b).
Proof.
  intros Hab. unfold TIME_LESS_THAN, LWIP_MAX_TIMEOUT.
  assert (E : u32 (u32 a - u32 b) = u32 (a - b)) by (unfold u32; by rewrite <-Zminus_mod).
  rewrite E. destruct (Z.ltb_spec a b).
  - replace (u32 (a - b)) with (a - b + 2 ^ 32) by (unfold u32; dlia). apply Z.ltb_lt. lia.
  - rewrite u32_small by lia. apply Z.ltb_ge. lia.
Qed.

(** Who an entry belongs to, and how often it is to run. *)
Definition entry_id (e : entry) : sys_timeout_handler * Z := (e_h e, e_arg e).
Definition interval (e : entry) : Z :=
  match e_h e with
  | lwip_cyclic_timer_fn => nth (Z.to_nat (e_arg e)) lwip_cyclic_timers 0
  | _ => TCP_TMR_INTERVAL
  end.
(** The timers there can be: one for each protocol, and TCP's on demand. *)
Definition timer_ids : list (sys_timeout_handler * Z) :=
  (tcpip_tcp_timer_fn, NULL) :: map (λ i, (lwip_cyclic_timer_fn, Z.of_nat i)) (seq 1 5).

(** The timers that are to be pending: every cyclic one, always, and TCP's while
    it is active. *)
Definition cyclic_ids : list (sys_timeout_handler * Z) := map (λ i, (lwip_cyclic_timer_fn, Z.of_nat i)) (seq 1 5).
Definition armed_ids (active : Z) : list (sys_timeout_handler * Z) :=
  if active =? 0 then cyclic_ids else (tcpip_tcp_timer_fn, NULL) :: cyclic_ids.

Record timers_ok (active : Z) (l : list entry) : Prop := TimersOk {
  to_ids : Forall (λ e, entry_id e ∈ timer_ids) l;
  to_once : NoDup (map entry_id l);
  to_tcp : active ≠ 0 ↔ (tcpip_tcp_timer_fn, NULL) ∈ map entry_id l;
  to_sorted : StronglySorted (λ e e', due e ≤ due e') l
}.

(** When a cyclic timer that fires at [N] is due again: an interval after it
    was due, or after [N] if that has passed. *)
Definition rearm (N : Z) (e : entry) : entry :=
  MkEntry (if due e + interval e <? N then N + interval e else due e + interval e) (e_h e) (e_arg e).
Definition again (N : Z) (e : entry) : entry := MkEntry (N + interval e) (e_h e) (e_arg e).

(** What happens at time [N]: while the first entry is due its timer function
    runs; cyclic timers are armed again, TCP's if it is still needed. *)
Inductive expire (N : Z) : list entry → list Z → list entry → Prop :=
  | expire_stop l : (match l with [] => True | e :: _ => N < due e end) → expire N l [] l
  | expire_cyclic e l fs l' :
      due e ≤ N → e_h e = lwip_cyclic_timer_fn →
      expire N (insert_due (rearm N e) l) fs l' → expire N (e :: l) (e_arg e :: fs) l'
  | expire_tcp e l fs l' :
      due e ≤ N → e_h e = tcpip_tcp_timer_fn →
      expire N (insert_due (again N e) l) fs l' → expire N (e :: l) (0 :: fs) l'
  | expire_tcp_end e l fs l' :
      due e ≤ N → e_h e = tcpip_tcp_timer_fn → expire N l fs l' → expire N (e :: l) (0 :: fs) l'.

Lemma entry_id_cases e : entry_id e ∈ timer_ids →
  (e_h e = tcpip_tcp_timer_fn ∧ e_arg e = 0 ∧ interval e = 250) ∨
  (e_h e = lwip_cyclic_timer_fn ∧ 1 ≤ e_arg e ≤ 5 ∧ 100 ≤ interval e ≤ 60000 ∧
   znth lwip_cyclic_timers (e_arg e) = Some (interval e)).
Proof.
  unfold entry_id, timer_ids, interval. rewrite elem_of_cons. intros [[= -> ->]|Hin]; [by left|]. right.
  change (map ?f ?l) with (f <$> l) in Hin. apply list_elem_of_fmap in Hin as (i & [= -> ->] & Hi).
  apply elem_of_seq in Hi. split; [done|]. split; [lia|].
  assert (i = 1 ∨ i = 2 ∨ i = 3 ∨ i = 4 ∨ i = 5)%nat as [->|[->|[->|[->| ->]]]] by lia; (split; [vm_compute; split; discriminate|reflexivity]).
Qed.

Lemma timers_room e l : Forall (λ e, entry_id e ∈ timer_ids) (e :: l) → NoDup (map entry_id (e :: l)) → (length l < 6)%nat.
Proof.
  intros Hi Hn. change 6%nat with (length timer_ids).
  assert (H : (length (map entry_id (e :: l)) ≤ length timer_ids)%nat).
  { apply submseteq_length, NoDup_submseteq; [done|]. intros x Hx. change (map ?f ?l) with (f <$> l) in Hx.
    apply list_elem_of_fmap in Hx as (e' & -> & He'). rewrite Forall_forall in Hi. by apply Hi. }
  rewrite length_map in H. simpl in *. lia.
Qed.

Lemma timers_replace active e e' l : timers_ok active (e :: l) → entry_id e' = entry_id e → timers_ok active (insert_due e' l).
Proof.
  intros [Hi Hn Ht Hs] E. inversion_clear Hi as [|? ? He Hl]. inversion_clear Hs as [|? ? Hs' _].
  assert (Ep : map entry_id (insert_due e' l) ≡ₚ map entry_id (e :: l)).
  { rewrite insert_by_perm. simpl. by rewrite E. }
  split.
  - rewrite insert_by_perm. constructor; [by rewrite E|done].
  - by rewrite Ep.
  - rewrite Ht. by rewrite Ep.
  - by apply insert_by_sorted.
Qed.
Lemma timers_drop_tcp active e l : timers_ok active (e :: l) → entry_id e = (tcpip_tcp_timer_fn, NULL) → timers_ok 0 l.
Proof.
  intros [Hi Hn Ht Hs] E. inversion_clear Hi. inversion_clear Hs. simpl in Hn. apply NoDup_cons in Hn as [Hne Hn].
  rewrite E in Hne. split; try done.
Qed.

Lemma rearm_due N e : entry_id e ∈ timer_ids → due e ≤ N →
  N ≤ due (rearm N e) ≤ N + interval e ∧ (due e < N ∨ N < due (rearm N e)).
Proof.
  intros Hi Hd. assert (0 < interval e) by (destruct (entry_id_cases e Hi); lia). unfold rearm. cbn [due].
  destruct (Z.ltb_spec (due e + interval e) N); lia.
Qed.

(** How much there is to do: an entry fires once more if it is due at [N]
    and at most twice if it is overdue. *)
Definition weight (N : Z) (e : entry) : nat := if due e <? N then 2 else if due e =? N then 1 else 0.
Definition work (N : Z) (l : list entry) : nat := sum_list_with (weight N) l.

Lemma weight_le N e : (weight N e ≤ 2)%nat.
Proof. unfold weight. destruct (due e <? N); [lia|]. destruct (due e =? N); lia. Qed.
Lemma work_le N l : (work N l ≤ 2 * length l)%nat.
Proof. unfold work. induction l as [|e l IH]; simpl; [lia|]. pose proof (weight_le N e). lia. Qed.
Lemma work_insert N e l : work N (insert_due e l) = (weight N e + work N l)%nat.
Proof. unfold work. by rewrite insert_by_perm. Qed.
Lemma weight_due N e : due e ≤ N → (0 < weight N e)%nat.
Proof. intros H. unfold weight. destruct (Z.ltb_spec (due e) N); [lia|]. destruct (Z.eqb_spec (due e) N); lia. Qed.
Lemma weight_rearm N e : entry_id e ∈ timer_ids → due e ≤ N → (weight N (rearm N e) < weight N e)%nat.
Proof.
  intros Hi Hd. destruct (rearm_due N e Hi Hd) as [H1 H2]. unfold weight.
  destruct (Z.ltb_spec (due (rearm N e)) N), (Z.eqb_spec (due (rearm N e)) N), (Z.ltb_spec (due e) N), (Z.eqb_spec (due e) N); lia.
Qed.
Lemma weight_again N e : entry_id e ∈ timer_ids → weight N (again N e) = 0%nat.
Proof.
  intros Hi. assert (0 < interval e) by (destruct (entry_id_cases e Hi); lia). unfold weight, again. cbn [due].
  destruct (Z.ltb_spec (N + interval e) N), (Z.eqb_spec (N + interval e) N); lia.
Qed.

(** An expired cyclic timer is pending again within an interval, and keeps
    its phase when it was not late by a whole interval. *)
Definition rearmed (N : Z) (fs : list Z) (e e' : entry) : Prop :=
  entry_id e' = entry_id e ∧
  ((N < due e ∧ e' = e) ∨
   (due e ≤ N ∧ e_arg e ∈ fs ∧ N < due e' ≤ N + interval e ∧
    (N ≤ due e + interval e → (due e' - due e) mod interval e = 0))).

Lemma interval_id e e' : entry_id e' = entry_id e → interval e' = interval e.
Proof. unfold entry_id, interval. by intros [= -> ->]. Qed.

Lemma sorted_after N e l : StronglySorted (λ e e', due e ≤ due e') (e :: l) → N < due e → Forall (λ e, N < due e) (e :: l).
Proof.
  intros Hs He. inversion_clear Hs as [|? ? _ Hl]. constructor; [done|]. eapply Forall_impl; [exact Hl|]. simpl. intros; lia.
Qed.

Lemma rearmed_step N fs e e' : entry_id e ∈ timer_ids → due e ≤ N → rearmed N fs (rearm N e) e' → rearmed N (e_arg e :: fs) e e'.
Proof.
  intros Hi Hd (Hid & Hcase). assert (Hidr : entry_id (rearm N e) = entry_id e) by done.
  rewrite (interval_id _ _ Hidr) in Hcase. assert (100 ≤ interval e) by (destruct (entry_id_cases e Hi); lia).
  destruct (rearm_due N e Hi Hd) as [Hr _]. split; [congruence|]. right. split; [done|]. split; [apply list_elem_of_here|].
  destruct Hcase as [[Hlt ->]|(Hle & _ & Hb & Hm)].
  - split; [lia|]. intros HN. unfold rearm. cbn [due]. destruct (Z.ltb_spec (due e + interval e) N); [lia|].
    replace (due e + interval e - due e) with (interval e) by lia. apply Z_mod_same_full.
  - split; [done|]. intros HN. assert (Er : due (rearm N e) = due e + interval e).
    { unfold rearm in *. cbn [due] in *. destruct (Z.ltb_spec (due e + interval e) N); lia. }
    rewrite Er in Hm. specialize (Hm ltac:(lia)).
    replace (due e' - due e) with (due e' - (due e + interval e) + 1 * interval e) by lia. by rewrite Z_mod_plus_full.
Qed.

Lemma expire_facts N l fs l' :
  expire N l fs l' → Forall (λ e, entry_id e ∈ timer_ids) l → StronglySorted (λ e e', due e ≤ due e') l →
  Forall (λ e, N < due e) l' ∧
  ∀ e, e ∈ l → e_h e = lwip_cyclic_timer_fn → ∃ e', e' ∈ l' ∧ rearmed N fs e e'.
Proof.
  induction 1 as [l Hl|e l fs l' Hd Hh Hx IH|e l fs l' Hd Hh Hx IH|e l fs l' Hd Hh Hx IH]; intros Hi Hs.
  - assert (Hall : Forall (λ e, N < due e) l) by (destruct l; [done|by apply sorted_after]). split; [done|].
    intros e He _. exists e. split; [done|]. split; [done|]. left. rewrite Forall_forall in Hall. auto.
  - inversion_clear Hi as [|? ? Hie Hil]. inversion_clear Hs as [|? ? Hsl _].
    destruct IH as [Hall IH]; [rewrite insert_by_perm; by constructor|by apply insert_by_sorted|]. split; [done|].
    intros e' He' Hh'. apply elem_of_cons in He' as [->|He'].
    + destruct (IH (rearm N e)) as (e2 & He2 & Hr); [rewrite insert_by_perm; apply list_elem_of_here|done|].
      exists e2. split; [done|]. by apply rearmed_step.
    + destruct (IH e') as (e2 & He2 & Hid & Hr); [rewrite insert_by_perm; by apply list_elem_of_further|done|].
      exists e2. split; [done|]. split; [done|]. rewrite elem_of_cons. naive_solver.
  - inversion_clear Hi as [|? ? Hie Hil]. inversion_clear Hs as [|? ? Hsl _].
    destruct IH as [Hall IH]; [rewrite insert_by_perm; by constructor|by apply insert_by_sorted|]. split; [done|].
    intros e' He' Hh'. apply elem_of_cons in He' as [->|He']; [congruence|].
    destruct (IH e') as (e2 & He2 & Hid & Hr); [rewrite insert_by_perm; by apply list_elem_of_further|done|].
    exists e2. split; [done|]. split; [done|]. rewrite elem_of_cons. naive_solver.
  - inversion_clear Hi as [|? ? Hie Hil]. inversion_clear Hs as [|? ? Hsl _]. destruct (IH Hil Hsl) as [Hall IH']. split; [done|].
    intros e' He' Hh'. apply elem_of_cons in He' as [->|He']; [congruence|].
    destruct (IH' e') as (e2 & He2 & Hid & Hr); [done|done|].
    exists e2. split; [done|]. split; [done|]. rewrite elem_of_cons. naive_solver.
Qed.

(** Nothing is due later than one of its intervals after [N]. *)
Definition soon (N : Z) (l : list entry) : Prop := Forall (λ e, due e ≤ N + interval e) l.
Lemma soon_insert N e l : due e ≤ N + interval e → soon N l → soon N (insert_due e l).
Proof. intros He Hl. unfold soon. rewrite insert_by_perm. by constructor. Qed.
Lemma soon_later N N' l : N ≤ N' → soon N l → soon N' l.
Proof. intros HN Hl. eapply Forall_impl; [exact Hl|]. simpl. intros; lia. Qed.
Lemma expire_soon N l fs l' : expire N l fs l' → Forall (λ e, entry_id e ∈ timer_ids) l → soon N l → soon N l'.
Proof.
  induction 1 as [l Hl|e l fs l' Hd Hh Hx IH|e l fs l' Hd Hh Hx IH|e l fs l' Hd Hh Hx IH]; intros Hi Hs; [done|..];
    inversion_clear Hi as [|? ? Hie Hil]; inversion_clear Hs as [|? ? Hse Hsl].
  - destruct (rearm_due N e Hie Hd) as [Hr _]. apply IH; [rewrite insert_by_perm; by constructor|apply soon_insert; [exact (proj2 Hr)|done]].
  - apply IH; [rewrite insert_by_perm; by constructor|]. apply soon_insert; [|done]. unfold again. cbn [due]. unfold interval at 2. cbn [e_h e_arg]. fold (interval e). lia.
  - by apply IH.
Qed.

(** Every cyclic timer is pending. *)
Definition cyclic_armed (l : list entry) : Prop := ∀ x, x ∈ cyclic_ids → x ∈ map entry_id l.
Lemma cyclic_perm l l' : map entry_id l ≡ₚ map entry_id l' → cyclic_armed l → cyclic_armed l'.
Proof. intros Hp Hl x Hx. rewrite <-Hp. by apply Hl. Qed.
Lemma cyclic_insert e l : cyclic_armed l → cyclic_armed (insert_due e l).
Proof. intros Hl x Hx. rewrite insert_by_perm. simpl. apply list_elem_of_further. by apply Hl. Qed.
Lemma cyclic_handler x : x ∈ cyclic_ids → x.1 = lwip_cyclic_timer_fn.
Proof. unfold cyclic_ids. change (map ?f ?l) with (f <$> l). by intros (i & -> & _)%list_elem_of_fmap. Qed.
Lemma expire_armed N l fs l' : expire N l fs l' → Forall (λ e, entry_id e ∈ timer_ids) l → StronglySorted (λ e e', due e ≤ due e') l →
  cyclic_armed l → cyclic_armed l'.
Proof.
  intros Hx Hi Hs Hc x Hin. destruct (expire_facts _ _ _ _ Hx Hi Hs) as [_ Hre]. specialize (Hc x Hin). change (map ?f ?l) with (f <$> l) in Hc |- *.
  apply list_elem_of_fmap in Hc as (e & -> & He). destruct (Hre e He) as (e' & He' & Hid & _); [exact (cyclic_handler _ Hin)|].
  apply list_elem_of_fmap. by exists e'.
Qed.
(** Exactly the timers that are to be pending are. *)
Lemma armed_exactly active l : timers_ok active l → cyclic_armed l → map entry_id l ≡ₚ armed_ids active.
Proof.
  intros [Hi Hn Ht _] Hc. apply NoDup_Permutation; [done| |].
  - unfold armed_ids. destruct (active =? 0); apply (bool_decide_unpack _); vm_compute; exact I.
  - assert (Hids : ∀ x, x ∈ map entry_id l → x ∈ timer_ids).
    { intros x Hx. change (map ?f ?l) with (f <$> l) in Hx. apply list_elem_of_fmap in Hx as (e & -> & He). rewrite Forall_forall in Hi. by apply Hi. }
    intros x. unfold armed_ids. destruct (Z.eqb_spec active 0) as [E|E].
    + split; [|apply Hc]. intros Hx. destruct (proj1 (elem_of_cons _ _ _) (Hids x Hx)) as [-> |?]; [|done]. by apply Ht in Hx.
    + rewrite elem_of_cons. split; [intros Hx; by apply elem_of_cons, Hids|]. intros [-> |Hx]; [by apply Ht|by apply Hc].
Qed.

Section facts.
Context {M K : Type} `{Pools M} `{PT : Part timeos K} `{PM : Part M K}.
Context `{AM : !Apart timeos (part (T := M) (K := K))}.
(** The clock before it is cut to 32 bits. *)
Context (clock : K → Z) `{AC1 : !Apart timeos clock}.
(** The timer functions called so far. *)
Context (fired : K → list Z) `{AF1 : !Apart timeos fired}.

Definition store (k : K) : timeos := part k.
Definition pool (k : K) : M := part k.
Definition next_of (k : K) (p : Z) : Z := to_next (to_mem (store k) p).

(** The structure at [p] holds the entry [e]. *)
Definition holds_entry (k : K) (pe : Z * entry) : Prop :=
  to_time (to_mem (store k) pe.1) = u32 (due pe.2) ∧ to_h (to_mem (store k) pe.1) = e_h pe.2 ∧
  to_arg (to_mem (store k) pe.1) = e_arg pe.2.

(** The list from [next_timeout] on. *)
Record linked (k : K) (L : list (Z * entry)) : Prop := Linked {
  lk_chain : chain (next_of k) (next_timeout (store k)) L.*1;
  lk_nodup : NoDup L.*1;
  lk_holds : Forall (holds_entry k) L
}.

Record timeo_rep (k : K) (L : list (Z * entry)) : Prop := TimeoRep {
  tr_linked : linked k L;
  tr_pool : pool_live (pool k) MEMP_SYS_TIMEOUT (list_to_set L.*1)
}.

(** What all operations here leave alone. *)
Definition same_rest (k k' : K) : Prop :=
  clock k' = clock k ∧ fired k' = fired k ∧ current_timeout_due_time (store k') = current_timeout_due_time (store k) ∧
  tcpip_tcp_timer_active (store k') = tcpip_tcp_timer_active (store k).
Lemma same_rest_trans k1 k2 k3 : same_rest k1 k2 → same_rest k2 k3 → same_rest k1 k3.
Proof. unfold same_rest. intros (? & ? & ? & ?) (? & ? & ? & ?). repeat split; congruence. Qed.

Lemma linked_mono k k' L : next_timeout (store k') = next_timeout (store k) → (∀ p, p ∈ L.*1 → to_mem (store k') p = to_mem (store k) p) →
  linked k L → linked k' L.
Proof.
  intros E Em [Hc Hn Hh]. split; [|done|].
  - rewrite E. eapply lseg_ext; [|exact Hc]. intros x Hx. unfold next_of. by rewrite Em.
  - rewrite Forall_forall in *. intros [p e] Hp. unfold holds_entry in *. cbn [fst snd] in *.
    assert (Hp' : p ∈ L.*1) by (apply list_elem_of_fmap; by exists (p, e)). rewrite Em by done. by apply (Hh (p, e)).
Qed.

Lemma wp_timeo p (Q : sys_timeo → K → Prop) k : Q (to_mem (store k) p) k → wp (timeo p) Q k.
Proof. done. Qed.

(** [set_next] changes a link and nothing else. *)
Lemma timeo_next_run p v k (Q : unit → K → Prop) :
  (∀ k', (∀ x, next_of k' x = <[p := v]> (next_of k) x) → next_timeout (store k') = next_timeout (store k) →
     (∀ pe, holds_entry k' pe ↔ holds_entry k pe) → pool k' = pool k → same_rest k k' → Q tt k') →
  wp (set_next p v) Q k.
Proof using AM AC1 AF1.
  intros HQ. unfold set_next, timeo, set_timeo. wp_steps. apply HQ.
  - intros x. unfold next_of, store. rewrite part_put. cbn [to_mem]. destruct (decide (x = p)) as [->|].
    + by rewrite !fn_lookup_insert.
    + by rewrite !fn_lookup_insert_ne.
  - unfold store. by rewrite part_put.
  - intros [x e]. unfold holds_entry, store. rewrite part_put. cbn [to_mem fst snd]. destruct (decide (x = p)) as [->|].
    + by rewrite fn_lookup_insert.
    + by rewrite fn_lookup_insert_ne.
  - unfold pool. by rewrite apart.
  - unfold same_rest, store. rewrite part_put. by rewrite !apart.
Qed.
Lemma set_head_run v k (Q : unit → K → Prop) :
  (∀ k', (∀ x, next_of k' x = next_of k x) → next_timeout (store k') = v →
     (∀ pe, holds_entry k' pe ↔ holds_entry k pe) → pool k' = pool k → same_rest k k' → Q tt k') →
  wp (set_next_timeout v) Q k.
Proof using AM AC1 AF1.
  intros HQ. unfold set_next_timeout. wp_steps. apply HQ.
  - intros x. unfold next_of, store. by rewrite part_put.
  - unfold store. by rewrite part_put.
  - intros [x e]. unfold holds_entry, store. by rewrite part_put.
  - unfold pool. by rewrite apart.
  - unfold same_rest, store. rewrite part_put. by rewrite !apart.
Qed.

Lemma linked_head k p e L : linked k ((p, e) :: L) → next_timeout (store k) = p ∧ p ≠ NULL ∧ holds_entry k (p, e).
Proof.
  intros [Hc _ Hh]. cbn [fmap list_fmap fst] in Hc. unfold chain in Hc. destruct Hc as (-> & Hp & _).
  split; [done|]. split; [done|]. by inversion Hh.
Qed.
Lemma linked_mid k L1 p e L2 : linked k (L1 ++ (p, e) :: L2) →
  p ≠ NULL ∧ holds_entry k (p, e) ∧ chain (next_of k) (next_of k p) L2.*1.
Proof.
  intros [Hc _ Hh]. rewrite fmap_app in Hc. apply lseg_app in Hc as (x & _ & -> & Hp & Hc).
  apply Forall_app in Hh as [_ Hh]. inversion Hh. done.
Qed.

(** Entries within [2 ^ 30] of a time, so that they can be compared. *)
Definition near (N : Z) (e : entry) : Prop := N - 2 ^ 30 < due e ≤ N + 2 ^ 30.
Lemma near_cmp N e e' : near N e → near N e' → TIME_LESS_THAN (u32 (due e)) (u32 (due e')) = (due e <? due e').
Proof. unfold near. intros He He'. apply time_less_than. lia. Qed.

Definition key (pe : Z * entry) : Z := due pe.2.
Abbreviation insert_linked := (insert_by key).

Lemma link_front k L q e : linked k L → q ∉ L.*1 → q ≠ NULL → holds_entry k (q, e) →
  ∀ k', (∀ x, next_of k' x = <[q := next_timeout (store k)]> (next_of k) x) → next_timeout (store k') = q →
  (∀ pe, holds_entry k' pe ↔ holds_entry k pe) → linked k' ((q, e) :: L).
Proof.
  intros [Hc Hn Hh] Hq Hq0 He k' En Eh Ehold. split.
  - cbn [fmap list_fmap fst]. rewrite Eh. unfold chain. cbn [lseg]. split; [done|]. split; [done|].
    rewrite En, fn_lookup_insert. eapply lseg_ext; [|exact Hc]. intros x Hx. rewrite En, fn_lookup_insert_ne; [done|].
    intros ->. done.
  - cbn [fmap list_fmap fst]. apply NoDup_cons. done.
  - constructor; [by apply Ehold|]. eapply Forall_impl; [exact Hh|]. intros pe. by apply Ehold.
Qed.
Lemma link_after k L1 p ep L2 q e : linked k (L1 ++ (p, ep) :: L2) → q ∉ (L1 ++ (p, ep) :: L2).*1 → q ≠ NULL → holds_entry k (q, e) →
  ∀ k', (∀ x, next_of k' x = <[p := q]> (<[q := next_of k p]> (next_of k)) x) → next_timeout (store k') = next_timeout (store k) →
  (∀ pe, holds_entry k' pe ↔ holds_entry k pe) → linked k' (L1 ++ (p, ep) :: (q, e) :: L2).
Proof.
  intros [Hc Hn Hh] Hq Hq0 He k' En Eh Ehold.
  rewrite fmap_app in *. cbn [fmap list_fmap fst] in *. rewrite not_elem_of_app, not_elem_of_cons in Hq.
  destruct Hq as (Hq1 & Hqp & Hq2). pose proof Hn as Hn'. apply NoDup_app in Hn' as (Hn1 & Hn12 & Hn2).
  apply NoDup_cons in Hn2 as [Hp2 Hn2]. split.
  - rewrite fmap_app. cbn [fmap list_fmap fst]. apply lseg_app in Hc as (x & Hc1 & -> & Hp & Hc2). apply lseg_app. exists p. split.
    + rewrite Eh. eapply lseg_ext; [|exact Hc1]. intros x Hx. rewrite En, !fn_lookup_insert_ne; [done|set_solver|set_solver].
    + cbn [lseg]. split; [done|]. split; [done|]. rewrite En, fn_lookup_insert. split; [done|]. split; [done|].
      rewrite En, fn_lookup_insert_ne, fn_lookup_insert by done. eapply lseg_ext; [|exact Hc2].
      intros x Hx. rewrite En, !fn_lookup_insert_ne; [done|set_solver|set_solver].
  - rewrite fmap_app. cbn [fmap list_fmap fst]. rewrite NoDup_app, !NoDup_cons. set_solver.
  - apply Forall_app in Hh as [Hh1 Hh2]. inversion_clear Hh2. apply Forall_app. split.
    + eapply Forall_impl; [exact Hh1|]. intros pe. by apply Ehold.
    + constructor; [by apply Ehold|]. constructor; [by apply Ehold|]. eapply Forall_impl; [eassumption|]. intros pe. by apply Ehold.
Qed.

(** The walk to the place of the new entry. *)
Abbreviation link_post k L q e := (λ (_ : unit) (k' : K),
  linked k' (insert_linked (q, e) L) ∧ pool k' = pool k ∧ same_rest k k').

Lemma insert_here L1 p ep L2 q e : Forall (λ x, key x ≤ due e) (L1 ++ [(p, ep)]) →
  (match L2 with [] => True | x :: _ => due e < key x end) →
  insert_linked (q, e) (L1 ++ (p, ep) :: L2) = L1 ++ (p, ep) :: (q, e) :: L2.
Proof.
  intros HL1 HL2. change ((p, ep) :: L2) with ([(p, ep)] ++ L2). rewrite app_assoc, insert_by_skip by done.
  rewrite <-app_assoc. simpl. do 2 f_equal. destruct L2 as [|x L2]; [done|]. simpl.
  destruct (Z.ltb_spec (key (q, e)) (key x)); [done|]. unfold key in *. simpl in *. lia.
Qed.

Lemma link_walk_run N q e L2 : ∀ L1 p ep k n,
  linked k (L1 ++ (p, ep) :: L2) → Forall (near N) (L1 ++ (p, ep) :: L2).*2 → near N e →
  q ∉ (L1 ++ (p, ep) :: L2).*1 → q ≠ NULL → holds_entry k (q, e) →
  Forall (λ x, key x ≤ due e) (L1 ++ [(p, ep)]) → (length L2 < n)%nat →
  wp (itern n (λ t,
        if t =? NULL then mret (inr tt)
        else
          tt_ ← timeo t;
          here ← (if to_next tt_ =? NULL then mret true
                  else n ← timeo (to_next tt_); mret (TIME_LESS_THAN (u32 (due e)) (to_time n)));
          if (here : bool) then
            set_next q (to_next tt_);;
            set_next t q;;
            mret (inr tt)
          else mret (inl (to_next tt_))) p)
    (λ r k', ∃ x, r = inr x ∧ link_post k (L1 ++ (p, ep) :: L2) q e x k') k.
Proof using AM AC1 AF1.
  induction L2 as [|[p2 e2] L2 IH]; intros L1 p ep k n Hl Hnear Hne Hq Hq0 Hhold Hle Hn;
    (destruct n as [|n]; [simpl in Hn; lia|]); cbn [itern]; pose proof (linked_mid _ _ _ _ _ Hl) as (Hp & _ & Hc);
    apply wp_bind; rewrite (proj2 (Z.eqb_neq _ _) Hp); unfold timeo; wp_steps; change (to_next (to_mem (part k) p)) with (next_of k p).
  - rewrite (Hc : next_of k p = NULL). rewrite Z.eqb_refl. wp_steps.
    apply timeo_next_run. intros k1 En1 Eh1 Ehold1 Ep1 Er1. wp_steps.
    apply timeo_next_run. intros k2 En2 Eh2 Ehold2 Ep2 Er2. wp_steps. exists tt. split; [done|].
    rewrite (insert_here L1 p ep []) by done. split; [|split; [congruence|by eapply same_rest_trans]].
    eapply (link_after k L1 p ep []); try done; [|congruence|].
    + intros x. rewrite En2, (Hc : next_of k p = NULL). destruct (decide (x = p)) as [->|]; [by rewrite !fn_lookup_insert|].
      rewrite !fn_lookup_insert_ne by done. rewrite En1. done.
    + intros pe. by rewrite Ehold2.
  - cbn [fmap list_fmap fst] in Hc. unfold chain in Hc. destruct Hc as (E2 & Hp2 & Hc2). rewrite E2, (proj2 (Z.eqb_neq _ _) Hp2).
    wp_steps. assert (Hh2 : holds_entry k (p2, e2)).
    { destruct Hl as [_ _ Hh]. apply Forall_app in Hh as [_ Hh]. inversion_clear Hh as [|? ? _ Hh']. by inversion_clear Hh'. }
    destruct Hh2 as [Et2 _]. cbn [fst snd] in Et2. change (part k) with (store k). rewrite Et2.
    assert (Hn2 : near N e2).
    { rewrite fmap_app, Forall_app in Hnear. destruct Hnear as [_ Hnear]. inversion_clear Hnear as [|? ? _ Hn']. by inversion_clear Hn'. }
    rewrite (near_cmp N) by done. destruct (Z.ltb_spec (due e) (due e2)) as [Hlt|Hge].
    + wp_steps.
      apply timeo_next_run. intros k1 En1 Eh1 Ehold1 Ep1 Er1. wp_steps.
      apply timeo_next_run. intros k2 En2 Eh2 Ehold2 Ep2 Er2. wp_steps. exists tt. split; [done|].
      rewrite (insert_here L1 p ep ((p2, e2) :: L2)) by done. split; [|split; [congruence|by eapply same_rest_trans]].
      eapply (link_after k L1 p ep ((p2, e2) :: L2)); try done; [|congruence|].
      * intros x. rewrite En2, E2. destruct (decide (x = p)) as [->|]; [by rewrite !fn_lookup_insert|].
        rewrite !fn_lookup_insert_ne by done. rewrite En1. done.
      * intros pe. by rewrite Ehold2.
    + wp_steps. replace (L1 ++ (p, ep) :: (p2, e2) :: L2) with ((L1 ++ [(p, ep)]) ++ (p2, e2) :: L2) in * by (by rewrite <-app_assoc).
      apply IH; try done; [|simpl in Hn; lia]. apply Forall_app. split; [done|]. by constructor; [|constructor].
Qed.

Lemma link_timeout_run N k L q e :
  linked k L → Forall (near N) L.*2 → near N e → q ∉ L.*1 → q ≠ NULL → holds_entry k (q, e) → next_of k q = NULL →
  Z.of_nat (length L) < 2 ^ 64 →
  wp (link_timeout q (u32 (due e))) (link_post k L q e) k.
Proof using AM AC1 AF1.
  intros Hl Hnear Hne Hq Hq0 Hhold Hqn Hlen. unfold link_timeout, get_timeos. wp_steps. change (part k) with (store k).
  destruct L as [|[p ep] L].
  - destruct Hl as [Hc _ _]. unfold chain in Hc. simpl in Hc. rewrite Hc, Z.eqb_refl.
    apply set_head_run. intros k1 En1 Eh1 Ehold1 Ep1 Er1. split; [|done]. simpl. split.
    + simpl. unfold chain. cbn [lseg]. split; [done|]. split; [done|]. by rewrite En1.
    + simpl. apply NoDup_cons. split; [|apply NoDup_nil_2]. apply not_elem_of_nil.
    + constructor; [by apply Ehold1|constructor].
  - destruct (linked_head _ _ _ _ Hl) as (E & Hp & Hhe). rewrite E, (proj2 (Z.eqb_neq _ _) Hp). wp_steps.
    apply wp_timeo. destruct Hhe as [Et _]. cbn [fst snd] in Et. rewrite Et.
    assert (Hnp : near N ep) by (by inversion_clear Hnear).
    rewrite (near_cmp N) by done. simpl insert_by. unfold key at 1 2. cbn [snd].
    destruct (Z.ltb_spec (due e) (due ep)) as [Hlt|Hge].
    + wp_steps. apply timeo_next_run. intros k1 En1 Eh1 Ehold1 Ep1 Er1.
      apply set_head_run. intros k2 En2 Eh2 Ehold2 Ep2 Er2.
      split; [|split; [congruence|by eapply same_rest_trans]].
      eapply (link_front k ((p, ep) :: L) q e); try done.
      * intros x. rewrite En2, En1, E. done.
      * intros pe. by rewrite Ehold2.
    + simpl in Hlen. apply (wp_loop_itern (S (length L))); [lia|].
      eapply wp_mono; [apply (link_walk_run N q e L [] p ep k); try done; [|lia]|].
      * constructor; [done|constructor].
      * intros r k' (x & -> & Hp1 & Hp2). exists x. split; [done|]. split; [|done].
        cbn [app insert_by] in Hp1. unfold key in Hp1 at 1 2. cbn [snd] in Hp1.
        destruct (Z.ltb_spec (due e) (due ep)); [lia|]. done.
Qed.

Context `{AT : !Apart M (part (T := timeos) (K := K))} `{AC2 : !Apart M clock} `{AF2 : !Apart M fired}.
Context (sys_now : comp K Z) (Hnow : ∀ k, sys_now k = Ret (u32 (clock k), k)).
Context (Hcap : pool_cap MEMP_SYS_TIMEOUT = Z.to_nat MEMP_NUM_SYS_TIMEOUT).

Lemma holds_put_pool (m : M) k pe : holds_entry (put_part m k) pe ↔ holds_entry k pe.
Proof using AT. unfold holds_entry, store. by rewrite apart. Qed.
Lemma linked_put_pool (m : M) k L : linked k L → linked (put_part m k) L.
Proof using AT. intros Hl. apply (linked_mono k); [|by intros; unfold store; rewrite apart|done]. unfold store. by rewrite apart. Qed.
Lemma same_rest_pool (m : M) k : same_rest k (put_part m k).
Proof using AT AC2 AF2. unfold same_rest, store. by rewrite !apart. Qed.

Lemma rep_size k L : timeo_rep k L → size (list_to_set (C := gset Z) L.*1) = length L ∧ (length L ≤ 6)%nat.
Proof using Hcap.
  intros [Hl Hp]. rewrite size_list_to_set by apply (lk_nodup _ _ Hl). rewrite length_fmap. split; [done|].
  pose proof (pool_cap_ok _ _ _ Hp) as H1. rewrite Hcap, size_list_to_set, length_fmap in H1 by apply (lk_nodup _ _ Hl).
  unfold MEMP_NUM_SYS_TIMEOUT in H1. lia.
Qed.

(** A new timeout, when the pool has room. *)
Lemma sys_timeout_abs_run k L e :
  timeo_rep k L → Forall (near (clock k)) L.*2 → near (clock k) e → (length L < 6)%nat →
  wp (sys_timeout_abs (u32 (due e)) (e_h e) (e_arg e))
    (λ _ k', ∃ q, timeo_rep k' (insert_linked (q, e) L) ∧ same_rest k k') k.
Proof using All.
  intros Hr Hnear Hne Hlen. pose proof Hr as [Hl Hp]. destruct (rep_size k L Hr) as [Hsz _].
  unfold sys_timeout_abs. apply wp_bind, wp_in_part. eapply wp_mono; [by apply memp_malloc_ok|].
  intros q m (_ & Hq). rewrite Hsz, Hcap in Hq. rewrite decide_False in Hq by (unfold MEMP_NUM_SYS_TIMEOUT; lia).
  destruct Hq as [Hq Hlive].
  assert (Hq0 : q ≠ NULL) by (apply pos_nonnull; apply (pool_addr _ _ _ q Hlive); set_solver).
  rewrite (proj2 (Z.eqb_neq _ _) Hq0). rewrite elem_of_list_to_set in Hq. unfold set_timeo. wp_steps.
  set (k1 := put_part _ _). assert (Hst : store k1 = MkTimeos (<[q := MkTimeo NULL (u32 (due e)) (e_h e) (e_arg e)]> (to_mem (store k)))
      (next_timeout (store k)) (current_timeout_due_time (store k)) (tcpip_tcp_timer_active (store k))).
  { unfold k1, store. by rewrite part_put, !apart. }
  assert (Hr1 : same_rest k k1).
  { unfold same_rest. rewrite Hst. split; [|split; [|done]]; unfold k1; by rewrite !apart. }
  eapply wp_mono.
  - apply (link_timeout_run (clock k) k1 L q e).
    + apply (linked_mono k); [by rewrite Hst| |done]. intros p Hpin. rewrite Hst. cbn [to_mem].
      apply fn_lookup_insert_ne. intros ->. done.
    + done.
    + done.
    + done.
    + done.
    + unfold holds_entry. rewrite Hst. cbn [to_mem fst snd]. by rewrite fn_lookup_insert.
    + unfold next_of. rewrite Hst. cbn [to_mem]. by rewrite fn_lookup_insert.
    + lia.
  - intros [] k' (Hl' & Ep & Er). exists q. split; [|by eapply same_rest_trans]. split; [done|].
    rewrite Ep. assert (Epool : pool k1 = m).
    { unfold k1, pool. rewrite (apart (f := part (T := M))). by rewrite part_put. }
    rewrite Epool. replace (list_to_set (insert_linked (q, e) L).*1) with ({[ q ]} ∪ list_to_set L.*1 : gset Z); [done|].
    apply leibniz_equiv. rewrite (insert_by_perm key (q, e) L). simpl. done.
Qed.

(** A timer function of a protocol: it neither touches the timeouts nor
    takes time, and running it is recorded. *)
Definition runs (fs : list Z) (m : comp K unit) : Prop := ∀ k L,
  pool_live (pool k) MEMP_SYS_TIMEOUT L →
  wp m (λ _ k', store k' = store k ∧ clock k' = clock k ∧ fired k' = fired k ++ fs ∧
    pool_live (pool k') MEMP_SYS_TIMEOUT L) k.

Lemma rep_keeps k k' L : timeo_rep k L → next_timeout (store k') = next_timeout (store k) → to_mem (store k') = to_mem (store k) →
  pool_live (pool k') MEMP_SYS_TIMEOUT (list_to_set L.*1) → timeo_rep k' L.
Proof. intros [Hl Hp] E1 E2 Hp'. split; [|done]. apply (linked_mono k); [done|by intros; rewrite E2|done]. Qed.

Context (tmr : Z → comp K unit) (tcp_pcbs : K → bool).
Context (Htmr : ∀ i, runs [i] (tmr i)).

(** After a timer function has run, the timer is armed again. *)
Lemma run_then_arm k L i e (arm : comp K unit) :
  timeo_rep k L → Forall (near (clock k)) L.*2 → near (clock k) e → (length L < 6)%nat →
  (∀ k1, clock k1 = clock k → store k1 = store k → arm k1 = sys_timeout_abs (u32 (due e)) (e_h e) (e_arg e) k1) →
  wp (tmr i;; arm) (λ _ k', ∃ q, timeo_rep k' (insert_linked (q, e) L) ∧ clock k' = clock k ∧ fired k' = fired k ++ [i] ∧
    tcpip_tcp_timer_active (store k') = tcpip_tcp_timer_active (store k)) k.
Proof using All.
  intros Hr Hnear Hne Hlen Harm. apply wp_bind. eapply wp_mono; [apply Htmr; apply Hr|].
  intros [] k1 (Es & Ec & Ef & Hp1). assert (Hr1 : timeo_rep k1 L) by (apply (rep_keeps k); rewrite ?Es; done).
  assert (Hw : wp (sys_timeout_abs (u32 (due e)) (e_h e) (e_arg e))
      (λ _ k', ∃ q, timeo_rep k' (insert_linked (q, e) L) ∧ same_rest k1 k') k1).
  { apply sys_timeout_abs_run; rewrite ?Ec; done. }
  unfold wp in *. rewrite Harm by done. destruct (sys_timeout_abs _ _ _ k1) as [[[] k2]| |]; [|done..].
  destruct Hw as (q & Hr2 & Ec2 & Ef2 & _ & Ea2). exists q. split; [done|]. rewrite Ec2, Ef2, Ea2, Es. done.
Qed.

Lemma near_rearm N e : entry_id e ∈ timer_ids → near N e → due e ≤ N → near N (rearm N e) ∧ near N (again N e).
Proof.
  intros Hi Hn Hd. destruct (rearm_due N e Hi Hd) as [H1 _].
  assert (100 ≤ interval e ≤ 60000) by (destruct (entry_id_cases e Hi); lia). unfold near in *. cbn [again due]. lia.
Qed.

Lemma run_cyclic k L e :
  timeo_rep k L → Forall (near (clock k)) L.*2 → near (clock k) e → (length L < 6)%nat →
  entry_id e ∈ timer_ids → e_h e = lwip_cyclic_timer_fn → due e ≤ clock k →
  current_timeout_due_time (store k) = u32 (due e) →
  wp (lwip_cyclic_timer sys_now tmr (e_arg e)) (λ _ k', ∃ q, timeo_rep k' (insert_linked (q, rearm (clock k) e) L) ∧
    clock k' = clock k ∧ fired k' = fired k ++ [e_arg e] ∧
    tcpip_tcp_timer_active (store k') = tcpip_tcp_timer_active (store k)) k.
Proof using All.
  intros Hr Hnear Hne Hlen Hi Hh Hd Ed. destruct (near_rearm (clock k) e Hi Hne Hd) as [Hnr _].
  destruct (entry_id_cases e Hi) as [(Hh' & _)|(_ & Ha & Hint & Hz)]; [congruence|].
  unfold lwip_cyclic_timer. apply wp_bind. rewrite Hz. apply wp_ret. cbn beta.
  apply (run_then_arm k L (e_arg e) (rearm (clock k) e)); try done.
  intros k1 Ec Es. rewrite (run_bind _ _ _ _ _ (Hnow k1)). unfold get_timeos. rewrite (run_bind (gets part) _ k1 (store k1) k1 eq_refl).
  cbv zeta. rewrite Es, Ed, Ec. assert (E : u32 (u32 (due e) + interval e) = u32 (due e + interval e)) by (unfold u32; by rewrite Zplus_mod_idemp_l).
  rewrite E. rewrite time_less_than by (unfold near in Hne; lia). unfold rearm. rewrite <-Hh.
  destruct (due e + interval e <? clock k); cbn [due e_h e_arg]; [|done].
  unfold u32. by rewrite Zplus_mod_idemp_l.
Qed.

Lemma sys_timeout_run k L msecs h arg :
  timeo_rep k L → Forall (near (clock k)) L.*2 → 0 ≤ msecs < 2 ^ 30 → (length L < 6)%nat →
  wp (sys_timeout sys_now msecs h arg)
    (λ _ k', ∃ q, timeo_rep k' (insert_linked (q, MkEntry (clock k + msecs) h arg) L) ∧ same_rest k k') k.
Proof using All.
  intros Hr Hnear Hm Hlen. unfold sys_timeout. apply wp_bind, wp_assert.
  { apply Z.leb_le. unfold LWIP_UINT32_MAX. change (0xffffffff / 4) with (2 ^ 30 - 1). lia. }
  apply wp_bind. unfold wp at 1. rewrite Hnow.
  assert (E : u32 (u32 (clock k) + msecs) = u32 (clock k + msecs)) by (unfold u32; by rewrite Zplus_mod_idemp_l).
  rewrite E. apply (sys_timeout_abs_run k L (MkEntry (clock k + msecs) h arg)); try done. unfold near. cbn [due]. lia.
Qed.

Lemma run_tcp_again k L e :
  timeo_rep k L → Forall (near (clock k)) L.*2 → (length L < 6)%nat → entry_id e = (tcpip_tcp_timer_fn, NULL) →
  wp (sys_timeout sys_now TCP_TMR_INTERVAL tcpip_tcp_timer_fn NULL)
    (λ _ k', ∃ q, timeo_rep k' (insert_linked (q, again (clock k) e) L) ∧ same_rest k k') k.
Proof using All.
  intros Hr Hnear Hlen He. injection He as Eh Ea.
  eapply wp_mono; [by apply sys_timeout_run|]. intros [] k' (q & Hq & Hs). exists q. split; [|done].
  replace (again (clock k) e) with (MkEntry (clock k + TCP_TMR_INTERVAL) tcpip_tcp_timer_fn NULL); [done|].
  unfold again, interval. by rewrite Eh, Ea.
Qed.

Lemma run_tcp k L e :
  timeo_rep k L → Forall (near (clock k)) L.*2 → (length L < 6)%nat → entry_id e = (tcpip_tcp_timer_fn, NULL) →
  wp (tcpip_tcp_timer sys_now tmr tcp_pcbs) (λ _ k', clock k' = clock k ∧ fired k' = fired k ++ [0] ∧
    ((∃ q, timeo_rep k' (insert_linked (q, again (clock k) e) L) ∧
        tcpip_tcp_timer_active (store k') = tcpip_tcp_timer_active (store k)) ∨
     (timeo_rep k' L ∧ tcpip_tcp_timer_active (store k') = 0))) k.
Proof using All.
  intros Hr Hnear Hlen He. unfold tcpip_tcp_timer. apply wp_bind. eapply wp_mono; [apply Htmr; apply Hr|].
  intros [] k1 (Es & Ec & Ef & Hp1). assert (Hr1 : timeo_rep k1 L) by (apply (rep_keeps k); rewrite ?Es; done). wp_steps.
  destruct (tcp_pcbs k1).
  - eapply wp_mono; [apply (run_tcp_again k1 L e); rewrite ?Ec; done|].
    intros [] k2 (q & Hr2 & Ec2 & Ef2 & _ & Ea2). rewrite Ec2, Ef2, Ec, Ef. split; [done|]. split; [done|]. left.
    exists q. rewrite Ec in Hr2. split; [done|]. by rewrite Ea2, Es.
  - unfold set_tcp_active. wp_steps. set (k2 := put_part _ _).
    assert (Hs : store k2 = MkTimeos (to_mem (store k1)) (next_timeout (store k1)) (current_timeout_due_time (store k1)) 0).
    { unfold store, k2. by rewrite part_put. }
    split; [unfold k2; by rewrite apart|]. split; [unfold k2; by rewrite apart|]. right. rewrite Hs. split; [|done].
    apply (rep_keeps k1); rewrite ?Hs; try done. unfold pool, k2. by rewrite apart.
Qed.

(** Unlinking the first timeout and giving its structure back. *)
Lemma pop_run k p e L : timeo_rep k ((p, e) :: L) →
  wp (set_next_timeout (to_next (to_mem (store k) p));;
      set_due_time (to_time (to_mem (store k) p));;
      in_part (memp_free MEMP_SYS_TIMEOUT p))
    (λ _ k', timeo_rep k' L ∧ clock k' = clock k ∧ fired k' = fired k ∧
      current_timeout_due_time (store k') = u32 (due e) ∧
      tcpip_tcp_timer_active (store k') = tcpip_tcp_timer_active (store k)) k.
Proof using All.
  intros [Hl Hp]. unfold set_next_timeout, set_due_time. wp_steps. apply wp_in_part.
  set (k1 := put_part _ (put_part _ k)).
  assert (Hs : store k1 = MkTimeos (to_mem (store k)) (next_of k p) (to_time (to_mem (store k) p)) (tcpip_tcp_timer_active (store k))).
  { unfold store, k1. by rewrite !part_put. }
  assert (Epool : pool k1 = pool k) by (unfold pool, k1; by rewrite !apart). change (part k1) with (pool k1). rewrite Epool.
  eapply wp_mono; [apply (memp_free_ok _ _ _ p Hp); set_solver|]. intros [] m (_ & Hm).
  set (k2 := put_part m k1). assert (Hs2 : store k2 = store k1) by (unfold store, k2; by rewrite apart).
  destruct Hl as [Hc Hn Hh]. cbn [fmap list_fmap fst] in *. unfold chain in Hc. destruct Hc as (Hc0 & Hp0 & Hc).
  apply NoDup_cons in Hn as [Hnp Hn]. inversion_clear Hh as [|? ? He HhL].
  split.
  - split.
    + apply (linked_mono k1); [by rewrite Hs2|by rewrite Hs2|]. split; [|done|].
      * rewrite Hs. cbn [next_timeout]. eapply lseg_ext; [|exact Hc]. intros x _. unfold next_of. by rewrite Hs.
      * eapply Forall_impl; [exact HhL|]. intros pe. unfold holds_entry. by rewrite Hs.
    + unfold pool, k2. rewrite part_put. replace (list_to_set L.*1 : gset Z) with (list_to_set (p :: L.*1) ∖ {[ p ]} : gset Z); [done|].
      set_solver.
  - rewrite Hs2, Hs. cbn [current_timeout_due_time tcpip_tcp_timer_active]. unfold k2, k1. rewrite !apart.
    split; [done|]. split; [done|]. split; [apply He|done].
Qed.

Context (call_fn : Z → Z → comp K unit) (PBUF_CHECK_FREE_OOSEQ : comp K unit).
Context (Hooseq : runs [] PBUF_CHECK_FREE_OOSEQ).

(** The list after the handler of [e] has run, and the expiry it is a step of. *)
Definition step_to (N : Z) (active active' : Z) (e : entry) (l l' : list entry) (i : Z) : Prop :=
  timers_ok active' l' ∧ Forall (near N) l' ∧ (work N l' < work N (e :: l))%nat ∧
  ∀ fs l'', expire N l' fs l'' → expire N (e :: l) (i :: fs) l''.

Lemma map_snd_insert q e (L : list (Z * entry)) : (insert_linked (q, e) L).*2 = insert_due e L.*2.
Proof. change ((insert_linked (q, e) L).*2) with (map snd (insert_linked (q, e) L)). by rewrite (insert_by_map snd key due). Qed.

Lemma near_insert N e l : near N e → Forall (near N) l → Forall (near N) (insert_due e l).
Proof. intros He Hl. rewrite insert_by_perm. by constructor. Qed.

Lemma run_handler_run k L e :
  timeo_rep k L → timers_ok (tcpip_tcp_timer_active (store k)) (e :: L.*2) → Forall (near (clock k)) (e :: L.*2) →
  due e ≤ clock k → current_timeout_due_time (store k) = u32 (due e) →
  wp (run_handler sys_now tmr tcp_pcbs call_fn (e_h e) (e_arg e)) (λ _ k', ∃ L' i, timeo_rep k' L' ∧ clock k' = clock k ∧
    fired k' = fired k ++ [i] ∧
    step_to (clock k) (tcpip_tcp_timer_active (store k)) (tcpip_tcp_timer_active (store k')) e L.*2 L'.*2 i) k.
Proof using All.
  intros Hr Hok Hnear Hd Ed. inversion_clear Hnear as [|? ? Hne HnL]. pose proof (to_ids _ _ Hok) as Hids.
  inversion_clear Hids as [|? ? Hi HiL]. destruct (near_rearm (clock k) e Hi Hne Hd) as [Hnr Hna].
  assert (Hroom : (length L < 6)%nat).
  { pose proof (timers_room e L.*2 (to_ids _ _ Hok) (to_once _ _ Hok)) as H1. by rewrite length_fmap in H1. }
  destruct (entry_id_cases e Hi) as [(Hh & Ha & _)|(Hh & _)]; rewrite Hh; unfold run_handler.
  - assert (Hid : entry_id e = (tcpip_tcp_timer_fn, NULL)) by (unfold entry_id; by rewrite Hh, Ha).
    eapply wp_mono; [by apply run_tcp|]. intros [] k' (Ec & Ef & [(q & Hr' & Ea)|[Hr' Ea]]).
    + exists (insert_linked (q, again (clock k) e) L), 0. split; [done|]. split; [done|]. split; [done|].
      unfold step_to. rewrite map_snd_insert, Ea, work_insert, weight_again by done. split; [by eapply timers_replace|].
      split; [by apply near_insert|]. split; [pose proof (weight_due _ _ Hd); unfold work; simpl; lia|].
      intros fs l'' Hx. by apply expire_tcp.
    + exists L, 0. split; [done|]. split; [done|]. split; [done|]. unfold step_to. rewrite Ea.
      split; [by eapply timers_drop_tcp|]. split; [done|]. split; [pose proof (weight_due _ _ Hd); unfold work; simpl; lia|].
      intros fs l'' Hx. by apply expire_tcp_end.
  - eapply wp_mono; [by apply run_cyclic|]. intros [] k' (q & Hr' & Ec & Ef & Ea).
    exists (insert_linked (q, rearm (clock k) e) L), (e_arg e). split; [done|]. split; [done|]. split; [done|].
    unfold step_to. rewrite map_snd_insert, Ea, work_insert. pose proof (weight_rearm (clock k) e Hi Hd).
    split; [by eapply timers_replace|]. split; [by apply near_insert|]. split; [unfold work in *; simpl; lia|].
    intros fs l'' Hx. by apply expire_cyclic.
Qed.

(** What holds after [sys_check_timeouts]. *)
Definition checked (k : K) (L : list (Z * entry)) (k' : K) : Prop :=
  ∃ L' fs, timeo_rep k' L' ∧ timers_ok (tcpip_tcp_timer_active (store k')) L'.*2 ∧ Forall (near (clock k)) L'.*2 ∧
    clock k' = clock k ∧ fired k' = fired k ++ fs ∧ expire (clock k) L.*2 fs L'.*2.

Lemma check_run k L :
  timeo_rep k L → timers_ok (tcpip_tcp_timer_active (store k)) L.*2 → Forall (near (clock k)) L.*2 →
  wp (sys_check_timeouts sys_now tmr tcp_pcbs call_fn PBUF_CHECK_FREE_OOSEQ) (λ _ k', checked k L k') k.
Proof using All.
  intros Hr Hok Hnear. unfold sys_check_timeouts. apply wp_bind. unfold wp at 1. rewrite Hnow. set (N := clock k) in *.
  apply (wp_loop_ghost (λ L1 (_ : unit) k1, timeo_rep k1 L1 ∧ timers_ok (tcpip_tcp_timer_active (store k1)) L1.*2 ∧
      Forall (near N) L1.*2 ∧ clock k1 = N ∧
      ∃ fs, fired k1 = fired k ++ fs ∧ ∀ fs' l', expire N L1.*2 fs' l' → expire N L.*2 (fs ++ fs') l')
    (λ L1, work N L1.*2) _ _ L).
  - split; [done|]. split; [done|]. split; [done|]. split; [done|]. exists []. by rewrite app_nil_r.
  - pose proof (work_le N L.*2). destruct (rep_size k L Hr). rewrite length_fmap in *. lia.
  - clear Hr Hok Hnear. intros L1 [] k1 (Hr & Hok & Hnear & Ec & fs & Ef & Hex).
    apply wp_bind. eapply wp_mono; [apply Hooseq; apply Hr|]. intros [] k2 (Es2 & Ec2 & Ef2 & Hp2).
    assert (Hr2 : timeo_rep k2 L1) by (apply (rep_keeps k1); rewrite ?Es2; done). rewrite app_nil_r in Ef2.
    rewrite <-Es2 in Hok. rewrite <-Ec2 in Ec. rewrite <-Ef2 in Ef. clear k1 Hr Es2 Ec2 Ef2 Hp2.
    unfold get_timeos. wp_steps. change (part k2) with (store k2). cbv zeta.
    destruct L1 as [|[p e] L1].
    + destruct Hr2 as [[Hc _ _] Hp]. unfold chain in Hc. simpl in Hc. rewrite Hc, Z.eqb_refl. wp_steps.
      exists [], fs. split; [split; [split; [done|apply NoDup_nil_2|constructor]|done]|]. split; [done|]. split; [done|]. split; [done|].
      split; [done|]. rewrite <-(app_nil_r fs). apply Hex. by constructor.
    + destruct (linked_head k2 p e L1 (tr_linked _ _ Hr2)) as (Eh & Hp0 & Hhold & Hhh & Hha). cbn [fst snd] in Hhold, Hhh, Hha.
      rewrite Eh, (proj2 (Z.eqb_neq _ _) Hp0). apply wp_bind, wp_timeo. rewrite Hhold.
      assert (Hne : near N e) by (by inversion_clear Hnear).
      rewrite time_less_than by (unfold near in Hne; lia). destruct (Z.ltb_spec N (due e)) as [Hlt|Hge].
      * wp_steps. exists ((p, e) :: L1), fs. split; [done|]. split; [done|]. split; [done|]. split; [done|]. split; [done|].
        rewrite <-(app_nil_r fs). apply Hex. by constructor.
      * pose proof (pop_run k2 p e L1 Hr2) as Hpop. rewrite Hhold in Hpop.
        match goal with |- wp (?a ≫= λ _, ?b ≫= λ _, ?c ≫= ?d) ?Q k2 =>
          change (wp (a;; b;; c ≫= d) Q k2); assert (Hassoc : wp (a;; b;; c) (λ _ k3, wp (d tt) Q k3) k2 → wp (a;; b;; c ≫= d) Q k2) end.
        { unfold wp, mbind, comp_bind. destruct (set_next_timeout _ k2) as [[[] k3]| |]; [|done..].
          destruct (set_due_time _ k3) as [[[] k4]| |]; [|done..]. by destruct (in_part _ k4) as [[[] k5]| |]. }
        apply Hassoc. eapply wp_mono; [exact Hpop|]. intros [] k3 (Hr3 & Ec3 & Ef3 & Ed3 & Ea3). cbn beta.
        apply wp_bind. rewrite <-Ea3 in Hok. rewrite <-Ec in Hnear, Hge. rewrite <-Ec3 in Hnear, Hge.
        rewrite Hhh, Hha. eapply wp_mono; [by apply (run_handler_run k3 L1 e)|].
        intros [] k4 (L' & i & Hr4 & Ec4 & Ef4 & Hok4 & Hnear4 & Hwork & Hex4). wp_steps. rewrite Ec3, Ec in *.
        exists L'. split; [|done]. split; [done|]. split; [done|]. split; [done|]. split; [done|].
        exists (fs ++ [i]). split; [by rewrite Ef4, Ef3, Ef, <-app_assoc|]. intros fs' l' Hx. rewrite <-app_assoc. simpl.
        by apply Hex, Hex4.
Qed.

(** ** Boot, and starting TCP's timer *)

Definition boot_entry (N i : Z) : entry := MkEntry (N + nth (Z.to_nat i) lwip_cyclic_timers 0) lwip_cyclic_timer_fn i.

Lemma boot_interval i : 1 ≤ i < 6 → ∃ ms, znth lwip_cyclic_timers i = Some ms ∧ nth (Z.to_nat i) lwip_cyclic_timers 0 = ms ∧ 0 ≤ ms < 2 ^ 30.
Proof.
  intros Hi. assert (i = 1 ∨ i = 2 ∨ i = 3 ∨ i = 4 ∨ i = 5) as [->|[->|[->|[->| ->]]]] by lia;
    (eexists; split; [reflexivity|split; [reflexivity|vm_compute; split; [discriminate|reflexivity]]]).
Qed.

Lemma boot_later N : Forall (λ e, N < due e) (map (λ i, boot_entry N (Z.of_nat i)) (seq 1 5)).
Proof.
  cbn [seq map]. repeat constructor; unfold boot_entry; cbn [due];
    match goal with |- context [nth ?a ?b ?c] => let v := eval vm_compute in (nth a b c) in change (nth a b c) with v end; lia.
Qed.

Lemma timers_boot_ok N l : l ≡ₚ map (λ i, boot_entry N (Z.of_nat i)) (seq 1 5) → StronglySorted (λ e e', due e ≤ due e') l →
  timers_ok 0 l.
Proof.
  intros Hp Hs. assert (Hid : map entry_id l ≡ₚ map (λ i, (lwip_cyclic_timer_fn, Z.of_nat i)) (seq 1 5)) by (by rewrite Hp).
  split.
  - rewrite Hp. unfold timer_ids. repeat constructor; unfold entry_id, boot_entry; cbn [e_h e_arg]; rewrite !elem_of_cons; auto 10.
  - rewrite Hid. repeat (constructor; [rewrite ?not_elem_of_cons; repeat split; try discriminate; try apply not_elem_of_nil|]). constructor.
  - rewrite Hid. split; [done|]. cbn. rewrite !elem_of_cons. intros [[=]|[[=]|[[=]|[[=]|[[=]|H1%elem_of_nil]]]]]. done.
  - done.
Qed.

Lemma init_run k : timeo_rep k [] →
  wp (sys_timeouts_init sys_now) (λ _ k', ∃ L, timeo_rep k' L ∧ timers_ok 0 L.*2 ∧ Forall (near (clock k')) L.*2 ∧
    same_rest k k' ∧ L.*2 ≡ₚ map (λ i, boot_entry (clock k) (Z.of_nat i)) (seq 1 5)) k.
Proof using All.
  intros Hr. unfold sys_timeouts_init. change (Z.of_nat (length lwip_cyclic_timers)) with 6.
  apply (wp_for_each (λ i k1, ∃ L, timeo_rep k1 L ∧ StronglySorted (λ e e', due e ≤ due e') L.*2 ∧ Forall (near (clock k1)) L.*2 ∧
    same_rest k k1 ∧ L.*2 ≡ₚ map (λ j, boot_entry (clock k) (Z.of_nat j)) (seq 1 (Z.to_nat (i - 1))))); [lia| | |].
  - exists []. split; [done|]. split; [constructor|]. split; [constructor|]. done.
  - intros i k1 Hi (L & Hr1 & Hs & Hn & Hsame & Hp). destruct (boot_interval i Hi) as (ms & Hz & Hms & Hb).
    apply wp_bind. rewrite Hz. apply wp_ret. cbn beta.
    assert (Hlen : length L = Z.to_nat (i - 1)).
    { apply Permutation_length in Hp. by rewrite length_fmap, length_map, length_seq in Hp. }
    eapply wp_mono; [apply (sys_timeout_run k1 L); try done; lia|]. intros [] k2 (q & Hr2 & Hs2).
    assert (Ec : clock k1 = clock k) by apply Hsame. assert (Ec2 : clock k2 = clock k1) by apply Hs2.
    eexists. split; [done|]. rewrite map_snd_insert. split; [by apply insert_by_sorted|]. rewrite Ec2.
    split; [apply near_insert; [unfold near; cbn [due]; lia|done]|]. split; [by eapply same_rest_trans|].
    rewrite insert_by_perm, Hp. replace (Z.to_nat (i + 1 - 1)) with (S (Z.to_nat (i - 1))) by lia.
    rewrite seq_S, map_app. simpl map. rewrite Permutation_app_comm. simpl. apply Permutation_cons; [|done].
    unfold boot_entry. rewrite Ec. replace (Z.of_nat (S (Z.to_nat (i - 1)))) with i by lia. by rewrite Hms.
  - intros k1 (L & Hr1 & Hs & Hn & Hsame & Hp). exists L. split; [done|]. split; [by eapply timers_boot_ok|]. done.
Qed.

Lemma needed_run k L t : timeo_rep k L → timers_ok (tcpip_tcp_timer_active (store k)) L.*2 → Forall (near (clock k)) L.*2 →
  Forall (λ e, t < due e) L.*2 → t ≤ clock k →
  wp (tcp_timer_needed sys_now tcp_pcbs) (λ _ k', ∃ L', timeo_rep k' L' ∧
    timers_ok (tcpip_tcp_timer_active (store k')) L'.*2 ∧ Forall (near (clock k')) L'.*2 ∧ clock k' = clock k ∧
    Forall (λ e, t < due e) L'.*2 ∧ (tcp_pcbs k = true → tcpip_tcp_timer_active (store k') ≠ 0) ∧
    (cyclic_armed L.*2 → cyclic_armed L'.*2) ∧ (soon (clock k) L.*2 → soon (clock k) L'.*2)) k.
Proof using All.
  intros Hr Hok Hnear Hd Ht. unfold tcp_timer_needed, get_timeos. wp_steps. change (part k) with (store k).
  destruct (Z.eqb_spec (tcpip_tcp_timer_active (store k)) 0) as [Ha|Ha]; cbn [andb];
    [destruct (tcp_pcbs k) eqn:Et|].
  - unfold set_tcp_active. wp_steps. set (k1 := put_part _ k).
    assert (Hs : store k1 = MkTimeos (to_mem (store k)) (next_timeout (store k)) (current_timeout_due_time (store k)) 1).
    { unfold store, k1. by rewrite part_put. }
    assert (Ec : clock k1 = clock k) by (unfold k1; by rewrite apart).
    assert (Hr1 : timeo_rep k1 L).
    { apply (rep_keeps k); rewrite ?Hs; try done. unfold pool, k1. rewrite apart. apply Hr. }
    assert (Hnew : (tcpip_tcp_timer_fn, NULL) ∉ map entry_id L.*2) by (rewrite <-(to_tcp _ _ Hok); lia).
    set (e := MkEntry (clock k + TCP_TMR_INTERVAL) tcpip_tcp_timer_fn NULL).
    assert (Hid : Forall (λ e, entry_id e ∈ timer_ids) (e :: L.*2)).
    { constructor; [apply list_elem_of_here|apply Hok]. }
    assert (Honce : NoDup (map entry_id (e :: L.*2))) by (apply NoDup_cons; split; [done|apply Hok]).
    pose proof (timers_room e L.*2 Hid Honce) as Hroom. rewrite length_fmap in Hroom.
    eapply wp_mono; [apply (sys_timeout_run k1 L); rewrite ?Ec; try done|]. intros [] k2 (q & Hr2 & Ec2 & _ & _ & Ea2).
    rewrite Ec in Hr2. fold e in Hr2. eexists. split; [done|]. rewrite map_snd_insert, Ea2, Hs, Ec2, Ec.
    assert (Hpm : map entry_id (insert_due e L.*2) ≡ₚ map entry_id (e :: L.*2)) by (by rewrite insert_by_perm).
    split; [split|].
    + by rewrite insert_by_perm.
    + by rewrite Hpm.
    + rewrite Hpm. split; [|done]. intros _. apply list_elem_of_here.
    + apply insert_by_sorted, Hok.
    + split; [apply near_insert; [unfold near, e, TCP_TMR_INTERVAL; cbn [due]; lia|done]|]. split; [done|].
      split; [|split; [done|split; [apply cyclic_insert|apply soon_insert; unfold e; cbn; lia]]].
      rewrite insert_by_perm. constructor; [unfold e, TCP_TMR_INTERVAL; cbn [due]; lia|done].
  - wp_steps. exists L. done.
  - wp_steps. exists L. done.
Qed.

(** ** Theorems *)

(** C36. With pending timeouts in order and none off by 2^30 ms or more,
    [sys_check_timeouts] terminates, whatever wraps; it runs exactly the timers
    that are due, in the order of their due times, as [expire] says; afterwards
    the list is in order, holds each timer once and everything in it is due
    later; and each cyclic timer that fired is pending within one interval, at a
    whole number of intervals from its last due time if it was not a whole
    interval late. *)
Theorem check_timeouts_fires k L :
  timeo_rep k L → timers_ok (tcpip_tcp_timer_active (store k)) L.*2 → Forall (near (clock k)) L.*2 →
  wp (sys_check_timeouts sys_now tmr tcp_pcbs call_fn PBUF_CHECK_FREE_OOSEQ) (λ _ k', ∃ L' fs,
    timeo_rep k' L' ∧ timers_ok (tcpip_tcp_timer_active (store k')) L'.*2 ∧ clock k' = clock k ∧
    fired k' = fired k ++ fs ∧ expire (clock k) L.*2 fs L'.*2 ∧
    Forall (λ e, clock k < due e) L'.*2 ∧
    ∀ e, e ∈ L.*2 → e_h e = lwip_cyclic_timer_fn → ∃ e', e' ∈ L'.*2 ∧ rearmed (clock k) fs e e') k.
Proof using All.
  intros Hr Hok Hnear. eapply wp_mono; [by apply check_run|]. intros [] k' (L' & fs & Hr' & Hok' & _ & Ec & Ef & Hx).
  destruct (expire_facts _ _ _ _ Hx (to_ids _ _ Hok) (to_sorted _ _ Hok)) as [Hall Hre]. eauto 10.
Qed.

(** What can happen to the timeouts after boot: a check, a start of TCP's
    timer, or anything else that leaves them alone and takes time, but less
    than 2^30 ms since the last check, whose time is the second component. *)
Inductive timeo_event : K * Z → K * Z → Prop :=
  | ev_check k t k' :
      sys_check_timeouts sys_now tmr tcp_pcbs call_fn PBUF_CHECK_FREE_OOSEQ k = Ret (tt, k') →
      timeo_event (k, t) (k', clock k')
  | ev_needed k t k' : tcp_timer_needed sys_now tcp_pcbs k = Ret (tt, k') → timeo_event (k, t) (k', t)
  | ev_other k t k' :
      store k' = store k →
      (∀ L, pool_live (pool k) MEMP_SYS_TIMEOUT L → pool_live (pool k') MEMP_SYS_TIMEOUT L) →
      clock k ≤ clock k' < t + 2 ^ 30 → timeo_event (k, t) (k', t).

Definition timeo_inv (c : K * Z) : Prop := ∃ L,
  timeo_rep c.1 L ∧ timers_ok (tcpip_tcp_timer_active (store c.1)) L.*2 ∧ Forall (near (clock c.1)) L.*2 ∧
  Forall (λ e, c.2 < due e) L.*2 ∧ c.2 ≤ clock c.1 ∧ cyclic_armed L.*2 ∧ soon (clock c.1) L.*2.

Lemma timeo_event_inv c c' : timeo_inv c → timeo_event c c' → timeo_inv c'.
Proof using All.
  intros (L & Hr & Hok & Hn & Hd & Ht & Hcy & Hsn) Hev. destruct Hev as [k t k' E|k t k' E|k t k' Es Hl Hc]; cbn [fst snd] in *.
  - destruct (wp_elim _ _ _ _ _ (check_run k L Hr Hok Hn) E) as (L' & fs & Hr' & Hok' & Hn' & Ec & _ & Hx).
    destruct (expire_facts _ _ _ _ Hx (to_ids _ _ Hok) (to_sorted _ _ Hok)) as [Hall _].
    exists L'. cbn [fst snd]. rewrite Ec in *. split_and!; [done..| |].
    + by eapply expire_armed; [|apply Hok|apply Hok|].
    + by eapply expire_soon; [|apply Hok|].
  - destruct (wp_elim _ _ _ _ _ (needed_run k L t Hr Hok Hn Hd Ht) E) as (L' & Hr' & Hok' & Hn' & Ec & Hd' & _ & Hcy' & Hsn').
    exists L'. cbn [fst snd]. rewrite Ec in *. auto 10.
  - exists L. cbn [fst snd]. rewrite Es. split; [|split; [done|split; [|split; [done|split; [lia|split; [done|eapply soon_later; [|exact Hsn]; lia]]]]]].
    + apply (rep_keeps k); rewrite ?Es; try done. apply Hl, Hr.
    + rewrite Forall_forall in *. intros e He. specialize (Hn e He). specialize (Hd e He). unfold near in *. lia.
Qed.

(** C37. From boot on, however checks, starts of TCP's timer and other work
    follow each other, the timers stay armed and the pool of timeouts never runs
    dry: the pending timeouts are exactly the five cyclic timers, each once, and
    TCP's while it is active; they are in order, each is due after the last
    check and within one of its intervals from now; [sys_check_timeouts] and
    [tcp_timer_needed] return, the second with TCP's timer active when a
    connection needs it. *)
Theorem timeouts_never_exhausted k0 k1 k t :
  timeo_rep k0 [] → tcpip_tcp_timer_active (store k0) = 0 → sys_timeouts_init sys_now k0 = Ret (tt, k1) →
  rtc timeo_event (k1, clock k1) (k, t) →
  wp (sys_check_timeouts sys_now tmr tcp_pcbs call_fn PBUF_CHECK_FREE_OOSEQ) (λ _ k', clock k' = clock k) k ∧
  wp (tcp_timer_needed sys_now tcp_pcbs) (λ _ k', tcp_pcbs k = true → tcpip_tcp_timer_active (store k') ≠ 0) k ∧
  ∃ L, timeo_rep k L ∧ timers_ok (tcpip_tcp_timer_active (store k)) L.*2 ∧
    map entry_id L.*2 ≡ₚ armed_ids (tcpip_tcp_timer_active (store k)) ∧
    Forall (λ e, t < due e ≤ clock k + interval e) L.*2.
Proof using All.
  intros Hr0 Ha0 Hinit Hevs.
  destruct (wp_elim _ _ _ _ _ (init_run k0 Hr0) Hinit) as (L0 & Hr & Hok & Hn & (Ec & _ & _ & Ea) & Hp).
  assert (Hinv : timeo_inv (k1, clock k1)).
  { exists L0. cbn [fst snd]. rewrite Ea, Ha0. split; [done|]. split; [done|]. split; [done|]. split; [rewrite Ec, Hp; apply boot_later|]. split; [lia|].
    split; [intros x Hx; rewrite Hp; exact Hx|]. unfold soon. rewrite Ec, Hp. apply Forall_forall. intros e He.
    change (map ?f ?l) with (f <$> l) in He. apply list_elem_of_fmap in He as (i & -> & _). done. }
  assert (Hall : timeo_inv (k, t)).
  { clear -Hinv Hevs AM AC1 AF1 AT AC2 AF2 Hnow Hcap Htmr Hooseq. revert Hinv. induction Hevs as [|c1 c2 c3 Hev _ IH]; [done|].
    intros Hinv. apply IH. by eapply timeo_event_inv. }
  destruct Hall as (L & Hr' & Hok' & Hn' & Hd' & Ht' & Hcy & Hsn). cbn [fst snd] in *. split; [|split].
  - eapply wp_mono; [by apply check_run|]. intros [] k' (? & ? & _ & _ & _ & Ec' & _). done.
  - eapply wp_mono; [by apply (needed_run k L t)|]. intros [] k' (? & _ & _ & _ & _ & _ & Hx & _). done.
  - exists L. split; [done|]. split; [done|]. split; [by apply armed_exactly|]. unfold soon in Hsn. rewrite Forall_forall in *. auto.
Qed.
End facts.

(** ** A small system around the timeouts *)

Record clocked := MkClocked { ck_timeos : timeos; ck_memp : memp; ck_time : Z; ck_fired : list Z }.

#[local] Program Instance ck_part_timeos : Part timeos clocked :=
  {| part := ck_timeos; put_part := λ t k, MkClocked t (ck_memp k) (ck_time k) (ck_fired k) |}.
Solve Obligations with (by intros; repeat match goal with k : clocked |- _ => destruct k end).
#[local] Program Instance ck_part_memp : Part memp clocked :=
  {| part := ck_memp; put_part := λ t k, MkClocked (ck_timeos k) t (ck_time k) (ck_fired k) |}.
Solve Obligations with (by intros; repeat match goal with k : clocked |- _ => destruct k end).

#[local] Instance ck_apart1 : Apart timeos (part (T := memp) (K := clocked)).
Proof. done. Defined.
#[local] Instance ck_apart2 : Apart memp (part (T := timeos) (K := clocked)).
Proof. done. Defined.
#[local] Instance ck_apart3 : Apart timeos ck_time.
Proof. done. Defined.
#[local] Instance ck_apart4 : Apart memp ck_time.
Proof. done. Defined.
#[local] Instance ck_apart5 : Apart timeos ck_fired.
Proof. done. Defined.
#[local] Instance ck_apart6 : Apart memp ck_fired.
Proof. done. Defined.
#[local] Instance ck_pools : Pools memp := @memp_pools_ok demo_pools demo_pools_ok.

Definition ck_now : comp clocked Z := gets (λ k, u32 (ck_time k)).
Definition ck_tmr (i : Z) : comp clocked unit :=
  modify (λ k, MkClocked (ck_timeos k) (ck_memp k) (ck_time k) (ck_fired k ++ [i])).

Lemma ck_tmr_runs i : runs (M := memp) ck_time ck_fired [i] (ck_tmr i).
Proof. intros k L HL. apply wp_modify. repeat split; try apply HL. Qed.
Lemma ck_nothing_runs : runs (M := memp) ck_time ck_fired [] (mret tt).
Proof. intros k L HL. apply wp_ret. rewrite app_nil_r. repeat split; try apply HL. Qed.

Lemma ck_cap : pool_cap (M := memp) MEMP_SYS_TIMEOUT = Z.to_nat MEMP_NUM_SYS_TIMEOUT.
Proof. reflexivity. Qed.

(** Just before boot, 500 ms before the clock wraps. *)
Definition ck_boot : clocked := MkClocked (MkTimeos (λ _, MkTimeo 0 0 null_fn 0) 0 0 0) demo_memp (2 ^ 32 - 500) [].

Lemma ck_boot_rep : timeo_rep (M := memp) ck_boot [].
Proof.
  split; [split; [done|apply NoDup_nil_2|constructor]|]. split; [vm_compute; split; [discriminate|reflexivity]|].
  pose proof (wp_elim _ _ _ _ _ (memp_init_spec demo_pools_ok demo_memp0 (λ _ _, eq_refl)) demo_memp_run) as Hr.
  eexists. split; [exact Hr|]. intros x. rewrite elem_of_rev. split; [set_solver|]. tauto.
Qed.

(** After [sys_timeouts_init] has run. *)
Definition ck_running : clocked :=
  match sys_timeouts_init (M := memp) ck_now ck_boot with Ret (_, k) => k | _ => ck_boot end.
Lemma ck_running_ok : sys_timeouts_init (M := memp) ck_now ck_boot = Ret (tt, ck_running) ∧
  ∃ L : list (Z * entry), timeo_rep (M := memp) ck_running L ∧ timers_ok (tcpip_tcp_timer_active (store ck_running)) L.*2 ∧
    Forall (near (ck_time ck_running)) L.*2 ∧ ck_time ck_running = 2 ^ 32 - 500 ∧
    L.*2 ≡ₚ map (λ i, boot_entry (2 ^ 32 - 500) (Z.of_nat i)) (seq 1 5).
Proof.
  destruct (proj1 (wp_run _ _ _) (init_run ck_time ck_fired ck_now (λ _, eq_refl) ck_cap ck_tmr (λ _, false) ck_tmr_runs
      (λ _ _, mret tt) (mret tt) ck_nothing_runs ck_boot ck_boot_rep))
    as ([] & k & E & L & Hr & Hok & Hn & (Ec & _ & _ & Ea) & Hp).
  unfold ck_running. rewrite E. split; [done|]. exists L. rewrite Ea. split; [done|]. split; [done|]. split; [done|]. split; [exact Ec|exact Hp].
Qed.

(** 600 ms later, beyond the wrap; nothing has been checked yet. *)
Definition ck_wait (k : clocked) : clocked := MkClocked (ck_timeos k) (ck_memp k) (ck_time k + 600) (ck_fired k).
Lemma ck_wait_rep k L : timeo_rep (M := memp) k L → timeo_rep (M := memp) (ck_wait k) L.
Proof. intros Hr. apply (rep_keeps (M := memp) k); [exact Hr|reflexivity|reflexivity|exact (tr_pool _ _ Hr)]. Qed.
Lemma ck_wait_ok k L : timers_ok (tcpip_tcp_timer_active (store k)) L → timers_ok (tcpip_tcp_timer_active (store (ck_wait k))) L.
Proof. done. Qed.
Lemma ck_wait_time k : ck_time (ck_wait k) = ck_time k + 600.
Proof. done. Qed.
Lemma ck_wait_event k : timeo_event (M := memp) ck_time ck_now ck_tmr (λ _, true) (λ _ _, mret tt) (mret tt)
  (k, ck_time k) (ck_wait k, ck_time k).
Proof. apply ev_other; [reflexivity|intros L HL; exact HL|]. unfold ck_wait. cbn [ck_time]. lia. Qed.
Definition ck_late : clocked := ck_wait ck_running.
Lemma ck_late_ok : ∃ L : list (Z * entry), timeo_rep (M := memp) ck_late L ∧ timers_ok (tcpip_tcp_timer_active (store ck_late)) L.*2 ∧
  Forall (near (ck_time ck_late)) L.*2 ∧ Exists (λ e, due e < ck_time ck_late) L.*2.
Proof.
  destruct ck_running_ok as (_ & L & Hr & Hok & Hn & Ec & Hp). exists L.
  split; [exact (ck_wait_rep _ _ Hr)|]. split; [exact (ck_wait_ok _ _ Hok)|].
  assert (El : ck_time ck_late = 2 ^ 32 + 100) by (unfold ck_late; rewrite ck_wait_time, Ec; lia). rewrite El. split.
  - rewrite Hp. pose proof (boot_later ck_cap (2 ^ 32 - 500)) as Hb. rewrite Hp in Hn. rewrite Ec in Hn. rewrite Forall_forall in *.
    intros e He. specialize (Hb e He). specialize (Hn e He). cbn beta in Hb. unfold near in *. lia.
  - rewrite Hp. apply Exists_exists. exists (boot_entry (2 ^ 32 - 500) 5). split; [|by vm_compute].
    change (map ?f ?l) with (f <$> l). apply list_elem_of_fmap. exists 5%nat. split; [done|]. apply elem_of_seq. lia.
Qed.

Lemma check_timeouts_fires_witness : ∃ L : list (Z * entry), Exists (λ e, due e < ck_time ck_late) L.*2 ∧
  wp (sys_check_timeouts (M := memp) ck_now ck_tmr (λ _, false) (λ _ _, mret tt) (mret tt)) (λ _ k', ∃ (L' : list (Z * entry)) fs,
    timeo_rep (M := memp) k' L' ∧ timers_ok (tcpip_tcp_timer_active (store k')) L'.*2 ∧ ck_time k' = ck_time ck_late ∧
    ck_fired k' = ck_fired ck_late ++ fs ∧ expire (ck_time ck_late) L.*2 fs L'.*2 ∧
    Forall (λ e, ck_time ck_late < due e) L'.*2 ∧
    ∀ e, e ∈ L.*2 → e_h e = lwip_cyclic_timer_fn → ∃ e', e' ∈ L'.*2 ∧ rearmed (ck_time ck_late) fs e e') ck_late.
Proof.
  destruct ck_late_ok as (L & Hr & Hok & Hn & Hd). exists L. split; [exact Hd|].
  exact (check_timeouts_fires ck_time ck_fired ck_now (λ _, eq_refl) ck_cap ck_tmr (λ _, false) ck_tmr_runs
    (λ _ _, mret tt) (mret tt) ck_nothing_runs ck_late L Hr Hok Hn).
Defined.

Lemma timeouts_never_exhausted_witness :
  wp (sys_check_timeouts (M := memp) ck_now ck_tmr (λ _, true) (λ _ _, mret tt) (mret tt))
    (λ _ k', ck_time k' = ck_time ck_late) ck_late ∧
  wp (tcp_timer_needed (M := memp) ck_now (λ _, true))
    (λ _ k', (λ _ : clocked, true) ck_late = true → tcpip_tcp_timer_active (store k') ≠ 0) ck_late ∧
  ∃ L : list (Z * entry), timeo_rep (M := memp) ck_late L ∧ timers_ok (tcpip_tcp_timer_active (store ck_late)) L.*2 ∧
    map entry_id L.*2 ≡ₚ armed_ids (tcpip_tcp_timer_active (store ck_late)) ∧
    Forall (λ e, ck_time ck_running < due e ≤ ck_time ck_late + interval e) L.*2.
Proof.
  exact (timeouts_never_exhausted ck_time ck_fired ck_now (λ _, eq_refl) ck_cap ck_tmr (λ _, true) ck_tmr_runs
    (λ _ _, mret tt) (mret tt) ck_nothing_runs ck_boot ck_running ck_late (ck_time ck_running)
    ck_boot_rep eq_refl (proj1 ck_running_ok) (rtc_once _ _ (ck_wait_event ck_running))).
Defined.
