(* ===== verification/LwipPbuf.v ===== *)
(** * LwipPbuf: the packet buffers of lwIP (core/pbuf.c)

    A [struct pbuf] is a record in a store keyed by its address, and the bytes
    that payload pointers reach are in byte memory.  The structures come from
    the pools and from the heap, of which only the interfaces [Pools] and
    [Heaps] are used.  Pointers are unbounded; lengths are 16 bits wide,
    reference counts 8, as in C.  [custom_free_function] stands for the
    functions that release custom pbufs, which the structures point to. *)

From Stdlib Require Import ZArith Lia.
From stdpp Require Import base numbers list option functions gmap sets fin_sets.
From S2P Require Import Prelude LwipBase.
Open Scope Z_scope.

Record pbuf := MkPbuf {
  next : Z;
  payload : Z;
  tot_len : Z;
  len : Z;
  type_internal : Z;
  flags : Z;
  ref : Z;
  if_idx : Z
}.

Definition SIZEOF_STRUCT_PBUF : Z := 24.
Definition PBUF_POOL_BUFSIZE_ALIGNED : Z := LWIP_MEM_ALIGN_SIZE PBUF_POOL_BUFSIZE.
Definition NETIF_NO_INDEX : Z := 0.

(** [pbuf_layer]: the room kept for headers. *)
Definition PBUF_TRANSPORT : Z := 54.
Definition PBUF_IP : Z := 34.
Definition PBUF_LINK : Z := 14.
Definition PBUF_RAW_TX : Z := 0.
Definition PBUF_RAW : Z := 0.

Definition PBUF_TYPE_FLAG_STRUCT_DATA_CONTIGUOUS : Z := 0x80.
Definition PBUF_TYPE_FLAG_DATA_VOLATILE : Z := 0x40.
Definition PBUF_TYPE_ALLOC_SRC_MASK : Z := 0x0F.
Definition PBUF_ALLOC_FLAG_RX : Z := 0x0100.
Definition PBUF_ALLOC_FLAG_DATA_CONTIGUOUS : Z := 0x0200.
Definition PBUF_TYPE_ALLOC_SRC_MASK_STD_HEAP : Z := 0x00.
Definition PBUF_TYPE_ALLOC_SRC_MASK_STD_MEMP_PBUF : Z := 0x01.
Definition PBUF_TYPE_ALLOC_SRC_MASK_STD_MEMP_PBUF_POOL : Z := 0x02.
(** [pbuf_type]. *)
Definition PBUF_RAM : Z := 0x280.
Definition PBUF_ROM : Z := 0x01.
Definition PBUF_REF : Z := 0x41.
Definition PBUF_POOL : Z := 0x182.
Definition PBUF_FLAG_IS_CUSTOM : Z := 0x02.

(** Setters for the fields. *)
Definition with_next (v : Z) (b : pbuf) : pbuf :=
  MkPbuf v (payload b) (tot_len b) (len b) (type_internal b) (flags b) (ref b) (if_idx b).
Definition with_payload (v : Z) (b : pbuf) : pbuf :=
  MkPbuf (next b) v (tot_len b) (len b) (type_internal b) (flags b) (ref b) (if_idx b).
Definition with_tot_len (v : Z) (b : pbuf) : pbuf :=
  MkPbuf (next b) (payload b) (u16 v) (len b) (type_internal b) (flags b) (ref b) (if_idx b).
Definition with_len (v : Z) (b : pbuf) : pbuf :=
  MkPbuf (next b) (payload b) (tot_len b) (u16 v) (type_internal b) (flags b) (ref b) (if_idx b).
Definition with_ref (v : Z) (b : pbuf) : pbuf :=
  MkPbuf (next b) (payload b) (tot_len b) (len b) (type_internal b) (flags b) (u8 v) (if_idx b).

(** The packet buffers, the bytes, the allocators. *)
Record pstate (H M : Type) := MkPstate {
  pbufs : Z → pbuf;
  bytes : memory;
  heap : H;
  pools : M;
  pbuf_free_ooseq_pending : Z
}.
Arguments MkPstate {H M}.
Arguments pbufs {H M}.
Arguments bytes {H M}.
Arguments heap {H M}.
Arguments pools {H M}.
Arguments pbuf_free_ooseq_pending {H M}.

Section pbuf.
Context {H M : Type} `{Heaps H} `{Pools M}.
Abbreviation P := (pstate H M).
Context (custom_free_function : Z → comp P unit).

Definition in_heap {A} : comp H A → comp P A :=
  zoom heap (λ h s, MkPstate (pbufs s) (bytes s) h (pools s) (pbuf_free_ooseq_pending s)).
Definition in_pools {A} : comp M A → comp P A :=
  zoom pools (λ m s, MkPstate (pbufs s) (bytes s) (heap s) m (pbuf_free_ooseq_pending s)).
Definition set_bytes (m : memory) : comp P unit :=
  modify (λ s, MkPstate (pbufs s) m (heap s) (pools s) (pbuf_free_ooseq_pending s)).
Definition MEMCPY (dst src n : Z) : comp P unit :=
  modify (λ s, MkPstate (pbufs s) (mem_store (bytes s) dst (mem_bytes (bytes s) src (Z.to_nat n)))
    (heap s) (pools s) (pbuf_free_ooseq_pending s)).
(** [*p], and an assignment to a field of it. *)
Definition pb (p : Z) : comp P pbuf := if p =? NULL then undef else gets (λ s, pbufs s p).
Definition upd_pb (p : Z) (f : pbuf → pbuf) : comp P unit :=
  if p =? NULL then undef
  else modify (λ s, MkPstate (<[p := f (pbufs s p)]> (pbufs s)) (bytes s) (heap s) (pools s) (pbuf_free_ooseq_pending s)).

Definition pbuf_pool_is_empty : comp P unit :=
  modify (λ s, MkPstate (pbufs s) (bytes s) (heap s) (pools s) 1).

Definition pbuf_init_alloced_pbuf (p payload tot_len len type flags : Z) : comp P unit :=
  upd_pb p (λ _, MkPbuf NULL payload (u16 tot_len) (u16 len) (u8 type) flags 1 NETIF_NO_INDEX).

Definition pbuf_get_allocsrc (b : pbuf) : Z := Z.land (type_internal b) PBUF_TYPE_ALLOC_SRC_MASK.
Definition pbuf_match_allocsrc (b : pbuf) (type : Z) : bool :=
  pbuf_get_allocsrc b =? Z.land type PBUF_TYPE_ALLOC_SRC_MASK.

(** ** Reference counts *)

(** What [pbuf_free] does with a pbuf nobody refers to. *)
Definition dealloc (p : Z) (b : pbuf) : comp P unit :=
  let alloc_src := pbuf_get_allocsrc b in
  if negb (Z.land (flags b) PBUF_FLAG_IS_CUSTOM =? 0) then custom_free_function p
  else if alloc_src =? PBUF_TYPE_ALLOC_SRC_MASK_STD_MEMP_PBUF_POOL then in_pools (memp_free MEMP_PBUF_POOL p)
  else if alloc_src =? PBUF_TYPE_ALLOC_SRC_MASK_STD_MEMP_PBUF then in_pools (memp_free MEMP_PBUF p)
  else if alloc_src =? PBUF_TYPE_ALLOC_SRC_MASK_STD_HEAP then in_heap (mem_free p)
  else LWIP_ASSERT false.

Definition pbuf_free (p : Z) : comp P Z :=
  LWIP_ASSERT (negb (p =? NULL));;
  loop (λ '(p, count),
    if p =? NULL then mret (inr count)
    else
      b ← pb p;
      LWIP_ASSERT (0 <? ref b);;
      let r := u8 (ref b - 1) in
      upd_pb p (with_ref r);;
      if r =? 0 then
        dealloc p b;;
        mret (inl (next b, u8 (count + 1)))
      else mret (inr count)) (p, 0).

Definition pbuf_clen (p : Z) : comp P Z :=
  loop (λ '(p, n),
    if p =? NULL then mret (inr n)
    else b ← pb p; mret (inl (next b, u16 (n + 1)))) (p, 0).

Definition pbuf_ref (p : Z) : comp P unit :=
  if p =? NULL then mret tt
  else
    upd_pb p (λ b, with_ref (ref b + 1) b);;
    b ← pb p;
    LWIP_ASSERT (0 <? ref b).

(** ** Allocation *)

Definition pbuf_alloc_reference (payload length type : Z) : comp P Z :=
  LWIP_ASSERT ((type =? PBUF_REF) || (type =? PBUF_ROM));;
  p ← in_pools (memp_malloc MEMP_PBUF);
  if p =? NULL then mret NULL
  else
    pbuf_init_alloced_pbuf p payload length length type 0;;
    mret p.

(** The room for data in a buffer of the pool. *)
Definition pool_room (offset : Z) : Z := u32 (PBUF_POOL_BUFSIZE_ALIGNED - LWIP_MEM_ALIGN_SIZE offset).

(** [case PBUF_POOL]: a chain of buffers from the pool, or nothing. *)
Definition pbuf_alloc_pool (offset length type : Z) : comp P Z :=
  loop (λ '(p, last, rem_len, offset),
    q ← in_pools (memp_malloc MEMP_PBUF_POOL);
    if q =? NULL then
      pbuf_pool_is_empty;;
      (if negb (p =? NULL) then _ ← pbuf_free p; mret tt else mret tt);;
      mret (inr NULL)
    else
      let qlen := Z.min rem_len (u16 (pool_room offset)) in
      pbuf_init_alloced_pbuf q (LWIP_MEM_ALIGN (q + SIZEOF_STRUCT_PBUF + offset)) rem_len qlen type 0;;
      b ← pb q;
      LWIP_ASSERT (payload b mod MEM_ALIGNMENT =? 0);;
      LWIP_ASSERT (0 <? pool_room offset);;
      (if p =? NULL then mret tt else upd_pb last (with_next q));;
      let p := if p =? NULL then q else p in
      let rem_len := u16 (rem_len - qlen) in
      if 0 <? rem_len then mret (inl (p, q, rem_len, 0)) else mret (inr p)) (NULL, NULL, length, offset).

Definition pbuf_alloc_ram (offset length type : Z) : comp P Z :=
  let payload_len := u32 (LWIP_MEM_ALIGN_SIZE offset + LWIP_MEM_ALIGN_SIZE length) in
  let alloc_len := u32 (LWIP_MEM_ALIGN_SIZE SIZEOF_STRUCT_PBUF + payload_len) in
  if (payload_len <? LWIP_MEM_ALIGN_SIZE length) || (alloc_len <? LWIP_MEM_ALIGN_SIZE length) then mret NULL
  else
    p ← in_heap (mem_malloc alloc_len);
    if p =? NULL then mret NULL
    else
      pbuf_init_alloced_pbuf p (LWIP_MEM_ALIGN (p + SIZEOF_STRUCT_PBUF + offset)) length length type 0;;
      b ← pb p;
      LWIP_ASSERT (payload b mod MEM_ALIGNMENT =? 0);;
      mret p.

Definition pbuf_alloc (layer length type : Z) : comp P Z :=
  let offset := u16 layer in
  if (type =? PBUF_REF) || (type =? PBUF_ROM) then pbuf_alloc_reference NULL length type
  else if type =? PBUF_POOL then pbuf_alloc_pool offset length type
  else if type =? PBUF_RAM then pbuf_alloc_ram offset length type
  else LWIP_ASSERT false;; mret NULL.

Definition pbuf_alloced_custom (l length type p payload_mem payload_mem_len : Z) : comp P Z :=
  let offset := u16 l in
  if payload_mem_len <? u32 (LWIP_MEM_ALIGN_SIZE offset + length) then mret NULL
  else
    let payload := if negb (payload_mem =? NULL) then payload_mem + LWIP_MEM_ALIGN_SIZE offset else NULL in
    pbuf_init_alloced_pbuf p payload length length type PBUF_FLAG_IS_CUSTOM;;
    mret p.

(** ** Headers *)

Definition pbuf_add_header_impl (p header_size_increment force : Z) : comp P Z :=
  LWIP_ASSERT (negb (p =? NULL));;
  if 0xFFFF <? header_size_increment then mret 1
  else if header_size_increment =? 0 then mret 0
  else
    b ← pb p;
    let increment_magnitude := u16 header_size_increment in
    if u16 (increment_magnitude + tot_len b) <? increment_magnitude then mret 1
    else
      let payload' := payload b - header_size_increment in
      if (if negb (Z.land (type_internal b) PBUF_TYPE_FLAG_STRUCT_DATA_CONTIGUOUS =? 0)
          then payload' <? p + SIZEOF_STRUCT_PBUF
          else force =? 0)
      then mret 1
      else
        upd_pb p (with_payload payload');;
        upd_pb p (λ b, with_len (len b + increment_magnitude) b);;
        upd_pb p (λ b, with_tot_len (tot_len b + increment_magnitude) b);;
        mret 0.
Definition pbuf_add_header (p n : Z) : comp P Z := pbuf_add_header_impl p n 0.
Definition pbuf_add_header_force (p n : Z) : comp P Z := pbuf_add_header_impl p n 1.

Definition pbuf_remove_header (p header_size_decrement : Z) : comp P Z :=
  LWIP_ASSERT (negb (p =? NULL));;
  if 0xFFFF <? header_size_decrement then mret 1
  else if header_size_decrement =? 0 then mret 0
  else
    b ← pb p;
    let increment_magnitude := u16 header_size_decrement in
    if len b <? increment_magnitude then mret 1
    else
      upd_pb p (with_payload (payload b + header_size_decrement));;
      upd_pb p (λ b, with_len (len b - increment_magnitude) b);;
      upd_pb p (λ b, with_tot_len (tot_len b - increment_magnitude) b);;
      mret 0.

Definition pbuf_header_impl (p header_size_increment force : Z) : comp P Z :=
  if header_size_increment <? 0 then pbuf_remove_header p (- header_size_increment)
  else pbuf_add_header_impl p header_size_increment force.
Definition pbuf_header (p n : Z) : comp P Z := pbuf_header_impl p n 0.
Definition pbuf_header_force (p n : Z) : comp P Z := pbuf_header_impl p n 1.

Definition pbuf_free_header (q size : Z) : comp P Z :=
  loop (λ '(p, free_left),
    if negb (free_left =? 0) && negb (p =? NULL) then
      b ← pb p;
      if len b <=? free_left then
        upd_pb p (with_next NULL);;
        _ ← pbuf_free p;
        mret (inl (next b, u16 (free_left - len b)))
      else
        _ ← pbuf_remove_header p free_left;
        mret (inl (p, 0))
    else mret (inr p)) (q, size).

Definition pbuf_realloc (p new_len : Z) : comp P unit :=
  LWIP_ASSERT (negb (p =? NULL));;
  b ← pb p;
  if tot_len b <=? new_len then mret tt
  else
    let shrink := u16 (tot_len b - new_len) in
    '(q, rem_len) ← loop (λ '(q, rem_len),
      b ← pb q;
      if len b <? rem_len then
        upd_pb q (λ b, with_tot_len (tot_len b - shrink) b);;
        LWIP_ASSERT (negb (next b =? NULL));;
        mret (inl (next b, u16 (rem_len - len b)))
      else mret (inr (q, rem_len))) (p, new_len);
    b ← pb q;
    q ← (if pbuf_match_allocsrc b PBUF_TYPE_ALLOC_SRC_MASK_STD_HEAP && negb (rem_len =? len b) &&
            (Z.land (flags b) PBUF_FLAG_IS_CUSTOM =? 0) then
           q' ← in_heap (mem_trim q (u32 (payload b - q + rem_len)));
           LWIP_ASSERT (negb (q' =? NULL));;
           mret q'
         else mret q);
    upd_pb q (with_len rem_len);;
    upd_pb q (λ b, with_tot_len (len b) b);;
    b ← pb q;
    (if negb (next b =? NULL) then _ ← pbuf_free (next b); mret tt else mret tt);;
    upd_pb q (with_next NULL).

(** ** Chains *)

Definition pbuf_cat (h t : Z) : comp P unit :=
  if (h =? NULL) || (t =? NULL) then mret tt
  else
    tb ← pb t;
    p ← loop (λ p,
      b ← pb p;
      if negb (next b =? NULL) then
        tb ← pb t;
        upd_pb p (λ b, with_tot_len (tot_len b + tot_len tb) b);;
        mret (inl (next b))
      else mret (inr p)) h;
    b ← pb p;
    LWIP_ASSERT (tot_len b =? len b);;
    LWIP_ASSERT (next b =? NULL);;
    tb ← pb t;
    upd_pb p (λ b, with_tot_len (tot_len b + tot_len tb) b);;
    upd_pb p (with_next t).

Definition pbuf_chain (h t : Z) : comp P unit :=
  pbuf_cat h t;;
  pbuf_ref t.

Definition pbuf_dechain (p : Z) : comp P Z :=
  b ← pb p;
  let q := next b in
  tail_gone ← (if negb (q =? NULL) then
    qb ← pb q;
    LWIP_ASSERT (tot_len qb =? tot_len b - len b);;
    upd_pb q (with_tot_len (tot_len b - len b));;
    upd_pb p (with_next NULL);;
    upd_pb p (λ b, with_tot_len (len b) b);;
    pbuf_free q
  else mret 1);
  b ← pb p;
  LWIP_ASSERT (tot_len b =? len b);;
  mret (if 0 <? tail_gone then NULL else q).

(** ** Copying *)

(** One round of the loop below: the part that fits is copied, and either side
    moves on. *)
Definition copy_round (p_to p_from copy_len offset_to offset_from : Z) : comp P (Z * Z * Z * Z * Z + Z) :=
  t ← pb p_to;
  f ← pb p_from;
  let len_calc := if u64 (len f - offset_from) <=? u64 (len t - offset_to) then u64 (len f - offset_from)
                  else u64 (len t - offset_to) in
  let n := u16 (Z.min copy_len len_calc) in
  MEMCPY (payload t + offset_to) (payload f + offset_from) n;;
  let offset_to := offset_to + n in
  let offset_from := offset_from + n in
  let copy_len := u16 (copy_len - n) in
  LWIP_ASSERT (offset_to <=? len t);;
  LWIP_ASSERT (offset_from <=? len f);;
  let '(p_from', offset_from') := if len f <=? offset_from then (next f, 0) else (p_from, offset_from) in
  if (len f <=? offset_from) && (p_from' =? NULL) && negb (copy_len =? 0) then mret (inr ERR_ARG)
  else
    let '(p_to', offset_to') := if offset_to =? len t then (next t, 0) else (p_to, offset_to) in
    if (offset_to =? len t) && (p_to' =? NULL) && negb (copy_len =? 0) then mret (inr ERR_ARG)
    else
      from_bad ← (if p_from' =? NULL then mret false
                  else b ← pb p_from'; mret ((len b =? tot_len b) && negb (next b =? NULL)));
      if (from_bad : bool) then mret (inr ERR_VAL)
      else
        to_bad ← (if p_to' =? NULL then mret false
                  else b ← pb p_to'; mret ((len b =? tot_len b) && negb (next b =? NULL)));
        if (to_bad : bool) then mret (inr ERR_VAL)
        else if negb (copy_len =? 0) then mret (inl (p_to', p_from', copy_len, offset_to', offset_from'))
        else mret (inr ERR_OK).

Definition pbuf_copy_partial_pbuf (p_to p_from copy_len offset : Z) : comp P Z :=
  from_ok ← (if p_from =? NULL then mret false else f ← pb p_from; mret (copy_len <=? tot_len f));
  if negb from_ok then mret ERR_ARG
  else
    to_ok ← (if p_to =? NULL then mret false else t ← pb p_to; mret (offset + copy_len <=? tot_len t));
    if negb to_ok then mret ERR_ARG
    else
      loop (λ '(p_to, p_from, copy_len, offset_to, offset_from),
        copy_round p_to p_from copy_len offset_to offset_from) (p_to, p_from, copy_len, offset, 0).

Definition pbuf_copy (p_to p_from : Z) : comp P Z :=
  if p_from =? NULL then mret ERR_ARG
  else
    f ← pb p_from;
    pbuf_copy_partial_pbuf p_to p_from (tot_len f) 0.

Definition pbuf_copy_partial (buf dataptr len' offset : Z) : comp P Z :=
  if buf =? NULL then mret 0
  else if dataptr =? NULL then mret 0
  else
    loop (λ '(p, done_, l, offset, copied_total),
      if negb (l =? 0) && negb (p =? NULL) then
        b ← pb p;
        if negb (offset =? 0) && (len b <=? offset) then
          mret (inl (next b, done_, l, u16 (offset - len b), copied_total))
        else
          let n := u16 (len b - offset) in
          let buf_copy_len := if l <? n then l else n in
          MEMCPY (dataptr + done_) (payload b + offset) buf_copy_len;;
          mret (inl (next b, u16 (done_ + buf_copy_len), u16 (l - buf_copy_len), 0, u16 (copied_total + buf_copy_len)))
      else mret (inr copied_total)) (buf, 0, len', offset, 0).

(** The pbuf an offset falls into, and what is left of the offset. *)
Definition pbuf_skip_const (in_ in_offset : Z) : comp P (Z * Z) :=
  loop (λ '(q, offset_left),
    if q =? NULL then mret (inr (q, offset_left))
    else
      b ← pb q;
      if len b <=? offset_left then mret (inl (next b, u16 (offset_left - len b)))
      else mret (inr (q, offset_left))) (in_, in_offset).
Definition pbuf_skip (in_ in_offset : Z) : comp P (Z * Z) := pbuf_skip_const in_ in_offset.

Definition pbuf_get_contiguous (p buffer bufsize len' offset : Z) : comp P Z :=
  if p =? NULL then mret NULL
  else if buffer =? NULL then mret NULL
  else if bufsize <? len' then mret NULL
  else
    '(q, out_offset) ← pbuf_skip_const p offset;
    if negb (q =? NULL) then
      b ← pb q;
      if out_offset + len' <=? len b then mret (payload b + out_offset)
      else
        n ← pbuf_copy_partial q buffer len' out_offset;
        if negb (n =? len') then mret NULL else mret buffer
    else mret NULL.

Definition pbuf_take (buf dataptr len' : Z) : comp P Z :=
  if buf =? NULL then mret ERR_ARG
  else if dataptr =? NULL then mret ERR_ARG
  else
    b ← pb buf;
    if tot_len b <? len' then mret ERR_MEM
    else
      copied ← loop (λ '(p, total_copy_len, copied_total),
        if negb (total_copy_len =? 0) then
          LWIP_ASSERT (negb (p =? NULL));;
          b ← pb p;
          let n := if len b <? total_copy_len then len b else total_copy_len in
          MEMCPY (payload b) (dataptr + copied_total) n;;
          mret (inl (next b, total_copy_len - n, copied_total + n))
        else mret (inr copied_total)) (buf, len', 0);
      LWIP_ASSERT (copied =? len');;
      mret ERR_OK.

Definition pbuf_take_at (buf dataptr len' offset : Z) : comp P Z :=
  '(q, target_offset) ← pbuf_skip buf offset;
  if q =? NULL then mret ERR_MEM
  else
    b ← pb q;
    if target_offset + len' <=? tot_len b then
      LWIP_ASSERT (target_offset <? len b);;
      let first_copy_len := u16 (Z.min (len b - target_offset) len') in
      MEMCPY (payload b + target_offset) dataptr first_copy_len;;
      let remaining_len := u16 (len' - first_copy_len) in
      if 0 <? remaining_len then pbuf_take (next b) (dataptr + first_copy_len) remaining_len
      else mret ERR_OK
    else mret ERR_MEM.

Definition pbuf_clone (layer type p : Z) : comp P Z :=
  b ← pb p;
  q ← pbuf_alloc layer (tot_len b) type;
  if q =? NULL then mret NULL
  else
    err ← pbuf_copy q p;
    LWIP_ASSERT (err =? ERR_OK);;
    mret q.

Definition pbuf_coalesce (p layer : Z) : comp P Z :=
  b ← pb p;
  if next b =? NULL then mret p
  else
    q ← pbuf_clone layer PBUF_RAM p;
    if q =? NULL then mret p
    else
      _ ← pbuf_free p;
      mret q.

(** ** Single bytes and searching *)

Definition pbuf_try_get_at (p offset : Z) : comp P Z :=
  '(q, q_idx) ← pbuf_skip_const p offset;
  if q =? NULL then mret (-1)
  else
    b ← pb q;
    if q_idx <? len b then gets (λ s, bytes s (payload b + q_idx)) else mret (-1).

Definition pbuf_get_at (p offset : Z) : comp P Z :=
  ret ← pbuf_try_get_at p offset;
  if 0 <=? ret then mret (u8 ret) else mret 0.

Definition pbuf_put_at (p offset data : Z) : comp P unit :=
  '(q, q_idx) ← pbuf_skip p offset;
  if q =? NULL then mret tt
  else
    b ← pb q;
    if q_idx <? len b
    then modify (λ s, MkPstate (pbufs s) (<[payload b + q_idx := data]> (bytes s)) (heap s) (pools s) (pbuf_free_ooseq_pending s))
    else mret tt.

(** The loop that finds the pbuf is the one of [pbuf_skip_const]. *)
Definition pbuf_memcmp (p offset s2 n : Z) : comp P Z :=
  b ← pb p;
  if tot_len b <? offset + n then mret 0xffff
  else
    '(q, start) ← pbuf_skip_const p offset;
    loop (λ i,
      if i <? n then
        a ← pbuf_get_at q (u16 (start + i));
        c ← gets (λ s, bytes s (s2 + i));
        if negb (a =? c) then mret (inr (u16 (Z.min (i + 1) 0xFFFF)))
        else mret (inl (u16 (i + 1)))
      else mret (inr 0)) 0.

Definition pbuf_memfind (p mem mem_len start_offset : Z) : comp P Z :=
  b ← pb p;
  let max_cmp_start := u16 (tot_len b - mem_len) in
  if mem_len + start_offset <=? tot_len b then
    loop (λ i,
      if i <=? max_cmp_start then
        plus ← pbuf_memcmp p i mem mem_len;
        if plus =? 0 then mret (inr i) else mret (inl (u16 (i + 1)))
      else mret (inr 0xFFFF)) start_offset
  else mret 0xFFFF.

(** [strlen]. *)
Definition str_len (s : Z) : comp P Z :=
  loop (λ i, c ← gets (λ t, bytes t (s + i)); if c =? 0 then mret (inr i) else mret (inl (i + 1))) 0.

Definition pbuf_strstr (p substr : Z) : comp P Z :=
  if substr =? NULL then mret 0xFFFF
  else
    c ← gets (λ s, bytes s substr);
    if c =? 0 then mret 0xFFFF
    else
      b ← pb p;
      if tot_len b =? 0xFFFF then mret 0xFFFF
      else
        substr_len ← str_len substr;
        if 0xFFFF <=? substr_len then mret 0xFFFF
        else pbuf_memfind p substr (u16 substr_len) 0.
End pbuf.
