(* ===== verification/LwipPbufData.v ===== *)
(** * LwipPbufData: packets as sequences of bytes

    A chain of pbufs stands for the bytes its payloads hold, one after the
    other.  The functions of LwipPbuf that read, write, search and lengthen
    packets are shown to do so on that sequence, however it is cut into
    buffers. *)

From Stdlib Require Import ZArith Lia.
From stdpp Require Import base numbers list option functions gmap sets fin_sets.
From S2P Require Import Prelude LwipBase LwipPbuf.
Open Scope Z_scope.

(** ** Packets *)

Section packets.
Context (m : Z → pbuf).

Fixpoint total (l : list Z) : Z := match l with [] => 0 | x :: t => len (m x) + total t end.
(** [tot_len] counts the buffer and all after it. *)
Fixpoint totals (l : list Z) : Prop :=
  match l with [] => True | x :: t => tot_len (m x) = total (x :: t) ∧ totals t end.
Definition links (p : Z) (l : list Z) : Prop := chain (λ x, next (m x)) p l.

Record pkt (p : Z) (l : list Z) : Prop := Pkt {
  pk_links : links p l;
  pk_len : ∀ x, x ∈ l → 0 ≤ len (m x);
  pk_totals : totals l;
  pk_small : total l < 65536;
  pk_count : Z.of_nat (length l) < 65536
}.

(** The bytes of buffer [x], and of a chain. *)
Definition data (b : memory) (x : Z) : list Z := mem_bytes b (payload (m x)) (Z.to_nat (len (m x))).
Definition content (b : memory) (l : list Z) : list Z := concat (map (data b) l).

Definition in_payload (x a : Z) : Prop := payload (m x) ≤ a < payload (m x) + len (m x).
(** No byte belongs to two buffers. *)
Definition apart (l : list Z) : Prop := ∀ x y a, x ∈ l → y ∈ l → in_payload x a → in_payload y a → x = y.

(** [bs] stored into the buffers [l] from [off] on. *)
Fixpoint scatter (l : list Z) (off : Z) (bs : list Z) (b : memory) : memory :=
  match l with
  | [] => b
  | x :: t =>
      if len (m x) <=? off then scatter t (off - len (m x)) bs b
      else
        let n := Z.to_nat (len (m x) - off) in
        scatter t 0 (drop n bs) (mem_store b (payload (m x) + off) (take n bs))
  end.

(** The buffer offset [off] falls into, with the rest of the chain and of the offset. *)
Fixpoint locate (l : list Z) (off : Z) : list Z * Z :=
  match l with
  | [] => ([], off)
  | x :: t => if len (m x) <=? off then locate t (off - len (m x)) else (l, off)
  end.
End packets.

Definition head_of (l : list Z) : Z := match l with [] => NULL | x :: _ => x end.

Section packet_facts.
Context (m : Z → pbuf).

Lemma links_head p l : links m p l → p = head_of l.
Proof. destruct l; unfold links, chain; cbn [lseg]; [done|]. by intros (? & _). Qed.
Lemma links_cons p x l : links m p (x :: l) → p = x ∧ x ≠ NULL ∧ links m (next (m x)) l.
Proof. done. Qed.
Lemma links_nonnull p l x : links m p l → x ∈ l → x ≠ NULL.
Proof. apply lseg_nonnull. Qed.
Lemma links_app p l1 l2 : links m p (l1 ++ l2) → links m (head_of l2) l2.
Proof. unfold links, chain. intros (x & _ & H)%lseg_app. destruct l2 as [|y l2]; [done|]. by destruct H as (-> & H). Qed.

(** A chain that ends visits no buffer twice. *)
Lemma links_nodup p l : links m p l → NoDup l.
Proof.
  revert p. induction l as [|x l IH]; intros p Hl; [constructor|]. constructor; [|by eapply IH, Hl].
  intros Hx. pose proof Hl as (-> & _ & Hr). apply list_elem_of_split in Hx as (l1 & l2 & ->).
  pose proof (links_app _ (x :: l1) (x :: l2) Hl) as H2. pose proof (chain_fun _ _ _ _ Hl H2) as E.
  apply (f_equal length) in E. simpl in E. rewrite length_app in E. simpl in E. lia.
Qed.

Lemma pkt_tail p x l : pkt m p (x :: l) → pkt m (next (m x)) l.
Proof.
  intros [H1 H2 H3 H4 H5]. simpl in *. assert (0 ≤ len (m x)) by apply H2, list_elem_of_here. split.
  - by apply links_cons in H1 as (_ & _ & H1).
  - intros y Hy. by apply H2, list_elem_of_further.
  - tauto.
  - lia.
  - lia.
Qed.
Lemma pkt_head p l : pkt m p l → p = head_of l.
Proof. intros [H _ _ _ _]. by eapply links_head. Qed.
Lemma pkt_nonnull p x l : pkt m p (x :: l) → x ≠ NULL.
Proof. intros [H _ _ _ _]. by apply links_cons in H as (_ & ? & _). Qed.
Lemma total_nonneg l : (∀ x, x ∈ l → 0 ≤ len (m x)) → 0 ≤ total m l.
Proof.
  induction l as [|x l IH]; intros Hl; simpl; [done|]. pose proof (Hl x (list_elem_of_here _ _)).
  specialize (IH (λ y Hy, Hl y (list_elem_of_further _ _ _ Hy))). lia.
Qed.
Lemma total_app l1 l2 : total m (l1 ++ l2) = total m l1 + total m l2.
Proof. induction l1 as [|x l1 IH]; simpl; [done|]. rewrite IH. lia. Qed.
Lemma pkt_total p l : pkt m p l → 0 ≤ total m l < 65536.
Proof. intros [_ H _ H' _]. split; [by apply total_nonneg|done]. Qed.
Lemma pkt_len p l x : pkt m p l → x ∈ l → 0 ≤ len (m x) ≤ total m l.
Proof.
  intros Hp Hx. split; [by apply (pk_len _ _ _ Hp)|]. apply list_elem_of_split in Hx as (l1 & l2 & ->).
  destruct Hp as [_ Hl _ _ _]. rewrite total_app. simpl.
  pose proof (total_nonneg l1 ltac:(intros; apply Hl; set_solver)). pose proof (total_nonneg l2 ltac:(intros; apply Hl; set_solver)). lia.
Qed.
Lemma pkt_suffix p l1 r : pkt m p (l1 ++ r) → pkt m (head_of r) r.
Proof.
  revert p. induction l1 as [|x l1 IH]; intros p Hp; simpl in *; [by rewrite <-(pkt_head _ _ Hp)|].
  apply (IH (next (m x))). by eapply pkt_tail.
Qed.
Lemma pkt_tot_len p x l : pkt m p (x :: l) → tot_len (m x) = total m (x :: l).
Proof. intros [_ _ [H _] _ _]. done. Qed.

Lemma length_data b x : length (data m b x) = Z.to_nat (len (m x)).
Proof. apply length_mem_bytes. Qed.
Lemma content_cons b x l : content m b (x :: l) = data m b x ++ content m b l.
Proof. done. Qed.
Lemma content_app b l1 l2 : content m b (l1 ++ l2) = content m b l1 ++ content m b l2.
Proof. unfold content. by rewrite map_app, concat_app. Qed.
Lemma length_pkt_content b l : (∀ x, x ∈ l → 0 ≤ len (m x)) → Z.of_nat (length (content m b l)) = total m l.
Proof.
  induction l as [|x l IH]; intros Hl; [done|]. rewrite content_cons, length_app, length_data. simpl.
  pose proof (Hl x (list_elem_of_here _ _)). specialize (IH (λ y Hy, Hl y (list_elem_of_further _ _ _ Hy))). lia.
Qed.
Lemma scatter_ext l off bs b b' a : (∀ z, b' z = b z) → scatter m l off bs b' a = scatter m l off bs b a.
Proof.
  revert off bs b b'. induction l as [|x l IH]; intros off bs b b' Hb; simpl; [done|].
  destruct (_ <=? _); apply IH; [done|]. intros z. unfold mem_store. by rewrite Hb.
Qed.
Lemma scatter_nil l off b a : scatter m l off [] b a = b a.
Proof.
  revert off b. induction l as [|x l IH]; intros off b; simpl; [done|].
  destruct (_ <=? _); [apply IH|]. rewrite skipn_nil, firstn_nil, IH. apply mem_store_out. simpl. lia.
Qed.
(** The content depends on the bytes of the payloads only. *)
Lemma content_ext b b' l : (∀ x a, x ∈ l → in_payload m x a → b' a = b a) → content m b' l = content m b l.
Proof.
  induction l as [|x l IH]; intros Hb; [done|]. rewrite !content_cons. f_equal.
  - apply mem_bytes_ext. intros k Hk. apply (Hb x); [apply list_elem_of_here|]. unfold in_payload. lia.
  - apply IH. intros y a Hy. apply Hb. by apply list_elem_of_further.
Qed.

(** ** Storing into a packet *)

Lemma scatter_out l off bs b a : (∀ x, x ∈ l → ¬ in_payload m x a) → 0 ≤ off → scatter m l off bs b a = b a.
Proof.
  revert off bs b. induction l as [|x l IH]; intros off bs b Hl Hoff; simpl; [done|].
  assert (Hl' : ∀ y, y ∈ l → ¬ in_payload m y a) by (intros y Hy; apply Hl; by apply list_elem_of_further).
  destruct (Z.leb_spec (len (m x)) off); rewrite IH; try done; try lia.
  apply mem_store_out. pose proof (Hl x (list_elem_of_here _ _)) as Hx. unfold in_payload in Hx. rewrite length_take. lia.
Qed.

Lemma splice_right d c off bs : (length d ≤ Z.to_nat off)%nat →
  splice (d ++ c) off bs = d ++ splice c (off - Z.of_nat (length d)) bs.
Proof.
  intros H. unfold splice. rewrite take_app_ge, drop_app_ge by lia. rewrite <-app_assoc.
  replace (Z.to_nat (off - Z.of_nat (length d))) with (Z.to_nat off - length d)%nat by lia. do 4 f_equal. lia.
Qed.
Lemma splice_left d c off bs : 0 ≤ off → (Z.to_nat off ≤ length d)%nat →
  splice (d ++ c) off bs = splice d off (take (length d - Z.to_nat off) bs) ++ splice c 0 (drop (length d - Z.to_nat off) bs).
Proof.
  intros H0 H. unfold splice. rewrite take_app_le by lia. rewrite length_take, length_drop. change (Z.to_nat 0) with O. rewrite take_0.
  destruct (Nat.le_gt_cases (length bs) (length d - Z.to_nat off)).
  - rewrite (take_ge bs), (drop_ge bs) by lia. rewrite drop_app_le by lia. cbn [app length].
    replace (length bs - (length d - Z.to_nat off))%nat with O by lia. rewrite drop_0, <-!app_assoc.
    by rewrite Nat.min_r by lia.
  - rewrite drop_app_ge by lia. rewrite Nat.min_l by lia. rewrite (drop_ge d) by lia. cbn [app]. rewrite app_nil_r, <-!app_assoc.
    rewrite (app_assoc (take (length d - Z.to_nat off) bs)), take_drop. do 3 f_equal. lia.
Qed.

Lemma data_store b x off bs : 0 ≤ off → off + Z.of_nat (length bs) ≤ len (m x) →
  data m (mem_store b (payload (m x) + off) bs) x = splice (data m b x) off bs.
Proof.
  intros Ho Hl. unfold data. set (a := payload (m x)). set (n := len (m x)) in *.
  replace (Z.to_nat n) with (Z.to_nat off + (length bs + Z.to_nat (n - off - Z.of_nat (length bs))))%nat by lia.
  rewrite !mem_bytes_app. unfold splice.
  rewrite take_app_le, take_ge by (rewrite length_mem_bytes; lia).
  rewrite drop_app_ge by (rewrite length_mem_bytes; lia). rewrite length_mem_bytes.
  rewrite drop_app_ge by (rewrite length_mem_bytes; lia). rewrite length_mem_bytes.
  replace (Z.to_nat off + length bs - Z.to_nat off - length bs)%nat with O by lia. rewrite drop_0.
  f_equal; [|f_equal].
  - apply mem_bytes_ext. intros z Hz. rewrite mem_store_out; [done|lia].
  - replace (a + Z.of_nat (Z.to_nat off)) with (a + off) by lia. apply mem_bytes_store.
  - apply mem_bytes_ext. intros z Hz. rewrite mem_store_out; [done|lia].
Qed.

Lemma apart_tail x l : apart m (x :: l) → apart m l.
Proof. intros H y z a Hy Hz. apply H; by apply list_elem_of_further. Qed.
Lemma apart_head x l y a : NoDup (x :: l) → apart m (x :: l) → y ∈ l → in_payload m x a → ¬ in_payload m y a.
Proof.
  intros [Hx _]%NoDup_cons H Hy H1 H2. rewrite (H x y a) in Hx; [done|apply list_elem_of_here|by apply list_elem_of_further|done|done].
Qed.

(** Storing replaces a part of the content. *)
Lemma content_scatter l off bs b : NoDup l → apart m l → (∀ x, x ∈ l → 0 ≤ len (m x)) →
  0 ≤ off → off + Z.of_nat (length bs) ≤ total m l → content m (scatter m l off bs b) l = splice (content m b l) off bs.
Proof.
  revert off bs b. induction l as [|x l IH]; intros off bs b Hnd Hap Hlen Ho Hb.
  - simpl in *. unfold splice. destruct bs; [|simpl in Hb; lia]. change (content m b []) with (@nil Z). by rewrite firstn_nil, skipn_nil.
  - assert (Hx : 0 ≤ len (m x)) by apply Hlen, list_elem_of_here.
    assert (Hl : ∀ y, y ∈ l → 0 ≤ len (m y)) by (intros y Hy; apply Hlen; by apply list_elem_of_further).
    pose proof (apart_tail _ _ Hap) as Hap'. pose proof (NoDup_cons_1_2 _ _ Hnd) as Hnd'.
    assert (Hdx : ∀ o bs b, 0 ≤ o → data m (scatter m l o bs b) x = data m b x).
    { intros o bs' b' Ho'. apply mem_bytes_ext. intros a Ha. apply scatter_out; [|done]. intros y Hy.
      apply (apart_head x l y a Hnd Hap Hy). unfold in_payload. lia. }
    rewrite content_cons. cbn [scatter total] in *. rewrite content_cons. destruct (Z.leb_spec (len (m x)) off).
    + rewrite Hdx, IH by (done || lia). rewrite splice_right by (rewrite length_data; lia). rewrite length_data. do 2 f_equal. lia.
    + set (n := Z.to_nat (len (m x) - off)). rewrite Hdx by lia. rewrite data_store by (rewrite ?length_take; lia).
      rewrite (splice_left (data m b x)) by (rewrite ?length_data; lia). rewrite length_data.
      replace (Z.to_nat (len (m x)) - Z.to_nat off)%nat with n by lia. f_equal.
      rewrite IH; [|done|done|done|lia|].
      * f_equal. apply content_ext. intros y a Hy Ha. apply mem_store_out. rewrite length_take.
        pose proof (apart_head x l y a Hnd Hap Hy). unfold in_payload in *. lia.
      * rewrite length_drop. pose proof (total_nonneg l Hl). lia.
Qed.

(** ** Where an offset is *)

Lemma locate_spec l off b r o : (∀ x, x ∈ l → 0 ≤ len (m x)) → 0 ≤ off → locate m l off = (r, o) →
  ∃ l1, l = l1 ++ r ∧ off = total m l1 + o ∧ 0 ≤ o ∧
    drop (Z.to_nat off) (content m b l) = drop (Z.to_nat o) (content m b r) ∧
    match r with [] => total m l ≤ off | x :: _ => o < len (m x) end.
Proof.
  revert off. induction l as [|x l IH]; intros off Hl Hoff; simpl.
  - intros [= <- <-]. exists []. simpl. split_and!; try done; lia.
  - assert (Hx : 0 ≤ len (m x)) by apply Hl, list_elem_of_here.
    destruct (Z.leb_spec (len (m x)) off) as [Hle|Hlt].
    + intros E. destruct (IH (off - len (m x))) as (l1 & -> & Ho & H0 & Hd & Hr); [|lia|done|].
      { intros y Hy. apply Hl. by apply list_elem_of_further. }
      exists (x :: l1). simpl. split; [done|]. split; [lia|]. split; [done|]. split.
      * rewrite content_cons, drop_app_ge by (rewrite length_data; lia). rewrite length_data, <-Hd. f_equal. lia.
      * destruct r; [lia|done].
    + intros [= <- <-]. exists []. simpl. split_and!; try done; lia.
Qed.
Lemma scatter_locate l off bs b r o : 0 ≤ off → locate m l off = (r, o) → scatter m l off bs b = scatter m r o bs b.
Proof.
  revert off. induction l as [|x l IH]; intros off Ho; simpl; [by intros [= <- <-]|].
  destruct (Z.leb_spec (len (m x)) off); [apply IH; lia|]. intros [= <- <-]. simpl.
  destruct (Z.leb_spec (len (m x)) off); [lia|done].
Qed.
End packet_facts.

Lemma mem_store_app b a d1 d2 z : mem_store (mem_store b a d1) (a + Z.of_nat (length d1)) d2 z = mem_store b a (d1 ++ d2) z.
Proof.
  unfold mem_store. rewrite length_app.
  destruct (Z.leb_spec (a + Z.of_nat (length d1)) z); cbn [andb].
  - replace (a <=? z) with true by (symmetry; apply Z.leb_le; lia). cbn [andb].
    replace (z <? a + Z.of_nat (length d1)) with false by (symmetry; apply Z.ltb_ge; lia).
    rewrite Nat2Z.inj_add, Z.add_assoc. destruct (_ <? _); [|done]. rewrite app_nth2 by lia. f_equal. lia.
  - destruct (Z.leb_spec a z); cbn [andb]; [|done].
    replace (z <? a + Z.of_nat (length d1)) with true by (symmetry; apply Z.ltb_lt; lia).
    replace (z <? _) with true by (symmetry; apply Z.ltb_lt; lia). by rewrite app_nth1 by lia.
Qed.
Lemma mem_store_ext b b' a d z : (∀ z, b' z = b z) → mem_store b' a d z = mem_store b a d z.
Proof. intros H. unfold mem_store. by rewrite H. Qed.
Lemma mem_store_nil b a z : mem_store b a [] z = b z.
Proof. apply mem_store_out. simpl. lia. Qed.
Lemma take_drop_mem b a n o k : (o + k ≤ n)%nat → take k (drop o (mem_bytes b a n)) = mem_bytes b (a + Z.of_nat o) k.
Proof.
  intros Hn. replace n with (o + (k + (n - o - k)))%nat by lia. rewrite !mem_bytes_app.
  rewrite drop_app_ge, length_mem_bytes, Nat.sub_diag, drop_0 by (rewrite length_mem_bytes; lia).
  rewrite take_app_le by (rewrite length_mem_bytes; lia). by rewrite take_ge by (rewrite length_mem_bytes; lia).
Qed.

(** ** The functions *)

Section functions.
Context {H M : Type} `{Heaps H} `{Pools M}.
Abbreviation P := (pstate H M).

Definition with_bytes (b : memory) (s : P) : P := MkPstate (pbufs s) b (heap s) (pools s) (pbuf_free_ooseq_pending s).
(** [s'] is [s] with the bytes [b]. *)
Definition bytes_become (s s' : P) (b : memory) : Prop := ∃ b', s' = with_bytes b' s ∧ ∀ a, b' a = b a.

Lemma wp_pb p (Q : pbuf → P → Prop) s : p ≠ NULL → Q (pbufs s p) s → wp (pb p) Q s.
Proof. intros Hp HQ. unfold pb. destruct (Z.eqb_spec p NULL); [done|]. by apply wp_gets. Qed.
Lemma wp_MEMCPY dst src n (Q : unit → P → Prop) s :
  Q tt (with_bytes (mem_store (bytes s) dst (mem_bytes (bytes s) src (Z.to_nat n))) s) → wp (MEMCPY dst src n) Q s.
Proof. intros HQ. by apply wp_modify. Qed.

Lemma head_null m p l : pkt m p l → (p =? NULL) = match l with [] => true | _ :: _ => false end.
Proof.
  intros Hp. rewrite (pkt_head _ _ _ Hp). destruct l as [|x l]; [done|]. apply Z.eqb_neq. by apply (pkt_nonnull _ _ _ _ Hp).
Qed.

Lemma skip_run s p l off (Q : Z * Z → P → Prop) : pkt (pbufs s) p l → 0 ≤ off < 65536 →
  Q (head_of (locate (pbufs s) l off).1, (locate (pbufs s) l off).2) s → wp (pbuf_skip_const p off) Q s.
Proof.
  intros Hp Ho HQ. unfold pbuf_skip_const.
  apply (wp_loop_ghost (λ r '(q, o) t, t = s ∧ pkt (pbufs s) q r ∧ 0 ≤ o < 65536 ∧ locate (pbufs s) r o = locate (pbufs s) l off)
    length _ _ l); [exact (conj eq_refl (conj Hp (conj Ho eq_refl)))| |].
  - pose proof (pk_count _ _ _ Hp). lia.
  - clear p Hp Ho. intros r [q o] t (-> & Hq & Ho & E). rewrite (head_null _ _ _ Hq). destruct r as [|x r].
    + apply wp_ret. rewrite <-E in HQ. simpl in HQ. by rewrite (pkt_head _ _ _ Hq).
    + pose proof (pkt_head _ _ _ Hq) as ->. cbn [head_of] in *. apply wp_bind, wp_pb; [by apply (pkt_nonnull _ _ _ _ Hq)|].
      pose proof (pkt_len _ _ _ x Hq (list_elem_of_here _ _)) as Hlen. simpl in E. destruct (Z.leb_spec (len (pbufs s x)) o).
      * apply wp_ret. exists r. split; [|simpl; lia]. split; [done|]. split; [by eapply pkt_tail|].
        unfold u16. rewrite Z.mod_small by (pose proof (pkt_total _ _ _ Hq); lia). split; [lia|done].
      * apply wp_ret. rewrite <-E in HQ. exact HQ.
Qed.

(** Reading a packet into a buffer apart from it. *)
Lemma copy_partial_run s p l dst n off (Q : Z → P → Prop) : pkt (pbufs s) p l → dst ≠ NULL → 0 ≤ n < 65536 → 0 ≤ off < 65536 →
  (∀ x a, x ∈ l → dst ≤ a < dst + n → ¬ in_payload (pbufs s) x a) →
  let out := take (Z.to_nat n) (drop (Z.to_nat off) (content (pbufs s) (bytes s) l)) in
  (∀ s', bytes_become s s' (mem_store (bytes s) dst out) → Q (Z.of_nat (length out)) s') →
  wp (pbuf_copy_partial p dst n off) Q s.
Proof.
  intros Hp Hdst Hn Hoff Hap out HQ. unfold pbuf_copy_partial. rewrite (proj2 (Z.eqb_neq dst NULL) Hdst), (head_null _ _ _ Hp).
  destruct (decide (l = [])) as [->|Hne].
  { assert (Eo : out = []) by (unfold out; change (content (pbufs s) (bytes s) []) with (@nil Z); by rewrite skipn_nil, firstn_nil).
    apply wp_ret. rewrite Eo in HQ. apply (HQ s). exists (bytes s). split; [by destruct s|]. intros a. by rewrite mem_store_nil. }
  replace (match l with [] => true | _ :: _ => false end) with false by (by destruct l).
  clear Hne. set (m := pbufs s) in *. set (b := bytes s) in *.
  apply (wp_loop_ghost (λ r '(q, dn, k, o, ct) t, ∃ dones b', t = with_bytes b' s ∧ (∀ a, b' a = mem_store b dst dones a) ∧
      dn = Z.of_nat (length dones) ∧ ct = dn ∧ pkt m q r ∧ 0 ≤ k ∧ 0 ≤ o < 65536 ∧ dn + k ≤ n ∧
      dones ++ take (Z.to_nat k) (drop (Z.to_nat o) (content m b r)) = out ∧ ∀ x, x ∈ r → x ∈ l) length _ _ l).
  - exists [], b. split; [by destruct s|]. split; [intros a; by rewrite mem_store_nil|]. split_and!; try done; simpl; lia.
  - pose proof (pk_count _ _ _ Hp). lia.
  - clear Hp Hoff p. intros r [[[[q dn] k] o] ct] t (dones & b' & -> & Hb' & -> & -> & Hq & Hk & Ho & Hdk & Eout & Hin).
    rewrite (head_null _ _ _ Hq).
    assert (Hend : out = dones → Q (Z.of_nat (length dones)) (with_bytes b' s)).
    { intros <-. apply HQ. by exists b'. }
    destruct (Z.eqb_spec k 0) as [->|Hk0]; cbn [negb andb].
    { apply wp_ret, Hend. by rewrite <-Eout, take_0, app_nil_r. }
    destruct r as [|x r]; cbn [negb].
    { apply wp_ret, Hend. rewrite <-Eout. change (content m b []) with (@nil Z). by rewrite skipn_nil, firstn_nil, app_nil_r. }
    pose proof (pkt_head _ _ _ Hq) as ->. cbn [head_of] in *. apply wp_bind, wp_pb; [by apply (pkt_nonnull _ _ _ _ Hq)|].
    change (pbufs (with_bytes b' s) x) with (m x).
    pose proof (pkt_len _ _ _ x Hq (list_elem_of_here _ _)) as Hlen. pose proof (pkt_total _ _ _ Hq) as Htot.
    rewrite content_cons in Eout. destruct (negb (o =? 0) && (len (m x) <=? o)) eqn:Hskip.
    + apply andb_true_iff in Hskip as [_ Hle%Z.leb_le]. apply wp_ret. exists r. split; [|simpl; lia]. exists dones, b'.
      unfold u16. rewrite Z.mod_small by lia. split_and!; try done; try lia; [by eapply pkt_tail| |by intros y Hy; apply Hin, list_elem_of_further].
      rewrite <-Eout. rewrite drop_app_ge by (rewrite length_data; lia). rewrite length_data. do 3 f_equal. lia.
    + assert (Hox : o ≤ len (m x)) by (apply andb_false_iff in Hskip as [?%negb_false_iff%Z.eqb_eq|?%Z.leb_gt]; lia).
      unfold u16. rewrite (Z.mod_small (len (m x) - o)) by lia.
      set (cl := if k <? len (m x) - o then k else len (m x) - o).
      assert (Hcl : 0 ≤ cl ≤ k ∧ cl ≤ len (m x) - o ∧ (cl = k ∨ cl = len (m x) - o)) by (unfold cl; destruct (Z.ltb_spec k (len (m x) - o)); lia).
      apply wp_bind, wp_MEMCPY. cbn [bytes with_bytes]. apply wp_ret. exists r. split; [|simpl; lia].
      assert (Echunk : mem_bytes b' (payload (m x) + o) (Z.to_nat cl) = mem_bytes b (payload (m x) + o) (Z.to_nat cl)).
      { apply mem_bytes_ext. intros a Ha. rewrite Hb'. apply mem_store_out.
        assert (Hnot : ¬ (dst ≤ a < dst + n)) by (intros Hd; apply (Hap x a); [apply Hin, list_elem_of_here|done|unfold in_payload; fold m; lia]). lia. }
      rewrite Echunk. exists (dones ++ mem_bytes b (payload (m x) + o) (Z.to_nat cl)), (mem_store b' (dst + Z.of_nat (length dones)) (mem_bytes b (payload (m x) + o) (Z.to_nat cl))).
      rewrite length_app, length_mem_bytes, !Z.mod_small by lia.
      split_and!; try done; try lia; [|by eapply pkt_tail| |by intros y Hy; apply Hin, list_elem_of_further].
      * intros a. rewrite (mem_store_ext (mem_store b dst dones)) by done. apply mem_store_app.
      * rewrite <-Eout, <-app_assoc. f_equal. rewrite drop_app_le by (rewrite length_data; lia). change (Z.to_nat 0) with O. rewrite drop_0.
        unfold data. destruct Hcl as (Hc1 & Hc2 & Hc3). destruct (Z.le_gt_cases k (len (m x) - o)).
        -- replace cl with k by lia. rewrite Z.sub_diag, take_0, app_nil_r.
           rewrite take_app_le by (rewrite length_drop, length_mem_bytes; lia).
           rewrite take_drop_mem by lia. f_equal. lia.
        -- replace cl with (len (m x) - o) by lia.
           rewrite (take_app_ge (drop _ _)) by (rewrite length_drop, length_mem_bytes; lia). rewrite length_drop, length_mem_bytes. f_equal.
           ++ rewrite <-(take_ge (drop (Z.to_nat o) _) (Z.to_nat (len (m x) - o))) by (rewrite length_drop, length_mem_bytes; lia).
              rewrite take_drop_mem by lia. f_equal. lia.
           ++ f_equal. lia.
Qed.

(** Writing a packet from a buffer apart from it. *)
Definition src_apart (m : Z → pbuf) (l : list Z) (src n : Z) : Prop := ∀ x a, x ∈ l → src ≤ a < src + n → ¬ in_payload m x a.

Lemma pbuf_take_run s p l src n (Q : Z → P → Prop) : pkt (pbufs s) p l → l ≠ [] → src ≠ NULL → 0 ≤ n < 65536 →
  src_apart (pbufs s) l src n →
  (total (pbufs s) l < n → Q ERR_MEM s) →
  (n ≤ total (pbufs s) l → ∀ s', bytes_become s s' (scatter (pbufs s) l 0 (mem_bytes (bytes s) src (Z.to_nat n)) (bytes s)) → Q ERR_OK s') →
  wp (pbuf_take p src n) Q s.
Proof.
  intros Hp Hne Hsrc Hn Hap Hfail HQ. unfold pbuf_take. rewrite (proj2 (Z.eqb_neq src NULL) Hsrc), (head_null _ _ _ Hp).
  destruct l as [|x0 l0]; [done|]. pose proof (pkt_nonnull _ _ _ _ Hp) as Hx0. pose proof (pkt_head _ _ _ Hp) as ->. cbn [head_of] in *.
  apply wp_bind, wp_pb; [done|]. rewrite (pkt_tot_len _ _ _ _ Hp). destruct (Z.ltb_spec (total (pbufs s) (x0 :: l0)) n) as [Hlt|Hge]; [apply wp_ret; auto|].
  specialize (HQ Hge). clear Hfail Hx0 Hne. set (m := pbufs s) in *. set (b := bytes s) in *. apply wp_bind.
  apply (wp_loop_ghost (λ r '(q, k, c) t, ∃ b', t = with_bytes b' s ∧ 0 ≤ k ∧ 0 ≤ c ∧ c + k = n ∧ pkt m q r ∧ k ≤ total m r ∧
      (∀ a, scatter m r 0 (mem_bytes b (src + c) (Z.to_nat k)) b' a = scatter m (x0 :: l0) 0 (mem_bytes b src (Z.to_nat n)) b a) ∧
      (∀ a, src ≤ a < src + n → b' a = b a) ∧ ∀ x, x ∈ r → x ∈ x0 :: l0) length _ _ (x0 :: l0)).
  - exists b. split; [by destruct s|]. split_and!; try done; try lia. intros a. by rewrite Z.add_0_r.
  - pose proof (pk_count _ _ _ Hp). lia.
  - clear Hp Hge. intros r [[q k] c] t (b' & -> & Hk & Hc & Hck & Hq & Hkt & Hfin & Hsame & Hin).
    destruct (Z.eqb_spec k 0) as [->|Hk0]; cbn [negb].
    { apply wp_ret. replace c with n by lia. apply wp_bind, wp_assert; [apply Z.eqb_refl|]. apply wp_ret. apply HQ. exists b'.
      split; [done|]. intros a. rewrite <-Hfin. symmetry. apply scatter_nil. }
    rewrite (head_null _ _ _ Hq). destruct r as [|x r]; [simpl in Hkt; lia|]. apply wp_bind, wp_assert; [done|].
    pose proof (pkt_head _ _ _ Hq) as ->. cbn [head_of] in *. apply wp_bind, wp_pb; [by apply (pkt_nonnull _ _ _ _ Hq)|].
    change (pbufs (with_bytes b' s) x) with (m x).
    pose proof (pkt_len _ _ _ x Hq (list_elem_of_here _ _)) as Hlen.
    set (cl := if len (m x) <? k then len (m x) else k).
    assert (Hcl : 0 ≤ cl ≤ k ∧ cl ≤ len (m x) ∧ (cl = k ∨ cl = len (m x))) by (unfold cl; destruct (Z.ltb_spec (len (m x)) k); lia).
    apply wp_bind, wp_MEMCPY. cbn [bytes with_bytes]. apply wp_ret. exists r. split; [|simpl; lia].
    assert (Echunk : mem_bytes b' (src + c) (Z.to_nat cl) = mem_bytes b (src + c) (Z.to_nat cl)).
    { apply mem_bytes_ext. intros a Ha. apply Hsame. lia. }
    rewrite Echunk. exists (mem_store b' (payload (m x)) (mem_bytes b (src + c) (Z.to_nat cl))). split; [done|].
    split_and!; try lia; [by eapply pkt_tail| | | |by intros y Hy; apply Hin, list_elem_of_further].
    + simpl in Hkt. destruct (pkt_total _ _ _ (pkt_tail _ _ _ _ Hq)). lia.
    + intros a. rewrite <-Hfin. cbn [scatter]. destruct (Z.leb_spec (len (m x)) 0) as [Hz|Hz].
      * replace cl with 0 by lia. replace (len (m x)) with 0 by lia. change (Z.to_nat 0) with O. change (mem_bytes b (src + c) 0) with (@nil Z).
        rewrite Z.sub_0_r, Z.add_0_r, Z.sub_0_r. apply scatter_ext, mem_store_nil.
      * rewrite Z.add_0_r, Z.sub_0_r. f_equal; [|f_equal].
        -- destruct Hcl as (? & ? & [->| ->]).
           ++ rewrite Z.sub_diag. symmetry. apply drop_ge. rewrite length_mem_bytes. lia.
           ++ replace (Z.to_nat k) with (Z.to_nat (len (m x)) + Z.to_nat (k - len (m x)))%nat by lia. rewrite mem_bytes_app.
              rewrite drop_app_length' by (by rewrite length_mem_bytes). f_equal. lia.
        -- destruct Hcl as (? & ? & [->| ->]).
           ++ symmetry. apply take_ge. rewrite length_mem_bytes. lia.
           ++ replace (Z.to_nat k) with (Z.to_nat (len (m x)) + Z.to_nat (k - len (m x)))%nat by lia. rewrite mem_bytes_app.
              by rewrite take_app_length' by (by rewrite length_mem_bytes).
    + intros a Ha. rewrite mem_store_out; [by apply Hsame|]. rewrite length_mem_bytes.
      pose proof (Hap x a (Hin x (list_elem_of_here _ _)) Ha) as Hnot. unfold in_payload in Hnot. lia.
Qed.

(** The buffer an offset falls into. *)
Lemma pkt_locate m p l off r o b : pkt m p l → 0 ≤ off → locate m l off = (r, o) →
  pkt m (head_of r) r ∧ 0 ≤ o ≤ off ∧ (∀ x, x ∈ r → x ∈ l) ∧
  drop (Z.to_nat off) (content m b l) = drop (Z.to_nat o) (content m b r) ∧
  match r with [] => total m l ≤ off | x :: _ => o < len (m x) ∧ total m l - off = total m r - o end.
Proof.
  intros Hp Hoff E. destruct (locate_spec m l off b r o (pk_len _ _ _ Hp) Hoff E) as (l1 & -> & Eo & Hz0 & Hd & Hr).
  pose proof (total_nonneg m l1 ltac:(intros; apply (pk_len _ _ _ Hp); set_solver)).
  split; [by eapply pkt_suffix|]. split; [lia|]. split; [set_solver|]. split; [done|].
  destruct r; [done|]. rewrite total_app. split; [done|lia].
Qed.

Lemma put_at_run s p l off d (Q : unit → P → Prop) : pkt (pbufs s) p l → 0 ≤ off < 65536 →
  (∀ s', bytes_become s s' (scatter (pbufs s) l off [d] (bytes s)) → Q tt s') → wp (pbuf_put_at p off d) Q s.
Proof.
  intros Hp Hoff HQ. unfold pbuf_put_at, pbuf_skip. apply wp_bind. apply (skip_run s p l off); [done|done|].
  destruct (locate (pbufs s) l off) as [r o] eqn:E. cbn [fst snd].
  destruct (pkt_locate _ _ _ _ _ _ (bytes s) Hp (proj1 Hoff) E) as (Hr & Ho & _ & _ & Hx). rewrite (head_null _ _ _ Hr).
  rewrite (scatter_locate _ _ _ _ _ _ _ (proj1 Hoff) E) in HQ. destruct r as [|x r].
  - apply wp_ret, HQ. exists (bytes s). split; [by destruct s|]. done.
  - apply wp_bind, wp_pb; [by apply (pkt_nonnull _ _ _ _ Hr)|]. destruct Hx as [Hx _]. cbn [head_of].
    destruct (Z.ltb_spec o (len (pbufs s x))); [|lia]. apply wp_modify, HQ. eexists. split; [done|]. intros a. cbn [scatter].
    destruct (Z.leb_spec (len (pbufs s x)) o); [lia|].
    destruct (Z.to_nat (len (pbufs s x) - o)) as [|k] eqn:Ek; [lia|]. cbn [drop take]. rewrite skipn_nil, firstn_nil, scatter_nil.
    unfold mem_store. simpl. destruct (decide (a = payload (pbufs s x) + o)) as [->|Hne].
    + rewrite fn_lookup_insert. rewrite Z.leb_refl. replace (_ <? _) with true by (symmetry; apply Z.ltb_lt; lia). simpl. by rewrite Z.sub_diag.
    + rewrite fn_lookup_insert_ne by done. destruct (Z.leb_spec (payload (pbufs s x) + o) a), (Z.ltb_spec a (payload (pbufs s x) + o + Z.of_nat 1)); cbn [andb]; try done; lia.
Qed.

Lemma try_get_at_run s p l off (Q : Z → P → Prop) : pkt (pbufs s) p l → 0 ≤ off < 65536 →
  Q (match content (pbufs s) (bytes s) l !! Z.to_nat off with Some c => c | None => -1 end) s → wp (pbuf_try_get_at p off) Q s.
Proof.
  intros Hp Hoff HQ. unfold pbuf_try_get_at. apply wp_bind. apply (skip_run s p l off); [done|done|].
  destruct (locate (pbufs s) l off) as [r o] eqn:E. cbn [fst snd].
  destruct (pkt_locate _ _ _ _ _ _ (bytes s) Hp (proj1 Hoff) E) as (Hr & Ho & _ & Hd & Hx). rewrite (head_null _ _ _ Hr).
  assert (El : content (pbufs s) (bytes s) l !! Z.to_nat off = content (pbufs s) (bytes s) r !! Z.to_nat o).
  { rewrite <-(Nat.add_0_r (Z.to_nat off)), <-(Nat.add_0_r (Z.to_nat o)), <-!lookup_drop. by rewrite Hd. }
  rewrite El in HQ. destruct r as [|x r]; [by apply wp_ret|].
  apply wp_bind, wp_pb; [by apply (pkt_nonnull _ _ _ _ Hr)|]. destruct Hx as [Hx _]. cbn [head_of].
  destruct (Z.ltb_spec o (len (pbufs s x))); [|lia]. apply wp_gets.
  rewrite content_cons, lookup_app_l in HQ by (rewrite length_data; lia). unfold data in HQ.
  rewrite lookup_mem_bytes in HQ by lia. by replace (payload (pbufs s x) + Z.of_nat (Z.to_nat o)) with (payload (pbufs s x) + o) in HQ by lia.
Qed.
Lemma get_at_run s p l off (Q : Z → P → Prop) : pkt (pbufs s) p l → 0 ≤ off < 65536 → (∀ a, is_byte (bytes s a)) →
  Q (nth (Z.to_nat off) (content (pbufs s) (bytes s) l) 0) s → wp (pbuf_get_at p off) Q s.
Proof.
  intros Hp Hoff Hb HQ. unfold pbuf_get_at. apply wp_bind. apply (try_get_at_run s p l off); [done|done|].
  destruct (content (pbufs s) (bytes s) l !! Z.to_nat off) as [c|] eqn:E.
  - rewrite (nth_lookup_Some _ _ _ _ E) in HQ. assert (Hc : is_byte c).
    { apply list_elem_of_lookup_2 in E. unfold content in E. apply list_elem_of_In, in_concat in E as (d & Hd & Hc).
      apply in_map_iff in Hd as (x & <- & _). apply (proj1 (List.Forall_forall _ _) (mem_bytes_bytes _ (payload (pbufs s x)) (Z.to_nat (len (pbufs s x))) Hb)), Hc. }
    unfold is_byte in Hc. destruct (Z.leb_spec 0 c); [|lia]. apply wp_ret. unfold u8. by rewrite Z.mod_small by lia.
  - apply wp_ret. apply lookup_ge_None in E. by rewrite nth_overflow in HQ by lia.
Qed.

Lemma take_at_run s p l src n off (Q : Z → P → Prop) : pkt (pbufs s) p l → 0 < src → 0 ≤ n < 65536 → 0 ≤ off < 65536 →
  src_apart (pbufs s) l src n →
  (total (pbufs s) l < off + n ∨ total (pbufs s) l = off → Q ERR_MEM s) →
  (off + n ≤ total (pbufs s) l → off < total (pbufs s) l →
    ∀ s', bytes_become s s' (scatter (pbufs s) l off (mem_bytes (bytes s) src (Z.to_nat n)) (bytes s)) → Q ERR_OK s') →
  wp (pbuf_take_at p src n off) Q s.
Proof.
  intros Hp Hsrc Hn Hoff Hap Hfail HQ. unfold pbuf_take_at, pbuf_skip. apply wp_bind. apply (skip_run s p l off); [done|done|].
  destruct (locate (pbufs s) l off) as [r o] eqn:E. cbn [fst snd].
  destruct (pkt_locate _ _ _ _ _ _ (bytes s) Hp (proj1 Hoff) E) as (Hr & Ho & Hin & Hd & Hx). rewrite (head_null _ _ _ Hr).
  rewrite (scatter_locate _ _ _ _ _ _ _ (proj1 Hoff) E) in HQ. destruct r as [|x r]; [apply wp_ret, Hfail; lia|].
  apply wp_bind, wp_pb; [by apply (pkt_nonnull _ _ _ _ Hr)|]. destruct Hx as [Hx Htot]. cbn [head_of].
  rewrite (pkt_tot_len _ _ _ _ Hr). destruct (Z.leb_spec (o + n) (total (pbufs s) (x :: r))) as [Hle|Hgt]; [|apply wp_ret, Hfail; lia].
  specialize (HQ ltac:(lia) ltac:(destruct (pkt_total _ _ _ (pkt_tail _ _ _ _ Hr)); simpl in Htot; lia)).
  pose proof (pkt_total _ _ _ (pkt_tail _ _ _ _ Hr)) as Htr. simpl in Hle.
  apply wp_bind, wp_assert; [by apply Z.ltb_lt|]. pose proof (pkt_len _ _ _ x Hr (list_elem_of_here _ _)) as Hlen.
  pose proof (pkt_total _ _ _ Hr) as Htxr.
  set (c := u16 (Z.min (len (pbufs s x) - o) n)). assert (Ec : c = Z.min (len (pbufs s x) - o) n) by (unfold c, u16; rewrite Z.mod_small; lia).
  apply wp_bind, wp_MEMCPY. unfold u16. rewrite (Z.mod_small (n - c)) by lia.
  cbn [scatter] in HQ. destruct (Z.leb_spec (len (pbufs s x)) o); [lia|].
  assert (Etake : take (Z.to_nat (len (pbufs s x) - o)) (mem_bytes (bytes s) src (Z.to_nat n)) = mem_bytes (bytes s) src (Z.to_nat c)).
  { destruct (Z.le_gt_cases n (len (pbufs s x) - o)).
    - replace c with n by lia. apply take_ge. rewrite length_mem_bytes. lia.
    - replace c with (len (pbufs s x) - o) by lia. rewrite <-(drop_0 (mem_bytes _ src (Z.to_nat n))). rewrite take_drop_mem by lia.
      by rewrite Z.add_0_r. }
  rewrite Etake in HQ. set (b1 := mem_store (bytes s) (payload (pbufs s x) + o) (mem_bytes (bytes s) src (Z.to_nat c))) in *.
  destruct (Z.ltb_spec 0 (n - c)) as [Hmore|Hdone].
  - replace (next (pbufs s x)) with (head_of r) by (symmetry; apply (pkt_head _ _ _ (pkt_tail _ _ _ _ Hr))).
    assert (Hsame : ∀ a, src + c ≤ a < src + n → b1 a = bytes s a).
    { intros a Ha. apply mem_store_out. rewrite length_mem_bytes. pose proof (Hap x a (Hin x (list_elem_of_here _ _)) ltac:(lia)) as Hnot.
      unfold in_payload in Hnot. lia. }
    apply (pbuf_take_run (with_bytes b1 s) _ r); cbn [pbufs with_bytes bytes].
    + rewrite <-(pkt_head _ _ _ (pkt_tail _ _ _ _ Hr)). by eapply pkt_tail.
    + intros ->. simpl in Hle. lia.
    + unfold NULL. lia.
    + lia.
    + intros y a Hy Ha. apply (Hap y a); [apply Hin; by apply list_elem_of_further|lia].
    + lia.
    + intros _ s' (b2 & -> & Hb2). apply HQ. exists b2. split; [by destruct s|]. intros a. rewrite Hb2. f_equal.
      rewrite (mem_bytes_ext b1 (bytes s)) by (intros; apply Hsame; lia).
      replace (Z.to_nat n) with (Z.to_nat c + Z.to_nat (n - c))%nat by lia. rewrite mem_bytes_app, drop_app_length'; [f_equal; lia|].
      rewrite length_mem_bytes. lia.
  - apply wp_ret, HQ. exists b1. split; [done|]. intros a.
    rewrite drop_ge by (rewrite length_mem_bytes; lia). symmetry. apply scatter_nil.
Qed.

(** ** Comparing and searching *)

Lemma nth_lookup_lt (l : list Z) i : (i < length l)%nat → l !! i = Some (nth i l 0).
Proof. intros Hi. destruct (nth_lookup_or_length l i 0); [done|lia]. Qed.

(** Where two sequences first differ, counted from 1; 0 if they agree. *)
Fixpoint first_diff (l1 l2 : list Z) (i : Z) : Z :=
  match l1, l2 with
  | a :: t1, b :: t2 => if a =? b then first_diff t1 t2 (i + 1) else i + 1
  | _, _ => 0
  end.
Lemma first_diff_zero l1 l2 i : 0 ≤ i → length l1 = length l2 → first_diff l1 l2 i = 0 ↔ l1 = l2.
Proof.
  revert l2 i. induction l1 as [|a l1 IH]; intros [|b l2] i Hi Hl; simpl in *; try done.
  destruct (Z.eqb_spec a b) as [->|Hne]; [rewrite IH by lia; split; congruence|]. split; [lia|congruence].
Qed.
Definition memcmp_spec (c : list Z) (off : Z) (w : list Z) : Z :=
  if Z.of_nat (length c) <? off + Z.of_nat (length w) then 0xffff else first_diff (slice c off (length w)) w 0.

Lemma memcmp_run s p l off s2 n (Q : Z → P → Prop) : pkt (pbufs s) p l → l ≠ [] → 0 ≤ off < 65536 → 0 ≤ n < 65536 → (∀ a, is_byte (bytes s a)) →
  Q (memcmp_spec (content (pbufs s) (bytes s) l) off (mem_bytes (bytes s) s2 (Z.to_nat n))) s → wp (pbuf_memcmp p off s2 n) Q s.
Proof.
  intros Hp Hne Hoff Hn Hb HQ. unfold memcmp_spec in HQ. rewrite length_mem_bytes, (length_pkt_content _ _ _ (pk_len _ _ _ Hp)), Z2Nat.id in HQ by lia.
  unfold pbuf_memcmp. destruct l as [|x0 l0]; [done|]. pose proof (pkt_head _ _ _ Hp) as ->. cbn [head_of].
  apply wp_bind, wp_pb; [by apply (pkt_nonnull _ _ _ _ Hp)|]. rewrite (pkt_tot_len _ _ _ _ Hp). set (l := x0 :: l0) in *.
  destruct (Z.ltb_spec (total (pbufs s) l) (off + n)) as [Hlt|Hge]; [by apply wp_ret|].
  apply wp_bind. apply (skip_run s x0 l off); [done|done|].
  destruct (locate (pbufs s) l off) as [r o] eqn:E. cbn [fst snd].
  destruct (pkt_locate _ _ _ _ _ _ (bytes s) Hp (proj1 Hoff) E) as (Hr & Ho & _ & Hd & Hx).
  set (w := mem_bytes (bytes s) s2 (Z.to_nat n)) in *. set (c := content (pbufs s) (bytes s) l) in *.
  assert (Hlc : Z.of_nat (length c) = total (pbufs s) l) by (apply length_pkt_content, (pk_len _ _ _ Hp)).
  assert (Hls : length (slice c off (Z.to_nat n)) = Z.to_nat n) by (apply length_slice; lia).
  apply (wp_loop (λ i t, t = s ∧ 0 ≤ i ≤ n ∧ first_diff (drop (Z.to_nat i) (slice c off (Z.to_nat n))) (drop (Z.to_nat i) w) i =
    first_diff (slice c off (Z.to_nat n)) w 0) (λ i _, n - i)).
  - split; [done|]. split; [lia|]. by rewrite !drop_0.
  - lia.
  - intros i t (_ & Hi & _). lia.
  - intros i t (-> & Hi & Ei). destruct (Z.ltb_spec i n) as [Hin|Hin].
    + assert (Hrn : match r with [] => False | x :: _ => o < len (pbufs s x) ∧ total (pbufs s) l - off = total (pbufs s) r - o end)
        by (destruct r; [lia|done]).
      assert (Hor : total (pbufs s) l - off = total (pbufs s) r - o) by (destruct r; [done|tauto]).
      pose proof (pkt_total _ _ _ Hr) as Htr.
      unfold u16. rewrite (Z.mod_small (o + i)) by lia.
      apply wp_bind, (get_at_run s (head_of r) r (o + i)); [done|lia|done|]. apply wp_bind, wp_gets.
      assert (Ea : nth (Z.to_nat (o + i)) (content (pbufs s) (bytes s) r) 0 = nth (Z.to_nat i) (slice c off (Z.to_nat n)) 0).
      { unfold slice. rewrite Hd. replace (Z.to_nat (o + i)) with (Z.to_nat o + Z.to_nat i)%nat by lia.
        rewrite nth_firstn. replace (Z.to_nat i <? Z.to_nat n)%nat with true by (symmetry; apply Nat.ltb_lt; lia). by rewrite nth_skipn. }
      assert (Ew : bytes s (s2 + i) = nth (Z.to_nat i) w 0).
      { erewrite nth_lookup_Some by (apply lookup_mem_bytes; lia). f_equal. lia. }
      rewrite Ea, Ew. revert Ei.
      rewrite (drop_S _ (nth (Z.to_nat i) (slice c off (Z.to_nat n)) 0) (Z.to_nat i))
        by (apply nth_lookup_lt; rewrite Hls; lia).
      rewrite (drop_S w (nth (Z.to_nat i) w 0) (Z.to_nat i)) by (apply nth_lookup_lt; unfold w; rewrite length_mem_bytes; lia).
      cbn [first_diff]. destruct (Z.eqb_spec (nth (Z.to_nat i) (slice c off (Z.to_nat n)) 0) (nth (Z.to_nat i) w 0)); cbn [negb]; intros Ei.
      * apply wp_ret. rewrite (Z.mod_small (i + 1)) by lia. split; [|lia]. split; [done|]. split; [lia|].
        by replace (Z.to_nat (i + 1)) with (S (Z.to_nat i)) by lia.
      * apply wp_ret. rewrite Z.min_l, Z.mod_small by lia. by rewrite Ei.
    + apply wp_ret. rewrite !drop_ge in Ei by (rewrite ?Hls; unfold w; rewrite ?length_mem_bytes; lia). simpl in Ei. by rewrite Ei.
Qed.

(** The first place from [start] on where [w] occurs; 0xFFFF if none does. *)
Definition found (c w : list Z) (start r : Z) : Prop :=
  let occurs i := start ≤ i ∧ i + Z.of_nat (length w) ≤ Z.of_nat (length c) ∧ slice c i (length w) = w in
  (occurs r ∧ ∀ i, occurs i → r ≤ i) ∨ (r = 0xFFFF ∧ ∀ i, ¬ occurs i).

Lemma memfind_run s p l mem k start (Q : Z → P → Prop) : pkt (pbufs s) p l → l ≠ [] → 0 ≤ start < 65536 → 0 ≤ k < 65536 → (∀ a, is_byte (bytes s a)) →
  (∀ r, found (content (pbufs s) (bytes s) l) (mem_bytes (bytes s) mem (Z.to_nat k)) start r → Q r s) → wp (pbuf_memfind p mem k start) Q s.
Proof.
  intros Hp Hne Hstart Hk Hb HQ. unfold pbuf_memfind. set (w := mem_bytes (bytes s) mem (Z.to_nat k)) in *. set (c := content (pbufs s) (bytes s) l) in *.
  assert (Hlc : Z.of_nat (length c) = total (pbufs s) l) by (apply length_pkt_content, (pk_len _ _ _ Hp)).
  assert (Hlw : Z.of_nat (length w) = k) by (unfold w; rewrite length_mem_bytes; lia).
  assert (Hpn : p ≠ NULL ∧ tot_len (pbufs s p) = total (pbufs s) l).
  { destruct l as [|x l]; [done|]. rewrite (pkt_head _ _ _ Hp). split; [by apply (pkt_nonnull _ _ _ _ Hp)|by apply (pkt_tot_len _ _ _ _ Hp)]. }
  destruct Hpn as [Hpn Ht]. apply wp_bind, wp_pb; [done|]. rewrite Ht. pose proof (pkt_total _ _ _ Hp) as Htot.
  destruct (Z.leb_spec (k + start) (total (pbufs s) l)) as [Hle|Hgt].
  2: { apply wp_ret, HQ. right. split; [done|]. intros i (? & ? & _). lia. }
  unfold u16. rewrite (Z.mod_small (total (pbufs s) l - k)) by lia.
  apply (wp_loop (λ i t, t = s ∧ start ≤ i ≤ total (pbufs s) l - k + 1 ∧ ∀ j, start ≤ j < i → slice c j (length w) ≠ w) (λ i _, total (pbufs s) l - k + 1 - i)).
  - split; [done|]. split; [lia|]. intros j Hj. lia.
  - lia.
  - intros i t (_ & Hi & _). lia.
  - intros i t (-> & Hi & Hno). destruct (Z.leb_spec i (total (pbufs s) l - k)) as [Hik|Hik].
    + apply wp_bind, (memcmp_run s p l i mem k); [done|done|lia|done|done|]. fold w c. unfold memcmp_spec. rewrite Hlc, Hlw.
      destruct (Z.ltb_spec (total (pbufs s) l) (i + k)); [lia|].
      assert (Hls : length (slice c i (length w)) = length w) by (apply length_slice; lia).
      destruct (Z.eqb_spec (first_diff (slice c i (length w)) w 0) 0) as [E|E].
      * apply first_diff_zero in E; [|lia|done]. apply wp_ret, HQ. left. split; [split_and!; [lia|lia|done]|].
        intros j (Hj1 & Hj2 & Hj3). destruct (Z.le_gt_cases i j); [done|]. exfalso. apply (Hno j); [lia|done].
      * assert (Hi' : slice c i (length w) ≠ w) by (intros Heq; apply E; by apply first_diff_zero; [lia|done|]).
        assert (Hmod : (i + 1) mod 2 ^ 16 = i + 1 ∨ (i = 65535)) by (destruct (decide (i = 65535)); [by right|left; apply Z.mod_small; lia]).
        destruct Hmod as [Em|Em].
        -- apply wp_ret. rewrite Em. split; [|lia]. split; [done|]. split; [lia|]. intros j Hj.
           destruct (decide (j = i)) as [->|]; [done|]. apply Hno. lia.
        -- (* only an empty pattern can be looked for at the last offset, and it is found *)
           exfalso. apply Hi'. assert (length w = O) as Hw0 by lia. apply nil_length_inv in Hw0. by rewrite Hw0.
    + apply wp_ret, HQ. right. split; [done|]. intros j (Hj1 & Hj2 & Hj3). apply (Hno j); [lia|done].
Qed.

(** ** Headers and chains *)

Definition with_pbufs (m : Z → pbuf) (s : P) : P := MkPstate m (bytes s) (heap s) (pools s) (pbuf_free_ooseq_pending s).

Lemma wp_upd_pb p f (Q : unit → P → Prop) s : p ≠ NULL → Q tt (with_pbufs (<[p := f (pbufs s p)]> (pbufs s)) s) → wp (upd_pb p f) Q s.
Proof. intros Hp HQ. unfold upd_pb. destruct (Z.eqb_spec p NULL); [done|]. by apply wp_modify. Qed.

(** A buffer whose payload starts [n] bytes later. *)
Definition shift (n : Z) (b : pbuf) : pbuf :=
  MkPbuf (next b) (payload b + n) (tot_len b - n) (len b - n) (type_internal b) (flags b) (ref b) (if_idx b).
Definition shifted (m m' : Z → pbuf) (x n : Z) : Prop := ∀ a, m' a = if decide (a = x) then shift n (m a) else m a.

Lemma totals_ext m m' l : (∀ a, a ∈ l → len (m' a) = len (m a) ∧ tot_len (m' a) = tot_len (m a)) → total m' l = total m l ∧ (totals m l → totals m' l).
Proof.
  induction l as [|x l IH]; intros Ha; [done|]. simpl. destruct (Ha x (list_elem_of_here _ _)) as [E1 E2].
  destruct (IH (λ a H, Ha a (list_elem_of_further _ _ _ H))) as [E3 E4]. rewrite E1, E2, E3. split; [done|]. intros [? ?]. split; [done|by apply E4].
Qed.
(** A packet depends on its own buffers only. *)
Lemma pkt_frame m m' p l : (∀ a, a ∈ l → len (m' a) = len (m a) ∧ tot_len (m' a) = tot_len (m a) ∧ next (m' a) = next (m a)) →
  pkt m p l → pkt m' p l.
Proof.
  intros Ha [K1 K2 K3 K4 K5]. destruct (totals_ext m m' l) as [E1 E2]; [intros a Hin; destruct (Ha a Hin) as (? & ? & ?); done|]. split.
  - unfold links, chain in *. eapply lseg_ext; [|exact K1]. intros x Hx. by destruct (Ha x Hx) as (? & ? & ?).
  - intros x Hx. destruct (Ha x Hx) as (-> & _). by apply K2.
  - by apply E2.
  - by rewrite E1.
  - done.
Qed.
Lemma content_frame m m' b l : (∀ a, a ∈ l → len (m' a) = len (m a) ∧ payload (m' a) = payload (m a)) → content m' b l = content m b l.
Proof.
  intros Ha. unfold content. f_equal. apply map_ext_in. intros x Hx. apply list_elem_of_In in Hx. destruct (Ha x Hx) as [E1 E2].
  unfold data. by rewrite E1, E2.
Qed.

(** Moving the start of the first payload, forwards or backwards. *)
Lemma pkt_shift m m' x l n : pkt m x (x :: l) → shifted m m' x n → n ≤ len (m x) → total m (x :: l) - n < 65536 → pkt m' x (x :: l).
Proof.
  intros Hp Hs Hn Ht. pose proof (pkt_tail _ _ _ _ Hp) as Htl. pose proof (links_nodup _ _ _ (pk_links _ _ _ Hp)) as [Hx _]%NoDup_cons.
  assert (Ho : ∀ a, a ∈ l → m' a = m a) by (intros a Ha; rewrite Hs; destruct (decide (a = x)) as [->|]; done).
  assert (Htl' : pkt m' (next (m x)) l) by (apply (pkt_frame m); [by intros a Ha; rewrite Ho|done]).
  assert (Ex : m' x = shift n (m x)) by (rewrite Hs; by destruct (decide (x = x))).
  assert (Et : total m' l = total m l) by (apply totals_ext; by intros a Ha; rewrite Ho).
  pose proof (pkt_tot_len _ _ _ _ Hp) as Etl. simpl in Etl. split.
  - unfold links, chain. cbn [lseg]. split; [done|]. split; [by apply (pkt_nonnull _ _ _ _ Hp)|]. rewrite Ex. apply Htl'.
  - intros a [->|Ha]%elem_of_cons; [rewrite Ex; simpl; lia|]. rewrite Ho by done. apply (pk_len _ _ _ Hp). by apply list_elem_of_further.
  - simpl. rewrite Ex, Et. simpl. split; [lia|apply Htl'].
  - simpl in *. rewrite Ex, Et. simpl. lia.
  - apply (pk_count _ _ _ Hp).
Qed.

Lemma remove_header_run s x l n (Q : Z → P → Prop) : pkt (pbufs s) x (x :: l) → 0 ≤ n →
  (n = 0 → Q 0 s) → (len (pbufs s x) < n → Q 1 s) →
  (0 < n ≤ len (pbufs s x) → ∀ m', shifted (pbufs s) m' x n → Q 0 (with_pbufs m' s)) →
  wp (pbuf_remove_header x n) Q s.
Proof.
  intros Hp Hn Hzero Hfail HQ. pose proof (pkt_nonnull _ _ _ _ Hp) as Hx. pose proof (pkt_len _ _ _ x Hp (list_elem_of_here _ _)) as Hlen.
  pose proof (pkt_total _ _ _ Hp) as Ht. pose proof (pkt_tot_len _ _ _ _ Hp) as Etl.
  unfold pbuf_remove_header. apply wp_bind, wp_assert; [by apply negb_true_iff, Z.eqb_neq|].
  destruct (Z.ltb_spec 0xFFFF n); [apply wp_ret, Hfail; lia|]. destruct (Z.eqb_spec n 0); [by apply wp_ret, Hzero|].
  apply wp_bind, wp_pb; [done|]. unfold u16. rewrite (Z.mod_small n) by lia.
  destruct (Z.ltb_spec (len (pbufs s x)) n); [by apply wp_ret, Hfail|].
  apply wp_bind, wp_upd_pb; [done|]. apply wp_bind, wp_upd_pb; [done|]. apply wp_bind, wp_upd_pb; [done|]. apply wp_ret.
  cbn [pbufs with_pbufs bytes heap pools pbuf_free_ooseq_pending]. apply HQ; [lia|]. intros a. destruct (decide (a = x)) as [->|Hne].
  - rewrite !fn_lookup_insert. unfold with_tot_len, with_len, with_payload, shift, u16. simpl.
    rewrite (Z.mod_small (tot_len _ - n)), (Z.mod_small (len _ - n)) by lia. done.
  - by rewrite !fn_lookup_insert_ne by done.
Qed.

(** Growing at the front: refused when the total would not fit in 16 bits, and
    when there is no room in front of the payload. *)
Lemma add_header_run s x l n (Q : Z → P → Prop) : pkt (pbufs s) x (x :: l) → 0 ≤ n →
  (n = 0 → Q 0 s) →
  (65536 ≤ total (pbufs s) (x :: l) + n ∨ Z.land (type_internal (pbufs s x)) PBUF_TYPE_FLAG_STRUCT_DATA_CONTIGUOUS = 0 ∨
     payload (pbufs s x) - n < x + SIZEOF_STRUCT_PBUF → Q 1 s) →
  (0 < n → total (pbufs s) (x :: l) + n < 65536 → x + SIZEOF_STRUCT_PBUF ≤ payload (pbufs s x) - n →
     ∀ m', shifted (pbufs s) m' x (- n) → Q 0 (with_pbufs m' s)) →
  wp (pbuf_add_header x n) Q s.
Proof.
  intros Hp Hn Hzero Hfail HQ. pose proof (pkt_nonnull _ _ _ _ Hp) as Hx. pose proof (pkt_len _ _ _ x Hp (list_elem_of_here _ _)) as Hlen.
  pose proof (pkt_total _ _ _ Hp) as Ht. pose proof (pkt_tot_len _ _ _ _ Hp) as Etl.
  unfold pbuf_add_header, pbuf_add_header_impl. apply wp_bind, wp_assert; [by apply negb_true_iff, Z.eqb_neq|].
  destruct (Z.ltb_spec 0xFFFF n); [apply wp_ret, Hfail; lia|]. destruct (Z.eqb_spec n 0); [by apply wp_ret, Hzero|].
  apply wp_bind, wp_pb; [done|]. unfold u16. rewrite (Z.mod_small n) by lia. rewrite Etl.
  destruct (Z.lt_ge_cases (total (pbufs s) (x :: l) + n) 65536) as [Hfit|Hwrap].
  2: { replace ((n + total (pbufs s) (x :: l)) mod 2 ^ 16 <? n) with true; [apply wp_ret, Hfail; lia|].
       symmetry. apply Z.ltb_lt. replace (n + total (pbufs s) (x :: l)) with (n + total (pbufs s) (x :: l) - 2 ^ 16 + 1 * 2 ^ 16) by lia.
       rewrite Z.mod_add, Z.mod_small by lia. lia. }
  rewrite (Z.mod_small (n + total _ _)) by lia. destruct (Z.ltb_spec (n + total (pbufs s) (x :: l)) n); [lia|].
  destruct (Z.eqb_spec (Z.land (type_internal (pbufs s x)) PBUF_TYPE_FLAG_STRUCT_DATA_CONTIGUOUS) 0) as [E|E]; cbn [negb].
  { change (0 =? 0) with true. apply wp_ret, Hfail. by right; left. }
  destruct (Z.ltb_spec (payload (pbufs s x) - n) (x + SIZEOF_STRUCT_PBUF)); [apply wp_ret, Hfail; by right; right|].
  apply wp_bind, wp_upd_pb; [done|]. apply wp_bind, wp_upd_pb; [done|]. apply wp_bind, wp_upd_pb; [done|]. apply wp_ret.
  cbn [pbufs with_pbufs bytes heap pools pbuf_free_ooseq_pending]. apply HQ; [lia|done|done|]. intros a. destruct (decide (a = x)) as [->|Hne].
  - rewrite !fn_lookup_insert. unfold with_tot_len, with_len, with_payload, shift, u16. simpl. rewrite Etl.
    rewrite !Z.mod_small by lia. f_equal; lia.
  - by rewrite !fn_lookup_insert_ne by done.
Qed.

(** The content after a shift. *)
Lemma content_removed m m' b x l n : pkt m x (x :: l) → shifted m m' x n → 0 ≤ n ≤ len (m x) →
  content m' b (x :: l) = drop (Z.to_nat n) (content m b (x :: l)).
Proof.
  intros Hp Hs Hn. pose proof (links_nodup _ _ _ (pk_links _ _ _ Hp)) as [Hx _]%NoDup_cons.
  assert (Ex : m' x = shift n (m x)) by (rewrite Hs; by destruct (decide (x = x))).
  rewrite !content_cons, drop_app_le by (rewrite length_data; lia). f_equal.
  - unfold data. rewrite Ex. simpl. rewrite <-(take_ge (drop _ _) (Z.to_nat (len (m x) - n))) by (rewrite length_drop, length_mem_bytes; lia).
    rewrite take_drop_mem by lia. f_equal. lia.
  - apply content_frame. intros a Ha. rewrite Hs. destruct (decide (a = x)) as [->|]; done.
Qed.
Lemma content_added m m' b x l n : pkt m x (x :: l) → shifted m m' x (- n) → 0 ≤ n →
  content m' b (x :: l) = mem_bytes b (payload (m x) - n) (Z.to_nat n) ++ content m b (x :: l).
Proof.
  intros Hp Hs Hn. pose proof (links_nodup _ _ _ (pk_links _ _ _ Hp)) as [Hx _]%NoDup_cons.
  pose proof (pkt_len _ _ _ x Hp (list_elem_of_here _ _)) as Hlen.
  assert (Ex : m' x = shift (- n) (m x)) by (rewrite Hs; by destruct (decide (x = x))).
  rewrite !content_cons, app_assoc. f_equal.
  - unfold data. rewrite Ex. simpl. replace (Z.to_nat (len (m x) - - n)) with (Z.to_nat n + Z.to_nat (len (m x)))%nat by lia.
    rewrite mem_bytes_app. f_equal; f_equal; lia.
  - apply content_frame. intros a Ha. rewrite Hs. destruct (decide (a = x)) as [->|]; done.
Qed.

(** The head of a joined chain: its totals grow, its last buffer gets a successor. *)
Record joined (m m' : Z → pbuf) (l1 l2 : list Z) : Prop := Joined {
  jn_other : ∀ a, a ∉ l1 → m' a = m a;
  jn_tot : ∀ a, a ∈ l1 → m' a = with_next (next (m' a)) (with_tot_len (tot_len (m a) + total m l2) (m a));
  jn_next : links m' (head_of l1) (l1 ++ l2)
}.

Lemma totals_join m m' l1 l2 : totals m l1 → totals m' l2 → total m' l2 = total m l2 → 0 ≤ total m l2 →
  (∀ a, a ∈ l1 → 0 ≤ len (m a) ∧ len (m' a) = len (m a) ∧ tot_len (m' a) = u16 (tot_len (m a) + total m l2)) →
  total m l1 + total m l2 < 65536 → totals m' (l1 ++ l2) ∧ total m' (l1 ++ l2) = total m l1 + total m l2.
Proof.
  intros Ht1 Ht2 E2 Hpos Ha Hsum. induction l1 as [|x l1 IH]; [split; [done|exact E2]|].
  destruct Ht1 as [Hx Ht1]. cbn [app totals total] in *. destruct (Ha x (list_elem_of_here _ _)) as (Hb & El & Et).
  assert (Hl : ∀ a, a ∈ l1 → 0 ≤ len (m a)) by (intros a Hin; by apply Ha, list_elem_of_further).
  pose proof (total_nonneg m l1 Hl).
  destruct IH as [IH1 IH2]; [done|intros a Hin; by apply Ha, list_elem_of_further|lia|].
  rewrite IH2, El. split; [|lia]. split; [|done]. rewrite Et, Hx. unfold u16. rewrite Z.mod_small by lia. lia.
Qed.

Lemma joined_pkt m m' h t l1 l2 : pkt m h l1 → pkt m t l2 → NoDup (l1 ++ l2) → joined m m' l1 l2 →
  total m l1 + total m l2 < 65536 → Z.of_nat (length (l1 ++ l2)) < 65536 → pkt m' h (l1 ++ l2).
Proof.
  intros Hh Ht Hnd [J1 J2 J3] Hsum Hcount. apply NoDup_app in Hnd as (Hnd1 & Hdis & Hnd2).
  assert (Hl2 : ∀ a, a ∈ l2 → m' a = m a) by (intros a Ha; apply J1; intros Ha'; by apply (Hdis a)).
  destruct (totals_ext m m' l2) as [Et2 Htl2]; [by intros a Ha; rewrite Hl2|].
  assert (Hl1 : ∀ a, a ∈ l1 → len (m' a) = len (m a) ∧ tot_len (m' a) = u16 (tot_len (m a) + total m l2)).
  { intros a Ha. rewrite J2 by done. done. }
  pose proof (pkt_total _ _ _ Ht) as Hb2.
  destruct (totals_join m m' l1 l2) as [Htot Et]; [apply (pk_totals _ _ _ Hh)|apply Htl2, (pk_totals _ _ _ Ht)|done|lia| |done|].
  { intros a Ha. split; [by apply (pk_len _ _ _ Hh)|by apply Hl1]. }
  split; [by rewrite (pkt_head _ _ _ Hh)| |done|lia|done].
  intros a [Ha|Ha]%elem_of_app; [rewrite (proj1 (Hl1 a Ha)); by apply (pk_len _ _ _ Hh)|rewrite Hl2 by done; by apply (pk_len _ _ _ Ht)].
Qed.
Lemma joined_content m m' b l1 l2 : NoDup (l1 ++ l2) → joined m m' l1 l2 → content m' b (l1 ++ l2) = content m b l1 ++ content m b l2.
Proof.
  intros (_ & Hdis & _)%NoDup_app [J1 J2 _]. rewrite content_app. f_equal; apply content_frame; intros a Ha.
  - by rewrite J2.
  - rewrite J1; [done|]. intros Ha'. by apply (Hdis a).
Qed.

Lemma cat_run s h t l1 l2 (Q : unit → P → Prop) : pkt (pbufs s) h l1 → pkt (pbufs s) t l2 → l1 ≠ [] → l2 ≠ [] → NoDup (l1 ++ l2) →
  total (pbufs s) l1 + total (pbufs s) l2 < 65536 →
  (∀ m', joined (pbufs s) m' l1 l2 → Q tt (with_pbufs m' s)) → wp (pbuf_cat h t) Q s.
Proof.
  intros Hh Ht Hne1 Hne2 Hnd Hsum HQ. unfold pbuf_cat. set (m := pbufs s) in *. set (T := total m l2) in *.
  assert (Ht0 : t ≠ NULL ∧ t ∈ l2 ∧ tot_len (m t) = T ∧ t = head_of l2).
  { destruct l2 as [|y l2]; [done|]. pose proof (pkt_head _ _ _ Ht) as ->. cbn [head_of]. split; [by apply (pkt_nonnull _ _ _ _ Ht)|].
    split; [apply list_elem_of_here|]. split; [by apply (pkt_tot_len _ _ _ _ Ht)|done]. }
  destruct Ht0 as (Ht0 & Ht2 & Htt & Eth). pose proof (NoDup_app l1 l2) as [Hnda _]. destruct (Hnda Hnd) as (Hnd1 & Hdis & Hnd2).
  assert (Htn : t ∉ l1) by (intros Hin; by apply (Hdis t)).
  rewrite (proj2 (Z.eqb_neq t NULL) Ht0), orb_false_r, (head_null _ _ _ Hh).
  replace (match l1 with [] => true | _ :: _ => false end) with false by (by destruct l1).
  apply wp_bind, wp_pb; [done|]. apply wp_bind.
  (* the buffers passed have their totals raised *)
  apply (wp_loop_ghost (λ r q u, ∃ dn m1, u = with_pbufs m1 s ∧ l1 = dn ++ r ∧ r ≠ [] ∧ q = head_of r ∧
    (∀ a, a ∉ dn → m1 a = m a) ∧ (∀ a, a ∈ dn → m1 a = with_tot_len (tot_len (m a) + T) (m a))) length _ _ l1).
  - exists [], m. split; [by destruct s|]. split; [done|]. split; [done|]. split; [by rewrite (pkt_head _ _ _ Hh)|]. split; [done|]. by intros a ?%elem_of_nil.
  - pose proof (pk_count _ _ _ Hh). lia.
  - intros r q u (dn & m1 & -> & El & Hr & -> & Hout & Hin). destruct r as [|x r]; [done|]. cbn [head_of].
    assert (Hxl : x ∈ l1) by (rewrite El; set_solver).
    assert (Hxn : x ∉ dn). { rewrite El in Hnd1. apply NoDup_app in Hnd1 as (_ & Hd & _). intros Hx. by apply (Hd x Hx), list_elem_of_here. }
    assert (Hx0 : x ≠ NULL) by (by apply (links_nonnull _ _ _ _ (pk_links _ _ _ Hh))).
    assert (Hlk : links m (next (m x)) r).
    { pose proof (pk_links _ _ _ Hh) as Hlk. rewrite El in Hlk. apply links_app in Hlk. by apply links_cons in Hlk as (_ & _ & ?). }
    assert (Hm1x : m1 x = m x) by (by apply Hout).
    assert (Hm1t : m1 t = m t) by (apply Hout; intros Hd; apply Htn; rewrite El; set_solver).
    apply wp_bind, wp_pb; [done|]. cbn [pbufs with_pbufs]. rewrite Hm1x. destruct r as [|y r].
    + (* the last one *)
      unfold links, chain in Hlk. cbn [lseg] in Hlk. rewrite Hlk. cbn [Z.eqb negb]. change (NULL =? NULL) with true. cbn [negb].
      apply wp_ret. apply wp_bind, wp_pb; [done|]. cbn [pbufs with_pbufs]. rewrite Hm1x, Hlk.
      assert (Etl : tot_len (m x) = len (m x)).
      { pose proof (pk_totals _ _ _ Hh) as Htot. rewrite El in Htot. clear -Htot. induction dn as [|d dn IH]; simpl in Htot; [destruct Htot; lia|tauto]. }
      apply wp_bind, wp_assert; [by apply Z.eqb_eq|]. apply wp_bind, wp_assert; [done|]. apply wp_bind, wp_pb; [done|]. cbn [pbufs with_pbufs]. rewrite Hm1t, Htt.
      apply wp_bind, wp_upd_pb; [done|]. apply wp_upd_pb; [done|]. cbn [pbufs with_pbufs bytes heap pools pbuf_free_ooseq_pending]. apply HQ.
      rewrite fn_lookup_insert, Hm1x. split.
      * intros a Ha. rewrite !fn_lookup_insert_ne by (intros ->; done). apply Hout. intros Hd. apply Ha. rewrite El. set_solver.
      * intros a Ha. destruct (decide (a = x)) as [->|Hne]; [by rewrite fn_lookup_insert|].
        rewrite !fn_lookup_insert_ne by done. rewrite El in Ha. assert (Had : a ∈ dn) by set_solver. rewrite Hin by done. done.
      * rewrite El, <-app_assoc. cbn [app].
        assert (Hpre : ∀ a, a ∈ dn → a ≠ x) by (intros a Ha ->; done).
        replace (head_of (dn ++ [x])) with h by (rewrite <-El; by rewrite (pkt_head _ _ _ Hh)).
        unfold links, chain. apply lseg_app. exists x. split.
        -- pose proof (pk_links _ _ _ Hh) as Hlk1. rewrite El in Hlk1. apply lseg_app in Hlk1 as (z & Hz1 & Hz2). destruct Hz2 as (-> & _).
           eapply lseg_ext; [|exact Hz1]. intros a Ha. rewrite !fn_lookup_insert_ne by (by apply not_eq_sym, Hpre). by rewrite Hin.
        -- cbn [lseg]. split; [done|]. split; [done|]. rewrite fn_lookup_insert. cbn [next with_next].
           pose proof (pk_links _ _ _ Ht) as Hlk2. unfold links, chain in Hlk2. eapply lseg_ext; [|exact Hlk2].
           intros a Ha. assert (a ≠ x) by (intros ->; by apply (Hdis x)). rewrite !fn_lookup_insert_ne by done.
           rewrite Hout; [done|]. intros Hd. apply (Hdis a); [rewrite El; set_solver|done].
    + apply links_cons in Hlk as (Hy & Hy0 & _). rewrite Hy. rewrite (proj2 (Z.eqb_neq y NULL) Hy0). cbn [negb].
      apply wp_bind, wp_pb; [done|]. cbn [pbufs with_pbufs]. rewrite Hm1t, Htt. apply wp_bind, wp_upd_pb; [done|]. apply wp_ret.
      cbn [pbufs with_pbufs bytes heap pools pbuf_free_ooseq_pending]. exists (y :: r). split; [|simpl; lia].
      exists (dn ++ [x]), (<[x:=with_tot_len (tot_len (m1 x) + T) (m1 x)]> m1). split; [done|].
      split; [by rewrite <-app_assoc|]. split; [done|]. split; [done|]. rewrite Hm1x. split.
      * intros a Ha. rewrite fn_lookup_insert_ne by set_solver. apply Hout. set_solver.
      * intros a Ha. destruct (decide (a = x)) as [->|Hne]; [by rewrite fn_lookup_insert|]. rewrite fn_lookup_insert_ne by done.
        apply Hin. set_solver.
Qed.

(** ** Copying from packet to packet *)

(** Storing a piece that stays within the first buffer, then the rest. *)
Lemma scatter_step m x l o c r b a : 0 ≤ o → o + Z.of_nat (length c) ≤ len (m x) →
  scatter m (x :: l) o (c ++ r) b a = scatter m (x :: l) (o + Z.of_nat (length c)) r (mem_store b (payload (m x) + o) c) a.
Proof.
  intros Ho Hc. cbn [scatter]. destruct (Z.leb_spec (len (m x)) o) as [Hle|Hlt].
  - destruct c; [|simpl in Hc; lia]. destruct (Z.leb_spec (len (m x)) (o + Z.of_nat (length (@nil Z)))); [|simpl in *; lia].
    cbn [app length Z.of_nat]. rewrite Z.add_0_r. symmetry. apply scatter_ext, mem_store_nil.
  - destruct (Z.leb_spec (len (m x)) (o + Z.of_nat (length c))) as [Hle2|Hlt2].
    + replace (Z.to_nat (len (m x) - o)) with (length c) by lia. rewrite drop_app_length, take_app_length.
      by replace (o + Z.of_nat (length c) - len (m x)) with 0 by lia.
    + replace (Z.to_nat (len (m x) - o)) with (length c + Z.to_nat (len (m x) - (o + Z.of_nat (length c))))%nat by lia.
      rewrite take_app_add, drop_app_add. apply scatter_ext. intros z. symmetry. rewrite Z.add_assoc. apply mem_store_app.
Qed.
Lemma scatter_next m x l r b : scatter m (x :: l) (len (m x)) r b = scatter m l 0 r b.
Proof. cbn [scatter]. rewrite Z.leb_refl. by rewrite Z.sub_diag. Qed.

Definition positive (m : Z → pbuf) (l : list Z) : Prop := ∀ x, x ∈ l → 0 < len (m x).
(** A chain of nonempty buffers is one packet only. *)
Lemma not_queue m p l : pkt m p l → positive m l → l ≠ [] → (len (m p) =? tot_len (m p)) && negb (next (m p) =? NULL) = false.
Proof.
  intros Hp Hpos Hne. destruct l as [|x l]; [done|]. pose proof (pkt_head _ _ _ Hp) as ->. cbn [head_of].
  rewrite (pkt_tot_len _ _ _ _ Hp). pose proof (pkt_tail _ _ _ _ Hp) as Ht. rewrite (head_null _ _ _ Ht).
  destruct l as [|y l]; [by rewrite andb_false_r|]. simpl. rewrite andb_true_r. apply Z.eqb_neq.
  pose proof (Hpos y ltac:(set_solver)). pose proof (pkt_total _ _ _ (pkt_tail _ _ _ _ Ht)). lia.
Qed.
Lemma queue_check_run s p l (Q : bool → P → Prop) : pkt (pbufs s) p l → positive (pbufs s) l → Q false s →
  wp (if match l with [] => true | _ :: _ => false end then mret false
      else b ← pb p; mret ((len b =? tot_len b) && negb (next b =? NULL))) Q s.
Proof.
  intros Hp Hpos HQ. destruct l as [|x l]; [by apply wp_ret|].
  pose proof (not_queue _ _ _ Hp Hpos ltac:(done)) as Hnq. pose proof (pkt_head _ _ _ Hp) as ->. cbn [head_of] in *.
  apply wp_bind, wp_pb; [by apply (pkt_nonnull _ _ _ _ Hp)|]. apply wp_ret. by rewrite Hnq.
Qed.

(** The place after [o] in a chain whose first buffer reaches at least to [o]. *)
Lemma next_place m x l o : pkt m x (x :: l) → positive m (x :: l) → 0 ≤ o ≤ len (m x) → ∃ l' o',
  (if len (m x) <=? o then (next (m x), 0) else (x, o)) = (head_of l', o') ∧
  (if o =? len (m x) then (next (m x), 0) else (x, o)) = (head_of l', o') ∧
  pkt m (head_of l') l' ∧ 0 ≤ o' ∧ total m l' - o' = total m (x :: l) - o ∧ match l' with [] => True | y :: _ => o' < len (m y) end ∧
  (∀ y, y ∈ l' → y ∈ x :: l) ∧ (length l' ≤ length (x :: l))%nat ∧ (o = len (m x) → length l' = length l) ∧
  (∀ b, drop (Z.to_nat o) (content m b (x :: l)) = drop (Z.to_nat o') (content m b l')) ∧
  (∀ r b a, scatter m (x :: l) o r b a = scatter m l' o' r b a).
Proof.
  intros Hp Hpos Ho. destruct (Z.leb_spec (len (m x)) o) as [Hle|Hlt].
  - replace o with (len (m x)) by lia. pose proof (pkt_tail _ _ _ _ Hp) as Ht. pose proof (pkt_head _ _ _ Ht) as Eh. exists l, 0.
    rewrite Z.eqb_refl, <-Eh. split; [done|]. split; [done|]. split; [done|]. split; [done|]. split; [simpl; lia|].
    split; [destruct l as [|y l]; [done|apply Hpos; set_solver]|]. split; [intros y Hy; by apply list_elem_of_further|].
    split; [simpl; lia|]. split; [done|]. split.
    + intros b. rewrite content_cons, drop_app_length' by (rewrite length_data; lia). done.
    + intros r b a. by rewrite scatter_next.
  - rewrite (proj2 (Z.eqb_neq o (len (m x)))) by lia. exists (x :: l), o. cbn [head_of]. split_and!; try done; lia.
Qed.

Section copying.
Context (s : P) (lt lf : list Z) (n off : Z).
Let m := pbufs s.
Let b := bytes s.
Hypothesis (Hpos_t : positive m lt) (Hpos_f : positive m lf).
(** The bytes are right if no buffer of one packet overlaps one of the other. *)
Definition no_overlap : Prop := ∀ x y a, x ∈ lt → y ∈ lf → in_payload m x a → ¬ in_payload m y a.
Let final := scatter m lt off (take (Z.to_nat n) (content m b lf)) b.

(** Between two rounds. *)
Definition copying (rt rf : list Z) (k o1 o2 : Z) (b' : memory) : Prop :=
  pkt m (head_of rt) rt ∧ pkt m (head_of rf) rf ∧ 0 ≤ k ∧ 0 ≤ o1 ∧ 0 ≤ o2 ∧ k ≤ total m rt - o1 ∧ k ≤ total m rf - o2 ∧
  match rt with [] => True | x :: _ => o1 ≤ len (m x) end ∧ match rf with [] => True | x :: _ => o2 < len (m x) end ∧
  (∀ x, x ∈ rt → x ∈ lt) ∧ (∀ x, x ∈ rf → x ∈ lf) ∧
  (no_overlap → (∀ y a, y ∈ lf → in_payload m y a → b' a = b a) ∧
    ∀ a, scatter m rt o1 (take (Z.to_nat k) (drop (Z.to_nat o2) (content m b rf))) b' a = final a).

Lemma copy_round_run xt rt xf rf k o1 o2 b' (Q : Z * Z * Z * Z * Z + Z → P → Prop) :
  copying (xt :: rt) (xf :: rf) k o1 o2 b' → k < 65536 →
  (∀ b'', (no_overlap → ∀ a, b'' a = final a) → Q (inr ERR_OK) (with_bytes b'' s)) →
  (∀ rt' rf' k' o1' o2' b'', copying rt' rf' k' o1' o2' b'' → 0 < k' < 65536 → (length rt' + length rf' < length (xt :: rt) + length (xf :: rf))%nat →
     rt' ≠ [] → rf' ≠ [] → Q (inl (head_of rt', head_of rf', k', o1', o2')) (with_bytes b'' s)) →
  wp (copy_round xt xf k o1 o2) Q (with_bytes b' s).
Proof using Hpos_t Hpos_f.
  intros (Hpt & Hpf & Hk & Hot & Hof & Hkt & Hkf & Hott & Hoff & Hint & Hinf & Hbytes) Hk16 Hdone Hmore.
  pose proof (pkt_len _ _ _ xt Hpt (list_elem_of_here _ _)) as Hlt. pose proof (pkt_len _ _ _ xf Hpf (list_elem_of_here _ _)) as Hlf.
  pose proof (pkt_total _ _ _ Hpt) as Htt. pose proof (pkt_total _ _ _ Hpf) as Htf.
  unfold copy_round. apply wp_bind, wp_pb; [by apply (pkt_nonnull _ _ _ _ Hpt)|]. apply wp_bind, wp_pb; [by apply (pkt_nonnull _ _ _ _ Hpf)|].
  cbn [pbufs with_bytes]. fold m. rewrite !u64_small by lia.
  set (lc := if len (m xf) - o2 <=? len (m xt) - o1 then len (m xf) - o2 else len (m xt) - o1).
  assert (Hlc : lc = Z.min (len (m xf) - o2) (len (m xt) - o1)) by (unfold lc; destruct (Z.leb_spec (len (m xf) - o2) (len (m xt) - o1)); lia).
  unfold u16. rewrite (Z.mod_small (Z.min k lc)) by lia. set (nn := Z.min k lc) in *.
  apply wp_bind, wp_MEMCPY. rewrite (Z.mod_small (k - nn)) by lia. cbn [bytes with_bytes].
  set (c := mem_bytes b' (payload (m xf) + o2) (Z.to_nat nn)). set (b'' := mem_store b' (payload (m xt) + o1) c).
  change (with_bytes b'' (with_bytes b' s)) with (with_bytes b'' s).
  assert (Hlc' : length c = Z.to_nat nn) by apply length_mem_bytes.
  assert (Hbytes' : no_overlap → (∀ y a, y ∈ lf → in_payload m y a → b'' a = b a) ∧
    ∀ a, scatter m (xt :: rt) (o1 + nn) (take (Z.to_nat (k - nn)) (drop (Z.to_nat (o2 + nn)) (content m b (xf :: rf)))) b'' a = final a).
  { intros Hapart. destruct (Hbytes Hapart) as [Hsame Hfin]. split.
    - intros y a Hy Ha. unfold b''. rewrite mem_store_out; [by apply (Hsame y)|]. rewrite Hlc'.
      pose proof (Hapart xt y a (Hint xt (list_elem_of_here _ _)) Hy) as Hnot. unfold in_payload in *. lia.
    - assert (Ec : c = mem_bytes b (payload (m xf) + o2) (Z.to_nat nn)).
      { apply mem_bytes_ext. intros a Ha. apply (Hsame xf); [apply Hinf, list_elem_of_here|unfold in_payload; lia]. }
      assert (Hsplit : take (Z.to_nat k) (drop (Z.to_nat o2) (content m b (xf :: rf))) =
        c ++ take (Z.to_nat (k - nn)) (drop (Z.to_nat (o2 + nn)) (content m b (xf :: rf)))).
      { rewrite <-(take_drop (Z.to_nat nn) (take (Z.to_nat k) _)), take_take, skipn_firstn_comm, drop_drop. f_equal.
        - rewrite Nat.min_l by lia. rewrite content_cons, drop_app_le by (rewrite length_data; lia).
          rewrite take_app_le by (rewrite length_drop, length_data; lia). unfold data. rewrite take_drop_mem by lia. rewrite Ec. f_equal. lia.
        - f_equal; [lia|]. f_equal. lia. }
      intros a. rewrite <-Hfin, Hsplit, scatter_step by (rewrite ?Hlc'; lia). rewrite Hlc', Z2Nat.id by lia. done. }
  apply wp_bind, wp_assert; [apply Z.leb_le; lia|]. apply wp_bind, wp_assert; [apply Z.leb_le; lia|].
  destruct (next_place m xf rf (o2 + nn)) as (rf' & o2' & Ef & _ & Hpf' & Hof' & Htf' & Hlf' & Hinf' & Hnf' & Hef & Hdf & _);
    [done|intros y Hy; by apply Hpos_f, Hinf|lia|].
  destruct (next_place m xt rt (o1 + nn)) as (rt' & o1' & _ & Et & Hpt' & Hot' & Htt' & Hlt' & Hint' & Hnt' & Het & _ & Hst);
    [done|intros y Hy; by apply Hpos_t, Hint|lia|].
  rewrite Ef. rewrite (head_null _ _ _ Hpf').
  assert (Hbadf : (len (m xf) <=? o2 + nn) && match rf' with [] => true | _ :: _ => false end && negb (k - nn =? 0) = false).
  { destruct rf'; [|by rewrite andb_false_r]. simpl in Htf'. replace (k - nn) with 0 by (simpl in Hkf; lia). apply andb_false_r. }
  rewrite Hbadf, Et, (head_null _ _ _ Hpt').
  assert (Hbadt : (o1 + nn =? len (m xt)) && match rt' with [] => true | _ :: _ => false end && negb (k - nn =? 0) = false).
  { destruct rt'; [|by rewrite andb_false_r]. simpl in Htt'. replace (k - nn) with 0 by (simpl in Hkt; lia). apply andb_false_r. }
  rewrite Hbadt. apply wp_bind.
  apply (queue_check_run _ _ rf'); [done|intros y Hy; by apply Hpos_f, Hinf, Hinf'|]. cbn [negb].
  apply wp_bind. apply (queue_check_run _ _ rt'); [done|intros y Hy; by apply Hpos_t, Hint, Hint'|].
  destruct (Z.eqb_spec (k - nn) 0) as [Ek|Ek]; cbn [negb]; apply wp_ret.
  - apply Hdone. intros Hapart a. rewrite <-(proj2 (Hbytes' Hapart)), Ek. rewrite take_0. symmetry. apply scatter_nil.
  - apply (Hmore rt' rf' (k - nn) o1' o2' b''); [|lia| | |].
    + split; [done|]. split; [done|]. split; [lia|]. split; [done|]. split; [done|]. split; [lia|]. split; [lia|].
      split; [destruct rt'; [done|lia]|]. split; [done|]. split; [intros y Hy; by apply Hint, Hint'|]. split; [intros y Hy; by apply Hinf, Hinf'|].
      intros Hapart. destruct (Hbytes' Hapart) as [Hsame' Hfin']. split; [done|]. intros a. rewrite <-Hst, <-Hdf. apply Hfin'.
    + assert (o1 + nn = len (m xt) ∨ o2 + nn = len (m xf)) as [E|E] by lia; [specialize (Het E)|specialize (Hef E)]; simpl in *; lia.
    + intros ->. simpl in Htt', Hkt. lia.
    + intros ->. simpl in Htf', Hkf. lia.
Qed.
End copying.

(** The whole copy: the first [n] bytes of one packet replace those of the
    other from [off] on, if the two do not overlap.  The offset must fall into the first buffer (or onto
    its end), which the function does not check. *)
Lemma copy_pkt_run s pt pf lt lf n off (Q : Z → P → Prop) :
  pkt (pbufs s) pt lt → pkt (pbufs s) pf lf → positive (pbufs s) lt → positive (pbufs s) lf →
  0 ≤ n < 65536 → 0 ≤ off → match lt with [] => True | x :: _ => off ≤ len (pbufs s x) end →
  (lt = [] ∨ lf = [] ∨ total (pbufs s) lf < n ∨ total (pbufs s) lt < off + n → Q ERR_ARG s) →
  (off + n ≤ total (pbufs s) lt → n ≤ total (pbufs s) lf → ∀ b,
     (no_overlap s lt lf → ∀ a, b a = scatter (pbufs s) lt off (take (Z.to_nat n) (content (pbufs s) (bytes s) lf)) (bytes s) a) →
     Q ERR_OK (with_bytes b s)) →
  wp (pbuf_copy_partial_pbuf pt pf n off) Q s.
Proof.
  intros Hpt Hpf Hpos_t Hpos_f Hn Hoff Hfirst Hfail HQ. unfold pbuf_copy_partial_pbuf.
  rewrite (head_null _ _ _ Hpf), (head_null _ _ _ Hpt).
  destruct lf as [|xf lf]; [apply wp_ret, wp_ret, Hfail; tauto|]. pose proof (pkt_head _ _ _ Hpf) as ->. cbn [head_of].
  apply wp_bind, wp_bind, wp_pb; [by apply (pkt_nonnull _ _ _ _ Hpf)|]. rewrite (pkt_tot_len _ _ _ _ Hpf).
  destruct (Z.leb_spec n (total (pbufs s) (xf :: lf))) as [Hnf|Hnf]; apply wp_ret; cbn [negb]; [|apply wp_ret, Hfail; lia].
  destruct lt as [|xt lt]; [apply wp_ret, wp_ret, Hfail; tauto|]. pose proof (pkt_head _ _ _ Hpt) as ->. cbn [head_of].
  apply wp_bind, wp_bind, wp_pb; [by apply (pkt_nonnull _ _ _ _ Hpt)|]. rewrite (pkt_tot_len _ _ _ _ Hpt).
  destruct (Z.leb_spec (off + n) (total (pbufs s) (xt :: lt))) as [Hnt|Hnt]; apply wp_ret; cbn [negb]; [|apply wp_ret, Hfail; lia].
  clear Hfail.
  apply (wp_loop_ghost (λ '(rt, rf) '(q_t, q_f, k, o1, o2) t, ∃ b', t = with_bytes b' s ∧ q_t = head_of rt ∧ q_f = head_of rf ∧
      copying s (xt :: lt) (xf :: lf) n off rt rf k o1 o2 b' ∧ k < 65536 ∧ rt ≠ [] ∧ rf ≠ [])
    (λ '(rt, rf), length rt + length rf)%nat _ _ (xt :: lt, xf :: lf)).
  - exists (bytes s). split; [by destruct s|]. split; [done|]. split; [done|]. split; [|split; [lia|done]]. unfold copying.
    split_and!; try done; try lia. apply Hpos_f, list_elem_of_here.
  - pose proof (pk_count _ _ _ Hpt). pose proof (pk_count _ _ _ Hpf). lia.
  - intros [rt rf] [[[[q_t q_f] k] o1] o2] t (b' & -> & -> & -> & Hc & Hk & Hrt & Hrf).
    destruct rt as [|yt rt]; [done|]. destruct rf as [|yf rf]; [done|]. cbn [head_of].
    apply (copy_round_run s (xt :: lt) (xf :: lf) n off Hpos_t Hpos_f yt rt yf rf k o1 o2 b'); [done|done| |].
    + intros b'' Hb. by apply HQ.
    + intros rt' rf' k' o1' o2' b'' Hc' Hk' Hlen Hrt' Hrf'. exists (rt', rf'). split; [|exact Hlen]. exists b''. split_and!; try done; lia.
Qed.
End functions.
