(* ===== verification/LwipPbufChksum.v ===== *)
(** * LwipPbufChksum: checksums over packets (core/inet_chksum.c)

    The sum over a chain of buffers, with and without the pseudo header of TCP
    and UDP: buffers of odd length turn the accumulator round.  The result is
    the checksum of the packet's bytes, however they are cut into buffers. *)

From Stdlib Require Import ZArith Lia.
From stdpp Require Import base numbers list option functions gmap sets fin_sets.
From S2P Require Import Prelude LwipBase LwipChksum LwipPbuf LwipPbufData.
Open Scope Z_scope.

Section chksum.
Context {H M : Type}.
Abbreviation P := (pstate H M).

Definition in_bytes {A} : comp memory A → comp P A :=
  zoom bytes (λ b s, MkPstate (pbufs s) b (heap s) (pools s) (pbuf_free_ooseq_pending s)).

(** [for (q = p; q != NULL; q = q->next)]: the sum over the chain, and whether
    it is turned round. *)
Definition sum_chain (p acc : Z) : comp P (Z * bool) :=
  loop (λ '(q, acc, swapped),
    if q =? NULL then mret (inr (acc, swapped))
    else
      b ← pb q;
      c ← in_bytes (lwip_standard_chksum (payload b) (len b));
      let acc := FOLD_U32T (u32 (acc + c)) in
      if negb (len b mod 2 =? 0) then mret (inl (next b, SWAP_BYTES_IN_WORD acc, negb swapped))
      else mret (inl (next b, acc, swapped))) (p, acc, false).

Definition inet_chksum_pbuf (p : Z) : comp P Z :=
  '(acc, swapped) ← sum_chain p 0;
  let acc := if swapped : bool then SWAP_BYTES_IN_WORD acc else acc in
  mret (u16 (Z.lnot (Z.land acc 0xffff))).

(** The end of the pseudo header's sum. *)
Definition pseudo_tail (acc : Z) (swapped : bool) (proto proto_len : Z) : Z :=
  let acc := if swapped then SWAP_BYTES_IN_WORD acc else acc in
  let acc := u32 (acc + lwip_htons (u16 proto)) in
  let acc := u32 (acc + lwip_htons proto_len) in
  let acc := FOLD_U32T acc in
  let acc := FOLD_U32T acc in
  u16 (Z.lnot (Z.land acc 0xffff)).

Definition inet_cksum_pseudo_base (p proto proto_len acc : Z) : comp P Z :=
  '(acc, swapped) ← sum_chain p acc;
  mret (pseudo_tail acc swapped proto proto_len).

(** The words of the two addresses, which are pointed to. *)
Definition sum_addrs (src dest : Z) : comp P Z :=
  addr ← gets (λ s, le_dec (mem_bytes (bytes s) src 4));
  let acc := Z.land addr 0xffff in
  let acc := u32 (acc + Z.land (Z.shiftr addr 16) 0xffff) in
  addr ← gets (λ s, le_dec (mem_bytes (bytes s) dest 4));
  let acc := u32 (acc + Z.land addr 0xffff) in
  let acc := u32 (acc + Z.land (Z.shiftr addr 16) 0xffff) in
  let acc := FOLD_U32T acc in
  mret (FOLD_U32T acc).

Definition inet_chksum_pseudo (p proto proto_len src dest : Z) : comp P Z :=
  acc ← sum_addrs src dest;
  inet_cksum_pseudo_base p proto proto_len acc.
Definition ip_chksum_pseudo (p proto proto_len src dest : Z) : comp P Z := inet_chksum_pseudo p proto proto_len src dest.

(** The same over the first [chksum_len] bytes. *)
Definition sum_chain_partial (p chksum_len acc : Z) : comp P (Z * bool) :=
  loop (λ '(q, rest, acc, swapped),
    if negb (q =? NULL) && (0 <? rest) then
      b ← pb q;
      let chklen := if rest <? len b then rest else len b in
      c ← in_bytes (lwip_standard_chksum (payload b) chklen);
      let acc := u32 (acc + c) in
      let rest := u16 (rest - chklen) in
      LWIP_ASSERT (rest <? 0x7fff);;
      let acc := FOLD_U32T acc in
      if negb (len b mod 2 =? 0) then mret (inl (next b, rest, SWAP_BYTES_IN_WORD acc, negb swapped))
      else mret (inl (next b, rest, acc, swapped))
    else mret (inr (acc, swapped))) (p, chksum_len, acc, false).
Definition inet_cksum_pseudo_partial_base (p proto proto_len chksum_len acc : Z) : comp P Z :=
  '(acc, swapped) ← sum_chain_partial p chksum_len acc;
  mret (pseudo_tail acc swapped proto proto_len).
Definition inet_chksum_pseudo_partial (p proto proto_len chksum_len src dest : Z) : comp P Z :=
  acc ← sum_addrs src dest;
  inet_cksum_pseudo_partial_base p proto proto_len chksum_len acc.
Definition ip_chksum_pseudo_partial (p proto proto_len chksum_len src dest : Z) : comp P Z :=
  inet_chksum_pseudo_partial p proto proto_len chksum_len src dest.

(** ** The accumulator *)

(** The value of an accumulator that started with [A] and has summed up the
    bytes [d], turned round or not. *)
Definition acc_of (swapped : bool) (A : Z) (d : list Z) : Z :=
  canon (if swapped then 256 * (A + le_dec d) else A + le_dec d).

Lemma canon_add_r a b : 0 ≤ a → 0 ≤ b → canon (a + canon b) = canon (a + b).
Proof. intros Ha Hb. rewrite Z.add_comm, canon_add by done. f_equal. lia. Qed.
Lemma canon_affine a x y : 0 ≤ a → 0 ≤ x → 0 ≤ y → canon x = canon y → canon (a + 256 * x) = canon (a + 256 * y).
Proof.
  intros Ha Hx Hy E. rewrite <-(canon_add_r a (256 * x)), <-(canon_add_r a (256 * y)) by lia. do 2 f_equal.
  rewrite !(Z.mul_comm 256), <-(canon_mul x), <-(canon_mul y) by lia. by rewrite E.
Qed.
Lemma acc_range w A d : 0 ≤ A → Forall is_byte d → 0 ≤ acc_of w A d ≤ 65535.
Proof. intros HA Hd. pose proof (le_dec_nonneg d Hd). apply canon_range. destruct w; lia. Qed.
Lemma acc_swap w A d : 0 ≤ A → Forall is_byte d → SWAP_BYTES_IN_WORD (acc_of w A d) = acc_of (negb w) A d.
Proof.
  intros HA Hd. pose proof (le_dec_nonneg d Hd). unfold acc_of. destruct w; cbn [negb]; rewrite swap_canon by lia; [|done].
  rewrite Z.mul_assoc. apply canon_65536. lia.
Qed.
Lemma acc_plain w A d : 0 ≤ A → Forall is_byte d → (if w : bool then SWAP_BYTES_IN_WORD (acc_of w A d) else acc_of w A d) = canon (A + le_dec d).
Proof. intros HA Hd. destruct w; [rewrite acc_swap by done|]; done. Qed.
(** One more piece, which starts at an odd place exactly when the accumulator
    is turned round. *)
Lemma acc_step w A d e : 0 ≤ A → Forall is_byte d → Forall is_byte e → w = Nat.odd (length d) →
  FOLD_U32T (u32 (acc_of w A d + csum e)) = acc_of w A (d ++ e).
Proof.
  intros HA Hd He Hw. pose proof (acc_range w A d HA Hd) as Ha. pose proof (csum_range e He) as Hc.
  pose proof (le_dec_nonneg d Hd) as Ed. pose proof (le_dec_nonneg e He) as Ee.
  assert (Hde : 0 ≤ le_dec (d ++ e)) by (apply le_dec_nonneg, Forall_app; done).
  rewrite u32_small, fold_small by lia. unfold acc_of, csum in *. destruct w.
  - assert (Ho : Nat.Odd (length d)) by (apply Nat.odd_spec; done). pose proof (le_dec_app_odd d e Hd He Ho) as E.
    rewrite canon_add, canon_add_r by (lia || apply canon_range; lia).
    transitivity (canon (256 * A + 256 * (le_dec d + 256 * le_dec e))).
    + apply (canon_cong _ _ (- le_dec e)); lia.
    + rewrite (canon_affine (256 * A) _ (le_dec (d ++ e))) by (lia || done). f_equal. lia.
  - assert (Hev : Nat.Even (length d)) by (apply Nat.even_spec; by rewrite <-Nat.negb_odd, <-Hw). pose proof (le_dec_app_even d e Hd He Hev) as E.
    rewrite canon_add, canon_add_r by (lia || apply canon_range; lia).
    rewrite <-Z.add_assoc, <-canon_add_r, <-E, canon_add_r by lia. done.
Qed.

Lemma lnot_acc c : 0 ≤ c ≤ 65535 → u16 (Z.lnot (Z.land c 0xffff)) = 65535 - c.
Proof.
  intros Hc. change 0xffff with (Z.ones 16) at 1. rewrite Z.land_ones, Z.mod_small by lia. unfold Z.lnot, u16.
  symmetry. apply (Z.mod_unique_pos _ _ (-1)); lia.
Qed.
Lemma htons_compl c : 0 ≤ c ≤ 65535 → lwip_htons (65535 - c) = 65535 - lwip_htons c.
Proof. intros Hc. rewrite !htons_eq by lia. dlia. Qed.

Lemma wp_chksum s a n (Q : Z → P → Prop) : (∀ x, is_byte (bytes s x)) → 0 ≤ n ≤ 131072 →
  Q (csum (mem_bytes (bytes s) a (Z.to_nat n))) s → wp (in_bytes (lwip_standard_chksum a n)) Q s.
Proof.
  intros Hb Hn HQ. apply wp_zoom. eapply wp_mono; [by apply chksum_run|]. intros r m [-> ->]. by destruct s.
Qed.
Lemma data_bytes m b l : (∀ x, is_byte (b x)) → Forall is_byte (content m b l).
Proof. intros Hb. induction l as [|x l IH]; [constructor|]. rewrite content_cons. apply Forall_app. split; [by apply mem_bytes_bytes|done]. Qed.
Lemma odd_len n : 0 ≤ n → negb (n mod 2 =? 0) = Nat.odd (Z.to_nat n).
Proof.
  intros Hn. rewrite <-(Z2Nat.id n) at 1 by done. generalize (Z.to_nat n). clear. intros k.
  destruct (Nat.Even_or_Odd k) as [[j ->]|[j ->]].
  - replace (Z.of_nat (2 * j)) with (Z.of_nat j * 2) by lia. rewrite Z_mod_mult. symmetry. rewrite <-Nat.negb_even. apply negb_false_iff, Nat.even_spec. by exists j.
  - replace (Z.of_nat (2 * j + 1)) with (1 + Z.of_nat j * 2) by lia. rewrite Z_mod_plus_full. symmetry. apply Nat.odd_spec. by exists j.
Qed.

Lemma sum_chain_run s p l A (Q : Z * bool → P → Prop) : pkt (pbufs s) p l → (∀ x, is_byte (bytes s x)) → 0 ≤ A →
  (∀ w, Q (acc_of w A (content (pbufs s) (bytes s) l), w) s) → wp (sum_chain p (canon A)) Q s.
Proof.
  intros Hp Hb HA HQ. unfold sum_chain. set (m := pbufs s) in *. set (b := bytes s) in *.
  apply (wp_loop_ghost (λ r '(q, acc, w) t, ∃ dn, t = s ∧ l = dn ++ r ∧ pkt m q r ∧ acc = acc_of w A (content m b dn) ∧ w = Nat.odd (length (content m b dn)))
    length _ _ l).
  - exists []. split; [done|]. split; [done|]. split; [done|]. split; [unfold acc_of; f_equal; simpl; lia|done].
  - pose proof (pk_count _ _ _ Hp). lia.
  - intros r [[q acc] w] t (dn & -> & El & Hq & -> & Hw). pose proof (data_bytes m b dn Hb) as Hd. rewrite (head_null _ _ _ Hq). destruct r as [|x r].
    + apply wp_ret. rewrite app_nil_r in El. subst dn. apply HQ.
    + pose proof (pkt_head _ _ _ Hq) as ->. pose proof (pkt_len _ _ _ x Hq (list_elem_of_here _ _)) as Hl. pose proof (pkt_total _ _ _ Hq) as Ht.
      apply wp_bind, wp_pb; [by apply (pkt_nonnull _ _ _ _ Hq)|]. fold m. cbn [head_of]. apply wp_bind, wp_chksum; [done|lia|].
      assert (Hx : Forall is_byte (data m b x)) by (by apply mem_bytes_bytes). fold b. change (mem_bytes b _ _) with (data m b x).
      rewrite (acc_step w A _ (data m b x)) by done.
      assert (Ec : content m b (dn ++ [x]) = content m b dn ++ data m b x) by (rewrite content_app; by unfold content at 2; simpl; rewrite app_nil_r).
      assert (Eo : Nat.odd (length (content m b (dn ++ [x]))) = xorb w (negb (len (m x) mod 2 =? 0))).
      { rewrite Ec, length_app, Nat.odd_add, <-Hw, length_data, odd_len by lia. done. }
      rewrite <-Ec in *. pose proof (data_bytes m b (dn ++ [x]) Hb) as Hd'.
      destruct (negb (len (m x) mod 2 =? 0)); apply wp_ret; (exists r; split; [|simpl; lia]); exists (dn ++ [x]);
        (split; [done|]; split; [by rewrite <-app_assoc|]; split; [by eapply pkt_tail|]; split).
      * by apply acc_swap.
      * rewrite Eo. by destruct w.
      * done.
      * rewrite Eo. by destruct w.
Qed.

Lemma chksum_pbuf_run s p l (Q : Z → P → Prop) : pkt (pbufs s) p l → (∀ x, is_byte (bytes s x)) →
  Q (65535 - csum (content (pbufs s) (bytes s) l)) s → wp (inet_chksum_pbuf p) Q s.
Proof.
  intros Hp Hb HQ. unfold inet_chksum_pbuf. apply wp_bind. change 0 with (canon 0) at 1. apply (sum_chain_run s p l 0); [done|done|lia|].
  intros w. apply wp_ret. pose proof (data_bytes (pbufs s) (bytes s) l Hb) as Hd. rewrite acc_plain by (done || lia).
  rewrite lnot_acc by (apply canon_range; pose proof (le_dec_nonneg _ Hd); lia). exact HQ.
Qed.

(** The bytes of the pseudo header. *)
Definition pseudo_header (b : memory) (src dest proto proto_len : Z) : list Z :=
  mem_bytes b src 4 ++ mem_bytes b dest 4 ++ [0; proto; proto_len / 256; proto_len mod 256].
Lemma pseudo_bytes b src dest proto proto_len : (∀ x, is_byte (b x)) → 0 ≤ proto < 256 → 0 ≤ proto_len < 65536 →
  Forall is_byte (pseudo_header b src dest proto proto_len).
Proof.
  intros Hb Hp Hl. unfold pseudo_header. apply Forall_app. split; [by apply mem_bytes_bytes|]. apply Forall_app. split; [by apply mem_bytes_bytes|].
  repeat constructor; unfold is_byte; dlia.
Qed.
(** What the addresses and the tail add up to. *)
Definition addr_words (b : memory) (src dest : Z) : Z := le_dec (mem_bytes b src 4 ++ mem_bytes b dest 4).
Lemma word_halves v : 0 ≤ v < 2 ^ 32 → Z.land v 0xffff = v mod 65536 ∧ Z.land (Z.shiftr v 16) 0xffff = v / 65536.
Proof.
  intros Hv. change 0xffff with (Z.ones 16). rewrite !Z.land_ones, Z.shiftr_div_pow2 by lia. split; [done|]. apply Z.mod_small. dlia.
Qed.
Lemma sum_addrs_run s src dest (Q : Z → P → Prop) : (∀ x, is_byte (bytes s x)) → Q (canon (addr_words (bytes s) src dest)) s → wp (sum_addrs src dest) Q s.
Proof.
  intros Hb HQ. unfold sum_addrs. apply wp_bind, wp_gets. apply wp_bind, wp_gets. apply wp_ret.
  pose proof (le_dec_bound _ (mem_bytes_bytes (bytes s) src 4 Hb)) as H1. pose proof (le_dec_bound _ (mem_bytes_bytes (bytes s) dest 4 Hb)) as H2.
  rewrite length_mem_bytes in H1, H2. change (256 ^ Z.of_nat 4) with (2 ^ 32) in *.
  destruct (word_halves _ H1) as [-> ->]. destruct (word_halves _ H2) as [-> ->].
  unfold addr_words in HQ. rewrite le_dec_app, length_mem_bytes in HQ. change (256 ^ Z.of_nat 4) with (2 ^ 32) in HQ.
  set (a := le_dec (mem_bytes (bytes s) src 4)) in *. set (c := le_dec (mem_bytes (bytes s) dest 4)) in *.
  assert (Ha : 0 ≤ a mod 65536 < 65536 ∧ 0 ≤ a / 65536 < 65536 ∧ a = 65536 * (a / 65536) + a mod 65536) by dlia.
  assert (Hc : 0 ≤ c mod 65536 < 65536 ∧ 0 ≤ c / 65536 < 65536 ∧ c = 65536 * (c / 65536) + c mod 65536) by dlia.
  revert Ha Hc HQ. generalize (a mod 65536) (a / 65536) (c mod 65536) (c / 65536). intros al ah cl ch (L1 & L2 & ->) (L3 & L4 & ->) HQ.
  rewrite (u32_small (al + ah)), (u32_small (_ + cl)), (u32_small (_ + ch)) by lia.
  rewrite fold_twice by lia. erewrite (canon_cong (al + ah + cl + ch)); [exact HQ|lia|lia| |lia].
  instantiate (1 := - ah - ch - 65537 * (65536 * ch + cl)). lia.
Qed.
Lemma tail_eq A d w proto proto_len : 0 ≤ A → Forall is_byte d → 0 ≤ proto < 256 → 0 ≤ proto_len < 65536 →
  pseudo_tail (acc_of w A d) w proto proto_len = 65535 - canon (A + le_dec d + 256 * proto + (proto_len mod 256 * 256 + proto_len / 256)).
Proof.
  intros HA Hd Hp Hl. pose proof (le_dec_nonneg d Hd) as Ed. unfold pseudo_tail. rewrite acc_plain by done.
  pose proof (canon_range (A + le_dec d) ltac:(lia)) as Hc.
  replace (u16 proto) with proto by (symmetry; apply Z.mod_small; lia). rewrite (htons_eq proto), (htons_eq proto_len) by lia.
  rewrite (Z.mod_small proto), (Z.div_small proto) by lia. rewrite (u32_small (_ + (proto * 256 + 0))), (u32_small (_ + _ + (_ + _))) by dlia.
  rewrite fold_twice by dlia. rewrite <-Z.add_assoc, canon_add by dlia. rewrite lnot_acc by (apply canon_range; dlia). do 2 f_equal. lia.
Qed.
Lemma pseudo_csum b src dest proto proto_len d : (∀ x, is_byte (b x)) → Forall is_byte d → 0 ≤ proto < 256 → 0 ≤ proto_len < 65536 →
  canon (addr_words b src dest + le_dec d + 256 * proto + (proto_len mod 256 * 256 + proto_len / 256)) =
  csum (pseudo_header b src dest proto proto_len ++ d).
Proof.
  intros Hb Hd Hp Hl. pose proof (pseudo_bytes b src dest proto proto_len Hb Hp Hl) as Hps. unfold csum.
  rewrite le_dec_app_even by (done || by exists 6%nat). unfold pseudo_header. rewrite app_assoc, le_dec_app.
  fold (addr_words b src dest). rewrite length_app, !length_mem_bytes. change (256 ^ Z.of_nat (4 + 4)) with (2 ^ 64). cbn [le_dec].
  pose proof (le_dec_nonneg d Hd) as Ed. assert (HA : 0 ≤ addr_words b src dest) by (apply le_dec_nonneg, Forall_app; split; by apply mem_bytes_bytes).
  assert (Hw : 0 ≤ proto_len mod 256 < 256 ∧ 0 ≤ proto_len / 256 < 256) by dlia.
  revert Hw. generalize (proto_len mod 256) (proto_len / 256) (addr_words b src dest) (le_dec d) HA Ed. intros lo hi A D HA' HD [Hlo Hhi].
  symmetry. apply (canon_cong _ _ (281479271743489 * (256 * proto + 65536 * hi + 2 ^ 24 * lo) + hi + lo * 256)); lia.
Qed.

Lemma pseudo_run s p l proto proto_len src dest (Q : Z → P → Prop) : pkt (pbufs s) p l → (∀ x, is_byte (bytes s x)) → 0 ≤ proto < 256 → 0 ≤ proto_len < 65536 →
  Q (65535 - csum (pseudo_header (bytes s) src dest proto proto_len ++ content (pbufs s) (bytes s) l)) s → wp (inet_chksum_pseudo p proto proto_len src dest) Q s.
Proof.
  intros Hp Hb Hpr Hpl HQ. assert (HA : 0 ≤ addr_words (bytes s) src dest) by (apply le_dec_nonneg, Forall_app; split; by apply mem_bytes_bytes).
  unfold inet_chksum_pseudo. apply wp_bind, sum_addrs_run; [done|]. unfold inet_cksum_pseudo_base. apply wp_bind, (sum_chain_run s p l); [done|done|done|].
  intros w. apply wp_ret. rewrite tail_eq by (done || by apply data_bytes). rewrite pseudo_csum by (done || by apply data_bytes). exact HQ.
Qed.

(** The sum over a part: the assertion on what is left holds for fewer than
    32767 bytes. *)
Lemma sum_partial_run s p l n A (Q : Z * bool → P → Prop) : pkt (pbufs s) p l → (∀ x, is_byte (bytes s x)) → 0 ≤ A → 0 ≤ n < 0x7fff → n ≤ total (pbufs s) l →
  (∀ w, Q (acc_of w A (take (Z.to_nat n) (content (pbufs s) (bytes s) l)), w) s) → wp (sum_chain_partial p n (canon A)) Q s.
Proof.
  intros Hp Hb HA Hn Hle HQ. unfold sum_chain_partial. set (m := pbufs s) in *. set (b := bytes s) in *. set (c := content m b l) in *.
  apply (wp_loop_ghost (λ r '(q, rest, acc, w) t, ∃ dn, t = s ∧ l = dn ++ r ∧ pkt m q r ∧
      (rest = 0 ∧ acc = acc_of w A (take (Z.to_nat n) c) ∨
       rest = n - total m dn ∧ 0 ≤ rest ∧ acc = acc_of w A (content m b dn) ∧ w = Nat.odd (length (content m b dn))))
    length _ _ l).
  - exists []. split; [done|]. split; [done|]. split; [done|]. right. split; [simpl; lia|]. split; [lia|]. split; [unfold acc_of; f_equal; simpl; lia|done].
  - pose proof (pk_count _ _ _ Hp). lia.
  - intros r [[[q rest] acc] w] t (dn & -> & El & Hq & Hcase). pose proof (data_bytes m b dn Hb) as Hd.
    assert (Hdn : ∀ x, x ∈ dn → 0 ≤ len (m x)) by (intros x Hx; apply (pk_len _ _ _ Hp); rewrite El; set_solver).
    assert (Ecr : c = content m b dn ++ content m b r) by (unfold c; by rewrite El, content_app).
    pose proof (length_pkt_content m b dn Hdn) as Eld.
    assert (Hdone : rest = 0 → acc = acc_of w A (take (Z.to_nat n) c)).
    { destruct Hcase as [[_ ->]|(-> & _ & -> & _)]; [done|]. intros E. f_equal. rewrite Ecr, take_app_length' by lia. done. }
    rewrite (head_null _ _ _ Hq). destruct (Z.ltb_spec 0 rest) as [Hrest|Hrest].
    2: { rewrite andb_false_r. apply wp_ret. rewrite Hdone; [apply HQ|]. destruct Hcase as [[-> _]|(_ & ? & _)]; lia. }
    destruct Hcase as [[-> _]|(Er & _ & -> & Hw)]; [lia|]. destruct r as [|x r]; [rewrite El, total_app in Hle; simpl in Hle; lia|]. cbn [negb andb].
    pose proof (pkt_head _ _ _ Hq) as ->. pose proof (pkt_len _ _ _ x Hq (list_elem_of_here _ _)) as Hl. pose proof (pkt_total _ _ _ Hq) as Ht.
    pose proof (pkt_tail _ _ _ _ Hq) as Hq'. pose proof (total_nonneg m dn Hdn) as Hnd.
    apply wp_bind, wp_pb; [by apply (pkt_nonnull _ _ _ _ Hq)|]. fold m. cbn [head_of].
    set (k := if rest <? len (m x) then rest else len (m x)). assert (Hk : k = Z.min rest (len (m x))) by (unfold k; destruct (Z.ltb_spec rest (len (m x))); lia).
    apply wp_bind, wp_chksum; [done|lia|]. fold b. set (e := mem_bytes b (payload (m x)) (Z.to_nat k)).
    assert (He : Forall is_byte e) by (by apply mem_bytes_bytes).
    replace (u16 (rest - k)) with (rest - k) by (symmetry; apply Z.mod_small; lia).
    apply wp_bind, wp_assert; [apply Z.ltb_lt; lia|]. rewrite (acc_step w A _ e) by done.
    assert (Hde : Forall is_byte (content m b dn ++ e)) by (apply Forall_app; done).
    (* either the buffer is taken whole or the sum is complete *)
    assert (Hnext : ∀ w', w' = xorb w (negb (len (m x) mod 2 =? 0)) → ∃ dn', s = s ∧ l = dn' ++ r ∧ pkt m (next (m x)) r ∧
      (rest - k = 0 ∧ acc_of w' A (content m b dn ++ e) = acc_of w' A (take (Z.to_nat n) c) ∨
       rest - k = n - total m dn' ∧ 0 ≤ rest - k ∧ acc_of w' A (content m b dn ++ e) = acc_of w' A (content m b dn') ∧ w' = Nat.odd (length (content m b dn')))).
    { intros w' Hw'. exists (dn ++ [x]). split; [done|]. split; [by rewrite <-app_assoc|]. split; [done|]. destruct (Z.le_gt_cases (len (m x)) rest) as [Hwhole|Hcut].
      - right. assert (Ec : content m b (dn ++ [x]) = content m b dn ++ e).
        { rewrite content_app. f_equal. unfold content. simpl. rewrite app_nil_r. unfold e, data. f_equal. lia. }
        rewrite Ec, total_app. simpl. split; [lia|]. split; [lia|]. split; [done|].
        rewrite length_app, Nat.odd_add, <-Hw, Hw'. f_equal. unfold e. rewrite length_mem_bytes, odd_len by lia. do 2 f_equal. lia.
      - left. split; [lia|]. f_equal. rewrite Ecr. replace (Z.to_nat n) with (length (content m b dn) + Z.to_nat k)%nat by lia.
        rewrite take_app_add, content_cons, take_app_le by (rewrite length_data; lia). f_equal. unfold e, data.
        rewrite <-(drop_0 (mem_bytes b (payload (m x)) (Z.to_nat (len (m x))))). rewrite take_drop_mem by lia. by rewrite Z.add_0_r. }
    destruct (negb (len (m x) mod 2 =? 0)) eqn:Eo; apply wp_ret; (exists r; split; [|simpl; lia]).
    + rewrite acc_swap by done. apply Hnext. by destruct w.
    + apply Hnext. by destruct w.
Qed.
Lemma pseudo_partial_run s p l proto proto_len n src dest (Q : Z → P → Prop) : pkt (pbufs s) p l → (∀ x, is_byte (bytes s x)) → 0 ≤ proto < 256 → 0 ≤ proto_len < 65536 →
  0 ≤ n < 0x7fff → n ≤ total (pbufs s) l →
  Q (65535 - csum (pseudo_header (bytes s) src dest proto proto_len ++ take (Z.to_nat n) (content (pbufs s) (bytes s) l))) s →
  wp (inet_chksum_pseudo_partial p proto proto_len n src dest) Q s.
Proof.
  intros Hp Hb Hpr Hpl Hn Hle HQ. assert (HA : 0 ≤ addr_words (bytes s) src dest) by (apply le_dec_nonneg, Forall_app; split; by apply mem_bytes_bytes).
  assert (Ht : Forall is_byte (take (Z.to_nat n) (content (pbufs s) (bytes s) l))) by (apply Forall_take; by apply data_bytes).
  unfold inet_chksum_pseudo_partial. apply wp_bind, sum_addrs_run; [done|]. unfold inet_cksum_pseudo_partial_base.
  apply wp_bind, (sum_partial_run s p l n); [done|done|done|done|done|].
  intros w. apply wp_ret. rewrite tail_eq by done. rewrite pseudo_csum by done. exact HQ.
Qed.

(** C19. The checksums over a packet are those of RFC 1071 over its bytes in
    network order, whatever the lengths and addresses of its buffers: of the
    packet alone, after the pseudo header of TCP and UDP, and after it over the
    first [n] bytes only. *)
Theorem packet_checksums s p l proto proto_len src dest n :
  pkt (pbufs s) p l → (∀ x, is_byte (bytes s x)) → 0 ≤ proto < 256 → 0 ≤ proto_len < 65536 → 0 ≤ n < 0x7fff → n ≤ total (pbufs s) l →
  let c := content (pbufs s) (bytes s) l in
  let ph := pseudo_header (bytes s) src dest proto proto_len in
  wp (a ← inet_chksum_pbuf p; b ← ip_chksum_pseudo p proto proto_len src dest; d ← ip_chksum_pseudo_partial p proto proto_len n src dest; mret (a, b, d))
    (λ '(a, b, d) s', s' = s ∧ lwip_htons a = 65535 - rfc1071_sum c ∧ lwip_htons b = 65535 - rfc1071_sum (ph ++ c) ∧
       lwip_htons d = 65535 - rfc1071_sum (ph ++ take (Z.to_nat n) c)) s.
Proof.
  intros Hp Hb Hpr Hpl Hn Hle c ph. assert (Hc : Forall is_byte c) by by apply data_bytes.
  assert (Hps : Forall is_byte ph) by by apply pseudo_bytes.
  assert (K : ∀ bs, Forall is_byte bs → lwip_htons (65535 - csum bs) = 65535 - rfc1071_sum bs).
  { intros bs Hbs. rewrite htons_compl by by apply csum_range. by rewrite csum_rfc. }
  apply wp_bind, (chksum_pbuf_run s p l); [done|done|]. apply wp_bind, (pseudo_run s p l); [done..|].
  apply wp_bind, (pseudo_partial_run s p l); [done..|]. apply wp_ret. split; [done|]. split; [by apply K|].
  split; apply K, Forall_app; [done|]. split; [done|]. by apply Forall_take.
Qed.
End chksum.

(** Three buffers of 3, 1 and 4 bytes at odd and even addresses. *)
Definition sample_pbufs : Z → pbuf := λ x,
  if x =? 16 then MkPbuf 32 1001 8 3 0 0 1 0 else if x =? 32 then MkPbuf 48 2000 5 1 0 0 1 0 else MkPbuf 0 3001 4 4 0 0 1 0.
Definition sample_packet : pstate unit unit := MkPstate sample_pbufs (λ a, (a * a + 7) mod 256) tt tt 0.
Lemma sample_pkt : pkt (pbufs sample_packet) 16 [16; 32; 48].
Proof.
  split.
  - unfold links, chain. cbn. split_and!; done.
  - intros x [->|[->|[->|?%elem_of_nil]%elem_of_cons]%elem_of_cons]%elem_of_cons; [by vm_compute..|done].
  - by vm_compute.
  - by vm_compute.
  - by vm_compute.
Qed.
Lemma packet_checksums_witness :
  let c := content (pbufs sample_packet) (bytes sample_packet) [16; 32; 48] in
  let ph := pseudo_header (bytes sample_packet) 400 500 17 8 in
  wp (a ← inet_chksum_pbuf 16; b ← ip_chksum_pseudo 16 17 8 400 500; d ← ip_chksum_pseudo_partial 16 17 8 5 400 500; mret (a, b, d))
    (λ '(a, b, d) s', s' = sample_packet ∧ lwip_htons a = 65535 - rfc1071_sum c ∧ lwip_htons b = 65535 - rfc1071_sum (ph ++ c) ∧
       lwip_htons d = 65535 - rfc1071_sum (ph ++ take (Z.to_nat 5) c)) sample_packet.
Proof.
  apply (packet_checksums sample_packet 16 [16; 32; 48] 17 8 400 500 5 sample_pkt).
  - intros x. apply Z.mod_pos_bound. lia.
  - lia.
  - lia.
  - lia.
  - by vm_compute.
Defined.
