(* ===== verification/LwipPbufOwn.v ===== *)
(** * LwipPbufOwn: who holds the packet buffers

    The pbufs in use are the elements handed out by the two pools and the
    blocks of the heap.  A client holds references; a buffer also refers to the
    next one of its chain, and [ref] counts both.  Allocation, release and the
    operations on chains keep this exact: no buffer in use is handed out again
    or released early, and when the client has released everything nothing is
    left in use. *)

From Stdlib Require Import ZArith Lia.
From stdpp Require Import base numbers list option functions gmap sets fin_sets.
From S2P Require Import Prelude LwipBase LwipPbuf LwipPbufData.
Open Scope Z_scope.

(** The pbufs in use, by where they come from; for the heap, with the size of
    the block. *)
Record livep := Lv { lv_pool : gset Z; lv_ref : gset Z; lv_heap : gmap Z Z }.
Definition all (L : livep) : gset Z := lv_pool L ∪ lv_ref L ∪ dom (lv_heap L).
Definition remove (x : Z) (L : livep) : livep := Lv (lv_pool L ∖ {[x]}) (lv_ref L ∖ {[x]}) (delete x (lv_heap L)).

(** The buffers of a chain that are released with its head: as long as there is
    one reference only. *)
Fixpoint freed (r : Z → Z) (l : list Z) : list Z :=
  match l with
  | [] => []
  | x :: t => if r x =? 1 then x :: freed r t else []
  end.
Fixpoint survivor (r : Z → Z) (l : list Z) : option Z :=
  match l with
  | [] => None
  | x :: t => if r x =? 1 then survivor r t else Some x
  end.

Definition refs (m : Z → pbuf) (x : Z) : Z := ref (m x).

Definition kind (b : pbuf) (src : Z) : Prop := pbuf_get_allocsrc b = src ∧ Z.land (flags b) PBUF_FLAG_IS_CUSTOM = 0.
(** The data of a buffer are in its own memory, behind the structure. *)
Definition data_in (x size : Z) (b : pbuf) : Prop :=
  x + SIZEOF_STRUCT_PBUF ≤ payload b ∧ payload b + len b ≤ x + size.

(** ** Counting references *)

Fixpoint hcount (x : Z) (hs : list Z) : Z :=
  match hs with [] => 0 | h :: t => (if decide (h = x) then 1 else 0) + hcount x t end.
(** How many buffers of [A] have [x] as their next. *)
Definition preds (N : Z → Z) (A : gset Z) (x : Z) : Z := Z.of_nat (size (filter (λ y, N y = x) A)).

(** The client holds [hs]; [N] is the next buffer of each. *)
Record counted (r : Z → Z) (A : gset Z) (N : Z → Z) (hs : list Z) : Prop := Counted {
  ct_ref : ∀ x, x ∈ A → r x = hcount x hs + preds N A x;
  ct_pos : ∀ x, x ∈ A → 0 < r x < 256;
  ct_closed : ∀ x, x ∈ A → N x = NULL ∨ N x ∈ A;
  ct_held : ∀ h, h ∈ hs → h ∈ A;
  ct_null : NULL ∉ A
}.

Lemma hcount_nonneg x hs : 0 ≤ hcount x hs.
Proof. induction hs as [|h hs IH]; simpl; [done|]. destruct (decide _); lia. Qed.
Lemma hcount_in x hs : x ∈ hs ↔ 0 < hcount x hs.
Proof.
  induction hs as [|h hs IH]; simpl; [split; [by intros ?%elem_of_nil|lia]|]. rewrite elem_of_cons, IH. pose proof (hcount_nonneg x hs).
  destruct (decide (h = x)); split; intros; [lia|by left|destruct H0; [congruence|lia]|right; lia].
Qed.
Lemma preds_nonneg N A x : 0 ≤ preds N A x.
Proof. unfold preds. lia. Qed.
Lemma preds_in N A x : 0 < preds N A x ↔ ∃ y, y ∈ A ∧ N y = x.
Proof.
  unfold preds. split.
  - intros Hs. destruct (decide (filter (λ y, N y = x) A = ∅)) as [E|E]; [rewrite E, size_empty in Hs; lia|].
    apply set_choose_L in E as [y [Hy1 Hy2]%elem_of_filter]. by exists y.
  - intros (y & Hy & E). assert (size (filter (λ y, N y = x) A) ≠ O); [|lia]. apply size_non_empty_iff. set_solver.
Qed.
Lemma preds_ext N N' A x : (∀ y, y ∈ A → N y = N' y) → preds N A x = preds N' A x.
Proof. intros Hy. unfold preds. do 2 f_equal. apply set_eq. intros y. rewrite !elem_of_filter. naive_solver. Qed.
Lemma preds_delete N A y x : y ∈ A → preds N (A ∖ {[y]}) x = preds N A x - (if decide (N y = x) then 1 else 0).
Proof.
  intros Hy. unfold preds. destruct (decide (N y = x)) as [E|E].
  - assert (Es : filter (λ y, N y = x) A = {[y]} ∪ filter (λ y, N y = x) (A ∖ {[y]})).
    { apply set_eq. intros z. rewrite elem_of_union, !elem_of_filter, elem_of_difference, elem_of_singleton. destruct (decide (z = y)); naive_solver. }
    rewrite Es, size_union, size_singleton by set_solver. lia.
  - rewrite Z.sub_0_r. do 2 f_equal. apply set_eq. intros z. rewrite !elem_of_filter, elem_of_difference, elem_of_singleton. naive_solver.
Qed.
Lemma preds_insert N A y x : y ∉ A → preds N ({[y]} ∪ A) x = preds N A x + (if decide (N y = x) then 1 else 0).
Proof.
  intros Hy. pose proof (preds_delete N ({[y]} ∪ A) y x ltac:(set_solver)) as E.
  replace (({[y]} ∪ A) ∖ {[y]}) with A in E by set_solver. lia.
Qed.

(** Releasing a chain keeps the count. *)
Lemma free_counted r A N hs l p :
  counted r A N (p :: hs) → chain N p l → l ≠ [] →
  let fr := freed r l in
  counted (λ x, if decide (survivor r l = Some x) then r x - 1 else r x)
    (A ∖ list_to_set fr) N hs.
Proof.
  cbv zeta. revert A p. induction l as [|x l IH]; intros A p Hc Hl Hne; [done|].
  destruct Hl as (-> & Hx0 & Hl). destruct Hc as [C1 C2 C3 C4 C5]. cbn [freed survivor].
  assert (HxA : x ∈ A) by apply C4, list_elem_of_here.
  pose proof (C1 x HxA) as Ex. simpl in Ex. rewrite decide_True in Ex by done. pose proof (hcount_nonneg x hs) as Hh. pose proof (preds_nonneg N A x) as Hp.
  destruct (Z.eqb_spec (r x) 1) as [E1|E1].
  - assert (Hh0 : hcount x hs = 0) by lia. assert (Hp0 : preds N A x = 0) by lia.
    assert (Hxn : ∀ y, y ∈ A → N y ≠ x).
    { intros y Hy E. assert (0 < preds N A x) by (apply preds_in; by exists y). lia. }
    assert (Hxh : x ∉ hs) by (rewrite hcount_in; lia).
    (* the next buffer is held in place of this one *)
    assert (Hnext : ∀ y, y ∈ A ∖ {[x]} → r y = hcount y (if decide (N x = NULL) then hs else N x :: hs) + preds N (A ∖ {[x]}) y).
    { intros y [Hy Hyx]%elem_of_difference. rewrite preds_delete, C1 by done. simpl. rewrite decide_False by set_solver.
      destruct (decide (N x = NULL)) as [En|En]; simpl.
      - rewrite decide_False by (intros Eq; apply C5; congruence). lia.
      - destruct (decide (N x = y)); lia. }
    assert (Hc1 : ∀ hs', (∀ y, y ∈ A ∖ {[x]} → r y = hcount y hs' + preds N (A ∖ {[x]}) y) → (∀ h, h ∈ hs' → h ∈ A ∖ {[x]}) → counted r (A ∖ {[x]}) N hs').
    { intros hs' Hr Hhs. split; [done| | |done|set_solver].
      - intros y Hy. apply C2. set_solver.
      - intros y [Hy Hyx]%elem_of_difference. destruct (C3 y Hy) as [?|Hn]; [by left|right]. apply elem_of_difference. split; [done|].
        rewrite elem_of_singleton. by apply Hxn. }
    assert (Hhs : ∀ h, h ∈ hs → h ∈ A ∖ {[x]}).
    { intros h Hin. apply elem_of_difference. split; [by apply C4, list_elem_of_further|]. rewrite elem_of_singleton. by intros ->. }
    replace (A ∖ list_to_set (x :: freed r l)) with ((A ∖ {[x]}) ∖ list_to_set (freed r l)) by set_solver.
    destruct l as [|y l].
    + unfold chain in Hl. cbn [lseg] in Hl. rewrite decide_True in Hnext by done. simpl.
      replace (A ∖ {[x]} ∖ ∅) with (A ∖ {[x]}) by set_solver. destruct (Hc1 hs Hnext Hhs) as [D1 D2 D3 D4 D5].
      split; try done; intros z Hz; rewrite decide_False by done; auto.
    + pose proof Hl as (Ey & Hy0 & _). rewrite decide_False in Hnext by congruence. apply (IH (A ∖ {[x]}) (N x)); [|done|done].
      apply Hc1; [done|]. intros h [->|Hin]%elem_of_cons; [|by apply Hhs]. destruct (C3 x HxA) as [?|Hn]; [congruence|].
      apply elem_of_difference. split; [done|]. rewrite elem_of_singleton. by apply Hxn.
  - simpl. replace (A ∖ ∅) with A by set_solver. split.
    + intros y Hy. rewrite C1 by done. simpl. destruct (decide (x = y)) as [->|Hxy].
      * rewrite decide_True by done. lia.
      * rewrite decide_False by congruence. lia.
    + intros y Hy. pose proof (C2 y Hy). destruct (decide (Some x = Some y)); [|done]. simplify_eq. lia.
    + done.
    + intros h Hin. by apply C4, list_elem_of_further.
    + done.
Qed.

(** The count depends on the buffers in use only. *)
Lemma counted_ext r r' A N N' hs : (∀ x, x ∈ A → r' x = r x ∧ N' x = N x) → counted r A N hs → counted r' A N' hs.
Proof.
  intros Hx [C1 C2 C3 C4 C5]. split; [| | |done|done].
  - intros x Hin. destruct (Hx x Hin) as [-> _]. rewrite (preds_ext N' N) by (intros y Hy; by apply Hx). by apply C1.
  - intros x Hin. destruct (Hx x Hin) as [-> _]. by apply C2.
  - intros x Hin. destruct (Hx x Hin) as [_ ->]. by apply C3.
Qed.
(** The order of the handles does not matter. *)
Lemma counted_perm r A N hs hs' : (∀ x, hcount x hs' = hcount x hs) → counted r A N hs → counted r A N hs'.
Proof.
  intros Hh [C1 C2 C3 C4 C5]. split; [|done|done| |done].
  - intros x Hx. rewrite Hh. by apply C1.
  - intros x Hx. apply C4. rewrite hcount_in in *. by rewrite <-Hh.
Qed.
(** A new buffer, held by the client. *)
Lemma counted_new r r' A N N' hs x : counted r A N hs → x ∉ A → x ≠ NULL → (∀ y, y ∈ A → r' y = r y ∧ N' y = N y) → r' x = 1 → N' x = NULL →
  counted r' ({[x]} ∪ A) N' (x :: hs).
Proof.
  intros [C1 C2 C3 C4 C5] Hx Hx0 Hy Hrx HNx.
  assert (Hp : ∀ y, y ∈ A ∨ y = x → preds N' ({[x]} ∪ A) y = preds N A y).
  { intros y Hyx. rewrite preds_insert by done. rewrite HNx, decide_False.
    - rewrite Z.add_0_r. apply preds_ext. intros z Hz. by apply Hy.
    - intros <-. destruct Hyx; [done|congruence]. }
  split.
  - intros y Hin. rewrite Hp by set_solver. simpl. apply elem_of_union in Hin as [->%elem_of_singleton|Hin].
    + rewrite decide_True, Hrx by done. assert (hcount x hs = 0).
      { pose proof (hcount_nonneg x hs). destruct (decide (hcount x hs = 0)); [done|]. exfalso. apply Hx, C4, hcount_in. lia. }
      assert (preds N A x = 0); [|lia]. pose proof (preds_nonneg N A x). destruct (decide (preds N A x = 0)); [done|].
      destruct (proj1 (preds_in N A x)) as (y & Hy' & E); [lia|]. destruct (C3 y Hy') as [?|?]; congruence.
    + rewrite decide_False by (intros ->; done). destruct (Hy y Hin) as [-> _]. rewrite C1 by done. lia.
  - intros y [->%elem_of_singleton|Hin]%elem_of_union; [lia|]. destruct (Hy y Hin) as [-> _]. by apply C2.
  - intros y [->%elem_of_singleton|Hin]%elem_of_union; [by left|]. destruct (Hy y Hin) as [_ ->]. destruct (C3 y Hin); [by left|right; set_solver].
  - intros h [->|Hin]%elem_of_cons; [set_solver|]. apply C4 in Hin. set_solver.
  - set_solver.
Qed.
(** A new buffer, linked behind [z]. *)
Lemma counted_link r r' A N N' hs x z : counted r A N hs → x ∉ A → x ≠ NULL → z ∈ A → N z = NULL →
  (∀ y, y ∈ A → r' y = r y) → r' x = 1 → (∀ y, y ∈ A → y ≠ z → N' y = N y) → N' z = x → N' x = NULL →
  counted r' ({[x]} ∪ A) N' hs.
Proof.
  intros [C1 C2 C3 C4 C5] Hx Hx0 Hz HNz Hr Hrx HN HNz' HNx.
  assert (Hp : ∀ y, y ∈ A → preds N' ({[x]} ∪ A) y = preds N A y).
  { intros y Hy. rewrite preds_insert by done. rewrite HNx, decide_False by (intros <-; done). rewrite Z.add_0_r.
    unfold preds. do 2 f_equal. apply set_eq. intros w. rewrite !elem_of_filter. destruct (decide (w = z)) as [->|Hw].
    - rewrite HNz, HNz'. split; intros [E _]; [congruence|]. exfalso. apply C5. congruence.
    - split; intros [E Hin]; (split; [|done]); [rewrite <-HN|rewrite HN]; done. }
  split.
  - intros y [->%elem_of_singleton|Hin]%elem_of_union.
    + rewrite Hrx. assert (hcount x hs = 0) as ->.
      { pose proof (hcount_nonneg x hs). destruct (decide (hcount x hs = 0)); [done|]. exfalso. apply Hx, C4, hcount_in. lia. }
      assert (E : filter (λ y, N' y = x) ({[x]} ∪ A) = {[z]}).
      { apply set_eq. intros w. rewrite elem_of_filter, elem_of_union, !elem_of_singleton. split.
        - intros [E [->|Hw]]; [congruence|]. destruct (decide (w = z)); [done|]. rewrite HN in E by done. destruct (C3 w Hw); congruence.
        - intros ->. split; [done|by right]. }
      unfold preds. by rewrite E, size_singleton.
    + rewrite Hr, C1 by done. by rewrite Hp.
  - intros y [->%elem_of_singleton|Hin]%elem_of_union; [lia|]. rewrite Hr by done. by apply C2.
  - intros y [->%elem_of_singleton|Hin]%elem_of_union; [by left|]. destruct (decide (y = z)) as [->|Hyz]; [right; set_solver|].
    rewrite HN by done. destruct (C3 y Hin); [by left|right; set_solver].
  - intros h Hin. apply C4 in Hin. set_solver.
  - set_solver.
Qed.
(** One more handle. *)
Lemma counted_ref r r' A N hs p : counted r A N hs → p ∈ A → r p < 255 → (∀ y, y ∈ A → y ≠ p → r' y = r y) → r' p = r p + 1 → counted r' A N (p :: hs).
Proof.
  intros [C1 C2 C3 C4 C5] Hp Hlt Hr Hrp. split; [| |done| |done].
  - intros x Hx. simpl. destruct (decide (p = x)) as [<-|Hne]; [rewrite Hrp, C1 by done; lia|]. rewrite Hr, C1 by done. lia.
  - intros x Hx. pose proof (C2 x Hx). destruct (decide (x = p)) as [->|Hne]; [lia|]. by rewrite Hr.
  - intros h [->|Hin]%elem_of_cons; [done|by apply C4].
Qed.
(** A handle becomes the link of [z]. *)
Lemma counted_move r A N N' hs t z : counted r A N (t :: hs) → z ∈ A → N z = NULL → (∀ y, y ∈ A → y ≠ z → N' y = N y) → N' z = t →
  counted r A N' hs.
Proof.
  intros [C1 C2 C3 C4 C5] Hz HNz HN HNz'. assert (HtA : t ∈ A) by apply C4, list_elem_of_here. split; [|done| | |done].
  - intros x Hx. rewrite C1 by done. simpl.
    replace (preds N' A x) with (preds N (A ∖ {[z]}) x + (if decide (t = x) then 1 else 0)).
    2: { rewrite <-HNz', (preds_ext N N') by (intros y [Hy ?%not_elem_of_singleton]%elem_of_difference; symmetry; by apply HN).
         rewrite preds_delete by done. destruct (decide (N' z = x)); lia. }
    rewrite preds_delete by done. rewrite HNz, (decide_False (P := NULL = x)) by (intros <-; done). lia.
  - intros x Hx. destruct (decide (x = z)) as [->|Hne]; [right; congruence|]. rewrite HN by done. by apply C3.
  - intros h Hin. by apply C4, list_elem_of_further.
Qed.
(** The link of [z] becomes a handle. *)
Lemma counted_unlink r A N N' hs t z : counted r A N hs → z ∈ A → N z = t → t ≠ NULL → (∀ y, y ∈ A → y ≠ z → N' y = N y) → N' z = NULL →
  counted r A N' (t :: hs).
Proof.
  intros [C1 C2 C3 C4 C5] Hz HNz Ht HN HNz'. split; [|done| | |done].
  - intros x Hx. rewrite C1 by done. simpl.
    replace (preds N A x) with (preds N' (A ∖ {[z]}) x + (if decide (t = x) then 1 else 0)).
    2: { rewrite (preds_ext N' N) by (intros y [Hy ?%not_elem_of_singleton]%elem_of_difference; by apply HN).
         rewrite preds_delete, HNz by done. destruct (decide (t = x)); lia. }
    rewrite preds_delete by done. rewrite HNz', (decide_False (P := NULL = x)) by (intros <-; done). lia.
  - intros x Hx. destruct (decide (x = z)) as [->|Hne]; [by left|]. rewrite HN by done. by apply C3.
  - intros h [->|Hin]%elem_of_cons; [|by apply C4]. destruct (C3 z Hz); [congruence|by rewrite <-HNz].
Qed.
Lemma counted_chain r A N hs p l : counted r A N hs → chain N p l → (p = NULL ∨ p ∈ A) → ∀ x, x ∈ l → x ∈ A.
Proof.
  intros [_ _ C3 _ _]. revert p. induction l as [|y l IH]; intros p Hl Hp x; [by intros ?%elem_of_nil|].
  destruct Hl as (-> & Hy0 & Hl). destruct Hp as [?|Hp]; [done|]. intros [->|Hx]%elem_of_cons; [done|].
  by apply (IH (N y) Hl (C3 y Hp)).
Qed.

(** Pools and heap are different memory, and the elements of the pools are as
    large as memp_std.h says, or larger. *)
Class PbufMemory (H M : Type) `{Heaps H} `{Pools M} := {
  regions : ∀ (m : M) t L x, pool_live m t L → x ∈ L → x + pool_size t ≤ heap_lo (H := H) ∨ heap_hi (H := H) ≤ x;
  pool_room_ok : SIZEOF_STRUCT_PBUF + PBUF_POOL_BUFSIZE_ALIGNED ≤ pool_size (M := M) MEMP_PBUF_POOL;
  ref_room_ok : SIZEOF_STRUCT_PBUF ≤ pool_size (M := M) MEMP_PBUF
}.

Section ownership.
Context {H M : Type} `{Heaps H} `{Pools M}.
Abbreviation P := (pstate H M).
Context `{!PbufMemory H M}.
(** Blocks of the heap that are not pbufs. *)
Context (O : gmap Z Z).

Record owned (s : P) (L : livep) : Prop := Owned {
  ow_pool : pool_live (pools s) MEMP_PBUF_POOL (lv_pool L);
  ow_ref : pool_live (pools s) MEMP_PBUF (lv_ref L);
  ow_heap : heap_live (heap s) (lv_heap L ∪ O);
  ow_others : lv_heap L ##ₘ O;
  ow_kpool : ∀ x, x ∈ lv_pool L → kind (pbufs s x) PBUF_TYPE_ALLOC_SRC_MASK_STD_MEMP_PBUF_POOL ∧ data_in x (pool_size (M := M) MEMP_PBUF_POOL) (pbufs s x);
  ow_kref : ∀ x, x ∈ lv_ref L → kind (pbufs s x) PBUF_TYPE_ALLOC_SRC_MASK_STD_MEMP_PBUF;
  ow_kheap : ∀ x n, lv_heap L !! x = Some n → kind (pbufs s x) PBUF_TYPE_ALLOC_SRC_MASK_STD_HEAP ∧ data_in x n (pbufs s x)
}.

Lemma owned_pos s L x : owned s L → x ∈ all L → 0 < x.
Proof.
  intros [K1 K2 K3 K4 _ _ _] Hx. unfold all in Hx. apply elem_of_union in Hx as [[Hx|Hx]%elem_of_union|Hx].
  - by destruct (pool_addr _ _ _ _ K1 Hx).
  - by destruct (pool_addr _ _ _ _ K2 Hx).
  - apply elem_of_dom in Hx as [n Hx]. destruct (heap_addr _ _ x n K3) as [Ha _].
    + apply lookup_union_Some_l. done.
    + pose proof (heap_range (H := H)). lia.
Qed.
Lemma owned_null s L : owned s L → NULL ∉ all L.
Proof. intros Ho Hx. pose proof (owned_pos _ _ _ Ho Hx). unfold NULL in *. lia. Qed.

(** An element of the pool is no other element and no block. *)
Lemma pool_fresh (m : M) t L t' L' x : pool_live m t ({[x]} ∪ L) → pool_live m t' L' → t ≠ t' → 0 < pool_size (M := M) t → 0 < pool_size (M := M) t' → x ∉ L'.
Proof.
  intros K1 K2 Ht Hs Hs' Hx. destruct (pool_apart _ _ _ _ _ x x K1 K2) as [?|?]; [set_solver|done|congruence|lia|lia].
Qed.
Lemma pool_not_heap (m : M) t L (h : H) Lh x : pool_live m t L → x ∈ L → 0 < pool_size (M := M) t → heap_live h Lh → Lh !! x = None.
Proof.
  intros K1 Hx Hs K2. apply eq_None_not_Some. intros [n Hn]. destruct (heap_addr _ _ _ _ K2 Hn) as (? & ? & ? & ?).
  destruct (regions _ _ _ _ K1 Hx); lia.
Qed.

(** What is owned depends on the kinds and data of the buffers in use only. *)
Lemma owned_frame s L m' : owned s L →
  (∀ x, x ∈ all L → type_internal (m' x) = type_internal (pbufs s x) ∧ flags (m' x) = flags (pbufs s x) ∧
     payload (m' x) = payload (pbufs s x) ∧ len (m' x) = len (pbufs s x)) →
  owned (with_pbufs m' s) L.
Proof.
  intros [K1 K2 K3 K4 K5 K6 K7] Hm. split; try done; cbn [pbufs with_pbufs]; unfold kind, data_in, pbuf_get_allocsrc in *.
  - intros x Hx. destruct (Hm x) as (-> & -> & -> & ->); [set_solver|]. by apply K5.
  - intros x Hx. destruct (Hm x) as (-> & -> & _ & _); [set_solver|]. by apply K6.
  - intros x n Hx. destruct (Hm x) as (-> & -> & -> & ->); [unfold all; apply elem_of_union_r, elem_of_dom; by exists n|]. by apply K7.
Qed.

Lemma all_remove x L : all (remove x L) = all L ∖ {[x]}.
Proof. unfold all, remove. cbn [lv_pool lv_ref lv_heap]. rewrite dom_delete_L. set_solver. Qed.

Definition removes (xs : list Z) (L : livep) : livep := foldl (λ L x, remove x L) L xs.
Lemma all_removes xs L : all (removes xs L) = all L ∖ list_to_set xs.
Proof.
  revert L. induction xs as [|x xs IH]; intros L; simpl; [set_solver|]. unfold removes in *. rewrite IH, all_remove. set_solver.
Qed.
Lemma removes_snoc xs x L : removes (xs ++ [x]) L = remove x (removes xs L).
Proof. unfold removes. by rewrite foldl_app. Qed.

Lemma nodup_bound (l : list Z) hi : NoDup l → (∀ x, x ∈ l → 0 < x < hi) → Z.of_nat (length l) ≤ Z.max 0 (hi - 1).
Proof.
  intros Hnd Hl. assert (Hle : (length l ≤ length (seqZ 1 (hi - 1)))%nat).
  { apply submseteq_length, NoDup_submseteq; [done|]. intros x Hx. apply elem_of_seqZ. pose proof (Hl x Hx). lia. }
  rewrite length_seqZ in Hle. lia.
Qed.
Lemma owned_bound s L l : owned s L → NoDup l → (∀ x, x ∈ l → x ∈ all L) → Z.of_nat (length l) < 2 ^ 64.
Proof.
  intros Ho Hnd Hl. enough (Z.of_nat (length l) ≤ Z.max 0 (2 ^ 64 - 1)) by lia. apply nodup_bound; [done|]. intros x Hx.
  split; [eapply owned_pos; [done|by apply Hl]|]. specialize (Hl x Hx). destruct Ho as [K1 K2 K3 K4 _ _ _].
  pose proof pool_room_ok as Hroom. pose proof ref_room_ok as Hrroom. unfold SIZEOF_STRUCT_PBUF in *.
  change PBUF_POOL_BUFSIZE_ALIGNED with 1536 in *.
  unfold all in Hl. apply elem_of_union in Hl as [[Hl|Hl]%elem_of_union|Hl].
  - destruct (pool_addr _ _ _ _ K1 Hl) as (? & ? & _). lia.
  - destruct (pool_addr _ _ _ _ K2 Hl) as (? & ? & _). lia.
  - apply elem_of_dom in Hl as [n Hl]. destruct (heap_addr _ _ x n K3) as (? & ? & ? & ?); [by apply lookup_union_Some_l|].
    pose proof (heap_range (H := H)). lia.
Qed.

Context (custom_free_function : Z → comp P unit).

(** A buffer in use goes back to where it came from. *)
Lemma dealloc_run s L x (Q : unit → P → Prop) : owned s L → x ∈ all L →
  (∀ s', owned s' (remove x L) → pbufs s' = pbufs s → bytes s' = bytes s → pbuf_free_ooseq_pending s' = pbuf_free_ooseq_pending s → Q tt s') →
  wp (dealloc custom_free_function x (pbufs s x)) Q s.
Proof.
  intros Ho Hx HQ. pose proof Ho as [K1 K2 K3 K4 K5 K6 K7]. pose proof (owned_pos _ _ _ Ho Hx) as Hpos.
  pose proof pool_room_ok as Hroom. pose proof ref_room_ok as Hrroom.
  assert (Hp1 : 0 < pool_size (M := M) MEMP_PBUF_POOL) by (unfold SIZEOF_STRUCT_PBUF in *; change PBUF_POOL_BUFSIZE_ALIGNED with 1536 in *; lia).
  assert (Hp2 : 0 < pool_size (M := M) MEMP_PBUF) by (unfold SIZEOF_STRUCT_PBUF in *; lia).
  unfold dealloc. unfold all in Hx. apply elem_of_union in Hx as [[Hx|Hx]%elem_of_union|Hx].
  - destruct (K5 x Hx) as [[E1 E2] _]. rewrite E2, E1. cbn [Z.eqb negb].
    rewrite Z.eqb_refl. apply wp_zoom. eapply wp_mono; [by apply memp_free_ok|]. intros [] m' [Hoth Hl].
    assert (Hxr : x ∉ lv_ref L).
    { intros Hr. destruct (K6 x Hr) as [E _]. rewrite E1 in E. done. }
    assert (Hxh : (lv_heap L ∪ O) !! x = None) by (by apply (pool_not_heap _ _ _ _ _ _ K1 Hx Hp1 K3)).
    apply lookup_union_None in Hxh as [Hxh _].
    apply HQ; try done. split; cbn [pools heap pbufs remove lv_pool lv_ref lv_heap].
    + done.
    + rewrite difference_disjoint_L by set_solver. by apply Hoth.
    + by rewrite delete_id.
    + by rewrite delete_id.
    + intros y Hy. apply K5. set_solver.
    + intros y Hy. apply K6. set_solver.
    + intros y n Hy. rewrite delete_id in Hy by done. by apply K7.
  - destruct (K6 x Hx) as [E1 E2]. rewrite E2, E1. cbn [Z.eqb negb].
    change (PBUF_TYPE_ALLOC_SRC_MASK_STD_MEMP_PBUF =? PBUF_TYPE_ALLOC_SRC_MASK_STD_MEMP_PBUF_POOL) with false.
    rewrite Z.eqb_refl. apply wp_zoom. eapply wp_mono; [by apply memp_free_ok|]. intros [] m' [Hoth Hl].
    assert (Hxr : x ∉ lv_pool L).
    { intros Hr. destruct (K5 x Hr) as [[E _] _]. rewrite E1 in E. done. }
    assert (Hxh : (lv_heap L ∪ O) !! x = None) by (by apply (pool_not_heap _ _ _ _ _ _ K2 Hx Hp2 K3)).
    apply lookup_union_None in Hxh as [Hxh _].
    apply HQ; try done. split; cbn [pools heap pbufs remove lv_pool lv_ref lv_heap].
    + rewrite difference_disjoint_L by set_solver. by apply Hoth.
    + done.
    + by rewrite delete_id.
    + by rewrite delete_id.
    + intros y Hy. apply K5. set_solver.
    + intros y Hy. apply K6. set_solver.
    + intros y n Hy. rewrite delete_id in Hy by done. by apply K7.
  - apply elem_of_dom in Hx as [n Hx]. destruct (K7 x n Hx) as [[E1 E2] _]. rewrite E2, E1. cbn [Z.eqb negb].
    change (PBUF_TYPE_ALLOC_SRC_MASK_STD_HEAP =? PBUF_TYPE_ALLOC_SRC_MASK_STD_MEMP_PBUF_POOL) with false.
    change (PBUF_TYPE_ALLOC_SRC_MASK_STD_HEAP =? PBUF_TYPE_ALLOC_SRC_MASK_STD_MEMP_PBUF) with false.
    rewrite Z.eqb_refl. apply wp_zoom. eapply wp_mono; [apply (mem_free_ok _ _ x n K3); by apply lookup_union_Some_l|]. intros [] h' Hl.
    assert (Hx1 : x ∉ lv_pool L) by (intros Hr; destruct (K5 x Hr) as [[E _] _]; rewrite E1 in E; done).
    assert (Hx2 : x ∉ lv_ref L) by (intros Hr; destruct (K6 x Hr) as [E _]; rewrite E1 in E; done).
    apply HQ; try done. split; cbn [pools heap pbufs remove lv_pool lv_ref lv_heap].
    + by rewrite difference_disjoint_L by set_solver.
    + by rewrite difference_disjoint_L by set_solver.
    + rewrite delete_union in Hl. rewrite (delete_id O) in Hl by (by eapply map_disjoint_Some_l). done.
    + by apply map_disjoint_delete_l.
    + intros y Hy. apply K5. set_solver.
    + intros y Hy. apply K6. set_solver.
    + intros y k [_ Hy]%lookup_delete_Some. by apply K7.
Qed.

(** [pbuf_free] releases the head of a chain, and the buffers after it up to the
    first that is referred to otherwise, which loses a reference. *)
Lemma pbuf_free_run s L l p (Q : Z → P → Prop) : owned s L → links (pbufs s) p l → l ≠ [] →
  (∀ x, x ∈ l → x ∈ all L) → (∀ x, x ∈ l → 0 < ref (pbufs s x) < 256) →
  (∀ s', owned s' (removes (freed (refs (pbufs s)) l) L) →
     (∀ a, a ∉ freed (refs (pbufs s)) l →
        pbufs s' a = if decide (survivor (refs (pbufs s)) l = Some a) then with_ref (ref (pbufs s a) - 1) (pbufs s a) else pbufs s a) →
     bytes s' = bytes s → pbuf_free_ooseq_pending s' = pbuf_free_ooseq_pending s →
     Q (u8 (Z.of_nat (length (freed (refs (pbufs s)) l)))) s') →
  wp (pbuf_free custom_free_function p) Q s.
Proof.
  intros Ho Hlk Hne Hall Href HQ. unfold pbuf_free. pose proof (links_nodup _ _ _ Hlk) as Hnd. set (m := pbufs s) in *.
  pose proof (links_head _ _ _ Hlk) as ->.
  apply wp_bind, wp_assert. { destruct l as [|x l]; [done|]. apply negb_true_iff, Z.eqb_neq. by apply links_cons in Hlk as (_ & ? & _). }
  apply (wp_loop_ghost (λ r '(q, k) t, ∃ dn, l = dn ++ r ∧ freed (refs m) l = dn ++ freed (refs m) r ∧ survivor (refs m) l = survivor (refs m) r ∧ links m q r ∧
      k = u8 (Z.of_nat (length dn)) ∧ owned t (removes dn L) ∧ (∀ a, a ∉ dn → pbufs t a = m a) ∧
      bytes t = bytes s ∧ pbuf_free_ooseq_pending t = pbuf_free_ooseq_pending s) length _ _ l).
  - exists []. done.
  - by apply (owned_bound s L).
  - clear Hlk Hne. intros r [q k] t (dn & El & Ef & Es & Hlk & -> & Hot & Hpb & Hby & Hoo).
    destruct r as [|x r].
    { unfold links, chain in Hlk. cbn [lseg] in Hlk. subst q. apply wp_ret. simpl in Ef, Es. rewrite app_nil_r in Ef.
      rewrite <-Ef. apply HQ; rewrite ?Ef; try done. intros a Ha. rewrite decide_False by (by rewrite Es). by apply Hpb. }
    apply links_cons in Hlk as (-> & Hx0 & Hlk). rewrite (proj2 (Z.eqb_neq x NULL) Hx0).
    assert (Hxl : x ∈ l) by (rewrite El; set_solver).
    assert (Hxd : x ∉ dn). { rewrite El in Hnd. apply NoDup_app in Hnd as (_ & Hd & _). intros Hd'. by apply (Hd x Hd'), list_elem_of_here. }
    pose proof (Href x Hxl) as Hrx. apply wp_bind, wp_pb; [done|]. rewrite Hpb by done.
    apply wp_bind, wp_assert; [apply Z.ltb_lt; lia|]. apply wp_bind, wp_upd_pb; [done|]. rewrite Hpb by done.
    unfold u8 at 1. rewrite Z.mod_small by lia.
    set (m1 := <[x := with_ref (u8 (ref (m x) - 1)) (m x)]> (pbufs t)).
    assert (Eu : u8 (ref (m x) - 1) = ref (m x) - 1) by (apply Z.mod_small; lia).
    assert (Hot1 : owned (with_pbufs m1 t) (removes dn L)).
    { apply owned_frame; [done|]. intros y _. unfold m1. destruct (decide (y = x)) as [->|Hyx]; [by rewrite fn_lookup_insert, Hpb|].
      by rewrite fn_lookup_insert_ne. }
    cbn [freed survivor] in Ef, Es. change (refs m x) with (ref (m x)) in Ef, Es. destruct (Z.eqb_spec (ref (m x) - 1) 0) as [E|E].
    + rewrite (proj2 (Z.eqb_eq (ref (m x)) 1)) in Ef, Es by lia. apply wp_bind.
      assert (Em1 : pbufs (with_pbufs m1 t) x = with_ref (u8 (ref (m x) - 1)) (m x)) by (cbn [pbufs with_pbufs]; unfold m1; by rewrite fn_lookup_insert).
      assert (Hd : dealloc custom_free_function x (m x) = dealloc custom_free_function x (pbufs (with_pbufs m1 t) x)) by (rewrite Em1; done).
      rewrite Hd. apply (dealloc_run _ (removes dn L)); [done| |].
      { rewrite all_removes. apply elem_of_difference. split; [by apply Hall|]. by rewrite elem_of_list_to_set. }
      intros s1 Ho1 Hp1 Hb1 Hc1. apply wp_ret. exists r. split; [|simpl; lia]. exists (dn ++ [x]).
      split; [by rewrite <-app_assoc|]. split; [by rewrite <-app_assoc|]. split; [done|]. split; [done|].
      split; [rewrite length_app; simpl; unfold u8; rewrite Zplus_mod_idemp_l; f_equal; lia|].
      split; [by rewrite removes_snoc|]. split; [|split; [by rewrite Hb1|by rewrite Hc1]].
      intros a Ha. rewrite Hp1. cbn [pbufs with_pbufs]. unfold m1. rewrite fn_lookup_insert_ne by set_solver. apply Hpb. set_solver.
    + rewrite (proj2 (Z.eqb_neq (ref (m x)) 1)) in Ef, Es by lia. apply wp_ret. rewrite app_nil_r in Ef.
      rewrite <-Ef. apply HQ; rewrite ?Ef; try done. intros a Ha. cbn [pbufs with_pbufs]. unfold m1.
      destruct (decide (a = x)) as [->|Hax].
      * rewrite fn_lookup_insert, decide_True by done. by rewrite Eu.
      * rewrite fn_lookup_insert_ne, decide_False by (congruence || done). by apply Hpb.
Qed.
End ownership.
