(* ===== verification/LwipPbufAlloc.v ===== *)
(** * LwipPbufAlloc: allocating packet buffers

    [pbuf_alloc] answers NULL and leaves everything in use as it was, or a new
    packet of the length asked for: buffers that were not in use, with one
    reference each, whose data lie in their own memory behind the room for the
    headers of the layer. *)

From Stdlib Require Import ZArith Lia.
From stdpp Require Import base numbers list option functions gmap sets fin_sets.
From S2P Require Import Prelude LwipBase LwipPbuf LwipPbufData LwipPbufOwn.
Open Scope Z_scope.

Definition add_pool (x : Z) (L : livep) : livep := Lv ({[x]} ∪ lv_pool L) (lv_ref L) (lv_heap L).
Definition add_ref (x : Z) (L : livep) : livep := Lv (lv_pool L) ({[x]} ∪ lv_ref L) (lv_heap L).
Definition add_heap (x n : Z) (L : livep) : livep := Lv (lv_pool L) (lv_ref L) (<[x := n]> (lv_heap L)).
Definition add_pools (l : list Z) (L : livep) : livep := Lv (list_to_set l ∪ lv_pool L) (lv_ref L) (lv_heap L).

Lemma all_add_pool x L : all (add_pool x L) = {[x]} ∪ all L.
Proof. unfold all, add_pool; cbn [lv_pool lv_ref lv_heap]. set_solver. Qed.
Lemma all_add_ref x L : all (add_ref x L) = {[x]} ∪ all L.
Proof. unfold all, add_ref; cbn [lv_pool lv_ref lv_heap]. set_solver. Qed.
Lemma all_add_heap x n L : all (add_heap x n L) = {[x]} ∪ all L.
Proof. unfold all, add_heap; cbn [lv_pool lv_ref lv_heap]. rewrite dom_insert_L. set_solver. Qed.
Lemma all_add_pools l L : all (add_pools l L) = list_to_set l ∪ all L.
Proof. unfold all, add_pools; cbn [lv_pool lv_ref lv_heap]. set_solver. Qed.
Lemma removes_pool xs L : lv_pool (removes xs L) = lv_pool L ∖ list_to_set xs.
Proof. unfold removes. revert L. induction xs as [|x xs IH]; intros L; simpl; [set_solver|]. rewrite IH. simpl. set_solver. Qed.
Lemma removes_ref xs L : lv_ref (removes xs L) = lv_ref L ∖ list_to_set xs.
Proof. unfold removes. revert L. induction xs as [|x xs IH]; intros L; simpl; [set_solver|]. rewrite IH. simpl. set_solver. Qed.
Lemma removes_heap xs L : (∀ x, x ∈ xs → lv_heap L !! x = None) → lv_heap (removes xs L) = lv_heap L.
Proof.
  unfold removes. revert L. induction xs as [|x xs IH]; intros L Hx; simpl; [done|].
  assert (E : delete x (lv_heap L) = lv_heap L) by apply delete_id, Hx, list_elem_of_here.
  rewrite IH; simpl; rewrite E; [done|]. intros y Hy. by apply Hx, list_elem_of_further.
Qed.
Lemma livep_eq L L' : lv_pool L = lv_pool L' → lv_ref L = lv_ref L' → lv_heap L = lv_heap L' → L = L'.
Proof. destruct L, L'. simpl. by intros -> -> ->. Qed.
Lemma not_all x L : x ∉ all L → x ∉ lv_pool L ∧ x ∉ lv_ref L ∧ lv_heap L !! x = None.
Proof. unfold all. rewrite <-not_elem_of_dom. set_solver. Qed.
Lemma add_pools_nil L : add_pools [] L = L.
Proof. apply livep_eq; simpl; [set_solver|done|done]. Qed.
(** A packet given back is as if it had not been taken. *)
Lemma removes_add_pools l L : (∀ x, x ∈ l → x ∉ all L) → removes l (add_pools l L) = L.
Proof.
  intros Hl. assert (Hn : ∀ x, x ∈ l → x ∉ lv_pool L ∧ x ∉ lv_ref L ∧ lv_heap L !! x = None) by (intros x Hx; by apply not_all, Hl).
  apply livep_eq.
  - rewrite removes_pool. simpl. apply set_eq. intros x. rewrite elem_of_difference, elem_of_union, elem_of_list_to_set.
    specialize (Hn x). tauto.
  - rewrite removes_ref. simpl. apply set_eq. intros x. rewrite elem_of_difference, elem_of_list_to_set. specialize (Hn x). tauto.
  - rewrite removes_heap; [done|]. simpl. intros x Hx. by apply Hn.
Qed.

Section allocation.
Context {H M : Type} `{Heaps H} `{Pools M}.
Abbreviation P := (pstate H M).
Context `{!PbufMemory H M}.
Context (O : gmap Z Z).

Definition with_pools (m : M) (s : P) : P := MkPstate (pbufs s) (bytes s) (heap s) m (pbuf_free_ooseq_pending s).
Definition with_heap (h : H) (s : P) : P := MkPstate (pbufs s) (bytes s) h (pools s) (pbuf_free_ooseq_pending s).
Definition with_pbuf (x : Z) (b : pbuf) (s : P) : P := with_pbufs (<[x := b]> (pbufs s)) s.

Lemma pool_sizes : 0 < pool_size (M := M) MEMP_PBUF_POOL ∧ 0 < pool_size (M := M) MEMP_PBUF.
Proof.
  pose proof pool_room_ok as K1. pose proof ref_room_ok as K2. unfold SIZEOF_STRUCT_PBUF in *.
  change PBUF_POOL_BUFSIZE_ALIGNED with 1536 in *. lia.
Qed.


(** An element from the pool of buffers with data. *)
Lemma take_pool_run s L (Q : Z → P → Prop) : owned O s L →
  (∀ m, owned O (with_pools m s) L → Q NULL (with_pools m s)) →
  (∀ m x, x ∉ all L → 0 < x → x + pool_size (M := M) MEMP_PBUF_POOL ≤ 2 ^ 64 → x mod 4 = 0 →
     (∀ b, kind b PBUF_TYPE_ALLOC_SRC_MASK_STD_MEMP_PBUF_POOL → data_in x (pool_size (M := M) MEMP_PBUF_POOL) b →
        owned O (with_pbuf x b (with_pools m s)) (add_pool x L)) → Q x (with_pools m s)) →
  wp (in_pools (memp_malloc MEMP_PBUF_POOL)) Q s.
Proof.
  intros [K1 K2 K3 K4 K5 K6 K7] Hnull Hsome. destruct pool_sizes as [Hs1 Hs2].
  apply wp_zoom. eapply wp_mono; [apply (memp_malloc_ok _ _ _ K1)|]. intros x m [Hoth Hx].
  assert (K2' := Hoth MEMP_PBUF _ ltac:(done) K2).
  destruct (decide _); destruct Hx as [Hx1 Hx2].
  - subst x. apply (Hnull m). by split.
  - assert (Hxr : x ∉ lv_ref L) by (by apply (pool_fresh m MEMP_PBUF_POOL (lv_pool L) MEMP_PBUF)).
    assert (Hxh : (lv_heap L ∪ O) !! x = None) by (by apply (pool_not_heap m MEMP_PBUF_POOL _ _ _ x Hx2 (elem_of_union_l _ _ _ (elem_of_singleton_2 x x eq_refl)) Hs1 K3)).
    apply lookup_union_None in Hxh as [Hxh _]. destruct (pool_addr _ _ _ x Hx2 (elem_of_union_l _ _ _ (elem_of_singleton_2 x x eq_refl))) as (A1 & A2 & A3).
    apply (Hsome m x); [unfold all; rewrite !not_elem_of_union; split; [done|by apply not_elem_of_dom]|done|done|done|].
    intros b Hk Hd. split; try done; cbn [pbufs with_pbuf with_pbufs with_pools add_pool lv_pool lv_ref lv_heap].
    + intros y [->%elem_of_singleton|Hy]%elem_of_union; [by rewrite fn_lookup_insert|].
      rewrite fn_lookup_insert_ne by (intros ->; done). by apply K5.
    + intros y Hy. rewrite fn_lookup_insert_ne by (intros ->; done). by apply K6.
    + intros y n0 Hy. rewrite fn_lookup_insert_ne by (intros ->; congruence). by apply K7.
Qed.
(** An element from the pool of references. *)
Lemma take_ref_run s L (Q : Z → P → Prop) : owned O s L →
  (∀ m, owned O (with_pools m s) L → Q NULL (with_pools m s)) →
  (∀ m x, x ∉ all L → 0 < x → (∀ b, kind b PBUF_TYPE_ALLOC_SRC_MASK_STD_MEMP_PBUF → owned O (with_pbuf x b (with_pools m s)) (add_ref x L)) →
     Q x (with_pools m s)) →
  wp (in_pools (memp_malloc MEMP_PBUF)) Q s.
Proof.
  intros [K1 K2 K3 K4 K5 K6 K7] Hnull Hsome. destruct pool_sizes as [Hs1 Hs2].
  apply wp_zoom. eapply wp_mono; [apply (memp_malloc_ok _ _ _ K2)|]. intros x m [Hoth Hx].
  assert (K1' := Hoth MEMP_PBUF_POOL _ ltac:(done) K1).
  destruct (decide _); destruct Hx as [Hx1 Hx2].
  - subst x. apply (Hnull m). by split.
  - assert (Hxr : x ∉ lv_pool L) by (by apply (pool_fresh m MEMP_PBUF (lv_ref L) MEMP_PBUF_POOL)).
    assert (Hxh : (lv_heap L ∪ O) !! x = None) by (by apply (pool_not_heap m MEMP_PBUF _ _ _ x Hx2 (elem_of_union_l _ _ _ (elem_of_singleton_2 x x eq_refl)) Hs2 K3)).
    apply lookup_union_None in Hxh as [Hxh _]. destruct (pool_addr _ _ _ x Hx2 (elem_of_union_l _ _ _ (elem_of_singleton_2 x x eq_refl))) as (A1 & A2 & A3).
    apply (Hsome m x); [unfold all; rewrite !not_elem_of_union; split; [done|by apply not_elem_of_dom]|done|].
    intros b Hk. split; try done; cbn [pbufs with_pbuf with_pbufs with_pools add_ref lv_pool lv_ref lv_heap].
    + intros y Hy. rewrite fn_lookup_insert_ne by (intros ->; done). by apply K5.
    + intros y [->%elem_of_singleton|Hy]%elem_of_union; [by rewrite fn_lookup_insert|].
      rewrite fn_lookup_insert_ne by (intros ->; done). by apply K6.
    + intros y n0 Hy. rewrite fn_lookup_insert_ne by (intros ->; congruence). by apply K7.
Qed.
(** A block of the heap. *)
Lemma take_heap_run s L n (Q : Z → P → Prop) : owned O s L → 0 ≤ n < 2 ^ 32 →
  (∀ h, heap_serves (heap s) n = false → owned O (with_heap h s) L → Q NULL (with_heap h s)) →
  (∀ h x k, heap_serves (heap s) n = true → x ∉ all L → n ≤ k → 0 < x → x + k < 2 ^ 63 → x mod 4 = 0 →
     (∀ b, kind b PBUF_TYPE_ALLOC_SRC_MASK_STD_HEAP → data_in x k b → owned O (with_pbuf x b (with_heap h s)) (add_heap x k L)) → Q x (with_heap h s)) →
  wp (in_heap (mem_malloc n)) Q s.
Proof.
  intros [K1 K2 K3 K4 K5 K6 K7] Hn Hnull Hsome. destruct pool_sizes as [Hs1 Hs2]. pose proof (heap_range (H := H)) as Hhr.
  apply wp_zoom, wp_with_run. eapply wp_mono; [apply (mem_malloc_ok _ _ _ K3 Hn)|]. intros x h [[-> Hx]|(k & Hk & Hx & Hl)] Hrun%heap_serves_answer.
  - apply (Hnull h); [done|]. by split.
  - apply lookup_union_None in Hx as [Hx HxO].
    destruct (heap_addr _ _ x k Hl (lookup_insert_eq _ _ _)) as (A1 & A2 & A3 & A4).
    assert (Hxp : x ∉ lv_pool L) by (intros Hin; pose proof (pool_not_heap _ _ _ _ _ _ K1 Hin Hs1 Hl) as E; by rewrite lookup_insert_eq in E).
    assert (Hxr : x ∉ lv_ref L) by (intros Hin; pose proof (pool_not_heap _ _ _ _ _ _ K2 Hin Hs2 Hl) as E; by rewrite lookup_insert_eq in E).
    apply (Hsome h x k); [rewrite Hrun; apply negb_true_iff, Z.eqb_neq, pos_nonnull; lia|unfold all; rewrite !not_elem_of_union; split; [done|by apply not_elem_of_dom]|done|lia|lia|done|].
    intros b Hkd Hd. split; try done; cbn [pbufs heap with_pbuf with_pbufs with_heap add_heap lv_pool lv_ref lv_heap].
    + by rewrite <-insert_union_l.
    + by apply map_disjoint_insert_l_2.
    + intros y Hy. rewrite fn_lookup_insert_ne by (intros ->; done). by apply K5.
    + intros y Hy. rewrite fn_lookup_insert_ne by (intros ->; done). by apply K6.
    + intros y n' [[<- <-]|[Hne Hy]]%lookup_insert_Some; [by rewrite fn_lookup_insert|].
      rewrite fn_lookup_insert_ne by done. by apply K7.
Qed.

(** [l] is a new packet of [n] bytes. *)
Record fresh_packet (s : P) (L : livep) (n : Z) (s' : P) (L' : livep) (p : Z) (l : list Z) : Prop := FreshPacket {
  fp_owned : owned O s' L';
  fp_all : all L' = list_to_set l ∪ all L;
  fp_new : ∀ x, x ∈ l → x ∉ all L;
  fp_pkt : pkt (pbufs s') p l;
  fp_nonempty : l ≠ [];
  fp_total : total (pbufs s') l = n;
  fp_positive : 0 < n → positive (pbufs s') l;
  fp_ref : ∀ x, x ∈ l → ref (pbufs s' x) = 1;
  fp_others : ∀ x, x ∉ l → pbufs s' x = pbufs s x;
  fp_bytes : bytes s' = bytes s
}.
(** Its buffers have memory of their own, and the first one has room for
    headers of [layer] bytes before its data. *)
Record own_memory (s' : P) (L' : livep) (layer p : Z) (l : list Z) : Prop := OwnMemory {
  om_own : ∀ x, x ∈ l → x ∈ lv_pool L' ∪ dom (lv_heap L');
  om_room : p + SIZEOF_STRUCT_PBUF + layer ≤ payload (pbufs s' p)
}.
(** Nothing in use has changed. *)
Definition as_before (s : P) (L : livep) (s' : P) : Prop :=
  owned O s' L ∧ (∀ x, x ∈ all L → pbufs s' x = pbufs s x) ∧ bytes s' = bytes s.

Lemma one_packet s L n s' L' x b : owned O s' L' → all L' = {[x]} ∪ all L → x ∉ all L → x ≠ NULL → 0 ≤ n < 65536 →
  (∀ y, pbufs s' y = <[x := b]> (pbufs s) y) → bytes s' = bytes s → next b = NULL → len b = n → tot_len b = n → ref b = 1 →
  fresh_packet s L n s' L' x [x].
Proof.
  intros Ho Ha Hx Hx0 Hn Hp Hb B1 B2 B3 B4. assert (Ex : pbufs s' x = b) by (by rewrite Hp, fn_lookup_insert). split; try done.
  - rewrite Ha. set_solver.
  - by intros y ->%list_elem_of_singleton.
  - split; simpl; rewrite ?Ex; try lia.
    + unfold links, chain. cbn [lseg]. by rewrite Ex.
    + intros y ->%list_elem_of_singleton. rewrite Ex. lia.
  - simpl. rewrite Ex. lia.
  - intros Hpos y ->%list_elem_of_singleton. rewrite Ex. lia.
  - intros y ->%list_elem_of_singleton. by rewrite Ex.
  - intros y Hy. rewrite Hp, fn_lookup_insert_ne; [done|]. intros ->. set_solver.
Qed.

Definition type_ok (type src : Z) : Prop := Z.land (u8 type) PBUF_TYPE_ALLOC_SRC_MASK = src.

Lemma alloc_reference_run s L payload' n type (Q : Z → P → Prop) : owned O s L → 0 ≤ n < 65536 → type = PBUF_REF ∨ type = PBUF_ROM →
  (∀ s', as_before s L s' → Q NULL s') →
  (∀ s' L' p, fresh_packet s L n s' L' p [p] → payload (pbufs s' p) = payload' → Q p s') →
  wp (pbuf_alloc_reference payload' n type) Q s.
Proof.
  intros Ho Hn Ht Hnull Hsome. unfold pbuf_alloc_reference. apply wp_bind, wp_assert; [by destruct Ht as [-> | ->]|].
  apply wp_bind, (take_ref_run s L); [done| |].
  - intros m Hm. apply wp_ret. apply (Hnull (with_pools m s)). by split.
  - intros m x Hx Hx0 Hown. assert (Hxn : x ≠ NULL) by by apply pos_nonnull. rewrite (proj2 (Z.eqb_neq x NULL) Hxn).
    apply wp_bind, wp_upd_pb; [done|]. apply wp_ret. set (b := MkPbuf _ _ _ _ _ _ _ _).
    apply (Hsome _ (add_ref x L)).
    + apply (one_packet _ _ _ _ _ _ b); try done; [apply Hown; by destruct Ht as [-> | ->]|apply all_add_ref|apply Z.mod_small; lia..].
    + cbn [pbufs with_pbufs]. by rewrite fn_lookup_insert.
Qed.

(** The start of the data in a block at [x]. *)
Lemma data_start x off : 0 < x → x mod 4 = 0 → 0 ≤ off ≤ PBUF_TRANSPORT → x + 84 ≤ 2 ^ 64 →
  LWIP_MEM_ALIGN (x + SIZEOF_STRUCT_PBUF + off) = x + SIZEOF_STRUCT_PBUF + LWIP_MEM_ALIGN_SIZE off ∧
  off ≤ LWIP_MEM_ALIGN_SIZE off ≤ 56 ∧ LWIP_MEM_ALIGN_SIZE off mod 4 = 0.
Proof.
  unfold PBUF_TRANSPORT, SIZEOF_STRUCT_PBUF. intros Hx Hm Ho Hb. destruct (align_size_spec off) as [A1 A2]; [lia|].
  destruct (align_spec (x + 24 + off)) as [B1 B2]; [lia|]. dlia.
Qed.

(** The data follow the structure in one piece of memory. *)
Definition contiguous (b : pbuf) : Prop := Z.land (type_internal b) PBUF_TYPE_FLAG_STRUCT_DATA_CONTIGUOUS ≠ 0.
(** The size of the block for [n] bytes behind the headers of [layer]. *)
Definition ram_size (layer n : Z) : Z := SIZEOF_STRUCT_PBUF + (LWIP_MEM_ALIGN_SIZE layer + LWIP_MEM_ALIGN_SIZE n).
Lemma alloc_ram_run s L layer n (Q : Z → P → Prop) : owned O s L → 0 ≤ n < 65536 → 0 ≤ layer ≤ PBUF_TRANSPORT →
  (∀ s', heap_serves (heap s) (ram_size layer n) = false → as_before s L s' → Q NULL s') →
  (∀ s' L' p, heap_serves (heap s) (ram_size layer n) = true → fresh_packet s L n s' L' p [p] → own_memory s' L' layer p [p] → contiguous (pbufs s' p) → Q p s') →
  wp (pbuf_alloc_ram layer n PBUF_RAM) Q s.
Proof.
  intros Ho Hn Hl Hnull Hsome. unfold pbuf_alloc_ram. pose proof Hl as Hl'. unfold PBUF_TRANSPORT in Hl'.
  destruct (align_size_spec layer) as [A1 A2]; [lia|]. destruct (align_size_spec n) as [B1 B2]; [lia|].
  rewrite (u32_small (LWIP_MEM_ALIGN_SIZE layer + _)) by lia. change (LWIP_MEM_ALIGN_SIZE SIZEOF_STRUCT_PBUF) with 24.
  rewrite (u32_small (24 + _)) by lia. unfold ram_size in Hnull, Hsome. change SIZEOF_STRUCT_PBUF with 24 in Hnull, Hsome. rewrite !(proj2 (Z.ltb_ge _ _)) by lia. cbn [orb].
  apply wp_bind, (take_heap_run s L); [done|lia| |].
  - intros h Hno Hh. apply wp_ret. apply (Hnull (with_heap h s)); [done|]. by split.
  - intros h x k Hyes Hx Hk Hx0 Hxk Hx4 Hown. assert (Hxn : x ≠ NULL) by by apply pos_nonnull. rewrite (proj2 (Z.eqb_neq x NULL) Hxn).
    destruct (data_start x layer) as (D1 & D2 & D3); [done|done|done|lia|].
    apply wp_bind, wp_upd_pb; [done|]. set (b := MkPbuf _ _ _ _ _ _ _ _). apply wp_bind, wp_pb; [done|].
    cbn [pbufs with_pbufs]. rewrite fn_lookup_insert. apply wp_bind, wp_assert.
    { apply Z.eqb_eq. unfold b. cbn [payload]. rewrite D1. unfold SIZEOF_STRUCT_PBUF, MEM_ALIGNMENT. dlia. }
    apply wp_ret. apply (Hsome _ (add_heap x k L)); [done|..].
    + apply (one_packet _ _ _ _ _ _ b); try done; [|apply all_add_heap|apply Z.mod_small; lia..].
      apply Hown; [done|]. unfold data_in, b. cbn [payload len]. rewrite D1. unfold SIZEOF_STRUCT_PBUF, u16 in *. rewrite Z.mod_small by lia. lia.
    + split.
      * intros y ->%list_elem_of_singleton. cbn [add_heap lv_heap lv_pool]. rewrite dom_insert_L. set_solver.
      * cbn [pbufs with_pbufs]. rewrite fn_lookup_insert. unfold b. cbn [payload]. rewrite D1. lia.
    + cbn [pbufs with_pbufs]. by rewrite fn_lookup_insert.
Qed.

(** ** A chain from the pool *)

(** [totals] of the beginning of a packet of which [rem] bytes are missing. *)
Fixpoint open_totals (m : Z → pbuf) (l : list Z) (rem : Z) : Prop :=
  match l with [] => True | x :: t => tot_len (m x) = total m (x :: t) + rem ∧ open_totals m t rem end.
Lemma open_ext m m' l rem : (∀ x, x ∈ l → len (m' x) = len (m x) ∧ tot_len (m' x) = tot_len (m x)) → open_totals m l rem → open_totals m' l rem.
Proof.
  induction l as [|x l IH]; intros Hx; [done|]. intros [K1 K2]. split.
  - destruct (totals_ext m m' (x :: l) Hx) as [-> _]. destruct (Hx x (list_elem_of_here _ _)) as [_ ->]. done.
  - apply IH; [|done]. intros y Hy. by apply Hx, list_elem_of_further.
Qed.
Lemma open_snoc m l q rem : open_totals m l rem → tot_len (m q) = rem → open_totals m (l ++ [q]) (rem - len (m q)).
Proof.
  intros Hl Hq. induction l as [|x l IH]; simpl in *; [split; [lia|done]|]. destruct Hl as [K1 K2]. split; [|by apply IH].
  rewrite total_app. simpl. lia.
Qed.
Lemma open_closed m l : open_totals m l 0 → totals m l.
Proof. induction l as [|x l IH]; simpl; [done|]. intros [K1 K2]. split; [lia|by apply IH]. Qed.
Lemma positive_count m l : positive m l → Z.of_nat (length l) ≤ total m l.
Proof.
  induction l as [|x l IH]; intros Hl; simpl; [done|]. pose proof (Hl x (list_elem_of_here _ _)).
  specialize (IH (λ y Hy, Hl y (list_elem_of_further _ _ _ Hy))). lia.
Qed.
Lemma links_snoc m m' p l z q : links m p l → last l = Some z → q ∉ l → q ≠ NULL →
  (∀ y, y ∈ l → y ≠ z → next (m' y) = next (m y)) → next (m' z) = q → next (m' q) = NULL → links m' p (l ++ [q]).
Proof.
  intros Hl Hz Hq Hq0 Hm Hz' Hq'. pose proof (links_nodup _ _ _ Hl) as Hnd. apply last_Some in Hz as [l0 ->].
  unfold links, chain in *. apply lseg_app in Hl as (y & Hl0 & -> & Hz0 & _).
  apply NoDup_app in Hnd as (_ & Hd & _). apply lseg_app. exists q. split; [|cbn [lseg]; rewrite Hq'; done].
  apply lseg_app. exists z. split.
  - eapply lseg_ext; [|exact Hl0]. intros x Hx. apply Hm; [set_solver|]. intros ->. apply (Hd z Hx), list_elem_of_here.
  - cbn [lseg]. by rewrite Hz'.
Qed.
Lemma owned_same s s' L : owned O s L → pbufs s' = pbufs s → heap s' = heap s → pools s' = pools s → owned O s' L.
Proof. intros [K1 K2 K3 K4 K5 K6 K7] E1 E2 E3. split; rewrite ?E1, ?E2, ?E3; done. Qed.
Lemma freed_all r l : (∀ x, x ∈ l → r x = 1) → freed r l = l ∧ survivor r l = None.
Proof.
  induction l as [|x l IH]; intros Hl; simpl; [done|]. rewrite (Hl x) by apply list_elem_of_here.
  destruct IH as [-> ->]; [|done]. intros y Hy. by apply Hl, list_elem_of_further.
Qed.

Lemma pool_room_eq off : 0 ≤ off ≤ PBUF_TRANSPORT → pool_room off = 1536 - LWIP_MEM_ALIGN_SIZE off ∧ 1480 ≤ pool_room off ≤ 1536.
Proof.
  unfold PBUF_TRANSPORT. intros Ho. destruct (align_size_spec off) as [A1 A2]; [lia|]. unfold pool_room. change PBUF_POOL_BUFSIZE_ALIGNED with 1536.
  rewrite u32_small by dlia. dlia.
Qed.

Context (custom_free_function : Z → comp P unit).
Context (s : P) (L : livep) (layer n : Z).
Hypothesis (Hlayer : 0 ≤ layer ≤ PBUF_TRANSPORT) (Hn : 0 ≤ n < 65536).

(** The buffers [l] taken so far, all linked, with [rem] bytes missing. *)
Record taken (t : P) (p : Z) (l : list Z) (rem : Z) : Prop := Taken {
  tk_owned : owned O t (add_pools l L);
  tk_new : ∀ x, x ∈ l → x ∉ all L;
  tk_links : links (pbufs t) p l;
  tk_ref : ∀ x, x ∈ l → ref (pbufs t x) = 1;
  tk_positive : 0 < n → positive (pbufs t) l;
  tk_len : ∀ x, x ∈ l → 0 ≤ len (pbufs t x);
  tk_totals : open_totals (pbufs t) l rem;
  tk_total : total (pbufs t) l + rem = n;
  tk_rem : 0 ≤ rem;
  tk_room : l ≠ [] → p + SIZEOF_STRUCT_PBUF + layer ≤ payload (pbufs t p);
  tk_others : ∀ x, x ∉ l → pbufs t x = pbufs s x;
  tk_bytes : bytes t = bytes s
}.

Lemma taken_done t p l : taken t p l 0 → l ≠ [] → (length l = 1%nat ∨ 0 < n) → fresh_packet s L n t (add_pools l L) p l ∧ own_memory t (add_pools l L) layer p l.
Proof.
  intros [K1 K2 K3 K4 K5 K6 K7 K8 K9 K10 K11 K12] Hne Hlen. split; [split; try done|split; [|by apply K10]].
  - apply all_add_pools.
  - split; [done|done|by apply open_closed|lia|]. destruct Hlen as [-> |Hlen]; [done|]. pose proof (positive_count _ _ (K5 Hlen)). lia.
  - lia.
  - intros x Hx. cbn [add_pools lv_pool]. set_solver.
Qed.
(** The pool is empty: the buffers taken so far are given back. *)
Lemma give_back_run t p l (Q : unit → P → Prop) : taken t p l (n - total (pbufs t) l) → l ≠ [] →
  (∀ t', as_before s L t' → Q tt t') → wp (_ ← pbuf_free custom_free_function p; mret tt) Q t.
Proof.
  intros [K1 K2 K3 K4 K5 K6 K7 K8 K9 K10 K11 K12] Hne HQ. destruct (freed_all (refs (pbufs t)) l K4) as [Ef Es].
  apply wp_bind. apply (pbuf_free_run O custom_free_function t (add_pools l L) l); [done|done|done| | |].
  - intros x Hx. rewrite all_add_pools. set_solver.
  - intros x Hx. rewrite K4; [lia|done].
  - rewrite Ef, Es. intros t' Ho Hp Hb _. apply wp_ret, HQ. rewrite removes_add_pools in Ho by done. split; [done|]. split; [|by rewrite Hb].
    intros x Hx. assert (x ∉ l) by (intros Hxl; by apply (K2 x Hxl)). rewrite Hp by done. rewrite decide_False by done. by apply K11.
Qed.

(** One more buffer, linked behind the last. *)
Definition link_last (l : list Z) (q : Z) (m : Z → pbuf) : Z → pbuf :=
  match last l with None => m | Some z => <[z := with_next q (m z)]> m end.
Lemma taken_more t p l rem (m : M) q b : taken t p l rem → q ∉ all (add_pools l L) → q ≠ NULL →
  owned O (with_pbuf q b (with_pools m t)) (add_pool q (add_pools l L)) →
  next b = NULL → tot_len b = rem → 0 ≤ len b ≤ rem → (0 < n → 0 < len b) → ref b = 1 → (l = [] → q + SIZEOF_STRUCT_PBUF + layer ≤ payload b) →
  taken (with_pbufs (link_last l q (<[q := b]> (pbufs t))) (with_pools m t)) (match l with [] => q | _ => p end) (l ++ [q]) (rem - len b).
Proof.
  intros [K1 K2 K3 K4 K5 K6 K7 K8 K9 K10 K11 K12] Hq Hq0 Ho B1 B2 B3 B4 B5 B6. rewrite all_add_pools in Hq.
  assert (Hql : q ∉ l) by set_solver. set (m2 := link_last _ _ _).
  assert (Hlast : ∀ z, last l = Some z → z ∈ l) by (intros z (l0 & ->)%last_Some; set_solver).
  assert (Eq : m2 q = b).
  { unfold m2, link_last. destruct (last l) as [z|] eqn:E; [|by rewrite fn_lookup_insert]. rewrite fn_lookup_insert_ne, fn_lookup_insert; [done|].
    intros ->. by apply Hql, Hlast. }
  (* the others change in their link only *)
  assert (Ey : ∀ y, y ≠ q → m2 y = pbufs t y ∨ last l = Some y ∧ m2 y = with_next q (pbufs t y)).
  { intros y Hy. unfold m2, link_last. destruct (last l) as [z|] eqn:E.
    - destruct (decide (y = z)) as [->|Hyz]; [right; by rewrite fn_lookup_insert, fn_lookup_insert_ne|left; by rewrite !fn_lookup_insert_ne].
    - left. by rewrite fn_lookup_insert_ne. }
  assert (Ez : ∀ z, last l = Some z → m2 z = with_next q (pbufs t z)).
  { intros z E. unfold m2, link_last. rewrite E, fn_lookup_insert, fn_lookup_insert_ne; [done|]. intros ->. by apply Hql, Hlast. }
  clearbody m2.
  assert (Ef : ∀ y, y ∈ l → ref (m2 y) = ref (pbufs t y) ∧ len (m2 y) = len (pbufs t y) ∧ tot_len (m2 y) = tot_len (pbufs t y) ∧ payload (m2 y) = payload (pbufs t y)).
  { intros y Hy. destruct (Ey y) as [-> |[_ ->]]; [|done|done]. intros ->. done. }
  assert (Et : total m2 l = total (pbufs t) l) by (apply totals_ext; intros y Hy; destruct (Ef y Hy) as (_ & ? & ? & _); done).
  split; cbn [pbufs bytes with_pbufs with_pools].
  - replace (add_pools (l ++ [q]) L) with (add_pool q (add_pools l L)) by (apply livep_eq; cbn [add_pool add_pools lv_pool lv_ref lv_heap]; [set_solver|done|done]).
    assert (K : owned O (with_pbufs m2 (with_pbuf q b (with_pools m t))) (add_pool q (add_pools l L))); [|done].
    apply owned_frame; [done|]. intros y _. cbn [pbufs with_pbuf with_pbufs with_pools]. destruct (decide (y = q)) as [->|Hy]; [by rewrite Eq, fn_lookup_insert|].
    rewrite fn_lookup_insert_ne by done. by destruct (Ey y Hy) as [-> |[_ ->]].
  - intros x [Hx| ->%list_elem_of_singleton]%elem_of_app; [by apply K2|set_solver].
  - destruct (last l) as [z|] eqn:E.
    + replace (match l with [] => q | _ => p end) with p by (by destruct l). apply (links_snoc _ m2 p l z q K3 E Hql Hq0).
      * intros y Hy Hyz. destruct (Ey y) as [-> |[[= ->] _]]; [|done|done]. intros ->. done.
      * rewrite (Ez z eq_refl). done.
      * by rewrite Eq.
    + apply last_None in E as ->. unfold links, chain. cbn [app lseg]. by rewrite Eq.
  - intros x [Hx| ->%list_elem_of_singleton]%elem_of_app; [|by rewrite Eq]. destruct (Ef x Hx) as [-> _]. by apply K4.
  - intros Hpos x [Hx| ->%list_elem_of_singleton]%elem_of_app; [|rewrite Eq; by apply B4]. destruct (Ef x Hx) as (_ & -> & _). by apply K5.
  - intros x [Hx| ->%list_elem_of_singleton]%elem_of_app; [|rewrite Eq; lia]. destruct (Ef x Hx) as (_ & -> & _). by apply K6.
  - rewrite <-Eq. apply open_snoc; [|by rewrite Eq]. eapply open_ext; [|exact K7]. intros x Hx. by destruct (Ef x Hx) as (_ & ? & ? & _).
  - rewrite total_app, Et. simpl. rewrite Eq. lia.
  - lia.
  - intros _. destruct l as [|x0 l0]; [rewrite Eq; by apply B6|]. pose proof (links_head _ _ _ K3) as ->. cbn [head_of] in *.
    destruct (Ef x0 (list_elem_of_here _ _)) as (_ & _ & _ & ->). by apply K10.
  - intros x Hx. destruct (Ey x) as [-> |[Hl _]]; [set_solver|apply K11; set_solver|]. exfalso. apply Hx, elem_of_app. left. by apply Hlast.
  - done.
Qed.

Lemma alloc_pool_run (Q : Z → P → Prop) : owned O s L → (∀ s', as_before s L s' → Q NULL s') →
  (∀ s' L' p l, fresh_packet s L n s' L' p l → own_memory s' L' layer p l → Q p s') →
  wp (pbuf_alloc_pool custom_free_function layer n PBUF_POOL) Q s.
Proof.
  intros Ho Hnull Hsome. unfold pbuf_alloc_pool.
  apply (wp_loop_ghost (λ '(l, rem') '(p, z, rem, off) t, rem' = rem ∧ taken t p l rem ∧
      (l = [] ∧ p = NULL ∧ off = layer ∧ rem = n ∨ l ≠ [] ∧ last l = Some z ∧ off = 0 ∧ 0 < rem)) (λ '(l, rem), S (Z.to_nat rem)) _ _ ([], n)).
  - split; [done|]. split; [|left; done]. split; try done; try (by intros ? ?%elem_of_nil).
    + by rewrite add_pools_nil.
    + by intros _ ? ?%elem_of_nil.
    + lia.
  - lia.
  - intros [l rem'] [[[p z] rem] off] t (-> & Ht & Hcase). pose proof Ht as [K1 K2 K3 K4 K5 K6 K7 K8 K9 K10 K11 K12].
    assert (Hp : (p =? NULL) = match l with [] => true | _ => false end).
    { rewrite (links_head _ _ _ K3). destruct l; [done|]. by apply Z.eqb_neq, (links_nonnull _ _ _ _ K3), list_elem_of_here. }
    assert (Hoff : 0 ≤ off ≤ PBUF_TRANSPORT) by (unfold PBUF_TRANSPORT in *; destruct Hcase as [(_ & _ & -> & _)|(_ & _ & -> & _)]; lia).
    assert (Hrn : 0 ≤ rem ≤ n) by (pose proof (total_nonneg _ _ K6); lia).
    assert (Hrem : 0 < n → 0 < rem) by (destruct Hcase as [(_ & _ & _ & ->)|(_ & _ & _ & ?)]; lia).
    apply wp_bind, (take_pool_run t (add_pools l L)); [done| |].
    + intros m Hm. cbn [Z.eqb NULL]. change (NULL =? NULL) with true. cbv iota. apply wp_bind, wp_modify. rewrite Hp.
      set (t1 := MkPstate _ _ _ _ _). assert (Ht1 : taken t1 p l rem) by (split; try done; by apply (owned_same (with_pools m t))).
      destruct l as [|x l]; cbn [negb].
      * apply wp_bind, wp_ret, wp_ret. apply Hnull. split; [|split; [|done]].
        -- rewrite <-(add_pools_nil L). apply (tk_owned _ _ _ _ Ht1).
        -- intros x _. by apply K11; intros ?%elem_of_nil.
      * apply wp_bind, (give_back_run t1 p (x :: l)); [|done|].
        -- replace (n - total (pbufs t1) (x :: l)) with rem by (change (pbufs t1) with (pbufs t); lia). done.
        -- intros t' Ht'. apply wp_ret. by apply Hnull.
    + intros m q Hq Hq0 Hqs Hq4 Hown. assert (Hqn : q ≠ NULL) by by apply pos_nonnull. rewrite (proj2 (Z.eqb_neq q NULL) Hqn).
      pose proof pool_room_ok as Hroom. unfold SIZEOF_STRUCT_PBUF in Hroom. change PBUF_POOL_BUFSIZE_ALIGNED with 1536 in Hroom.
      destruct (data_start q off) as (D1 & D2 & D3); [done|done|done|lia|]. destruct (pool_room_eq off Hoff) as [R1 R2].
      replace (u16 (pool_room off)) with (pool_room off) by (symmetry; apply Z.mod_small; lia). set (ql := Z.min rem (pool_room off)).
      apply wp_bind, wp_upd_pb; [done|]. set (b := MkPbuf _ _ _ _ _ _ _ _). apply wp_bind, wp_pb; [done|].
      cbn [pbufs with_pbufs]. rewrite fn_lookup_insert. apply wp_bind, wp_assert.
      { apply Z.eqb_eq. unfold b. cbn [payload]. rewrite D1. unfold SIZEOF_STRUCT_PBUF, MEM_ALIGNMENT. dlia. }
      apply wp_bind, wp_assert; [apply Z.ltb_lt; lia|].
      assert (Eb : tot_len b = rem ∧ len b = ql) by (split; apply Z.mod_small; lia). destruct Eb as [Eb1 Eb2].
      assert (Hnext : taken (with_pbufs (link_last l q (<[q := b]> (pbufs t))) (with_pools m t)) (match l with [] => q | _ => p end) (l ++ [q]) (rem - ql)).
      { rewrite <-Eb2. apply (taken_more t p l rem m q b); try done; try lia.
        - apply Hown; [done|]. unfold data_in. rewrite Eb2. unfold b. cbn [payload]. rewrite D1. unfold SIZEOF_STRUCT_PBUF. lia.
        - intros ->. destruct Hcase as [(_ & _ & -> & _)|(? & _)]; [|done]. unfold b. cbn [payload]. rewrite D1. lia. }
      apply wp_bind. apply (wp_mono _ (λ _ t1, t1 = with_pbufs (link_last l q (<[q := b]> (pbufs t))) (with_pools m t))).
      { rewrite Hp. destruct Hcase as [(-> & _)|(Hl & Hz & _)]; [by apply wp_ret|].
        destruct l as [|x l]; [done|]. apply wp_upd_pb; [|unfold link_last; by rewrite Hz].
        apply (links_nonnull _ _ _ _ K3). apply last_Some in Hz as [l0 ->]. set_solver. }
      intros [] t1 ->. rewrite Hp. replace (if match l with [] => true | _ => false end then q else p) with (match l with [] => q | _ => p end) by (by destruct l).
      replace (u16 (rem - ql)) with (rem - ql) by (symmetry; apply Z.mod_small; lia). destruct (Z.ltb_spec 0 (rem - ql)) as [Hlt|Hge]; apply wp_ret.
      * exists (l ++ [q], rem - ql). split; [|lia]. split; [done|]. split; [done|]. right. rewrite last_snoc.
        split; [by destruct l|]. split; [done|]. split; [done|lia].
      * replace (rem - ql) with 0 in Hnext by lia. destruct (taken_done _ _ _ Hnext) as [F1 F2]; [by destruct l| |].
        { destruct Hcase as [(-> & _)|(_ & _ & _ & ?)]; [by left|right]. pose proof (total_nonneg _ _ K6). lia. }
        by apply (Hsome _ _ _ _ F1 F2).
Qed.
End allocation.
