(* ===== verification/LwipPbufClient.v ===== *)
(** * LwipPbufClient: using packet buffers by reference

    The client of the packet buffers holds references to some of them.  What it
    may do is allocate, take another reference, release one, append one packet
    to another, and take packets apart, shorten and copy them.  Under every
    sequence of these the reference counts are exact, so that a buffer the
    client can reach is in use, and when nothing is held nothing is in use. *)

From Stdlib Require Import ZArith Lia.
From stdpp Require Import base numbers list option functions gmap sets fin_sets.
From S2P Require Import Prelude LwipBase LwipPbuf LwipPbufData LwipPbufOwn LwipPbufAlloc.
Open Scope Z_scope.

(** ** Chains that end *)

Definition ends (N : Z → Z) (A : gset Z) : Prop := ∀ x, x ∈ A → ∃ l, chain N x l.

Lemma chain_next N a l1 x y l2 e : lseg N a (l1 ++ x :: y :: l2) e → N x = y.
Proof. intros (b & _ & -> & _ & -> & _)%lseg_app. done. Qed.
Lemma chain_nodup N p l : chain N p l → NoDup l.
Proof.
  intros Hl. apply (links_nodup (λ x, MkPbuf (N x) 0 0 0 0 0 0 0) p). exact Hl.
Qed.
(** The elements of a chain have chains of their own. *)
Lemma chain_suffix N p l1 x l2 : chain N p (l1 ++ x :: l2) → chain N x (x :: l2).
Proof. intros (y & _ & Hl)%lseg_app. pose proof Hl as [-> _]. exact Hl. Qed.

Lemma ends_sub N N' A A' : ends N A → A' ⊆ A → (∀ x, x ∈ A' → N x = NULL ∨ N x ∈ A') → (∀ x, x ∈ A' → N' x = N x) → ends N' A'.
Proof.
  intros He Hsub Hcl Heq x Hx. destruct (He x (Hsub x Hx)) as [l Hl]. exists l.
  assert (Hin : ∀ l y, chain N y l → y = NULL ∨ y ∈ A' → ∀ z, z ∈ l → z ∈ A').
  { clear x l Hx Hl. intros l. induction l as [|w l IH]; intros y Hl Hy z; [by intros ?%elem_of_nil|].
    destruct Hl as (-> & Hw & Hl). destruct Hy as [?|Hy]; [done|]. intros [->|Hz]%elem_of_cons; [done|].
    by apply (IH (N w) Hl (Hcl w Hy)). }
  eapply lseg_ext; [|exact Hl]. intros z Hz. apply Heq. by apply (Hin l x Hl (or_intror Hx)).
Qed.
Lemma ends_link N N' A t l2 z : ends N A → chain N t l2 → z ∉ l2 → N z = NULL → (∀ y, y ≠ z → N' y = N y) → N' z = t → ends N' A.
Proof.
  intros He Ht Hz Nz Hy Nz' x Hx. destruct (He x Hx) as [l Hl]. destruct (decide (z ∈ l)) as [Hzl|Hzl].
  - apply list_elem_of_split in Hzl as (l1 & l3 & ->). pose proof (chain_nodup _ _ _ Hl) as (_ & Hd & _)%NoDup_app.
    apply lseg_app in Hl as (y & Hl1 & -> & Hz0 & Hl3). rewrite Nz in Hl3. destruct l3 as [|w l3]; [|destruct Hl3 as (E & Hw & _); congruence].
    exists (l1 ++ z :: l2). apply lseg_app. exists z. split.
    + eapply lseg_ext; [|exact Hl1]. intros y Hyl. apply Hy. intros ->. by apply (Hd z Hyl), list_elem_of_here.
    + cbn [lseg]. rewrite Nz'. split; [done|]. split; [done|]. eapply lseg_ext; [|exact Ht]. intros y Hyl. apply Hy. by intros ->.
  - exists l. eapply lseg_ext; [|exact Hl]. intros y Hyl. apply Hy. by intros ->.
Qed.
Lemma ends_unlink N N' A z : ends N A → (∀ y, y ≠ z → N' y = N y) → N' z = NULL → ends N' A.
Proof.
  intros He Hy Nz' x Hx. destruct (He x Hx) as [l Hl]. destruct (decide (z ∈ l)) as [Hzl|Hzl].
  - apply list_elem_of_split in Hzl as (l1 & l3 & ->). pose proof (chain_nodup _ _ _ Hl) as (_ & Hd & _)%NoDup_app.
    apply lseg_app in Hl as (y & Hl1 & -> & Hz0 & Hl3). exists (l1 ++ [z]). apply lseg_app. exists z. split.
    + eapply lseg_ext; [|exact Hl1]. intros y Hyl. apply Hy. intros ->. by apply (Hd z Hyl), list_elem_of_here.
    + cbn [lseg]. by rewrite Nz'.
  - exists l. eapply lseg_ext; [|exact Hl]. intros y Hyl. apply Hy. by intros ->.
Qed.

(** Where every reference is a link, every buffer has one before it, which is
    impossible for finitely many buffers on chains that end. *)
Lemma nothing_held r A N : counted r A N [] → ends N A → A = ∅.
Proof.
  intros [C1 C2 C3 _ C5] He. destruct (decide (A = ∅)) as [?|Hne]; [done|]. exfalso. apply set_choose_L in Hne as [x Hx].
  assert (Hlong : ∀ n : nat, ∃ y l, y ∈ A ∧ chain N y l ∧ (n ≤ length l)%nat).
  { intros n. induction n as [|n (y & l & Hy & Hl & Hlen)]; [destruct (He x Hx) as [l Hl]; exists x, l; split_and!; [done..|lia]|].
    destruct (proj1 (preds_in N A y)) as (z & Hz & Ez).
    { pose proof (C1 y Hy) as E. pose proof (C2 y Hy). simpl in E. lia. }
    exists z, (z :: l). split; [done|]. split; [|simpl; lia]. split; [done|]. split; [by intros ->|]. by rewrite Ez. }
  destruct (Hlong (S (size A))) as (y & l & Hy & Hl & Hlen). assert (Hsub : list_to_set l ⊆ A).
  { intros z. rewrite elem_of_list_to_set. apply (counted_chain r A N [] y l); [by split; try done; intros ? ?%elem_of_nil|done|by right]. }
  apply subseteq_size in Hsub. rewrite size_list_to_set in Hsub by (by eapply chain_nodup). lia.
Qed.

(** A new chain, held by its head. *)
Lemma counted_new_chain r r' A N N' hs p l : counted r A N hs → chain N' p l → l ≠ [] → (∀ x, x ∈ l → x ∉ A) →
  (∀ x, x ∈ l → r' x = 1) → (∀ y, y ∈ A → r' y = r y ∧ N' y = N y) → counted r' (list_to_set l ∪ A) N' (p :: hs).
Proof.
  intros Hc. revert p. induction l as [|x l IH]; intros p Hl Hne Hnew Hr Hold; [done|].
  pose proof (chain_nodup _ _ _ Hl) as [Hxl _]%NoDup_cons. destruct Hl as (-> & Hx0 & Hl).
  assert (HxA : x ∉ A) by apply Hnew, list_elem_of_here. assert (Hrx : r' x = 1) by apply Hr, list_elem_of_here.
  destruct l as [|y l].
  - replace (list_to_set [x] ∪ A) with ({[x]} ∪ A) by set_solver. by apply (counted_new r r' A N N').
  - pose proof Hl as (Ey & Hy0 & _).
    assert (Hc1 : counted r' (list_to_set (y :: l) ∪ A) N' (y :: hs)).
    { rewrite Ey in Hl. apply IH; [done|done|intros z Hz; by apply Hnew, list_elem_of_further|intros z Hz; by apply Hr, list_elem_of_further|done]. }
    assert (Hx1 : x ∉ list_to_set (y :: l) ∪ A) by (rewrite elem_of_union, elem_of_list_to_set; tauto).
    set (N1 := <[x := NULL]> N').
    assert (HN1 : ∀ z, z ≠ x → N1 z = N' z) by (intros z Hz; unfold N1; by rewrite fn_lookup_insert_ne).
    assert (HN1x : N1 x = NULL) by (unfold N1; by rewrite fn_lookup_insert).
    assert (Hc2 : counted r' ({[x]} ∪ (list_to_set (y :: l) ∪ A)) N1 (x :: y :: hs)).
    { apply (counted_new r' r' _ N' N1); [done|done|done| |done|done]. intros z Hz. split; [done|]. apply HN1. by intros ->. }
    replace (list_to_set (x :: y :: l) ∪ A) with ({[x]} ∪ (list_to_set (y :: l) ∪ A)) by set_solver.
    apply (counted_move r' _ N1 N' (x :: hs) y x); [|set_solver|done| |done].
    + eapply counted_perm; [|exact Hc2]. intros z. simpl. lia.
    + intros z _ Hz. by rewrite HN1.
Qed.

(** ** Packets put together and cut *)

Lemma freed_ext r r' l : (∀ x, r' x = r x) → freed r' l = freed r l ∧ survivor r' l = survivor r l.
Proof. intros Hx. induction l as [|x l [IH1 IH2]]; simpl; [done|]. rewrite Hx. by destruct (_ =? _); rewrite ?IH1, ?IH2. Qed.
Lemma freed_in r l x : x ∈ freed r l → x ∈ l.
Proof. induction l as [|y l IH]; simpl; [done|]. destruct (_ =? _); [|by intros ?%elem_of_nil]. rewrite !elem_of_cons. tauto. Qed.
Lemma survivor_in r l x : survivor r l = Some x → x ∈ l.
Proof. induction l as [|y l IH]; simpl; [done|]. rewrite elem_of_cons. destruct (_ =? _); [tauto|]. intros [= ->]. by left. Qed.
Lemma joined_next m m' t l1 l2 : links m (head_of l1) l1 → l1 ≠ [] → links m t l2 → l2 ≠ [] → joined m m' l1 l2 →
  ∃ z, z ∈ l1 ∧ next (m z) = NULL ∧ next (m' z) = t ∧ ∀ y, y ≠ z → next (m' y) = next (m y).
Proof.
  intros Hl1 Hne1 Hl2 Hne2 [J1 J2 J3]. destruct (exists_last Hne1) as (l0 & z & ->). exists z.
  split; [set_solver|]. split; [|split].
  - unfold links, chain in Hl1. apply lseg_app in Hl1 as (y & _ & -> & _ & E). exact E.
  - destruct l2 as [|t' l2]; [done|]. pose proof Hl2 as (-> & _). rewrite <-app_assoc in J3. cbn [app] in J3.
    apply (chain_next _ _ _ _ _ _ _ J3).
  - intros y Hy. destruct (decide (y ∈ l0)) as [Hin|Hin]; [|rewrite J1; [done|set_solver]].
    apply list_elem_of_split in Hin as (la & lb & ->). rewrite <-!app_assoc in *. cbn [app] in *.
    destruct lb as [|w lb]; cbn [app] in *.
    + pose proof (chain_next _ _ _ _ _ _ _ Hl1) as E1. pose proof (chain_next _ _ _ _ _ _ _ J3) as E2. congruence.
    + pose proof (chain_next _ _ _ _ _ _ _ Hl1) as E1. pose proof (chain_next _ _ _ _ _ _ _ J3) as E2. congruence.
Qed.

Lemma totals_open m l1 l2 : totals m (l1 ++ l2) → open_totals m l1 (total m l2).
Proof.
  induction l1 as [|x l1 IH]; simpl; [done|]. intros [K1 K2]. split; [|by apply IH]. rewrite total_app in K1. lia.
Qed.
Lemma open_less m m' l T d : (∀ a, a ∈ l → len (m' a) = len (m a) ∧ tot_len (m' a) = tot_len (m a) - d) → open_totals m l T → open_totals m' l (T - d).
Proof.
  assert (Et : ∀ l, (∀ a, a ∈ l → len (m' a) = len (m a) ∧ tot_len (m' a) = tot_len (m a) - d) → total m' l = total m l).
  { clear l. intros l. induction l as [|x l IH]; intros Ha; simpl; [done|]. destruct (Ha x (list_elem_of_here _ _)) as [-> _].
    rewrite IH; [done|]. intros a Hl. by apply Ha, list_elem_of_further. }
  induction l as [|x l IH]; intros Ha; [done|]. intros [K1 K2]. split.
  - rewrite Et by done. destruct (Ha x (list_elem_of_here _ _)) as [_ ->]. lia.
  - apply IH; [|done]. intros a Hl. by apply Ha, list_elem_of_further.
Qed.
Lemma pkt_tot_bounds m p l1 r a : pkt m p (l1 ++ r) → a ∈ l1 → total m r ≤ tot_len (m a) ≤ total m (l1 ++ r).
Proof.
  intros Hp Ha. apply list_elem_of_split in Ha as (la & lb & ->). rewrite <-app_assoc in *. cbn [app] in *.
  assert (Hr : ∀ b, b ∈ la ++ a :: lb ++ r → 0 ≤ len (m b)) by apply Hp.
  pose proof (pkt_suffix m p la (a :: lb ++ r) Hp) as Hs. rewrite (pkt_tot_len _ _ _ _ Hs). rewrite !total_app. simpl. rewrite total_app.
  pose proof (total_nonneg m la ltac:(intros; apply Hr; set_solver)). pose proof (total_nonneg m lb ltac:(intros; apply Hr; set_solver)).
  pose proof (Hr a ltac:(set_solver)). lia.
Qed.
(** A packet cut within buffer [q]. *)
Lemma pkt_cut m m' p l1 q l2 rem b : pkt m p (l1 ++ q :: l2) → 0 ≤ rem ≤ len (m q) →
  (∀ a, a ∈ l1 → len (m' a) = len (m a) ∧ payload (m' a) = payload (m a) ∧ next (m' a) = next (m a) ∧
     tot_len (m' a) = tot_len (m a) - (total m (q :: l2) - rem)) →
  len (m' q) = rem → tot_len (m' q) = rem → next (m' q) = NULL → payload (m' q) = payload (m q) →
  pkt m' p (l1 ++ [q]) ∧ total m' (l1 ++ [q]) = total m l1 + rem ∧
  content m' b (l1 ++ [q]) = take (Z.to_nat (total m l1 + rem)) (content m b (l1 ++ q :: l2)).
Proof.
  intros Hp Hrem Ha Hq1 Hq2 Hq3 Hq4. pose proof (links_nodup _ _ _ (pk_links _ _ _ Hp)) as (Hnd1 & Hd & _)%NoDup_app.
  destruct Hp as [P1 P2 P3 P4 P5]. set (D := total m (q :: l2) - rem) in *.
  assert (Hl1 : ∀ a, a ∈ l1 → 0 ≤ len (m a)) by (intros a Hin; apply P2; set_solver).
  assert (Hl2 : ∀ a, a ∈ q :: l2 → 0 ≤ len (m a)) by (intros a Hin; apply P2; set_solver).
  pose proof (total_nonneg m l1 Hl1) as Hn1. pose proof (total_nonneg m (q :: l2) Hl2) as Hn2.
  pose proof (total_nonneg m l2 (λ a Hin, Hl2 a (list_elem_of_further _ _ _ Hin))) as Hn3.
  assert (Ho : open_totals m' l1 rem).
  { replace rem with (total m (q :: l2) - D) by lia. apply (open_less m); [|by apply totals_open]. intros a Hin. by destruct (Ha a Hin) as (-> & _ & _ & ->). }
  assert (Et : total m' (l1 ++ [q]) = total m l1 + rem).
  { rewrite total_app. simpl. rewrite Hq1. enough (total m' l1 = total m l1) by lia. clear -Ha. induction l1 as [|x l1 IH]; simpl; [done|].
    destruct (Ha x (list_elem_of_here _ _)) as (-> & _). rewrite IH; [done|]. intros a Hl. by apply Ha, list_elem_of_further. }
  split; [|split; [done|]].
  - split.
    + unfold links, chain in *. apply lseg_app in P1 as (y & Hy1 & Hy2). destruct Hy2 as (-> & Hq0 & _). apply lseg_app. exists q. split.
      * eapply lseg_ext; [|exact Hy1]. intros a Hin. by destruct (Ha a Hin) as (_ & _ & ? & _).
      * cbn [lseg]. done.
    + intros a [Hin| ->%list_elem_of_singleton]%elem_of_app; [|lia]. destruct (Ha a Hin) as (-> & _). by apply Hl1.
    + apply open_closed. replace 0 with (rem - len (m' q)) by lia. by apply open_snoc.
    + rewrite Et. rewrite total_app in P4. simpl in P4, Hn2. lia.
    + rewrite length_app in *. simpl in *. lia.
  - rewrite !content_app. pose proof (length_pkt_content m b l1 Hl1) as Elc.
    replace (Z.to_nat (total m l1 + rem)) with (length (content m b l1) + Z.to_nat rem)%nat by lia. rewrite take_app_add, (content_cons m'). f_equal.
    + apply content_frame. intros a Hin. by destruct (Ha a Hin) as (-> & -> & _).
    + change (content m' b []) with (@nil Z). rewrite app_nil_r, content_cons, take_app_le by (rewrite length_data; lia). unfold data. rewrite Hq1, Hq4.
      replace (Z.to_nat (len (m q))) with (Z.to_nat rem + Z.to_nat (len (m q) - rem))%nat by lia.
      rewrite mem_bytes_app, take_app_le by (rewrite length_mem_bytes; lia). by rewrite take_ge by (rewrite length_mem_bytes; lia).
Qed.

Section client.
Context {H M : Type} `{Heaps H} `{Pools M}.
Abbreviation P := (pstate H M).
Context `{!PbufMemory H M}.
Context (O : gmap Z Z).
Context (custom_free_function : Z → comp P unit).

Definition nexts (s : P) (x : Z) : Z := next (pbufs s x).
(** The buffers [L] are in use, and the client holds [hs]. *)
Record held (s : P) (L : livep) (hs : list Z) : Prop := Held {
  hd_owned : owned O s L;
  hd_counted : counted (refs (pbufs s)) (all L) (nexts s) hs;
  hd_ends : ends (nexts s) (all L)
}.

Lemma held_nothing s L : held s L [] → all L = ∅.
Proof. intros [_ K2 K3]. by eapply nothing_held. Qed.
Lemma held_perm s L hs hs' : (∀ x, hcount x hs' = hcount x hs) → held s L hs → held s L hs'.
Proof. intros Hh [K1 K2 K3]. split; [done| |done]. by eapply counted_perm. Qed.
(** Every buffer of a chain the client reaches is in use. *)
Lemma held_chain s L hs x l : held s L hs → x ∈ all L → links (pbufs s) x l → ∀ y, y ∈ l → y ∈ all L.
Proof. intros [_ K2 _] Hx Hl. apply (counted_chain _ _ _ _ _ _ K2 Hl). by right. Qed.
Lemma held_handle s L hs x : held s L hs → x ∈ hs → x ∈ all L.
Proof. intros [_ K2 _] Hx. by apply (ct_held _ _ _ _ K2). Qed.
Lemma held_ref s L hs x : held s L hs → x ∈ all L → 0 < ref (pbufs s x) < 256.
Proof. intros [_ K2 _] Hx. by apply (ct_pos _ _ _ _ K2). Qed.
Lemma held_nonnull s L hs x : held s L hs → x ∈ all L → x ≠ NULL.
Proof. intros [_ K2 _] Hx ->. by apply (ct_null _ _ _ _ K2). Qed.

(** What is held depends on the buffers in use only. *)
Lemma held_frame s s' L L' hs : held s L hs → owned O s' L' → all L' = all L →
  (∀ x, x ∈ all L → ref (pbufs s' x) = ref (pbufs s x) ∧ next (pbufs s' x) = next (pbufs s x)) → held s' L' hs.
Proof.
  intros [K1 K2 K3] Ho E Hx. split; [done|rewrite E..].
  - eapply counted_ext; [|exact K2]. exact Hx.
  - eapply ends_sub; [exact K3|done|by apply K2|]. intros x Hin. by apply Hx.
Qed.

(** ** Allocation *)

Lemma held_new s L n s' L' p l hs : held s L hs → fresh_packet O s L n s' L' p l → held s' L' (p :: hs).
Proof.
  intros [K1 K2 K3] [F1 F2 F3 F4 F5 _ _ F6 F7 _].
  assert (Hold : ∀ y, y ∈ all L → refs (pbufs s') y = refs (pbufs s) y ∧ nexts s' y = nexts s y).
  { intros y Hy. unfold refs, nexts. rewrite F7; [done|]. intros Hyl. by apply (F3 y Hyl). }
  assert (Hc : counted (refs (pbufs s')) (all L') (nexts s') (p :: hs)).
  { rewrite F2. apply (counted_new_chain (refs (pbufs s)) _ (all L) (nexts s)); try done. apply F4. }
  split; [done|done|]. rewrite F2. intros x [Hx|Hx]%elem_of_union.
  - apply elem_of_list_to_set in Hx. apply list_elem_of_split in Hx as (l1 & l2 & ->). exists (x :: l2).
    eapply chain_suffix. apply (pk_links _ _ _ F4).
  - assert (He : ends (nexts s') (all L)); [|by apply He]. eapply ends_sub; [exact K3|done|by apply K2|]. intros y Hy. by apply Hold.
Qed.
Lemma held_as_before s L s' hs : held s L hs → as_before O s L s' → held s' L hs.
Proof. intros Hh (Ho & Hp & _). eapply held_frame; [done|done|done|]. intros x Hx. by rewrite Hp. Qed.

Definition pbuf_type (type : Z) : Prop := type = PBUF_REF ∨ type = PBUF_ROM ∨ type = PBUF_POOL ∨ type = PBUF_RAM.
Lemma alloc_run s L layer n type (Q : Z → P → Prop) : owned O s L → 0 ≤ n < 65536 → 0 ≤ layer ≤ PBUF_TRANSPORT → pbuf_type type →
  (∀ s', (type = PBUF_RAM → heap_serves (heap s) (ram_size layer n) = false) → as_before O s L s' → Q NULL s') →
  (∀ s' L' p l, fresh_packet O s L n s' L' p l → (type = PBUF_POOL ∨ type = PBUF_RAM → own_memory s' L' layer p l) →
     (type = PBUF_RAM → l = [p] ∧ heap_serves (heap s) (ram_size layer n) = true) → Q p s') →
  wp (pbuf_alloc custom_free_function layer n type) Q s.
Proof.
  intros Ho Hn Hl Ht Hnull Hsome. unfold pbuf_alloc. unfold u16. rewrite Z.mod_small by (unfold PBUF_TRANSPORT in Hl; lia).
  destruct Ht as [-> |[-> |[-> | ->]]].
  - apply (alloc_reference_run O s L); [done|done|by left|intros s'; by apply Hnull|]. intros s' L' p Hf _. by apply (Hsome s' L' p [p]); [done|intros [?|?]|].
  - apply (alloc_reference_run O s L); [done|done|by right|intros s'; by apply Hnull|]. intros s' L' p Hf _. by apply (Hsome s' L' p [p]); [done|intros [?|?]|].
  - apply (alloc_pool_run O custom_free_function s L); [done|done|done|intros s'; by apply Hnull|]. intros s' L' p l Hf Ho'. by apply (Hsome s' L' p l).
  - apply (alloc_ram_run O s L); [done|done|done|intros s' Hno; by apply Hnull|]. intros s' L' p Hyes Hf Ho' _. by apply (Hsome s' L' p [p]).
Qed.

(** ** References *)

Lemma ref_run s L hs p (Q : unit → P → Prop) : held s L hs → p ∈ all L → ref (pbufs s p) < 255 →
  (∀ m, (∀ a, m a = if decide (a = p) then with_ref (ref (pbufs s p) + 1) (pbufs s p) else pbufs s a) → held (with_pbufs m s) L (p :: hs) → Q tt (with_pbufs m s)) →
  wp (pbuf_ref p) Q s.
Proof.
  intros Hh Hp Hr HQ. pose proof (held_nonnull _ _ _ _ Hh Hp) as Hp0. pose proof (held_ref _ _ _ _ Hh Hp) as Hrp.
  unfold pbuf_ref. rewrite (proj2 (Z.eqb_neq p NULL) Hp0). apply wp_bind, wp_upd_pb; [done|]. set (m := <[p := _]> _).
  assert (Em : ∀ a, m a = if decide (a = p) then with_ref (ref (pbufs s p) + 1) (pbufs s p) else pbufs s a).
  { intros a. unfold m. destruct (decide (a = p)) as [->|Ha]; [by rewrite fn_lookup_insert|by rewrite fn_lookup_insert_ne]. }
  assert (Er : ref (m p) = ref (pbufs s p) + 1) by (rewrite Em, decide_True by done; apply Z.mod_small; lia).
  apply wp_bind, wp_pb; [done|]. cbn [pbufs with_pbufs]. apply wp_assert; [apply Z.ltb_lt; lia|]. apply HQ; [done|].
  destruct Hh as [K1 K2 K3]. split.
  - apply owned_frame; [done|]. intros x _. rewrite Em. by destruct (decide (x = p)) as [->|].
  - apply (counted_ref (refs (pbufs s)) _ _ _ _ p); [|done|done| |done].
    + eapply counted_ext; [|exact K2]. intros x _. split; [done|]. unfold nexts. cbn [pbufs with_pbufs]. rewrite Em. by destruct (decide (x = p)) as [->|].
    + intros y _ Hy. unfold refs. cbn [pbufs with_pbufs]. by rewrite Em, decide_False.
  - eapply ends_sub; [exact K3|done|by apply K2|]. intros x _. unfold nexts. cbn [pbufs with_pbufs]. rewrite Em. by destruct (decide (x = p)) as [->|].
Qed.

(** Releasing the chain [p] stands for: what is known of a client that holds
    [p] beside [hs], though the link to [p] may still be in memory. *)
Record released (s : P) (L : livep) (l : list Z) (s' : P) (L' : livep) : Prop := Released {
  rl_in_use : all L' = all L ∖ list_to_set (freed (refs (pbufs s)) l);
  rl_others : ∀ a, a ∉ freed (refs (pbufs s)) l → survivor (refs (pbufs s)) l ≠ Some a → pbufs s' a = pbufs s a;
  rl_survivor : ∀ a, a ∉ freed (refs (pbufs s)) l → survivor (refs (pbufs s)) l = Some a → pbufs s' a = with_ref (ref (pbufs s a) - 1) (pbufs s a);
  rl_bytes : bytes s' = bytes s
}.
Lemma release_run s L N hs p l (Q : Z → P → Prop) : owned O s L → counted (refs (pbufs s)) (all L) N (p :: hs) → ends N (all L) →
  links (pbufs s) p l → chain N p l → l ≠ [] →
  (∀ s' L', released s L l s' L' → owned O s' L' → counted (refs (pbufs s')) (all L') N hs → ends N (all L') →
     Q (u8 (Z.of_nat (length (freed (refs (pbufs s)) l)))) s') →
  wp (pbuf_free custom_free_function p) Q s.
Proof.
  intros Ho Hc He Hl HlN Hne HQ. assert (HpA : p ∈ all L) by apply (ct_held _ _ _ _ Hc), list_elem_of_here.
  assert (Hin : ∀ x, x ∈ l → x ∈ all L) by (by apply (counted_chain _ _ _ _ _ _ Hc HlN (or_intror HpA))).
  apply (pbuf_free_run O custom_free_function s L l); try done.
  { intros x Hx. by apply (ct_pos _ _ _ _ Hc), Hin. }
  intros s' Ho' Hp Hb _. pose proof (free_counted _ _ _ _ _ _ Hc HlN Hne) as Hc'. cbv zeta in Hc'.
  set (fr := freed (refs (pbufs s)) l) in *. pose proof (all_removes fr L) as Hall.
  assert (Hout : ∀ x, x ∈ all (removes fr L) → x ∉ fr) by (intros x; rewrite Hall, elem_of_difference, elem_of_list_to_set; tauto).
  apply (HQ s' (removes fr L)); [| done | |].
  - split; [done| | |done].
    + intros a Ha Hs. rewrite Hp by done. by rewrite decide_False.
    + intros a Ha Hs. rewrite Hp by done. by rewrite decide_True.
  - rewrite <-Hall in Hc'. eapply counted_ext; [|exact Hc']. intros x Hx. split; [|done]. unfold refs at 1. rewrite Hp by by apply Hout.
    destruct (decide _); [|done]. cbn [ref with_ref]. apply Z.mod_small. unfold refs in *.
    assert (x ∈ all L) by (rewrite Hall in Hx; set_solver). pose proof (ct_pos _ _ _ _ Hc x ltac:(done)) as Hr. unfold refs in Hr. lia.
  - eapply ends_sub; [exact He| | |done].
    + rewrite Hall. set_solver.
    + rewrite <-Hall in Hc'. by apply Hc'.
Qed.
Lemma free_held s L p hs l (Q : Z → P → Prop) : held s L (p :: hs) → links (pbufs s) p l →
  (∀ s' L', held s' L' hs → released s L l s' L' → Q (u8 (Z.of_nat (length (freed (refs (pbufs s)) l)))) s') →
  wp (pbuf_free custom_free_function p) Q s.
Proof.
  intros Hh Hl HQ. pose proof Hh as [K1 K2 K3].
  assert (Hne : l ≠ []). { intros ->. apply (held_nonnull _ _ _ p Hh); [apply (ct_held _ _ _ _ K2), list_elem_of_here|done]. }
  apply (release_run s L (nexts s) hs p l); try done. intros s' L' Hr Ho Hc He. apply (HQ s' L'); [|done]. split; [done| |].
  - eapply counted_ext; [|exact Hc]. intros x Hx. split; [done|]. unfold nexts. destruct Hr as [R1 R2 R3 _].
    assert (Hxf : x ∉ freed (refs (pbufs s)) l) by (rewrite R1, elem_of_difference, elem_of_list_to_set in Hx; tauto).
    destruct (decide (survivor (refs (pbufs s)) l = Some x)) as [E|E]; [by rewrite (R3 x Hxf E)|by rewrite (R2 x Hxf E)].
  - eapply ends_sub; [exact He|done|by apply Hc|]. intros x Hx. unfold nexts. destruct Hr as [R1 R2 R3 _].
    assert (Hxf : x ∉ freed (refs (pbufs s)) l) by (rewrite R1, elem_of_difference, elem_of_list_to_set in Hx; tauto).
    destruct (decide (survivor (refs (pbufs s)) l = Some x)) as [E|E]; [by rewrite (R3 x Hxf E)|by rewrite (R2 x Hxf E)].
Qed.

(** ** Chains *)

(** Appending: the handle of the tail becomes the link of the head. *)
Lemma cat_held s L h t hs l1 l2 (Q : unit → P → Prop) : held s L (t :: hs) → h ∈ all L →
  pkt (pbufs s) h l1 → pkt (pbufs s) t l2 → NoDup (l1 ++ l2) → total (pbufs s) l1 + total (pbufs s) l2 < 65536 →
  (∀ m', joined (pbufs s) m' l1 l2 → held (with_pbufs m' s) L hs → Q tt (with_pbufs m' s)) → wp (pbuf_cat h t) Q s.
Proof.
  intros Hh Hin Hp1 Hp2 Hnd Hsum HQ. pose proof Hh as [K1 K2 K3].
  assert (Hne : ∀ p l, p ∈ all L → pkt (pbufs s) p l → l ≠ []).
  { intros p l Hp Hpk ->. apply (held_nonnull _ _ _ p Hh Hp). apply (pkt_head _ _ _ Hpk). }
  assert (Ht : t ∈ all L) by apply (held_handle _ _ _ _ Hh), list_elem_of_here.
  pose proof (Hne _ _ Hin Hp1) as Hne1. pose proof (Hne _ _ Ht Hp2) as Hne2.
  apply (cat_run s h t l1 l2); try done. intros m' Hj. apply HQ; [done|].
  destruct (joined_next (pbufs s) m' t l1 l2) as (z & Hz & E1 & E2 & E3); try done.
  { rewrite <-(pkt_head _ _ _ Hp1). apply Hp1. }
  { apply Hp2. }
  assert (HzA : z ∈ all L) by (apply (held_chain _ _ _ h l1 Hh Hin (pk_links _ _ _ Hp1)); done).
  assert (Hsame : ∀ a, ref (m' a) = ref (pbufs s a) ∧ type_internal (m' a) = type_internal (pbufs s a) ∧ flags (m' a) = flags (pbufs s a) ∧
      payload (m' a) = payload (pbufs s a) ∧ len (m' a) = len (pbufs s a)).
  { intros a. destruct Hj as [J1 J2 _]. destruct (decide (a ∈ l1)) as [Ha|Ha]; [rewrite (J2 a Ha)|rewrite (J1 a Ha)]; done. }
  split.
  - apply owned_frame; [done|]. intros x _. by apply Hsame.
  - apply (counted_move (refs (pbufs (with_pbufs m' s))) _ (nexts s) _ _ t z); [|done|done| |done].
    + eapply counted_ext; [|exact K2]. intros x _. split; [|done]. by apply Hsame.
    + intros y _ Hy. by apply E3.
  - eapply (ends_link _ _ _ t l2 z); [exact K3|apply Hp2| |done|done|done].
    intros Hz2. apply NoDup_app in Hnd as (_ & Hd & _). by apply (Hd z).
Qed.

(** [p] without what follows it. *)
Definition alone (m : Z → pbuf) (p : Z) : Z → pbuf := λ a, if decide (a = p) then with_tot_len (len (m p)) (with_next NULL (m p)) else m a.

Lemma released_ext s s1 L l s' L' : (∀ a, pbufs s1 a = pbufs s a) → bytes s1 = bytes s → released s1 L l s' L' → released s L l s' L'.
Proof.
  intros Ha Hb [R1 R2 R3 R4]. destruct (freed_ext (refs (pbufs s)) (refs (pbufs s1)) l) as [E1 E2]; [intros x; unfold refs; by rewrite Ha|].
  rewrite E1, E2 in *. split; [done| | |congruence]; intros a K1 K2; rewrite <-Ha; auto.
Qed.
(** What is not on the released chain is as before. *)
Lemma released_other s L l s' L' a : released s L l s' L' → a ∉ l → pbufs s' a = pbufs s a ∧ (a ∈ all L → a ∈ all L').
Proof.
  intros [R1 R2 R3 R4] Ha. assert (Hf : a ∉ freed (refs (pbufs s)) l) by (intros Hf; by apply Ha, (freed_in _ _ _ Hf)). split.
  - apply R2; [done|]. intros E. by apply Ha, (survivor_in _ _ _ E).
  - intros Hin. rewrite R1, elem_of_difference, elem_of_list_to_set. done.
Qed.

(** Cutting a packet behind its head. *)
Lemma held_cut s L p y l hs m1 : held s L hs → p ∈ all L → links (pbufs s) p (p :: y :: l) → (∀ a, next (m1 a) = next (alone (pbufs s) p a) ∧ ref (m1 a) = ref (pbufs s a)) →
  owned O (with_pbufs m1 s) L → held (with_pbufs m1 s) L (y :: hs).
Proof.
  intros [K1 K2 K3] Hp Hl Hm Ho. apply links_cons in Hl as (_ & Hp0 & Hl). apply links_cons in Hl as (Ey & Hy0 & Hl).
  assert (Hn : ∀ z, z ≠ p → next (m1 z) = next (pbufs s z)) by (intros z Hz; rewrite (proj1 (Hm z)); unfold alone; by rewrite decide_False).
  assert (Hnp : next (m1 p) = NULL) by (rewrite (proj1 (Hm p)); unfold alone; by rewrite decide_True).
  split; [done| |].
  - apply (counted_unlink (refs (pbufs (with_pbufs m1 s))) _ (nexts s) _ _ y p); try done.
    + eapply counted_ext; [|exact K2]. intros x _. split; [|done]. apply Hm.
    + intros z _ Hz. by apply Hn.
  - by eapply (ends_unlink (nexts s) _ _ p).
Qed.

(** Taking off the head of a packet: the rest is released; it is answered when
    somebody else refers to it. *)
Lemma dechain_held s L p l hs (Q : Z → P → Prop) : held s L hs → p ∈ all L → pkt (pbufs s) p (p :: l) →
  (∀ s' L', released (with_pbufs (alone (pbufs s) p) s) L l s' L' → held s' L' hs →
     Q (if (match l with [] => true | _ => false end) || (0 <? u8 (Z.of_nat (length (freed (refs (pbufs s)) l)))) then NULL else head_of l) s') →
  wp (pbuf_dechain custom_free_function p) Q s.
Proof.
  intros Hh Hp Hk HQ. pose proof (pkt_nonnull _ _ _ _ Hk) as Hp0. pose proof (pkt_len _ _ _ p Hk (list_elem_of_here _ _)) as Hlen.
  pose proof (pkt_total _ _ _ Hk) as Htot. pose proof (pkt_tot_len _ _ _ _ Hk) as Etl. pose proof (pkt_tail _ _ _ _ Hk) as Hkt.
  pose proof (links_nodup _ _ _ (pk_links _ _ _ Hk)) as [Hpl Hnd]%NoDup_cons.
  unfold pbuf_dechain. apply wp_bind, wp_pb; [done|]. rewrite (head_null _ _ _ Hkt). destruct l as [|y l]; cbn [negb].
  - apply wp_bind, wp_ret. apply wp_bind, wp_pb; [done|]. apply wp_bind, wp_assert; [apply Z.eqb_eq; simpl in Etl; lia|]. apply wp_ret.
    apply (HQ s L); [|done]. assert (Ea : ∀ a, alone (pbufs s) p a = pbufs s a).
    { intros a. unfold alone. destruct (decide (a = p)) as [->|]; [|done]. pose proof (pkt_head _ _ _ Hkt) as En. simpl in Etl. unfold with_tot_len, with_next.
      simpl. destruct (pbufs s p) as [n0 ? t0 l0 ? ? ? ?]. simpl in *. rewrite En. f_equal. unfold u16. rewrite Z.mod_small by lia. lia. }
    split; cbn [pbufs with_pbufs bytes freed survivor]; [set_solver| |done|done]. intros a _ _. symmetry. apply Ea.
  - pose proof (pkt_head _ _ _ Hkt) as En. cbn [head_of] in En. pose proof (pkt_nonnull _ _ _ _ Hkt) as Hy0. rewrite En in Hkt |- *.
    assert (Ey : tot_len (pbufs s y) = tot_len (pbufs s p) - len (pbufs s p)) by (rewrite (pkt_tot_len _ _ _ _ Hkt), Etl; simpl; lia).
    apply wp_bind, wp_bind, wp_pb; [done|]. apply wp_bind, wp_assert; [by apply Z.eqb_eq|].
    apply wp_bind, wp_upd_pb; [done|]. apply wp_bind, wp_upd_pb; [done|]. apply wp_bind, wp_upd_pb; [done|].
    cbn [pbufs with_pbufs]. set (m1 := <[p := _]> _).
    assert (Hyp : y ≠ p) by (intros ->; apply Hpl, list_elem_of_here).
    assert (Em : ∀ a, m1 a = alone (pbufs s) p a).
    { intros a. unfold m1, alone. destruct (decide (a = p)) as [->|Ha].
      - rewrite !fn_lookup_insert, fn_lookup_insert_ne by done. done.
      - rewrite !(fn_lookup_insert_ne _ p) by done. destruct (decide (a = y)) as [->|Hay]; [|by rewrite fn_lookup_insert_ne].
        rewrite fn_lookup_insert. unfold with_tot_len. rewrite <-Ey. pose proof (pkt_total _ _ _ Hkt) as Ht2.
        pose proof (pkt_tot_len _ _ _ _ Hkt) as E3. destruct (pbufs s y) as [? ? t0 ? ? ? ? ?] eqn:Eby. cbn [tot_len] in *.
        unfold u16. rewrite Z.mod_small by lia. done. }
    change (with_pbufs m1 _) with (with_pbufs m1 s).
    assert (Hh1 : held (with_pbufs m1 s) L (y :: hs)).
    { apply (held_cut s L p y l); [done|done|by apply Hk| |].
      - intros a. rewrite Em. split; [done|]. unfold alone. by destruct (decide (a = p)) as [->|].
      - apply owned_frame; [by apply Hh|]. intros x _. rewrite Em. unfold alone. by destruct (decide (x = p)) as [->|]. }
    assert (Hl1 : links (pbufs (with_pbufs m1 s)) y (y :: l)).
    { pose proof (pk_links _ _ _ Hkt) as Hl. eapply lseg_ext; [|exact Hl]. intros x Hx. cbn [pbufs with_pbufs]. rewrite Em. unfold alone.
      rewrite decide_False; [done|]. by intros ->. }
    apply (free_held _ L y hs (y :: l)); [done|done|]. intros s' L' Hh' Hr. destruct (released_other _ _ _ _ _ p Hr Hpl) as [Ep _].
    apply wp_bind, wp_pb; [done|]. rewrite Ep. cbn [pbufs with_pbufs]. rewrite Em. unfold alone at 1 2. rewrite decide_True by done.
    apply wp_bind, wp_assert; [apply Z.eqb_eq; cbn [tot_len with_tot_len len with_next]; apply Z.mod_small; lia|]. apply wp_ret.
    assert (Ef : freed (refs m1) (y :: l) = freed (refs (pbufs s)) (y :: l)).
    { apply freed_ext. intros x. unfold refs. rewrite Em. unfold alone. by destruct (decide (x = p)) as [->|]. }
    rewrite Ef. apply (HQ s' L'); [|done]. eapply released_ext; [| |exact Hr]; [|done]. intros a. by rewrite Em.
Qed.

(** ** Shortening *)

Lemma owned_room s L x : owned O s L → x ∈ dom (lv_heap L) →
  0 ≤ len (pbufs s x) → 0 ≤ payload (pbufs s x) - x + len (pbufs s x) < 2 ^ 32 ∧ 24 ≤ payload (pbufs s x) - x.
Proof.
  intros Ho [k Hk]%elem_of_dom Hlen. destruct (ow_kheap _ _ _ Ho x k Hk) as [_ [D1 D2]]. unfold SIZEOF_STRUCT_PBUF in D1.
  destruct (heap_addr _ _ x k (ow_heap _ _ _ Ho)) as (A1 & A2 & _); [by apply lookup_union_Some_l|].
  pose proof (heap_range (H := H)). lia.
Qed.

(** The last buffer kept is cut to [rem] bytes, and its block with it. *)
Lemma trim_last_run s L q rem (Q : Z → P → Prop) : owned O s L → q ∈ all L → 0 ≤ rem ≤ len (pbufs s q) →
  (q ∈ dom (lv_heap L) → ∀ n, heap_may_trim (heap s) q n) →
  (∀ h L', all L' = all L → (∀ m, m q = with_tot_len rem (with_len rem (pbufs s q)) → (∀ a, a ≠ q → m a = pbufs s a) → owned O (with_pbufs m (with_heap h s)) L') →
     Q q (with_heap h s)) → 0 ≤ rem < 65536 →
  let b := pbufs s q in
  wp (if pbuf_match_allocsrc b PBUF_TYPE_ALLOC_SRC_MASK_STD_HEAP && negb (rem =? len b) && (Z.land (flags b) PBUF_FLAG_IS_CUSTOM =? 0) then
        q' ← in_heap (mem_trim q (u32 (payload b - q + rem)));
        LWIP_ASSERT (negb (q' =? NULL));;
        mret q'
      else mret q) Q s.
Proof.
  intros Ho Hq Hrem Hmay HQ Hr16 b. pose proof Ho as [K1 K2 K3 K4 K5 K6 K7]. pose proof (owned_pos _ _ _ _ Ho Hq) as Hq0.
  assert (Hcut : ∀ k, data_in q k (pbufs s q) → data_in q k (with_tot_len rem (with_len rem (pbufs s q)))).
  { unfold data_in. intros k [D1 D2]. cbn [payload len with_tot_len with_len]. unfold u16. rewrite Z.mod_small by lia. lia. }
  assert (Hplain : Q q (with_heap (heap s) s)).
  { apply (HQ _ L); [done|]. intros m Hm Ha. split; try done; cbn [pbufs with_pbufs].
    - intros x Hx. destruct (decide (x = q)) as [->|Hxq]; [|rewrite Ha by done; by apply K5]. rewrite Hm. destruct (K5 q Hx). split; [done|by apply Hcut].
    - intros x Hx. destruct (decide (x = q)) as [->|Hxq]; [|rewrite Ha by done; by apply K6]. rewrite Hm. by apply K6.
    - intros x n Hx. destruct (decide (x = q)) as [->|Hxq]; [|rewrite Ha by done; by apply K7]. rewrite Hm. destruct (K7 q n Hx). split; [done|by apply Hcut]. }
  assert (Es : with_heap (heap s) s = s) by by destruct s. rewrite Es in Hplain.
  destruct (pbuf_match_allocsrc b PBUF_TYPE_ALLOC_SRC_MASK_STD_HEAP) eqn:E1; cbn [andb]; [|by apply wp_ret].
  destruct (negb (rem =? len b)); cbn [andb]; [|by apply wp_ret]. apply Z.eqb_eq in E1. change (Z.land _ PBUF_TYPE_ALLOC_SRC_MASK) with 0 in E1.
  assert (Hx1 : q ∉ lv_pool L) by (intros Hx; destruct (K5 q Hx) as [[E _] _]; unfold b in E1; rewrite E1 in E; done).
  assert (Hx2 : q ∉ lv_ref L) by (intros Hx; destruct (K6 q Hx) as [E _]; unfold b in E1; rewrite E1 in E; done).
  assert (Hqh : q ∈ dom (lv_heap L)) by (unfold all in Hq; set_solver). pose proof Hqh as [k Hk]%elem_of_dom.
  destruct (K7 q k Hk) as [[_ E2] Hd]. change (Z.land (flags b) PBUF_FLAG_IS_CUSTOM = 0) in E2. rewrite E2. cbn [Z.eqb]. destruct (owned_room s L q Ho Hqh ltac:(lia)) as [R1 R2].
  rewrite u32_small by (unfold b; lia). apply wp_bind, wp_zoom.
  eapply wp_mono; [apply (mem_trim_ok _ (lv_heap L ∪ O) q k _ K3); [by apply lookup_union_Some_l| |by apply Hmay]|].
  { destruct Hd as [D1 D2]. unfold b. unfold SIZEOF_STRUCT_PBUF in D1. lia. }
  intros q' h (-> & k' & Hk' & Hl). apply wp_bind, wp_assert; [apply negb_true_iff, Z.eqb_neq; unfold NULL; lia|]. apply wp_ret.
  apply (HQ h (add_heap q k' L)).
  { unfold all. cbn [add_heap lv_pool lv_ref lv_heap]. rewrite dom_insert_L. set_solver. }
  intros m Hm Ha. split; try done; cbn [pbufs heap with_pbufs with_heap add_heap lv_pool lv_ref lv_heap].
  - by rewrite <-insert_union_l.
  - apply map_disjoint_insert_l_2; [|done]. by eapply map_disjoint_Some_l.
  - intros x Hx. rewrite Ha by (intros ->; done). by apply K5.
  - intros x Hx. rewrite Ha by (intros ->; done). by apply K6.
  - intros x n [[<- <-]|[Hne Hx]]%lookup_insert_Some.
    + rewrite Hm. destruct (K7 q k Hk) as [Hkd _]. split; [done|]. destruct Hd as [D1 D2]. unfold data_in.
      cbn [payload len with_tot_len with_len]. unfold u16. rewrite Z.mod_small by lia. split; [done|]. unfold b in Hk'. lia.
    + rewrite Ha by done. by apply K7.
Qed.

(** What followed the last buffer kept is released before it is unlinked. *)
Lemma unlink_rest_run s L hs q l (Q : unit → P → Prop) : held s L hs → q ∈ all L → links (pbufs s) q (q :: l) →
  (∀ s1 s' L', released s L l s1 L' → held s' L' hs → bytes s' = bytes s1 →
     (∀ a, pbufs s' a = if decide (a = q) then with_next NULL (pbufs s q) else pbufs s1 a) → Q tt s') →
  wp (b ← pb q;
      (if negb (next b =? NULL) then _ ← pbuf_free custom_free_function (next b); mret tt else mret tt);;
      upd_pb q (with_next NULL)) Q s.
Proof.
  intros Hh Hq Hl HQ. pose proof Hh as [K1 K2 K3]. pose proof (links_nodup _ _ _ Hl) as [Hql _]%NoDup_cons.
  pose proof (links_cons _ _ _ _ Hl) as (_ & Hq0 & Hl').
  set (N := <[q := NULL]> (nexts s)).
  assert (EN : ∀ a, a ≠ q → N a = nexts s a) by (intros a Ha; unfold N; by rewrite fn_lookup_insert_ne).
  assert (ENq : N q = NULL) by (unfold N; by rewrite fn_lookup_insert).
  assert (Hlast : ∀ s1 L', released s L l s1 L' → owned O s1 L' → counted (refs (pbufs s1)) (all L') N hs → ends N (all L') →
      wp (upd_pb q (with_next NULL)) Q s1).
  { intros s1 L' Hr Ho Hc He. destruct (released_other _ _ _ _ _ q Hr Hql) as [Eq _]. apply wp_upd_pb; [done|].
    apply (HQ s1 _ L'); [done| |done|].
    - assert (HN : ∀ x, x ∈ all L' → refs (<[q := with_next NULL (pbufs s1 q)]> (pbufs s1)) x = refs (pbufs s1) x ∧ next (<[q := with_next NULL (pbufs s1 q)]> (pbufs s1) x) = N x).
      { intros x Hx. unfold refs. destruct (decide (x = q)) as [->|Hxq]; [rewrite fn_lookup_insert; cbn [ref next with_next]; done|].
        rewrite fn_lookup_insert_ne, EN by done. split; [done|]. unfold nexts. destruct Hr as [R1 R2 R3 _].
        assert (Hxf : x ∉ freed (refs (pbufs s)) l) by (rewrite R1, elem_of_difference, elem_of_list_to_set in Hx; tauto).
        destruct (decide (survivor (refs (pbufs s)) l = Some x)) as [E|E]; [by rewrite (R3 x Hxf E)|by rewrite (R2 x Hxf E)]. }
      split.
      + apply owned_frame; [done|]. intros x _. destruct (decide (x = q)) as [->|]; [by rewrite fn_lookup_insert|by rewrite fn_lookup_insert_ne].
      + eapply counted_ext; [|exact Hc]. exact HN.
      + eapply ends_sub; [exact He|done|by apply Hc|]. intros x Hx. by apply HN.
    - intros a. cbn [pbufs with_pbufs]. destruct (decide (a = q)) as [->|]; [by rewrite fn_lookup_insert, Eq|by rewrite fn_lookup_insert_ne]. }
  apply wp_bind, wp_pb; [done|]. destruct l as [|y l].
  - unfold links, chain in Hl'. cbn [lseg] in Hl'. rewrite Hl'. change (NULL =? NULL) with true. cbn [negb]. apply wp_bind, wp_ret.
    apply (Hlast s L); [|done| |].
    + split; [|done|done|done]. cbn [freed]. set_solver.
    + eapply counted_ext; [|exact K2]. intros x _. split; [done|]. destruct (decide (x = q)) as [->|]; [unfold nexts; congruence|by apply EN].
    + eapply ends_unlink; [exact K3|exact EN|done].
  - apply links_cons in Hl' as (Ey & Hy0 & Hl1). rewrite Ey. rewrite (proj2 (Z.eqb_neq y NULL) Hy0). cbn [negb].
    assert (HlN : chain N y (y :: l)).
    { unfold links in Hl. apply (lseg_ext (nexts s)); [|split; [done|done]]. intros x Hx. apply EN. intros ->. done. }
    apply wp_bind, wp_bind, (release_run s L N hs y (y :: l)).
    + done.
    + apply (counted_unlink (refs (pbufs s)) _ (nexts s) N hs y q); [done|done|done|done| |done]. intros a _ Ha. by apply EN.
    + eapply ends_unlink; [exact K3|exact EN|done].
    + split; [done|done].
    + done.
    + done.
    + intros s1 L' Hr Ho Hc He. apply wp_ret. by apply (Hlast s1 L').
Qed.

(** The buffer a new length falls into; those before it lose [d] of their totals. *)
Definition lowered (m m' : Z → pbuf) (l : list Z) (d : Z) : Prop :=
  ∀ a, m' a = if decide (a ∈ l) then with_tot_len (tot_len (m a) - d) (m a) else m a.
Lemma realloc_walk_run s p l new_len (Q : Z * Z → P → Prop) : pkt (pbufs s) p l → 0 ≤ new_len < total (pbufs s) l →
  (∀ l1 q l2 rem m, l = l1 ++ q :: l2 → 0 ≤ rem ≤ len (pbufs s q) → new_len = total (pbufs s) l1 + rem → lowered (pbufs s) m l1 (total (pbufs s) l - new_len) →
     Q (q, rem) (with_pbufs m s)) →
  wp (loop (λ '(q, rem_len),
      b ← pb q;
      if len b <? rem_len then
        upd_pb q (λ b, with_tot_len (tot_len b - u16 (total (pbufs s) l - new_len)) b);;
        LWIP_ASSERT (negb (next b =? NULL));;
        mret (inl (next b, u16 (rem_len - len b)))
      else mret (inr (q, rem_len))) (p, new_len)) Q s.
Proof.
  intros Hk Hn HQ. set (m := pbufs s) in *. pose proof (pkt_total _ _ _ Hk) as Ht. pose proof (links_nodup _ _ _ (pk_links _ _ _ Hk)) as Hnd.
  assert (Ed : u16 (total m l - new_len) = total m l - new_len) by (apply Z.mod_small; lia). rewrite Ed. clear Ed.
  apply (wp_loop_ghost (λ r '(q, rem) t, ∃ dn m1, t = with_pbufs m1 s ∧ l = dn ++ r ∧ r ≠ [] ∧ pkt m q r ∧ new_len = total m dn + rem ∧ 0 ≤ rem ∧
      rem < total m r ∧ lowered m m1 dn (total m l - new_len)) length _ _ l).
  - exists [], m. assert (l ≠ []) by (intros ->; simpl in Hn; lia). split; [by destruct s|]. simpl. split_and!; try done; lia.
  - pose proof (pk_count _ _ _ Hk). lia.
  - intros r [q rem] t (dn & m1 & -> & El & Hr & Hq & En & Hrem & Hlt & Hlow). destruct r as [|x r]; [done|]. pose proof (pkt_head _ _ _ Hq) as ->. cbn [head_of] in *.
    pose proof (pkt_nonnull _ _ _ _ Hq) as Hx0. pose proof (pkt_len _ _ _ x Hq (list_elem_of_here _ _)) as Hlen.
    assert (Hxd : x ∉ dn). { rewrite El in Hnd. apply NoDup_app in Hnd as (_ & Hd & _). intros Hx. by apply (Hd x Hx), list_elem_of_here. }
    assert (Ex : m1 x = m x) by (by rewrite Hlow, decide_False).
    apply wp_bind, wp_pb; [done|]. cbn [pbufs with_pbufs]. rewrite Ex. destruct (Z.ltb_spec (len (m x)) rem) as [Hle|Hge].
    + pose proof (pkt_tail _ _ _ _ Hq) as Hq'. assert (Hr' : r ≠ []) by (intros ->; simpl in Hlt; lia). pose proof (pkt_total _ _ _ Hq) as Htq.
      apply wp_bind, wp_upd_pb; [done|]. apply wp_bind, wp_assert; [rewrite (head_null _ _ _ Hq'); by destruct r|]. apply wp_ret.
      exists r. split; [|simpl; lia]. cbn [pbufs with_pbufs]. rewrite Ex. eexists (dn ++ [x]), _. split; [reflexivity|].
      split; [by rewrite <-app_assoc|]. split; [done|]. split; [done|]. rewrite total_app. unfold u16. rewrite (Z.mod_small (rem - len (m x))) by lia.
      simpl in *. split; [lia|]. split; [lia|]. split; [lia|]. intros a. destruct (decide (a = x)) as [->|Hax].
      * rewrite fn_lookup_insert, decide_True by set_solver. done.
      * rewrite fn_lookup_insert_ne by done. rewrite Hlow. destruct (decide (a ∈ dn)); [rewrite decide_True by set_solver|rewrite decide_False by set_solver]; done.
    + apply wp_ret. by apply (HQ dn x r rem m1).
Qed.

(** [pbuf_realloc] keeps the first [new_len] bytes; what is cut off is released. *)
Lemma realloc_held s L hs p l new_len (Q : unit → P → Prop) : held s L hs → p ∈ all L → pkt (pbufs s) p l → 0 ≤ new_len →
  (∀ x, x ∈ l → x ∈ dom (lv_heap L) → ∀ n, heap_may_trim (heap s) x n) →
  (total (pbufs s) l ≤ new_len → Q tt s) →
  (new_len < total (pbufs s) l → ∀ s' L' l1 l2 q, l = l1 ++ q :: l2 → held s' L' hs → pkt (pbufs s') p (l1 ++ [q]) → total (pbufs s') (l1 ++ [q]) = new_len →
     content (pbufs s') (bytes s') (l1 ++ [q]) = take (Z.to_nat new_len) (content (pbufs s) (bytes s) l) →
     (∀ a, a ∉ l → pbufs s' a = pbufs s a ∧ (a ∈ all L → a ∈ all L')) → Q tt s') →
  wp (pbuf_realloc custom_free_function p new_len) Q s.
Proof.
  intros Hh Hp Hk Hn Hmay Hsame Hcut. pose proof (held_nonnull _ _ _ _ Hh Hp) as Hp0.
  assert (Etl : tot_len (pbufs s p) = total (pbufs s) l).
  { destruct l as [|x l]; [by pose proof (pkt_head _ _ _ Hk)|]. pose proof (pkt_head _ _ _ Hk) as ->. by apply (pkt_tot_len _ _ _ _ Hk). }
  unfold pbuf_realloc. apply wp_bind, wp_assert; [by apply negb_true_iff, Z.eqb_neq|]. apply wp_bind, wp_pb; [done|]. rewrite Etl.
  destruct (Z.leb_spec (total (pbufs s) l) new_len); [by apply wp_ret, Hsame|]. apply wp_bind. pose proof (pkt_total _ _ _ Hk) as Ht.
  apply (realloc_walk_run s p l new_len); [done|lia|]. intros l1 q l2 rem m El Hrem En Hlow. subst l.
  assert (Hq : q ∈ all L) by (apply (held_chain _ _ _ p _ Hh Hp (pk_links _ _ _ Hk)); set_solver).
  pose proof (links_nodup _ _ _ (pk_links _ _ _ Hk)) as (_ & Hd & [Hql2 Hnd2]%NoDup_cons)%NoDup_app.
  assert (Hql1 : q ∉ l1) by (intros Hin; apply (Hd q Hin), list_elem_of_here).
  assert (Emq : m q = pbufs s q) by (by rewrite Hlow, decide_False).
  assert (Hlen : len (pbufs s q) < 65536) by (pose proof (pkt_len _ _ _ q Hk ltac:(set_solver)); lia).
  assert (Ho : owned O (with_pbufs m s) L).
  { apply owned_frame; [by apply Hh|]. intros x _. rewrite Hlow. by destruct (decide _). }
  pose proof (held_nonnull _ _ _ _ Hh Hq) as Hq0.
  apply wp_bind, wp_pb; [done|]. cbn [pbufs with_pbufs]. rewrite Emq. apply wp_bind. rewrite <-Emq. change (m q) with (pbufs (with_pbufs m s) q).
  apply (trim_last_run (with_pbufs m s) L q rem); [done|done|cbn [pbufs with_pbufs]; rewrite Emq; lia| | |lia].
  { intros Hqh n. apply (Hmay q); [set_solver|done]. }
  intros h L2 HL2 Hown. apply wp_bind, wp_upd_pb; [done|]. apply wp_bind, wp_upd_pb; [done|].
  cbn [pbufs with_heap with_pbufs bytes heap pools pbuf_free_ooseq_pending] in *. rewrite fn_lookup_insert.
  set (m2 := <[q := _]> (<[q := _]> m)). change (wp ?c Q _) with (wp c Q (with_pbufs m2 (with_heap h s))). set (s2 := with_pbufs m2 (with_heap h s)).
  assert (E2q : m2 q = with_tot_len rem (with_len rem (pbufs s q))).
  { unfold m2. rewrite fn_lookup_insert, Emq. unfold with_tot_len, with_len. cbn. unfold u16. rewrite Z.mod_mod by lia. done. }
  assert (E2 : ∀ a, a ≠ q → m2 a = if decide (a ∈ l1) then with_tot_len (tot_len (pbufs s a) - (total (pbufs s) (l1 ++ q :: l2) - new_len)) (pbufs s a) else pbufs s a).
  { intros a Ha. unfold m2. by rewrite !fn_lookup_insert_ne. }
  assert (Ho2 : owned O s2 L2).
  { apply (Hown m2); [by rewrite E2q, Emq|]. intros a Ha. unfold m2. by rewrite !fn_lookup_insert_ne. }
  assert (Erel : ∀ a, ref (m2 a) = ref (pbufs s a) ∧ next (m2 a) = next (pbufs s a)).
  { intros a. destruct (decide (a = q)) as [->|Ha]; [by rewrite E2q|]. rewrite E2 by done. by destruct (decide _). }
  assert (Hh2 : held s2 L2 hs) by (apply (held_frame s s2 L L2); [done|done|done|intros x _; apply Erel]).
  assert (Hl2 : links (pbufs s2) q (q :: l2)).
  { apply (lseg_ext (nexts s)); [intros x _; apply Erel|]. apply (chain_suffix (nexts s) p l1). apply Hk. }
  apply (unlink_rest_run s2 L2 hs q l2); [done|by rewrite HL2|done|]. intros s1 s' L' Hr Hh' Hb Hs'.
  assert (Hs1 : ∀ a, a ∉ l2 → pbufs s1 a = m2 a ∧ (a ∈ all L → a ∈ all L')).
  { intros a Ha. destruct (released_other _ _ _ _ _ a Hr Ha) as [Ea Hin]. rewrite HL2 in Hin. by split. }
  assert (Eb : bytes s' = bytes s) by (rewrite Hb; apply (rl_bytes _ _ _ _ _ Hr)).
  assert (Eq' : pbufs s' q = with_next NULL (m2 q)) by (by rewrite Hs', decide_True).
  destruct (pkt_cut (pbufs s) (pbufs s') p l1 q l2 rem (bytes s)) as (C1 & C2 & C3); try done.
  - intros a Ha. assert (Haq : a ≠ q) by (intros ->; done). assert (Ha2 : a ∉ l2) by (intros Hin; apply (Hd a Ha); by apply list_elem_of_further).
    rewrite Hs', decide_False, (proj1 (Hs1 a Ha2)), E2, decide_True by done. cbn [len payload next tot_len with_tot_len].
    split_and!; try done. unfold u16. pose proof (pkt_tot_bounds _ _ _ _ _ Hk Ha) as Hb'. rewrite total_app in *. rewrite Z.mod_small by lia. lia.
  - rewrite Eq', E2q. unfold with_next, with_tot_len, with_len. cbn. apply Z.mod_small. lia.
  - rewrite Eq', E2q. unfold with_next, with_tot_len, with_len. cbn. apply Z.mod_small. lia.
  - by rewrite Eq'.
  - rewrite Eq', E2q. done.
  - apply (Hcut ltac:(lia) s' L' l1 l2 q); [done|done|done|lia|rewrite Eb, En; done|].
    intros a Ha. assert (Ha' : a ∉ l1 ∧ a ≠ q ∧ a ∉ l2) by (rewrite elem_of_app, elem_of_cons in Ha; tauto). destruct Ha' as (Ha1 & Haq & Ha2).
    rewrite Hs', decide_False by done. destruct (Hs1 a Ha2) as [-> Hin]. split; [|done]. by rewrite E2, decide_False.
Qed.
End client.
