(* ===== verification/LwipPbufUse.v ===== *)
(** * LwipPbufUse: what the packet buffers promise

    Copying a packet into new buffers, the sequences of operations a client may
    perform, and the theorems about the packet buffers, with a memory of pools
    and a heap on which they are evaluated. *)

From Stdlib Require Import ZArith Lia.
From stdpp Require Import base numbers list option functions gmap sets fin_sets relations.
From S2P Require Import Prelude LwipBase LwipMem LwipMemp LwipPbuf LwipPbufData LwipPbufOwn LwipPbufAlloc LwipPbufClient.
Open Scope Z_scope.

Lemma splice_all (c bs : list Z) : length bs = length c → splice c 0 bs = bs.
Proof. intros E. unfold splice. change (Z.to_nat 0) with O%nat. rewrite take_0, drop_ge by lia. by rewrite app_nil_r. Qed.

Section use.
Context {H M : Type} `{Heaps H} `{Pools M}.
Abbreviation P := (pstate H M).
Context `{!PbufMemory H M}.
Context (O : gmap Z Z).

(** ** The memory of the buffers in use *)

Definition owns (L : livep) (x : Z) : Prop := x ∈ lv_pool L ∪ dom (lv_heap L).

(** Buffers with memory of their own do not share a byte. *)
Lemma owned_apart s L x y a : owned O s L → owns L x → owns L y → in_payload (pbufs s) x a → in_payload (pbufs s) y a → x = y.
Proof.
  intros [K1 K2 K3 K4 K5 K6 K7] Hx Hy Hax Hay. destruct (decide (x = y)) as [?|Hne]; [done|]. exfalso. unfold owns, in_payload in *.
  assert (Hin : ∀ z, z ∈ lv_pool L ∪ dom (lv_heap L) → payload (pbufs s z) ≤ a < payload (pbufs s z) + len (pbufs s z) →
    z ∈ lv_pool L ∧ z ≤ a < z + pool_size (M := M) MEMP_PBUF_POOL ∨ ∃ n, (lv_heap L ∪ O) !! z = Some n ∧ z ≤ a < z + n).
  { intros z [Hz|[n Hz]%elem_of_dom]%elem_of_union Ha; unfold data_in, SIZEOF_STRUCT_PBUF in *.
    - left. destruct (K5 z Hz) as [_ [D1 D2]]. split; [done|lia].
    - right. exists n. destruct (K7 z n Hz) as [_ [D1 D2]]. split; [by apply lookup_union_Some_l|lia]. }
  destruct (Hin x Hx Hax) as [[Hxp Hxa]|(nx & Hxh & Hxa)], (Hin y Hy Hay) as [[Hyp Hya]|(ny & Hyh & Hya)].
  - destruct (pool_apart _ _ _ _ _ x y K1 K1 Hxp Hyp); [congruence|lia|lia].
  - destruct (heap_addr _ _ _ _ K3 Hyh) as (? & ? & _). destruct (regions _ _ _ _ K1 Hxp); lia.
  - destruct (heap_addr _ _ _ _ K3 Hxh) as (? & ? & _). destruct (regions _ _ _ _ K1 Hyp); lia.
  - destruct (heap_apart _ _ _ _ _ _ K3 Hxh Hyh Hne); lia.
Qed.
Lemma owned_apart_list s L l : owned O s L → (∀ x, x ∈ l → owns L x) → apart (pbufs s) l.
Proof. intros Ho Hl x y a Hx Hy. apply (owned_apart s L); auto. Qed.
Lemma owns_all L x : owns L x → x ∈ all L.
Proof. unfold owns, all. set_solver. Qed.
(** What is in use stays in its kind of memory while it is in use. *)
Lemma owns_kept s L s' L' x : owned O s L → owned O s' L' → pbufs s' x = pbufs s x → owns L x → x ∈ all L' → owns L' x.
Proof.
  intros Ho Ho' E Hx Hx'. unfold owns in *. unfold all in Hx'. apply elem_of_union in Hx' as [[Hp|Hr]%elem_of_union|Hh]; [set_solver| |set_solver].
  exfalso. pose proof (ow_kref _ _ _ Ho' x Hr) as [Er _]. rewrite E in Er. apply elem_of_union in Hx as [Hx|[n Hx]%elem_of_dom].
  - destruct (ow_kpool _ _ _ Ho x Hx) as [[Ek _] _]. rewrite Er in Ek. done.
  - destruct (ow_kheap _ _ _ Ho x n Hx) as [[Ek _] _]. rewrite Er in Ek. done.
Qed.

Lemma not_ref_owns s L x : owned O s L → x ∈ all L → pbuf_get_allocsrc (pbufs s x) ≠ PBUF_TYPE_ALLOC_SRC_MASK_STD_MEMP_PBUF → owns L x.
Proof.
  intros Ho Hx Hk. unfold all in Hx. unfold owns. apply elem_of_union in Hx as [[Hx|Hx]%elem_of_union|Hx]; [set_solver| |set_solver].
  destruct (ow_kref _ _ _ Ho x Hx) as [? _]. done.
Qed.

Context (custom_free_function : Z → comp P unit).

(** ** Copying into a new packet *)

Lemma held_bytes s L hs b : held O s L hs → held O (with_bytes b s) L hs.
Proof. intros Hh. apply (held_frame O s _ L L hs); [done| |done|done]. eapply owned_same; [by apply Hh|done..]. Qed.

(** A copy of the packet [l]; its bytes are those of [l] if [l] has memory of its
    own, which is not that of the copy. *)
Record copied (s : P) (L : livep) (l : list Z) (s' : P) (L' : livep) (q : Z) (l' : list Z) : Prop := Copied {
  cp_new : ∀ x, x ∈ l' → x ∉ all L;
  cp_pkt : pkt (pbufs s') q l';
  cp_own : ∀ x, x ∈ l' → owns L' x;
  cp_content : (∀ x, x ∈ l → owns L x) → content (pbufs s') (bytes s') l' = content (pbufs s) (bytes s) l;
  cp_others : ∀ x, x ∈ all L → x ∈ all L' ∧ pbufs s' x = pbufs s x;
  cp_bytes : (∀ x, x ∈ l → owns L x) → ∀ a, (∀ x, x ∈ l' → ¬ in_payload (pbufs s') x a) → bytes s' a = bytes s a;
  cp_all : all L' = list_to_set l' ∪ all L
}.

Lemma clone_run s L hs p l layer type (Q : Z → P → Prop) : held O s L hs → p ∈ all L → pkt (pbufs s) p l →
  positive (pbufs s) l → 0 ≤ layer ≤ PBUF_TRANSPORT → type = PBUF_POOL ∨ type = PBUF_RAM →
  (∀ s', (type = PBUF_RAM → heap_serves (heap s) (ram_size layer (total (pbufs s) l)) = false) → as_before O s L s' → Q NULL s') →
  (∀ s' L' q l', held O s' L' (q :: hs) → copied s L l s' L' q l' →
     (type = PBUF_RAM → l' = [q] ∧ heap_serves (heap s) (ram_size layer (total (pbufs s) l)) = true) → Q q s') →
  wp (pbuf_clone custom_free_function layer type p) Q s.
Proof.
  intros Hh Hp Hk Hpos Hl Ht Hnull Hsome. pose proof (held_nonnull _ _ _ _ _ Hh Hp) as Hp0. pose proof (pkt_total _ _ _ Hk) as Htot.
  assert (Hne : l ≠ []) by (intros ->; apply Hp0, (pkt_head _ _ _ Hk)).
  assert (Etl : tot_len (pbufs s p) = total (pbufs s) l ∧ 0 < total (pbufs s) l).
  { destruct l as [|x l]; [done|]. pose proof (pkt_head _ _ _ Hk) as ->. split; [by apply (pkt_tot_len _ _ _ _ Hk)|].
    pose proof (Hpos x (list_elem_of_here _ _)). pose proof (pkt_len _ _ _ x Hk (list_elem_of_here _ _)). lia. }
  destruct Etl as [Etl Htp]. assert (Hin : ∀ x, x ∈ l → x ∈ all L) by (apply (held_chain O s L hs p l Hh Hp), Hk).
  unfold pbuf_clone. apply wp_bind, wp_pb; [done|]. rewrite Etl. apply wp_bind.
  apply (alloc_run O custom_free_function s L); [by apply Hh|done|done|unfold pbuf_type; tauto| |].
  { intros s' Hno Hs'. cbn [Z.eqb]. change (NULL =? NULL) with true. cbv iota. apply wp_ret. by apply Hnull. }
  intros s' L' q l' Hf Hom Hram. pose proof (held_new _ _ _ _ _ _ _ _ _ Hh Hf) as Hh'. specialize (Hom Ht). destruct Hom as [Hom _].
  destruct Hf as [F1 F2 F3 F4 F5 F6 F7 F8 F9 F10].
  assert (Hq0 : q ≠ NULL) by apply (held_nonnull _ _ _ _ _ Hh'), (held_handle _ _ _ _ _ Hh'), list_elem_of_here.
  rewrite (proj2 (Z.eqb_neq q NULL) Hq0).
  assert (Hold : ∀ x, x ∈ all L → pbufs s' x = pbufs s x) by (intros x Hx; apply F9; intros Hx'; by apply (F3 x Hx')).
  assert (Hk' : pkt (pbufs s') p l).
  { eapply pkt_frame; [|exact Hk]. intros a Ha. by rewrite Hold by auto. }
  assert (Et' : total (pbufs s') l = total (pbufs s) l) by (apply totals_ext; intros a Ha; by rewrite Hold by auto).
  assert (Ec' : content (pbufs s') (bytes s') l = content (pbufs s) (bytes s) l).
  { rewrite F10. apply content_frame. intros a Ha. by rewrite Hold by auto. }
  assert (Hown' : (∀ x, x ∈ l → owns L x) → ∀ x, x ∈ l → owns L' x).
  { intros Hown x Hx. eapply (owns_kept s L s' L'); [by apply Hh|done|by apply Hold, Hin|by apply Hown|]. rewrite F2. apply elem_of_union_r. by apply Hin. }
  apply wp_bind. unfold pbuf_copy. rewrite (proj2 (Z.eqb_neq p NULL) Hp0). apply wp_bind, wp_pb; [done|]. rewrite Hold by done. rewrite Etl.
  assert (Hap : (∀ x, x ∈ l → owns L x) → no_overlap s' l' l).
  { intros Hown x y a Hx Hy Hax Hay. assert (x = y) by (apply (owned_apart s' L' x y a); [done|exact (Hom x Hx)|by apply Hown'|done|done]). subst y. apply (F3 x Hx). by apply Hin. }
  apply (copy_pkt_run s' q p l' l); [done|done|by apply F7| |lia|lia| | |].
  - intros x Hx. rewrite Hold by auto. by apply Hpos.
  - destruct l' as [|x l']; [done|]. by apply (pkt_len _ _ _ x F4), list_elem_of_here.
  - intros Hfail. exfalso. rewrite F6, Et' in Hfail. naive_solver lia.
  - intros _ _ b Hb. apply wp_bind, wp_assert; [done|]. apply wp_ret.
    rewrite Ec' in Hb. pose proof (length_pkt_content (pbufs s) (bytes s) l (pk_len _ _ _ Hk)) as Elc. rewrite take_ge in Hb by lia.
    apply (Hsome _ L' q l'); [by apply held_bytes| |done]. split; cbn [pbufs bytes with_bytes]; try done.
    + intros Hown. rewrite (content_ext _ (scatter (pbufs s') l' 0 (content (pbufs s) (bytes s) l) (bytes s'))) by (intros; by apply Hb, Hap).
      pose proof (length_pkt_content (pbufs s') (bytes s') l' (pk_len _ _ _ F4)) as Elc'.
      rewrite content_scatter; [|by eapply links_nodup, F4|by eapply owned_apart_list|apply F4|lia|lia]. apply splice_all. lia.
    + intros x Hx. split; [rewrite F2; set_solver|by apply Hold].
    + intros Hown a Ha. rewrite Hb, scatter_out by (by apply Hap || done || lia). by rewrite F10.
Qed.

(** [pbuf_coalesce] puts a packet into one buffer if it is not in one already
    and the heap has room for it. *)
Definition stays (s : P) (p layer : Z) (l : list Z) : bool :=
  (next (pbufs s p) =? NULL) || negb (heap_serves (heap s) (ram_size layer (total (pbufs s) l))).
Lemma coalesce_run s L hs p l layer (Q : Z → P → Prop) : held O s L (p :: hs) → pkt (pbufs s) p l →
  (∀ x, x ∈ l → owns L x) → positive (pbufs s) l → 0 ≤ layer ≤ PBUF_TRANSPORT →
  (∀ s', stays s p layer l = true → as_before O s L s' → Q p s') →
  (∀ s' L' q, stays s p layer l = false → q ∉ all L → held O s' L' (q :: hs) → pkt (pbufs s') q [q] → content (pbufs s') (bytes s') [q] = content (pbufs s) (bytes s) l → Q q s') →
  wp (pbuf_coalesce custom_free_function p layer) Q s.
Proof.
  intros Hh Hk Hown Hpos Hl Hsame HQ. assert (Hp : p ∈ all L) by apply (held_handle _ _ _ _ _ Hh), list_elem_of_here.
  pose proof (held_nonnull _ _ _ _ _ Hh Hp) as Hp0. unfold pbuf_coalesce. apply wp_bind, wp_pb; [done|].
  unfold stays in Hsame, HQ. destruct (_ =? NULL); cbn [orb] in Hsame, HQ; [apply wp_ret, Hsame; [done|split; [by apply Hh|done]]|]. apply wp_bind.
  apply (clone_run s L (p :: hs) p l); [done|done|done|done|done|by right| |].
  { intros s' Hno Hs'. change (NULL =? NULL) with true. cbv iota. apply wp_ret, Hsame; [by rewrite Hno|done]. }
  intros s1 L1 q l' Hh1 [C1 C2 C3 C4 C5 C6 _] Hone. destruct (Hone eq_refl) as [-> Hyes]. clear Hone.
  assert (Hq0 : q ≠ NULL) by apply (pkt_nonnull _ _ _ _ C2). rewrite (proj2 (Z.eqb_neq q NULL) Hq0).
  assert (Hin : ∀ x, x ∈ l → x ∈ all L) by (intros x Hx; by apply owns_all, Hown).
  apply wp_bind. apply (free_held O custom_free_function s1 L1 p (q :: hs) l).
  - eapply held_perm; [|exact Hh1]. intros x. simpl. lia.
  - apply (lseg_ext (λ x, next (pbufs s x))); [|by apply Hk]. intros x Hx. f_equal. by apply C5, Hin.
  - intros s2 L2 Hh2 Hr. apply wp_ret. assert (Hql : q ∉ l) by (intros Hq; apply (C1 q (list_elem_of_here _ _)); by apply Hin).
    destruct (released_other _ _ _ _ _ q Hr Hql) as [Eq _]. apply (HQ s2 L2 q); [by rewrite Hyes|apply C1, list_elem_of_here|done| |].
    + eapply pkt_frame; [|exact C2]. intros a ->%list_elem_of_singleton. by rewrite Eq.
    + rewrite <-C4 by done. rewrite (rl_bytes _ _ _ _ _ Hr). apply content_frame. intros a ->%list_elem_of_singleton. by rewrite Eq.
Qed.

(** ** Headers *)

Lemma shifted_held s L hs x l n m' : held O s L hs → x ∈ all L → pkt (pbufs s) x (x :: l) → shifted (pbufs s) m' x n →
  0 ≤ len (pbufs s x) - n → (n < 0 → x + SIZEOF_STRUCT_PBUF ≤ payload (pbufs s x) + n) → held O (with_pbufs m' s) L hs.
Proof.
  intros Hh Hx Hk Hs Hn Hroom. assert (Hf : ∀ y, type_internal (m' y) = type_internal (pbufs s y) ∧ flags (m' y) = flags (pbufs s y) ∧
      ref (m' y) = ref (pbufs s y) ∧ next (m' y) = next (pbufs s y)) by (intros y; rewrite Hs; by destruct (decide _)).
  assert (Hd : ∀ y n', data_in y n' (pbufs s y) → data_in y n' (m' y)).
  { intros y n'. unfold data_in. rewrite Hs. destruct (decide (y = x)) as [->|]; [|done]. cbn [payload len shift]. intros [D1 D2].
    split; [|lia]. destruct (Z.lt_ge_cases n 0); [by apply Hroom|]. lia. }
  assert (Hkd : ∀ y k, kind (pbufs s y) k → kind (m' y) k) by (intros y k; unfold kind, pbuf_get_allocsrc; destruct (Hf y) as (-> & -> & _); done).
  apply (held_frame O s _ L L hs); [done| |done|intros y _; apply Hf]. destruct (hd_owned _ _ _ _ Hh) as [K1 K2 K3 K4 K5 K6 K7].
  split; try done; cbn [pbufs with_pbufs].
  - intros y Hy. destruct (K5 y Hy). split; auto.
  - intros y Hy. auto.
  - intros y k Hy. destruct (K7 y k Hy). split; auto.
Qed.

(** ** What a client does *)

Inductive pbuf_op :=
  | OpAlloc (layer length type : Z)
  | OpRef (p : Z)
  | OpFree (p : Z)
  | OpCat (h t : Z)
  | OpChain (h t : Z)
  | OpDechain (p : Z)
  | OpRealloc (p new_len : Z)
  | OpCoalesce (p layer : Z)
  | OpAddHeader (p n : Z)
  | OpRemoveHeader (p n : Z).

Definition run_pbuf_op (op : pbuf_op) : comp P Z :=
  match op with
  | OpAlloc layer length type => pbuf_alloc custom_free_function layer length type
  | OpRef p => pbuf_ref p;; mret 0
  | OpFree p => pbuf_free custom_free_function p
  | OpCat h t => pbuf_cat h t;; mret 0
  | OpChain h t => pbuf_chain h t;; mret 0
  | OpDechain p => pbuf_dechain custom_free_function p
  | OpRealloc p n => pbuf_realloc custom_free_function p n;; mret 0
  | OpCoalesce p layer => pbuf_coalesce custom_free_function p layer
  | OpAddHeader p n => pbuf_add_header p n
  | OpRemoveHeader p n => pbuf_remove_header p n
  end.

(** The client reaches [p] from what it holds. *)
Definition reach (s : P) (hs : list Z) (p : Z) : Prop := ∃ h l, h ∈ hs ∧ links (pbufs s) h l ∧ p ∈ l.
Definition joinable (s : P) (h t : Z) : Prop := ∃ l1 l2, pkt (pbufs s) h l1 ∧ pkt (pbufs s) t l2 ∧ NoDup (l1 ++ l2) ∧
  total (pbufs s) l1 + total (pbufs s) l2 < 65536.
(** What the callers of these functions see to. *)
Definition allowed (s : P) (hs : list Z) (op : pbuf_op) : Prop :=
  match op with
  | OpAlloc layer n type => 0 ≤ n < 65536 ∧ 0 ≤ layer ≤ PBUF_TRANSPORT ∧ pbuf_type type
  | OpRef p => reach s hs p ∧ ref (pbufs s p) < 255
  | OpFree p => p ∈ hs
  | OpCat h t => reach s hs h ∧ t ∈ hs ∧ joinable s h t
  | OpChain h t => reach s hs h ∧ t ∈ hs ∧ joinable s h t ∧ ref (pbufs s t) < 255
  | OpDechain p => reach s hs p ∧ ∃ l, pkt (pbufs s) p l
  | OpRealloc p n => reach s hs p ∧ 0 ≤ n ∧ ∃ l, pkt (pbufs s) p l ∧ ∀ x k, x ∈ l → heap_may_trim (heap s) x k
  | OpCoalesce p layer => p ∈ hs ∧ 0 ≤ layer ≤ PBUF_TRANSPORT ∧ ∃ l, pkt (pbufs s) p l ∧ positive (pbufs s) l ∧
      ∀ x, x ∈ l → pbuf_get_allocsrc (pbufs s x) ≠ PBUF_TYPE_ALLOC_SRC_MASK_STD_MEMP_PBUF
  | OpAddHeader p n | OpRemoveHeader p n => reach s hs p ∧ 0 ≤ n ∧ ∃ l, pkt (pbufs s) p l
  end.
Fixpoint surrender (x : Z) (hs : list Z) : list Z :=
  match hs with [] => [] | h :: t => if decide (h = x) then t else h :: surrender x t end.
(** What the client holds when [op] has answered [r]. *)
Definition holds (op : pbuf_op) (r : Z) (hs : list Z) : list Z :=
  match op with
  | OpAlloc _ _ _ => if r =? NULL then hs else r :: hs
  | OpRef p => p :: hs
  | OpFree p => surrender p hs
  | OpCat _ t => surrender t hs
  | OpCoalesce p _ => r :: surrender p hs
  | _ => hs
  end.

(** One operation, or the bytes of memory changing by other means. *)
Inductive client_step : P * list Z → P * list Z → Prop :=
  | step_op s hs op r s' : allowed s hs op → run_pbuf_op op s = Ret (r, s') → client_step (s, hs) (s', holds op r hs)
  | step_bytes s hs b : client_step (s, hs) (with_bytes b s, hs).

Lemma hcount_surrender x p hs : p ∈ hs → hcount x (p :: surrender p hs) = hcount x hs.
Proof.
  induction hs as [|h hs IH]; [by intros ?%elem_of_nil|]. cbn [surrender]. destruct (decide (h = p)) as [->|Hne]; [done|].
  intros [?|Hp]%elem_of_cons; [congruence|]. specialize (IH Hp). simpl in *. lia.
Qed.
Lemma held_front s L hs p : held O s L hs → p ∈ hs → held O s L (p :: surrender p hs).
Proof. intros Hh Hp. eapply held_perm; [|exact Hh]. intros x. by apply hcount_surrender. Qed.
Lemma reach_in s L hs p : held O s L hs → reach s hs p → p ∈ all L.
Proof. intros Hh (h & l & Hin & Hl & Hp). eapply (held_chain O s L hs h l); try done. by eapply held_handle. Qed.
Lemma held_pkt s L hs p l : held O s L hs → p ∈ all L → pkt (pbufs s) p l → ∃ l', l = p :: l'.
Proof.
  intros Hh Hp Hk. destruct l as [|x l]; [|pose proof (pkt_head _ _ _ Hk) as ->; by exists l].
  exfalso. apply (held_nonnull _ _ _ _ _ Hh Hp). apply (pkt_head _ _ _ Hk).
Qed.
(** Every operation a client may perform ends, and keeps the count. *)
Lemma op_held s L hs op : held O s L hs → allowed s hs op → wp (run_pbuf_op op) (λ r s', ∃ L', held O s' L' (holds op r hs)) s.
Proof.
  intros Hh Ha. destruct op; cbn [allowed run_pbuf_op holds] in *.
  - destruct Ha as (Hn & Hl & Ht). apply (alloc_run O _ s L); [by apply Hh|done|done|done| |].
    + intros s' _ Hs. change (NULL =? NULL) with true. exists L. by eapply held_as_before.
    + intros s' L' p l Hf _ _. exists L'. pose proof (held_new _ _ _ _ _ _ _ _ _ Hh Hf) as Hh'.
      rewrite (proj2 (Z.eqb_neq p NULL)); [done|]. by apply (held_nonnull _ _ _ _ _ Hh'), (held_handle _ _ _ _ _ Hh'), list_elem_of_here.
  - destruct Ha as [Hp Hr]. apply wp_bind, (ref_run O s L hs); [done|by eapply reach_in|done|]. intros m _ Hm. apply wp_ret. by exists L.
  - pose proof (held_front _ _ _ _ Hh Ha) as Hf. pose proof (held_handle _ _ _ _ _ Hh Ha) as Hp.
    destruct (hd_ends _ _ _ _ Hh p Hp) as [l Hl]. apply (free_held O _ s L p (surrender p hs) l); [done|done|]. intros s' L' Hh' _. by exists L'.
  - destruct Ha as (Hp & Ht & l1 & l2 & K1 & K2 & K3 & K4). apply wp_bind, (cat_held O s L h t (surrender t hs) l1 l2); try done.
    + by apply held_front.
    + by eapply reach_in.
    + intros m' _ Hm. apply wp_ret. by exists L.
  - destruct Ha as (Hp & Ht & (l1 & l2 & K1 & K2 & K3 & K4) & Hr). apply wp_bind. unfold pbuf_chain. apply wp_bind, (cat_held O s L h t (surrender t hs) l1 l2); try done.
    + by apply held_front.
    + by eapply reach_in.
    + intros m' Hj Hm. pose proof (held_handle _ _ _ _ _ Hh Ht) as HtA. apply (ref_run O _ L (surrender t hs)); [done|done| |].
      * cbn [pbufs with_pbufs]. destruct (held_pkt _ _ _ _ _ Hh HtA K2) as [l2' ->]. rewrite (jn_other _ _ _ _ Hj); [done|].
        intros Hin. apply NoDup_app in K3 as (_ & Hd & _). apply (Hd t Hin), list_elem_of_here.
      * intros m _ Hm2. apply wp_ret. exists L. eapply held_perm; [|exact Hm2]. intros x. symmetry. by apply hcount_surrender.
  - destruct Ha as (Hp & l & Hk). assert (HpA : p ∈ all L) by by eapply reach_in. destruct (held_pkt _ _ _ _ _ Hh HpA Hk) as [l' ->].
    apply (dechain_held O _ s L p l' hs); [done|done|done|]. intros s' L' _ Hh'. by exists L'.
  - destruct Ha as (Hp & Hn & l & Hk & Hm). apply wp_bind, (realloc_held O _ s L hs p l); [done|by eapply reach_in|done|done| | |].
    + intros x Hx _ k. by apply Hm.
    + intros _. apply wp_ret. by exists L.
    + intros _ s' L' l1 l2 q _ Hh' _ _ _ _. apply wp_ret. by exists L'.
  - destruct Ha as (Hp & Hl & l & Hk & Hpos & Hown). pose proof (held_front _ _ _ _ Hh Hp) as Hf. pose proof (held_handle _ _ _ _ _ Hh Hp) as HpA.
    apply (coalesce_run s L (surrender p hs) p l); [done|done| |done|done| |].
    + intros x Hx. apply (not_ref_owns s); [by apply Hh| |by apply Hown]. by apply (held_chain O s L hs p l Hh HpA (pk_links _ _ _ Hk)).
    + intros s' _ Hs. exists L. by eapply held_as_before.
    + intros s' L' q _ _ Hh' _ _. by exists L'.
  - destruct Ha as (Hp & Hn & l & Hk). assert (HpA : p ∈ all L) by by eapply reach_in. destruct (held_pkt _ _ _ _ _ Hh HpA Hk) as [l' ->].
    apply (add_header_run s p l'); [done|done|by exists L|by exists L|]. intros Hn0 Ht Hroom m' Hs. exists L.
    apply (shifted_held s L hs p l' (- n)); try done; pose proof (pkt_len _ _ _ p Hk (list_elem_of_here _ _)); lia.
  - destruct Ha as (Hp & Hn & l & Hk). assert (HpA : p ∈ all L) by by eapply reach_in. destruct (held_pkt _ _ _ _ _ Hh HpA Hk) as [l' ->].
    apply (remove_header_run s p l'); [done|done|by exists L|by exists L|]. intros Hn0 m' Hs. exists L.
    apply (shifted_held s L hs p l' n); try done; lia.
Qed.
Lemma held_reachable s0 L0 hs0 s hs : held O s0 L0 hs0 → rtc client_step (s0, hs0) (s, hs) → ∃ L, held O s L hs.
Proof.
  intros Hh Hsteps. remember (s0, hs0) as c0 eqn:E0. remember (s, hs) as c eqn:E. revert s0 L0 hs0 E0 Hh E.
  induction Hsteps as [c|c c1 c' Hstep Hsteps IH]; intros s0 L0 hs0 -> Hh E.
  - injection E as -> ->. by exists L0.
  - inversion Hstep as [s1 hs1 op r s' Hal Hrun|s1 hs1 b]; subst.
    + pose proof (wp_elim _ _ _ _ _ (op_held _ _ _ _ Hh Hal) Hrun) as [L' Hh']. by eapply IH.
    + eapply IH; [done| |done]. by apply held_bytes.
Qed.
End use.
