(* ===== verification/LwipPbufFacts.v ===== *)
(** * LwipPbufFacts: what the packet buffers promise

    The theorems about core/pbuf.c, over any pools and heap that keep the
    promises of [Pools] and [Heaps], and packets in the memory of LwipMemp and
    LwipMem on which they are evaluated. *)

From Stdlib Require Import ZArith Lia.
From stdpp Require Import base numbers list option functions gmap sets fin_sets relations.
From S2P Require Import Prelude LwipBase LwipMem LwipMemp LwipPbuf LwipPbufData LwipPbufOwn LwipPbufAlloc LwipPbufClient LwipPbufUse.
Open Scope Z_scope.

Section theorems.
Context {H M : Type} `{Heaps H} `{Pools M} `{!PbufMemory H M}.
Abbreviation P := (pstate H M).
Implicit Types (s : P) (O : gmap Z Z).

(** Nothing in use, nothing held. *)
Lemma held_none O s : owned O s (Lv ∅ ∅ ∅) → held O s (Lv ∅ ∅ ∅) [].
Proof.
  intros Ho. assert (E : all (Lv ∅ ∅ ∅) = ∅) by (unfold all; simpl; set_solver).
  split; [done|split; rewrite E; try set_solver|rewrite E; intros ? ?%elem_of_empty; done].
Qed.

(** C14. From a state in which no packet buffer is in use, a client allocates,
    references, releases, joins, splits, shortens and coalesces packets and
    moves their headers, in any order.  Then every buffer it can reach is in
    use, the count of each buffer in use is exactly the number of handles and of
    links to it, nothing stays in use when the client holds nothing, and
    whatever the client may do next ends without a failed assertion. *)
Theorem pbuf_references_exact O cf s0 s hs :
  owned O s0 (Lv ∅ ∅ ∅) → rtc (client_step cf) (s0, []) (s, hs) →
  ∃ L, owned O s L ∧ (∀ p, reach s hs p → p ∈ all L) ∧
    (∀ x, x ∈ all L → ref (pbufs s x) = hcount x hs + preds (nexts s) (all L) x) ∧
    (hs = [] → all L = ∅) ∧
    ∀ op, allowed s hs op → ∃ r s', run_pbuf_op cf op s = Ret (r, s').
Proof.
  intros Ho Hsteps. destruct (held_reachable O cf s0 _ [] s hs (held_none _ _ Ho) Hsteps) as [L Hh]. exists L.
  split; [by apply Hh|]. split; [intros p; by apply (reach_in O s L hs)|]. split; [apply (hd_counted _ _ _ _ Hh)|].
  split; [intros ->; by eapply held_nothing|].
  intros op Ha. destruct (proj1 (wp_run _ _ _) (op_held O cf s L hs op Hh Ha)) as (r & s' & E & _). by exists r, s'.
Qed.

(** C15. [pbuf_alloc] either answers NULL, and every buffer in use is as it was,
    those taken for a part of the chain having been given back, or answers a
    well-formed packet of exactly the length asked for, made of buffers that
    were not in use, which the caller alone refers to.  A buffer of the heap
    is refused exactly when the heap has no block for it. *)
Theorem pbuf_alloc_all_or_nothing O cf s L hs layer n type :
  held O s L hs → 0 ≤ n < 65536 → 0 ≤ layer ≤ PBUF_TRANSPORT → pbuf_type type →
  wp (pbuf_alloc cf layer n type) (λ p s', bytes s' = bytes s ∧ (∀ x, x ∈ all L → pbufs s' x = pbufs s x) ∧
    (p = NULL ∧ held O s' L hs ∨
     ∃ L' l, held O s' L' (p :: hs) ∧ all L' = list_to_set l ∪ all L ∧ (∀ x, x ∈ l → x ∉ all L) ∧
       pkt (pbufs s') p l ∧ total (pbufs s') l = n ∧
       (type = PBUF_POOL ∨ type = PBUF_RAM → p + SIZEOF_STRUCT_PBUF + layer ≤ payload (pbufs s' p))) ∧
    (type = PBUF_RAM → p = NULL ↔ heap_serves (heap s) (ram_size layer n) = false)) s.
Proof.
  intros Hh Hn Hl Ht. apply (alloc_run O cf s L); [by apply Hh|done..| |].
  - intros s' Hno Hs. split; [apply Hs|]. split; [apply Hs|]. split; [|by intros Ht'; rewrite Hno]. left. split; [done|]. by eapply held_as_before.
  - intros s' L' p l Hf Hom Hram. split; [apply Hf|]. split; [|split].

    + intros x Hx. apply (fp_others _ _ _ _ _ _ _ _ Hf). intros Hxl. by apply (fp_new _ _ _ _ _ _ _ _ Hf x Hxl).
    + right. exists L', l. split; [by eapply held_new|]. destruct Hf. split_and!; try done. intros Hty. by apply Hom.
    + intros [-> ->]%Hram. split; [|done]. intros E. by destruct (pkt_nonnull _ _ _ _ (fp_pkt _ _ _ _ _ _ _ _ Hf) E).
Qed.

(** C16. [pbuf_realloc] leaves a well-formed packet of [new_len] bytes that holds
    the beginning of the old one, and the buffers cut off are released; a packet
    that is not longer than [new_len] is left alone. *)
Theorem pbuf_realloc_prefix O cf s L hs p l new_len :
  held O s L hs → p ∈ all L → pkt (pbufs s) p l → 0 ≤ new_len →
  (∀ x, x ∈ l → x ∈ dom (lv_heap L) → ∀ n, heap_may_trim (heap s) x n) →
  wp (pbuf_realloc cf p new_len) (λ _ s',
    let n := Z.min new_len (total (pbufs s) l) in
    ∃ L' l', held O s' L' hs ∧ pkt (pbufs s') p l' ∧ l' `prefix_of` l ∧ total (pbufs s') l' = n ∧
      content (pbufs s') (bytes s') l' = take (Z.to_nat n) (content (pbufs s) (bytes s) l) ∧
      ∀ a, a ∉ l → pbufs s' a = pbufs s a ∧ (a ∈ all L → a ∈ all L')) s.
Proof.
  intros Hh Hp Hk Hn Hmay. pose proof (length_pkt_content (pbufs s) (bytes s) l (pk_len _ _ _ Hk)) as Elc.
  apply (realloc_held O cf s L hs p l new_len); [done..| |].
  - intros Hle. cbv zeta. rewrite Z.min_r by lia. exists L, l. split_and!; try done. symmetry. apply take_ge. lia.
  - intros Hlt s' L' l1 l2 q -> Hh' Hk' Et Ec Hother. cbv zeta. rewrite Z.min_l by lia. exists L', (l1 ++ [q]). split_and!; try done.
    exists l2. by rewrite <-app_assoc.
Qed.

(** C17. [pbuf_coalesce] answers a packet with the same bytes: the packet itself,
    as it was, exactly when it is one buffer already or the heap has no block
    for all of it ([stays]), and otherwise one new buffer, the old packet being
    released. *)
Theorem pbuf_coalesce_content O cf s L hs p l layer :
  held O s L (p :: hs) → pkt (pbufs s) p l → (∀ x, x ∈ l → owns L x) → positive (pbufs s) l → 0 ≤ layer ≤ PBUF_TRANSPORT →
  wp (pbuf_coalesce cf p layer) (λ q s', ∃ L' l', held O s' L' (q :: hs) ∧ pkt (pbufs s') q l' ∧
    content (pbufs s') (bytes s') l' = content (pbufs s) (bytes s) l ∧
    if stays s p layer l then q = p ∧ l' = l ∧ L' = L ∧ ∀ x, x ∈ all L → pbufs s' x = pbufs s x
    else l' = [q] ∧ q ∉ all L) s.
Proof.
  intros Hh Hk Hown Hpos Hl. apply (coalesce_run O cf s L hs p l layer); [done..| |].
  - intros s' -> Hs. exists L, l. destruct Hs as (Ho & Hp & Hb).
    assert (Hin : ∀ x, x ∈ l → pbufs s' x = pbufs s x) by (intros x Hx; by apply Hp, owns_all, Hown).
    split; [by eapply held_as_before|]. split; [eapply pkt_frame; [|done]; intros a Ha; by rewrite Hin|]. split; [|done].
    rewrite Hb. apply content_frame. intros a Ha. by rewrite Hin.
  - intros s' L' q -> Hq Hh' Hk' Ec. by exists L', [q].
Qed.

(** C18. What [pbuf_take_at] stores into a packet, [pbuf_copy_partial] reads
    back from it, over any division into buffers, and the rest of the packet
    keeps its bytes; bytes beyond the end of the packet are refused. *)
Theorem pbuf_take_copy_roundtrip s p l src dst n off :
  pkt (pbufs s) p l → apart (pbufs s) l → 0 < src → 0 < dst → 0 ≤ n < 65536 → 0 ≤ off < 65536 →
  src_apart (pbufs s) l src n → src_apart (pbufs s) l dst n →
  wp (r ← pbuf_take_at p src n off;
      if r =? ERR_OK then k ← pbuf_copy_partial p dst n off; mret (r, k) else mret (r, 0)) (λ '(r, k) s',
    if decide (off + n ≤ total (pbufs s) l ∧ off < total (pbufs s) l) then
      r = ERR_OK ∧ k = n ∧ mem_bytes (bytes s') dst (Z.to_nat n) = mem_bytes (bytes s) src (Z.to_nat n) ∧
      content (pbufs s') (bytes s') l = splice (content (pbufs s) (bytes s) l) off (mem_bytes (bytes s) src (Z.to_nat n)) ∧ pkt (pbufs s') p l
    else r = ERR_MEM ∧ k = 0 ∧ s' = s) s.
Proof.
  intros Hk Hap Hsrc Hdst Hn Hoff Hs Hd. set (w := mem_bytes (bytes s) src (Z.to_nat n)).
  assert (Hw : length w = Z.to_nat n) by apply length_mem_bytes.
  apply wp_bind, (take_at_run s p l src n off); [done..| |].
  - intros Hfail. apply wp_ret. rewrite decide_False by lia. done.
  - intros H2 H3 s1 (b & -> & Hb). fold w in Hb. change (ERR_OK =? ERR_OK) with true. cbv iota. apply wp_bind.
    assert (Ec : content (pbufs s) b l = splice (content (pbufs s) (bytes s) l) off w).
    { rewrite (content_ext _ (scatter (pbufs s) l off w (bytes s))) by (intros; apply Hb).
      apply content_scatter; [by eapply links_nodup, Hk|done|by apply Hk|lia|lia]. }
    pose proof (length_pkt_content (pbufs s) (bytes s) l (pk_len _ _ _ Hk)) as Elc.
    apply (copy_partial_run (with_bytes b s) p l dst n off); cbn [pbufs bytes with_bytes]; [done|unfold NULL; lia|lia|lia| |].
    { intros x a Hx Ha. by apply (Hd x a). }
    assert (Eout : take (Z.to_nat n) (drop (Z.to_nat off) (content (pbufs s) b l)) = w).
    { rewrite Ec. unfold splice. rewrite drop_app_length' by (rewrite length_take; lia). rewrite take_app_length' by lia. done. }
    rewrite Eout. intros s2 (b2 & -> & Hb2). apply wp_ret. rewrite decide_True by lia. cbn [pbufs bytes with_bytes].
    split; [done|]. split; [lia|]. split; [|split; [|done]].
    + transitivity (mem_bytes (mem_store b dst w) dst (length w)); [rewrite Hw; apply mem_bytes_ext; intros; apply Hb2|apply mem_bytes_store].
    + rewrite <-Ec. apply content_ext. intros x a Hx Ha. rewrite Hb2. apply mem_store_out. rewrite Hw.
      destruct (Z.lt_ge_cases a dst); [by left|]. right. destruct (Z.lt_ge_cases a (dst + n)); [|lia]. exfalso. by apply (Hd x a Hx).
Qed.

(** [pbuf_memfind] answers the first place, from the given offset on, where
    the packet holds the bytes looked for, also across buffers, and 0xFFFF when
    there is none. *)
Theorem pbuf_memfind_first s p l mem k start :
  pkt (pbufs s) p l → l ≠ [] → 0 ≤ start < 65536 → 0 ≤ k < 65536 → (∀ a, is_byte (bytes s a)) →
  wp (pbuf_memfind p mem k start) (λ r s', s' = s ∧ found (content (pbufs s) (bytes s) l) (mem_bytes (bytes s) mem (Z.to_nat k)) start r) s.
Proof. intros Hk Hne Hs Hn Hb. apply (memfind_run s p l mem k start); done. Qed.
End theorems.

(** ** Packets in a memory *)

(** The pools of [demo_pools] lie below the heap. *)
Definition demo_ram : RamHeap := {| ram_heap := 1048576; ram_heap_ok := ltac:(split; [done|vm_compute; reflexivity]) |}.
#[local] Instance demo_heaps : Heaps lheap := @lheap_ok demo_ram.
#[local] Instance demo_pool_ops : Pools memp := @memp_pools_ok demo_pools demo_pools_ok.
Definition ram0 : lheap := match mem_init 1048576 blank with Ret (_, s) => s | _ => blank end.
Lemma ram0_rep : heap_rep ram0 [Blk 0 127988 true].
Proof.
  assert (K : wp (mem_init 1048576) (λ _ s', heap_rep s' [Blk 0 (MEM_SIZE_ALIGNED - 12) true]) blank)
    by (apply mem_init_run; [done|vm_compute; reflexivity|done]).
  exact K.
Qed.
Lemma ram0_live : heap_live ram0 ∅.
Proof.
  split; [vm_compute; reflexivity|]. exists [Blk 0 127988 true]. split; [exact ram0_rep|]. intros a k. rewrite lookup_empty. split; [done|].
  intros (b & ->%list_elem_of_singleton & E & _). done.
Qed.
Lemma pools0_live t : pool_type t → pool_live demo_memp t ∅.
Proof.
  intros Ht. split; [done|]. exists (λ t, rev (@elems demo_pools t)).
  split; [exact (wp_elim _ _ _ _ _ (memp_init_spec demo_pools_ok demo_memp0 (λ _ _, eq_refl)) demo_memp_run)|].
  intros x. rewrite elem_of_rev. set_solver.
Qed.
Lemma demo_size t : pool_size (M := memp) t = 2048.
Proof. reflexivity. Qed.
#[local] Instance demo_memory : PbufMemory lheap memp.
Proof.
  split; rewrite ?demo_size; [|done|done]. intros m t L x (Ht & free & _ & HL) Hx. left. apply HL in Hx as [Hx _].
  apply elem_of_elems in Hx as (k & Hk & ->). change (heap_lo (H := lheap)) with 1048576. change (@num demo_pools t) with 6%nat in Hk.
  unfold elem. change (desc_size _) with 2048. change (desc_base _) with (65536 * (t + 1)). unfold pool_type, MEMP_MAX in Ht.
  rewrite demo_size. destruct (align_spec (65536 * (t + 1))); lia.
Qed.

Definition no_pbuf : pbuf := MkPbuf 0 0 0 0 0 0 0 0.
Definition pb0 : pstate lheap memp := MkPstate (λ _, no_pbuf) (λ a, a mod 256) ram0 demo_memp 0.
Definition cf0 : Z → comp (pstate lheap memp) unit := λ _, mret tt.
Definition after {A} (m : comp (pstate lheap memp) A) (s : pstate lheap memp) : pstate lheap memp := match m s with Ret (_, s') => s' | _ => s end.
Definition answer {A} (m : comp (pstate lheap memp) A) (s : pstate lheap memp) : option A := match m s with Ret (r, _) => Some r | _ => None end.
Lemma answer_after {A} (m : comp (pstate lheap memp) A) s r : answer m s = Some r → m s = Ret (r, after m s).
Proof. unfold answer, after. destruct (m s) as [[a s']| |]; [by intros [= ->]|done|done]. Qed.

Lemma pb0_owned : owned ∅ pb0 (Lv ∅ ∅ ∅).
Proof.
  split; cbn [pools heap pbufs pb0 lv_pool lv_ref lv_heap].
  - by apply pools0_live.
  - by apply pools0_live.
  - rewrite map_empty_union. exact ram0_live.
  - apply map_disjoint_empty_l.
  - set_solver.
  - set_solver.
  - by intros x n ?%lookup_empty_Some.
Qed.

(** Deciding well-formedness of a given chain. *)
Fixpoint chain_b (N : Z → Z) (a : Z) (l : list Z) : bool :=
  match l with [] => a =? NULL | x :: t => (a =? x) && negb (x =? NULL) && chain_b N (N x) t end.
Fixpoint totals_b (m : Z → pbuf) (l : list Z) : bool :=
  match l with [] => true | x :: t => (tot_len (m x) =? total m (x :: t)) && totals_b m t end.
Definition pkt_b (m : Z → pbuf) (p : Z) (l : list Z) : bool :=
  chain_b (λ x, next (m x)) p l && forallb (λ x, 0 <? len (m x)) l && totals_b m l && (total m l <? 65536) && (Z.of_nat (length l) <? 65536).
Lemma pkt_b_ok m p l : pkt_b m p l = true → pkt m p l ∧ positive m l.
Proof.
  unfold pkt_b. intros ((((K1 & K2)%andb_prop & K3)%andb_prop & K4)%andb_prop & K5)%andb_prop.
  assert (Hpos : positive m l) by (intros x Hx; apply Z.ltb_lt; rewrite forallb_forall in K2; by apply K2, list_elem_of_In).
  split; [|done]. split; [| | |by apply Z.ltb_lt|by apply Z.ltb_lt].
  - clear -K1. unfold links, chain. revert p K1. induction l as [|x l IH]; intros p K; cbn [chain_b lseg] in *; [by apply Z.eqb_eq|].
    apply andb_prop in K as [[K1 K2]%andb_prop K3]. apply Z.eqb_eq in K1. apply negb_true_iff, Z.eqb_neq in K2. split; [done|]. split; [done|]. by apply IH.
  - intros x Hx. specialize (Hpos x Hx). lia.
  - clear -K3. induction l as [|x l IH]; cbn [totals_b totals] in *; [done|]. apply andb_prop in K3 as [K1 K2]. apply Z.eqb_eq in K1. split; [done|]. by apply IH.
Qed.

(** A packet of 2000 bytes in two buffers of the pool, [A] and [B]; the client
    keeps [B] only, appends a buffer [C] of the heap to it, puts the two into
    one buffer [D], and releases that. *)
Definition A := 665600.
Definition B := 663552.
Definition C := 1048588.
Definition D := 1048720.
Definition run (op : pbuf_op) := run_pbuf_op (H := lheap) (M := memp) cf0 op.
Definition pb1 := after (run (OpAlloc PBUF_IP 2000 PBUF_POOL)) pb0.
Definition pb2 := after (run (OpRef B)) pb1.
Definition pb3 := after (run (OpFree A)) pb2.
Definition pb4 := after (run (OpAlloc PBUF_TRANSPORT 40 PBUF_RAM)) pb3.
Definition pb5 := after (run (OpCat B C)) pb4.
Definition pb6 := after (run (OpCoalesce B PBUF_RAW)) pb5.
Definition pb7 := after (run (OpFree D)) pb6.

(** Each of the packets that the operations start from is well formed. *)
Lemma demo_pkts :
  pkt (pbufs pb1) A [A; B] ∧ pkt (pbufs pb4) B [B] ∧ pkt (pbufs pb4) C [C] ∧ pkt (pbufs pb5) B [B; C] ∧ positive (pbufs pb5) [B; C].
Proof.
  assert (K : ∀ s p l, pkt_b (pbufs s) p l = true → pkt (pbufs (H := lheap) (M := memp) s) p l ∧ positive (pbufs s) l) by (intros s p l; apply pkt_b_ok).
  split; [|split; [|split; [|apply (K pb5 B)]]]; [eapply proj1, K; vm_compute; reflexivity..|vm_compute; reflexivity].
Qed.
Lemma demo_kinds x : x ∈ [B; C] → pbuf_get_allocsrc (pbufs pb5 x) ≠ PBUF_TYPE_ALLOC_SRC_MASK_STD_MEMP_PBUF.
Proof.
  assert (K : forallb (λ x, negb (pbuf_get_allocsrc (pbufs pb5 x) =? PBUF_TYPE_ALLOC_SRC_MASK_STD_MEMP_PBUF)) [B; C] = true) by (vm_compute; reflexivity).
  rewrite forallb_forall in K. intros Hx E. specialize (K x (proj1 (list_elem_of_In _ _) Hx)). rewrite E in K. exact (Bool.diff_false_true K).
Qed.
Lemma demo_step op s hs r s' hs' : allowed s hs op → answer (run op) s = Some r → s' = after (run op) s → hs' = holds op r hs →
  client_step cf0 (s, hs) (s', hs').
Proof. intros Ha E -> ->. apply (step_op cf0 s hs op r); [done|]. by apply answer_after. Qed.
Ltac here := first [apply list_elem_of_here | apply list_elem_of_further; here].
Lemma demo_step1 : client_step cf0 (pb0, []) (pb1, [A]).
Proof.
  apply (demo_step (OpAlloc PBUF_IP 2000 PBUF_POOL) pb0 [] A); [|vm_compute; reflexivity|reflexivity|reflexivity].
  split; [lia|]. split; [by vm_compute|by right; right; left].
Qed.
Lemma demo_steps5 : rtc (client_step cf0) (pb0, []) (pb5, [B]).
Proof.
  destruct demo_pkts as (K1 & K2 & K3 & K4 & K5).
  apply (rtc_l _ _ (pb1, [A]) _ demo_step1).
  apply (rtc_l _ _ (pb2, [B; A])).
  { apply (demo_step (OpRef B) pb1 [A] 0); [|vm_compute; reflexivity|reflexivity|reflexivity].
    split; [|vm_compute; reflexivity]. exists A, [A; B]. split; [here|]. split; [apply K1|here]. }
  apply (rtc_l _ _ (pb3, [B])).
  { apply (demo_step (OpFree A) pb2 [B; A] 1); [|vm_compute; reflexivity|reflexivity|reflexivity]. cbn [allowed]. here. }
  apply (rtc_l _ _ (pb4, [C; B])).
  { apply (demo_step (OpAlloc PBUF_TRANSPORT 40 PBUF_RAM) pb3 [B] C); [|vm_compute; reflexivity|reflexivity|reflexivity].
    split; [lia|]. split; [by vm_compute|by right; right; right]. }
  apply (rtc_l _ _ (pb5, [B])).
  { apply (demo_step (OpCat B C) pb4 [C; B] 0); [|vm_compute; reflexivity|reflexivity|reflexivity].
    split; [exists B, [B]; split; [here|]; split; [apply K2|here]|]. split; [here|]. exists [B], [C].
    split; [done|]. split; [done|]. split; [apply (bool_decide_unpack _); vm_compute; exact I|]. vm_compute; reflexivity. }
  apply rtc_refl.
Qed.
Lemma demo_steps : rtc (client_step cf0) (pb0, []) (pb7, []).
Proof.
  destruct demo_pkts as (K1 & K2 & K3 & K4 & K5).
  apply (transitivity (R := rtc (client_step cf0)) (y := (pb5, [B])) demo_steps5). apply (rtc_l _ _ (pb6, [D])).
  { apply (demo_step (OpCoalesce B PBUF_RAW) pb5 [B] D); [|vm_compute; reflexivity|reflexivity|reflexivity].
    split; [here|]. split; [by vm_compute|]. exists [B; C]. split; [done|]. split; [done|].
    exact demo_kinds. }
  apply (rtc_l _ _ (pb7, [])); [|apply rtc_refl].
  apply (demo_step (OpFree D) pb6 [D] 1); [|vm_compute; reflexivity|reflexivity|reflexivity]. cbn [allowed]. here.
Qed.
Lemma pbuf_references_exact_witness :
  ∃ L, owned ∅ pb7 L ∧ (∀ p, reach pb7 [] p → p ∈ all L) ∧
    (∀ x, x ∈ all L → ref (pbufs pb7 x) = hcount x [] + preds (nexts pb7) (all L) x) ∧
    ([] = @nil Z → all L = ∅) ∧
    ∀ op, allowed pb7 [] op → ∃ r s', run_pbuf_op cf0 op pb7 = Ret (r, s').
Proof. exact (pbuf_references_exact ∅ cf0 pb0 pb7 [] pb0_owned demo_steps). Defined.

Lemma pbuf_alloc_all_or_nothing_witness :
  wp (pbuf_alloc cf0 PBUF_IP 2000 PBUF_POOL) (λ p s', bytes s' = bytes pb0 ∧ (∀ x, x ∈ all (Lv ∅ ∅ ∅) → pbufs s' x = pbufs pb0 x) ∧
    (p = NULL ∧ held ∅ s' (Lv ∅ ∅ ∅) [] ∨
     ∃ L' l, held ∅ s' L' [p] ∧ all L' = list_to_set l ∪ all (Lv ∅ ∅ ∅) ∧ (∀ x, x ∈ l → x ∉ all (Lv ∅ ∅ ∅)) ∧
       pkt (pbufs s') p l ∧ total (pbufs s') l = 2000 ∧
       (PBUF_POOL = PBUF_POOL ∨ PBUF_POOL = PBUF_RAM → p + SIZEOF_STRUCT_PBUF + PBUF_IP ≤ payload (pbufs s' p))) ∧
    (PBUF_POOL = PBUF_RAM → p = NULL ↔ heap_serves (heap pb0) (ram_size PBUF_IP 2000) = false)) pb0.
Proof.
  apply (pbuf_alloc_all_or_nothing ∅ cf0 pb0 (Lv ∅ ∅ ∅) [] PBUF_IP 2000 PBUF_POOL (held_none _ _ pb0_owned)).
  - lia.
  - by vm_compute.
  - by right; right; left.
Defined.

Lemma demo_held1 : ∃ L, held ∅ pb1 L [A].
Proof. exact (held_reachable ∅ cf0 pb0 _ [] pb1 [A] (held_none _ _ pb0_owned) (rtc_once _ _ demo_step1)). Qed.
Lemma demo_held5 : ∃ L, held ∅ pb5 L [B].
Proof. exact (held_reachable ∅ cf0 pb0 _ [] pb5 [B] (held_none _ _ pb0_owned) demo_steps5). Qed.
(** The two buffers of the first packet: where they come from and where their data are. *)
Lemma demo_buffers x : x ∈ [A; B] → pbuf_get_allocsrc (pbufs pb1 x) = PBUF_TYPE_ALLOC_SRC_MASK_STD_MEMP_PBUF_POOL ∧
  payload (pbufs pb1 x) + len (pbufs pb1 x) ≤ 1000000.
Proof.
  assert (K : forallb (λ x, (pbuf_get_allocsrc (pbufs pb1 x) =? PBUF_TYPE_ALLOC_SRC_MASK_STD_MEMP_PBUF_POOL) &&
    (payload (pbufs pb1 x) + len (pbufs pb1 x) <=? 1000000)) [A; B] = true) by (vm_compute; reflexivity).
  rewrite forallb_forall in K. intros Hx. destruct (andb_prop _ _ (K x (proj1 (list_elem_of_In _ _) Hx))) as [K1 K2].
  split; [exact (proj1 (Z.eqb_eq _ _) K1)|exact (proj1 (Z.leb_le _ _) K2)].
Qed.
Lemma pbuf_realloc_prefix_witness :
  ∃ L, wp (pbuf_realloc cf0 A 1600) (λ _ s',
    let n := Z.min 1600 (total (pbufs pb1) [A; B]) in
    ∃ L' l', held ∅ s' L' [A] ∧ pkt (pbufs s') A l' ∧ l' `prefix_of` [A; B] ∧ total (pbufs s') l' = n ∧
      content (pbufs s') (bytes s') l' = take (Z.to_nat n) (content (pbufs pb1) (bytes pb1) [A; B]) ∧
      ∀ a, a ∉ [A; B] → pbufs s' a = pbufs pb1 a ∧ (a ∈ all L → a ∈ all L')) pb1.
Proof.
  destruct demo_held1 as [L Hh]. exists L. apply (pbuf_realloc_prefix ∅ cf0 pb1 L [A] A [A; B] 1600 Hh).
  - apply (held_handle _ _ _ _ _ Hh). here.
  - apply demo_pkts.
  - lia.
  - intros x Hx [k Hk]%elem_of_dom n. exfalso. destruct (ow_kheap _ _ _ (hd_owned _ _ _ _ Hh) x k Hk) as [[E _] _].
    rewrite (proj1 (demo_buffers x Hx)) in E. clear -E. discriminate E.
Defined.

Lemma pbuf_coalesce_content_witness :
  stays pb5 B PBUF_RAW [B; C] = false ∧ ∃ L,
  wp (pbuf_coalesce cf0 B PBUF_RAW) (λ q s', ∃ L' l', held ∅ s' L' [q] ∧ pkt (pbufs s') q l' ∧
    content (pbufs s') (bytes s') l' = content (pbufs pb5) (bytes pb5) [B; C] ∧
    if stays pb5 B PBUF_RAW [B; C] then q = B ∧ l' = [B; C] ∧ L' = L ∧ ∀ x, x ∈ all L → pbufs s' x = pbufs pb5 x
    else l' = [q] ∧ q ∉ all L) pb5.
Proof.
  split; [vm_compute; reflexivity|]. destruct demo_held5 as [L Hh]. exists L. destruct demo_pkts as (_ & _ & _ & K4 & K5).
  apply (pbuf_coalesce_content ∅ cf0 pb5 L [] B [B; C] PBUF_RAW Hh K4); [|exact K5|by vm_compute].
  intros x Hx. apply (not_ref_owns ∅ pb5 L x (hd_owned _ _ _ _ Hh)); [|exact (demo_kinds x Hx)].
  apply (held_chain ∅ pb5 L [B] B [B; C] Hh); [apply (held_handle _ _ _ _ _ Hh); here|apply K4|done].
Defined.

Lemma pbuf_take_copy_roundtrip_witness :
  wp (r ← pbuf_take_at A 3000000 100 1450;
      if r =? ERR_OK then k ← pbuf_copy_partial A 4000000 100 1450; mret (r, k) else mret (r, 0)) (λ '(r, k) s',
    if decide (1450 + 100 ≤ total (pbufs pb1) [A; B] ∧ 1450 < total (pbufs pb1) [A; B]) then
      r = ERR_OK ∧ k = 100 ∧ mem_bytes (bytes s') 4000000 (Z.to_nat 100) = mem_bytes (bytes pb1) 3000000 (Z.to_nat 100) ∧
      content (pbufs s') (bytes s') [A; B] = splice (content (pbufs pb1) (bytes pb1) [A; B]) 1450 (mem_bytes (bytes pb1) 3000000 (Z.to_nat 100)) ∧
      pkt (pbufs s') A [A; B]
    else r = ERR_MEM ∧ k = 0 ∧ s' = pb1) pb1.
Proof.
  destruct demo_held1 as [L Hh]. destruct demo_pkts as (K1 & _).
  assert (Hfar : ∀ a n, 1000000 ≤ a → src_apart (pbufs pb1) [A; B] a n).
  { intros a n Ha x z Hx Hz Hin. destruct (demo_buffers x Hx) as [_ Hb]. destruct Hin as [_ Hin].
    apply (Z.lt_irrefl z), (Z.lt_le_trans _ _ _ Hin), (Z.le_trans _ _ _ Hb), (Z.le_trans _ _ _ Ha). apply Hz. }
  apply (pbuf_take_copy_roundtrip pb1 A [A; B] 3000000 4000000 100 1450 K1); [|lia|lia|lia|lia|by apply Hfar|by apply Hfar].
  apply (owned_apart_list ∅ pb1 L _ (hd_owned _ _ _ _ Hh)). intros x Hx. apply (not_ref_owns ∅ pb1 L x (hd_owned _ _ _ _ Hh)).
  - apply (held_chain ∅ pb1 L [A] A [A; B] Hh); [apply (held_handle _ _ _ _ _ Hh); here|apply K1|done].
  - rewrite (proj1 (demo_buffers x Hx)). discriminate.
Defined.

Lemma pbuf_memfind_first_witness :
  wp (pbuf_memfind A 3000000 40 10) (λ r s', s' = pb1 ∧
    found (content (pbufs pb1) (bytes pb1) [A; B]) (mem_bytes (bytes pb1) 3000000 (Z.to_nat 40)) 10 r) pb1.
Proof.
  apply (pbuf_memfind_first pb1 A [A; B] 3000000 40 10); [apply demo_pkts|done|lia|lia|].
  assert (E : bytes pb1 = bytes pb0) by (vm_compute; reflexivity). rewrite E. intros a. apply Z.mod_pos_bound. lia.
Defined.
