(* ===== verification/LwipEtharp.v ===== *)
(** * LwipEtharp: address resolution (core/ipv4/etharp.c, netif/ethernet.c)

    The ARP table maps IPv4 addresses to Ethernet addresses and keeps, for each
    address being asked for, one packet that waits for the answer.  The state
    holds the packet buffers of LwipPbuf, the table and the interfaces.  The
    driver's [linkoutput] is an operation of the class [Link]; the protocols
    that look into ARP packets ([autoip_arp_reply], [dhcp_arp_reply]) are
    arguments.  Ethernet addresses are passed by value: no buffer that is
    written meanwhile holds one that is read.  One packet waits for an entry
    ([ARP_QUEUEING] is 0), entries are matched with their interface, and there
    are no static entries; the counters of lwip_stats are left out. *)

From Stdlib Require Import ZArith Lia.
From stdpp Require Import base numbers list option functions gmap sets fin_sets.
From S2P Require Import Prelude LwipBase LwipAddr LwipPbuf LwipPbufData.
Open Scope Z_scope.

Definition ARP_TABLE_SIZE : Z := 10.
Definition ARP_MAXAGE : Z := 300.
Definition ARP_AGE_REREQUEST_USED_UNICAST : Z := ARP_MAXAGE - 30.
Definition ARP_AGE_REREQUEST_USED_BROADCAST : Z := ARP_MAXAGE - 15.
Definition ARP_MAXPENDING : Z := 5.

(** [enum etharp_state]; the code compares states as numbers. *)
Definition ETHARP_STATE_EMPTY : Z := 0.
Definition ETHARP_STATE_PENDING : Z := 1.
Definition ETHARP_STATE_STABLE : Z := 2.
Definition ETHARP_STATE_STABLE_REREQUESTING_1 : Z := 3.
Definition ETHARP_STATE_STABLE_REREQUESTING_2 : Z := 4.

Definition ETHARP_FLAG_TRY_HARD : Z := 1.
Definition ETHARP_FLAG_FIND_ONLY : Z := 2.

Definition ETH_HWADDR_LEN : Z := 6.
Definition SIZEOF_ETH_HDR : Z := 14.
Definition SIZEOF_ETHARP_HDR : Z := 28.
Definition ETHTYPE_IP : Z := 0x0800.
Definition ETHTYPE_ARP : Z := 0x0806.
Definition LWIP_IANA_HWTYPE_ETHERNET : Z := 1.
Definition ARP_REQUEST : Z := 1.
Definition ARP_REPLY : Z := 2.
Definition ERR_BUF : Z := -2.
Definition ERR_RTE : Z := -4.
Definition PBUF_FLAG_LLBCAST : Z := 0x08.
Definition PBUF_FLAG_LLMCAST : Z := 0x10.

Definition ethbroadcast : list Z := [0xff; 0xff; 0xff; 0xff; 0xff; 0xff].
Definition ethzero : list Z := [0; 0; 0; 0; 0; 0].

Definition with_flags (v : Z) (b : pbuf) : pbuf :=
  MkPbuf (next b) (payload b) (tot_len b) (len b) (type_internal b) (u8 v) (ref b) (if_idx b).
Definition with_if_idx (v : Z) (b : pbuf) : pbuf :=
  MkPbuf (next b) (payload b) (tot_len b) (len b) (type_internal b) (flags b) (ref b) (u8 v).

(** [struct etharp_entry]. *)
Record etharp_entry := MkEntry {
  q : Z;
  ipaddr : Z;
  netif_of : Z;
  ethaddr : list Z;
  ctime : Z;
  state : Z
}.
Definition with_q (v : Z) (e : etharp_entry) : etharp_entry :=
  MkEntry v (ipaddr e) (netif_of e) (ethaddr e) (ctime e) (state e).
Definition with_ipaddr (v : Z) (e : etharp_entry) : etharp_entry :=
  MkEntry (q e) v (netif_of e) (ethaddr e) (ctime e) (state e).
Definition with_netif (v : Z) (e : etharp_entry) : etharp_entry :=
  MkEntry (q e) (ipaddr e) v (ethaddr e) (ctime e) (state e).
Definition with_ethaddr (v : list Z) (e : etharp_entry) : etharp_entry :=
  MkEntry (q e) (ipaddr e) (netif_of e) v (ctime e) (state e).
Definition with_ctime (v : Z) (e : etharp_entry) : etharp_entry :=
  MkEntry (q e) (ipaddr e) (netif_of e) (ethaddr e) (u16 v) (state e).
Definition with_state (v : Z) (e : etharp_entry) : etharp_entry :=
  MkEntry (q e) (ipaddr e) (netif_of e) (ethaddr e) (ctime e) v.

(** Packets, the ARP table, the interfaces and the state of the drivers. *)
Record net (H M D : Type) := MkNet {
  packets : pstate H M;
  arp_table : list etharp_entry;
  etharp_cached_entry : Z;
  netifs : Z → netif;
  device : D
}.
Arguments MkNet {H M D}.
Arguments packets {H M D}.
Arguments arp_table {H M D}.
Arguments etharp_cached_entry {H M D}.
Arguments netifs {H M D}.
Arguments device {H M D}.

Definition with_packets {H M D} (p : pstate H M) (s : net H M D) : net H M D :=
  MkNet p (arp_table s) (etharp_cached_entry s) (netifs s) (device s).
Definition with_table {H M D} (t : list etharp_entry) (s : net H M D) : net H M D :=
  MkNet (packets s) t (etharp_cached_entry s) (netifs s) (device s).
Definition with_cached {H M D} (i : Z) (s : net H M D) : net H M D :=
  MkNet (packets s) (arp_table s) i (netifs s) (device s).
Definition with_device {H M D} (d : D) (s : net H M D) : net H M D :=
  MkNet (packets s) (arp_table s) (etharp_cached_entry s) (netifs s) d.

(** What [netif->linkoutput] promises (lwip/netif.h): it outputs the packet as
    it is, and keeps neither it nor a reference to it.  [wire] is what the
    drivers were given, with the interface. *)
Class Link (H M D : Type) := {
  linkoutput : Z → Z → comp (net H M D) Z;
  wire : D → list (Z * list Z);
  linkoutput_ok : ∀ n p l s, links (pbufs (packets s)) p l → p ≠ NULL →
    wp (linkoutput n p) (λ _ s', ∃ d c, s' = with_device d s ∧ wire d = wire (device s) ++ [(n, c)] ∧
      (pkt (pbufs (packets s)) p l → c = content (pbufs (packets s)) (bytes (packets s)) l)) s
}.

Section etharp.
Context {H M D : Type} `{Heaps H} `{Pools M} `{Link H M D}.
Abbreviation N := (net H M D).
Context (custom_free_function : Z → comp (pstate H M) unit).
(** The protocols that look into the ARP packet at an address, and the answers
    for an address. *)
Context (autoip_arp_reply dhcp_arp_reply : Z → Z → comp N unit).

Definition in_packets {A} : comp (pstate H M) A → comp N A := zoom packets with_packets.
Definition store (a : Z) (l : list Z) : comp N unit :=
  in_packets (modify (λ s, MkPstate (pbufs s) (mem_store (bytes s) a l) (heap s) (pools s) (pbuf_free_ooseq_pending s))).
Definition load (a : Z) (n : nat) : comp N (list Z) := gets (λ s, mem_bytes (bytes (packets s)) a n).
Definition store16 (a v : Z) : comp N unit := store a (le_enc 2 v).
Definition load16 (a : Z) : comp N Z := l ← load a 2; mret (le_dec l).

(** [arp_table[i]]. *)
Definition entry (i : Z) : comp N etharp_entry := t ← gets arp_table; must (znth t i).
Definition set_entry (i : Z) (f : etharp_entry → etharp_entry) : comp N unit :=
  t ← gets arp_table;
  e ← must (znth t i);
  t ← must (zset t i (f e));
  modify (with_table t).
(** [ETHARP_SET_ADDRHINT]. *)
Definition set_addrhint (i : Z) : comp N unit := modify (with_cached i).

(** ** Ethernet frames *)

Definition ethernet_output (netif p : Z) (src dst : list Z) (eth_type : Z) : comp N Z :=
  let eth_type_be := lwip_htons eth_type in
  failed ← in_packets (pbuf_add_header p SIZEOF_ETH_HDR);
  if negb (failed =? 0) then mret ERR_BUF
  else
    b ← in_packets (pb p);
    let ethhdr := payload b in
    store16 (ethhdr + 12) eth_type_be;;
    store ethhdr dst;;
    store (ethhdr + 6) src;;
    n ← gets (λ s, netifs s netif);
    LWIP_ASSERT (hwaddr_len n =? ETH_HWADDR_LEN);;
    linkoutput netif p.

(** ** Requests *)

Definition etharp_raw (netif : Z) (ethsrc_addr ethdst_addr hwsrc_addr : list Z) (ipsrc_addr : Z)
    (hwdst_addr : list Z) (ipdst_addr opcode : Z) : comp N Z :=
  LWIP_ASSERT (negb (netif =? NULL));;
  p ← in_packets (pbuf_alloc custom_free_function PBUF_LINK SIZEOF_ETHARP_HDR PBUF_RAM);
  if p =? NULL then mret ERR_MEM
  else
    b ← in_packets (pb p);
    LWIP_ASSERT (SIZEOF_ETHARP_HDR <=? len b);;
    let hdr := payload b in
    store16 (hdr + 6) (lwip_htons opcode);;
    n ← gets (λ s, netifs s netif);
    LWIP_ASSERT (hwaddr_len n =? ETH_HWADDR_LEN);;
    store (hdr + 8) hwsrc_addr;;
    store (hdr + 18) hwdst_addr;;
    store (hdr + 14) (le_enc 4 ipsrc_addr);;
    store (hdr + 24) (le_enc 4 ipdst_addr);;
    store16 hdr (lwip_htons LWIP_IANA_HWTYPE_ETHERNET);;
    store16 (hdr + 2) (lwip_htons ETHTYPE_IP);;
    store (hdr + 4) [ETH_HWADDR_LEN];;
    store (hdr + 5) [4];;
    _ ← ethernet_output netif p ethsrc_addr (if ip4_addr_islinklocal ipsrc_addr then ethbroadcast else ethdst_addr) ETHTYPE_ARP;
    _ ← in_packets (pbuf_free custom_free_function p);
    mret ERR_OK.
Definition etharp_request_dst (netif ipaddr : Z) (hw_dst_addr : list Z) : comp N Z :=
  n ← gets (λ s, netifs s netif);
  etharp_raw netif (hwaddr n) hw_dst_addr (hwaddr n) (ip_addr n) ethzero ipaddr ARP_REQUEST.
Definition etharp_request (netif ipaddr : Z) : comp N Z := etharp_request_dst netif ipaddr ethbroadcast.

(** ** The table *)

Definition etharp_free_entry (i : Z) : comp N unit :=
  e ← entry i;
  (if negb (q e =? NULL) then
     _ ← in_packets (pbuf_free custom_free_function (q e));
     set_entry i (with_q NULL)
   else mret tt);;
  set_entry i (with_state ETHARP_STATE_EMPTY).

Definition etharp_tmr : comp N unit :=
  for_each 0 ARP_TABLE_SIZE (λ i,
    e ← entry i;
    if negb (state e =? ETHARP_STATE_EMPTY) then
      set_entry i (λ e, with_ctime (ctime e + 1) e);;
      e ← entry i;
      if (ARP_MAXAGE <=? ctime e) || ((state e =? ETHARP_STATE_PENDING) && (ARP_MAXPENDING <=? ctime e)) then etharp_free_entry i
      else if state e =? ETHARP_STATE_STABLE_REREQUESTING_1 then set_entry i (with_state ETHARP_STATE_STABLE_REREQUESTING_2)
      else if state e =? ETHARP_STATE_STABLE_REREQUESTING_2 then set_entry i (with_state ETHARP_STATE_STABLE)
      else if state e =? ETHARP_STATE_PENDING then _ ← etharp_request (netif_of e) (ipaddr e); mret tt
      else mret tt
    else mret tt).

(** The candidates for recycling, with the ages of those that are in use. *)
Record candidates := MkCandidates {
  old_pending : Z;
  old_stable : Z;
  empty : Z;
  old_queue : Z;
  age_queue : Z;
  age_pending : Z;
  age_stable : Z
}.
Definition no_candidates : candidates := MkCandidates ARP_TABLE_SIZE ARP_TABLE_SIZE ARP_TABLE_SIZE ARP_TABLE_SIZE 0 0 0.
Definition found_empty (i : Z) (c : candidates) : candidates :=
  MkCandidates (old_pending c) (old_stable c) i (old_queue c) (age_queue c) (age_pending c) (age_stable c).
(** Entry [e] at [i], which is in use and does not match, is remembered if it is
    the oldest of its kind. *)
Definition remember (i : Z) (e : etharp_entry) (c : candidates) : candidates :=
  if state e =? ETHARP_STATE_PENDING then
    if negb (q e =? NULL) then
      if age_queue c <=? ctime e
      then MkCandidates (old_pending c) (old_stable c) (empty c) i (ctime e) (age_pending c) (age_stable c) else c
    else
      if age_pending c <=? ctime e
      then MkCandidates i (old_stable c) (empty c) (old_queue c) (age_queue c) (ctime e) (age_stable c) else c
  else if ETHARP_STATE_STABLE <=? state e then
    if age_stable c <=? ctime e
    then MkCandidates (old_pending c) i (empty c) (old_queue c) (age_queue c) (age_pending c) (ctime e) else c
  else c.

(** Does the entry stand for address [ip], if there is one, on the interface? *)
Definition matches (ip : option Z) (netif : Z) (e : etharp_entry) : bool :=
  match ip with
  | Some a => (a =? ipaddr e) && ((netif =? NULL) || (netif =? netif_of e))
  | None => false
  end.
(** The sweep over the table: the entry that matches, or the candidates. *)
Definition find_sweep (ip : option Z) (netif : Z) : comp N (Z + candidates) :=
  loop (λ '(i, c),
    if i <? ARP_TABLE_SIZE then
      e ← entry i;
      if (empty c =? ARP_TABLE_SIZE) && (state e =? ETHARP_STATE_EMPTY) then mret (inl (i + 1, found_empty i c))
      else if negb (state e =? ETHARP_STATE_EMPTY) then
        LWIP_ASSERT ((state e =? ETHARP_STATE_PENDING) || (ETHARP_STATE_STABLE <=? state e));;
        if matches ip netif e then mret (inr (inl i)) else mret (inl (i + 1, remember i e c))
      else mret (inl (i + 1, c))
    else mret (inr (inr c))) (0, no_candidates).
(** Which entry to use when none matches; one in use is released. *)
Definition select_entry (c : candidates) : comp N (option Z) :=
  if empty c <? ARP_TABLE_SIZE then mret (Some (empty c))
  else
    i ← (if old_stable c <? ARP_TABLE_SIZE then
           e ← entry (old_stable c);
           LWIP_ASSERT (q e =? NULL);;
           mret (Some (old_stable c))
         else if old_pending c <? ARP_TABLE_SIZE then mret (Some (old_pending c))
         else if old_queue c <? ARP_TABLE_SIZE then mret (Some (old_queue c))
         else mret None);
    match i with
    | Some i => LWIP_ASSERT (i <? ARP_TABLE_SIZE);; etharp_free_entry i;; mret (Some i)
    | None => mret None
    end.
Definition etharp_find_entry (ip : option Z) (flags netif : Z) : comp N Z :=
  r ← find_sweep ip netif;
  match r with
  | inl i => mret i
  | inr c =>
      if negb (Z.land flags ETHARP_FLAG_FIND_ONLY =? 0) ||
         ((empty c =? ARP_TABLE_SIZE) && (Z.land flags ETHARP_FLAG_TRY_HARD =? 0)) then mret ERR_MEM
      else
        i ← select_entry c;
        match i with
        | None => mret ERR_MEM
        | Some i =>
            LWIP_ASSERT (i <? ARP_TABLE_SIZE);;
            e ← entry i;
            LWIP_ASSERT (state e =? ETHARP_STATE_EMPTY);;
            (match ip with Some a => set_entry i (with_ipaddr a) | None => mret tt end);;
            set_entry i (with_ctime 0);;
            set_entry i (with_netif netif);;
            mret i
        end
  end.

Definition etharp_update_arp_entry (netif ip : Z) (eth : list Z) (flags : Z) : comp N Z :=
  n ← gets (λ s, netifs s netif);
  LWIP_ASSERT (hwaddr_len n =? ETH_HWADDR_LEN);;
  if ip4_addr_isany ip || ip4_addr_isbroadcast_u32 ip n || ip4_addr_ismulticast ip then mret ERR_ARG
  else
    i ← etharp_find_entry (Some ip) flags netif;
    if i <? 0 then mret i
    else
      set_entry i (with_state ETHARP_STATE_STABLE);;
      set_entry i (with_netif netif);;
      set_entry i (with_ethaddr eth);;
      set_entry i (with_ctime 0);;
      e ← entry i;
      (if negb (q e =? NULL) then
         let p := q e in
         set_entry i (with_q NULL);;
         _ ← ethernet_output netif p (hwaddr n) eth ETHTYPE_IP;
         _ ← in_packets (pbuf_free custom_free_function p);
         mret tt
       else mret tt);;
      mret ERR_OK.

Definition etharp_cleanup_netif (netif : Z) : comp N unit :=
  for_each 0 ARP_TABLE_SIZE (λ i,
    e ← entry i;
    if negb (state e =? ETHARP_STATE_EMPTY) && (netif_of e =? netif) then etharp_free_entry i else mret tt).

(** The index found with the two addresses the entry holds. *)
Definition etharp_find_addr (netif ip : Z) : comp N (option (Z * list Z * Z)) :=
  i ← etharp_find_entry (Some ip) ETHARP_FLAG_FIND_ONLY netif;
  if 0 <=? i then
    e ← entry i;
    mret (if ETHARP_STATE_STABLE <=? state e then Some (i, ethaddr e, ipaddr e) else None)
  else mret None.
Definition etharp_get_entry (i : Z) : comp N (option (Z * Z * list Z)) :=
  if i <? ARP_TABLE_SIZE then
    e ← entry i;
    mret (if ETHARP_STATE_STABLE <=? state e then Some (ipaddr e, netif_of e, ethaddr e) else None)
  else mret None.

(** ** Packets in *)

Definition etharp_input (p netif : Z) : comp N unit :=
  if netif =? NULL then mret tt
  else
    b ← in_packets (pb p);
    let hdr := payload b in
    hwtype ← load16 hdr;
    proto ← load16 (hdr + 2);
    hwlen ← load (hdr + 4) 1;
    protolen ← load (hdr + 5) 1;
    if negb (hwtype =? lwip_htons LWIP_IANA_HWTYPE_ETHERNET) || negb (le_dec hwlen =? ETH_HWADDR_LEN) ||
       negb (le_dec protolen =? 4) || negb (proto =? lwip_htons ETHTYPE_IP) then
      _ ← in_packets (pbuf_free custom_free_function p);
      mret tt
    else
      autoip_arp_reply netif hdr;;
      sip ← load (hdr + 14) 4;
      let sipaddr := le_dec sip in
      dip ← load (hdr + 24) 4;
      let dipaddr := le_dec dip in
      n ← gets (λ s, netifs s netif);
      let for_us := if ip4_addr_isany (ip_addr n) then false else dipaddr =? ip_addr n in
      shwaddr ← load (hdr + 8) 6;
      _ ← etharp_update_arp_entry netif sipaddr shwaddr (if for_us then ETHARP_FLAG_TRY_HARD else ETHARP_FLAG_FIND_ONLY);
      opcode ← load16 (hdr + 6);
      (if opcode =? lwip_htons ARP_REQUEST then
         if for_us then
           n ← gets (λ s, netifs s netif);
           shwaddr ← load (hdr + 8) 6;
           _ ← etharp_raw netif (hwaddr n) shwaddr (hwaddr n) (ip_addr n) shwaddr sipaddr ARP_REPLY;
           mret tt
         else mret tt
       else if opcode =? lwip_htons ARP_REPLY then dhcp_arp_reply netif sipaddr
       else mret tt);;
      _ ← in_packets (pbuf_free custom_free_function p);
      mret tt.

(** ** Frames in *)

(** [ip4_input] takes the packets that are not ARP's. *)
Definition ethernet_input (ip4_input : Z → Z → comp N unit) (p netif : Z) : comp N Z :=
  let free_and_return := _ ← in_packets (pbuf_free custom_free_function p); mret ERR_OK in
  b ← in_packets (pb p);
  if len b <=? SIZEOF_ETH_HDR then free_and_return
  else
    n ← gets (λ s, netifs s netif);
    (if if_idx b =? NETIF_NO_INDEX then in_packets (upd_pb p (with_if_idx (num n + 1))) else mret tt);;
    let ethhdr := payload b in
    type ← load16 (ethhdr + 12);
    dest ← load ethhdr 6;
    (if negb (Z.land (hd 0 dest) 1 =? 0) then
       if hd 0 dest =? 0x01 then
         if bool_decide (take 2 (tl dest) = [0x00; 0x5e]) then in_packets (upd_pb p (λ b, with_flags (Z.lor (flags b) PBUF_FLAG_LLMCAST) b))
         else mret tt
       else if bool_decide (dest = ethbroadcast) then in_packets (upd_pb p (λ b, with_flags (Z.lor (flags b) PBUF_FLAG_LLBCAST) b))
       else mret tt
     else mret tt);;
    if type =? lwip_htons ETHTYPE_IP then
      if Z.land (nflags n) NETIF_FLAG_ETHARP =? 0 then free_and_return
      else
        failed ← in_packets (pbuf_remove_header p SIZEOF_ETH_HDR);
        if negb (failed =? 0) then free_and_return else ip4_input p netif;; mret ERR_OK
    else if type =? lwip_htons ETHTYPE_ARP then
      if Z.land (nflags n) NETIF_FLAG_ETHARP =? 0 then free_and_return
      else
        failed ← in_packets (pbuf_remove_header p SIZEOF_ETH_HDR);
        if negb (failed =? 0) then free_and_return else etharp_input p netif;; mret ERR_OK
    else free_and_return.

(** ** Packets out *)

Definition etharp_output_to_arp_index (netif p arp_idx : Z) : comp N Z :=
  e ← entry arp_idx;
  LWIP_ASSERT (ETHARP_STATE_STABLE <=? state e);;
  (if state e =? ETHARP_STATE_STABLE then
     if ARP_AGE_REREQUEST_USED_BROADCAST <=? ctime e then
       r ← etharp_request netif (ipaddr e);
       if r =? ERR_OK then set_entry arp_idx (with_state ETHARP_STATE_STABLE_REREQUESTING_1) else mret tt
     else if ARP_AGE_REREQUEST_USED_UNICAST <=? ctime e then
       r ← etharp_request_dst netif (ipaddr e) (ethaddr e);
       if r =? ERR_OK then set_entry arp_idx (with_state ETHARP_STATE_STABLE_REREQUESTING_1) else mret tt
     else mret tt
   else mret tt);;
  n ← gets (λ s, netifs s netif);
  e ← entry arp_idx;
  ethernet_output netif p (hwaddr n) (ethaddr e) ETHTYPE_IP.

(** Is there a buffer in the packet whose data must be copied? *)
Definition PBUF_NEEDS_COPY (b : pbuf) : bool := negb (Z.land (type_internal b) PBUF_TYPE_FLAG_DATA_VOLATILE =? 0).
Definition copy_needed (p : Z) : comp N bool :=
  in_packets (loop (λ p,
    if negb (p =? NULL) then
      b ← pb p;
      LWIP_ASSERT (negb (len b =? tot_len b) || (next b =? 0));;
      if PBUF_NEEDS_COPY b then mret (inr true) else mret (inl (next b))
    else mret (inr false)) p).
(** The packet waits at entry [i]; one that waited there is dropped. *)
Definition queue_packet (i p : Z) : comp N Z :=
  c ← copy_needed p;
  p ← (if (c : bool) then in_packets (pbuf_clone custom_free_function PBUF_LINK PBUF_RAM p)
       else in_packets (pbuf_ref p);; mret p);
  if negb (p =? NULL) then
    e ← entry i;
    (if negb (q e =? NULL) then _ ← in_packets (pbuf_free custom_free_function (q e)); mret tt else mret tt);;
    set_entry i (with_q p);;
    mret ERR_OK
  else mret ERR_MEM.
Definition etharp_query (netif ip p : Z) : comp N Z :=
  n ← gets (λ s, netifs s netif);
  if ip4_addr_isbroadcast_u32 ip n || ip4_addr_ismulticast ip || ip4_addr_isany ip then mret ERR_ARG
  else
    i_err ← etharp_find_entry (Some ip) ETHARP_FLAG_TRY_HARD netif;
    if i_err <? 0 then mret i_err
    else
      let i := i_err in
      LWIP_ASSERT (i <? 0x7F);;
      e ← entry i;
      let is_new_entry := state e =? ETHARP_STATE_EMPTY in
      (if is_new_entry then
         set_entry i (with_state ETHARP_STATE_PENDING);;
         set_entry i (with_netif netif)
       else mret tt);;
      e ← entry i;
      LWIP_ASSERT ((state e =? ETHARP_STATE_PENDING) || (ETHARP_STATE_STABLE <=? state e));;
      result ← (if is_new_entry || (p =? NULL) then
        result ← etharp_request netif ip;
        e ← entry i;
        (if (result =? ERR_OK) && (state e =? ETHARP_STATE_PENDING) && negb is_new_entry then set_entry i (with_ctime 0) else mret tt);;
        mret result
      else mret ERR_MEM);
      if p =? NULL then mret result
      else
        e ← entry i;
        if ETHARP_STATE_STABLE <=? state e then
          set_addrhint i;;
          ethernet_output netif p (hwaddr n) (ethaddr e) ETHTYPE_IP
        else if state e =? ETHARP_STATE_PENDING then queue_packet i p
        else mret result.

(** The Ethernet address of a multicast group. *)
Definition mcastaddr (ip : Z) : list Z :=
  [0x01; 0x00; 0x5e; Z.land (ip4_addr_get_byte ip 1) 0x7f; ip4_addr_get_byte ip 2; ip4_addr_get_byte ip 3].
(** The address to ask for: that of the destination or of the gateway. *)
Definition next_hop (n : netif) (p ip : Z) : comp N (option Z) :=
  if negb (ip4_addr_netcmp ip (ip_addr n) (netmask n)) && negb (ip4_addr_islinklocal ip) then
    b ← in_packets (pb p);
    src ← load (payload b + 12) 4;
    if negb (ip4_addr_islinklocal (le_dec src)) then
      if negb (ip4_addr_isany (gw n)) then mret (Some (gw n)) else mret None
    else mret (Some ip)
  else mret (Some ip).
Definition usable (netif dst : Z) (e : etharp_entry) : bool :=
  (ETHARP_STATE_STABLE <=? state e) && (netif_of e =? netif) && (dst =? ipaddr e).
Definition etharp_output (netif p ip : Z) : comp N Z :=
  LWIP_ASSERT (negb (netif =? NULL));;
  LWIP_ASSERT (negb (p =? NULL));;
  n ← gets (λ s, netifs s netif);
  if ip4_addr_isbroadcast_u32 ip n then ethernet_output netif p (hwaddr n) ethbroadcast ETHTYPE_IP
  else if ip4_addr_ismulticast ip then ethernet_output netif p (hwaddr n) (mcastaddr ip) ETHTYPE_IP
  else
    dst_addr ← next_hop n p ip;
    match dst_addr with
    | None => mret ERR_RTE
    | Some dst =>
        cached ← gets etharp_cached_entry;
        e ← entry cached;
        if usable netif dst e then etharp_output_to_arp_index netif p cached
        else
          r ← for_range 0 ARP_TABLE_SIZE (λ i,
            e ← entry i;
            if usable netif dst e then
              set_addrhint i;;
              r ← etharp_output_to_arp_index netif p i;
              mret (Some r)
            else mret None);
          match r with
          | Some r => mret r
          | None => etharp_query netif dst p
          end
    end.
End etharp.
