(* ===== verification/LwipEtharpInv.v ===== *)
(** * LwipEtharpInv: what address resolution keeps

    The ARP table holds a reference to every packet that waits at one of its
    entries.  The operations of LwipEtharp end, keep the table well formed and
    the reference counts of the packets exact, with the packets of the rest of
    the stack ([hs]) beside those of the table. *)

From Stdlib Require Import ZArith Lia.
From stdpp Require Import base numbers list option functions gmap sets fin_sets relations.
From S2P Require Import Prelude LwipBase LwipAddr LwipPbuf LwipPbufData LwipPbufOwn LwipPbufAlloc LwipPbufClient LwipPbufUse LwipEtharp.
Open Scope Z_scope.

(** ** The table *)

(** The reference an entry holds. *)
Definition waits (e : etharp_entry) : list Z := if q e =? NULL then [] else [q e].
Definition waiting (t : list etharp_entry) : list Z := concat (map waits t).

Lemma hcount_app x a b : hcount x (a ++ b) = hcount x a + hcount x b.
Proof. induction a as [|y a IH]; simpl; [done|]. rewrite IH. lia. Qed.
Lemma waiting_insert t i e e' x : t !! i = Some e →
  hcount x (waiting (<[i := e']> t)) + hcount x (waits e) = hcount x (waiting t) + hcount x (waits e').
Proof.
  intros Hi. unfold waiting. revert i Hi. induction t as [|d t IH]; intros [|i] Hi; [done|done| |].
  - injection Hi as ->. cbn [map concat]. change (<[O := e']> (e :: t)) with (e' :: t). cbn [map concat]. rewrite !hcount_app. lia.
  - change (<[Datatypes.S i := e']> (d :: t)) with (d :: <[i := e']> t). cbn [map concat]. rewrite !hcount_app.
    pose proof (IH i Hi). lia.
Qed.
Lemma waiting_in t i e : t !! i = Some e → q e ≠ NULL → q e ∈ waiting t.
Proof.
  intros Hi Hq. apply hcount_in. pose proof (waiting_insert t i e (with_q NULL e) (q e) Hi) as E. unfold waits in E at 1.
  rewrite (proj2 (Z.eqb_neq _ _) Hq) in E. change (waits (with_q NULL e)) with (@nil Z) in E. simpl in E. rewrite decide_True in E by done.
  pose proof (hcount_nonneg (q e) (waiting (<[i := with_q NULL e]> t))). lia.
Qed.

Record entry_ok (e : etharp_entry) : Prop := EntryOk {
  eo_state : 0 ≤ state e ≤ 4;
  eo_queue : state e ≠ ETHARP_STATE_PENDING → q e = NULL;
  eo_age : state e ≠ ETHARP_STATE_EMPTY → 0 ≤ ctime e < (if state e =? ETHARP_STATE_PENDING then ARP_MAXPENDING else ARP_MAXAGE);
  eo_netif : state e ≠ ETHARP_STATE_EMPTY → netif_of e ≠ NULL;
  eo_eth : length (ethaddr e) = 6%nat
}.
(** No two entries stand for the same address on the same interface. *)
Definition keys_differ (t : list etharp_entry) : Prop := ∀ i j e e', t !! i = Some e → t !! j = Some e' →
  state e ≠ ETHARP_STATE_EMPTY → state e' ≠ ETHARP_STATE_EMPTY → ipaddr e = ipaddr e' → netif_of e = netif_of e' → i = j.
Record table_ok (t : list etharp_entry) : Prop := TableOk {
  to_length : Z.of_nat (length t) = ARP_TABLE_SIZE;
  to_entries : ∀ i e, t !! i = Some e → entry_ok e;
  to_keys : keys_differ t
}.

(** Changing an entry whose key stays its own. *)
Lemma table_ok_insert t i e' : table_ok t → entry_ok e' →
  (state e' ≠ ETHARP_STATE_EMPTY → ∀ j e, j ≠ i → t !! j = Some e → state e ≠ ETHARP_STATE_EMPTY → ipaddr e = ipaddr e' → netif_of e = netif_of e' → False) →
  table_ok (<[i := e']> t).
Proof.
  intros [T1 T2 T3] He Hkey. split.
  - by rewrite length_insert.
  - intros j e [(<- & <- & _)|[_ Hj]]%list_lookup_insert_Some; [done|by apply (T2 j)].
  - intros j k a b Hj Hk Sa Sb Ei En. destruct (decide (j = k)) as [|Hjk]; [done|]. exfalso.
    apply list_lookup_insert_Some in Hj as [(<- & <- & _)|[Hij Hj]]; apply list_lookup_insert_Some in Hk as [(<- & <- & _)|[Hik Hk]].
    + done.
    + by apply (Hkey Sa k b).
    + by apply (Hkey Sb j a).
    + apply Hjk. by apply (T3 j k a b).
Qed.
Lemma table_ok_same_key t i e e' : table_ok t → t !! i = Some e → entry_ok e' →
  (state e' ≠ ETHARP_STATE_EMPTY → state e ≠ ETHARP_STATE_EMPTY ∧ ipaddr e = ipaddr e' ∧ netif_of e = netif_of e') → table_ok (<[i := e']> t).
Proof.
  intros Ht Hi He Hs. apply table_ok_insert; [done|done|]. intros Se j b Hj Hb Sb Ei En. destruct (Hs Se) as (S1 & E1 & E2).
  apply Hj. apply (to_keys _ Ht j i b e); congruence.
Qed.

(** ** Packets *)

Definition same_fields (b b' : pbuf) : Prop :=
  next b' = next b ∧ payload b' = payload b ∧ tot_len b' = tot_len b ∧ len b' = len b ∧ type_internal b' = type_internal b ∧ flags b' = flags b.

(** ** Candidates for recycling *)

Definition stable (e : etharp_entry) : Prop := ETHARP_STATE_STABLE ≤ state e.
Definition idle (e : etharp_entry) : Prop := state e = ETHARP_STATE_PENDING ∧ q e = NULL.
Definition busy (e : etharp_entry) : Prop := state e = ETHARP_STATE_PENDING ∧ q e ≠ NULL.
(** [c] is an oldest of the entries [P] below [n], of age [a]. *)
Definition oldest (P : etharp_entry → Prop) (t : list etharp_entry) (n c a : Z) : Prop :=
  (c = ARP_TABLE_SIZE ∧ a = 0 ∧ ∀ j e, Z.of_nat j < n → t !! j = Some e → ¬ P e) ∨
  (∃ e, 0 ≤ c < n ∧ t !! Z.to_nat c = Some e ∧ P e ∧ a = ctime e ∧
     ∀ j e', Z.of_nat j < n → t !! j = Some e' → P e' → ctime e' ≤ ctime e).
Definition first_empty (t : list etharp_entry) (n c : Z) : Prop :=
  (c = ARP_TABLE_SIZE ∧ ∀ j e, Z.of_nat j < n → t !! j = Some e → state e ≠ ETHARP_STATE_EMPTY) ∨
  (∃ e, 0 ≤ c < n ∧ t !! Z.to_nat c = Some e ∧ state e = ETHARP_STATE_EMPTY ∧
     ∀ j e', Z.of_nat j < c → t !! j = Some e' → state e' ≠ ETHARP_STATE_EMPTY).

Lemma index_split (t : list etharp_entry) n j (e e' : etharp_entry) : 0 ≤ n → t !! Z.to_nat n = Some e → Z.of_nat j < n + 1 → t !! j = Some e' →
  Z.of_nat j < n ∨ e' = e.
Proof.
  intros Hn Ht Hj Ht'. destruct (Z.lt_ge_cases (Z.of_nat j) n) as [|Hge]; [by left|right]. replace (Z.to_nat n) with j in Ht by lia. congruence.
Qed.
Lemma oldest_skip P t n c a e : 0 ≤ n → t !! Z.to_nat n = Some e → ¬ P e → oldest P t n c a → oldest P t (n + 1) c a.
Proof.
  intros Hn He Hne [(-> & -> & Hall)|(d & Hc & Hd & HP & -> & Hall)].
  - left. split; [done|]. split; [done|]. intros j e' Hj He'. destruct (index_split t n j e e') as [| ->]; try done. by apply (Hall j).
  - right. exists d. split; [lia|]. split_and!; try done. intros j e' Hj He' HP'. destruct (index_split t n j e e') as [| ->]; try done. by apply (Hall j).
Qed.
Lemma oldest_take P t n c a e : 0 ≤ n → t !! Z.to_nat n = Some e → P e → 0 ≤ ctime e → oldest P t n c a →
  oldest P t (n + 1) (if a <=? ctime e then n else c) (if a <=? ctime e then ctime e else a).
Proof.
  intros Hn He HPe Hage Ho. destruct (Z.leb_spec a (ctime e)) as [Hle|Hgt].
  - right. exists e. split; [lia|]. split_and!; try done. intros j e' Hj He' HP'. destruct (index_split t n j e e') as [Hjn| ->]; try done.
    destruct Ho as [(_ & _ & Hall)|(d & _ & _ & _ & -> & Hall)]; [by destruct (Hall j e')|]. pose proof (Hall j e' Hjn He' HP'). lia.
  - destruct Ho as [(_ & -> & _)|(d & Hc & Hd & HP & -> & Hall)]; [lia|].
    right. exists d. split; [lia|]. split_and!; try done. intros j e' Hj He' HP'. destruct (index_split t n j e e') as [| ->]; try done; [by apply (Hall j)|lia].
Qed.
Lemma first_empty_skip t n c e : 0 ≤ n → t !! Z.to_nat n = Some e → state e ≠ ETHARP_STATE_EMPTY ∨ c ≠ ARP_TABLE_SIZE → first_empty t n c → first_empty t (n + 1) c.
Proof.
  intros Hn He Hor [(-> & Hall)|(d & Hc & Hd & Hs & Hall)].
  - left. split; [done|]. destruct Hor as [Hne|?]; [|done]. intros j e' Hj He'. destruct (index_split t n j e e') as [| ->]; try done. by apply (Hall j).
  - right. exists d. split; [lia|]. by split_and!.
Qed.
Lemma first_empty_found t n e : 0 ≤ n → t !! Z.to_nat n = Some e → state e = ETHARP_STATE_EMPTY → first_empty t n ARP_TABLE_SIZE → n < ARP_TABLE_SIZE → first_empty t (n + 1) n.
Proof.
  intros Hn He Hs [(_ & Hall)|(d & Hc & _)] Hlt; [|lia]. right. exists e. split; [lia|]. by split_and!.
Qed.

(** What the sweep has seen of the first [n] entries. *)
Record swept (t : list etharp_entry) (ip : option Z) (netif n : Z) (c : candidates) : Prop := Swept {
  sw_none : ∀ j e, Z.of_nat j < n → t !! j = Some e → state e ≠ ETHARP_STATE_EMPTY → matches ip netif e = false;
  sw_empty : first_empty t n (empty c);
  sw_stable : oldest stable t n (old_stable c) (age_stable c);
  sw_idle : oldest idle t n (old_pending c) (age_pending c);
  sw_busy : oldest busy t n (old_queue c) (age_queue c)
}.
Lemma swept_start t ip netif : swept t ip netif 0 no_candidates.
Proof. split; [lia|by left; split; [|lia]|left; split_and!; [done|done|lia]..]. Qed.
Lemma kinds e : entry_ok e → state e ≠ ETHARP_STATE_EMPTY →
  (stable e ∧ ¬ idle e ∧ ¬ busy e) ∨ (idle e ∧ ¬ stable e ∧ ¬ busy e) ∨ (busy e ∧ ¬ stable e ∧ ¬ idle e).
Proof.
  intros [E1 _ _ _ _] Hs. unfold stable, idle, busy, ETHARP_STATE_STABLE, ETHARP_STATE_PENDING, ETHARP_STATE_EMPTY in *.
  destruct (decide (state e = 1)) as [Es|Es]; [|left; split_and!; intuition (done || lia)].
  destruct (decide (q e = NULL)); right; [left|right]; split_and!; intuition (done || lia).
Qed.
Lemma empty_kinds e : state e = ETHARP_STATE_EMPTY → ¬ stable e ∧ ¬ idle e ∧ ¬ busy e.
Proof. unfold stable, idle, busy, ETHARP_STATE_STABLE, ETHARP_STATE_PENDING, ETHARP_STATE_EMPTY. lia. Qed.
Lemma swept_remember t ip netif n c e : table_ok t → 0 ≤ n → t !! Z.to_nat n = Some e → state e ≠ ETHARP_STATE_EMPTY → matches ip netif e = false →
  swept t ip netif n c → swept t ip netif (n + 1) (remember n e c).
Proof.
  intros Ht Hn He Hs Hm [W1 W2 W3 W4 W5]. pose proof (to_entries _ Ht _ _ He) as Heo.
  assert (Hage : 0 ≤ ctime e) by (destruct (eo_age _ Heo Hs); lia).
  assert (Hnone : ∀ j e', Z.of_nat j < n + 1 → t !! j = Some e' → state e' ≠ ETHARP_STATE_EMPTY → matches ip netif e' = false).
  { intros j e' Hj He' Hs'. destruct (index_split t n j e e') as [| ->]; try done. by apply (W1 j). }
  assert (Hemp : first_empty t (n + 1) (empty c)) by (apply (first_empty_skip t n _ e); [done|done|by left|done]).
  pose proof (λ c a, oldest_take stable t n c a e Hn He) as T1. pose proof (λ c a, oldest_take idle t n c a e Hn He) as T2. pose proof (λ c a, oldest_take busy t n c a e Hn He) as T3.
  unfold remember. destruct (kinds e Heo Hs) as [(K1 & K2 & K3)|[(K1 & K2 & K3)|(K1 & K2 & K3)]].
  - rewrite (proj2 (Z.eqb_neq _ _)) by (unfold stable, ETHARP_STATE_STABLE, ETHARP_STATE_PENDING in *; lia). rewrite (proj2 (Z.leb_le _ _)) by exact K1.
    specialize (T1 _ _ K1 Hage W3). destruct (age_stable c <=? ctime e); (split; [done|done|done|by apply (oldest_skip _ _ _ _ _ e)..]).
  - destruct K1 as [Ep Eq]. rewrite Ep, Eq. rewrite !Z.eqb_refl. cbn [negb]. specialize (T2 _ _ (conj Ep Eq) Hage W4).
    destruct (age_pending c <=? ctime e); (split; [done|done|by apply (oldest_skip _ _ _ _ _ e)|done|by apply (oldest_skip _ _ _ _ _ e)]).
  - destruct K1 as [Ep Eq]. rewrite Ep, Z.eqb_refl, (proj2 (Z.eqb_neq _ _) Eq). cbn [negb]. specialize (T3 _ _ (conj Ep Eq) Hage W5).
    destruct (age_queue c <=? ctime e); (split; [done|done|by apply (oldest_skip _ _ _ _ _ e)|by apply (oldest_skip _ _ _ _ _ e)|done]).
Qed.
Lemma swept_empty t ip netif n c e : 0 ≤ n < ARP_TABLE_SIZE → t !! Z.to_nat n = Some e → state e = ETHARP_STATE_EMPTY →
  swept t ip netif n c → swept t ip netif (n + 1) (if empty c =? ARP_TABLE_SIZE then found_empty n c else c).
Proof.
  intros Hn He Hs [W1 W2 W3 W4 W5]. destruct (empty_kinds e Hs) as (K1 & K2 & K3).
  assert (Hnone : ∀ j e', Z.of_nat j < n + 1 → t !! j = Some e' → state e' ≠ ETHARP_STATE_EMPTY → matches ip netif e' = false).
  { intros j e' Hj He' Hs'. destruct (index_split t n j e e') as [| ->]; try done; [lia|]. by apply (W1 j). }
  assert (Hn0 : 0 ≤ n) by lia.
  destruct (Z.eqb_spec (empty c) ARP_TABLE_SIZE) as [Ee|Ee]; (split; [done| |by apply (oldest_skip _ _ _ _ _ e)..]).
  - rewrite Ee in W2. apply (first_empty_found t n e); [done|done|done|done|lia].
  - apply (first_empty_skip t n _ e); [done|done|by right|done].
Qed.

Section packet_level.
Context {H M : Type} `{Heaps H} `{Pools M}.
Abbreviation P := (pstate H M).
Context `{!PbufMemory H M}.
Context (O : gmap Z Z).

(** Lengths are 16 bits wide. *)
Record holding (s : P) (L : livep) (hs : list Z) : Prop := Holding {
  hg_held : held O s L hs;
  hg_len : ∀ x, x ∈ all L → 0 ≤ len (pbufs s x) < 65536
}.
(** The buffers [l] are as they were, but for references given back. *)
Definition intact (s s' : P) (l : list Z) : Prop := ∀ x, x ∈ l → same_fields (pbufs s x) (pbufs s' x) ∧ ref (pbufs s' x) ≤ ref (pbufs s x).
(** So are all chains that the holders of [hs] reach. *)
Definition chains_intact (s s' : P) (hs : list Z) : Prop := ∀ h l, h ∈ hs → links (pbufs s) h l → intact s s' l.

Lemma intact_refl s s' l : pbufs s' = pbufs s → intact s s' l.
Proof. intros E x _. rewrite E. by split. Qed.
Lemma chains_refl s s' hs : pbufs s' = pbufs s → chains_intact s s' hs.
Proof. intros E h l _ _. by apply intact_refl. Qed.
Lemma intact_links s s' h l : intact s s' l → links (pbufs s) h l → links (pbufs s') h l.
Proof. intros Hi. apply lseg_ext. intros x Hx. by destruct (Hi x Hx) as [(E & _) _]. Qed.
Lemma intact_trans s s1 s' l : intact s s1 l → intact s1 s' l → intact s s' l.
Proof.
  intros I1 I2 x Hx. destruct (I1 x Hx) as [(A1 & A2 & A3 & A4 & A5 & A6) A7], (I2 x Hx) as [(B1 & B2 & B3 & B4 & B5 & B6) B7].
  split; [|lia]. unfold same_fields. split_and!; congruence.
Qed.
Lemma chains_trans s s1 s' hs hs' : chains_intact s s1 hs → chains_intact s1 s' hs' → (∀ h, h ∈ hs → h ∈ hs') → chains_intact s s' hs.
Proof.
  intros I1 I2 Hsub h l Hh Hl. pose proof (I1 h l Hh Hl) as Hi. eapply intact_trans; [exact Hi|]. apply (I2 h l); [by apply Hsub|by eapply intact_links].
Qed.
Lemma chains_sub s s' hs hs' : chains_intact s s' hs → (∀ h, h ∈ hs' → h ∈ hs) → chains_intact s s' hs'.
Proof. intros Hc Hsub h l Hh. by apply Hc, Hsub. Qed.
Lemma intact_pkt s s' h l : intact s s' l → pkt (pbufs s) h l → pkt (pbufs s') h l.
Proof. intros Hi. apply pkt_frame. intros a Ha. destruct (Hi a Ha) as [(E1 & E2 & E3 & E4 & _) _]. done. Qed.
Lemma intact_positive s s' l : intact s s' l → positive (pbufs s) l → positive (pbufs s') l.
Proof. intros Hi Hp x Hx. destruct (Hi x Hx) as [(_ & _ & _ & E & _) _]. rewrite E. by apply Hp. Qed.

Lemma holding_perm s L hs hs' : (∀ x, hcount x hs' = hcount x hs) → holding s L hs → holding s L hs'.
Proof. intros E [K1 K2]. split; [by eapply held_perm|done]. Qed.
Lemma holding_bytes s L hs b : holding s L hs → holding (with_bytes b s) L hs.
Proof. intros [K1 K2]. split; [by apply held_bytes|done]. Qed.
Lemma holding_handle s L hs h : holding s L hs → h ∈ hs → h ∈ all L.
Proof. intros [K _]. by eapply held_handle. Qed.
Lemma holding_nonnull s L hs x : holding s L hs → x ∈ all L → x ≠ NULL.
Proof. intros [K _]. by eapply held_nonnull. Qed.
(** Every buffer in use starts a chain of buffers in use. *)
Lemma holding_chain s L hs x : holding s L hs → x ∈ all L → ∃ l, links (pbufs s) x (x :: l) ∧ ∀ y, y ∈ x :: l → y ∈ all L.
Proof.
  intros [K _] Hx. destruct (hd_ends _ _ _ _ K x Hx) as [l Hl]. pose proof (held_chain _ _ _ _ _ _ K Hx Hl) as Hin.
  destruct l as [|y l]; [by apply (held_nonnull _ _ _ _ _ K) in Hx; rewrite Hl in Hx|]. pose proof Hl as (E & _). subst y. by exists l.
Qed.

Context (custom_free_function : Z → comp P unit).

(** A reference is given back. *)
Lemma give_run s L p hs (Q : Z → P → Prop) : holding s L (p :: hs) →
  (∀ r s' L', holding s' L' hs → chains_intact s s' hs → bytes s' = bytes s → Q r s') → wp (pbuf_free custom_free_function p) Q s.
Proof.
  intros Hh HQ. pose proof (holding_handle _ _ _ p Hh (list_elem_of_here _ _)) as Hp. destruct (holding_chain _ _ _ _ Hh Hp) as (l & Hl & _).
  destruct Hh as [K1 K2]. apply (free_held O custom_free_function s L p hs (p :: l)); [done|done|]. intros s' L' Hh' [R1 R2 R3 R4].
  assert (Hold : ∀ x, x ∈ all L' → x ∈ all L ∧ same_fields (pbufs s x) (pbufs s' x) ∧ ref (pbufs s' x) ≤ ref (pbufs s x)).
  { intros x Hx. rewrite R1, elem_of_difference, elem_of_list_to_set in Hx. destruct Hx as [Hx Hf]. split; [done|].
    destruct (decide (survivor (refs (pbufs s)) (p :: l) = Some x)) as [E|E]; [|rewrite R2 by done; by split].
    rewrite R3 by done. split; [done|]. pose proof (held_ref _ _ _ _ x K1 Hx). cbn [ref with_ref]. unfold u8. rewrite Z.mod_small by lia. lia. }
  apply (HQ _ _ L'); [|intros h c Hh Hc|done].
  - split; [done|]. intros x Hx. destruct (Hold x Hx) as (Hx' & (_ & _ & _ & E & _) & _). rewrite E. by apply K2.
  - pose proof (held_handle _ _ _ _ _ Hh' Hh) as Hh0. clear Hh. revert h Hh0 Hc. induction c as [|x c IH]; intros h Hin Hc; [by intros y ?%elem_of_nil|].
    apply links_cons in Hc as (-> & Hx0 & Hc). destruct (Hold x Hin) as (_ & Hs & Hr).
    intros y [->|Hy]%elem_of_cons; [done|]. destruct Hs as (En & _). destruct (ct_closed _ _ _ _ (hd_counted _ _ _ _ Hh') x Hin) as [E|E]; unfold nexts in E; rewrite En in E.
    + rewrite E in Hc. destruct c; [by apply elem_of_nil in Hy|]. by apply links_cons in Hc as (<- & ? & _).
    + by apply (IH _ E Hc).
Qed.
(** A reference is taken. *)
Lemma take_run s L p hs (Q : unit → P → Prop) : holding s L hs → p ∈ all L → ref (pbufs s p) < 255 →
  (∀ s', holding s' L (p :: hs) → (∀ x, same_fields (pbufs s x) (pbufs s' x)) → bytes s' = bytes s → Q tt s') → wp (pbuf_ref p) Q s.
Proof.
  intros [K1 K2] Hp Hr HQ. apply (ref_run O s L hs); [done|done|done|]. intros m Em Hm.
  assert (Hs : ∀ x, same_fields (pbufs s x) (m x)) by (intros x; rewrite Em; by destruct (decide (x = p)) as [->|]).
  apply HQ; [|done|done]. split; [done|]. intros x Hx. cbn [pbufs with_pbufs]. destruct (Hs x) as (_ & _ & _ & -> & _). by apply K2.
Qed.

(** A fresh packet; the chains of the others are still among the old buffers. *)
Lemma fresh_holding s L hs n s' L' p l : holding s L hs → fresh_packet O s L n s' L' p l → holding s' L' (p :: hs) ∧ chains_intact s s' hs ∧
  ∀ h c, h ∈ hs → links (pbufs s') h c → ∀ x, x ∈ c → x ∈ all L.
Proof.
  intros [K1 K2] Hf. pose proof (held_new _ _ _ _ _ _ _ _ _ K1 Hf) as Hh'. destruct Hf as [F1 F2 F3 F4 F5 F6 F7 F8 F9 F10].
  assert (Hold : ∀ x, x ∈ all L → pbufs s' x = pbufs s x) by (intros x Hx; apply F9; intros Hx'; by apply (F3 x Hx')).
  split; [split; [done|]|split].
  - intros x Hx. rewrite F2, elem_of_union, elem_of_list_to_set in Hx. destruct Hx as [Hx|Hx].
    + pose proof (pkt_len _ _ _ x F4 Hx). pose proof (pkt_total _ _ _ F4). lia.
    + rewrite Hold by done. by apply K2.
  - intros h c Hh Hc x Hx. pose proof (held_handle _ _ _ _ _ K1 Hh) as HhA. rewrite Hold by by apply (held_chain _ _ _ _ h c K1 HhA Hc). by split.
  - intros h c Hh Hc. pose proof (held_handle _ _ _ _ _ K1 Hh) as HhA. destruct (hd_ends _ _ _ _ K1 h HhA) as [c' Hc']. pose proof (held_chain _ _ _ _ h c' K1 HhA Hc') as Hin.
    replace c with c'; [done|]. apply (chain_fun (λ x, next (pbufs s' x)) h); [|exact Hc]. apply (lseg_ext (nexts s)); [|exact Hc']. intros x Hx. unfold nexts. by rewrite Hold by by apply Hin.
Qed.
Lemma before_holding s L hs s' : holding s L hs → as_before O s L s' → holding s' L hs ∧ chains_intact s s' hs.
Proof.
  intros [K1 K2] Hb. pose proof (held_as_before _ _ _ _ _ K1 Hb) as Hh'. destruct Hb as (_ & Hp & _). split; [split; [done|]|].
  - intros x Hx. rewrite Hp by done. by apply K2.
  - intros h c Hh Hc x Hx. pose proof (held_handle _ _ _ _ _ K1 Hh) as HhA. rewrite Hp by by apply (held_chain _ _ _ _ h c K1 HhA Hc). by split.
Qed.

(** There is room for [n] bytes before the packet [p :: l]. *)
Record roomy (s : P) (n p : Z) (l : list Z) : Prop := Roomy {
  ry_pkt : pkt (pbufs s) p (p :: l);
  ry_contiguous : contiguous (pbufs s p);
  ry_room : p + SIZEOF_STRUCT_PBUF ≤ payload (pbufs s p) - n;
  ry_total : total (pbufs s) (p :: l) + n < 65536
}.
(** The room is made, or not; it is when it is there. *)
Lemma header_run s L hs p n (Q : Z → P → Prop) : holding s L hs → p ∈ all L → 0 < n < 65536 →
  ((∀ l, ¬ roomy s n p l) → Q 1 s) →
  (∀ m', holding (with_pbufs m' s) L hs → (∀ x, x ≠ p → m' x = pbufs s x) → next (m' p) = next (pbufs s p) →
     (∀ l, roomy s n p l → shifted (pbufs s) m' p (- n)) → Q 0 (with_pbufs m' s)) →
  wp (pbuf_add_header p n) Q s.
Proof.
  intros Hh Hp Hn Hno Hyes. pose proof (holding_nonnull _ _ _ _ Hh Hp) as Hp0. destruct Hh as [K1 K2]. pose proof (K2 p Hp) as Hlen.
  unfold pbuf_add_header, pbuf_add_header_impl. apply wp_bind, wp_assert; [by apply negb_true_iff, Z.eqb_neq|].
  rewrite (proj2 (Z.ltb_ge 0xFFFF n)) by lia. rewrite (proj2 (Z.eqb_neq n 0)) by lia. apply wp_bind, wp_pb; [done|].
  replace (u16 n) with n by (symmetry; apply Z.mod_small; lia).
  destruct (Z.ltb_spec (u16 (n + tot_len (pbufs s p))) n) as [Hw|_].
  { apply wp_ret, Hno. intros l [R1 R2 R3 R4]. rewrite (pkt_tot_len _ _ _ _ R1) in Hw. pose proof (pkt_total _ _ _ R1).
    unfold u16 in Hw. rewrite Z.mod_small in Hw by lia. lia. }
  destruct (Z.eqb_spec (Z.land (type_internal (pbufs s p)) PBUF_TYPE_FLAG_STRUCT_DATA_CONTIGUOUS) 0) as [Hc|_]; cbn [negb].
  { change (0 =? 0) with true. apply wp_ret, Hno. by intros l [R1 R2 R3 R4]. }
  destruct (Z.ltb_spec (payload (pbufs s p) - n) (p + SIZEOF_STRUCT_PBUF)) as [Hr|Hroom].
  { apply wp_ret, Hno. intros l [R1 R2 R3 R4]. lia. }
  apply wp_bind, wp_upd_pb; [done|]. apply wp_bind, wp_upd_pb; [done|]. apply wp_bind, wp_upd_pb; [done|]. apply wp_ret.
  cbn [pbufs with_pbufs bytes heap pools pbuf_free_ooseq_pending]. rewrite !fn_lookup_insert. set (m' := <[p := _]> _). change (with_pbufs _ _) with (with_pbufs m' s).
  assert (Em : ∀ x, x ≠ p → m' x = pbufs s x) by (intros x Hx; unfold m'; by rewrite !fn_lookup_insert_ne).
  assert (Ep : m' p = MkPbuf (next (pbufs s p)) (payload (pbufs s p) - n) (u16 (tot_len (pbufs s p) + n)) (u16 (len (pbufs s p) + n))
    (type_internal (pbufs s p)) (flags (pbufs s p)) (ref (pbufs s p)) (if_idx (pbufs s p))) by (unfold m'; by rewrite fn_lookup_insert).
  assert (Hle : 0 ≤ u16 (len (pbufs s p) + n) ≤ len (pbufs s p) + n).
  { unfold u16. split; [apply Z.mod_pos_bound; lia|]. apply Z.mod_le; lia. }
  assert (Hd : ∀ x k, data_in x k (pbufs s x) → data_in x k (m' x)).
  { intros x k [D1 D2]. destruct (decide (x = p)) as [->|Hx]; [|by rewrite Em]. rewrite Ep. unfold data_in. cbn [payload len]. lia. }
  assert (Hkd : ∀ x k, kind (pbufs s x) k → kind (m' x) k).
  { intros x k. destruct (decide (x = p)) as [->|Hx]; [|by rewrite Em]. by rewrite Ep. }
  assert (Hnx : ∀ x, next (m' x) = next (pbufs s x) ∧ ref (m' x) = ref (pbufs s x)).
  { intros x. destruct (decide (x = p)) as [->|Hx]; [|by rewrite Em]. by rewrite Ep. }
  apply Hyes; [split| | |].
  - apply (held_frame O s _ L L hs); [done| |done|]; [|by intros x _; split; apply Hnx].
    destruct (hd_owned _ _ _ _ K1) as [W1 W2 W3 W4 W5 W6 W7]. split; try done; cbn [pbufs with_pbufs].
    + intros x Hx. destruct (W5 x Hx). auto.
    + intros x Hx. auto.
    + intros x k Hx. destruct (W7 x k Hx). auto.
  - intros x Hx. cbn [pbufs with_pbufs]. destruct (decide (x = p)) as [->|Hxp]; [|rewrite Em by done; by apply K2].
    rewrite Ep. cbn [len]. apply Z.mod_pos_bound. lia.
  - done.
  - by destruct (Hnx p).
  - intros l [R1 R2 R3 R4] x. destruct (decide (x = p)) as [->|Hx]; [|by apply Em]. rewrite Ep. unfold shift.
    pose proof (pkt_tot_len _ _ _ _ R1) as Et. pose proof (pkt_total _ _ _ R1). pose proof (pkt_len _ _ _ p R1 (list_elem_of_here _ _)).
    unfold u16. rewrite !Z.mod_small by lia. f_equal; lia.
Qed.
End packet_level.

(** ** Frames *)

Definition frame (dst src : list Z) (type : Z) (c : list Z) : list Z := dst ++ src ++ [type / 256; type mod 256] ++ c.
Lemma be16_bytes v : 0 ≤ v < 65536 → le_enc 2 (lwip_htons v) = [v / 256; v mod 256].
Proof. intros Hv. rewrite htons_eq by done. cbn [le_enc]. f_equal; [dlia|]. f_equal. dlia. Qed.
Lemma mem_bytes_other m a bs x n : x + Z.of_nat n ≤ a ∨ a + Z.of_nat (length bs) ≤ x → mem_bytes (mem_store m a bs) x n = mem_bytes m x n.
Proof. intros Ho. apply mem_bytes_ext. intros k Hk. apply mem_store_out. lia. Qed.
(** The 14 bytes before the packet. *)
Lemma header_bytes b h dst src t : length dst = 6%nat → length src = 6%nat → length t = 2%nat →
  mem_bytes (mem_store (mem_store (mem_store b (h + 12) t) h dst) (h + 6) src) h 14 = dst ++ src ++ t.
Proof.
  intros Hd Hs Ht. change 14%nat with (6 + (6 + 2))%nat. rewrite !mem_bytes_app. change (Z.of_nat 6) with 6. f_equal; [|f_equal].
  - rewrite mem_bytes_other by lia. rewrite <-Hd. apply mem_bytes_store.
  - rewrite <-Hs. apply mem_bytes_store.
  - rewrite mem_bytes_other by lia. rewrite mem_bytes_other by lia. replace (h + 6 + 6) with (h + 12) by lia. rewrite <-Ht. apply mem_bytes_store.
Qed.

Section etharp_level.
Context {H M D : Type} `{Heaps H} `{Pools M} `{!PbufMemory H M} `{!Link H M D}.
Abbreviation N := (net H M D).
Context (O : gmap Z Z).
Abbreviation holding := (holding O).

Lemma wp_in_packets {A} (m : comp (pstate H M) A) (Q : A → N → Prop) s :
  wp m (λ a p, Q a (with_packets p s)) (packets s) → wp (in_packets m) Q s.
Proof. apply wp_zoom. Qed.
Lemma wp_store a l (Q : unit → N → Prop) s : Q tt (with_packets (with_bytes (mem_store (bytes (packets s)) a l) (packets s)) s) → wp (store a l) Q s.
Proof. intros HQ. apply wp_in_packets, wp_modify. exact HQ. Qed.
Lemma wp_load a n (Q : list Z → N → Prop) s : Q (mem_bytes (bytes (packets s)) a n) s → wp (load a n) Q s.
Proof. intros HQ. unfold load. apply wp_gets. exact HQ. Qed.
Lemma wp_load16 a (Q : Z → N → Prop) s : Q (le_dec (mem_bytes (bytes (packets s)) a 2)) s → wp (load16 a) Q s.
Proof. intros HQ. unfold load16. apply wp_bind, wp_load, wp_ret. exact HQ. Qed.
Lemma wp_entry i e (Q : etharp_entry → N → Prop) s : 0 ≤ i → arp_table s !! Z.to_nat i = Some e → Q e s → wp (entry i) Q s.
Proof. intros Hi He HQ. unfold entry. apply wp_bind, wp_gets. apply (wp_must _ e); [by rewrite znth_nat|done]. Qed.
Lemma wp_set_entry i e f (Q : unit → N → Prop) s : 0 ≤ i → arp_table s !! Z.to_nat i = Some e →
  Q tt (with_table (<[Z.to_nat i := f e]> (arp_table s)) s) → wp (set_entry i f) Q s.
Proof.
  intros Hi He HQ. unfold set_entry. apply wp_bind, wp_gets. apply wp_bind, (wp_must _ e); [by rewrite znth_nat|].
  pose proof (lookup_lt_Some _ _ _ He). apply wp_bind. eapply wp_must; [apply zset_lt; lia|]. by apply wp_modify.
Qed.
Lemma table_entry t i : table_ok t → 0 ≤ i < ARP_TABLE_SIZE → ∃ e, t !! Z.to_nat i = Some e ∧ entry_ok e.
Proof.
  intros [T1 T2 _] Hi. destruct (lookup_lt_is_Some_2 t (Z.to_nat i)) as [e He]; [lia|]. exists e. split; [done|by apply (T2 _ _ He)].
Qed.

(** Between two points of an operation: the packets are held by the table and
    by [hs], whose chains have not been touched. *)
Record ongoing (hs : list Z) (s s' : N) (L' : livep) : Prop := Ongoing {
  og_held : holding (packets s') L' (waiting (arp_table s') ++ hs);
  og_netifs : netifs s' = netifs s;
  og_chains : chains_intact (packets s) (packets s') hs
}.
Record arp_inv (s : N) (L : livep) (hs : list Z) : Prop := ArpInv {
  ai_table : table_ok (arp_table s);
  ai_held : holding (packets s) L (waiting (arp_table s) ++ hs);
  ai_cached : 0 ≤ etharp_cached_entry s < ARP_TABLE_SIZE;
  ai_eth : ∀ n, hwaddr_len (netifs s n) = ETH_HWADDR_LEN ∧ length (hwaddr (netifs s n)) = 6%nat
}.
Lemma ongoing_refl hs s L : arp_inv s L hs → ongoing hs s s L.
Proof. intros [_ K _ _]. split; [done|done|by apply chains_refl]. Qed.
Lemma ongoing_trans hs s s1 s2 L1 L2 : ongoing hs s s1 L1 → ongoing hs s1 s2 L2 → ongoing hs s s2 L2.
Proof.
  intros [A1 A2 A3] [B1 B2 B3]. split; [done|congruence|]. by apply (chains_trans _ (packets s1) _ hs hs).
Qed.
(** The invariant again, from what an operation left. *)
Lemma arp_inv_after s L hs s' L' : arp_inv s L hs → ongoing hs s s' L' → table_ok (arp_table s') → 0 ≤ etharp_cached_entry s' < ARP_TABLE_SIZE → arp_inv s' L' hs.
Proof. intros [_ _ _ K] [B1 B2 _] Ht Hc. split; [done|done|done|by rewrite B2]. Qed.
(** The entries change, what waits at them does not. *)
Lemma ongoing_table hs s s' L' t : ongoing hs s s' L' → (∀ x, hcount x (waiting t) = hcount x (waiting (arp_table s'))) → ongoing hs s (with_table t s') L'.
Proof.
  intros [A1 A2 A3] Hw. split; [|done|done]. eapply holding_perm; [|exact A1]. intros x. cbn [arp_table with_table]. rewrite !hcount_app. by rewrite Hw.
Qed.
Lemma ongoing_entry hs s s' L' i e e' : ongoing hs s s' L' → arp_table s' !! i = Some e → q e' = q e → ongoing hs s (with_table (<[i := e']> (arp_table s')) s') L'.
Proof.
  intros Ho Hi Hq. apply ongoing_table; [done|]. intros x. pose proof (waiting_insert _ i e e' x Hi) as E. unfold waits in E. rewrite Hq in E. lia.
Qed.

(** ** The sweep *)

Lemma find_sweep_run s ip n (Q : Z + candidates → N → Prop) : table_ok (arp_table s) →
  (∀ i e, 0 ≤ i < ARP_TABLE_SIZE → arp_table s !! Z.to_nat i = Some e → state e ≠ ETHARP_STATE_EMPTY → matches ip n e = true → Q (inl i) s) →
  (∀ c, swept (arp_table s) ip n ARP_TABLE_SIZE c → Q (inr c) s) → wp (find_sweep ip n) Q s.
Proof.
  intros Ht Hfound Hnone. unfold find_sweep. set (t := arp_table s) in *.
  apply (wp_loop (λ '(i, c) s', s' = s ∧ 0 ≤ i ≤ ARP_TABLE_SIZE ∧ swept t ip n i c) (λ '(i, _) _, ARP_TABLE_SIZE - i)).
  - split; [done|]. split; [unfold ARP_TABLE_SIZE; lia|apply swept_start].
  - unfold ARP_TABLE_SIZE. lia.
  - intros [i c] s' (_ & Hi & _). lia.
  - intros [i c] s' (-> & Hi & Hc). destruct (Z.ltb_spec i ARP_TABLE_SIZE) as [Hlt|Hge].
    2: { apply wp_ret. apply Hnone. by replace ARP_TABLE_SIZE with i by lia. }
    destruct (table_entry t i Ht ltac:(lia)) as (e & He & Heo). apply wp_bind, (wp_entry _ e); [lia|done|].
    assert (Hnext : ∀ c', swept t ip n (i + 1) c' → (s = s ∧ 0 ≤ i + 1 ≤ ARP_TABLE_SIZE ∧ swept t ip n (i + 1) c') ∧ ARP_TABLE_SIZE - (i + 1) < ARP_TABLE_SIZE - i).
    { intros c' Hc'. split; [|lia]. split; [done|]. split; [lia|done]. }
    destruct (Z.eqb_spec (state e) ETHARP_STATE_EMPTY) as [Es|Es].
    + pose proof (swept_empty t ip n i c e ltac:(lia) He Es Hc) as Hc'. rewrite andb_true_r. cbn [negb].
      destruct (empty c =? ARP_TABLE_SIZE); apply wp_ret; by apply Hnext.
    + rewrite andb_false_r. cbn [negb]. apply wp_bind, wp_assert.
      { destruct Heo as [E1 _ _ _ _]. unfold ETHARP_STATE_EMPTY, ETHARP_STATE_PENDING, ETHARP_STATE_STABLE in *. lia. }
      destruct (matches ip n e) eqn:Hm; apply wp_ret; [apply (Hfound i e); [lia|done..]|]. apply Hnext. apply swept_remember; [done|lia|done..].
Qed.

Context (custom_free_function : Z → comp (pstate H M) unit).

Lemma eta_q e : with_q (q e) e = e.
Proof. by destruct e. Qed.

(** An entry is released, with the packet that waits there. *)
Lemma free_entry_run s hs s0 L i e (Q : unit → N → Prop) : ongoing hs s0 s L → 0 ≤ i → arp_table s !! Z.to_nat i = Some e →
  (∀ s' L', ongoing hs s0 s' L' → arp_table s' = <[Z.to_nat i := with_state ETHARP_STATE_EMPTY (with_q NULL e)]> (arp_table s) →
     etharp_cached_entry s' = etharp_cached_entry s → device s' = device s → bytes (packets s') = bytes (packets s) → (q e = NULL → packets s' = packets s) → Q tt s') →
  wp (etharp_free_entry custom_free_function i) Q s.
Proof.
  intros Ho Hi He HQ. unfold etharp_free_entry. apply wp_bind, (wp_entry _ e); [done|done|]. apply wp_bind.
  destruct (Z.eqb_spec (q e) NULL) as [Eq|Eq]; cbn [negb].
  - apply wp_ret, (wp_set_entry _ e); [done|done|]. rewrite <-Eq, eta_q in HQ. apply (HQ _ L); try done. by apply (ongoing_entry _ _ _ _ _ e).
  - apply wp_bind, wp_in_packets. destruct Ho as [A1 A2 A3]. set (t' := <[Z.to_nat i := with_q NULL e]> (arp_table s)).
    apply (give_run O custom_free_function _ L (q e) (waiting t' ++ hs)).
    { eapply holding_perm; [|exact A1]. intros x. simpl. rewrite !hcount_app. pose proof (waiting_insert _ _ e (with_q NULL e) x He) as E.
      unfold waits in E. rewrite (proj2 (Z.eqb_neq _ _) Eq) in E. change (q (with_q NULL e) =? NULL) with true in E. simpl in E. fold t' in E. lia. }
    intros r s' L' Hh Hc Hb. apply (wp_set_entry _ e); [done|done|]. cbn [arp_table with_packets].
    eapply (wp_set_entry _ (with_q NULL e)); [done|cbn [arp_table with_table with_packets]; apply list_lookup_insert_eq; by eapply lookup_lt_Some|].
    cbn [arp_table with_table with_packets]. rewrite list_insert_insert_eq. apply (HQ _ L'); try done.
    assert (Ho' : ongoing hs s0 (with_table t' (with_packets s' s)) L').
    { split; [done|done|]. cbn [packets with_table with_packets]. apply (chains_trans _ (packets s) _ hs (waiting t' ++ hs)); [done|done|].
      intros h Hh'. apply elem_of_app. by right. }
    pose proof (ongoing_entry _ _ _ _ (Z.to_nat i) (with_q NULL e) (with_state ETHARP_STATE_EMPTY (with_q NULL e)) Ho') as Ho2.
    cbn [arp_table with_table] in Ho2. unfold t' in Ho2. rewrite list_insert_insert_eq in Ho2. apply Ho2; [|done].
    apply list_lookup_insert_eq. by eapply lookup_lt_Some.
Qed.

(** ** Finding an entry *)

Definition none_empty (t : list etharp_entry) : Prop := ∀ j e, t !! j = Some e → state e ≠ ETHARP_STATE_EMPTY.
(** Entry [e] is an oldest of its kind. *)
Definition oldest_of (P : etharp_entry → Prop) (t : list etharp_entry) (e : etharp_entry) : Prop :=
  P e ∧ ∀ j e', t !! j = Some e' → P e' → ctime e' ≤ ctime e.
Definition none_of (P : etharp_entry → Prop) (t : list etharp_entry) : Prop := ∀ j e, t !! j = Some e → ¬ P e.
(** The entry to use for a new address: the first free one; of a full table the
    oldest stable one; failing that, the oldest pending one without a packet;
    failing that, the oldest one. *)
Definition to_recycle (t : list etharp_entry) (i : Z) (e : etharp_entry) : Prop :=
  0 ≤ i < ARP_TABLE_SIZE ∧ t !! Z.to_nat i = Some e ∧
  (state e = ETHARP_STATE_EMPTY ∧ (∀ j e', Z.of_nat j < i → t !! j = Some e' → state e' ≠ ETHARP_STATE_EMPTY) ∨
   none_empty t ∧ (oldest_of stable t e ∨ none_of stable t ∧ oldest_of idle t e ∨
                   none_of stable t ∧ none_of idle t ∧ oldest_of busy t e)).

Lemma oldest_full P t c a : Z.of_nat (length t) = ARP_TABLE_SIZE → oldest P t ARP_TABLE_SIZE c a →
  (c = ARP_TABLE_SIZE ∧ none_of P t) ∨ (∃ e, 0 ≤ c < ARP_TABLE_SIZE ∧ t !! Z.to_nat c = Some e ∧ oldest_of P t e).
Proof.
  intros Hl [(-> & _ & Hall)|(e & Hc & He & HP & _ & Hall)].
  - left. split; [done|]. intros j e He. apply (Hall j); [|done]. pose proof (lookup_lt_Some _ _ _ He). lia.
  - right. exists e. split; [done|]. split; [done|]. split; [done|]. intros j e' He'. apply (Hall j); [|done]. pose proof (lookup_lt_Some _ _ _ He'). lia.
Qed.

Lemma free_already e : q e = NULL → state e = ETHARP_STATE_EMPTY → with_state ETHARP_STATE_EMPTY (with_q NULL e) = e.
Proof. destruct e. cbn. by intros -> ->. Qed.
Lemma select_run s0 hs s L ip n c (Q : option Z → N → Prop) : table_ok (arp_table s) → ongoing hs s0 s L → swept (arp_table s) ip n ARP_TABLE_SIZE c →
  (∀ i e s' L', to_recycle (arp_table s) i e → ongoing hs s0 s' L' →
     arp_table s' = <[Z.to_nat i := with_state ETHARP_STATE_EMPTY (with_q NULL e)]> (arp_table s) →
     etharp_cached_entry s' = etharp_cached_entry s → device s' = device s → bytes (packets s') = bytes (packets s) → (q e = NULL → packets s' = packets s) → Q (Some i) s') →
  wp (select_entry custom_free_function c) Q s.
Proof.
  intros Ht Ho [_ W2 W3 W4 W5] HQ. unfold select_entry. pose proof (to_length _ Ht) as Hl.
  destruct W2 as [(Ee & Hfull)|(e & Hc & He & Hs & Hfirst)].
  2: { rewrite (proj2 (Z.ltb_lt _ _)) by lia. apply wp_ret. pose proof (to_entries _ Ht _ _ He) as [E1 E2 _ _ _].
       assert (Eq : q e = NULL) by (apply E2; rewrite Hs; unfold ETHARP_STATE_EMPTY, ETHARP_STATE_PENDING; lia).
       apply (HQ _ e s L); try done; [by split_and!; [lia|lia| |left]|]. by rewrite free_already, list_insert_id. }
  rewrite Ee, Z.ltb_irrefl.
  assert (Hne : none_empty (arp_table s)). { intros j e He. apply (Hfull j); [|done]. pose proof (lookup_lt_Some _ _ _ He). lia. }
  assert (Hfree : ∀ i e, 0 ≤ i < ARP_TABLE_SIZE → arp_table s !! Z.to_nat i = Some e → to_recycle (arp_table s) i e →
    wp (LWIP_ASSERT (i <? ARP_TABLE_SIZE);; etharp_free_entry custom_free_function i;; mret (Some i)) Q s).
  { intros i e Hi He Hr. apply wp_bind, wp_assert; [apply Z.ltb_lt; lia|]. apply wp_bind, (free_entry_run s hs s0 L i e); [done|lia|done|].
    intros s' L' H1' H2' H3' H4' H5' H6'. apply wp_ret. by apply (HQ i e s' L'). }
  apply oldest_full in W3; [|done]. apply oldest_full in W4; [|done]. apply oldest_full in W5; [|done]. apply wp_bind.
  destruct W3 as [(-> & N1)|(e & Hc & He & Hold)].
  - rewrite Z.ltb_irrefl. destruct W4 as [(-> & N2)|(e & Hc & He & Hold)].
    + rewrite Z.ltb_irrefl. destruct W5 as [(-> & N3)|(e & Hc & He & Hold)].
      * exfalso. destruct (table_entry _ 0 Ht ltac:(unfold ARP_TABLE_SIZE; lia)) as (e & He & Heo).
        destruct (kinds e Heo (Hne _ _ He)) as [(K & _)|[(K & _)|(K & _)]]; [by apply (N1 _ _ He)|by apply (N2 _ _ He)|by apply (N3 _ _ He)].
      * rewrite (proj2 (Z.ltb_lt _ _)) by lia. apply wp_ret, (Hfree _ e); [done|done|]. split; [done|]. split; [done|]. right. split; [done|]. by right; right.
    + rewrite (proj2 (Z.ltb_lt _ _)) by lia. apply wp_ret, (Hfree _ e); [done|done|]. split; [done|]. split; [done|]. right. split; [done|]. by right; left.
  - rewrite (proj2 (Z.ltb_lt _ _)) by lia. apply wp_bind, (wp_entry _ e); [lia|done|]. pose proof (to_entries _ Ht _ _ He) as [_ E2 _ _ _].
    apply wp_bind, wp_assert. { apply Z.eqb_eq, E2. destruct Hold as [Hst _]. unfold stable, ETHARP_STATE_STABLE, ETHARP_STATE_PENDING in *. lia. }
    apply wp_ret, (Hfree _ e); [done|done|]. split; [done|]. split; [done|]. right. split; [done|]. by left.
Qed.

Definition new_entry (a n : Z) (e : etharp_entry) : etharp_entry := MkEntry NULL a n (ethaddr e) 0 ETHARP_STATE_EMPTY.
Definition no_match (t : list etharp_entry) (a n : Z) : Prop := ∀ j e, t !! j = Some e → state e ≠ ETHARP_STATE_EMPTY → matches (Some a) n e = false.

Lemma find_entry_run s0 hs s L a flags n (Q : Z → N → Prop) : table_ok (arp_table s) → ongoing hs s0 s L →
  (∀ i e, 0 ≤ i < ARP_TABLE_SIZE → arp_table s !! Z.to_nat i = Some e → state e ≠ ETHARP_STATE_EMPTY → matches (Some a) n e = true → Q i s) →
  (no_match (arp_table s) a n → (Z.land flags ETHARP_FLAG_FIND_ONLY ≠ 0 ∨ none_empty (arp_table s) ∧ Z.land flags ETHARP_FLAG_TRY_HARD = 0) → Q ERR_MEM s) →
  (∀ i e s' L', no_match (arp_table s) a n → to_recycle (arp_table s) i e → Z.land flags ETHARP_FLAG_FIND_ONLY = 0 →
     (none_empty (arp_table s) → Z.land flags ETHARP_FLAG_TRY_HARD ≠ 0) → ongoing hs s0 s' L' →
     arp_table s' = <[Z.to_nat i := new_entry a n e]> (arp_table s) → etharp_cached_entry s' = etharp_cached_entry s → device s' = device s →
     bytes (packets s') = bytes (packets s) → (q e = NULL → packets s' = packets s) → Q i s') →
  wp (etharp_find_entry custom_free_function (Some a) flags n) Q s.
Proof.
  intros Ht Ho Hfound Hfail Hnew. unfold etharp_find_entry. pose proof (to_length _ Ht) as Hl.
  apply wp_bind, find_sweep_run; [done| |].
  { intros i e Hi He Hs Hm. apply wp_ret. by apply (Hfound i e). }
  intros c Hc. pose proof Hc as [W1 W2 _ _ _].
  assert (Hnm : no_match (arp_table s) a n). { intros j e He. apply (W1 j); [|done]. pose proof (lookup_lt_Some _ _ _ He). lia. }
  assert (Hfull : empty c = ARP_TABLE_SIZE ↔ none_empty (arp_table s)).
  { destruct W2 as [(-> & Hall)|(e & Hi & He & Hs & _)]; split; try done.
    - intros _ j e He. apply (Hall j); [|done]. pose proof (lookup_lt_Some _ _ _ He). lia.
    - lia.
    - intros Hne. by destruct (Hne _ _ He). }
  destruct (Z.eqb_spec (Z.land flags ETHARP_FLAG_FIND_ONLY) 0) as [Ef|Ef]; cbn [negb orb]; [|by apply wp_ret, Hfail; [|left]].
  assert (Hhard : (empty c =? ARP_TABLE_SIZE) && (Z.land flags ETHARP_FLAG_TRY_HARD =? 0) = false → none_empty (arp_table s) → Z.land flags ETHARP_FLAG_TRY_HARD ≠ 0).
  { intros Hb Hne. rewrite (proj2 Hfull Hne), Z.eqb_refl in Hb. by apply Z.eqb_neq in Hb. }
  destruct ((empty c =? ARP_TABLE_SIZE) && (Z.land flags ETHARP_FLAG_TRY_HARD =? 0)) eqn:Hb.
  { apply andb_true_iff in Hb as [Ee%Z.eqb_eq Et%Z.eqb_eq]. apply wp_ret, Hfail; [done|]. right. split; [by apply Hfull|done]. }
  specialize (Hhard eq_refl). apply wp_bind, (select_run s0 hs s L (Some a) n c); [done|done|done|].
  intros i e s' L' Hr Ho' Et' Ec' Ed' Eb' Ep'. pose proof Hr as (Hi & He & _). pose proof (lookup_lt_Some _ _ _ He) as Hlt.
  apply wp_bind, wp_assert; [apply Z.ltb_lt; lia|]. eapply wp_bind, wp_entry; [lia|rewrite Et'; by apply list_lookup_insert_eq|]. apply wp_bind, wp_assert; [done|].
  eapply wp_bind, wp_set_entry; [lia|rewrite Et'; by apply list_lookup_insert_eq|]. rewrite Et', list_insert_insert_eq.
  eapply wp_bind, wp_set_entry; [lia|cbn [arp_table with_table]; by apply list_lookup_insert_eq|]. cbn [arp_table with_table]. rewrite list_insert_insert_eq.
  eapply wp_bind, wp_set_entry; [lia|cbn [arp_table with_table]; by apply list_lookup_insert_eq|]. cbn [arp_table with_table]. rewrite list_insert_insert_eq.
  apply wp_ret. apply (Hnew i e _ L'); try done.
  pose proof (ongoing_entry _ _ _ _ (Z.to_nat i) (with_state ETHARP_STATE_EMPTY (with_q NULL e)) (new_entry a n e) Ho') as Ho2.
  rewrite Et', list_insert_insert_eq in Ho2. apply Ho2; [by apply list_lookup_insert_eq|done].
Qed.

(** ** Frames out *)

Definition same_arp (s s' : N) : Prop := arp_table s' = arp_table s ∧ etharp_cached_entry s' = etharp_cached_entry s ∧ netifs s' = netifs s.
Lemma same_arp_refl s s' : arp_table s' = arp_table s → etharp_cached_entry s' = etharp_cached_entry s → netifs s' = netifs s → same_arp s s'.
Proof. done. Qed.

(** The packet [p :: l] can be sent as it is. *)
Record ready (s : N) (L : livep) (p : Z) (l : list Z) : Prop := Ready {
  rd_roomy : roomy (packets s) SIZEOF_ETH_HDR p l;
  rd_owns : ∀ x, x ∈ p :: l → owns L x
}.

Lemma ethernet_output_run s L hs n p src dst ty (Q : Z → N → Prop) : holding (packets s) L hs → p ∈ all L → hwaddr_len (netifs s n) = ETH_HWADDR_LEN →
  (∀ r s', holding (packets s') L hs → same_arp s s' → (∀ x, x ≠ p → pbufs (packets s') x = pbufs (packets s) x) → next (pbufs (packets s') p) = next (pbufs (packets s) p) →
     (wire (device s') = wire (device s) ∨ ∃ c, wire (device s') = wire (device s) ++ [(n, c)]) →
     (∀ l, ready s L p l → length src = 6%nat → length dst = 6%nat → 0 ≤ ty < 65536 →
        wire (device s') = wire (device s) ++ [(n, frame dst src ty (content (pbufs (packets s)) (bytes (packets s)) (p :: l)))] ∧
        ∀ x a, x ≠ p → owns L x → in_payload (pbufs (packets s)) x a → bytes (packets s') a = bytes (packets s) a) → Q r s') →
  wp (ethernet_output n p src dst ty) Q s.
Proof.
  clear custom_free_function. intros Hh Hp Hn HQ. unfold ethernet_output. apply wp_bind, wp_in_packets. pose proof (holding_nonnull _ _ _ _ _ Hh Hp) as Hp0.
  apply (header_run O (packets s) L hs p SIZEOF_ETH_HDR); [done|done|unfold SIZEOF_ETH_HDR; lia| |].
  { intros Hno. cbn [Z.eqb negb]. apply wp_ret. destruct s. apply HQ; try done; [by left|]. intros l [R _]. by destruct (Hno l). }
  intros m' Hh' Hoth Hnext Hsh. cbn [Z.eqb negb]. apply wp_bind, wp_in_packets, wp_pb; [done|]. cbn [packets with_packets pbufs with_pbufs].
  apply wp_bind, wp_store. apply wp_bind, wp_store. apply wp_bind, wp_store. apply wp_bind, wp_gets.
  cbn [netifs with_packets]. apply wp_bind, wp_assert; [by apply Z.eqb_eq|]. cbn [packets bytes with_packets with_bytes with_pbufs].
  set (h := payload (m' p)). set (t := le_enc 2 (lwip_htons ty)).
  set (b' := mem_store (mem_store (mem_store (bytes (packets s)) (h + 12) t) h dst) (h + 6) src).
  set (p1 := with_bytes b' (with_pbufs m' (packets s))). set (s1 := with_packets p1 s).
  change (with_packets _ _) with s1. destruct (holding_chain _ _ _ _ _ Hh' Hp) as (l0 & Hl0 & _).
  eapply wp_mono; [apply (linkoutput_ok n p (p :: l0) s1); [exact Hl0|done]|]. intros r s' (d & c & -> & Hw & Hc).
  apply HQ; try done.
  - change (holding p1 L hs). by apply holding_bytes.
  - right. by exists c.
  - intros l [R Ho] Hs Hd Hty. specialize (Hsh l R). pose proof (ry_pkt _ _ _ _ R) as Hpk. pose proof (ry_total _ _ _ _ R) as Ht. unfold SIZEOF_ETH_HDR in *.
    pose proof (pkt_len _ _ _ p Hpk (list_elem_of_here _ _)) as Hlen.
    assert (Eh : h = payload (pbufs (packets s) p) - 14) by (unfold h; rewrite Hsh, decide_True by done; cbn [payload shift]; lia).
    assert (Hout : ∀ x a, x ≠ p → owns L x → in_payload (pbufs (packets s)) x a → ¬ (h ≤ a < h + 14)).
    { intros x a Hxp Hx Ha Hin. apply Hxp. apply (owned_apart O (with_pbufs m' (packets s)) L x p a); [apply Hh'|done|apply Ho, list_elem_of_here| |].
      - unfold in_payload in *. cbn [pbufs with_pbufs]. by rewrite Hoth.
      - unfold in_payload. cbn [pbufs with_pbufs]. fold h. rewrite Hsh, decide_True by done. cbn [len shift]. lia. }
    assert (Hb : ∀ a, ¬ (h ≤ a < h + 14) → b' a = bytes (packets s) a).
    { intros a Ha. unfold b'. rewrite !mem_store_out; [done|rewrite ?Hs, ?Hd; unfold t; rewrite ?length_le_enc; lia..]. }
    split; [|intros x a Hxp Hx Ha; by apply Hb, (Hout x)].
    cbn [device with_device]. rewrite Hw. cbn [device s1 with_packets]. do 3 f_equal.
    assert (Hpk' : pkt m' p (p :: l)) by (apply (pkt_shift (pbufs (packets s)) m' p l (- 14)); [done|done|lia|lia]).
    assert (El : l0 = l) by (pose proof (chain_fun _ _ _ _ Hl0 (pk_links _ _ _ Hpk')) as E; by injection E). subst l0. rewrite (Hc Hpk').
    cbn [packets s1 with_packets p1 pbufs bytes with_bytes with_pbufs]. rewrite (content_added (pbufs (packets s)) m' b' p l 14) by (done || lia).
    change (Z.to_nat 14) with 14%nat. rewrite <-Eh. unfold b' at 1. rewrite header_bytes by done. unfold frame, t. rewrite be16_bytes by done.
    rewrite <-!app_assoc. do 3 f_equal. apply content_ext. intros x a Hx Ha. apply Hb.
    destruct (decide (x = p)) as [->|Hxp]; [unfold in_payload in Ha; lia|]. apply (Hout x); [done|by apply Ho|done].
Qed.

(** An ARP packet on Ethernet for IPv4. *)
Definition arp_packet (op : Z) (sha : list Z) (sip : Z) (tha : list Z) (tip : Z) : list Z :=
  [0; 1] ++ [8; 0] ++ [6] ++ [4] ++ [op / 256; op mod 256] ++ sha ++ le_enc 4 sip ++ tha ++ le_enc 4 tip.

Lemma mem_bytes_stored m a bs n : length bs = n → mem_bytes (mem_store m a bs) a n = bs.
Proof. intros <-. apply mem_bytes_store. Qed.
Lemma arp_parts b h : mem_bytes b h 28 = mem_bytes b h 2 ++ mem_bytes b (h + 2) 2 ++ mem_bytes b (h + 4) 1 ++ mem_bytes b (h + 5) 1 ++
  mem_bytes b (h + 6) 2 ++ mem_bytes b (h + 8) 6 ++ mem_bytes b (h + 14) 4 ++ mem_bytes b (h + 18) 6 ++ mem_bytes b (h + 24) 4.
Proof.
  change 28%nat with (2 + (2 + (1 + (1 + (2 + (6 + (4 + (6 + 4))))))))%nat. rewrite !mem_bytes_app.
  do 8 (apply f_equal2; [f_equal; lia|]). f_equal. lia.
Qed.
Ltac find_store := repeat (rewrite mem_bytes_other by (rewrite ?length_le_enc; cbn [length]; lia)); apply mem_bytes_stored; rewrite ?length_le_enc; done.
Lemma arp_bytes b h op sha sip tha tip : 0 ≤ op < 65536 → length sha = 6%nat → length tha = 6%nat →
  mem_bytes (mem_store (mem_store (mem_store (mem_store (mem_store (mem_store (mem_store (mem_store (mem_store b
    (h + 6) (le_enc 2 (lwip_htons op))) (h + 8) sha) (h + 18) tha) (h + 14) (le_enc 4 sip)) (h + 24) (le_enc 4 tip))
    h (le_enc 2 (lwip_htons LWIP_IANA_HWTYPE_ETHERNET))) (h + 2) (le_enc 2 (lwip_htons ETHTYPE_IP))) (h + 4) [ETH_HWADDR_LEN]) (h + 5) [4]) h 28 =
  arp_packet op sha sip tha tip.
Proof.
  intros Hop Hs Ht. rewrite arp_parts. unfold arp_packet. rewrite <-be16_bytes by done.
  change [0; 1] with (le_enc 2 (lwip_htons LWIP_IANA_HWTYPE_ETHERNET)). change [8; 0] with (le_enc 2 (lwip_htons ETHTYPE_IP)).
  f_equal; [find_store|]. f_equal; [find_store|]. f_equal; [find_store|]. f_equal; [find_store|]. f_equal; [find_store|]. f_equal; [find_store|].
  f_equal; [find_store|]. f_equal; find_store.
Qed.
(** Where the packet goes: packets from link-local addresses are broadcast. *)
Definition arp_dest (ipsrc : Z) (dst : list Z) : list Z := if ip4_addr_islinklocal ipsrc then ethbroadcast else dst.

(** The bytes of the buffers that have memory of their own are as they were. *)
Definition bytes_kept (s : N) (L : livep) (s' : N) : Prop :=
  ∀ x a, owns L x → in_payload (pbufs (packets s)) x a → bytes (packets s') a = bytes (packets s) a.

(** Has the heap a block for the buffer of an ARP packet? *)
Definition arp_room (s : N) : bool := heap_serves (heap (packets s)) (ram_size PBUF_LINK SIZEOF_ETHARP_HDR).

Lemma raw_run s L hs n esrc edst sha sip tha tip op (Q : Z → N → Prop) : holding (packets s) L hs → n ≠ NULL → hwaddr_len (netifs s n) = ETH_HWADDR_LEN →
  length esrc = 6%nat → length edst = 6%nat → length sha = 6%nat → length tha = 6%nat → 0 ≤ op < 65536 →
  (∀ r s' L', holding (packets s') L' hs → same_arp s s' → chains_intact (packets s) (packets s') hs → bytes_kept s L s' →
     (arp_room s = false ∧ r = ERR_MEM ∧ wire (device s') = wire (device s) ∨
      arp_room s = true ∧ r = ERR_OK ∧ wire (device s') = wire (device s) ++ [(n, frame (arp_dest sip edst) esrc ETHTYPE_ARP (arp_packet op sha sip tha tip))]) → Q r s') →
  wp (etharp_raw custom_free_function n esrc edst sha sip tha tip op) Q s.
Proof.
  intros Hh Hn Heth Les Led Lsh Lth Hop HQ. unfold etharp_raw. apply wp_bind, wp_assert; [by apply negb_true_iff, Z.eqb_neq|].
  apply wp_bind, wp_in_packets. unfold pbuf_alloc. change (u16 PBUF_LINK) with PBUF_LINK. cbn [Z.eqb orb].
  change ((PBUF_RAM =? PBUF_REF) || (PBUF_RAM =? PBUF_ROM)) with false. change (PBUF_RAM =? PBUF_POOL) with false. change (PBUF_RAM =? PBUF_RAM) with true. cbv iota.
  pose proof Hh as [K1 K2]. apply (alloc_ram_run O (packets s) L); [by apply K1|unfold SIZEOF_ETHARP_HDR; lia|unfold PBUF_LINK, PBUF_TRANSPORT; lia| |].
  { intros p' Hno Hp'. destruct (before_holding O _ _ _ _ Hh Hp') as [Hh' Hc']. change (NULL =? NULL) with true. cbv iota. apply wp_ret, (HQ _ _ L); try done; [|by left].
    intros x a _ _. cbn [packets with_packets]. by destruct Hp' as (_ & _ & ->). }
  intros p1 L1 p Hyes Hf [Ho Hroom] Hcont. destruct (fresh_holding O _ _ _ _ _ _ _ _ Hh Hf) as (Hh1 & Hc1 & Hin1). destruct Hf as [F1 F2 F3 F4 F5 F6 F7 F8 F9 F10].
  assert (HpA : p ∈ all L1) by (apply (holding_handle _ _ _ _ _ Hh1), list_elem_of_here). pose proof (holding_nonnull _ _ _ _ _ Hh1 HpA) as Hp0.
  rewrite (proj2 (Z.eqb_neq p NULL) Hp0). assert (Hlen : len (pbufs p1 p) = 28) by (simpl in F6; unfold SIZEOF_ETHARP_HDR in F6; lia).
  apply wp_bind, wp_in_packets, wp_pb; [done|]. cbn [packets with_packets]. apply wp_bind, wp_assert; [by rewrite Hlen|]. set (h := payload (pbufs p1 p)).
  apply wp_bind, wp_store. apply wp_bind, wp_gets. cbn [netifs with_packets]. apply wp_bind, wp_assert; [by apply Z.eqb_eq|].
  do 8 apply wp_bind, wp_store. cbn [packets bytes with_packets with_bytes].
  match goal with |- wp _ _ ?t => set (b := bytes (packets t)); change t with (with_packets (with_bytes b p1) s) end.
  set (s1 := with_packets (with_bytes b p1) s).
  assert (Hs1 : holding (packets s1) L1 (p :: hs)) by by apply holding_bytes.
  assert (Hready : ready s1 L1 p []).
  { split; [split|]; cbn [packets s1 with_packets pbufs with_bytes]; try done.
    - unfold SIZEOF_ETH_HDR, PBUF_LINK in *. lia.
    - simpl. rewrite Hlen. unfold SIZEOF_ETH_HDR. lia. }
  apply wp_bind, (ethernet_output_run s1 L1 (p :: hs)); [done|done|done|].
  intros r s2 Hh2 (E1 & E2 & E3) Hoth Hnext _ Hsent.
  destruct (Hsent [] Hready) as [Hwire Hbytes]; [done|by destruct (ip4_addr_islinklocal sip)|by unfold ETHTYPE_ARP; lia|].
  apply wp_bind, wp_in_packets, (give_run O custom_free_function _ L1 p hs); [done|].
  intros r3 p3 L3 Hh3 Hc3 Hb3. apply wp_ret. apply (HQ _ _ L3); [done|done| | |].
  - cbn [packets with_packets]. apply (chains_trans _ p1 _ hs hs); [done| |done]. apply (chains_trans _ (packets s2) _ hs hs); [|done|done].
    intros k l Hk Hl x Hx. assert (Hxp : x ≠ p) by (intros ->; apply (F3 p (list_elem_of_here _ _)); by apply (Hin1 k l)).
    rewrite Hoth by done. by split.
  - intros x a Hx Ha. cbn [packets with_packets]. rewrite Hb3.
    assert (HxA : x ∈ all L) by by apply owns_all. assert (Hxp : x ≠ p) by (intros ->; by apply (F3 p (list_elem_of_here _ _))).
    assert (Ex : pbufs p1 x = pbufs (packets s) x) by (apply F9; by intros ->%list_elem_of_singleton).
    assert (Hx1 : owns L1 x) by (apply (owns_kept O (packets s) L p1 L1); [apply K1|apply Hh1|done|done|rewrite F2; set_solver]).
    assert (Ha1 : in_payload (pbufs p1) x a) by (unfold in_payload; by rewrite Ex).
    rewrite (Hbytes x a) by done. cbn [packets s1 with_packets bytes with_bytes]. unfold b. cbn [packets bytes with_packets with_bytes].
    assert (Hout : ¬ (h ≤ a < h + 28)).
    { intros Hin. apply Hxp. apply (owned_apart O p1 L1 x p a); [apply Hh1|done|apply Ho, list_elem_of_here|done|]. unfold in_payload. fold h. lia. }
    rewrite !mem_store_out; [by rewrite F10|rewrite ?length_le_enc; cbn [length]; lia..].
  - right. split; [done|]. split; [done|]. cbn [device with_packets]. rewrite Hwire.
    do 3 f_equal. unfold arp_dest. f_equal. cbn [packets s1 with_packets pbufs bytes with_bytes]. unfold content. simpl. rewrite app_nil_r.
    unfold data. rewrite Hlen. fold h. change (Z.to_nat 28) with 28%nat. by apply arp_bytes.
Qed.
End etharp_level.
