(* ===== verification/LwipEtharpOps.v ===== *)
(** * LwipEtharpOps: the operations of address resolution, one by one

    Each lemma runs one function of LwipEtharp from a state in which the table
    is well formed and the packets are held as LwipEtharpInv says, and tells
    what it leaves: the table, the frames given to the driver, and the
    invariant again. *)

From Stdlib Require Import ZArith Lia.
From stdpp Require Import base numbers list option functions gmap sets fin_sets relations.
From S2P Require Import Prelude LwipBase LwipAddr LwipPbuf LwipPbufData LwipPbufOwn LwipPbufAlloc LwipPbufClient LwipPbufUse LwipEtharp LwipEtharpInv.
Open Scope Z_scope.

(** ** What a tick of the timer makes of an entry *)

Definition age_limit (e : etharp_entry) : Z := if state e =? ETHARP_STATE_PENDING then ARP_MAXPENDING else ARP_MAXAGE.
Definition tick (e : etharp_entry) : etharp_entry :=
  if state e =? ETHARP_STATE_EMPTY then e
  else
    let e := with_ctime (ctime e + 1) e in
    if age_limit e <=? ctime e then with_state ETHARP_STATE_EMPTY (with_q NULL e)
    else if state e =? ETHARP_STATE_STABLE_REREQUESTING_1 then with_state ETHARP_STATE_STABLE_REREQUESTING_2 e
    else if state e =? ETHARP_STATE_STABLE_REREQUESTING_2 then with_state ETHARP_STATE_STABLE e
    else e.

Ltac arp_states := unfold ETHARP_STATE_EMPTY, ETHARP_STATE_PENDING, ETHARP_STATE_STABLE, ETHARP_STATE_STABLE_REREQUESTING_1,
  ETHARP_STATE_STABLE_REREQUESTING_2, ARP_MAXAGE, ARP_MAXPENDING in *.

Lemma expiry e : (ARP_MAXAGE <=? ctime e) || ((state e =? ETHARP_STATE_PENDING) && (ARP_MAXPENDING <=? ctime e)) = (age_limit e <=? ctime e).
Proof.
  unfold age_limit. arp_states. destruct (Z.eqb_spec (state e) 1); cbn [andb]; [|by rewrite orb_false_r].
  destruct (Z.leb_spec 5 (ctime e)), (Z.leb_spec 300 (ctime e)); done || lia.
Qed.
Lemma ctime_next e v : 0 ≤ v < 65536 → ctime (with_ctime v e) = v.
Proof. intros Hv. cbn. by apply Z.mod_small. Qed.

(** Until it expires an entry keeps its kind and grows older. *)
Lemma tick_alive e : entry_ok e → state e ≠ ETHARP_STATE_EMPTY → ctime e + 1 < age_limit e →
  entry_ok (tick e) ∧ state (tick e) ≠ ETHARP_STATE_EMPTY ∧ ctime (tick e) = ctime e + 1 ∧ age_limit (tick e) = age_limit e ∧
  ipaddr (tick e) = ipaddr e ∧ netif_of (tick e) = netif_of e ∧ q (tick e) = q e ∧ ethaddr (tick e) = ethaddr e.
Proof.
  intros [E1 E2 E3 E4 E5] Hs Hlt. pose proof (E3 Hs) as Hage. change (if state e =? ETHARP_STATE_PENDING then ARP_MAXPENDING else ARP_MAXAGE) with (age_limit e) in Hage.
  assert (Hl : age_limit e ≤ 300) by (unfold age_limit; arp_states; destruct (state e =? 1); lia).
  unfold tick. rewrite (proj2 (Z.eqb_neq _ _) Hs). set (e1 := with_ctime (ctime e + 1) e).
  assert (Ec : ctime e1 = ctime e + 1) by (apply ctime_next; lia). change (age_limit e1) with (age_limit e). rewrite (proj2 (Z.leb_gt _ _)) by lia.
  change (state e1) with (state e).
  assert (Hok : ∀ v, 0 ≤ v ≤ 4 → v ≠ ETHARP_STATE_EMPTY → (v =? ETHARP_STATE_PENDING) = (state e =? ETHARP_STATE_PENDING) → entry_ok (with_state v e1) ∧ age_limit (with_state v e1) = age_limit e).
  { intros v Hv Hv0 Hp. assert (El : age_limit (with_state v e1) = age_limit e) by (unfold age_limit; cbn [state with_state]; by rewrite Hp). split; [|done].
    split; cbn [state q netif_of ethaddr with_state e1 with_ctime]; try done.
    - intros Hv1. apply E2. intros Hp1. rewrite Hp1, Z.eqb_refl in Hp. by apply Z.eqb_eq in Hp.
    - intros _. change (0 ≤ ctime e1 < age_limit (with_state v e1)). rewrite El, Ec. lia.
    - intros _. by apply E4. }
  destruct (Z.eqb_spec (state e) ETHARP_STATE_STABLE_REREQUESTING_1) as [S1|S1]; [|destruct (Z.eqb_spec (state e) ETHARP_STATE_STABLE_REREQUESTING_2) as [S2|S2]].
  - destruct (Hok ETHARP_STATE_STABLE_REREQUESTING_2) as [H1 H2]; [arp_states; lia|done|by rewrite S1|]. done.
  - destruct (Hok ETHARP_STATE_STABLE) as [H1 H2]; [arp_states; lia|done|by rewrite S2|]. done.
  - replace e1 with (with_state (state e) e1) by (by destruct e). destruct (Hok (state e)) as [H1 H2]; [lia|done|done|]. done.
Qed.
Lemma tick_gone e : entry_ok e → state e ≠ ETHARP_STATE_EMPTY → age_limit e ≤ ctime e + 1 →
  entry_ok (tick e) ∧ state (tick e) = ETHARP_STATE_EMPTY.
Proof.
  intros [E1 E2 E3 E4 E5] Hs Hle. pose proof (E3 Hs) as Hage.
  assert (Hc : 0 ≤ ctime e + 1 < 65536) by (arp_states; destruct (state e =? 1); lia).
  unfold tick. rewrite (proj2 (Z.eqb_neq _ _) Hs). set (e1 := with_ctime (ctime e + 1) e).
  assert (Ec : ctime e1 = ctime e + 1) by by apply ctime_next. change (age_limit e1) with (age_limit e). rewrite (proj2 (Z.leb_le _ _)) by lia.
  split; [|done]. split; cbn [state q netif_of ethaddr with_state e1 with_ctime with_q]; done.
Qed.
Lemma tick_empty e : state e = ETHARP_STATE_EMPTY → tick e = e.
Proof. intros Hs. unfold tick. by rewrite Hs. Qed.
Lemma tick_ok e : entry_ok e → entry_ok (tick e).
Proof.
  intros He. destruct (decide (state e = ETHARP_STATE_EMPTY)) as [Hs|Hs]; [by rewrite tick_empty|].
  destruct (Z.lt_ge_cases (ctime e + 1) (age_limit e)); [by apply tick_alive|by apply tick_gone].
Qed.
Lemma tick_key e : entry_ok e → state (tick e) ≠ ETHARP_STATE_EMPTY → state e ≠ ETHARP_STATE_EMPTY ∧ ipaddr (tick e) = ipaddr e ∧ netif_of (tick e) = netif_of e.
Proof.
  intros He Hs. destruct (decide (state e = ETHARP_STATE_EMPTY)) as [Hs0|Hs0]; [by rewrite tick_empty in Hs|].
  destruct (Z.lt_ge_cases (ctime e + 1) (age_limit e)) as [Hlt|Hge].
  - destruct (tick_alive e He Hs0 Hlt) as (_ & _ & _ & _ & ? & ? & _). done.
  - by destruct (tick_gone e He Hs0 Hge).
Qed.
(** [n] ticks later an entry in use is gone exactly if its time is up. *)
Lemma ticks_gone e n : entry_ok e → state e ≠ ETHARP_STATE_EMPTY →
  state (Nat.iter n tick e) = ETHARP_STATE_EMPTY ↔ age_limit e ≤ ctime e + Z.of_nat n.
Proof.
  revert e. induction n as [|n IH]; intros e He Hs.
  - simpl. split; [done|]. destruct (eo_age _ He Hs). fold (age_limit e) in *. lia.
  - rewrite Nat.iter_succ_r. destruct (Z.lt_ge_cases (ctime e + 1) (age_limit e)) as [Hlt|Hge].
    + destruct (tick_alive e He Hs Hlt) as (K1 & K2 & K3 & K4 & _). rewrite IH by done. rewrite K3, K4. lia.
    + destruct (tick_gone e He Hs Hge) as [K1 K2]. assert (Hn : ∀ k, state (Nat.iter k tick (tick e)) = ETHARP_STATE_EMPTY).
      { intros k. induction k as [|k IHk]; [done|]. simpl. by rewrite tick_empty. }
      rewrite Hn. split; [lia|done].
Qed.

(** ** Keys *)

Lemma matches_key a n e : n ≠ NULL → matches (Some a) n e = true ↔ ipaddr e = a ∧ netif_of e = n.
Proof.
  intros Hn. unfold matches. rewrite (proj2 (Z.eqb_neq n NULL) Hn). cbn [orb]. rewrite andb_true_iff, !Z.eqb_eq. intuition congruence.
Qed.

Section ops.
Context {H M D : Type} `{Heaps H} `{Pools M} `{!PbufMemory H M} `{!Link H M D}.
Abbreviation N := (net H M D).
Context (O : gmap Z Z).
Context (custom_free_function : Z → comp (pstate H M) unit).
Abbreviation ongoing := (ongoing O).
Abbreviation arp_inv := (arp_inv O).

Definition eths (s : N) : Prop := ∀ n, hwaddr_len (netifs s n) = ETH_HWADDR_LEN ∧ length (hwaddr (netifs s n)) = 6%nat.
Definition sends (s s' : N) (fs : list (Z * list Z)) : Prop := wire (device s') = wire (device s) ++ fs.

(** ** Requests *)

Definition request_frame (ni : netif) (dst : list Z) (ip : Z) : list Z :=
  frame (arp_dest (ip_addr ni) dst) (hwaddr ni) ETHTYPE_ARP (arp_packet ARP_REQUEST (hwaddr ni) (ip_addr ni) ethzero ip).

Lemma raw_ongoing hs s0 s L n esrc edst sha sip tha tip op (Q : Z → N → Prop) : ongoing hs s0 s L → n ≠ NULL → eths s →
  length esrc = 6%nat → length edst = 6%nat → length sha = 6%nat → length tha = 6%nat → 0 ≤ op < 65536 →
  (∀ r s' L', ongoing hs s0 s' L' → same_arp s s' → bytes_kept s L s' →
     (arp_room s = false ∧ r = ERR_MEM ∧ sends s s' [] ∨ arp_room s = true ∧ r = ERR_OK ∧ sends s s' [(n, frame (arp_dest sip edst) esrc ETHTYPE_ARP (arp_packet op sha sip tha tip))]) → Q r s') →
  wp (etharp_raw custom_free_function n esrc edst sha sip tha tip op) Q s.
Proof.
  intros [A1 A2 A3] Hn He L1 L2 L3 L4 Hop HQ. apply (raw_run O custom_free_function s L (waiting (arp_table s) ++ hs)); [done|done|apply He|done..|].
  intros r s' L' Hh (E1 & E2 & E3) Hc Hb Hr. apply (HQ r s' L'); [|done|done|unfold sends; by rewrite app_nil_r].
  split; [by rewrite E1|congruence|]. apply (chains_trans _ (packets s) _ hs (waiting (arp_table s) ++ hs)); [done|done|].
  intros h Hh'. apply elem_of_app. by right.
Qed.
Lemma request_run hs s0 s L n ip dst (Q : Z → N → Prop) : ongoing hs s0 s L → n ≠ NULL → eths s → length dst = 6%nat →
  (∀ r s' L', ongoing hs s0 s' L' → same_arp s s' → bytes_kept s L s' →
     (arp_room s = false ∧ r = ERR_MEM ∧ sends s s' [] ∨ arp_room s = true ∧ r = ERR_OK ∧ sends s s' [(n, request_frame (netifs s n) dst ip)]) → Q r s') →
  wp (etharp_request_dst custom_free_function n ip dst) Q s.
Proof.
  intros Ho Hn He Hd HQ. unfold etharp_request_dst. apply wp_bind, wp_gets. destruct (He n) as [_ Hl].
  apply (raw_ongoing hs s0 s L); [done..|unfold ARP_REQUEST; lia|done].
Qed.

(** ** The timer *)

(** The table when the entries before [i] have been treated. *)
Definition treated (f : etharp_entry → etharp_entry) (t : list etharp_entry) (i : nat) : list etharp_entry := map f (take i t) ++ drop i t.
Lemma treated_lookup f t i e : t !! i = Some e → treated f t i !! i = Some e.
Proof.
  intros He. pose proof (lookup_lt_Some _ _ _ He). unfold treated. rewrite lookup_app_r; rewrite length_map, length_take; [|lia].
  rewrite lookup_drop. rewrite <-He. f_equal. lia.
Qed.
Lemma treated_next f t i e : t !! i = Some e → <[i := f e]> (treated f t i) = treated f t (Datatypes.S i).
Proof.
  intros He. unfold treated. rewrite (take_S_r _ _ _ He), map_app, <-app_assoc. rewrite (drop_S _ _ _ He).
  pose proof (lookup_lt_Some _ _ _ He). assert (El : length (map f (take i t)) = i) by (rewrite length_map, length_take; lia).
  rewrite <-El at 1. by rewrite list_insert_alter, alter_app_r_alt, Nat.sub_diag.
Qed.
Lemma treated_done f t i : length t = i → treated f t i = map f t.
Proof. intros <-. unfold treated. by rewrite take_ge, drop_ge, app_nil_r. Qed.
Lemma table_ok_map f t : table_ok t → (∀ e, entry_ok e → entry_ok (f e) ∧
    (state (f e) ≠ ETHARP_STATE_EMPTY → state e ≠ ETHARP_STATE_EMPTY ∧ ipaddr (f e) = ipaddr e ∧ netif_of (f e) = netif_of e)) → table_ok (map f t).
Proof.
  intros [T1 T2 T3] Hf. split.
  - by rewrite length_map.
  - intros i e' (e & -> & He)%list_lookup_fmap_Some. by apply Hf, (T2 i).
  - intros i j a' b' (a & -> & Ha)%list_lookup_fmap_Some (b & -> & Hb)%list_lookup_fmap_Some Sa Sb Ei En.
    destruct (Hf a (T2 _ _ Ha)) as [_ Ka], (Hf b (T2 _ _ Hb)) as [_ Kb]. destruct (Ka Sa) as (? & ? & ?), (Kb Sb) as (? & ? & ?).
    apply (T3 i j a b); congruence.
Qed.

(** Setting an entry in the middle of an operation. *)
Lemma set_entry_run hs s0 s L i e f (Q : unit → N → Prop) : ongoing hs s0 s L → 0 ≤ i → arp_table s !! Z.to_nat i = Some e → q (f e) = q e →
  (∀ s', ongoing hs s0 s' L → s' = with_table (<[Z.to_nat i := f e]> (arp_table s)) s → Q tt s') → wp (set_entry i f) Q s.
Proof. intros Ho Hi He Hq HQ. apply (wp_set_entry _ e); [done|done|]. apply HQ; [|done]. by apply (ongoing_entry _ _ _ _ _ _ e). Qed.

(** Treating the entries one after the other. *)
Lemma entries_run f body hs s L (Q : unit → N → Prop) : arp_inv s L hs →
  (∀ i e s1 L1 (Q' : unit → N → Prop), 0 ≤ i → entry_ok e → ongoing hs s s1 L1 → arp_table s1 !! Z.to_nat i = Some e →
     (∀ s2 L2, ongoing hs s s2 L2 → arp_table s2 = <[Z.to_nat i := f e]> (arp_table s1) → etharp_cached_entry s2 = etharp_cached_entry s1 → Q' tt s2) →
     wp (body i) Q' s1) →
  (∀ s' L', ongoing hs s s' L' → arp_table s' = map f (arp_table s) → etharp_cached_entry s' = etharp_cached_entry s → Q tt s') →
  wp (for_each 0 ARP_TABLE_SIZE body) Q s.
Proof.
  intros Hi Hbody HQ. pose proof Hi as [Ht Hh Hc He]. pose proof (to_length _ Ht) as Hl. set (t := arp_table s) in *.
  apply (wp_for_each (λ i s', ∃ L', ongoing hs s s' L' ∧ arp_table s' = treated f t (Z.to_nat i) ∧ etharp_cached_entry s' = etharp_cached_entry s)).
  - unfold ARP_TABLE_SIZE. lia.
  - exists L. split; [by eapply ongoing_refl|]. done.
  - intros i s1 Hir (L1 & Ho & Et & Ec). destruct (table_entry t i Ht Hir) as (e & Hte & Heo).
    apply (Hbody i e s1 L1); [lia|done|done|rewrite Et; by apply treated_lookup|]. intros s2 L2 Ho2 Et2 Ec2. exists L2. split; [done|].
    replace (Z.to_nat (i + 1)) with (Datatypes.S (Z.to_nat i)) by lia. rewrite Et2, Et, (treated_next f t _ e Hte). split; [done|congruence].
  - intros s1 (L1 & Ho & Et & Ec). apply (HQ s1 L1); [done| |done]. rewrite Et. apply treated_done. unfold ARP_TABLE_SIZE in *. lia.
Qed.

Lemma tmr_run hs s L (Q : unit → N → Prop) : arp_inv s L hs →
  (∀ s' L', ongoing hs s s' L' → arp_table s' = map tick (arp_table s) → etharp_cached_entry s' = etharp_cached_entry s → Q tt s') →
  wp (etharp_tmr custom_free_function) Q s.
Proof.
  intros Hi HQ. apply (entries_run tick _ hs s L); [done| |done]. clear HQ Q.
  intros i e s1 L1 Q Hi0 Heo Ho Hte Hfin. pose proof Hi as [_ _ _ He]. pose proof (lookup_lt_Some _ _ _ Hte) as Hlt.
  apply wp_bind, (wp_entry _ e); [lia|done|]. unfold tick in Hfin. destruct (Z.eqb_spec (state e) ETHARP_STATE_EMPTY) as [Hs|Hs]; cbn [negb].
  { apply wp_ret. apply (Hfin s1 L1); [done|by rewrite list_insert_id|done]. }
  apply wp_bind, (set_entry_run hs s s1 L1 i e); [done|lia|done|done|]. intros s2 Ho2 ->. set (e1 := with_ctime (ctime e + 1) e) in *.
  eapply wp_bind, wp_entry; [lia|by apply list_lookup_insert_eq|]. rewrite expiry.
  assert (Hset : ∀ f, q (f e1) = q e1 → (∀ s' L', ongoing hs s s' L' → arp_table s' = <[Z.to_nat i := f e1]> (arp_table s1) → etharp_cached_entry s' = etharp_cached_entry s1 → Q tt s') →
    wp (set_entry i f) Q (with_table (<[Z.to_nat i := e1]> (arp_table s1)) s1)).
  { intros f Hf HQ'. apply (set_entry_run hs s _ L1 i e1); [done|lia|by apply list_lookup_insert_eq|done|].
    intros s' Hos' ->. apply (HQ' _ L1); [done|cbn [arp_table with_table]; by rewrite list_insert_insert_eq|done]. }
  destruct (age_limit e1 <=? ctime e1).
  { apply (free_entry_run O custom_free_function _ hs s L1 i e1); [done|lia|by apply list_lookup_insert_eq|].
    intros s3 L3 Ho3 Et3 Ec3 _ _ _. apply (Hfin s3 L3); [done| |done]. rewrite Et3. cbn [arp_table with_table]. by rewrite list_insert_insert_eq. }
  destruct (state e1 =? ETHARP_STATE_STABLE_REREQUESTING_1); [by apply Hset|].
  destruct (state e1 =? ETHARP_STATE_STABLE_REREQUESTING_2); [by apply Hset|].
  destruct (state e1 =? ETHARP_STATE_PENDING); [|apply wp_ret; by apply (Hfin _ L1)].
  apply wp_bind, (request_run hs s _ L1); [done|by apply (eo_netif _ Heo)|intros n; cbn [netifs with_table]; rewrite (og_netifs _ _ _ _ _ Ho); apply He|done|].
  intros r s3 L3 Ho3 (E1 & E2 & E3) _ _. apply wp_ret. apply (Hfin s3 L3); [done|by rewrite E1|by rewrite E2].
Qed.

(** ** An interface goes down *)

Definition clean (n : Z) (e : etharp_entry) : etharp_entry :=
  if negb (state e =? ETHARP_STATE_EMPTY) && (netif_of e =? n) then with_state ETHARP_STATE_EMPTY (with_q NULL e) else e.
Lemma freed_ok e : entry_ok e → entry_ok (with_state ETHARP_STATE_EMPTY (with_q NULL e)).
Proof. intros [E1 E2 E3 E4 E5]. split; cbn [state q netif_of ethaddr with_state with_q]; done. Qed.
Lemma clean_ok n e : entry_ok e → entry_ok (clean n e).
Proof. intros He. unfold clean. destruct (_ && _); [by apply freed_ok|done]. Qed.
Lemma clean_key n e : state (clean n e) ≠ ETHARP_STATE_EMPTY → clean n e = e ∧ (state e = ETHARP_STATE_EMPTY ∨ netif_of e ≠ n).
Proof.
  unfold clean. destruct (Z.eqb_spec (state e) ETHARP_STATE_EMPTY); cbn [negb andb]; [by auto|]. destruct (Z.eqb_spec (netif_of e) n); [done|by auto].
Qed.
Lemma cleanup_run hs s L n (Q : unit → N → Prop) : arp_inv s L hs →
  (∀ s' L', ongoing hs s s' L' → arp_table s' = map (clean n) (arp_table s) → etharp_cached_entry s' = etharp_cached_entry s → Q tt s') →
  wp (etharp_cleanup_netif custom_free_function n) Q s.
Proof.
  intros Hi HQ. apply (entries_run (clean n) _ hs s L); [done| |done]. clear HQ Q.
  intros i e s1 L1 Q Hi0 Heo Ho Hte Hfin. apply wp_bind, (wp_entry _ e); [lia|done|]. unfold clean in Hfin. destruct (_ && _).
  - apply (free_entry_run O custom_free_function _ hs s L1 i e); [done|lia|done|]. intros. by eapply Hfin.
  - apply wp_ret. apply (Hfin s1 L1); [done|by rewrite list_insert_id|done].
Qed.

(** ** An address is learned *)

Definition resolved (a n : Z) (eth : list Z) : etharp_entry := MkEntry NULL a n eth 0 ETHARP_STATE_STABLE.
(** The packet [p] that waited, if any, has been sent to [eth]. *)
Record resolution (s : N) (L : livep) (n : Z) (eth : list Z) (p : Z) (s' : N) : Prop := Resolution {
  rs_none : p = NULL → packets s' = packets s ∧ device s' = device s;
  rs_sent : ∀ l, p ≠ NULL → ready s L p l →
    sends s s' [(n, frame eth (hwaddr (netifs s n)) ETHTYPE_IP (content (pbufs (packets s)) (bytes (packets s)) (p :: l)))] ∧
    ∀ x a, x ≠ p → owns L x → in_payload (pbufs (packets s)) x a → bytes (packets s') a = bytes (packets s) a
}.

Lemma arp_inv_of s L hs : table_ok (arp_table s) → holding O (packets s) L (waiting (arp_table s) ++ hs) → 0 ≤ etharp_cached_entry s < ARP_TABLE_SIZE → eths s → arp_inv s L hs.
Proof. by split. Qed.
Lemma resolved_ok a n eth : n ≠ NULL → length eth = 6%nat → entry_ok (resolved a n eth).
Proof. intros Hn He. split; cbn [resolved state q ctime netif_of ethaddr]; [arp_states; lia|done| |done|done]. intros _. split; [lia|done]. Qed.

Lemma resolve_run s L hs i e a n eth (Q : Z → N → Prop) : arp_inv s L hs → 0 ≤ i → arp_table s !! Z.to_nat i = Some e → n ≠ NULL →
  length eth = 6%nat → ipaddr e = a →
  (∀ j d, j ≠ Z.to_nat i → arp_table s !! j = Some d → state d ≠ ETHARP_STATE_EMPTY → ipaddr d = a → netif_of d = n → False) →
  (∀ s' L', arp_inv s' L' hs → arp_table s' = <[Z.to_nat i := resolved a n eth]> (arp_table s) → etharp_cached_entry s' = etharp_cached_entry s →
     netifs s' = netifs s → resolution s L n eth (q e) s' → Q ERR_OK s') →
  wp (set_entry i (with_state ETHARP_STATE_STABLE);;
      set_entry i (with_netif n);;
      set_entry i (with_ethaddr eth);;
      set_entry i (with_ctime 0);;
      e ← entry i;
      (if negb (q e =? NULL) then
         let p := q e in
         set_entry i (with_q NULL);;
         _ ← ethernet_output n p (hwaddr (netifs s n)) eth ETHTYPE_IP;
         _ ← in_packets (pbuf_free custom_free_function p);
         mret tt
       else mret tt);;
      mret ERR_OK) Q s.
Proof.
  intros Hinv Hi He Hn Heth Ea Hkey HQ. pose proof Hinv as [Ht Hh Hc Hes]. pose proof (lookup_lt_Some _ _ _ He) as Hlt.
  do 4 (eapply wp_bind, wp_set_entry; [lia|first [exact He|cbn [arp_table with_table]; by apply list_lookup_insert_eq]|]; cbn [arp_table with_table]; rewrite ?list_insert_insert_eq).
  eapply wp_bind, wp_entry; [lia|cbn [arp_table with_table]; by apply list_lookup_insert_eq|]. cbn [q with_ctime with_ethaddr with_netif with_state].
  set (e1 := with_ctime 0 _). set (t' := <[Z.to_nat i := resolved a n eth]> (arp_table s)).
  assert (Er : with_q NULL e1 = resolved a n eth) by (unfold e1; destruct e; cbn in Ea; by subst).
  assert (Ht' : table_ok t') by (apply table_ok_insert; [done|by apply resolved_ok|]; intros _ j d Hj Hd Sd Ed Nd; by apply (Hkey j d Hj)).
  apply wp_bind. destruct (Z.eqb_spec (q e) NULL) as [Eq|Eq]; cbn [negb].
  - apply wp_ret, wp_ret. assert (Ee : e1 = resolved a n eth) by (rewrite <-Er, <-Eq; by destruct e). rewrite Ee.
    apply (HQ _ L); [|done..|by split].
    apply arp_inv_of; [done| |done|done]. eapply holding_perm; [|exact Hh]. intros x. cbn [arp_table with_table]. rewrite !hcount_app.
    pose proof (waiting_insert _ _ _ (resolved a n eth) x He) as E. unfold waits in E. rewrite Eq in E. simpl in E. fold t' in E |- *. lia.
  - cbv zeta. eapply wp_bind, wp_set_entry; [lia|cbn [arp_table with_table]; by apply list_lookup_insert_eq|]. cbn [arp_table with_table]. rewrite list_insert_insert_eq, Er. fold t'.
    change (with_table t' (with_table _ (with_table _ (with_table _ (with_table _ s))))) with (with_table t' s). set (s1 := with_table t' s).
    assert (Hh1 : holding O (packets s1) L (q e :: waiting t' ++ hs)).
    { eapply holding_perm; [|exact Hh]. intros x. simpl. rewrite !hcount_app.
      pose proof (waiting_insert _ _ _ (resolved a n eth) x He) as E. unfold waits in E. rewrite (proj2 (Z.eqb_neq _ _) Eq) in E. simpl in E. fold t' in E. lia. }
    pose proof (holding_handle _ _ _ _ _ Hh1 (list_elem_of_here _ _)) as HqA. destruct (Hes n) as [Hn1 Hn2].
    apply wp_bind, (ethernet_output_run O s1 L (q e :: waiting t' ++ hs)); [done|done|done|]. intros r s2 Hh2 (E1 & E2 & E3) _ _ _ Hsent.
    apply wp_bind, wp_in_packets, (give_run O custom_free_function _ L (q e) (waiting t' ++ hs)); [done|]. intros r3 p3 L3 Hh3 _ Hb3. apply wp_ret, wp_ret.
    apply (HQ _ L3); [|done|done|done|].
    + apply arp_inv_of; cbn [arp_table packets etharp_cached_entry netifs with_packets]; [by rewrite E1|by rewrite E1|by rewrite E2|unfold eths; cbn [netifs with_packets]; by rewrite E3].
    + split; [done|]. intros l _ Hr. destruct (Hsent l) as [W1 W2]; [by destruct Hr|done|done|unfold ETHTYPE_IP; lia|].
      split; [done|]. intros x b Hx Ho Hin. cbn [packets with_packets]. rewrite Hb3. by apply (W2 x b).
Qed.

(** The address is not that of one host. *)
Definition no_host (a : Z) (ni : netif) : bool := ip4_addr_isany a || ip4_addr_isbroadcast_u32 a ni || ip4_addr_ismulticast a.

Lemma new_entry_ok a n e : length (ethaddr e) = 6%nat → entry_ok (new_entry a n e).
Proof. intros He. split; cbn [new_entry state q ethaddr]; [arp_states; lia|done|done|done|done]. Qed.

Lemma update_run s L hs n a eth flags (Q : Z → N → Prop) : arp_inv s L hs → n ≠ NULL → length eth = 6%nat →
  (no_host a (netifs s n) = true → Q ERR_ARG s) →
  (no_match (arp_table s) a n → Z.land flags ETHARP_FLAG_FIND_ONLY ≠ 0 ∨ none_empty (arp_table s) ∧ Z.land flags ETHARP_FLAG_TRY_HARD = 0 → Q ERR_MEM s) →
  (∀ i e s' L', no_host a (netifs s n) = false → arp_inv s' L' hs → arp_table s' = <[Z.to_nat i := resolved a n eth]> (arp_table s) →
     etharp_cached_entry s' = etharp_cached_entry s → netifs s' = netifs s → arp_table s !! Z.to_nat i = Some e → 0 ≤ i →
     (state e ≠ ETHARP_STATE_EMPTY ∧ ipaddr e = a ∧ netif_of e = n ∧ resolution s L n eth (q e) s' ∨
      no_match (arp_table s) a n ∧ to_recycle (arp_table s) i e ∧ Z.land flags ETHARP_FLAG_FIND_ONLY = 0 ∧ device s' = device s ∧ bytes (packets s') = bytes (packets s)) → Q ERR_OK s') →
  wp (etharp_update_arp_entry custom_free_function n a eth flags) Q s.
Proof.
  intros Hinv Hn Heth Harg Hmem Hok. pose proof Hinv as [Ht Hh Hc Hes]. unfold etharp_update_arp_entry. apply wp_bind, wp_gets.
  apply wp_bind, wp_assert; [apply Z.eqb_eq; apply Hes|]. fold (no_host a (netifs s n)). destruct (no_host a (netifs s n)) eqn:Hnh; [by apply wp_ret, Harg|].
  apply wp_bind, (find_entry_run O custom_free_function s hs s L a flags n); [done|by apply ongoing_refl| | |].
  - intros i e Hi He Hs Hm. rewrite (proj2 (Z.ltb_ge i 0)) by lia. apply matches_key in Hm as [Ea En]; [|done].
    apply (resolve_run s L hs i e a n eth); [done|lia|done|done|done|done| |].
    + intros j d Hj Hd Sd Ed Nd. apply Hj. apply (to_keys _ Ht j _ d e); [done|done|done|done|congruence|congruence].
    + intros s' L' I1 I2 I3 I4 I5. apply (Hok i e s' L'); try done; [lia|]. by left.
  - intros Hnm Hf. change (ERR_MEM <? 0) with true. apply wp_ret. by apply Hmem.
  - intros i e s1 L1 Hnm Hr Hf Hth Ho1 Et1 Ec1 Ed1 Eb1 _. pose proof Hr as (Hi & He & _). rewrite (proj2 (Z.ltb_ge i 0)) by lia.
    pose proof (lookup_lt_Some _ _ _ He) as Hlt. rewrite <-(og_netifs _ _ _ _ _ Ho1).
    assert (Ht1 : table_ok (arp_table s1)).
    { rewrite Et1. apply table_ok_insert; [done|apply new_entry_ok, (to_entries _ Ht _ _ He)|done]. }
    assert (Hinv1 : arp_inv s1 L1 hs) by (apply (arp_inv_after _ s L); [done|done|done|by rewrite Ec1]).
    apply (resolve_run s1 L1 hs i (new_entry a n e) a n eth); [done|lia|rewrite Et1; by apply list_lookup_insert_eq|done|done|done| |].
    + intros j d Hj Hd Sd Ed Nd. rewrite Et1, list_lookup_insert_ne in Hd by done. pose proof (Hnm j d Hd Sd) as Hm.
      rewrite (proj2 (matches_key a n d Hn)) in Hm by done. done.
    + intros s' L' I1 I2 I3 I4 [I5 _]. destruct (I5 eq_refl) as [I6 I7]. apply (Hok i e s' L'); try done.
      * by rewrite I2, Et1, list_insert_insert_eq.
      * by rewrite I3.
      * by rewrite I4, (og_netifs _ _ _ _ _ Ho1).
      * lia.
      * right. split_and!; [done|done|done|by rewrite I7|by rewrite I6].
Qed.

(** ** A packet waits *)

Definition volatile_in (m : Z → pbuf) (l : list Z) : bool := existsb (λ x, PBUF_NEEDS_COPY (m x)) l.
Lemma copy_needed_run s p l (Q : bool → N → Prop) : pkt (pbufs (packets s)) p l → positive (pbufs (packets s)) l →
  Q (volatile_in (pbufs (packets s)) l) s → wp (copy_needed p) Q s.
Proof.
  intros Hk Hpos HQ. unfold copy_needed. apply wp_in_packets. set (m := pbufs (packets s)) in *.
  apply (wp_loop_ghost (λ r x t, t = packets s ∧ pkt m x r ∧ positive m r ∧ volatile_in m r = volatile_in m l) length _ _ l).
  - done.
  - destruct Hk. lia.
  - intros r x t (-> & Hr & Hp & Hv). rewrite (head_null m x r) by done. destruct r as [|y r]; cbn [negb].
    + apply wp_ret. rewrite <-Hv in HQ. by destruct s.
    + pose proof (pkt_head _ _ _ Hr) as E. simpl in E. subst x. apply wp_bind, wp_pb; [by eapply pkt_nonnull|]. fold m.
      pose proof (not_queue m y (y :: r) Hr Hp ltac:(done)) as Hq. apply wp_bind, wp_assert.
      { destruct (len (m y) =? tot_len (m y)); cbn [negb orb andb] in *; [|done]. by apply negb_false_iff in Hq. }
      cbn [volatile_in existsb] in Hv. destruct (PBUF_NEEDS_COPY (m y)); cbn [orb] in Hv; apply wp_ret.
      * rewrite <-Hv in HQ. by destruct s.
      * exists r. split; [|simpl; lia]. split; [done|]. split; [by eapply pkt_tail|]. split; [|done]. intros z Hz. by apply Hp, list_elem_of_further.
Qed.

(** A copied packet is held beside what was there. *)
Lemma copied_holding s L hs l s' L' x l' : holding O s L hs → held O s' L' (x :: hs) → copied s L l s' L' x l' → holding O s' L' (x :: hs).
Proof.
  intros [K1 K2] Hh' [C1 C2 C3 C4 C5 C6 C7]. split; [done|]. intros y Hy. rewrite C7, elem_of_union, elem_of_list_to_set in Hy. destruct Hy as [Hy|Hy].
  - pose proof (pkt_len _ _ _ y C2 Hy). pose proof (pkt_total _ _ _ C2). lia.
  - destruct (C5 y Hy) as [_ ->]. by apply K2.
Qed.
(** Entry [i] gets a reference of its own to the packet [p], or to a copy. *)
Lemma queue_run s L hs i e p l (Q : Z → N → Prop) : holding O (packets s) L (waiting (arp_table s) ++ hs) → 0 ≤ i → arp_table s !! Z.to_nat i = Some e →
  p ∈ all L → pkt (pbufs (packets s)) p l → positive (pbufs (packets s)) l → ref (pbufs (packets s) p) < 255 →
  (∀ s' L', volatile_in (pbufs (packets s)) l = true → holding O (packets s') L' (waiting (arp_table s) ++ hs) → same_arp s s' → device s' = device s → Q ERR_MEM s') →
  (∀ x s' L', x ≠ NULL → holding O (packets s') L' (waiting (arp_table s') ++ hs) → arp_table s' = <[Z.to_nat i := with_q x e]> (arp_table s) →
     etharp_cached_entry s' = etharp_cached_entry s → netifs s' = netifs s → device s' = device s →
     (volatile_in (pbufs (packets s)) l = false → q e = NULL → x = p ∧ L' = L ∧ bytes (packets s') = bytes (packets s) ∧
        ∀ y, same_fields (pbufs (packets s) y) (pbufs (packets s') y)) → Q ERR_OK s') →
  wp (queue_packet custom_free_function i p) Q s.
Proof.
  intros Hh Hi He Hp Hk Hpos Hr Hmem Hok. unfold queue_packet. apply wp_bind, (copy_needed_run s p l); [done|done|]. set (hs' := waiting (arp_table s) ++ hs) in *.
  set (t := arp_table s) in *. set (v := volatile_in _ _) in *. assert (Ev : v = volatile_in (pbufs (packets s)) l) by done. clearbody v. pose proof (lookup_lt_Some _ _ _ He) as Hlt.
  assert (Hrest : ∀ x p1 L1, x ≠ NULL → holding O p1 L1 (x :: hs') →
    (v = false → q e = NULL → x = p ∧ L1 = L ∧ bytes p1 = bytes (packets s) ∧ ∀ y, same_fields (pbufs (packets s) y) (pbufs p1 y)) →
    wp (if negb (x =? NULL) then
          e ← entry i;
          (if negb (q e =? NULL) then _ ← in_packets (pbuf_free custom_free_function (q e)); mret tt else mret tt);;
          set_entry i (with_q x);;
          mret ERR_OK
        else mret ERR_MEM) Q (with_packets p1 s)).
  { intros x p1 L1 Hx Hh1 Hsame. rewrite (proj2 (Z.eqb_neq x NULL) Hx). cbn [negb]. apply wp_bind, (wp_entry _ e); [lia|done|].
    set (t' := <[Z.to_nat i := with_q x e]> t).
    assert (Hcount : ∀ y, hcount y (waits e ++ waiting t' ++ hs) = hcount y (x :: hs')).
    { intros y. unfold hs'. change (x :: waiting t ++ hs) with ((x :: nil) ++ waiting t ++ hs). rewrite !hcount_app. pose proof (waiting_insert _ _ e (with_q x e) y He) as E. fold t t' in E.
      unfold waits in E at 2. cbn [q with_q] in E. rewrite (proj2 (Z.eqb_neq x NULL) Hx) in E. lia. }
    apply wp_bind. unfold waits in Hcount. destruct (Z.eqb_spec (q e) NULL) as [Eq|Eq]; cbn [negb].
    - apply wp_ret, wp_bind, (wp_set_entry _ e); [lia|done|]. apply wp_ret. apply (Hok x _ L1); try done.
      eapply holding_perm; [|exact Hh1]. exact Hcount.
    - apply wp_bind, wp_in_packets, (give_run O custom_free_function _ L1 (q e) (waiting t' ++ hs)); [eapply holding_perm; [|exact Hh1]; exact Hcount|].
      intros r p2 L2 Hh2 _ _. apply wp_ret, wp_bind, (wp_set_entry _ e); [lia|done|]. by apply wp_ret, (Hok x _ L2). }
  apply wp_bind. destruct v.
  - apply wp_in_packets, (clone_run O custom_free_function (packets s) L hs' p l); [by apply Hh|done|done|done|by vm_compute|by right| |].
    + intros p1 _ Hp1. change (NULL =? NULL) with true. cbn [negb]. apply wp_ret. destruct (before_holding O _ _ _ _ Hh Hp1) as [Hh1 _]. by apply (Hmem _ L).
    + intros p1 L1 x l' Hh1 Hcp _. assert (Hx : x ≠ NULL) by apply (held_nonnull _ _ _ _ _ Hh1), (held_handle _ _ _ _ _ Hh1), list_elem_of_here.
      apply (Hrest x p1 L1); [done|by eapply copied_holding|done].
  - apply wp_bind, wp_in_packets, (take_run O (packets s) L p hs'); [done|done|done|]. intros p1 Hh1 Hsame Hb. apply wp_ret.
    apply (Hrest p p1 L); [by eapply holding_nonnull|done|done].
Qed.

(** ** Packets to be sent *)

Definition sendable (s : N) (hs : list Z) (p : Z) (l : list Z) : Prop :=
  p ∈ hs ∧ ref (pbufs (packets s) p) < 255 ∧ pkt (pbufs (packets s)) p (p :: l) ∧ positive (pbufs (packets s)) (p :: l).
Lemma sendable_still hs s s' L' p l : ongoing hs s s' L' → sendable s hs p l →
  sendable s' hs p l ∧ intact (packets s) (packets s') (p :: l).
Proof.
  intros [_ _ Hc] (Hp & Hr & Hk & Hpos). pose proof (Hc p _ Hp (pk_links _ _ _ Hk)) as Hi. split; [|done].
  destruct (Hi p (list_elem_of_here _ _)) as [_ Hr']. split; [done|]. split; [lia|]. split; [by eapply intact_pkt|by eapply intact_positive].
Qed.
Lemma sendable_in s L hs p l : arp_inv s L hs → sendable s hs p l → p ∈ all L.
Proof. intros [_ Hh _ _] (Hp & _). apply (holding_handle _ _ _ _ _ Hh), elem_of_app. by right. Qed.
Lemma volatile_same (m m' : Z → pbuf) l : (∀ x, x ∈ l → same_fields (m x) (m' x)) → volatile_in m' l = volatile_in m l.
Proof.
  intros Hs. induction l as [|x l IH]; [done|]. cbn [volatile_in existsb]. f_equal.
  - unfold PBUF_NEEDS_COPY. by destruct (Hs x (list_elem_of_here _ _)) as (_ & _ & _ & _ & -> & _).
  - apply IH. intros y Hy. by apply Hs, list_elem_of_further.
Qed.
Lemma owns_still (s : pstate H M) L s' L' x : owned O s L → owned O s' L' → same_fields (pbufs s x) (pbufs s' x) →
  owns L x → x ∈ all L' → owns L' x.
Proof.
  intros Ho Ho' (_ & _ & _ & _ & E & _) Hx Hx'. apply (not_ref_owns O s'); [done|done|]. unfold pbuf_get_allocsrc. rewrite E. intros Er.
  unfold owns in Hx. apply elem_of_union in Hx as [Hx|[k Hx]%elem_of_dom].
  - destruct (ow_kpool _ _ _ Ho x Hx) as [[Ek _] _]. unfold pbuf_get_allocsrc in Ek. by rewrite Er in Ek.
  - destruct (ow_kheap _ _ _ Ho x k Hx) as [[Ek _] _]. unfold pbuf_get_allocsrc in Ek. by rewrite Er in Ek.
Qed.
(** A packet that is not touched can still be sent as it was. *)
Lemma ready_still (s : N) L s' L' p l : owned O (packets s) L → owned O (packets s') L' → bytes_kept s L s' → ready s L p l →
  (∀ x, x ∈ p :: l → same_fields (pbufs (packets s) x) (pbufs (packets s') x) ∧ x ∈ all L') →
  ready s' L' p l ∧ content (pbufs (packets s')) (bytes (packets s')) (p :: l) = content (pbufs (packets s)) (bytes (packets s)) (p :: l).
Proof.
  intros Ho Ho' Hb [[R1 R2 R3 R4] Hown] Hs. destruct (proj1 (Hs p (list_elem_of_here _ _))) as (_ & Ep & _ & _ & Et & _).
  assert (Hlen : ∀ x, x ∈ p :: l → len (pbufs (packets s') x) = len (pbufs (packets s) x) ∧ tot_len (pbufs (packets s') x) = tot_len (pbufs (packets s) x)).
  { intros x Hx. by destruct (Hs x Hx) as [(_ & _ & ? & ? & _) _]. }
  assert (Hpl : ∀ x, x ∈ p :: l → payload (pbufs (packets s') x) = payload (pbufs (packets s) x)).
  { intros x Hx. by destruct (Hs x Hx) as [(_ & ? & _) _]. }
  split; [split; [split|]|].
  - eapply pkt_frame; [|exact R1]. intros x Hx. by destruct (Hs x Hx) as [(? & _ & ? & ? & _) _].
  - unfold contiguous in *. by rewrite Et.
  - by rewrite Ep.
  - by rewrite (proj1 (totals_ext _ _ _ Hlen)).
  - intros x Hx. destruct (Hs x Hx) as [Hf HxA]. apply (owns_still (packets s) L (packets s') L'); [done|done|done|by apply Hown|done].
  - rewrite (content_frame (pbufs (packets s)) (pbufs (packets s'))) by (intros x Hx; split; [by apply Hlen|by apply Hpl]).
    apply content_ext. intros x a Hx Ha. apply (Hb x a); [by apply Hown|done].
Qed.

(** What becomes of packet [p :: l] once its entry is known. *)
Definition handed_over (s : N) (L : livep) (i : Z) (e : etharp_entry) (n p : Z) (l : list Z) (r : Z) (s' : N) (L' : livep) : Prop :=
  (stable e → ready s L p l →
     sends s s' [(n, frame (ethaddr e) (hwaddr (netifs s n)) ETHTYPE_IP (content (pbufs (packets s)) (bytes (packets s)) (p :: l)))] ∧ arp_table s' = arp_table s) ∧
  (idle e → volatile_in (pbufs (packets s)) (p :: l) = false →
     r = ERR_OK ∧ L' = L ∧ arp_table s' = <[Z.to_nat i := with_q p e]> (arp_table s) ∧ sends s s' [] ∧
     bytes (packets s') = bytes (packets s) ∧ ∀ y, same_fields (pbufs (packets s) y) (pbufs (packets s') y)).
Lemma hand_over_run s L hs i e n p l res (Q : Z → N → Prop) : arp_inv s L hs → 0 ≤ i < ARP_TABLE_SIZE → arp_table s !! Z.to_nat i = Some e →
  state e ≠ ETHARP_STATE_EMPTY → sendable s hs p l →
  (∀ r s' L', arp_inv s' L' hs → netifs s' = netifs s → handed_over s L i e n p l r s' L' → Q r s') →
  wp (e ← entry i;
      if ETHARP_STATE_STABLE <=? state e then
        set_addrhint i;;
        ethernet_output n p (hwaddr (netifs s n)) (ethaddr e) ETHTYPE_IP
      else if state e =? ETHARP_STATE_PENDING then queue_packet custom_free_function i p
      else mret res) Q s.
Proof.
  intros Hinv Hi He Hs Hp HQ. pose proof Hinv as [Ht Hh Hc Hes]. pose proof (to_entries _ Ht _ _ He) as Heo. pose proof (sendable_in _ _ _ _ _ Hinv Hp) as HpA.
  pose proof Hp as (_ & Hr & Hk & Hpos). apply wp_bind, (wp_entry _ e); [lia|done|]. destruct (Z.leb_spec ETHARP_STATE_STABLE (state e)) as [Hst|Hst].
  - unfold set_addrhint. apply wp_bind, wp_modify. destruct (Hes n) as [Hn1 Hn2].
    apply (ethernet_output_run O (with_cached i s) L (waiting (arp_table s) ++ hs)); [done|done|done|].
    intros r s' Hh' (E1 & E2 & E3) _ _ _ Hsent. apply (HQ r s' L); [|done|split].
    + apply arp_inv_of; [by rewrite E1|by rewrite E1|by rewrite E2|unfold eths; by rewrite E3].
    + intros _ Hrd. destruct (Hsent l) as [W1 _]; [by destruct Hrd|done|by apply Heo|unfold ETHTYPE_IP; lia|]. split; [exact W1|exact E1].
    + intros [Ep _]. rewrite Ep in Hst. arp_states. lia.
  - assert (Ep : state e = ETHARP_STATE_PENDING) by (pose proof (eo_state _ Heo); arp_states; lia). rewrite Ep, Z.eqb_refl.
    apply (queue_run s L hs i e p (p :: l)); [done|lia|done|done|done|done|done| |].
    + intros s' L' Hv Hh' (E1 & E2 & E3) Ed. apply (HQ _ s' L'); [|done|split].
      * apply arp_inv_of; [by rewrite E1|by rewrite E1|by rewrite E2|unfold eths; by rewrite E3].
      * intros Hst'. unfold stable in Hst'. lia.
      * intros _ Hv'. congruence.
    + intros x s' L' Hx Hh' Et Ec En Ed Hsame. apply (HQ _ s' L'); [|done|split].
      * apply arp_inv_of; [|done|by rewrite Ec|unfold eths; by rewrite En]. rewrite Et. apply (table_ok_same_key _ _ e); [done|done| |by intros _].
        destruct Heo as [E1 E2 E3 E4 E5]. by split; cbn [state q ctime netif_of ethaddr with_q].
      * intros Hst'. unfold stable in Hst'. lia.
      * intros [_ Eq] Hv. destruct (Hsame Hv Eq) as (-> & -> & Eb & Ef). split_and!; try done. unfold sends. by rewrite Ed, app_nil_r.
Qed.

(** A request for [a] goes out, provided there is [room] for it. *)
Definition asked (room : bool) (s : N) (n a : Z) : list (Z * list Z) := if room then [(n, request_frame (netifs s n) ethbroadcast a)] else [].
Lemma query_request_run s L hs i e n a p (new : bool) (Q : Z → N → Prop) : arp_inv s L hs → 0 ≤ i → arp_table s !! Z.to_nat i = Some e →
  state e ≠ ETHARP_STATE_EMPTY → n ≠ NULL →
  (∀ r s' L' e', ongoing hs s s' L' → arp_inv s' L' hs → arp_table s' = <[Z.to_nat i := e']> (arp_table s) → state e' ≠ ETHARP_STATE_EMPTY →
     (new = true → e' = e ∧ bytes_kept s L s' ∧ sends s s' (asked (arp_room s) s n a)) → Q r s') →
  wp (if new || (p =? NULL) then
        result ← etharp_request custom_free_function n a;
        e ← entry i;
        (if (result =? ERR_OK) && (state e =? ETHARP_STATE_PENDING) && negb new then set_entry i (with_ctime 0) else mret tt);;
        mret result
      else mret ERR_MEM) Q s.
Proof.
  intros Hinv Hi He Hs Hn HQ. pose proof Hinv as [Ht Hh Hc Hes]. pose proof (lookup_lt_Some _ _ _ He) as Hlt. pose proof (to_entries _ Ht _ _ He) as Heo.
  destruct (new || (p =? NULL)) eqn:Hask.
  - apply wp_bind, (request_run hs s s L); [by apply ongoing_refl|done|done|done|]. intros r s' L' Ho (E1 & E2 & E3) Hb Hw.
    apply wp_bind, (wp_entry _ e); [lia|by rewrite E1|].
    assert (Hinv' : arp_inv s' L' hs) by (apply (arp_inv_after _ s L); [done|done|by rewrite E1|by rewrite E2]).
    destruct ((r =? ERR_OK) && (state e =? ETHARP_STATE_PENDING) && negb new) eqn:Hz.
    + apply andb_prop in Hz as [[_ Hpend%Z.eqb_eq]%andb_prop Hnew%negb_true_iff]. rewrite Hnew in *.
      apply wp_bind, (set_entry_run hs s s' L' i e); [done|lia|by rewrite E1|done|]. intros s2 Ho2 ->. apply wp_ret.
      apply (HQ r _ L' (with_ctime 0 e)); [done| |by rewrite E1|done|done]. apply (arp_inv_after _ s L); [done|done| |cbn [etharp_cached_entry with_table]; by rewrite E2].
      cbn [arp_table with_table]. rewrite E1. apply (table_ok_same_key _ _ e); [done|done| |by intros _].
      destruct Heo as [K1 K2 K3 K4 K5]. split; cbn [state q netif_of ethaddr with_ctime]; try done.
      intros _. rewrite Hpend. by vm_compute.
    + apply wp_bind, wp_ret, wp_ret. apply (HQ r s' L' e); [done|done| |done|].
      * by rewrite list_insert_id.
      * intros _. split; [done|]. split; [done|]. unfold asked. by destruct Hw as [(-> & _ & ?)|(-> & _ & ?)].
  - apply orb_false_iff in Hask as [-> _]. apply wp_ret. apply (HQ _ s L e); [by apply ongoing_refl|done|by rewrite list_insert_id|done|done].
Qed.

(** A new entry waits with the packet [p :: l] for the answer to a request. *)
Record queried (s : N) (room : bool) (L : livep) (i : Z) (e : etharp_entry) (n a p : Z) (l : list Z) (r : Z) (s' : N) (L' : livep) : Prop := Queried {
  qr_ok : r = ERR_OK;
  qr_asks : sends s s' (asked room s n a);
  qr_table : arp_table s' = <[Z.to_nat i := MkEntry p a n (ethaddr e) 0 ETHARP_STATE_PENDING]> (arp_table s);
  qr_netifs : netifs s' = netifs s;
  qr_ready : ready s L p l → ready s' L' p l ∧ content (pbufs (packets s')) (bytes (packets s')) (p :: l) = content (pbufs (packets s)) (bytes (packets s)) (p :: l)
}.
Definition pending (n : Z) (e : etharp_entry) : etharp_entry := with_netif n (with_state ETHARP_STATE_PENDING e).

Lemma query_pending_run s L hs i e n a p (new : bool) (Q : Z → N → Prop) : arp_inv s L hs → 0 ≤ i < ARP_TABLE_SIZE → arp_table s !! Z.to_nat i = Some e →
  state e ≠ ETHARP_STATE_EMPTY → n ≠ NULL → p = NULL ∨ (∃ l, sendable s hs p l) →
  (∀ r s' L', arp_inv s' L' hs → (∀ l, new = true → idle e → sendable s hs p l → volatile_in (pbufs (packets s)) (p :: l) = false →
      r = ERR_OK ∧ sends s s' (asked (arp_room s) s n a) ∧ arp_table s' = <[Z.to_nat i := with_q p e]> (arp_table s) ∧ netifs s' = netifs s ∧
      (ready s L p l → ready s' L' p l ∧ content (pbufs (packets s')) (bytes (packets s')) (p :: l) = content (pbufs (packets s)) (bytes (packets s)) (p :: l))) → Q r s') →
  wp (e ← entry i;
      LWIP_ASSERT ((state e =? ETHARP_STATE_PENDING) || (ETHARP_STATE_STABLE <=? state e));;
      result ← (if new || (p =? NULL) then
        result ← etharp_request custom_free_function n a;
        e ← entry i;
        (if (result =? ERR_OK) && (state e =? ETHARP_STATE_PENDING) && negb new then set_entry i (with_ctime 0) else mret tt);;
        mret result
      else mret ERR_MEM);
      if p =? NULL then mret result
      else
        e ← entry i;
        if ETHARP_STATE_STABLE <=? state e then
          set_addrhint i;;
          ethernet_output n p (hwaddr (netifs s n)) (ethaddr e) ETHTYPE_IP
        else if state e =? ETHARP_STATE_PENDING then queue_packet custom_free_function i p
        else mret result) Q s.
Proof.
  intros Hinv Hi He Hs Hn Hp HQ. pose proof Hinv as [Ht Hh Hc Hes]. pose proof (to_entries _ Ht _ _ He) as Heo. pose proof (lookup_lt_Some _ _ _ He) as Hlt.
  apply wp_bind, (wp_entry _ e); [lia|done|]. apply wp_bind, wp_assert; [pose proof (eo_state _ Heo); arp_states; lia|].
  apply wp_bind, (query_request_run s L hs i e n a p new); [done|lia|done|done|done|]. intros res s1 L1 e1 Ho1 Hinv1 Et1 Hs1 Hnew.
  destruct (Z.eqb_spec p NULL) as [Ep|Ep].
  { apply wp_ret. apply (HQ _ s1 L1); [done|]. intros l _ _ Hp'. exfalso. destruct Hh as [K _].
    apply (held_nonnull _ _ _ _ p K); [by eapply sendable_in|done]. }
  destruct Hp as [Hp|[l Hp]]; [done|]. destruct (sendable_still _ _ _ _ _ _ Ho1 Hp) as [Hp1 Hin1]. rewrite <-(og_netifs _ _ _ _ _ Ho1).
  apply (hand_over_run s1 L1 hs i e1 n p l); [done|done|rewrite Et1; by apply list_lookup_insert_eq|done|done|].
  intros r s' L' Hinv' En [_ Hidle]. apply (HQ r s' L'); [done|]. intros l' Hnw Hid Hp' Hv.
  assert (l' = l) as ->. { destruct Hp as (_ & _ & K1 & _), Hp' as (_ & _ & K2 & _). pose proof (chain_fun _ _ _ _ (pk_links _ _ _ K1) (pk_links _ _ _ K2)) as E. by injection E. }
  destruct (Hnew Hnw) as (-> & Hb1 & Hask).
  destruct (Hidle Hid) as (-> & -> & Et & Hw & Eb & Ef); [rewrite (volatile_same (pbufs (packets s))); [done|intros x Hx; by apply Hin1]|].
  split_and!; [done| | |by rewrite En, (og_netifs _ _ _ _ _ Ho1)|].
  - unfold sends in *. rewrite Hw, app_nil_r. done.
  - rewrite Et, Et1. by rewrite list_insert_insert_eq.
  - intros Hr. destruct Hh as [K _], (ai_held _ _ _ _ Hinv1) as [K1 _], (ai_held _ _ _ _ Hinv') as [K' _].
    assert (Hall : ∀ x, x ∈ p :: l → x ∈ all L1).
    { pose proof (sendable_in _ _ _ _ _ Hinv1 Hp1) as HpA. destruct Hp1 as (_ & _ & Hk1 & _). by apply (held_chain O _ L1 _ p (p :: l) K1 HpA (pk_links _ _ _ Hk1)). }
    apply (ready_still s L s' L1 p l); [apply K|apply K'| |done|].
    + intros x b Hx Hb. rewrite Eb. by apply (Hb1 x b).
    + intros x Hx. split; [|by apply Hall]. destruct (proj1 (Hin1 x Hx)) as (A1 & A2 & A3 & A4 & A5 & A6), (Ef x) as (B1 & B2 & B3 & B4 & B5 & B6).
      unfold same_fields. split_and!; congruence.
Qed.

Lemma query_run s L hs n a p (Q : Z → N → Prop) : arp_inv s L hs → n ≠ NULL → p = NULL ∨ (∃ l, sendable s hs p l) →
  (no_host a (netifs s n) = true → Q ERR_ARG s) →
  (∀ r s' L', arp_inv s' L' hs →
     (∀ l, no_host a (netifs s n) = false → no_match (arp_table s) a n → sendable s hs p l → volatile_in (pbufs (packets s)) (p :: l) = false →
        ∃ i e s1, to_recycle (arp_table s) i e ∧
          etharp_find_entry custom_free_function (Some a) ETHARP_FLAG_TRY_HARD n s = Ret (i, s1) ∧ (q e = NULL → packets s1 = packets s) ∧
          queried s (arp_room s1) L i e n a p l r s' L') → Q r s') →
  wp (etharp_query custom_free_function n a p) Q s.
Proof.
  intros Hinv Hn Hp Harg HQ. pose proof Hinv as [Ht Hh Hc Hes]. unfold etharp_query. apply wp_bind, wp_gets.
  assert (Eno : ip4_addr_isbroadcast_u32 a (netifs s n) || ip4_addr_ismulticast a || ip4_addr_isany a = no_host a (netifs s n)).
  { unfold no_host. by destruct (ip4_addr_isany a), (ip4_addr_isbroadcast_u32 a (netifs s n)), (ip4_addr_ismulticast a). }
  rewrite Eno. destruct (no_host a (netifs s n)) eqn:Hno; [by apply wp_ret, Harg|].
  apply wp_bind, wp_with_run, (find_entry_run O custom_free_function s hs s L a _ n); [done|by apply ongoing_refl| | |].
  - intros i e Hi He Hs Hm _. rewrite (proj2 (Z.ltb_ge i 0)) by lia. cbv zeta. apply wp_bind, wp_assert; [apply Z.ltb_lt; unfold ARP_TABLE_SIZE in Hi; lia|].
    apply wp_bind, (wp_entry _ e); [lia|done|]. rewrite (proj2 (Z.eqb_neq _ _) Hs). apply wp_bind, wp_ret.
    apply (query_pending_run s L hs i e n a p false); [done..|]. intros r s' L' Hinv' _. apply (HQ r s' L'); [done|].
    intros l _ Hnm. exfalso. rewrite (Hnm _ _ He Hs) in Hm. done.
  - intros Hnm [Hf|[_ Hf]]; by vm_compute in Hf.
  - intros i e s1 L1 Hnm Hr _ _ Ho1 Et1 Ec1 Ed1 Eb1 Ep1 Hfind. pose proof Hr as (Hi & He & _). pose proof (lookup_lt_Some _ _ _ He) as Hlt.
    rewrite (proj2 (Z.ltb_ge i 0)) by lia. cbv zeta. apply wp_bind, wp_assert; [apply Z.ltb_lt; unfold ARP_TABLE_SIZE in Hi; lia|].
    assert (He1 : arp_table s1 !! Z.to_nat i = Some (new_entry a n e)) by (rewrite Et1; by apply list_lookup_insert_eq).
    apply wp_bind, (wp_entry _ (new_entry a n e)); [lia|done|]. change (state (new_entry a n e) =? ETHARP_STATE_EMPTY) with true.
    apply wp_bind, wp_bind, (set_entry_run hs s s1 L1 i (new_entry a n e)); [done|lia|done|done|]. intros s2 Ho2 ->.
    eapply (set_entry_run hs s _ L1 i); [done|lia|cbn [arp_table with_table]; by apply list_lookup_insert_eq, lookup_lt_Some with (new_entry a n e)|done|].
    intros s3 Ho3 ->. cbn [arp_table with_table] in Ho3 |- *. rewrite list_insert_insert_eq, Et1, list_insert_insert_eq in Ho3 |- *.
    change (with_table ?t (with_table _ s1)) with (with_table t s1) in Ho3 |- *. fold (pending n (new_entry a n e)) in Ho3 |- *.
    set (e2 := pending n (new_entry a n e)) in *. set (s3 := with_table (<[Z.to_nat i := e2]> (arp_table s)) s1) in *.
    assert (Ee2 : e2 = MkEntry NULL a n (ethaddr e) 0 ETHARP_STATE_PENDING) by done.
    assert (Hinv3 : arp_inv s3 L1 hs).
    { apply (arp_inv_after _ s L); [done|done| |by cbn [s3 etharp_cached_entry with_table]; rewrite Ec1]. cbn [s3 arp_table with_table].
      pose proof (to_entries _ Ht _ _ He) as [K1 K2 K3 K4 K5]. apply table_ok_insert; [done| |].
      - rewrite Ee2. split; cbn [state q ctime netif_of ethaddr]; [arp_states; lia|done|by vm_compute|done|done].
      - rewrite Ee2. intros _ j d Hj Hd Sd Ed Nd. cbn [ipaddr netif_of] in Ed, Nd. pose proof (Hnm j d Hd Sd) as Hm. rewrite (proj2 (matches_key a n d Hn)) in Hm by done. done. }
    assert (Hp3 : p = NULL ∨ ∃ l, sendable s3 hs p l).
    { destruct Hp as [?|[l Hp]]; [by left|right]. exists l. by eapply sendable_still. }
    rewrite <-(og_netifs _ _ _ _ _ Ho3). apply (query_pending_run s3 L1 hs i e2 n a p true); [done|done|cbn [s3 arp_table with_table]; by apply list_lookup_insert_eq|done|done|done|].
    intros r s' L' Hinv' Hnew. apply (HQ r s' L'); [done|]. intros l _ _ Hp' Hv. exists i, e, s1. split; [done|]. split; [done|]. split; [done|].
    destruct (sendable_still _ _ _ _ _ _ Ho3 Hp') as [Hp3' Hin]. destruct (Hnew l) as (-> & Hask & Et & En & Hready); [done|done|done| |].
    { rewrite (volatile_same (pbufs (packets s))); [done|]. intros x Hx. by apply Hin. }
    split; [done| | |by rewrite En, (og_netifs _ _ _ _ _ Ho3)|].
    + unfold asked, sends in *. cbn [s3 device netifs with_table] in Hask. rewrite Ed1 in Hask. rewrite (og_netifs _ _ _ _ _ Ho1) in Hask. exact Hask.
    + rewrite Et. cbn [s3 arp_table with_table]. by rewrite list_insert_insert_eq, Ee2.
    + intros Hrd. destruct Hh as [K _], (ai_held _ _ _ _ Hinv3) as [K3 _].
      destruct (ready_still s L s3 L1 p l) as [Hrd3 Ec3]; [apply K|apply K3| |done| |].
      * intros x b _ _. change (bytes (packets s3)) with (bytes (packets s1)). by rewrite Eb1.
      * intros x Hx. split; [by apply Hin|]. pose proof (sendable_in _ _ _ _ _ Hinv3 Hp3') as HpA. destruct Hp3' as (_ & _ & Hk3 & _).
        by apply (held_chain O _ L1 _ p (p :: l) K3 HpA (pk_links _ _ _ Hk3)).
      * destruct (Hready Hrd3) as [H1' H2']. split; [done|congruence].
Qed.

(** ** Packets out *)

(** The packet is sent to [dst], perhaps after a request that renews the entry. *)
Definition sent_to (s : N) (n : Z) (dst : list Z) (p : Z) (l : list Z) (s' : N) : Prop :=
  ∃ fs, sends s s' (fs ++ [(n, frame dst (hwaddr (netifs s n)) ETHTYPE_IP (content (pbufs (packets s)) (bytes (packets s)) (p :: l)))]) ∧
    ∀ f, f ∈ fs → ∃ asked ip, f = (n, request_frame (netifs s n) asked ip).

(** Handing a packet to the driver. *)
Lemma give_driver_run s L hs n p dst (Q : Z → N → Prop) : arp_inv s L hs → p ∈ hs → length dst = 6%nat →
  (∀ r s', arp_inv s' L hs → same_arp s s' →
     (∀ l, ready s L p l → sends s s' [(n, frame dst (hwaddr (netifs s n)) ETHTYPE_IP (content (pbufs (packets s)) (bytes (packets s)) (p :: l)))]) → Q r s') →
  wp (ethernet_output n p (hwaddr (netifs s n)) dst ETHTYPE_IP) Q s.
Proof.
  intros [Ht Hh Hc Hes] Hp Hd HQ. destruct (Hes n) as [Hn1 Hn2].
  apply (ethernet_output_run O s L (waiting (arp_table s) ++ hs)); [done|apply (holding_handle _ _ _ _ _ Hh), elem_of_app; by right|done|].
  intros r s' Hh' (E1 & E2 & E3) _ _ _ Hsent. apply HQ; [|done|].
  - apply arp_inv_of; [by rewrite E1|by rewrite E1|by rewrite E2|unfold eths; by rewrite E3].
  - intros l Hr. by destruct (Hsent l) as [W _].
Qed.

Lemma rerequesting_ok e : entry_ok e → state e = ETHARP_STATE_STABLE → entry_ok (with_state ETHARP_STATE_STABLE_REREQUESTING_1 e).
Proof.
  intros [K1 K2 K3 K4 K5] Hs. rewrite Hs in K2, K3, K4. split; cbn [state q ctime netif_of ethaddr with_state]; [arp_states; lia|intros _; by apply K2|intros _; by apply K3|intros _; by apply K4|done].
Qed.
Lemma output_index_run s L hs n p i e (Q : Z → N → Prop) : arp_inv s L hs → n ≠ NULL → p ∈ hs → 0 ≤ i → arp_table s !! Z.to_nat i = Some e → stable e →
  (∀ r s' L', arp_inv s' L' hs → (∀ l, sendable s hs p l → ready s L p l → sent_to s n (ethaddr e) p l s') → Q r s') →
  wp (etharp_output_to_arp_index custom_free_function n p i) Q s.
Proof.
  intros Hinv Hn Hp Hi He Hst HQ. pose proof Hinv as [Ht Hh Hc Hes]. pose proof (to_entries _ Ht _ _ He) as Heo. pose proof (lookup_lt_Some _ _ _ He) as Hlt.
  unfold etharp_output_to_arp_index. apply wp_bind, (wp_entry _ e); [lia|done|]. apply wp_bind, wp_assert; [by apply Z.leb_le|].
  assert (Hsend : ∀ s1 L1 e1, arp_inv s1 L1 hs → arp_table s1 !! Z.to_nat i = Some e1 → ethaddr e1 = ethaddr e → netifs s1 = netifs s → bytes_kept s L s1 →
      (∃ fs, sends s s1 fs ∧ ∀ f, f ∈ fs → ∃ asked ip, f = (n, request_frame (netifs s n) asked ip)) →
      (∀ l, links (pbufs (packets s)) p (p :: l) → intact (packets s) (packets s1) (p :: l)) →
      wp (ni ← gets (λ s, netifs s n); e ← entry i; ethernet_output n p (hwaddr ni) (ethaddr e) ETHTYPE_IP) Q s1).
  { intros s1 L1 e1 Hinv1 He1 Eeth En Hb (fs & Hfs & Hreq) Hin. apply wp_bind, wp_gets, wp_bind, (wp_entry _ e1); [lia|done|].
    apply (give_driver_run s1 L1 hs); [done|done|rewrite Eeth; by apply Heo|]. intros r s' Hinv' _ Hsent. apply (HQ r s' L1); [done|].
    intros l Hsd Hr. exists fs. split; [|done]. destruct Hsd as (_ & _ & Hk & _). specialize (Hin l (pk_links _ _ _ Hk)).
    destruct Hh as [K _], (ai_held _ _ _ _ Hinv1) as [K1 _].
    assert (HpA : p ∈ all L1) by (apply (held_handle _ _ _ _ _ K1), elem_of_app; by right).
    assert (Hl1 : links (pbufs (packets s1)) p (p :: l)) by (eapply intact_links; [done|apply Hk]).
    destruct (ready_still s L s1 L1 p l) as [Hr1 Ec]; [apply K|apply K1|done|done| |].
    { intros x Hx. split; [by apply Hin|]. by apply (held_chain O _ L1 _ p (p :: l) K1 HpA Hl1). }
    specialize (Hsent l Hr1). unfold sends in *. by rewrite Hsent, Hfs, <-app_assoc, Eeth, En, Ec. }
  assert (Hnone : ∀ s1, s1 = s → wp (ni ← gets (λ s, netifs s n); e ← entry i; ethernet_output n p (hwaddr ni) (ethaddr e) ETHTYPE_IP) Q s1).
  { intros s1 ->. apply (Hsend s L e); try done. exists []. split; [unfold sends; by rewrite app_nil_r|by intros f ?%elem_of_nil]. }
  assert (Hask : ∀ dst, length dst = 6%nat → state e = ETHARP_STATE_STABLE →
    wp (r ← etharp_request_dst custom_free_function n (ipaddr e) dst;
        if r =? ERR_OK then set_entry i (with_state ETHARP_STATE_STABLE_REREQUESTING_1) else mret tt)
       (λ _, wp (ni ← gets (λ s, netifs s n); e ← entry i; ethernet_output n p (hwaddr ni) (ethaddr e) ETHTYPE_IP) Q) s).
  { intros dst Hd Hs1. apply wp_bind, (request_run hs s s L); [by apply ongoing_refl|done|done|done|]. intros r s1 L1 Ho1 (E1 & E2 & E3) Hb Hw.
    assert (Hfs : ∃ fs, sends s s1 fs ∧ ∀ f, f ∈ fs → ∃ asked ip, f = (n, request_frame (netifs s n) asked ip)).
    { destruct Hw as [(_ & _ & Hw)|(_ & _ & Hw)]; eexists; (split; [exact Hw|]); [by intros f ?%elem_of_nil|]. intros f ->%list_elem_of_singleton. by eexists _, _. }
    assert (Hin : ∀ l, links (pbufs (packets s)) p (p :: l) → intact (packets s) (packets s1) (p :: l)) by (intros l; by apply Ho1).
    destruct (r =? ERR_OK).
    - apply (set_entry_run hs s s1 L1 i e); [done|lia|by rewrite E1|done|]. intros s2 Ho2 ->.
      apply (Hsend _ L1 (with_state ETHARP_STATE_STABLE_REREQUESTING_1 e)); try done; [|by cbn [arp_table with_table]; apply list_lookup_insert_eq; rewrite E1].
      apply (arp_inv_after _ s L); [done|done| |by cbn [etharp_cached_entry with_table]; rewrite E2]. cbn [arp_table with_table]. rewrite E1.
      apply (table_ok_same_key _ _ e); [done|done|by apply rerequesting_ok|]. intros _. by rewrite Hs1.
    - apply wp_ret. apply (Hsend s1 L1 e); try done; [|by rewrite E1]. by apply (arp_inv_after _ s L); [..|rewrite E1|rewrite E2]. }
  apply wp_bind. destruct (Z.eqb_spec (state e) ETHARP_STATE_STABLE) as [Hs1|Hs1]; [|by apply wp_ret, Hnone].
  destruct (_ <=? ctime e); [by apply Hask|]. destruct (_ <=? ctime e); [|by apply wp_ret, Hnone]. apply Hask; [by apply Heo|done].
Qed.

(** The address to ask for. *)
Definition route (s : N) (n p ip : Z) : option Z :=
  let ni := netifs s n in
  if negb (ip4_addr_netcmp ip (ip_addr ni) (netmask ni)) && negb (ip4_addr_islinklocal ip) &&
     negb (ip4_addr_islinklocal (le_dec (mem_bytes (bytes (packets s)) (payload (pbufs (packets s) p) + 12) 4)))
  then if ip4_addr_isany (gw ni) then None else Some (gw ni)
  else Some ip.
Lemma next_hop_run s n p ip (Q : option Z → N → Prop) : p ≠ NULL → Q (route s n p ip) s → wp (next_hop (netifs s n) p ip) Q s.
Proof.
  intros Hp HQ. unfold next_hop. unfold route in HQ. destruct (negb (ip4_addr_netcmp _ _ _)); cbn [andb] in *; [|by apply wp_ret].
  destruct (negb (ip4_addr_islinklocal ip)); cbn [andb] in *; [|by apply wp_ret].
  apply wp_bind, wp_in_packets, wp_pb; [done|]. apply wp_bind, wp_load. cbn [packets with_packets] in *. destruct s as [ps t c ns d]. cbn [packets with_packets arp_table etharp_cached_entry netifs device] in *.
  destruct (negb (ip4_addr_islinklocal _)); [|by apply wp_ret]. destruct (ip4_addr_isany (gw (ns n))); by apply wp_ret.
Qed.
Lemma usable_stable n dst e : usable n dst e = true ↔ stable e ∧ netif_of e = n ∧ ipaddr e = dst.
Proof. unfold usable, stable. rewrite !andb_true_iff, Z.leb_le, !Z.eqb_eq. intuition congruence. Qed.
Lemma stable_used e : stable e → state e ≠ ETHARP_STATE_EMPTY.
Proof. unfold stable. arp_states. lia. Qed.

(** The frame that carries a packet to [ip], if its Ethernet address is known. *)
Inductive carries (s : N) (n p ip : Z) : list Z → Prop :=
  | carries_broadcast : ip4_addr_isbroadcast_u32 ip (netifs s n) = true → carries s n p ip ethbroadcast
  | carries_multicast : ip4_addr_isbroadcast_u32 ip (netifs s n) = false → ip4_addr_ismulticast ip = true → carries s n p ip (mcastaddr ip)
  | carries_known dst i e : ip4_addr_isbroadcast_u32 ip (netifs s n) = false → ip4_addr_ismulticast ip = false → route s n p ip = Some dst →
      arp_table s !! i = Some e → usable n dst e = true → carries s n p ip (ethaddr e).

Lemma output_run s L hs n p l ip (Q : Z → N → Prop) : arp_inv s L hs → n ≠ NULL → sendable s hs p l →
  (∀ r s' L', arp_inv s' L' hs → (∀ dst, carries s n p ip dst → ready s L p l → sent_to s n dst p l s') → Q r s') →
  wp (etharp_output custom_free_function n p ip) Q s.
Proof.
  intros Hinv Hn Hsd HQ. pose proof Hinv as [Ht Hh Hc Hes]. pose proof Hsd as (Hp & _ & Hk & _).
  assert (Hp0 : p ≠ NULL) by apply (pkt_nonnull _ _ _ _ Hk). unfold etharp_output.
  apply wp_bind, wp_assert; [by apply negb_true_iff, Z.eqb_neq|]. apply wp_bind, wp_assert; [by apply negb_true_iff, Z.eqb_neq|]. apply wp_bind, wp_gets.
  destruct (ip4_addr_isbroadcast_u32 ip (netifs s n)) eqn:Hbr.
  { apply (give_driver_run s L hs); [done|done|done|]. intros r s' Hinv' _ Hsent. apply (HQ r s' L); [done|].
    intros dst Hcar Hr. inversion Hcar; subst; try congruence. exists []. split; [by apply Hsent|by intros f ?%elem_of_nil]. }
  destruct (ip4_addr_ismulticast ip) eqn:Hmc.
  { apply (give_driver_run s L hs); [done|done|done|]. intros r s' Hinv' _ Hsent. apply (HQ r s' L); [done|].
    intros dst Hcar Hr. inversion Hcar; subst; try congruence. exists []. split; [by apply Hsent|by intros f ?%elem_of_nil]. }
  apply wp_bind, next_hop_run; [done|]. destruct (route s n p ip) as [dst|] eqn:Hroute.
  2: { apply wp_ret. apply (HQ _ s L); [done|]. intros d Hcar. inversion Hcar; congruence. }
  assert (Hindex : ∀ i e, 0 ≤ i → arp_table s !! Z.to_nat i = Some e → usable n dst e = true →
    ∀ s1, arp_table s1 = arp_table s → packets s1 = packets s → netifs s1 = netifs s → device s1 = device s → 0 ≤ etharp_cached_entry s1 < ARP_TABLE_SIZE →
    wp (etharp_output_to_arp_index custom_free_function n p i) Q s1).
  { intros i e Hi He [Hst [Hni Hip]]%usable_stable s1 E1 E2 E3 E4 Hc1.
    apply (output_index_run s1 L hs n p i e); [|done|done|done|by rewrite E1|done|].
    - apply arp_inv_of; [by rewrite E1|by rewrite E1, E2|done|unfold eths; by rewrite E3].
    - intros r s' L' Hinv' Hsent. apply (HQ r s' L'); [done|]. intros d Hcar Hr.
      assert (Ed : d = ethaddr e).
      { inversion Hcar as [?|?|dst' j e' ? ? Hroute' Hj [Hst' [Hni' Hip']]%usable_stable]; subst; try congruence.
        assert (Ej : j = Z.to_nat i) by (apply (to_keys _ Ht j _ e' e); [done|done|by apply stable_used|by apply stable_used|congruence|congruence]). congruence. }
      subst d. destruct (Hsent l) as (fs & Hw & Hfs).
      { unfold sendable in *. by rewrite E2. }
      { destruct Hr as [Hr1 Hr2]. split; [by rewrite E2|done]. }
      exists fs. unfold sends in *. rewrite E2, E3, E4 in *. done. }
  apply wp_bind, wp_gets. destruct (table_entry _ (etharp_cached_entry s) Ht Hc) as (ec & Hec & _). apply wp_bind, (wp_entry _ ec); [lia|done|].
  destruct (usable n dst ec) eqn:Huse; [by apply (Hindex _ ec); [lia|..]|].
  apply wp_bind. apply (wp_for_range (λ i t, t = s ∧ ∀ j e, Z.of_nat j < i → arp_table s !! j = Some e → usable n dst e = false)).
  - unfold ARP_TABLE_SIZE. lia.
  - split; [done|]. lia.
  - intros i t Hi [-> Hno]. destruct (table_entry _ i Ht Hi) as (e & He & _). apply wp_bind, (wp_entry _ e); [lia|done|].
    destruct (usable n dst e) eqn:Hu.
    + unfold set_addrhint. apply wp_bind, wp_modify. apply wp_bind.
      eapply wp_mono; [apply (Hindex i e); [lia|done|done|done|done|done|done|cbn [etharp_cached_entry with_cached]; lia]|].
      intros r s' HQ'. apply wp_ret. by apply wp_ret.
    + apply wp_ret. split; [done|]. intros j e' Hj He'. destruct (index_split _ i j e e' ltac:(lia) He Hj He') as [Hlt| ->]; [by apply (Hno j)|done].
  - intros t [-> Hno]. apply (query_run s L hs n dst p); [done|done|right; by exists l| |].
    + intros _. apply (HQ _ s L); [done|]. intros d Hcar _. exfalso. inversion Hcar as [?|?|dst' j e' ? ? Hroute' Hj Hu']; subst; try congruence.
      assert (dst' = dst) by congruence. subst dst'. rewrite (Hno j e') in Hu'; [done| |done]. pose proof (lookup_lt_Some _ _ _ Hj). pose proof (to_length _ Ht). lia.
    + intros r s' L' Hinv' _. apply (HQ r s' L'); [done|]. intros d Hcar _. exfalso. inversion Hcar as [?|?|dst' j e' ? ? Hroute' Hj Hu']; subst; try congruence.
      assert (dst' = dst) by congruence. subst dst'. rewrite (Hno j e') in Hu'; [done| |done]. pose proof (lookup_lt_Some _ _ _ Hj). pose proof (to_length _ Ht). lia.
Qed.
End ops.
