(* ===== verification/LwipEtharpIn.v ===== *)
(** * LwipEtharpIn: packets that come in

    Each lemma runs [etharp_input] or [ethernet_input] from a state that
    LwipEtharpInv describes: whatever the bytes of the packet are the invariant
    stays, and for an ARP packet it is said what is learned and which frames
    are sent. *)

From Stdlib Require Import ZArith Lia.
From stdpp Require Import base numbers list option functions gmap sets fin_sets relations.
From S2P Require Import Prelude LwipBase LwipAddr LwipPbuf LwipPbufData LwipPbufOwn LwipPbufAlloc LwipPbufClient LwipPbufUse LwipEtharp LwipEtharpInv LwipEtharpOps.
Open Scope Z_scope.

(** ** Reading an ARP packet *)

Lemma arp_fields b h op sha sip tha tip : length sha = 6%nat → length tha = 6%nat → mem_bytes b h 28 = arp_packet op sha sip tha tip →
  mem_bytes b h 2 = [0; 1] ∧ mem_bytes b (h + 2) 2 = [8; 0] ∧ mem_bytes b (h + 4) 1 = [6] ∧ mem_bytes b (h + 5) 1 = [4] ∧
  mem_bytes b (h + 6) 2 = [op / 256; op mod 256] ∧ mem_bytes b (h + 8) 6 = sha ∧ mem_bytes b (h + 14) 4 = le_enc 4 sip ∧
  mem_bytes b (h + 18) 6 = tha ∧ mem_bytes b (h + 24) 4 = le_enc 4 tip.
Proof.
  intros Hs Ht. rewrite arp_parts. unfold arp_packet. intros E.
  do 8 (apply app_inj_1 in E as [? E]; [|rewrite length_mem_bytes; by rewrite ?Hs, ?Ht, ?length_le_enc]). by split_and!.
Qed.
Lemma le_dec4 v : 0 ≤ v < 2 ^ 32 → le_dec (le_enc 4 v) = v.
Proof. intros Hv. rewrite le_dec_enc. by apply Z.mod_small. Qed.

Section receiving.
Context {H M D : Type} `{Heaps H} `{Pools M} `{!PbufMemory H M} `{!Link H M D}.
Abbreviation N := (net H M D).
Context (O : gmap Z Z).
Context (custom_free_function : Z → comp (pstate H M) unit).
Abbreviation ongoing := (ongoing O).
Abbreviation arp_inv := (arp_inv O).

(** ** ARP packets *)

(** A packet is given back. *)
Lemma drop_packet_run s L hs p (Q : Z → N → Prop) : arp_inv s L (p :: hs) →
  (∀ r s' L', arp_inv s' L' hs → same_arp s s' → device s' = device s → Q r s') → wp (in_packets (pbuf_free custom_free_function p)) Q s.
Proof.
  intros [Ht Hh Hc Hes] HQ. apply wp_in_packets, (give_run O custom_free_function _ L p (waiting (arp_table s) ++ hs)).
  - eapply holding_perm; [|exact Hh]. intros x. simpl. rewrite !hcount_app. simpl. lia.
  - intros r ps L' Hh' _ _. by apply (HQ r _ L').
Qed.
Lemma dropped_packet (s : N) L hs p : arp_inv s L (p :: hs) → wp (_ ← in_packets (pbuf_free custom_free_function p); mret tt) (λ _ s', ∃ L', arp_inv s' L' hs) s.
Proof. intros Hinv. apply wp_bind, (drop_packet_run s L hs p); [done|]. intros r s' L' Hinv' _ _. apply wp_ret. by exists L'. Qed.
Lemma inv_handle (s : N) L hs p : arp_inv s L hs → p ∈ hs → p ∈ all L ∧ p ≠ NULL.
Proof.
  intros [_ Hh _ _] Hp. assert (HpA : p ∈ all L) by (apply (holding_handle _ _ _ _ _ Hh), elem_of_app; by right).
  split; [done|]. by apply (holding_nonnull _ _ _ _ _ Hh).
Qed.

Context (autoip_arp_reply dhcp_arp_reply : Z → Z → comp N unit).

Lemma input_keeps s L hs p n : n ≠ NULL → arp_inv s L (p :: hs) →
  (∀ h s L, arp_inv s L (p :: hs) → wp (autoip_arp_reply n h) (λ _ s', ∃ L', arp_inv s' L' (p :: hs)) s) →
  (∀ a s L, arp_inv s L (p :: hs) → wp (dhcp_arp_reply n a) (λ _ s', ∃ L', arp_inv s' L' (p :: hs)) s) →
  wp (etharp_input custom_free_function autoip_arp_reply dhcp_arp_reply p n) (λ _ s', ∃ L', arp_inv s' L' hs) s.
Proof.
  intros Hn Hinv Hauto Hdhcp. unfold etharp_input. rewrite (proj2 (Z.eqb_neq n NULL) Hn). destruct (inv_handle _ _ _ _ Hinv (list_elem_of_here _ _)) as [_ Hp0].
  apply wp_bind, wp_in_packets, wp_pb; [done|]. replace (with_packets (packets s) s) with s by (by destruct s). set (hdr := payload _). clearbody hdr.
  apply wp_bind, wp_load16, wp_bind, wp_load16, wp_bind, wp_load, wp_bind, wp_load. destruct (_ || _); [by eapply dropped_packet|].
  apply wp_bind. eapply wp_mono; [by apply (Hauto hdr s L)|]. clear Hinv s L. intros _ s (L & Hinv).
  apply wp_bind, wp_load, wp_bind, wp_load, wp_bind, wp_gets, wp_bind, wp_load. cbv zeta. set (a := le_dec (mem_bytes _ (hdr + 14) 4)). set (eth := mem_bytes _ (hdr + 8) 6). set (us := if ip4_addr_isany _ then false else _).
  assert (Heth : length eth = 6%nat) by apply length_mem_bytes. clearbody a eth us.
  assert (Hfin : ∀ s L, arp_inv s L (p :: hs) → wp (opcode ← load16 (hdr + 6);
    (if opcode =? lwip_htons ARP_REQUEST then
       if us then
         ni ← gets (λ s, netifs s n);
         shwaddr ← load (hdr + 8) 6;
         _ ← etharp_raw custom_free_function n (hwaddr ni) shwaddr (hwaddr ni) (ip_addr ni) shwaddr a ARP_REPLY;
         mret tt
       else mret tt
     else if opcode =? lwip_htons ARP_REPLY then dhcp_arp_reply n a
     else mret tt);;
    _ ← in_packets (pbuf_free custom_free_function p); mret tt) (λ _ s', ∃ L', arp_inv s' L' hs) s).
  { clear s L Hinv Hauto. intros s L Hinv. apply wp_bind, wp_load16, wp_bind. destruct (_ =? lwip_htons ARP_REQUEST).
    - destruct us; [|by eapply wp_ret, dropped_packet]. apply wp_bind, wp_gets, wp_bind, wp_load, wp_bind. pose proof Hinv as [Ht Hh Hc Hes]. destruct (Hes n) as [_ Hl].
      apply (raw_ongoing O custom_free_function (p :: hs) s s L); [by apply ongoing_refl|done|done|done|apply length_mem_bytes|done|apply length_mem_bytes|unfold ARP_REPLY; lia|].
      intros r s' L' Ho' (E1 & E2 & E3) _ _. apply wp_ret. apply (dropped_packet s' L'). by apply (arp_inv_after _ s L); [..|rewrite E1|rewrite E2].
    - destruct (_ =? lwip_htons ARP_REPLY); [|by eapply wp_ret, dropped_packet]. eapply wp_mono; [by apply (Hdhcp a s L)|]. intros _ s' (L' & Hinv'). by eapply dropped_packet. }
  apply wp_bind, (update_run O custom_free_function s L (p :: hs) n a eth); [done|done|done|by intros; eapply Hfin|by intros; eapply Hfin|].
  intros i e s' L' _ Hinv' _ _ _ _ _ _. by eapply Hfin.
Qed.

(** What the table makes of the address [eth] of [a], and the packets that are
    sent: the one that waited. *)
Inductive learns (s : N) (L : livep) (n a : Z) (eth : list Z) (hard : bool) : list etharp_entry → list (Z * list Z) → Prop :=
  | learns_refused : no_host a (netifs s n) = true → learns s L n a eth hard (arp_table s) []
  | learns_stranger : no_match (arp_table s) a n → hard = false → learns s L n a eth hard (arp_table s) []
  | learns_new i e : no_match (arp_table s) a n → hard = true → to_recycle (arp_table s) i e →
      learns s L n a eth hard (<[Z.to_nat i := resolved a n eth]> (arp_table s)) []
  | learns_known i e : arp_table s !! i = Some e → state e ≠ ETHARP_STATE_EMPTY → ipaddr e = a → netif_of e = n → q e = NULL →
      learns s L n a eth hard (<[i := resolved a n eth]> (arp_table s)) []
  | learns_waiting i e l : arp_table s !! i = Some e → state e ≠ ETHARP_STATE_EMPTY → ipaddr e = a → netif_of e = n → q e ≠ NULL → ready s L (q e) l →
      learns s L n a eth hard (<[i := resolved a n eth]> (arp_table s))
        [(n, frame eth (hwaddr (netifs s n)) ETHTYPE_IP (content (pbufs (packets s)) (bytes (packets s)) (q e :: l)))].
(** The packets that wait for [a] can be sent. *)
Definition can_send (s : N) (L : livep) (n a : Z) : Prop :=
  ∀ i e, arp_table s !! i = Some e → state e ≠ ETHARP_STATE_EMPTY → ipaddr e = a → netif_of e = n → q e ≠ NULL → ∃ l, ready s L (q e) l.
Definition for_us (s : N) (n tip : Z) : bool := negb (ip4_addr_isany (ip_addr (netifs s n))) && (tip =? ip_addr (netifs s n)).

Lemma learn_run s L hs n a eth (hard : bool) p (Q : Z → N → Prop) : arp_inv s L hs → n ≠ NULL → length eth = 6%nat → can_send s L n a →
  owns L p → p ∉ waiting (arp_table s) →
  (∀ r s' L' t fs, arp_inv s' L' hs → netifs s' = netifs s → learns s L n a eth hard t fs → arp_table s' = t → sends s s' fs →
     (∀ b, in_payload (pbufs (packets s)) p b → bytes (packets s') b = bytes (packets s) b) → Q r s') →
  wp (etharp_update_arp_entry custom_free_function n a eth (if hard then ETHARP_FLAG_TRY_HARD else ETHARP_FLAG_FIND_ONLY)) Q s.
Proof.
  intros Hinv Hn Heth Hcan Hown Hpw HQ. apply (update_run O custom_free_function s L hs n a eth); [done|done|done| | |].
  - intros Hno. apply (HQ _ s L (arp_table s) []); try done; [by apply learns_refused|unfold sends; by rewrite app_nil_r].
  - intros Hnm Hf. apply (HQ _ s L (arp_table s) []); try done; [|unfold sends; by rewrite app_nil_r].
    destruct hard; [|by apply learns_stranger]. exfalso. destruct Hf as [Hf|[_ Hf]]; by vm_compute in Hf.
  - intros i e s' L' _ Hinv' Et _ En He Hi [(Hs & Ea & Hnet & [Rnone Rsent])|(Hnm & Hr & Hf & Ed & Eb)].
    + destruct (decide (q e = NULL)) as [Eq|Eq].
      * destruct (Rnone Eq) as [Ep Ed]. apply (HQ _ s' L' (arp_table s') []); try done; [rewrite Et; by apply (learns_known _ _ _ _ _ _ _ e)|unfold sends; by rewrite Ed, app_nil_r|by rewrite Ep].
      * destruct (Hcan _ e He Hs Ea Hnet Eq) as [l Hr]. destruct (Rsent l Eq Hr) as [Hw Hb].
        eapply (HQ _ s' L' (arp_table s')); [done|done|rewrite Et; by apply (learns_waiting _ _ _ _ _ _ _ e l)|done|exact Hw|].
        intros b Hin. apply (Hb p b); [|done|done]. intros ->. apply Hpw. by eapply waiting_in.
    + apply (HQ _ s' L' (arp_table s') []); try done; [|unfold sends; by rewrite Ed, app_nil_r|by rewrite Eb].
      rewrite Et. apply (learns_new _ _ _ _ _ _ _ e); [done| |done]. destruct hard; [done|]. by vm_compute in Hf.
Qed.

Definition reply_frame (s : N) (n : Z) (sha : list Z) (sip : Z) : list Z :=
  frame (arp_dest (ip_addr (netifs s n)) sha) (hwaddr (netifs s n)) ETHTYPE_ARP
    (arp_packet ARP_REPLY (hwaddr (netifs s n)) (ip_addr (netifs s n)) sha sip).

Lemma input_run s L hs p n op sha sip tha tip (Q : unit → N → Prop) : n ≠ NULL → arp_inv s L (p :: hs) →
  28 ≤ len (pbufs (packets s) p) → owns L p → p ∉ waiting (arp_table s) → length sha = 6%nat → length tha = 6%nat →
  op = ARP_REQUEST ∨ op = ARP_REPLY → 0 ≤ sip < 2 ^ 32 → 0 ≤ tip < 2 ^ 32 →
  mem_bytes (bytes (packets s)) (payload (pbufs (packets s) p)) 28 = arp_packet op sha sip tha tip → can_send s L n sip →
  (∀ h, wp (autoip_arp_reply n h) (λ _ s', s' = s) s) → (∀ s, wp (dhcp_arp_reply n sip) (λ _ s', s' = s) s) →
  (∀ s' L' t fs rs r s1, arp_inv s' L' hs →
     etharp_update_arp_entry custom_free_function n sip sha (if for_us s n tip then ETHARP_FLAG_TRY_HARD else ETHARP_FLAG_FIND_ONLY) s = Ret (r, s1) →
      learns s L n sip sha (for_us s n tip) t fs → arp_table s' = t → sends s s' (fs ++ rs) →
     rs = (if (op =? ARP_REQUEST) && for_us s n tip && arp_room s1 then [(n, reply_frame s n sha sip)] else []) → Q tt s') →
  wp (etharp_input custom_free_function autoip_arp_reply dhcp_arp_reply p n) Q s.
Proof.
  intros Hn Hinv Hlen Hown Hpw Hsha Htha Hop Hsip Htip Hpk Hcan Hauto Hdhcp HQ. unfold etharp_input. rewrite (proj2 (Z.eqb_neq n NULL) Hn).
  destruct (inv_handle _ _ _ _ Hinv (list_elem_of_here _ _)) as [_ Hp0].
  apply wp_bind, wp_in_packets, wp_pb; [done|]. replace (with_packets (packets s) s) with s by (by destruct s). set (hdr := payload _) in *.
  destruct (arp_fields _ _ _ _ _ _ _ Hsha Htha Hpk) as (F1 & F2 & F3 & F4 & F5 & F6 & F7 & F8 & F9).
  apply wp_bind, wp_load16, wp_bind, wp_load16, wp_bind, wp_load, wp_bind, wp_load. rewrite F1, F2, F3, F4.
  match goal with |- wp (if ?c then _ else _) _ _ => replace c with false by (by vm_compute) end.
  apply wp_bind. eapply wp_mono; [by apply Hauto|]. intros _ ? ->.
  apply wp_bind, wp_load, wp_bind, wp_load, wp_bind, wp_gets, wp_bind, wp_load. cbv zeta. rewrite F6, F7, F9, !le_dec4 by done.
  replace (if ip4_addr_isany (ip_addr (netifs s n)) then false else tip =? ip_addr (netifs s n)) with (for_us s n tip) by (unfold for_us; by destruct (ip4_addr_isany _)).
  set (us := for_us s n tip) in *. apply wp_bind, wp_with_run, (learn_run s L (p :: hs) n sip sha us p); [done|done|done|done|done|done|].
  intros r s1 L1 t fs Hinv1 En Hl Et Hw Hb Hrun.
  assert (Eb : ∀ k j, 0 ≤ k → k + Z.of_nat j ≤ 28 → mem_bytes (bytes (packets s1)) (hdr + k) j = mem_bytes (bytes (packets s)) (hdr + k) j).
  { intros k j Hk0 Hk. apply mem_bytes_ext. intros z Hz. apply Hb. unfold in_payload. fold hdr. lia. }
  apply wp_bind, wp_load16. rewrite (Eb 6 2%nat), F5 by lia.
  assert (Hdone : ∀ s2 L2 rs, arp_inv s2 L2 (p :: hs) → arp_table s2 = t → sends s1 s2 rs →
      rs = (if (op =? ARP_REQUEST) && us && arp_room s1 then [(n, reply_frame s n sha sip)] else []) →
      wp (_ ← in_packets (pbuf_free custom_free_function p); mret tt) Q s2).
  { intros s2 L2 rs Hinv2 Et2 Hw2 Hrs. apply wp_bind, (drop_packet_run s2 L2 hs p); [done|]. intros r2 s' L' Hinv' (E1 & _ & _) Ed. apply wp_ret.
    apply (HQ s' L' t fs rs r s1); [done|done|done|congruence| |done]. unfold sends in *. by rewrite Ed, Hw2, Hw, app_assoc. }
  assert (Hnil : sends s1 s1 []) by (unfold sends; by rewrite app_nil_r).
  apply wp_bind. destruct Hop as [-> | ->].
  - replace (le_dec [ARP_REQUEST / 256; ARP_REQUEST mod 256] =? lwip_htons ARP_REQUEST) with true by (by vm_compute).
    change (ARP_REQUEST =? ARP_REQUEST) with true in Hdone. cbn [andb] in Hdone. destruct us; [|by apply wp_ret, (Hdone s1 L1 [])].
    apply wp_bind, wp_gets, wp_bind, wp_load. rewrite (Eb 8 6%nat), F6, En by lia. pose proof Hinv1 as [Ht1 Hh1 Hc1 Hes1]. destruct (Hes1 n) as [_ Hl1]. rewrite En in Hl1.
    apply wp_bind, (raw_ongoing O custom_free_function (p :: hs) s1 s1 L1); [by apply ongoing_refl|done|done|done|done|done|done|unfold ARP_REPLY; lia|].
    intros r2 s2 L2 Ho2 (E1 & E2 & E3) _ Hsent. apply wp_ret.
    assert (Hinv2 : arp_inv s2 L2 (p :: hs)) by (by apply (arp_inv_after _ s1 L1); [..|rewrite E1|rewrite E2]).
    destruct Hsent as [(Eroom & _ & Hsent)|(Eroom & _ & Hsent)]; (eapply Hdone; [done|by rewrite E1|exact Hsent|by rewrite Eroom]).
  - replace (le_dec [ARP_REPLY / 256; ARP_REPLY mod 256] =? lwip_htons ARP_REQUEST) with false by (by vm_compute).
    replace (le_dec [ARP_REPLY / 256; ARP_REPLY mod 256] =? lwip_htons ARP_REPLY) with true by (by vm_compute).
    eapply wp_mono; [by apply Hdhcp|]. intros _ ? ->. by apply (Hdone s1 L1 []).
Qed.

(** ** Frames *)

(** What may change in a buffer that is held. *)
Lemma holding_fields (s : pstate H M) L hs m' : holding O s L hs →
  (∀ x, next (m' x) = next (pbufs s x) ∧ ref (m' x) = ref (pbufs s x) ∧ type_internal (m' x) = type_internal (pbufs s x) ∧
     Z.land (flags (m' x)) PBUF_FLAG_IS_CUSTOM = Z.land (flags (pbufs s x)) PBUF_FLAG_IS_CUSTOM ∧
     payload (pbufs s x) ≤ payload (m' x) ∧ payload (m' x) + len (m' x) ≤ payload (pbufs s x) + len (pbufs s x) ∧ (x ∈ all L → 0 ≤ len (m' x) < 65536)) →
  holding O (with_pbufs m' s) L hs.
Proof.
  intros [K1 K2] Hm. split; [|intros x; apply Hm].
  apply (held_frame O s _ L L hs); [done| |done|intros x _; split; apply Hm]. destruct (hd_owned _ _ _ _ K1) as [W1 W2 W3 W4 W5 W6 W7].
  assert (Hd : ∀ x k, data_in x k (pbufs s x) → data_in x k (m' x)).
  { intros x k [D1 D2]. destruct (Hm x) as (_ & _ & _ & _ & M1 & M2 & _). unfold data_in in *. lia. }
  assert (Hk : ∀ x k, kind (pbufs s x) k → kind (m' x) k).
  { intros x k. unfold kind, pbuf_get_allocsrc. by destruct (Hm x) as (_ & _ & -> & -> & _). }
  split; try done; cbn [pbufs with_pbufs].
  - intros x Hx. destruct (W5 x Hx). auto.
  - intros x Hx. auto.
  - intros x k Hx. destruct (W7 x k Hx). auto.
Qed.
Lemma inv_fields (s : N) L hs m' : arp_inv s L hs → holding O (with_pbufs m' (packets s)) L (waiting (arp_table s) ++ hs) → arp_inv (with_packets (with_pbufs m' (packets s)) s) L hs.
Proof. intros [K1 K2 K3 K4] Hh. by split. Qed.

Lemma strip_run s L hs p n (Q : Z → N → Prop) : arp_inv s L hs → p ∈ hs → 0 < n < 65536 →
  (∀ r s', arp_inv s' L hs → Q r s') → wp (in_packets (pbuf_remove_header p n)) Q s.
Proof.
  intros Hinv Hp Hn HQ. destruct (inv_handle _ _ _ _ Hinv Hp) as [HpA Hp0]. apply wp_in_packets. unfold pbuf_remove_header.
  apply wp_bind, wp_assert; [by apply negb_true_iff, Z.eqb_neq|]. rewrite (proj2 (Z.ltb_ge _ n)), (proj2 (Z.eqb_neq n 0)) by lia.
  apply wp_bind, wp_pb; [done|]. replace (u16 n) with n by (symmetry; apply Z.mod_small; lia).
  destruct (Z.ltb_spec (len (pbufs (packets s) p)) n); [apply wp_ret; destruct s; by apply HQ|].
  apply wp_bind, wp_upd_pb; [done|]. apply wp_bind, wp_upd_pb; [done|]. apply wp_bind, wp_upd_pb; [done|]. apply wp_ret.
  cbn [pbufs with_pbufs bytes heap pools pbuf_free_ooseq_pending]. set (m' := <[p := _]> _). change (with_pbufs _ _) with (with_pbufs m' (packets s)).
  apply HQ, inv_fields, holding_fields; [done|by apply Hinv|]. pose proof (hg_len _ _ _ _ (ai_held _ _ _ _ Hinv)) as Hl.
  intros x. destruct (decide (x = p)) as [->|Hx]; [|unfold m'; rewrite !fn_lookup_insert_ne by done; split_and!; try done; by apply Hl].
  unfold m'. rewrite !fn_lookup_insert. cbn [next ref type_internal flags payload len with_tot_len with_len with_payload]. pose proof (Hl p HpA).
  unfold u16. rewrite (Z.mod_small (len _ - n)) by lia. split_and!; try done; lia.
Qed.
(** Setting a flag or the interface of a packet. *)
Lemma mark_run s L hs p f (Q : unit → N → Prop) : arp_inv s L hs → p ∈ hs →
  (∀ b, next (f b) = next b ∧ payload (f b) = payload b ∧ len (f b) = len b ∧ type_internal (f b) = type_internal b ∧ ref (f b) = ref b ∧
     Z.land (flags (f b)) PBUF_FLAG_IS_CUSTOM = Z.land (flags b) PBUF_FLAG_IS_CUSTOM) →
  (∀ s', arp_inv s' L hs → Q tt s') → wp (in_packets (upd_pb p f)) Q s.
Proof.
  intros Hinv Hp Hf HQ. destruct (inv_handle _ _ _ _ Hinv Hp) as [HpA Hp0]. apply wp_in_packets, wp_upd_pb; [done|].
  apply HQ, inv_fields, holding_fields; [done|by apply Hinv|]. pose proof (hg_len _ _ _ _ (ai_held _ _ _ _ Hinv)) as Hl.
  intros x. destruct (decide (x = p)) as [->|Hx]; [|rewrite fn_lookup_insert_ne by done; split_and!; try done; by apply Hl].
  rewrite fn_lookup_insert. destruct (Hf (pbufs (packets s) p)) as (-> & -> & -> & -> & -> & ->). split_and!; try done; by apply Hl.
Qed.
Lemma flag_kept f v : Z.land v PBUF_FLAG_IS_CUSTOM = 0 → Z.land (u8 (Z.lor f v)) PBUF_FLAG_IS_CUSTOM = Z.land f PBUF_FLAG_IS_CUSTOM.
Proof.
  intros Hv. unfold u8. change 256 with (2 ^ 8). rewrite <-Z.land_ones by lia. rewrite <-Z.land_assoc.
  change (Z.land (Z.ones 8) PBUF_FLAG_IS_CUSTOM) with PBUF_FLAG_IS_CUSTOM. by rewrite Z.land_lor_distr_l, Hv, Z.lor_0_r.
Qed.
Lemma marked (c : bool) (s : N) L hs p f : arp_inv s L hs → p ∈ hs →
  (∀ b, next (f b) = next b ∧ payload (f b) = payload b ∧ len (f b) = len b ∧ type_internal (f b) = type_internal b ∧ ref (f b) = ref b ∧
     Z.land (flags (f b)) PBUF_FLAG_IS_CUSTOM = Z.land (flags b) PBUF_FLAG_IS_CUSTOM) →
  wp (if c then in_packets (upd_pb p f) else mret tt) (λ _ s', arp_inv s' L hs) s.
Proof. intros Hinv Hp Hf. destruct c; [|by apply wp_ret]. by apply (mark_run s L hs p f). Qed.
Lemma flagged b v : Z.land v PBUF_FLAG_IS_CUSTOM = 0 → let b' := with_flags (Z.lor (flags b) v) b in
  next b' = next b ∧ payload b' = payload b ∧ len b' = len b ∧ type_internal b' = type_internal b ∧ ref b' = ref b ∧
  Z.land (flags b') PBUF_FLAG_IS_CUSTOM = Z.land (flags b) PBUF_FLAG_IS_CUSTOM.
Proof. intros Hv. split_and!; try done. by apply flag_kept. Qed.
Lemma dropped_frame (s : N) L hs p : arp_inv s L (p :: hs) →
  wp (_ ← in_packets (pbuf_free custom_free_function p); mret ERR_OK) (λ _ s', ∃ L', arp_inv s' L' hs) s.
Proof. intros Hinv. apply wp_bind, (drop_packet_run s L hs p); [done|]. intros r s' L' Hinv' _ _. apply wp_ret. by exists L'. Qed.

(** A frame without its header goes to the protocol [next], if the interface
    takes part in ARP. *)
Lemma passed_on (takes : bool) s L hs p (next : comp N unit) : arp_inv s L (p :: hs) →
  (∀ s L, arp_inv s L (p :: hs) → wp next (λ _ s', ∃ L', arp_inv s' L' hs) s) →
  wp (if takes then _ ← in_packets (pbuf_free custom_free_function p); mret ERR_OK
      else
        failed ← in_packets (pbuf_remove_header p SIZEOF_ETH_HDR);
        if negb (failed =? 0) then _ ← in_packets (pbuf_free custom_free_function p); mret ERR_OK else next;; mret ERR_OK)
     (λ _ s', ∃ L', arp_inv s' L' hs) s.
Proof.
  intros Hinv Hnext. destruct takes; [by eapply dropped_frame|].
  apply wp_bind, (strip_run s L (p :: hs) p); [done|apply list_elem_of_here|unfold SIZEOF_ETH_HDR; lia|]. intros r s1 Hinv1.
  destruct (negb (r =? 0)); [by eapply dropped_frame|]. apply wp_bind. eapply wp_mono; [by apply (Hnext s1 L)|]. intros ? s' Hs'. by apply wp_ret.
Qed.

(** Whatever a frame holds, it is received or dropped, and the invariant stays. *)
Lemma ethernet_input_keeps s L hs p n ip4_input : n ≠ NULL → arp_inv s L (p :: hs) →
  (∀ h s L, arp_inv s L (p :: hs) → wp (autoip_arp_reply n h) (λ _ s', ∃ L', arp_inv s' L' (p :: hs)) s) →
  (∀ a s L, arp_inv s L (p :: hs) → wp (dhcp_arp_reply n a) (λ _ s', ∃ L', arp_inv s' L' (p :: hs)) s) →
  (∀ s L, arp_inv s L (p :: hs) → wp (ip4_input p n) (λ _ s', ∃ L', arp_inv s' L' hs) s) →
  wp (ethernet_input custom_free_function autoip_arp_reply dhcp_arp_reply ip4_input p n) (λ _ s', ∃ L', arp_inv s' L' hs) s.
Proof.
  intros Hn Hinv Hauto Hdhcp Hip. pose proof (list_elem_of_here p hs) as Hp. destruct (inv_handle _ _ _ _ Hinv Hp) as [_ Hp0]. unfold ethernet_input.
  apply wp_bind, wp_in_packets, wp_pb; [done|]. replace (with_packets (packets s) s) with s by (by destruct s). set (b := pbufs (packets s) p). clearbody b.
  destruct (len b <=? SIZEOF_ETH_HDR); [by eapply dropped_frame|]. apply wp_bind, wp_gets. set (ni := netifs s n). clearbody ni.
  apply wp_bind. eapply wp_mono; [by apply (marked _ s L (p :: hs) p)|]. clear s Hinv. intros ? s Hinv.
  apply wp_bind, wp_load16, wp_bind, wp_load. set (ty := le_dec _). set (dest := mem_bytes _ _ 6). clearbody ty dest.
  apply wp_bind. eapply (wp_mono _ (λ _ s', arp_inv s' L (p :: hs))).
  { destruct (negb (Z.land (hd 0 dest) 1 =? 0)); [|by apply wp_ret]. destruct (hd 0 dest =? 1).
    - apply (marked _ s L (p :: hs) p); [done|done|intros b'; by apply flagged].
    - apply (marked _ s L (p :: hs) p); [done|done|intros b'; by apply flagged]. }
  clear s Hinv. intros ? s Hinv. destruct (ty =? lwip_htons ETHTYPE_IP); [by apply (passed_on _ s L)|].
  destruct (ty =? lwip_htons ETHTYPE_ARP); [|by eapply dropped_frame]. apply (passed_on _ s L); [done|].
  clear s L Hinv. intros s L Hinv. by apply (input_keeps s L).
Qed.
End receiving.
