(* ===== verification/LwipEtharpFacts.v ===== *)
(** * LwipEtharpFacts: what address resolution promises

    The theorems about core/ipv4/etharp.c and netif/ethernet.c, over any packet
    buffers and drivers that keep the promises of [Heaps], [Pools] and [Link],
    and an interface on which they are evaluated. *)

From Stdlib Require Import ZArith Lia.
From stdpp Require Import base numbers list option functions gmap sets fin_sets relations.
From S2P Require Import Prelude LwipBase LwipMem LwipMemp LwipAddr LwipPbuf LwipPbufData LwipPbufOwn LwipPbufAlloc LwipPbufClient LwipPbufUse LwipPbufFacts.
From S2P Require Import LwipEtharp LwipEtharpInv LwipEtharpOps LwipEtharpIn.
Open Scope Z_scope.

#[global] Instance none_empty_dec t : Decision (none_empty t).
Proof.
  refine (cast_if (decide (Forall (λ e, state e ≠ ETHARP_STATE_EMPTY) t))); by rewrite Forall_lookup in *.
Defined.

Section theorems.
Context {H M D : Type} `{Heaps H} `{Pools M} `{!PbufMemory H M} `{!Link H M D}.
Abbreviation N := (net H M D).
Implicit Types (s : N) (O : gmap Z Z).

(** ** What may happen *)

Inductive arp_op :=
  | ArpTimer
  | ArpCleanup (n : Z)
  | ArpRequest (n a : Z)
  | ArpQuery (n a p : Z)
  | ArpOutput (n p ip : Z)
  | FrameInput (p n : Z).

Section runs.
Context (O : gmap Z Z).
Context (cf : Z → comp (pstate H M) unit) (autoip_arp_reply dhcp_arp_reply ip4_input : Z → Z → comp N unit).

Definition run_arp_op (op : arp_op) : comp N Z :=
  match op with
  | ArpTimer => etharp_tmr cf;; mret ERR_OK
  | ArpCleanup n => etharp_cleanup_netif cf n;; mret ERR_OK
  | ArpRequest n a => etharp_request cf n a
  | ArpQuery n a p => etharp_query cf n a p
  | ArpOutput n p ip => etharp_output cf n p ip
  | FrameInput p n => ethernet_input cf autoip_arp_reply dhcp_arp_reply ip4_input p n
  end.
(** What the callers see to: there is an interface, and the packet is theirs. *)
Definition arp_allowed (s : N) (hs : list Z) (op : arp_op) : Prop :=
  match op with
  | ArpTimer | ArpCleanup _ => True
  | ArpRequest n _ => n ≠ NULL
  | ArpQuery n _ p => n ≠ NULL ∧ (p = NULL ∨ ∃ l, sendable s hs p l)
  | ArpOutput n p _ => n ≠ NULL ∧ ∃ l, sendable s hs p l
  | FrameInput p n => n ≠ NULL ∧ p ∈ hs
  end.
(** A frame that comes in belongs to the stack from then on. *)
Definition arp_holds (op : arp_op) (hs : list Z) : list Z :=
  match op with FrameInput p _ => surrender p hs | _ => hs end.

(** One operation; or the rest of the stack acts on packets, with handles of
    its own to account for; or the drivers and the settings of the interfaces
    change. *)
Inductive arp_step : N * list Z → N * list Z → Prop :=
  | arp_step_op s hs op r s' : arp_allowed s hs op → run_arp_op op s = Ret (r, s') → arp_step (s, hs) (s', arp_holds op hs)
  | arp_step_rest s hs ps hs' :
      (∀ L, holding O (packets s) L (waiting (arp_table s) ++ hs) → ∃ L', holding O ps L' (waiting (arp_table s) ++ hs')) →
      arp_step (s, hs) (with_packets ps s, hs')
  | arp_step_device s hs ns d : (∀ n, hwaddr_len (ns n) = ETH_HWADDR_LEN ∧ length (hwaddr (ns n)) = 6%nat) →
      arp_step (s, hs) (MkNet (packets s) (arp_table s) (etharp_cached_entry s) ns d, hs).

(** The protocols above keep the packets and the table in order, too. *)
Definition keeps_arp (m : comp N unit) (hs hs' : list Z) : Prop :=
  ∀ s L, arp_inv O s L hs → wp m (λ _ s', ∃ L', arp_inv O s' L' hs') s.
Definition protocols_keep : Prop := ∀ p n a hs,
  keeps_arp (autoip_arp_reply n a) (p :: hs) (p :: hs) ∧ keeps_arp (dhcp_arp_reply n a) (p :: hs) (p :: hs) ∧ keeps_arp (ip4_input p n) (p :: hs) hs.

Lemma inv_perm s L hs hs' : (∀ x, hcount x hs' = hcount x hs) → arp_inv O s L hs → arp_inv O s L hs'.
Proof.
  intros Hx [K1 K2 K3 K4]. split; [done| |done|done]. eapply holding_perm; [|exact K2]. intros x. by rewrite !hcount_app, Hx.
Qed.
Lemma op_keeps s L hs op : protocols_keep → arp_inv O s L hs → arp_allowed s hs op → wp (run_arp_op op) (λ _ s', ∃ L', arp_inv O s' L' (arp_holds op hs)) s.
Proof.
  intros Hprot Hinv Ha. pose proof Hinv as [Ht Hh Hc Hes]. destruct op; cbn [arp_allowed run_arp_op arp_holds] in *.
  - apply wp_bind, (tmr_run O cf hs s L); [done|]. intros s' L' Ho Et Ec. apply wp_ret. exists L'. apply (arp_inv_after O s L); [done|done| |by rewrite Ec].
    rewrite Et. apply table_ok_map; [done|]. intros e He. split; [by apply tick_ok|by apply tick_key].
  - apply wp_bind, (cleanup_run O cf hs s L); [done|]. intros s' L' Ho Et Ec. apply wp_ret. exists L'. apply (arp_inv_after O s L); [done|done| |by rewrite Ec].
    rewrite Et. apply table_ok_map; [done|]. intros e He. split; [by apply clean_ok|]. intros Hs. pose proof Hs as [E _]%clean_key. by rewrite E in Hs |- *.
  - apply (request_run O cf hs s s L); [by apply ongoing_refl|done|done|done|]. intros r s' L' Ho (E1 & E2 & E3) _ _. exists L'.
    by apply (arp_inv_after O s L); [..|rewrite E1|rewrite E2].
  - destruct Ha as [Hn Hp]. apply (query_run O cf s L hs); [done|done|done|by exists L|]. intros r s' L' Hinv' _. by exists L'.
  - destruct Ha as [Hn [l Hp]]. apply (output_run O cf s L hs n p l); [done|done|done|]. intros r s' L' Hinv' _. by exists L'.
  - destruct Ha as [Hn Hp]. apply (ethernet_input_keeps O cf _ _ s L); [done| |intros h; apply Hprot|intros a; apply Hprot|apply (Hprot p n 0)].
    eapply inv_perm; [|exact Hinv]. intros x. by apply hcount_surrender.
Qed.
Lemma arp_reachable s0 L0 hs0 s hs : protocols_keep → arp_inv O s0 L0 hs0 → rtc arp_step (s0, hs0) (s, hs) → ∃ L, arp_inv O s L hs.
Proof.
  intros Hprot Hinv Hsteps. remember (s0, hs0) as c0 eqn:E0. remember (s, hs) as c eqn:E. revert s0 L0 hs0 E0 Hinv E.
  induction Hsteps as [c|c c1 c' Hstep Hsteps IH]; intros s0 L0 hs0 -> Hinv E.
  - injection E as -> ->. by exists L0.
  - inversion Hstep as [s1 hs1 op r s' Hal Hrun|s1 hs1 ps hs' Hrest|s1 hs1 ns d Hes]; subst.
    + pose proof (wp_elim _ _ _ _ _ (op_keeps _ _ _ _ Hprot Hinv Hal) Hrun) as [L' Hinv']. by eapply IH.
    + pose proof Hinv as [K1 K2 K3 K4]. destruct (Hrest _ K2) as [L' Hh']. by apply (IH (with_packets ps s0) L' hs').
    + destruct Hinv as [K1 K2 K3 K4]. eapply (IH _ L0 hs0); [done| |done]. by split.
Qed.
End runs.

(** The table and the interfaces at the start. *)
Definition free_entry : etharp_entry := MkEntry NULL 0 NULL ethzero 0 ETHARP_STATE_EMPTY.
Definition arp_start (O : gmap Z Z) (s : N) : Prop :=
  owned O (packets s) (Lv ∅ ∅ ∅) ∧ arp_table s = replicate 10 free_entry ∧ 0 ≤ etharp_cached_entry s < ARP_TABLE_SIZE ∧ eths s.
Lemma start_inv O s : arp_start O s → arp_inv O s (Lv ∅ ∅ ∅) [].
Proof.
  intros (Ho & Et & Hc & Hes). split; [|rewrite Et; change (waiting (replicate 10 free_entry)) with (@nil Z)|done|done].
  - rewrite Et. split; [done| |].
    + intros i e [-> _]%lookup_replicate. by split; vm_compute.
    + intros i j e e' [-> _]%lookup_replicate _ Hs. done.
  - split; [by apply held_none|]. intros x Hx. exfalso. unfold all in Hx. simpl in Hx. set_solver.
Qed.

(** C20. Through any sequence of ARP timer ticks, requests, queries, packets
    sent, frames received and interfaces going down, with the rest of the stack
    and the drivers acting in between, every packet that waits in the ARP table
    is accounted for: the count of each buffer in use is exactly the number of
    handles, of table entries and of links to it, and nothing stays in use when
    nobody holds anything.  The table stays well formed, and whatever may come
    next ends without a failed assertion. *)
Theorem arp_references_exact O cf autoip dhcp ip4 s0 s hs :
  protocols_keep O autoip dhcp ip4 → arp_start O s0 → rtc (arp_step O cf autoip dhcp ip4) (s0, []) (s, hs) →
  ∃ L, owned O (packets s) L ∧ table_ok (arp_table s) ∧
    (∀ x, x ∈ all L → ref (pbufs (packets s) x) = hcount x (waiting (arp_table s)) + hcount x hs + preds (nexts (packets s)) (all L) x) ∧
    (∀ x, x ∈ waiting (arp_table s) → x ∈ all L) ∧
    (waiting (arp_table s) = [] → hs = [] → all L = ∅) ∧
    ∀ op, arp_allowed s hs op → ∃ r s', run_arp_op cf autoip dhcp ip4 op s = Ret (r, s').
Proof.
  intros Hprot Hstart Hsteps. destruct (arp_reachable O cf autoip dhcp ip4 s0 _ [] s hs Hprot (start_inv _ _ Hstart) Hsteps) as [L Hinv].
  exists L. pose proof Hinv as [Ht [Hh Hl] _ _]. split; [by apply Hh|]. split; [done|]. split.
  { intros x Hx. rewrite <-hcount_app. by apply (hd_counted _ _ _ _ Hh). }
  split; [intros x Hx; apply (held_handle _ _ _ _ _ Hh), elem_of_app; by left|]. split; [intros Ew ->; rewrite Ew in Hh; by eapply held_nothing|].
  intros op Ha. destruct (proj1 (wp_run _ _ _) (op_keeps O cf autoip dhcp ip4 s L hs op Hprot Hinv Ha)) as (r & s' & E & _). by exists r, s'.
Qed.

(** C21. A packet for an address that is not in the table waits there and exactly
    one request is sent, unless the heap has no block for it once the entry has
    been found (it is then as it was, unless a full table gave up an entry); and
    when the address is learned the packet is sent, byte for byte, in a frame to
    the Ethernet address that answered. *)
Theorem arp_resolution_delivers O cf s L hs n a p l eth :
  arp_inv O s L hs → n ≠ NULL → no_host a (netifs s n) = false → no_match (arp_table s) a n → length eth = 6%nat →
  sendable s hs p l → volatile_in (pbufs (packets s)) (p :: l) = false → ready s L p l →
  wp (_ ← etharp_query cf n a p; etharp_update_arp_entry cf n a eth ETHARP_FLAG_FIND_ONLY) (λ r s',
    r = ERR_OK ∧ (∃ L', arp_inv O s' L' hs) ∧
    ∃ i s1, etharp_find_entry cf (Some a) ETHARP_FLAG_TRY_HARD n s = Ret (i, s1) ∧ (¬ none_empty (arp_table s) → packets s1 = packets s) ∧
      sends s s' ((if arp_room s1 then [(n, request_frame (netifs s n) ethbroadcast a)] else []) ++
        [(n, frame eth (hwaddr (netifs s n)) ETHTYPE_IP (content (pbufs (packets s)) (bytes (packets s)) (p :: l)))])) s.
Proof.
  intros Hinv Hn Hno Hnm Heth Hp Hv Hr. apply wp_bind, (query_run O cf s L hs n a p); [done|done|right; by exists l|by rewrite Hno|].
  intros r s1 L1 Hinv1 Hq. destruct (Hq l Hno Hnm Hp Hv) as (i & e & sf & Hi & Hfind & Hsame & [_ Hask Et En Hready]).
  destruct (Hready Hr) as [Hr1 Ec]. pose proof Hi as (Hi0 & Hei & Hfree).
  assert (Hpk : ¬ none_empty (arp_table s) → packets sf = packets s).
  { intros Hne. apply Hsame, (eo_queue _ (to_entries _ (ai_table _ _ _ _ Hinv) _ _ Hei)). by destruct Hfree as [[E0 _]|[? _]]; [rewrite E0|]. }
  pose proof (lookup_lt_Some _ _ _ Hei) as Hlt. pose proof (ai_table _ _ _ _ Hinv1) as Ht1. destruct Hp as (Hp & _).
  assert (Hp0 : p ≠ NULL) by (apply (pkt_nonnull (pbufs (packets s)) p p l), Hr).
  set (e1 := MkEntry p a n (ethaddr e) 0 ETHARP_STATE_PENDING) in *. assert (He1 : arp_table s1 !! Z.to_nat i = Some e1) by (rewrite Et; by apply list_lookup_insert_eq).
  apply (update_run O cf s1 L1 hs n a eth); [done|done|done|by rewrite En, Hno| |].
  - intros Hnm1. exfalso. specialize (Hnm1 _ _ He1 ltac:(done)). rewrite (proj2 (matches_key a n e1 Hn)) in Hnm1; [done|by split].
  - intros j d s' L' _ Hinv' _ _ _ Hj Hj0 [(Hs & Ea & Hnet & [_ Hsent])|(Hnm1 & _)].
    2: { exfalso. specialize (Hnm1 _ _ He1 ltac:(done)). rewrite (proj2 (matches_key a n e1 Hn)) in Hnm1; [done|by split]. }
    assert (Eij : Z.to_nat i = Z.to_nat j) by (apply (to_keys _ Ht1 _ _ e1 d); try done; by symmetry).
    assert (Ed : d = e1) by (rewrite Eij in He1; congruence). subst d.
    destruct (Hsent l Hp0 Hr1) as [Hw _]. split; [done|]. split; [by exists L'|]. exists i, sf. split; [done|]. split; [done|]. unfold sends, asked in *. cbn [q e1] in Hw. by rewrite Hw, En, Ec, Hask, <-app_assoc.
Qed.

(** C22. An ARP packet for IPv4 on Ethernet does exactly this: the address of
    its sender is entered in the table (for a stranger only if the packet asks
    for our address; if the address is no host's, not at all), a packet that
    waits for it is sent, and a request for our address is answered with exactly
    one frame to the sender, unless the heap has no block for it after that. *)
Theorem arp_input_effect O cf autoip dhcp s L hs p n op sha sip tha tip :
  n ≠ NULL → arp_inv O s L (p :: hs) → 28 ≤ len (pbufs (packets s) p) → owns L p → p ∉ waiting (arp_table s) →
  length sha = 6%nat → length tha = 6%nat → op = ARP_REQUEST ∨ op = ARP_REPLY → 0 ≤ sip < 2 ^ 32 → 0 ≤ tip < 2 ^ 32 →
  mem_bytes (bytes (packets s)) (payload (pbufs (packets s) p)) 28 = arp_packet op sha sip tha tip → can_send s L n sip →
  (∀ h, wp (autoip n h) (λ _ s', s' = s) s) → (∀ s, wp (dhcp n sip) (λ _ s', s' = s) s) →
  wp (etharp_input cf autoip dhcp p n) (λ _ s', (∃ L', arp_inv O s' L' hs) ∧
    ∃ fs r s1, learns s L n sip sha (for_us s n tip) (arp_table s') fs ∧
      etharp_update_arp_entry cf n sip sha (if for_us s n tip then ETHARP_FLAG_TRY_HARD else ETHARP_FLAG_FIND_ONLY) s = Ret (r, s1) ∧
      sends s s' (fs ++ if (op =? ARP_REQUEST) && for_us s n tip && arp_room s1 then [(n, reply_frame s n sha sip)] else [])) s.
Proof.
  intros Hn Hinv Hlen Hown Hpw Hsha Htha Hop Hsip Htip Hpk Hcan Hauto Hdhcp.
  apply (input_run O cf autoip dhcp s L hs p n op sha sip tha tip); [done..|]. intros s' L' t fs rs r s1 Hinv' Hrun Hl -> Hw ->.
  split; [by exists L'|]. by exists fs, r, s1.
Qed.

(** C23. Whatever the hint of the last entry used says, a packet for a broadcast
    or multicast address, or for a host whose next hop is in the table, is sent
    at once in a frame to the right Ethernet address; at most a request that
    renews the entry goes before it. *)
Theorem arp_output_known O cf s L hs n p l ip dst :
  arp_inv O s L hs → n ≠ NULL → sendable s hs p l → ready s L p l → carries s n p ip dst →
  wp (etharp_output cf n p ip) (λ _ s', (∃ L', arp_inv O s' L' hs) ∧ sent_to s n dst p l s') s.
Proof.
  intros Hinv Hn Hp Hr Hc. apply (output_run O cf s L hs n p l ip); [done|done|done|]. intros r s' L' Hinv' Hs. split; [by exists L'|by apply Hs].
Qed.

(** C28. [etharp_find_entry] answers the entry that stands for the address on
    the interface; else, when it may create one, the first free entry, and of
    a full table the oldest stable one, failing that the oldest pending one
    without a packet, failing that the oldest one; otherwise it changes nothing. *)
Theorem arp_find_entry_choice O cf s L hs a flags n :
  arp_inv O s L hs →
  wp (etharp_find_entry cf (Some a) flags n) (λ r s',
    (0 ≤ r ∧ s' = s ∧ ∃ e, arp_table s !! Z.to_nat r = Some e ∧ state e ≠ ETHARP_STATE_EMPTY ∧ matches (Some a) n e = true) ∨
    (no_match (arp_table s) a n ∧
      if decide (Z.land flags ETHARP_FLAG_FIND_ONLY = 0 ∧ (Z.land flags ETHARP_FLAG_TRY_HARD ≠ 0 ∨ ¬ none_empty (arp_table s)))
      then (∃ L', holding O (packets s') L' (waiting (arp_table s') ++ hs)) ∧ device s' = device s ∧
        ∃ e, to_recycle (arp_table s) r e ∧ arp_table s' = <[Z.to_nat r := new_entry a n e]> (arp_table s)
      else r = ERR_MEM ∧ s' = s)) s.
Proof.
  intros Hinv. apply (find_entry_run O cf s hs s L a flags n); [by apply Hinv|by apply ongoing_refl| | |].
  - intros i e Hi He Hs Hm. left. split; [lia|]. split; [done|]. by exists e.
  - intros Hnm Hf. right. split; [done|]. rewrite decide_False; [done|]. intros [H1' [H2'|H2']]; destruct Hf as [Hf|[Hf1 Hf2]]; done.
  - intros i e s' L' Hnm Hr Hf Hth Ho Et _ Ed _ _. right. split; [done|]. rewrite decide_True.
    + split; [exists L'; by apply Ho|]. split; [done|]. by exists e.
    + split; [done|]. destruct (decide (Z.land flags ETHARP_FLAG_TRY_HARD = 0)) as [E|E]; [right|by left]. intros Hne. by apply (Hth Hne).
Qed.

(** C24. After [k] ticks of the timer an entry is gone if and only if it has then
    reached its age: 5 ticks for one that waits for an answer, 300 for one that
    is stable; until then it still stands for its address. *)
Theorem arp_entry_expires O cf s L hs i e (k : nat) :
  arp_inv O s L hs → arp_table s !! i = Some e → state e ≠ ETHARP_STATE_EMPTY →
  wp (for_each 0 (Z.of_nat k) (λ _, etharp_tmr cf)) (λ _ s', (∃ L', arp_inv O s' L' hs) ∧
    ∃ e', arp_table s' !! i = Some e' ∧ (state e' = ETHARP_STATE_EMPTY ↔ age_limit e ≤ ctime e + Z.of_nat k) ∧
      (state e' ≠ ETHARP_STATE_EMPTY → ipaddr e' = ipaddr e ∧ netif_of e' = netif_of e)) s.
Proof.
  intros Hinv He Hs. pose proof (to_entries _ (ai_table _ _ _ _ Hinv) _ _ He) as Heo.
  apply (wp_for_each (λ j s', (∃ L', arp_inv O s' L' hs) ∧ arp_table s' !! i = Some (Nat.iter (Z.to_nat j) tick e))); [lia|split; [by exists L|done]| |].
  - intros j s1 Hj ([L1 Hinv1] & He1). apply (tmr_run O cf hs s1 L1); [done|]. intros s' L' Ho Et Ec. split.
    + exists L'. apply (arp_inv_after O s1 L1); [done|done| |rewrite Ec; by apply Hinv1].
      rewrite Et. apply table_ok_map; [by apply Hinv1|]. intros d Hd. split; [by apply tick_ok|by apply tick_key].
    + rewrite Et. replace (Z.to_nat (j + 1)) with (Datatypes.S (Z.to_nat j)) by lia. rewrite Nat.iter_succ. apply list_lookup_fmap_Some. by eexists.
  - intros s' (Hinv' & He'). split; [done|]. rewrite Nat2Z.id in He'. exists (Nat.iter k tick e). split; [done|]. split; [by apply ticks_gone|].
    clear He'. assert (K : entry_ok (Nat.iter k tick e) ∧ (state (Nat.iter k tick e) ≠ ETHARP_STATE_EMPTY → ipaddr (Nat.iter k tick e) = ipaddr e ∧ netif_of (Nat.iter k tick e) = netif_of e)); [|apply K].
    induction k as [|k [IH1 IH2]]; [done|]. simpl. split; [by apply tick_ok|]. intros Hk. destruct (tick_key _ IH1 Hk) as (K1 & -> & ->). by apply IH2.
Qed.
End theorems.

(** ** An interface *)

(** Reading a packet out: the bytes of each buffer of the chain. *)
Fixpoint gather (fuel : nat) (m : Z → pbuf) (b : memory) (p : Z) : list Z :=
  match fuel with
  | O => []
  | Datatypes.S k => if p =? NULL then [] else data m b p ++ gather k m b (next (m p))
  end.
Lemma gather_content fuel m b p l : links m p l → (length l ≤ fuel)%nat → gather fuel m b p = content m b l.
Proof.
  revert p l. induction fuel as [|fuel IH]; intros p [|x l] Hl Hf; simpl in Hf; [done|lia| |].
  - apply links_head in Hl. by rewrite Hl.
  - apply links_cons in Hl as (-> & Hx & Hl). cbn [gather]. rewrite (proj2 (Z.eqb_neq x NULL) Hx), content_cons. f_equal. apply IH; [done|lia].
Qed.
(** A driver that lists the frames it is given. *)
#[local] Existing Instances demo_heaps demo_pool_ops demo_memory.
Definition frames : Type := list (Z * list Z).
Abbreviation pnet := (net lheap memp frames).
Definition list_frame (n p : Z) : comp pnet Z :=
  s ← gets (λ s, s);
  modify (with_device (device s ++ [(n, gather (Z.to_nat 65536) (pbufs (packets s)) (bytes (packets s)) p)]));;
  mret ERR_OK.
#[local] Instance demo_link : Link lheap memp frames.
Proof.
  refine {| linkoutput := list_frame; wire := λ d, d |}.
  intros n p l s Hl Hp. unfold list_frame. apply wp_bind, wp_gets, wp_bind, wp_modify, wp_ret. eexists _, _. split; [done|]. split; [done|].
  intros Hk. apply gather_content; [done|]. destruct Hk. lia.
Defined.

Definition our_mac : list Z := [0x52; 0x54; 0x00; 0x12; 0x34; 0x56].
Definition their_mac : list Z := [0x02; 0x00; 0x00; 0x00; 0x00; 0x07].
(** 10.0.2.15/24, behind 10.0.2.2; and a neighbour, 10.0.2.7. *)
Definition our_ip : Z := 0x0f02000a.
Definition their_ip : Z := 0x0702000a.
Definition demo_netif : netif := MkNetif our_ip 0x00ffffff 0x0202000a 1500 our_mac 6 0x0b 0.
Definition net0 : pnet := MkNet pb0 (replicate 10 free_entry) 0 (λ _, demo_netif) [].
Definition quiet : Z → Z → comp pnet unit := λ _ _, mret tt.
Definition drop : Z → Z → comp pnet unit := λ p _, _ ← in_packets (pbuf_free cf0 p); mret tt.
Abbreviation arp_run := (run_arp_op cf0 quiet quiet drop).

(** A packet [E] of 40 bytes, asked to be sent to the neighbour. *)
Definition E := 1048588.
Abbreviation alloc1 := (pbuf_alloc cf0 PBUF_TRANSPORT 40 PBUF_RAM).
Definition ps1 : pstate lheap memp := after alloc1 pb0.
Definition net1 : pnet := with_packets ps1 net0.
Definition net_after {A} (m : comp pnet A) (s : pnet) : pnet := match m s with Ret (_, s') => s' | _ => s end.
Definition net_answer {A} (m : comp pnet A) (s : pnet) : option A := match m s with Ret (r, _) => Some r | _ => None end.
Lemma net_answer_after {A} (m : comp pnet A) s r : net_answer m s = Some r → m s = Ret (r, net_after m s).
Proof. unfold net_answer, net_after. destruct (m s) as [[a s']| |]; [by intros [= ->]|done|done]. Qed.
Definition net2 : pnet := net_after (arp_run (ArpQuery 1 their_ip E)) net1.

Lemma alloc_holds (s : pstate lheap memp) L hs layer n type p s' : holding ∅ s L hs → 0 ≤ n < 65536 → 0 ≤ layer ≤ PBUF_TRANSPORT → pbuf_type type →
  pbuf_alloc cf0 layer n type s = Ret (p, s') → p ≠ NULL → ∃ L', holding ∅ s' L' (p :: hs).
Proof.
  intros Hh Hn Hl Ht Hrun Hp. revert Hp. refine (wp_elim _ (λ p s', p ≠ NULL → ∃ L', holding ∅ s' L' (p :: hs)) _ _ _ _ Hrun).
  apply (alloc_run ∅ cf0 s L); [by apply Hh|done|done|done|done|]. intros s1 L1 x l Hf _ _ _. exists L1. by apply (fresh_holding ∅ _ _ _ _ _ _ _ _ Hh Hf).
Qed.
Lemma net0_start : arp_start ∅ net0.
Proof. split; [exact pb0_owned|]. split; [done|]. by split. Qed.
Lemma demo_protocols : protocols_keep ∅ quiet quiet drop.
Proof.
  intros p n a hs. split; [intros s L Hinv; apply wp_ret; by exists L|]. split; [intros s L Hinv; apply wp_ret; by exists L|].
  intros s L Hinv. by apply (dropped_packet ∅ cf0 s L).
Qed.
Lemma alloc1_answer : answer alloc1 pb0 = Some E.
Proof. vm_compute. reflexivity. Qed.
Lemma ps1_run : alloc1 pb0 = Ret (E, ps1).
Proof. exact (answer_after alloc1 pb0 E alloc1_answer). Qed.
Lemma net1_step : arp_step ∅ cf0 quiet quiet drop (net0, []) (net1, [E]).
Proof.
  apply arp_step_rest. intros L Hh. apply (alloc_holds pb0 L [] PBUF_TRANSPORT 40 PBUF_RAM E); [exact Hh|lia|by vm_compute|by right; right; right|exact ps1_run|done].
Qed.
Lemma net1_inv : ∃ L, arp_inv ∅ net1 L [E].
Proof. exact (arp_reachable ∅ cf0 quiet quiet drop net0 _ [] net1 [E] demo_protocols (start_inv _ _ net0_start) (rtc_once _ _ net1_step)). Qed.
Lemma net1_pkt : pkt (pbufs (packets net1)) E [E] ∧ positive (pbufs (packets net1)) [E].
Proof. apply pkt_b_ok. vm_compute. reflexivity. Qed.
Lemma net1_sendable : sendable net1 [E] E [].
Proof. split; [here|]. split; [by vm_compute|]. exact net1_pkt. Qed.
Lemma net1_ready L : arp_inv ∅ net1 L [E] → ready net1 L E [].
Proof.
  intros Hinv. split; [split; [apply net1_pkt|vm_compute; discriminate|vm_compute; discriminate|vm_compute; reflexivity]|].
  intros x ->%list_elem_of_singleton. destruct (inv_handle ∅ _ _ _ _ Hinv (list_elem_of_here _ _)) as [HE _].
  apply (not_ref_owns ∅ (packets net1)); [apply Hinv|exact HE|vm_compute; discriminate].
Qed.
Lemma query_answer : net_answer (arp_run (ArpQuery 1 their_ip E)) net1 = Some ERR_OK.
Proof. vm_compute. reflexivity. Qed.
Lemma net2_run : arp_run (ArpQuery 1 their_ip E) net1 = Ret (ERR_OK, net2).
Proof. exact (net_answer_after _ _ _ query_answer). Qed.
Lemma net2_steps : rtc (arp_step ∅ cf0 quiet quiet drop) (net0, []) (net2, [E]).
Proof.
  apply (rtc_l _ _ (net1, [E]) _ net1_step), rtc_once.
  apply (arp_step_op ∅ cf0 quiet quiet drop net1 [E] (ArpQuery 1 their_ip E) ERR_OK); [|exact net2_run].
  split; [done|]. right. exists []. exact net1_sendable.
Qed.
Lemma net2_inv : ∃ L, arp_inv ∅ net2 L [E].
Proof. exact (arp_reachable ∅ cf0 quiet quiet drop net0 _ [] net2 [E] demo_protocols (start_inv _ _ net0_start) net2_steps). Qed.

Lemma arp_references_exact_witness :
  ∃ L, owned ∅ (packets net2) L ∧ table_ok (arp_table net2) ∧
    (∀ x, x ∈ all L → ref (pbufs (packets net2) x) = hcount x (waiting (arp_table net2)) + hcount x [E] + preds (nexts (packets net2)) (all L) x) ∧
    (∀ x, x ∈ waiting (arp_table net2) → x ∈ all L) ∧
    (waiting (arp_table net2) = [] → [E] = [] → all L = ∅) ∧
    ∀ op, arp_allowed net2 [E] op → ∃ r s', run_arp_op cf0 quiet quiet drop op net2 = Ret (r, s').
Proof. exact (arp_references_exact ∅ cf0 quiet quiet drop net0 net2 [E] demo_protocols net0_start net2_steps). Defined.

Lemma no_match_start a n s : arp_table s = replicate 10 free_entry → no_match (arp_table (H := lheap) (M := memp) (D := frames) s) a n.
Proof. intros -> j e [-> _]%lookup_replicate Hs. done. Qed.
Lemma arp_resolution_delivers_witness :
  wp (_ ← etharp_query cf0 1 their_ip E; etharp_update_arp_entry cf0 1 their_ip their_mac ETHARP_FLAG_FIND_ONLY) (λ r s',
    r = ERR_OK ∧ (∃ L', arp_inv ∅ s' L' [E]) ∧
    ∃ i s1, etharp_find_entry cf0 (Some their_ip) ETHARP_FLAG_TRY_HARD 1 net1 = Ret (i, s1) ∧ (¬ none_empty (arp_table net1) → packets s1 = packets net1) ∧
      sends net1 s' ((if arp_room s1 then [(1, request_frame (netifs net1 1) ethbroadcast their_ip)] else []) ++
        [(1, frame their_mac (hwaddr (netifs net1 1)) ETHTYPE_IP (content (pbufs (packets net1)) (bytes (packets net1)) [E]))])) net1.
Proof.
  destruct net1_inv as [L Hinv]. apply (arp_resolution_delivers ∅ cf0 net1 L [E] 1 their_ip E [] their_mac Hinv).
  - done.
  - vm_compute. reflexivity.
  - by apply no_match_start.
  - done.
  - exact net1_sendable.
  - vm_compute. reflexivity.
  - exact (net1_ready L Hinv).
Defined.

Lemma arp_output_known_witness :
  wp (etharp_output cf0 1 E IPADDR_BROADCAST) (λ _ s', (∃ L', arp_inv ∅ s' L' [E]) ∧ sent_to net1 1 ethbroadcast E [] s') net1.
Proof.
  destruct net1_inv as [L Hinv]. apply (arp_output_known ∅ cf0 net1 L [E] 1 E [] IPADDR_BROADCAST ethbroadcast Hinv).
  - done.
  - exact net1_sendable.
  - exact (net1_ready L Hinv).
  - apply carries_broadcast. vm_compute. reflexivity.
Defined.

Lemma arp_find_entry_choice_witness :
  wp (etharp_find_entry cf0 (Some their_ip) ETHARP_FLAG_TRY_HARD 1) (λ r s',
    (0 ≤ r ∧ s' = net2 ∧ ∃ e, arp_table net2 !! Z.to_nat r = Some e ∧ state e ≠ ETHARP_STATE_EMPTY ∧ matches (Some their_ip) 1 e = true) ∨
    (no_match (arp_table net2) their_ip 1 ∧
      if decide (Z.land ETHARP_FLAG_TRY_HARD ETHARP_FLAG_FIND_ONLY = 0 ∧ (Z.land ETHARP_FLAG_TRY_HARD ETHARP_FLAG_TRY_HARD ≠ 0 ∨ ¬ none_empty (arp_table net2)))
      then (∃ L', holding ∅ (packets s') L' (waiting (arp_table s') ++ [E])) ∧ device s' = device net2 ∧
        ∃ e, to_recycle (arp_table net2) r e ∧ arp_table s' = <[Z.to_nat r := new_entry their_ip 1 e]> (arp_table net2)
      else r = ERR_MEM ∧ s' = net2)) net2.
Proof. destruct net2_inv as [L Hinv]. exact (arp_find_entry_choice ∅ cf0 net2 L [E] their_ip ETHARP_FLAG_TRY_HARD 1 Hinv). Defined.

(** The entry that waits for the neighbour's answer. *)
Definition waiting_entry : etharp_entry := MkEntry E their_ip 1 ethzero 0 ETHARP_STATE_PENDING.
Lemma arp_entry_expires_witness :
  wp (for_each 0 (Z.of_nat 5) (λ _, etharp_tmr cf0)) (λ _ s', (∃ L', arp_inv ∅ s' L' [E]) ∧
    ∃ e', arp_table s' !! 0%nat = Some e' ∧ (state e' = ETHARP_STATE_EMPTY ↔ age_limit waiting_entry ≤ ctime waiting_entry + Z.of_nat 5) ∧
      (state e' ≠ ETHARP_STATE_EMPTY → ipaddr e' = ipaddr waiting_entry ∧ netif_of e' = netif_of waiting_entry)) net2.
Proof.
  destruct net2_inv as [L Hinv]. apply (arp_entry_expires ∅ cf0 net2 L [E] 0%nat waiting_entry 5 Hinv); [vm_compute; reflexivity|done].
Defined.

(** The neighbour asks for our address: a packet [A] of 28 bytes. *)
Abbreviation alloc2 := (pbuf_alloc cf0 PBUF_RAW 28 PBUF_POOL).
Definition ps2 : pstate lheap memp := after alloc2 pb0.
Definition asking : list Z := arp_packet ARP_REQUEST their_mac their_ip ethzero our_ip.
Definition ps3 : pstate lheap memp := with_bytes (mem_store (bytes ps2) (payload (pbufs ps2 A)) asking) ps2.
Definition net3 : pnet := with_packets ps3 net0.
Lemma alloc2_answer : answer alloc2 pb0 = Some A.
Proof. vm_compute. reflexivity. Qed.
Lemma ps2_run : alloc2 pb0 = Ret (A, ps2).
Proof. exact (answer_after alloc2 pb0 A alloc2_answer). Qed.
Lemma net3_step : arp_step ∅ cf0 quiet quiet drop (net0, []) (net3, [A]).
Proof.
  apply arp_step_rest. intros L Hh. destruct (alloc_holds pb0 L [] PBUF_RAW 28 PBUF_POOL A ps2) as [L' Hh']; [exact Hh|lia|by vm_compute|by right; right; left|exact ps2_run|done|].
  exists L'. by apply holding_bytes.
Qed.
Lemma net3_inv : ∃ L, arp_inv ∅ net3 L [A].
Proof. exact (arp_reachable ∅ cf0 quiet quiet drop net0 _ [] net3 [A] demo_protocols (start_inv _ _ net0_start) (rtc_once _ _ net3_step)). Qed.
Lemma net3_owns L : arp_inv ∅ net3 L [A] → owns L A.
Proof.
  intros Hinv. destruct (inv_handle ∅ _ _ _ _ Hinv (list_elem_of_here _ _)) as [HA _].
  apply (not_ref_owns ∅ (packets net3)); [apply Hinv|exact HA|vm_compute; discriminate].
Qed.
Lemma arp_input_effect_witness : ∃ L,
  wp (etharp_input cf0 quiet quiet A 1) (λ _ s', (∃ L', arp_inv ∅ s' L' []) ∧
    ∃ fs r s1, learns net3 L 1 their_ip their_mac (for_us net3 1 our_ip) (arp_table s') fs ∧
      etharp_update_arp_entry cf0 1 their_ip their_mac (if for_us net3 1 our_ip then ETHARP_FLAG_TRY_HARD else ETHARP_FLAG_FIND_ONLY) net3 = Ret (r, s1) ∧
      sends net3 s' (fs ++ if (ARP_REQUEST =? ARP_REQUEST) && for_us net3 1 our_ip && arp_room s1 then [(1, reply_frame net3 1 their_mac their_ip)] else [])) net3.
Proof.
  destruct net3_inv as [L Hinv]. exists L.
  apply (arp_input_effect ∅ cf0 quiet quiet net3 L [] A 1 ARP_REQUEST their_mac their_ip ethzero our_ip).
  - done.
  - exact Hinv.
  - vm_compute. discriminate.
  - exact (net3_owns L Hinv).
  - change (A ∉ @nil Z). by intros ?%elem_of_nil.
  - done.
  - done.
  - by left.
  - by vm_compute.
  - by vm_compute.
  - vm_compute. reflexivity.
  - intros i e [-> _]%lookup_replicate Hs. done.
  - intros h. by apply wp_ret.
  - intros s. by apply wp_ret.
Defined.
